(* ===== verification/_CoqProject ===== *)
-Q . S2P
Prelude.v
Ram.v
Kheap.v
KheapProof.v
Dumbvm.v
Array.v
Queue.v
Bitmap.v
Own.v
Bump.v
Thread.v
ThreadFork.v
ThreadProof.v
ThreadInv.v
Threads.v
Bytes.v
Cstring.v
Copyinout.v
Uio.v
Blockdev.v
Lhd.v
Vnode.v
Sfs.v
SfsOps.v
SfsCareful.v
SfsBlock.v
SfsFile.v
SfsIo.v
SfsDir.v
SfsTrunc.v
SfsWorld.v
SfsSpec.v
SfsFault.v
Vfs.v
VfsRefs.v
VfsPaths.v
VfsCalls.v
VfsSpec.v
Emu.v
EmuRefs.v
EmuIo.v
EmuSpec.v
Pids.v
Filetable.v
FtSpec.v
Syscall.v
WriteSpec.v
Console.v
ConsoleSpec.v
Hello.v
Tlb.v
Coremap.v
CoremapProof.v
CoremapInv.v
CoremapLaws.v
CoremapBoot.v
Addrspace.v
CoremapPages.v
VmSpec.v
VmWorld.v
