(* ===== verification/Prelude.v ===== *)
(** * OS/161: a verification library for the kernel

    OS/161 is a small teaching kernel for a simulated MIPS machine with a
    LAMEbus; the sources are under [src/os161-1.11], and paths below are
    relative to it.  This library is a shallow embedding of a large part of
    the kernel, C function by C function, and the theorems that make those
    parts correct.

    ** The program and the files that model it

    Memory.  [kern/arch/mips/mips/ram.c] hands out physical pages at boot
    ([Ram.v]); [kern/arch/mips/mips/dumbvm.c] turns them into kernel pages
    ([Dumbvm.v], its [alloc_kpages] side); [kern/lib/kheap.c] builds [kmalloc]
    and [kfree] on top ([Kheap.v], proofs in [KheapProof.v]).  The heap asks
    for pages through the class [Pages], which [Dumbvm.v] instantiates, and
    everybody else asks for memory through the class [Allocator] of this file,
    which [Kheap.v] instantiates.  [Own.v] turns the contracts of the allocator
    into the ownership of lists of blocks.  [Bump.v] is a second allocator, of
    a few lines, on which examples run.

    Virtual memory.  [kern/vm] is the memory of the kernel once it is up.
    [Tlb.v] is [vm_tlb.c]; [Coremap.v] is [coremap.c], [swapfile.c] and the
    pages of the kernel in [addrspace.c], which instantiate [Pages] a second
    time, so that the contracts of the heap hold over them as well;
    [Addrspace.v] is [pt.c], [addrspace.c] and the loading of a page in
    [kern/userprog/loadelf.c].  [CoremapProof.v] has the free list,
    [CoremapInv.v] the invariant of frames, page tables, swap slots and
    translations ([frames_ok]), [CoremapLaws.v] the pages of the kernel,
    [CoremapBoot.v] start-up, [CoremapPages.v] the clock and the frames of the
    user, [VmSpec.v] page faults.  [VmWorld.v] boots a machine of 64 kilobytes
    and has the instances.

    Containers.  [kern/lib/array.c] is [Array.v], [kern/lib/queue.c] [Queue.v],
    [kern/lib/bitmap.c] [Bitmap.v]; each over any allocator.

    Threads.  [kern/thread/thread.c], [kern/thread/scheduler.c], the semaphores
    of [kern/thread/synch.c], [hardclock.c] and the interrupt path of
    [kern/arch/mips/mips] are [Thread.v].  A function that switches threads is
    cut at [md_switch]; what is left of it is the resume point of the thread,
    so that an execution is a sequence of steps of whoever is running.
    [ThreadFork.v] says what [thread_fork] does outside the heap, [ThreadProof.v]
    has the contract of each function, [ThreadInv.v] the invariant of the
    system, [Threads.v] the theorems.

    Bytes and user memory.  [Bytes.v] is byte ranges and the big-endian layout;
    [Cstring.v] the memory and string functions of [lib/libc] that the kernel
    links; [Copyinout.v] [kern/lib/copyinout.c]; [Uio.v] [kern/userprog/uio.c].

    Disk and files.  [Blockdev.v] is the part of [struct device]
    ([kern/include/dev.h]) a file system uses, as a class with laws; [Lhd.v] is
    [kern/dev/lamebus/lhd.c] and discharges them.  [Vnode.v] is
    [kern/fs/vfs/vnode.c].  SFS is [Sfs.v] (blocks, block map, transfers,
    directories) and [SfsOps.v] (the vnode operations, loading and reclaiming
    vnodes, mounting and syncing), which together are [kern/fs/sfs/sfs_io.c],
    [sfs_vnode.c] and [sfs_fs.c].  A write the disk refuses is lost without a
    word ([SfsFault.v]); [SfsCareful.v] therefore follows a run beside one on a
    device that gives up at the first such write, which either gives up or is
    the same run.  The proofs are [SfsBlock.v] (blocks), [SfsFile.v] (the block
    map), [SfsIo.v] (transfers), [SfsDir.v] (directories) and [SfsTrunc.v]
    (truncation); the properties are in [SfsSpec.v] and [SfsFault.v].
    [SfsWorld.v] mounts a small volume on a simulated disk by evaluating
    [sfs_domount], [sfs_getroot] and [sfs_creat], and is where the instances of
    the properties start from.

    VFS.  [Vfs.v] is [kern/fs/vfs]: [device.c], [devnull.c], [vfslist.c],
    [vfslookup.c], [vfscwd.c] and [vfspath.c], over any file system, which is
    the class [FsWorld] of operations.  [VfsRefs.v] states what the layer relies
    on ([FsLaws]: who holds which references to a vnode, those a file system
    keeps for itself included, and what a call hands back) and accounts for
    references; [VfsPaths.v] follows a path, [VfsCalls.v] has the calls,
    [VfsSpec.v] the theorems and a file system of two vnodes.

    The emulator's file system.  [Emu.v] is [kern/dev/lamebus/emu.c]: the driver
    of the card that passes requests to the host, and the file system on it, an
    instance of [FsWorld].  [EmuRefs.v] proves [FsLaws] of it, [EmuIo.v] the
    transfers, and [EmuSpec.v] has the theorems and a small machine.

    Processes and system calls.  [Pids.v] is the process numbers of
    [kern/userprog/process_syscall.c].  [Filetable.v] is
    [kern/thread/filetable.c] and [kern/userprog/write.c], over the VFS layer;
    [FtSpec.v] has its theorems.  [Syscall.v] is the dispatcher of
    [kern/arch/mips/mips/syscall.c].  [WriteSpec.v] puts the layers together: a
    system call of a process, down to the file of the host.  The console is
    [Console.v] ([kern/dev/generic/console.c]) with its theorems in
    [ConsoleSpec.v]; [Hello.v] starts a machine without file systems, in the
    order of [boot] in [kern/main/main.c], and lets a process write to its
    standard output.

    ** How code is modelled

    A C function is a function of the monad [M S] of this file: it takes the
    state it can reach and gives back [Ret] of its result and the new state,
    or [Stop] of the way it ended.  [Panic] is a failed assertion or a call of
    [panic], [Fault] an access the program has no right to make, and [OutOfFuel]
    the limit of a loop of the model.  Structures are records, tables and
    linked objects finite maps from addresses, and an integer is a [Z] in the
    range of its C type with the wrap-around written out ([u32], [s32], [u16],
    [u8]).  Error codes are the numbers of [kern/include/kern/errno.h].  A loop
    whose bound is known runs that many times; the others have fuel, and the
    contracts show that it is enough: [wpo p m s Q] says that [m] run from [s]
    returns and that [Q] holds of the result, or that it panicked and [p]
    holds; running out of fuel satisfies no contract.  The bounds: the reads
    of [sfs_rwblock] are tried eleven times, as in the source; [q_addtail] and
    [q_grow] call each other at most twice; [uiomove] makes one round for the
    one vector its [uio] has; the loops of [emufs_read] and [emufs_write] move
    at least a byte each time and have one round more than bytes; [ft_add]
    stops at [OPEN_MAX].  The functions of the file table take the depth to
    which they may call each other as an argument: on a table with its
    standard files none is needed, and on one without them, when memory has
    run out, none is enough.

    ** What the theorems show

    - Heap: [kmalloc] and [kfree] hand out and take back disjoint blocks.
    - Virtual memory: start-up leaves memory in order; the translation buffer
      is a finite map; a fault brings a page back with its bytes, loses no
      other page and leaves no stale translation; and where it does not work:
      the 64th translation, runs of kernel pages, two evictions in a row,
      addresses behind a segment, [execv].
    - Containers: arrays refine lists, queues refine first-in first-out lists,
      bitmaps refine sets; what reserving memory is worth.
    - Threads: the invariant of the thread system is kept by every step for
      ever, no assertion fails unless memory runs out, semaphores count and
      lose no wakeup, no runnable thread starves, and each operation does to
      the run queue, the sleepers and the dead what it should; a fork that
      fails gives back all it took but the file table.
    - User memory: a copy moves the bytes asked for or answers [EFAULT]; it
      neither reads nor changes a byte at a kernel address; [memmove] is right
      for overlapping buffers; [uiomove] moves exactly what it is asked to.
    - SFS: a read brings the bytes of the file, and, unless the disk refuses a
      write on the way, a write changes exactly the bytes it is given and no
      other file, a read then brings them back, a directory is a finite map
      from names to inode numbers, and truncation frees exactly the blocks it
      takes.
    - VFS: opening and closing a path, looking it up, changing the current
      directory and the calls on directories neither lose nor invent a
      reference, whatever fails; names resolve as their form says.
    - Emulator: [emu.c] keeps the contract of the VFS layer and never provokes
      an answer it panics on; reads and writes are of the host's file.
    - Processes: a number is given to one process at a time, the last one given
      back first; an exit, the parent's end and the freeing of a number take
      effect on exactly one process, and recycle its number when all is done,
      but for the last entry of the list.
      A file gets the lowest free number.  What a process writes, system call
      after system call, is what the host's file has; on a machine that has
      just started, what it writes to its standard output is on the screen.
    - Console: a write shows its bytes, a read gets the line that is typed, and
      what it gets of keys that are struck faster than it reads.
    - Errors: retries stop; a write that the disk refuses is lost silently; one
      block is left behind by truncation; reservations that the code relies on
      are one short or are given up.

    ** What is assumed

    Hardware is a parameter.  The card of the disk driver is the class
    [LhdCard], whose laws state that a read of a sector gives it or reports a
    media error, and that a write stores it or reports a media error and
    leaves anything in that sector; a simulated card instantiates them.  The
    emulator's card is the class [EmuCard]; [CardLaws] says that it answers with
    a fatal code only to a request it should not have been sent, and which
    handles are open after a request; [HostCard] that a read or write of an open
    handle is one of the host's file, or an error.  The device under the console
    ([ConLaws]) shows the characters it is sent; keys come in
    bursts, any number of them at each point where a reader can tell.  The blocks of the
    heap are aligned ([AlignedAlloc], which [KheapProof.v] proves of the
    kernel's heap).  The processor's side of the translation buffer is what
    [kern/arch/mips/include/tlb.h] says of it.  The swap file is the class
    [SwapFile]: a transfer may fail, and as long as none has, what is written at
    an offset is what is read there.  The executable that pages are loaded from
    is a function on [uio]s.  User memory is a region of which some part can be
    accessed.  Locks do nothing, as in [synch.c] of this tree, and interrupts
    are off in the functions that run as one step; [Thread.v] says why
    [thread_fork] is one.

    ** What is not modelled

    Threads that run between the steps of a page fault (an eviction lowers the
    interrupt level while the swap file is written), or while the emulator's
    driver waits for its card.  The other devices, the LAMEbus and
    autoconfiguration ([config_emu] and most of [config_con] included), which are
    register access and the making of locks and semaphores; [load_elf] and most of [sys_execv]; the process calls of
    [process_syscall.c], which this configuration does not build; the menu, the
    in-kernel tests, the [asst1] exercises, and everything that runs in user
    mode.  Of the modelled files: output by [kprintf] and [DEBUG], the statistics
    and the disabled consistency checks of the heap, [lhd_reset] (never called),
    [ft_test] and [ft_test_list], which print, and [sfs_mount], which only hands
    [sfs_domount] to the VFS. *)

From Stdlib Require Export ZArith Lia.
From stdpp Require Export base list numbers gmap.

#[global] Open Scope Z_scope.
#[export] Set Warnings "-clear-no-such-hyp".

(** ** How C code stops

    [Panic] is a failed [assert] or a call of [panic]; [Fault] is an access
    the C program has no right to make (a null or out-of-range pointer);
    [OutOfFuel] is the model's own limit on a loop, and every theorem that
    claims a result proves that it is not reached.  [Refused] is not a way the
    C code stops: a device of the proofs ([Blockdev.v]) that gives up at the
    first write the disk refuses stops with it, and no other definition. *)

Inductive stop :=
| Panic
| Fault
| OutOfFuel
| Refused.

#[global] Instance stop_eq_dec : EqDecision stop.
Proof. solve_decision. Defined.

Inductive res (A : Type) :=
| Ret (a : A)
| Stop (w : stop).
Arguments Ret {A} _.
Arguments Stop {A} _.

Definition rbind {A B} (r : res A) (k : A -> res B) : res B :=
  match r with
  | Ret a => k a
  | Stop w => Stop w
  end.

(** Code that changes a state [S] and may stop. *)
Definition M (S A : Type) : Type := S -> res (A * S).

Definition ret {S A} (a : A) : M S A := fun s => Ret (a, s).

Definition bind {S A B} (m : M S A) (k : A -> M S B) : M S B :=
  fun s =>
    match m s with
    | Ret (a, s') => k a s'
    | Stop w => Stop w
    end.

Definition halt {S A} (w : stop) : M S A := fun _ => Stop w.
Definition get {S} : M S S := fun s => Ret (s, s).
Definition put {S} (s : S) : M S unit := fun _ => Ret (tt, s).
Definition modify {S} (f : S -> S) : M S unit := fun s => Ret (tt, f s).
Definition gets {S A} (f : S -> A) : M S A := fun s => Ret (f s, s).
Definition lift {S A} (r : res A) : M S A :=
  fun s => match r with Ret a => Ret (a, s) | Stop w => Stop w end.

(** The kernel's [assert]. *)
Definition rassert (b : bool) : res unit := if b then Ret tt else Stop Panic.
Definition kassert {S} (b : bool) : M S unit := lift (rassert b).

Declare Scope kernel_scope.
Delimit Scope kernel_scope with kernel.
#[global] Open Scope kernel_scope.

Notation "'let*' x := m 'in' k" := (bind m (fun x => k))
  (at level 10, x pattern, m at level 100, k at level 200,
   format "'[v' 'let*'  x  :=  m  'in' '/' k ']'") : kernel_scope.
Notation "'let?' x := m 'in' k" := (rbind m (fun x => k))
  (at level 10, x pattern, m at level 100, k at level 200,
   format "'[v' 'let?'  x  :=  m  'in' '/' k ']'") : kernel_scope.

(** ** Total correctness

    [wpo p m s Q]: from [s], [m] returns and the result satisfies [Q]; it
    neither faults nor runs out of fuel, and it panics only if [p] holds: [p]
    is [False] for code that must not panic, and it is how a component says
    that exhausting memory may take the kernel down.  [wp] is [wpo False].
    Both exclude [Refused]; [wpr] does not, and is for code over a device that
    gives up at the first write that fails. *)

Definition wpx {S A} (r p : Prop) (m : M S A) (s : S) (Q : A -> S -> Prop) : Prop :=
  match m s with
  | Ret (a, s') => Q a s'
  | Stop Panic => p
  | Stop Refused => r
  | Stop _ => False
  end.

Abbreviation wpo := (wpx False).
Abbreviation wp := (wpx False False).
Abbreviation wpr := (wpx True False).

Definition rwp {A} (r : res A) (Q : A -> Prop) : Prop :=
  match r with
  | Ret a => Q a
  | Stop _ => False
  end.

Section Wp.
Context {S A B : Type} {r p : Prop}.
Implicit Types (s : S) (m : M S A).

Lemma wp_ret (a : A) s (Q : A -> S -> Prop) : Q a s -> wpx r p (ret a) s Q.
Proof. done. Qed.

Lemma wp_bind m (k : A -> M S B) s (Q : B -> S -> Prop) :
  wpx r p m s (fun a s' => wpx r p (k a) s' Q) -> wpx r p (bind m k) s Q.
Proof. unfold wpx, bind. by destruct (m s) as [[a s']|[]]. Qed.

(** The two commands a program starts with, taken together. *)
Lemma wp_bind_assoc {C} m (f : A -> M S B) (k : B -> M S C) s
    (P : B -> S -> Prop) (Q : C -> S -> Prop) :
  wpx r p (bind m f) s P -> (forall b s', P b s' -> wpx r p (k b) s' Q) ->
  wpx r p (bind m (fun a => bind (f a) k)) s Q.
Proof.
  unfold wpx, bind. intros HP HQ. destruct (m s) as [[a s1]|w]; [|exact HP].
  destruct (f a s1) as [[b s2]|w]; [|exact HP]. by apply HQ.
Qed.

Lemma wp_lift (x : res A) s (Q : A -> S -> Prop) :
  rwp x (fun a => Q a s) -> wpx r p (lift x) s Q.
Proof. unfold wpx, lift. by destruct x. Qed.

Lemma wp_lift_Ret (x : res A) (a : A) s (Q : A -> S -> Prop) :
  x = Ret a -> Q a s -> wpx r p (lift x) s Q.
Proof. by intros ->. Qed.

Lemma wp_kassert (b : bool) s (Q : unit -> S -> Prop) :
  b = true -> Q tt s -> wpx r p (kassert b) s Q.
Proof. by intros ->. Qed.

Lemma wp_get s (Q : S -> S -> Prop) : Q s s -> wpx r p get s Q.
Proof. done. Qed.

Lemma wp_put s s' (Q : unit -> S -> Prop) : Q tt s' -> wpx r p (put s') s Q.
Proof. done. Qed.

Lemma wp_modify s (f : S -> S) (Q : unit -> S -> Prop) : Q tt (f s) -> wpx r p (modify f) s Q.
Proof. done. Qed.

Lemma wp_gets s (f : S -> A) (Q : A -> S -> Prop) : Q (f s) s -> wpx r p (gets f) s Q.
Proof. done. Qed.

Lemma wp_Ret m s a s' (Q : A -> S -> Prop) :
  m s = Ret (a, s') -> Q a s' -> wpx r p m s Q.
Proof. unfold wpx. by intros ->. Qed.

Lemma wp_mono m s (Q R : A -> S -> Prop) :
  wpx r p m s Q -> (forall a s', Q a s' -> R a s') -> wpx r p m s R.
Proof. unfold wpx. destruct (m s) as [[a s']|[]]; auto. Qed.

Lemma wp_weaken (q : Prop) m s (Q : A -> S -> Prop) :
  wpx r q m s Q -> (q -> p) -> wpx r p m s Q.
Proof. unfold wpx. destruct (m s) as [[a s']|[]]; auto. Qed.

(** A contract with another clause for panics. *)
Lemma wp_conseq (q : Prop) m s (Q R : A -> S -> Prop) :
  wpx r q m s Q -> (q -> p) -> (forall a s', Q a s' -> R a s') -> wpx r p m s R.
Proof. unfold wpx. destruct (m s) as [[a s']|[]]; auto. Qed.

(** Code that meets no such device is not refused. *)
Lemma wp_calls (q : Prop) m s (Q : A -> S -> Prop) :
  wpo q m s Q -> (q -> p) -> wpx r p m s Q.
Proof. unfold wpx. destruct (m s) as [[a s']|[]]; auto; done. Qed.

Lemma wp_elim m s (Q : A -> S -> Prop) :
  wp m s Q <-> exists a s', m s = Ret (a, s') /\ Q a s'.
Proof.
  unfold wpx. split.
  - destruct (m s) as [[a s']|[]]; [eauto | done..].
  - intros (a & s' & -> & HQ). done.
Qed.

Lemma rwp_elim (x : res A) (Q : A -> Prop) :
  rwp x Q <-> exists a, x = Ret a /\ Q a.
Proof.
  unfold rwp. split.
  - destruct x; [eauto | done].
  - intros (a & -> & HQ). done.
Qed.

Lemma rwp_bind (x : res A) (k : A -> res B) (Q : B -> Prop) :
  rwp x (fun a => rwp (k a) Q) -> rwp (rbind x k) Q.
Proof. by destruct x. Qed.

Lemma rwp_mono (x : res A) (Q R : A -> Prop) :
  rwp x Q -> (forall a, Q a -> R a) -> rwp x R.
Proof. destruct x; simpl; auto. Qed.

Lemma bind_ret_l (a : A) (k : A -> M S B) s : bind (ret a) k s = k a s.
Proof. done. Qed.

Lemma bind_Ret m (k : A -> M S B) s a s' :
  m s = Ret (a, s') -> bind m k s = k a s'.
Proof. unfold bind. by intros ->. Qed.

Lemma bind_Stop m (k : A -> M S B) s w :
  m s = Stop w -> bind m k s = Stop w.
Proof. unfold bind. by intros ->. Qed.

Lemma bind_inv m (k : A -> M S B) s b s2 :
  bind m k s = Ret (b, s2) ->
  exists a s1, m s = Ret (a, s1) /\ k a s1 = Ret (b, s2).
Proof. unfold bind. destruct (m s) as [[a s1]|]; [eauto | done]. Qed.
End Wp.

(** Take one statement of a [wp] goal. *)
Ltac wp_step :=
  cbv beta iota;
  lazymatch goal with
  | |- wpx _ _ (bind _ _) _ _ => apply wp_bind
  | |- wpx _ _ (ret _) _ _ => apply wp_ret
  | |- wpx _ _ (kassert _) _ _ => apply wp_kassert; [try (rewrite ?andb_true_iff, ?Z.gtb_lt; simpl length; lia)|]
  | |- wpx _ _ (lift _) _ _ => apply wp_lift
  | |- wpx _ _ get _ _ => apply wp_get
  | |- wpx _ _ (put _) _ _ => apply wp_put
  | |- wpx _ _ (modify _) _ _ => apply wp_modify
  | |- wpx _ _ (gets _) _ _ => apply wp_gets
  | |- rwp (rbind _ _) _ => apply rwp_bind
  end.
Ltac wp_steps := repeat wp_step.

(** ** Machine integers

    A C [int] is a [Z] in the signed 32-bit range, an [unsigned], [size_t],
    [u_int32_t] or pointer a [Z] in the unsigned one.  The wrap-around of
    each arithmetic operation of the source is written out. *)

Definition u32 (z : Z) : Z := z mod 2 ^ 32.
Definition s32 (z : Z) : Z := (z + 2 ^ 31) mod 2 ^ 32 - 2 ^ 31.
Definition u16 (z : Z) : Z := z mod 2 ^ 16.
Definition u8 (z : Z) : Z := z mod 2 ^ 8.

Lemma u32_small z : 0 <= z < 2 ^ 32 -> u32 z = z.
Proof. apply Z.mod_small. Qed.

Lemma u32_bound z : 0 <= u32 z < 2 ^ 32.
Proof. apply Z.mod_pos_bound. lia. Qed.

Lemma s32_small z : - 2 ^ 31 <= z < 2 ^ 31 -> s32 z = z.
Proof. intros H. unfold s32. rewrite Z.mod_small; lia. Qed.

Lemma s32_bound z : - 2 ^ 31 <= s32 z < 2 ^ 31.
Proof. unfold s32. pose proof (Z.mod_pos_bound (z + 2 ^ 31) (2 ^ 32)). lia. Qed.

Lemma u32_idemp z : u32 (u32 z) = u32 z.
Proof. apply u32_small, u32_bound. Qed.

Lemma u8_bound z : 0 <= u8 z < 2 ^ 8.
Proof. apply Z.mod_pos_bound. lia. Qed.

Lemma u8_small z : 0 <= z < 2 ^ 8 -> u8 z = z.
Proof. apply Z.mod_small. Qed.

Lemma u16_small z : 0 <= z < 2 ^ 16 -> u16 z = z.
Proof. apply Z.mod_small. Qed.

Create HintDb machine.
Create Rewrite HintDb machine.
#[export] Hint Rewrite u32_small u8_small u16_small s32_small using lia : machine.
#[export] Hint Resolve u32_bound s32_bound u8_bound : machine.

(** ** Bits *)

Lemma land_pow2 a j : 0 <= j -> Z.land a (2 ^ j) = if Z.testbit a j then 2 ^ j else 0.
Proof.
  intros Hj. apply Z.bits_inj'. intros n Hn. rewrite Z.land_spec, Z.pow2_bits_eqb by lia.
  destruct (Z.eqb_spec j n) as [->|].
  - rewrite andb_true_r. destruct (Z.testbit a n) eqn:E; [|by rewrite Z.testbit_0_l].
    by rewrite Z.pow2_bits_true.
  - rewrite andb_false_r. destruct (Z.testbit a j); [|by rewrite Z.testbit_0_l].
    by rewrite Z.pow2_bits_false.
Qed.

Lemma all_bits_ones (w n : Z) :
  0 <= n -> 0 <= w < 2 ^ n -> (forall j, 0 <= j < n -> Z.testbit w j = true) -> w = Z.ones n.
Proof.
  intros Hn Hw Hb. apply Z.bits_inj'. intros j Hj.
  rewrite Z.testbit_ones_nonneg by lia. destruct (Z.ltb_spec j n); [apply Hb; lia|].
  destruct (decide (w = 0)) as [->|]; [apply Z.testbit_0_l|].
  apply Z.bits_above_log2; [lia|]. apply Z.log2_lt_pow2; [lia|].
  apply Z.lt_le_trans with (2 ^ n); [lia|]. apply Z.pow_le_mono_r; lia.
Qed.

(** ** Error numbers ([kern/include/kern/errno.h]) *)

Definition EINVAL : Z := 1.
Definition EFAULT : Z := 2.
Definition ENAMETOOLONG : Z := 3.
Definition ENOMEM : Z := 4.
Definition EIO : Z := 5.
Definition ENOENT : Z := 6.
Definition ENOTDIR : Z := 7.
Definition EISDIR : Z := 8.
Definition EEXIST : Z := 9.
Definition EXDEV : Z := 10.
Definition EAGAIN : Z := 11.
Definition ESPIPE : Z := 12.
Definition EUNIMP : Z := 13.
Definition ENXIO : Z := 14.
Definition ENODEV : Z := 15.
Definition EBUSY : Z := 16.
Definition EIOCTL : Z := 17.
Definition ENOTEMPTY : Z := 18.
Definition ENOSPC : Z := 20.
Definition ENOSYS : Z := 23.
Definition ENOEXEC : Z := 24.
Definition E2BIG : Z := 25.
Definition EBADF : Z := 26.

(** ** C arrays

    An array object is a list; a subscript outside of it is a [Fault]. *)

Section CArray.
Context {A : Type}.
Implicit Types (l : list A) (i : Z) (x : A).

Definition rd l i : res A :=
  if i <? 0 then Stop Fault
  else match l !! Z.to_nat i with
       | Some x => Ret x
       | None => Stop Fault
       end.

Definition wr l i x : res (list A) :=
  if (i <? 0) || (Z.of_nat (length l) <=? i) then Stop Fault
  else Ret (<[Z.to_nat i := x]> l).

Lemma rd_lookup l i x : 0 <= i -> l !! Z.to_nat i = Some x -> rd l i = Ret x.
Proof. intros Hi Hl. unfold rd. destruct (Z.ltb_spec i 0); [lia|]. by rewrite Hl. Qed.

Lemma rd_nat l (n : nat) x : l !! n = Some x -> rd l (Z.of_nat n) = Ret x.
Proof. intros H. apply rd_lookup; [lia|]. by rewrite Nat2Z.id. Qed.

Lemma rd_inv l i x : rd l i = Ret x -> 0 <= i /\ l !! Z.to_nat i = Some x.
Proof.
  unfold rd. destruct (Z.ltb_spec i 0); [done|].
  destruct (l !! Z.to_nat i) eqn:E; intros; simplify_eq; auto.
Qed.

Lemma rd_total l i : 0 <= i < Z.of_nat (length l) -> exists x, rd l i = Ret x.
Proof.
  intros Hi. destruct (lookup_lt_is_Some_2 l (Z.to_nat i)) as [x Hx]; [lia|].
  exists x. apply rd_lookup; [lia | done].
Qed.

Lemma rd_out l i : ~ (0 <= i < Z.of_nat (length l)) -> rd l i = Stop Fault.
Proof.
  intros Hi. unfold rd. destruct (Z.ltb_spec i 0); [done|].
  rewrite lookup_ge_None_2; [done | lia].
Qed.

Lemma wr_in l i x :
  0 <= i < Z.of_nat (length l) -> wr l i x = Ret (<[Z.to_nat i := x]> l).
Proof.
  intros Hi. unfold wr.
  destruct (Z.ltb_spec i 0), (Z.leb_spec (Z.of_nat (length l)) i); try lia; done.
Qed.

Lemma wr_out l i x : ~ (0 <= i < Z.of_nat (length l)) -> wr l i x = Stop Fault.
Proof.
  intros Hi. unfold wr.
  destruct (Z.ltb_spec i 0), (Z.leb_spec (Z.of_nat (length l)) i); try lia; done.
Qed.

Lemma wr_nat l (n : nat) x :
  (n < length l)%nat -> wr l (Z.of_nat n) x = Ret (<[n := x]> l).
Proof. intros H. rewrite wr_in by lia. by rewrite Nat2Z.id. Qed.

Lemma wr_inv l i x l' :
  wr l i x = Ret l' ->
  0 <= i < Z.of_nat (length l) /\ l' = <[Z.to_nat i := x]> l.
Proof.
  unfold wr.
  destruct (Z.ltb_spec i 0), (Z.leb_spec (Z.of_nat (length l)) i);
    simpl; intros; simplify_eq; split; auto; lia.
Qed.
End CArray.

(** [for (i = 0; i < n; i++) dst[i] = src[i];] *)
Fixpoint copy_up {A} (n : nat) (i : Z) (src dst : list A) : res (list A) :=
  match n with
  | O => Ret dst
  | S n' =>
      let? x := rd src i in
      let? dst' := wr dst i x in
      copy_up n' (i + 1) src dst'
  end.

Lemma take_S_insert {A} (l : list A) (i : nat) x :
  (i < length l)%nat -> take (S i) (<[i := x]> l) = take i l ++ [x].
Proof.
  intros H. rewrite (take_S_r _ _ x) by (by apply list_lookup_insert_eq).
  f_equal. by apply take_insert_ge.
Qed.

Lemma insert_last_app {A} (l l' : list A) x (n : nat) :
  length l = n -> length l' = S n ->
  (forall k, (k < n)%nat -> l' !! k = l !! k) -> <[n := x]> l' = l ++ [x].
Proof.
  intros Hl Hl' Hk.
  apply (list_eq_same_length _ _ (S n)); rewrite ?length_insert, ?length_app; simpl; [lia..|].
  intros k y z Hlt Hy Hz. destruct (decide (k = n)) as [->|].
  - rewrite list_lookup_middle in Hz by done.
    rewrite list_lookup_insert_eq in Hy by lia. congruence.
  - rewrite lookup_app_l in Hz by lia. rewrite list_lookup_insert_ne in Hy by lia.
    rewrite Hk in Hy by lia. congruence.
Qed.

Lemma copy_up_spec {A} (n i : nat) (src dst : list A) :
  (i + n <= length src)%nat -> (i + n <= length dst)%nat ->
  take i dst = take i src ->
  copy_up n (Z.of_nat i) src dst = Ret (take (i + n) src ++ drop (i + n) dst).
Proof.
  revert i dst. induction n as [|n IH]; intros i dst Hs Hd Heq; simpl.
  - rewrite Nat.add_0_r, <- Heq, take_drop. done.
  - destruct (lookup_lt_is_Some_2 src i) as [x Hx]; [lia|].
    rewrite (rd_nat _ _ _ Hx); simpl. rewrite wr_nat by lia; simpl.
    replace (Z.of_nat i + 1) with (Z.of_nat (S i)) by lia.
    rewrite IH.
    + rewrite drop_insert_lt by lia. by rewrite Nat.add_succ_r.
    + lia.
    + rewrite length_insert. lia.
    + rewrite take_S_insert by lia. rewrite Heq. symmetry. by apply take_S_r.
Qed.

(** Equality of finite sets of addresses, deciding membership in each part. *)
Ltac gset_eq :=
  apply leibniz_equiv;
  let x := fresh "x" in
  intros x;
  repeat match goal with
    | |- context [ x ∈ ?X ∪ ?Y ] => rewrite (elem_of_union X Y x)
    | |- context [ x ∈ ?X ∖ ?Y ] => rewrite (elem_of_difference X Y x)
    end;
  repeat match goal with
    | |- context [ x ∈ ?X ] =>
        lazymatch goal with
        | _ : x ∈ X |- _ => fail
        | _ : x ∉ X |- _ => fail
        | _ => destruct (decide (x ∈ X))
        end
    end;
  set_solver.

(** ** Allocation

    The operations one component calls of another are a class: [kmalloc] and
    [kfree] run on a heap state [H] of their own, and a null result is [0].
    [AllocatorLaws] is what a client may rely on: [heap_ok h L] says that the
    heap is sound and that the addresses [L] are handed out; [kmalloc] hands
    out a fresh one or fails without effect, and [kfree] takes back exactly
    its argument.  [oom_panics] says whether [kmalloc] may panic instead of
    returning null. *)

Class Allocator (H : Type) := {
  kmalloc : Z -> M H Z;
  kfree : Z -> M H unit;
}.

(** The requests for which no size computation of the allocators wraps. *)
Definition MAXALLOC : Z := 2 ^ 31.

Class AllocatorLaws (H : Type) `{!Allocator H} := {
  oom_panics : Prop;
  heap_ok : H -> gset Z -> Prop;
  kmalloc_law n h L : heap_ok h L -> 0 < n <= MAXALLOC ->
    wpo oom_panics (kmalloc n) h (fun p h' =>
      (p = 0 /\ heap_ok h' L) \/
      (p <> 0 /\ (p ∉ L) /\ heap_ok h' ({[ p ]} ∪ L)));
  kfree_law p h L : heap_ok h ({[ p ]} ∪ L) -> p ∉ L ->
    wpo oom_panics (kfree p) h (fun _ h' => heap_ok h' L);
}.

(** The blocks of a 32-bit machine, aligned to eight bytes. *)
Class AlignedAlloc (H : Type) `{AllocatorLaws H} :=
  aligned (h : H) L p : heap_ok h L -> p ∈ L -> 0 < p < 2 ^ 32 /\ p mod 8 = 0.

(** The allocator can refuse a request: some [kmalloc] returns null. *)
Definition alloc_fails {H : Type} `{!Allocator H} : Prop :=
  exists n h h', kmalloc n h = Ret (0, h').

Lemma kmalloc_wp {H} `{AllocatorLaws H} n h L :
  heap_ok h L -> 0 < n <= MAXALLOC ->
  wpo oom_panics (kmalloc n) h (fun p h' =>
    (p = 0 /\ alloc_fails /\ heap_ok h' L) \/
    (p <> 0 /\ (p ∉ L) /\ heap_ok h' ({[ p ]} ∪ L))).
Proof.
  intros Hh Hn. pose proof (kmalloc_law n h L Hh Hn) as W. unfold wpx in *.
  destruct (kmalloc n h) as [[p h']|[]] eqn:E; try done.
  destruct W as [[-> ?]|?]; [left | by right]. split_and!; try done. by exists n, h, h'.
Qed.
