(* ===== verification/Ram.v ===== *)
(** * Physical memory at boot ([kern/arch/mips/mips/ram.c])

    The three globals of the file are the record [ram].  The size of RAM comes
    from the bus ([mips_ramsize]) and the first free address from [start.S];
    both are arguments of [ram_bootstrap]. *)

From S2P Require Import Prelude.

Definition PAGE_SIZE : Z := 4096.
Definition PAGE_FRAME : Z := 0xfffff000.
Definition MIPS_KSEG0 : Z := 0x80000000.
Definition PADDR_TO_KVADDR (paddr : Z) : Z := u32 (paddr + MIPS_KSEG0).

Record ram := mkRam {
  firstpaddr : Z;
  lastpaddr : Z;
  first_vm_addr : Z;
}.

(** Before [ram_bootstrap]; [first_vm_addr] starts as the largest [int]. *)
Definition ram_zero : ram := mkRam 0 0 0x7fffffff.

Definition RAM_LIMIT : Z := 508 * 1024 * 1024.

Definition ram_bootstrap (mips_ramsize firstfree : Z) : M ram unit :=
  let ramsize := if mips_ramsize >? RAM_LIMIT then RAM_LIMIT else mips_ramsize in
  modify (fun r => mkRam (u32 (firstfree - MIPS_KSEG0)) ramsize (first_vm_addr r)).

Definition ram_stealmem (npages : Z) : M ram Z :=
  let size := u32 (npages * PAGE_SIZE) in
  let* r := get in
  if u32 (firstpaddr r + size) >? lastpaddr r then ret 0
  else
    let paddr := firstpaddr r in
    let* _ := put (mkRam (u32 (firstpaddr r + size)) (lastpaddr r) (first_vm_addr r)) in
    ret paddr.

Definition ram_getsize : M ram (Z * Z) :=
  let* r := get in
  let* _ := put (mkRam 0 0 (s32 (PADDR_TO_KVADDR (firstpaddr r)))) in
  ret (firstpaddr r, lastpaddr r).

Definition is_vm_setup (r : ram) : bool := lastpaddr r =? 0.
Definition was_vm_alloced (r : ram) (ptr : Z) : bool := s32 ptr >=? first_vm_addr r.

(** ** Stealing memory *)

(** The layout the machine guarantees: page-aligned free memory above the
    exception handlers' page, below the 508 megabyte limit. *)
Definition ram_wf (r : ram) : Prop :=
  0 < firstpaddr r /\ firstpaddr r mod PAGE_SIZE = 0 /\
  firstpaddr r <= lastpaddr r <= RAM_LIMIT.

Lemma ram_bootstrap_wf mips_ramsize firstfree r :
  MIPS_KSEG0 < firstfree < 2 ^ 32 -> firstfree mod PAGE_SIZE = 0 ->
  firstfree - MIPS_KSEG0 <= mips_ramsize -> firstfree - MIPS_KSEG0 <= RAM_LIMIT ->
  wp (ram_bootstrap mips_ramsize firstfree) r (fun _ r' =>
    ram_wf r' /\ is_vm_setup r' = false).
Proof.
  intros Hf Hal Hs Hl. unfold wpx, ram_bootstrap, modify, ram_wf, is_vm_setup; simpl.
  unfold MIPS_KSEG0, RAM_LIMIT, PAGE_SIZE in *. rewrite u32_small by lia.
  rewrite Zminus_mod, Hal. change (0x80000000 mod 4096) with 0. simpl.
  destruct (mips_ramsize >? _) eqn:?; split_and!; done || lia.
Qed.

(** A steal either fails without effect or takes the lowest free pages. *)
Lemma ram_stealmem_spec npages r :
  ram_wf r -> 0 <= npages <= 2 ^ 19 ->
  wp (ram_stealmem npages) r (fun p r' =>
    (p = 0 /\ r' = r /\ lastpaddr r < firstpaddr r + npages * PAGE_SIZE) \/
    (p = firstpaddr r /\ p <> 0 /\ ram_wf r' /\ lastpaddr r' = lastpaddr r /\
     firstpaddr r' = p + npages * PAGE_SIZE)).
Proof.
  intros (Hf & Hal & Hl) Hn. unfold wpx, ram_stealmem, RAM_LIMIT, PAGE_SIZE in *.
  unfold bind, get. rewrite (u32_small (npages * 4096)), u32_small by lia.
  destruct (Z.gtb_spec (firstpaddr r + npages * 4096) (lastpaddr r)); simpl.
  - left. split_and!; lia || done.
  - right. split_and!; try lia. unfold ram_wf, RAM_LIMIT, PAGE_SIZE; simpl.
    rewrite Z.mod_add by lia. lia.
Qed.

(** The guard of [ram_stealmem] adds in 32 bits: a request close to 4 GB wraps
    past it, and moves the free pointer down into memory already handed out. *)
Lemma ram_stealmem_wraps :
  ram_stealmem 0xfffff (mkRam 0x10000 0x80000 0) = Ret (0x10000, mkRam 0xf000 0x80000 0).
Proof. reflexivity. Qed.
