(* ===== verification/Kheap.v ===== *)
(** * The kernel heap ([kern/lib/kheap.c])

    The file's globals are the record [kheap]: the table of page references,
    its in-use words, the list heads, and the words of the pages it manages,
    in which the free lists live.  A pointer to a [struct pageref] is an index
    into the table.  Pages come from the virtual memory system through the
    class [Pages] ([alloc_kpages], [free_kpages], and the boot-time state of
    [ram.c]), of which [kern/arch/mips/mips/dumbvm.c] is an instance.

    [kheap_rep h B] says that the heap is sound and that [B] maps the address
    of each block handed out to its capacity.  Interrupts are off in each of
    these functions, so they run as one step. *)

From S2P Require Import Prelude.
From S2P Require Import Ram.

Class Pages (P : Type) := {
  alloc_kpages : Z -> M P Z;
  free_kpages : Z -> M P unit;
  ram_of : P -> ram;
  set_ram : ram -> P -> P;
}.

(** What the heap may assume of the page allocator: [pages_ok s G] says that it
    is sound and that [G] maps the address of each run of pages handed out to
    its length.  Runs are page-aligned, lie below 4 GB and do not overlap. *)
Class PagesLaws (P : Type) `{!Pages P} := {
  pages_oom : Prop;
  pages_ok : P -> gmap Z Z -> Prop;
  pages_wf s G p n : pages_ok s G -> G !! p = Some n ->
    0 < p /\ 0 < n /\ p mod PAGE_SIZE = 0 /\ p + n * PAGE_SIZE < 2 ^ 32;
  pages_disjoint s G p n q m : pages_ok s G ->
    G !! p = Some n -> G !! q = Some m -> p <> q ->
    p + n * PAGE_SIZE <= q \/ q + m * PAGE_SIZE <= p;
  alloc_law s G n : pages_ok s G -> is_vm_setup (ram_of s) = true ->
    0 < n <= 2 ^ 19 ->
    wpo pages_oom (alloc_kpages n) s (fun p s' =>
      (p = 0 /\ pages_ok s' G) \/
      (p <> 0 /\ G !! p = None /\ pages_ok s' (<[p := n]> G)));
  steal_law s G n : pages_ok s G -> is_vm_setup (ram_of s) = false ->
    0 < n <= 2 ^ 19 ->
    wp (ram_stealmem n) (ram_of s) (fun pa r' =>
      (pa = 0 /\ r' = ram_of s) \/
      (pa <> 0 /\ G !! PADDR_TO_KVADDR pa = None /\
       pages_ok (set_ram r' s) (<[PADDR_TO_KVADDR pa := n]> G)));
  free_law s G p n : pages_ok s (<[p := n]> G) -> G !! p = None ->
    wpo pages_oom (free_kpages p) s (fun _ s' => pages_ok s' G);
}.

Definition NSIZES : Z := 8.
Definition sizes : list Z := [16; 32; 64; 128; 256; 512; 1024; 2048].
Definition LARGEST_SUBPAGE_SIZE : Z := 2048.

Record pageref := mkPageref {
  next_samesize : option nat;
  next_all : option nat;
  pageaddr_and_blocktype : Z;
  freelist_offset : Z;
  nfree : Z;
}.

Definition pageref_zero : pageref := mkPageref None None 0 0 0.

Definition INVALID_OFFSET : Z := 0xffff.
Definition PR_PAGEADDR (pr : pageref) : Z := Z.land (pageaddr_and_blocktype pr) PAGE_FRAME.
Definition PR_BLOCKTYPE (pr : pageref) : Z :=
  Z.land (pageaddr_and_blocktype pr) (u32 (Z.lnot PAGE_FRAME)).
Definition MKPAB (pa blk : Z) : Z :=
  Z.lor (Z.land pa PAGE_FRAME) (Z.land blk (u32 (Z.lnot PAGE_FRAME))).

Definition NPAGEREFS : Z := PAGE_SIZE / 16.
Definition INUSE_WORDS : Z := NPAGEREFS / 32.

(** The macro is never defined in this file, which does not include
    [opt-A3.h], and an undefined macro is 0 in a preprocessor condition. *)
Definition OPT_A3 : bool := false.

Record kheap (P : Type) := mkKheap {
  pagerefs : list pageref;
  pagerefs_inuse : list Z;
  sizebases : list (option nat);
  allbase : option nat;
  kmem : Z -> Z;                (* the word at an address *)
  kpages : P;
}.
Arguments mkKheap {P} _ _ _ _ _ _.
Arguments pagerefs {P} _.
Arguments pagerefs_inuse {P} _.
Arguments sizebases {P} _.
Arguments allbase {P} _.
Arguments kmem {P} _.
Arguments kpages {P} _.

(** The BSS at startup. *)
Definition kheap_zero {P} (p : P) : kheap P :=
  mkKheap (replicate (Z.to_nat NPAGEREFS) pageref_zero)
    (replicate (Z.to_nat INUSE_WORDS) 0)
    (replicate (Z.to_nat NSIZES) None) None (fun _ => 0) p.

Section Kheap.
Context {P : Type} `{!Pages P}.
Abbreviation K := (M (kheap P)).

(** ** Access to the globals *)

Definition set_pagerefs (l : list pageref) (h : kheap P) : kheap P :=
  mkKheap l (pagerefs_inuse h) (sizebases h) (allbase h) (kmem h) (kpages h).
Definition set_inuse (l : list Z) (h : kheap P) : kheap P :=
  mkKheap (pagerefs h) l (sizebases h) (allbase h) (kmem h) (kpages h).
Definition set_sizebases (l : list (option nat)) (h : kheap P) : kheap P :=
  mkKheap (pagerefs h) (pagerefs_inuse h) l (allbase h) (kmem h) (kpages h).
Definition set_allbase (o : option nat) (h : kheap P) : kheap P :=
  mkKheap (pagerefs h) (pagerefs_inuse h) (sizebases h) o (kmem h) (kpages h).
Definition set_kpages (p : P) (h : kheap P) : kheap P :=
  mkKheap (pagerefs h) (pagerefs_inuse h) (sizebases h) (allbase h) (kmem h) p.

Definition load (a : Z) : K Z := gets (fun h => kmem h a).
Definition store (a v : Z) : K unit :=
  modify (fun h => mkKheap (pagerefs h) (pagerefs_inuse h) (sizebases h) (allbase h)
                     (fun x => if x =? a then v else kmem h x) (kpages h)).

Definition get_ref (i : nat) : K pageref :=
  let* h := get in lift (rd (pagerefs h) (Z.of_nat i)).
Definition put_ref (i : nat) (pr : pageref) : K unit :=
  let* h := get in
  let* l := lift (wr (pagerefs h) (Z.of_nat i) pr) in
  put (set_pagerefs l h).

(** Run code of the page allocator on its part of the state. *)
Definition on_pages {A} (m : M P A) : K A :=
  fun h =>
    match m (kpages h) with
    | Ret (a, p) => Ret (a, set_kpages p h)
    | Stop w => Stop w
    end.

Definition steal (npages : Z) : M P Z :=
  fun p =>
    match ram_stealmem npages (ram_of p) with
    | Ret (a, r) => Ret (a, set_ram r p)
    | Stop w => Stop w
    end.

(** ** Page references *)

(** [for (k=1,j=0; k!=0; k<<=1,j++)], for a word that is not full. *)
Fixpoint find_clear (fuel : nat) (word k j : Z) : res (Z * Z) :=
  match fuel with
  | O => Stop OutOfFuel
  | S f =>
      if k =? 0 then Stop Panic          (* assert(0) *)
      else if Z.land word k =? 0 then Ret (k, j)
      else find_clear f word (u32 (Z.shiftl k 1)) (u32 (j + 1))
  end.

(** [for (i=0; i<INUSE_WORDS; i++)] *)
Fixpoint allocpageref_loop (fuel : nat) (i : Z) : K (option nat) :=
  match fuel with
  | O => ret None
  | S f =>
      let* h := get in
      let* word := lift (rd (pagerefs_inuse h) i) in
      if word =? 0xffffffff then allocpageref_loop f (i + 1)
      else
        let* (k, j) := lift (find_clear 33 word 1 0) in
        let* l := lift (wr (pagerefs_inuse h) i (Z.lor word k)) in
        let* _ := put (set_inuse l h) in
        ret (Some (Z.to_nat (u32 (i * 32 + j))))
  end.

Definition allocpageref : K (option nat) := allocpageref_loop (Z.to_nat INUSE_WORDS) 0.

Definition freepageref (p : nat) : K unit :=
  let j := Z.of_nat p in
  let* _ := kassert (j <? NPAGEREFS) in
  let i := j / 32 in
  let k := u32 (Z.shiftl 1 (j mod 32)) in
  let* h := get in
  let* word := lift (rd (pagerefs_inuse h) i) in
  let* _ := kassert (negb (Z.land word k =? 0)) in
  let* l := lift (wr (pagerefs_inuse h) i (Z.land word (u32 (Z.lnot k)))) in
  put (set_inuse l h).

(** ** The two lists of page references

    [remove_lists] walks each list with a pointer to the link it came through;
    here the link is either the list head ([None]) or a field of the reference
    [Some i]. *)

Definition LIST_FUEL : nat := 257.

Fixpoint unlink (fuel : nat) (get_link : option nat -> K (option nat))
    (set_link : option nat -> option nat -> K unit) (guy : option nat) (pr : nat) : K unit :=
  match fuel with
  | O => halt OutOfFuel
  | S f =>
      let* cur := get_link guy in
      match cur with
      | None => ret tt
      | Some c =>
          if (c =? pr)%nat then
            let* next := get_link (Some pr) in
            set_link guy next
          else unlink f get_link set_link (Some c) pr
      end
  end.

Definition get_same (blktype : Z) (guy : option nat) : K (option nat) :=
  match guy with
  | None => let* h := get in lift (rd (sizebases h) blktype)
  | Some i => let* r := get_ref i in ret (next_samesize r)
  end.

Definition set_same (blktype : Z) (guy v : option nat) : K unit :=
  match guy with
  | None =>
      let* h := get in
      let* l := lift (wr (sizebases h) blktype v) in
      put (set_sizebases l h)
  | Some i =>
      let* r := get_ref i in
      put_ref i (mkPageref v (next_all r) (pageaddr_and_blocktype r)
                   (freelist_offset r) (nfree r))
  end.

Definition get_all (guy : option nat) : K (option nat) :=
  match guy with
  | None => gets allbase
  | Some i => let* r := get_ref i in ret (next_all r)
  end.

Definition set_all (guy v : option nat) : K unit :=
  match guy with
  | None => modify (set_allbase v)
  | Some i =>
      let* r := get_ref i in
      put_ref i (mkPageref (next_samesize r) v (pageaddr_and_blocktype r)
                   (freelist_offset r) (nfree r))
  end.

Definition remove_lists (pr : nat) (blktype : Z) : K unit :=
  let* _ := kassert ((0 <=? blktype) && (blktype <? NSIZES)) in
  let* _ := unlink LIST_FUEL (get_same blktype) (set_same blktype) None pr in
  unlink LIST_FUEL get_all set_all None pr.

(** ** Blocks *)

(** [for (i=0; i<NSIZES; i++) if (sz <= sizes[i]) return i;] then a panic. *)
Fixpoint blocktype_loop (l : list Z) (i sz : Z) : res Z :=
  match l with
  | [] => Stop Panic
  | s :: l' => if sz <=? s then Ret i else blocktype_loop l' (i + 1) sz
  end.

Definition blocktype (sz : Z) : res Z := blocktype_loop sizes 0 sz.

(** [for (i=0; i<len/4; i++) ptr[i] = 0xdeadbeef;] *)
Fixpoint fill_words (n : nat) (a : Z) : K unit :=
  match n with
  | O => ret tt
  | S n' => let* _ := store a 0xdeadbeef in fill_words n' (a + 4)
  end.

Definition fill_deadbeef (vptr len : Z) : K unit := fill_words (Z.to_nat (len / 4)) vptr.

(** The code after the label [doalloc]. *)
Definition doalloc (p : nat) : K Z :=
  let* pr := get_ref p in
  let* _ := kassert (freelist_offset pr <? PAGE_SIZE) in
  let prpage := PR_PAGEADDR pr in
  let fla := u32 (prpage + freelist_offset pr) in
  let* next := load fla in
  let nfree' := u16 (nfree pr - 1) in
  let* off' :=
    if negb (next =? 0) then
      let* _ := kassert (nfree' >? 0) in
      let* _ := kassert (u32 (next - prpage) <? PAGE_SIZE) in
      ret (u16 (next - prpage))
    else
      let* _ := kassert (nfree' =? 0) in
      ret INVALID_OFFSET in
  let* _ := put_ref p (mkPageref (next_samesize pr) (next_all pr)
                         (pageaddr_and_blocktype pr) off' nfree') in
  ret fla.

(** The search for a page of the right size with a free block. *)
Fixpoint find_page (fuel : nat) (pr : option nat) (blktype : Z) : K (option nat) :=
  match fuel with
  | O => halt OutOfFuel
  | S f =>
      match pr with
      | None => ret None
      | Some p =>
          let* r := get_ref p in
          let* _ := kassert (PR_BLOCKTYPE r =? blktype) in
          if nfree r >? 0 then ret (Some p)
          else find_page f (next_samesize r) blktype
      end
  end.

(** [for (i=1; i<pr->nfree; i++)]: thread the blocks of a fresh page. *)
Fixpoint thread_blocks (n : nat) (i fla size : Z) : K unit :=
  match n with
  | O => ret tt
  | S n' =>
      let fl := u32 (fla + i * size) in
      let next := u32 (fla + (i - 1) * size) in
      let* _ := store fl next in
      let* _ := kassert (negb (fl =? next)) in
      thread_blocks n' (i + 1) fla size
  end.

Definition subpage_kmalloc (sz : Z) : K Z :=
  let* blktype := lift (blocktype sz) in
  let* size := lift (rd sizes blktype) in
  let* h := get in
  let* base := lift (rd (sizebases h) blktype) in
  let* found := find_page LIST_FUEL base blktype in
  match found with
  | Some p => doalloc p
  | None =>
      let* o := allocpageref in
      match o with
      | None => ret 0
      | Some p =>
          let* prpage := on_pages (alloc_kpages 1) in
          if prpage =? 0 then
            let* _ := freepageref p in
            ret 0
          else
            let n := u16 (PAGE_SIZE / size) in
            let* _ := store prpage 0 in
            let* _ := thread_blocks (Z.to_nat (n - 1)) 1 prpage size in
            let last := u32 (prpage + (n - 1) * size) in
            let off := u16 (last - prpage) in
            let* _ := kassert (off =? (n - 1) * size) in
            let* h1 := get in
            let* head := lift (rd (sizebases h1) blktype) in
            let* _ := put_ref p (mkPageref head (allbase h1) (MKPAB prpage blktype) off n) in
            let* l := lift (wr (sizebases h1) blktype (Some p)) in
            let* _ := modify (set_sizebases l) in
            let* _ := modify (set_allbase (Some p)) in
            doalloc p
      end
  end.

(** The search for the page a pointer lies in. *)
Fixpoint find_owner (fuel : nat) (pr : option nat) (ptraddr : Z) : K (option nat) :=
  match fuel with
  | O => halt OutOfFuel
  | S f =>
      match pr with
      | None => ret None
      | Some p =>
          let* r := get_ref p in
          let* _ := kassert ((0 <=? PR_BLOCKTYPE r) && (PR_BLOCKTYPE r <? NSIZES)) in
          if (PR_PAGEADDR r <=? ptraddr) && (ptraddr <? u32 (PR_PAGEADDR r + PAGE_SIZE))
          then ret (Some p)
          else find_owner f (next_all r) ptraddr
      end
  end.

(** The result is true when the C function returns [-1]. *)
Definition subpage_kfree (ptraddr : Z) : K bool :=
  let* h := get in
  let* found := find_owner LIST_FUEL (allbase h) ptraddr in
  match found with
  | None => ret true
  | Some p =>
      let* pr := get_ref p in
      let prpage := PR_PAGEADDR pr in
      let blktype := PR_BLOCKTYPE pr in
      let* size := lift (rd sizes blktype) in
      let offset := u32 (ptraddr - prpage) in
      if (PAGE_SIZE <=? offset) || negb (offset mod size =? 0) then halt Panic
      else
        let* _ := fill_deadbeef ptraddr size in
        let fla := u32 (prpage + offset) in
        let* _ := store fla (if freelist_offset pr =? INVALID_OFFSET then 0
                             else u32 (prpage + freelist_offset pr)) in
        let nfree' := u16 (nfree pr + 1) in
        let* _ := put_ref p (mkPageref (next_samesize pr) (next_all pr)
                               (pageaddr_and_blocktype pr) (u16 offset) nfree') in
        let* _ := kassert (nfree' <=? PAGE_SIZE / size) in
        let* _ :=
          if nfree' =? PAGE_SIZE / size then
            let* _ := remove_lists p blktype in
            let* _ := on_pages (free_kpages prpage) in
            freepageref p
          else ret tt in
        ret false
  end.

Definition kheap_kmalloc (sz : Z) : K Z :=
  let npages := u32 (sz + PAGE_SIZE - 1) / PAGE_SIZE in
  let* h := get in
  if negb (is_vm_setup (ram_of (kpages h))) then
    let* phys_addr := on_pages (steal npages) in
    if phys_addr =? 0 then halt Panic
    else ret (PADDR_TO_KVADDR phys_addr)
  else if sz >=? LARGEST_SUBPAGE_SIZE then
    on_pages (alloc_kpages npages)
  else subpage_kmalloc sz.

Definition kheap_kfree (ptr : Z) : K unit :=
  let* h := get in
  if OPT_A3 && negb (was_vm_alloced (ram_of (kpages h)) ptr) then ret tt
  else if ptr =? 0 then ret tt
  else
    let* big := subpage_kfree ptr in
    if (big : bool) then
      let* _ := kassert (ptr mod PAGE_SIZE =? 0) in
      on_pages (free_kpages ptr)
    else ret tt.

#[global] Instance kheap_allocator : Allocator (kheap P) := {
  kmalloc := kheap_kmalloc;
  kfree := kheap_kfree;
}.

(** ** Representation

    [pinfo] is what a page reference in use stands for: its index, its page,
    its block type and the addresses of its free blocks, in list order. *)

Record pinfo := mkPinfo {
  pi_idx : nat;
  pi_page : Z;
  pi_bt : Z;
  pi_free : list Z;
}.

(** The size of the blocks of type [b]; meaningful for [0 <= b < NSIZES]. *)
Definition bsize (b : Z) : Z := sizes !!! Z.to_nat b.

(** The number of blocks of type [b] on a page. *)
Definition bcount (b : Z) : Z := PAGE_SIZE / bsize b.

(** A linked list through the field [link] of the table. *)
Fixpoint chain (link : pageref -> option nat) (refs : list pageref)
    (p : option nat) (l : list nat) : Prop :=
  match l with
  | [] => p = None
  | i :: l' =>
      p = Some i /\ exists r, refs !! i = Some r /\ chain link refs (link r) l'
  end.

(** A free list, threaded through the first word of each block. *)
Fixpoint flchain (mem : Z -> Z) (p : Z) (l : list Z) : Prop :=
  match l with
  | [] => p = 0
  | a :: l' => p = a /\ a <> 0 /\ flchain mem (mem a) l'
  end.

(** [a] is the address of a block of [pi]'s page. *)
Definition on_page (pi : pinfo) (a : Z) : Prop :=
  exists k, 0 <= k < bcount (pi_bt pi) /\ a = pi_page pi + k * bsize (pi_bt pi).

Definition pinfo_ok (refs : list pageref) (mem : Z -> Z) (pi : pinfo) : Prop :=
  0 <= pi_bt pi < NSIZES /\
  0 < pi_page pi /\ pi_page pi mod PAGE_SIZE = 0 /\ pi_page pi + PAGE_SIZE < 2 ^ 32 /\
  NoDup (pi_free pi) /\ Forall (on_page pi) (pi_free pi) /\
  (exists r, refs !! pi_idx pi = Some r /\
     pageaddr_and_blocktype r = pi_page pi + pi_bt pi /\
     nfree r = Z.of_nat (length (pi_free pi)) /\
     match pi_free pi with
     | [] => freelist_offset r = INVALID_OFFSET
     | a :: _ => freelist_offset r = a - pi_page pi /\ flchain mem a (pi_free pi)
     end).

(** Some block of the page is in use: a page all of whose blocks are free goes
    back to the page allocator. *)
Definition partly_used (pi : pinfo) : Prop :=
  Z.of_nat (length (pi_free pi)) < bcount (pi_bt pi).

(** The in-use bit of the reference [i]. *)
Definition inuse_bit (words : list Z) (i : nat) : bool :=
  Z.testbit (words !!! Z.to_nat (Z.of_nat i / 32)) (Z.of_nat i mod 32).

Definition inuse_ok (words : list Z) (used : list nat) : Prop :=
  length words = Z.to_nat INUSE_WORDS /\ Forall (fun w => 0 <= w < 2 ^ 32) words /\
  forall i, (i < Z.to_nat NPAGEREFS)%nat -> (inuse_bit words i = true <-> i ∈ used).

Context `{!PagesLaws P}.

(** The pages of blocks of type [b], in list order. *)
Definition of_type (b : Z) (pis : list pinfo) : list pinfo :=
  filter (fun pi => pi_bt pi = b) pis.

Record kheap_core (h : kheap P) (pis : list pinfo) (big : gmap Z Z) : Prop := {
  ki_len : length (pagerefs h) = Z.to_nat NPAGEREFS;
  ki_bases : length (sizebases h) = Z.to_nat NSIZES;
  ki_nodup : NoDup (pi_idx <$> pis);
  ki_pages : NoDup (pi_page <$> pis);
  ki_all : chain next_all (pagerefs h) (allbase h) (pi_idx <$> pis);
  ki_same b : 0 <= b < NSIZES ->
    chain next_samesize (pagerefs h) (sizebases h !!! Z.to_nat b)
      (pi_idx <$> of_type b pis);
  ki_pis : Forall (pinfo_ok (pagerefs h) (kmem h)) pis;
  ki_inuse : inuse_ok (pagerefs_inuse h) (pi_idx <$> pis);
  ki_big : Forall (fun pi => big !! pi_page pi = None) pis;
  ki_ok : pages_ok (kpages h) (list_to_map ((fun pi => (pi_page pi, 1)) <$> pis) ∪ big);
}.

Definition kheap_inv (h : kheap P) (pis : list pinfo) (big : gmap Z Z) : Prop :=
  kheap_core h pis big /\ Forall partly_used pis.

(** A block in use, of capacity [c]: a block of a managed page that is not on
    its free list, or a run of whole pages. *)
Definition block_in (pis : list pinfo) (big : gmap Z Z) (a c : Z) : Prop :=
  (exists pi, pi ∈ pis /\ on_page pi a /\ (a ∉ pi_free pi) /\ c = bsize (pi_bt pi)) \/
  (exists n, big !! a = Some n /\ c = n * PAGE_SIZE).

Definition kheap_rep (h : kheap P) (B : gmap Z Z) : Prop :=
  exists pis big, kheap_inv h pis big /\ forall a c, B !! a = Some c <-> block_in pis big a c.

End Kheap.
