(* ===== verification/KheapProof.v ===== *)
(** * Correctness of the kernel heap

    [kheap_kmalloc] and [kheap_kfree] against [kheap_rep]: blocks handed out
    never overlap, a block comes from the smallest class that holds it, a
    failed request changes nothing a client can see, and a page whose blocks
    are all free goes back to the page allocator. *)

From S2P Require Import Prelude.
From S2P Require Import Ram.
From S2P Require Import Kheap.

(** ** Page addresses and block types *)

Lemma land_frame x : 0 <= x < 2 ^ 32 -> Z.land x PAGE_FRAME = x / 4096 * 4096.
Proof.
  intros Hx. change PAGE_FRAME with (Z.shiftl (Z.ones 20) 12).
  rewrite <- (Z.shiftl_mul_pow2 _ 12), <- (Z.shiftr_div_pow2 _ 12) by lia.
  apply Z.bits_inj'. intros n Hn. rewrite Z.land_spec, !Z.shiftl_spec by lia.
  destruct (Z.ltb_spec n 12).
  - rewrite !(Z.testbit_neg_r _ (n - 12)) by lia. apply andb_false_r.
  - rewrite Z.shiftr_spec by lia. replace (n - 12 + 12) with n by lia.
    rewrite Z.testbit_ones_nonneg by lia.
    destruct (Z.ltb_spec (n - 12) 20); [apply andb_true_r|].
    rewrite andb_false_r. symmetry. destruct (decide (x = 0)) as [->|]; [apply Z.testbit_0_l|].
    apply Z.bits_above_log2; [lia|].
    assert (Z.log2 x < 32); [|lia]. apply Z.log2_lt_pow2; lia.
Qed.

Lemma land_low x : Z.land x (u32 (Z.lnot PAGE_FRAME)) = x mod 4096.
Proof. change (u32 (Z.lnot PAGE_FRAME)) with (Z.ones 12). by apply Z.land_ones. Qed.

Lemma aligned_add_div p b :
  p mod 4096 = 0 -> 0 <= b < 4096 -> (p + b) / 4096 * 4096 = p /\ (p + b) mod 4096 = b.
Proof.
  intros Hp Hb. Z.to_euclidean_division_equations. lia.
Qed.

Lemma mkpab_add p b :
  0 <= p < 2 ^ 32 -> p mod 4096 = 0 -> 0 <= b < 4096 -> MKPAB p b = p + b.
Proof.
  intros Hp Ha Hb. unfold MKPAB. rewrite land_frame, land_low by lia.
  rewrite (Z.mod_small b) by lia.
  destruct (aligned_add_div p 0) as [E _]; [done | lia|]. rewrite Z.add_0_r in E. rewrite E.
  assert (Z.land p b = 0) as H0.
  { rewrite <- E, <- (Z.shiftl_mul_pow2 _ 12) by lia.
    rewrite <- (Z.mod_small b (2 ^ 12)), <- Z.land_ones by lia.
    rewrite Z.land_assoc, (Z.land_comm _ b), <- Z.land_assoc.
    rewrite Z.land_ones, Z.shiftl_mul_pow2, Z.mod_mul by lia. apply Z.land_0_r. }
  rewrite Z.add_nocarry_lxor by done. symmetry. by apply Z.lxor_lor.
Qed.

Lemma pr_fields r page b :
  pageaddr_and_blocktype r = page + b -> 0 <= page -> page + PAGE_SIZE < 2 ^ 32 ->
  page mod PAGE_SIZE = 0 -> 0 <= b < NSIZES ->
  PR_PAGEADDR r = page /\ PR_BLOCKTYPE r = b.
Proof.
  unfold PAGE_SIZE, NSIZES, PR_PAGEADDR, PR_BLOCKTYPE. intros -> ? ? ? ?.
  rewrite land_frame, land_low by lia. apply aligned_add_div; [done | lia].
Qed.

(** There are eight block types; decide a property of all of them. *)
Lemma bt_cases (b : Z) (Q : Z -> Prop) :
  Q 0 -> Q 1 -> Q 2 -> Q 3 -> Q 4 -> Q 5 -> Q 6 -> Q 7 -> 0 <= b < NSIZES -> Q b.
Proof.
  unfold NSIZES. intros. assert (b = 0 \/ b = 1 \/ b = 2 \/ b = 3 \/ b = 4 \/ b = 5 \/ b = 6 \/ b = 7)
    as Hb by lia. by destruct Hb as [->|[->|[->|[->|[->|[->|[->| ->]]]]]]].
Qed.

Lemma bsize_spec b :
  0 <= b < NSIZES ->
  16 <= bsize b <= 2048 /\ bcount b * bsize b = PAGE_SIZE /\ 2 <= bcount b <= 256 /\
  bsize b mod 8 = 0 /\ rd sizes b = Ret (bsize b) /\ 4 * (bsize b / 4) = bsize b.
Proof.
  intros Hb. pattern b. apply bt_cases; [..|exact Hb]; vm_compute;
    repeat split; reflexivity || discriminate.
Qed.

Lemma blocktype_loop_spec (l : list Z) i sz b :
  blocktype_loop l i sz = Ret b ->
  i <= b < i + Z.of_nat (length l) /\ sz <= l !!! Z.to_nat (b - i) /\
  (forall j, i <= j < b -> l !!! Z.to_nat (j - i) < sz).
Proof.
  revert i. induction l as [|s l IH]; intros i; [done|]. simpl.
  destruct (Z.leb_spec sz s).
  - intros [= <-]. rewrite Z.sub_diag. simpl. split_and!; lia.
  - intros Hb. apply IH in Hb as (? & ? & Hj). split_and!; [lia..| |].
    + replace (Z.to_nat (b - i)) with (S (Z.to_nat (b - (i + 1)))) by lia. done.
    + intros j ?. destruct (decide (j = i)) as [->|]; [rewrite Z.sub_diag; simpl; lia|].
      replace (Z.to_nat (j - i)) with (S (Z.to_nat (j - (i + 1)))) by lia. apply Hj. lia.
Qed.

(** The smallest block type that holds [sz] bytes. *)
Lemma blocktype_spec sz :
  0 <= sz <= 2048 ->
  exists b, blocktype sz = Ret b /\ 0 <= b < NSIZES /\ sz <= bsize b /\
    (forall b', 0 <= b' < b -> bsize b' < sz).
Proof.
  intros Hs. destruct (blocktype sz) as [b|] eqn:E.
  - exists b. apply blocktype_loop_spec in E as (? & ? & Hj).
    change (length sizes) with 8%nat in *. unfold NSIZES, bsize.
    rewrite Z.sub_0_r in *. split_and!; [done|lia..|done|].
    intros b' ?. specialize (Hj b'). rewrite Z.sub_0_r in Hj. apply Hj. lia.
  - exfalso. revert E. unfold blocktype, sizes; cbn [blocktype_loop].
    repeat case_match; try done; lia.
Qed.

(** ** In-use bits *)

Lemma find_clear_spec (fuel : nat) word j :
  0 <= word < 2 ^ 32 -> 0 <= j -> Z.of_nat fuel = 33 - j ->
  (forall i, 0 <= i < j -> Z.testbit word i = true) -> word <> 0xffffffff ->
  exists j', find_clear fuel word (u32 (2 ^ j)) j = Ret (2 ^ j', j') /\
    j <= j' < 32 /\ Z.testbit word j' = false.
Proof.
  intros Hw. revert j. induction fuel as [|f IH]; intros j Hj Hf Hb Hne; cbn [find_clear].
  - exfalso. apply Hne. apply (all_bits_ones _ 32); [lia..|]. intros i ?. apply Hb. lia.
  - destruct (decide (j = 32)) as [->|].
    { exfalso. apply Hne. apply (all_bits_ones _ 32); [lia..|]. intros i ?. apply Hb. lia. }
    assert (0 < 2 ^ j) by (apply Z.pow_pos_nonneg; lia).
    assert (2 ^ j <= 2 ^ 31) by (apply Z.pow_le_mono_r; lia).
    rewrite u32_small by lia. destruct (Z.eqb_spec (2 ^ j) 0); [lia|].
    rewrite land_pow2 by lia. destruct (Z.testbit word j) eqn:Et.
    + destruct (Z.eqb_spec (2 ^ j) 0); [lia|].
      rewrite Z.shiftl_mul_pow2, <- Z.pow_add_r, (u32_small (j + 1)) by lia.
      destruct (IH (j + 1)) as (j' & E & ? & ?); [lia..| |done|].
      * intros i ?. destruct (decide (i = j)) as [->|]; [done | apply Hb; lia].
      * exists j'. split_and!; done || lia.
    + exists j. simpl. split_and!; done || lia.
Qed.

Lemma inuse_bit_set words (i : nat) (n : nat) w j :
  words !! n = Some w -> (n < length words)%nat -> 0 <= j < 32 ->
  inuse_bit (<[n := Z.lor w (2 ^ j)]> words) i =
    bool_decide (i = Z.to_nat (Z.of_nat n * 32 + j)) || inuse_bit words i.
Proof.
  intros Hw Hn Hj. unfold inuse_bit.
  pose proof (Z.div_mod (Z.of_nat i) 32 ltac:(lia)) as Hdm.
  pose proof (Z.mod_pos_bound (Z.of_nat i) 32 ltac:(lia)) as Hm.
  destruct (decide (Z.to_nat (Z.of_nat i / 32) = n)) as [E|E].
  - rewrite E, list_lookup_total_insert_eq by done.
    rewrite (list_lookup_total_correct _ _ _ Hw).
    rewrite Z.lor_spec, Z.pow2_bits_eqb by lia. rewrite orb_comm. f_equal.
    destruct (Z.eqb_spec j (Z.of_nat i mod 32)); symmetry; [apply bool_decide_true | apply bool_decide_false]; lia.
  - rewrite list_lookup_total_insert_ne by done.
    rewrite bool_decide_false; [done|]. intros ->. apply E.
    rewrite Z2Nat.id by lia. rewrite Z.div_add_l, Z.div_small by lia. lia.
Qed.

Lemma inuse_bit_clear words (i : nat) (n : nat) w j :
  words !! n = Some w -> (n < length words)%nat -> 0 <= j < 32 ->
  inuse_bit (<[n := Z.land w (u32 (Z.lnot (2 ^ j)))]> words) i =
    negb (bool_decide (i = Z.to_nat (Z.of_nat n * 32 + j))) && inuse_bit words i.
Proof.
  intros Hw Hn Hj. unfold inuse_bit.
  pose proof (Z.div_mod (Z.of_nat i) 32 ltac:(lia)) as Hdm.
  pose proof (Z.mod_pos_bound (Z.of_nat i) 32 ltac:(lia)) as Hm.
  destruct (decide (Z.to_nat (Z.of_nat i / 32) = n)) as [E|E].
  - rewrite E, list_lookup_total_insert_eq by done.
    rewrite (list_lookup_total_correct _ _ _ Hw).
    unfold u32. rewrite <- Z.land_ones by lia.
    rewrite !Z.land_spec, Z.testbit_ones_nonneg, Z.lnot_spec, Z.pow2_bits_eqb by lia.
    replace (Z.of_nat i mod 32 <? 32) with true by lia. rewrite andb_true_r, andb_comm. f_equal.
    f_equal. destruct (Z.eqb_spec j (Z.of_nat i mod 32)); symmetry;
      [apply bool_decide_true | apply bool_decide_false]; lia.
  - rewrite list_lookup_total_insert_ne by done.
    rewrite bool_decide_false; [done|]. intros ->. apply E.
    rewrite Z2Nat.id by lia. rewrite Z.div_add_l, Z.div_small by lia. lia.
Qed.

Lemma log2_u32 a : 0 <= a < 2 ^ 32 -> Z.log2 a < 32.
Proof.
  intros Ha. destruct (decide (a = 0)) as [->|]; [done|]. apply Z.log2_lt_pow2; lia.
Qed.

Lemma lor_u32 a b : 0 <= a < 2 ^ 32 -> 0 <= b < 2 ^ 32 -> 0 <= Z.lor a b < 2 ^ 32.
Proof.
  intros Ha Hb. assert (0 <= Z.lor a b) by (apply Z.lor_nonneg; lia).
  split; [done|]. destruct (decide (Z.lor a b = 0)) as [->|Hne]; [lia|].
  apply Z.log2_lt_pow2; [lia|]. rewrite Z.log2_lor by lia.
  apply Z.max_lub_lt; by apply log2_u32.
Qed.

Lemma land_u32 a b : 0 <= a < 2 ^ 32 -> 0 <= b -> 0 <= Z.land a b < 2 ^ 32.
Proof.
  intros Ha Hb. assert (0 <= Z.land a b) by (apply Z.land_nonneg; lia).
  split; [done|]. destruct (decide (Z.land a b = 0)) as [->|Hne]; [lia|].
  apply Z.log2_lt_pow2; [lia|]. pose proof (Z.log2_land a b). pose proof (log2_u32 a). lia.
Qed.

Section Proofs.
Context {P : Type} `{!Pages P}.
Implicit Types (h : kheap P) (pi : pinfo).

(** ** Steps *)

Lemma wp_get_ref {p : Prop} i r h (Q : pageref -> kheap P -> Prop) :
  pagerefs h !! i = Some r -> Q r h -> wpo p (get_ref i) h Q.
Proof.
  intros Hr HQ. unfold get_ref, bind, get, wpx, lift. by rewrite (rd_nat _ _ _ Hr).
Qed.

Lemma wp_put_ref {p : Prop} i r h (Q : unit -> kheap P -> Prop) :
  (i < length (pagerefs h))%nat -> Q tt (set_pagerefs (<[i := r]> (pagerefs h)) h) ->
  wpo p (put_ref i r) h Q.
Proof.
  intros Hr HQ. unfold put_ref, bind, get, wpx, lift. by rewrite wr_nat.
Qed.

Lemma wp_on_pages {p : Prop} {A} (m : M P A) h (Q : A -> kheap P -> Prop) :
  wpo p m (kpages h) (fun a s => Q a (set_kpages s h)) -> wpo p (on_pages m) h Q.
Proof. unfold wpx, on_pages. by destruct (m (kpages h)) as [[]|]. Qed.

(** ** Allocating and freeing a page reference *)

Lemma allocpageref_loop_spec {p : Prop} (fuel : nat) i h used :
  inuse_ok (pagerefs_inuse h) used -> 0 <= i -> Z.of_nat fuel = INUSE_WORDS - i ->
  wpo p (allocpageref_loop fuel i) h (fun o h' =>
    match o with
    | None => h' = h
    | Some q => (q < Z.to_nat NPAGEREFS)%nat /\ (q ∉ used) /\
        exists w, h' = set_inuse w h /\ inuse_ok w (q :: used)
    end).
Proof.
  intros (Hl & Hw & Hb). revert i. induction fuel as [|f IH]; intros i Hi Hf; [done|].
  cbn [allocpageref_loop]. wp_step. wp_step. wp_step.
  assert (INUSE_WORDS = 8) as E8 by reflexivity. rewrite E8 in *.
  assert (Z.to_nat NPAGEREFS = 256%nat) as E256 by reflexivity. rewrite E256 in *.
  destruct (rd_total (pagerefs_inuse h) i) as [w Hrd]; [lia|].
  apply (wp_lift_Ret _ w); [done|]. apply rd_inv in Hrd as [_ Hrd].
  pose proof (Forall_lookup_1 _ _ _ _ Hw Hrd) as Hww. simpl in Hww.
  destruct (Z.eqb_spec w 0xffffffff) as [->|Hne]; [apply IH; lia|].
  wp_step. destruct (find_clear_spec 33 w 0) as (j & E & Hj & Hc); [done|lia|lia| |done|].
  { intros ? ?. lia. }
  eapply wp_lift_Ret; [exact E|]. wp_step.
  eapply wp_lift_Ret; [apply wr_in; lia|]. wp_step. wp_step. wp_step.
  rewrite u32_small by lia. split; [lia|].
  assert (forall k : nat, inuse_bit (<[Z.to_nat i:=Z.lor w (2 ^ j)]> (pagerefs_inuse h)) k =
    bool_decide (k = Z.to_nat (i * 32 + j)) || inuse_bit (pagerefs_inuse h) k) as Hbit.
  { intros k. rewrite (inuse_bit_set _ k (Z.to_nat i) w) by (done || lia).
    by rewrite Z2Nat.id by lia. }
  split.
  - intros Hin. apply Hb in Hin; [|lia]. unfold inuse_bit in Hin.
    rewrite Z2Nat.id, Z.div_add_l, Z.div_small in Hin by lia.
    rewrite (Z.add_comm (i * 32)), Z.mod_add, Z.mod_small in Hin by lia.
    rewrite Z.add_0_r, (list_lookup_total_correct _ _ _ Hrd) in Hin. congruence.
  - eexists. split; [done|]. split_and!.
    + by rewrite length_insert.
    + apply Forall_insert; [done|]. apply lor_u32; [done|].
      split; [apply Z.pow_nonneg; lia | apply Z.pow_lt_mono_r; lia].
    + intros k Hk. rewrite Hbit, orb_true_iff, bool_decide_eq_true, Hb, elem_of_cons; done.
Qed.

Lemma freepageref_spec {p : Prop} (q : nat) h used used' :
  inuse_ok (pagerefs_inuse h) used -> q ∈ used -> (q < Z.to_nat NPAGEREFS)%nat ->
  (forall i, i ∈ used' <-> i ∈ used /\ i <> q) ->
  wpo p (freepageref q) h (fun _ h' =>
    exists w, h' = set_inuse w h /\ inuse_ok w used').
Proof.
  intros (Hl & Hw & Hb) Hq Hlt Hu. unfold freepageref.
  assert (NPAGEREFS = 256) as E256 by reflexivity. rewrite E256 in *.
  assert (INUSE_WORDS = 8) as E8 by reflexivity. rewrite E8 in *.
  wp_step. wp_step. wp_step. wp_step. wp_step.
  pose proof (Z.div_mod (Z.of_nat q) 32 ltac:(lia)) as Hdm.
  pose proof (Z.mod_pos_bound (Z.of_nat q) 32 ltac:(lia)) as Hm.
  destruct (rd_total (pagerefs_inuse h) (Z.of_nat q / 32)) as [w Hrd]; [lia|].
  apply (wp_lift_Ret _ w); [done|]. apply rd_inv in Hrd as [_ Hrd].
  pose proof (Forall_lookup_1 _ _ _ _ Hw Hrd) as Hww. simpl in Hww.
  set (j := Z.of_nat q mod 32) in *.
  rewrite Z.shiftl_mul_pow2, Z.mul_1_l, (u32_small (2 ^ j)) by
    (try split; try apply Z.pow_nonneg; try apply Z.pow_lt_mono_r; lia).
  wp_step. apply Hb in Hq as Hbit; [|lia]. unfold inuse_bit in Hbit. fold j in Hbit.
  rewrite (list_lookup_total_correct _ _ _ Hrd) in Hbit.
  rewrite land_pow2, Hbit by lia. assert (0 < 2 ^ j) by (apply Z.pow_pos_nonneg; lia).
  wp_step. wp_step. eapply wp_lift_Ret; [apply wr_in; lia|]. wp_step.
  eexists. split; [done|]. split_and!.
  - by rewrite length_insert.
  - apply Forall_insert; [done|]. apply land_u32; [done | apply u32_bound].
  - intros k Hk. rewrite (inuse_bit_clear _ k _ w) by (done || lia).
    rewrite andb_true_iff, negb_true_iff, bool_decide_eq_false, Hb, Hu by done.
    replace (Z.to_nat (Z.of_nat (Z.to_nat (Z.of_nat q / 32)) * 32 + j)) with q by lia. tauto.
Qed.

(** ** Linked lists of page references *)

Lemma chain_agree link (refs refs' : list pageref) q l :
  (forall i, i ∈ l -> link <$> refs' !! i = link <$> refs !! i) ->
  chain link refs q l -> chain link refs' q l.
Proof.
  revert q. induction l as [|i l IH]; intros q Ha; [done|].
  intros (-> & r & Hr & Hc). split; [done|].
  pose proof (Ha i (list_elem_of_here _ _)) as Hi. rewrite Hr in Hi.
  destruct (refs' !! i) as [r'|]; [|done]. injection Hi as Hi. exists r'. split; [done|].
  rewrite Hi. apply IH; [|done]. intros j Hj. apply Ha. by right.
Qed.

Lemma chain_insert_notin link refs q l (i : nat) r :
  i ∉ l -> chain link refs q l -> chain link (<[i := r]> refs) q l.
Proof.
  intros Hi. apply chain_agree. intros j Hj. rewrite list_lookup_insert_ne; [done|].
  by intros ->.
Qed.

Section Unlink.
Context (link : pageref -> option nat) (setl : option nat -> pageref -> pageref).
Context (gl : option nat -> M (kheap P) (option nat)).
Context (sl : option nat -> option nat -> M (kheap P) unit).
Context (h : kheap P) (head : option nat) (seth : option nat -> kheap P).
Hypothesis gl_None : gl None h = Ret (head, h).
Hypothesis gl_Some : forall i r, pagerefs h !! i = Some r -> gl (Some i) h = Ret (link r, h).
Hypothesis sl_None : forall v, sl None v h = Ret (tt, seth v).
Hypothesis sl_Some : forall i v r, pagerefs h !! i = Some r ->
  sl (Some i) v h = Ret (tt, set_pagerefs (<[i := setl v r]> (pagerefs h)) h).
Hypothesis link_setl : forall v r, link (setl v r) = v.

Lemma unlink_from (fuel c x : nat) r l :
  pagerefs h !! c = Some r -> chain link (pagerefs h) (link r) l ->
  x ∈ l -> NoDup (c :: l) -> (length l < fuel)%nat ->
  exists l1 c' r' l2 v, c :: l = l1 ++ c' :: x :: l2 /\ pagerefs h !! c' = Some r' /\
    unlink fuel gl sl (Some c) x h
      = Ret (tt, set_pagerefs (<[c' := setl v r']> (pagerefs h)) h) /\
    chain link (<[c' := setl v r']> (pagerefs h)) (Some c) (l1 ++ c' :: l2).
Proof.
  revert c r l. induction fuel as [|f IH]; intros c r l Hr Hc Hx Hnd Hf; [lia|].
  destruct l as [|d l]; [by apply not_elem_of_nil in Hx|].
  destruct Hc as (Hd & rd & Hrd & Hc). cbn [unlink]. unfold bind.
  rewrite (gl_Some _ _ Hr), Hd. destruct (Nat.eqb_spec d x) as [->|Hne].
  - rewrite (gl_Some _ _ Hrd), (sl_Some _ _ _ Hr).
    exists [], c, r, l, (link rd). split_and!; [done..|]. simpl. split; [done|].
    exists (setl (link rd) r). rewrite list_lookup_insert_eq by (by eapply lookup_lt_Some).
    split; [done|]. rewrite link_setl. apply chain_insert_notin; [|done].
    apply NoDup_cons in Hnd as [Hn _]. intros Hin. apply Hn. by right.
  - destruct (IH d rd l) as (l1 & c' & r' & l2 & v & El & Hr' & E & Hc'); try done.
    + by apply elem_of_cons in Hx as [?|?].
    + by apply NoDup_cons in Hnd as [_ ?].
    + simpl in Hf. lia.
    + exists (c :: l1), c', r', l2, v. split_and!; [by rewrite El|done|done|].
      assert (c' ∈ d :: l) by (rewrite El; apply elem_of_app; right; left).
      assert (c' <> c) by (apply NoDup_cons in Hnd as [Hn _]; intros ->; done).
      simpl. split; [done|]. exists r. rewrite list_lookup_insert_ne by done.
      split; [done|]. by rewrite Hd.
Qed.

Lemma unlink_spec (fuel x : nat) l :
  chain link (pagerefs h) head l -> x ∈ l -> NoDup l -> (length l < fuel)%nat ->
  (exists l2 v, l = x :: l2 /\ unlink fuel gl sl None x h = Ret (tt, seth v) /\
     chain link (pagerefs h) v l2) \/
  (exists l1 c r l2 v, l = l1 ++ c :: x :: l2 /\ pagerefs h !! c = Some r /\
     unlink fuel gl sl None x h = Ret (tt, set_pagerefs (<[c := setl v r]> (pagerefs h)) h) /\
     chain link (<[c := setl v r]> (pagerefs h)) head (l1 ++ c :: l2)).
Proof.
  intros Hc Hx Hnd Hf. destruct fuel as [|f]; [lia|].
  destruct l as [|d l]; [by apply not_elem_of_nil in Hx|].
  destruct Hc as (Hh & rd & Hrd & Hc). cbn [unlink]. unfold bind. rewrite gl_None, Hh.
  destruct (Nat.eqb_spec d x) as [->|Hne].
  - left. exists l, (link rd). by rewrite (gl_Some _ _ Hrd), sl_None.
  - right. simpl in Hf. apply (unlink_from f d x rd l); try done; [by apply elem_of_cons in Hx as [?|?] | lia].
Qed.
End Unlink.

(** ** Searching the lists *)

Lemma pinfo_ref pi (refs : list pageref) mem :
  pinfo_ok refs mem pi ->
  exists r, refs !! pi_idx pi = Some r /\ PR_PAGEADDR r = pi_page pi /\
    PR_BLOCKTYPE r = pi_bt pi /\ nfree r = Z.of_nat (length (pi_free pi)) /\
    pageaddr_and_blocktype r = pi_page pi + pi_bt pi.
Proof.
  intros (Hb & Hp & Hal & Hlt & _ & _ & r & Hr & Hpab & Hn & _).
  exists r. destruct (pr_fields r (pi_page pi) (pi_bt pi)); try done; lia.
Qed.

Lemma find_page_spec {p : Prop} (fuel : nat) h base b (l : list pinfo) :
  chain next_samesize (pagerefs h) base (pi_idx <$> l) ->
  Forall (pinfo_ok (pagerefs h) (kmem h)) l -> Forall (fun pi => pi_bt pi = b) l ->
  (length l < fuel)%nat ->
  wpo p (find_page fuel base b) h (fun o h' =>
    h' = h /\
    match o with
    | None => Forall (fun pi => pi_free pi = []) l
    | Some q => exists pi, pi ∈ l /\ q = pi_idx pi /\ pi_free pi <> []
    end).
Proof.
  revert base fuel. induction l as [|pi l IH]; intros base fuel Hc Hok Hb Hf;
    (destruct fuel as [|f]; [simpl in Hf; lia|]); cbn [find_page].
  - simpl in Hc. subst. done.
  - destruct Hc as (-> & r & Hr & Hc). apply Forall_cons in Hok as [Hpi Hok].
    apply Forall_cons in Hb as [Hbt Hb]. destruct (pinfo_ref _ _ _ Hpi) as (r' & Hr' & _ & Ebt & Hn & _).
    rewrite Hr in Hr'. injection Hr' as <-.
    wp_step. eapply wp_get_ref; [exact Hr|]. wp_step. wp_step.
    rewrite Hn. destruct (pi_free pi) as [|a fl] eqn:Efl; cbn [length].
    + change (Z.of_nat 0 >? 0) with false. cbv iota. simpl in Hf.
      eapply wp_mono; [apply IH; try done; lia|].
      intros o h' [-> Ho]. split; [done|]. destruct o as [q|].
      * destruct Ho as (pi' & ? & ? & ?). exists pi'. split_and!; [by right|done..].
      * by constructor.
    + destruct (Z.gtb_spec (Z.of_nat (S (length fl))) 0); [|lia]. apply wp_ret.
      split; [done|]. exists pi. split_and!; [by left|done|by rewrite Efl].
Qed.

Lemma find_owner_spec {p : Prop} (fuel : nat) h base a (l : list pinfo) :
  chain next_all (pagerefs h) base (pi_idx <$> l) ->
  Forall (pinfo_ok (pagerefs h) (kmem h)) l -> (length l < fuel)%nat ->
  wpo p (find_owner fuel base a) h (fun o h' =>
    h' = h /\
    match o with
    | None => Forall (fun pi => ~ (pi_page pi <= a < pi_page pi + PAGE_SIZE)) l
    | Some q => exists pi, pi ∈ l /\ q = pi_idx pi /\ pi_page pi <= a < pi_page pi + PAGE_SIZE
    end).
Proof.
  revert base fuel. induction l as [|pi l IH]; intros base fuel Hc Hok Hf;
    (destruct fuel as [|f]; [simpl in Hf; lia|]); cbn [find_owner].
  - simpl in Hc. subst. done.
  - destruct Hc as (-> & r & Hr & Hc). apply Forall_cons in Hok as [Hpi Hok].
    destruct (pinfo_ref _ _ _ Hpi) as (r' & Hr' & Epa & Ebt & Hn & _).
    destruct Hpi as (Hb & Hp & Hal & Hlt & _).
    rewrite Hr in Hr'. injection Hr' as <-.
    wp_step. eapply wp_get_ref; [exact Hr|]. wp_step. wp_step.
    rewrite Epa. rewrite u32_small by (unfold PAGE_SIZE in *; lia).
    destruct ((pi_page pi <=? a) && (a <? pi_page pi + PAGE_SIZE)) eqn:E.
    + apply wp_ret. split; [done|]. exists pi. split_and!; [by left|done|lia..].
    + simpl in Hf. eapply wp_mono; [apply IH; try done; lia|].
      intros o h' [-> Ho]. split; [done|]. destruct o as [q|].
      * destruct Ho as (pi' & ? & ? & ?). exists pi'. split_and!; [by right|done|lia..].
      * constructor; [lia | done].
Qed.

(** ** Changing one page *)

Lemma flchain_agree (mem mem' : Z -> Z) q l :
  (forall a, a ∈ l -> mem' a = mem a) -> flchain mem q l -> flchain mem' q l.
Proof.
  revert q. induction l as [|a l IH]; intros q Ha; [done|].
  intros (-> & Hne & Hc). split_and!; [done..|].
  rewrite Ha by left. apply IH; [|done]. intros b Hb. apply Ha. by right.
Qed.

Lemma on_page_range pi a :
  0 <= pi_bt pi < NSIZES -> on_page pi a ->
  pi_page pi <= a /\ a + bsize (pi_bt pi) <= pi_page pi + PAGE_SIZE.
Proof.
  intros Hb (k & Hk & ->). destruct (bsize_spec _ Hb) as (? & Hc & _). nia.
Qed.

(** Two blocks of one page do not overlap. *)
Lemma on_page_disjoint pi a b :
  0 <= pi_bt pi < NSIZES -> on_page pi a -> on_page pi b -> a <> b ->
  a + bsize (pi_bt pi) <= b \/ b + bsize (pi_bt pi) <= a.
Proof.
  intros Hb (k & Hk & ->) (j & Hj & ->) Hne. destruct (bsize_spec _ Hb) as (? & Hc & _).
  destruct (Z.lt_trichotomy k j) as [?|[->|?]]; [left|done|right]; nia.
Qed.

Lemma aligned_disjoint p q :
  p mod PAGE_SIZE = 0 -> q mod PAGE_SIZE = 0 -> p <> q ->
  p + PAGE_SIZE <= q \/ q + PAGE_SIZE <= p.
Proof.
  unfold PAGE_SIZE. intros Hp Hq Hne. Z.to_euclidean_division_equations. lia.
Qed.

(** What a page needs of the table and of the memory. *)
Lemma pinfo_ok_agree (refs refs' : list pageref) (mem mem' : Z -> Z) pi :
  pinfo_ok refs mem pi ->
  (fun r => (pageaddr_and_blocktype r, nfree r, freelist_offset r)) <$> refs' !! pi_idx pi
  = (fun r => (pageaddr_and_blocktype r, nfree r, freelist_offset r)) <$> refs !! pi_idx pi ->
  (forall a, a ∈ pi_free pi -> mem' a = mem a) ->
  pinfo_ok refs' mem' pi.
Proof.
  intros (? & ? & ? & ? & ? & ? & r & Hr & Hpab & Hn & Hfl) Hrefs Hmem.
  rewrite Hr in Hrefs. destruct (refs' !! pi_idx pi) as [r'|] eqn:Hr'; [|done].
  injection Hrefs as E1 E2 E3. split_and!; try done; try lia.
  exists r'. rewrite E1, E2, E3. split_and!; [done..|].
  destruct (pi_free pi) as [|a fl]; [done|]. destruct Hfl as [? Hfl]. split; [done|].
  by eapply flchain_agree.
Qed.

(** A change to one page, and to its reference, is invisible to the others. *)
Lemma pinfo_ok_frame (refs : list pageref) (mem mem' : Z -> Z) pj (q : nat) r page :
  pinfo_ok refs mem pj -> pi_idx pj <> q -> pi_page pj <> page -> page mod PAGE_SIZE = 0 ->
  (forall a, ~ (page <= a < page + PAGE_SIZE) -> mem' a = mem a) ->
  pinfo_ok (<[q := r]> refs) mem' pj.
Proof.
  intros Hj Hne Hnp Hal Hmem.
  eapply pinfo_ok_agree; [exact Hj|by rewrite list_lookup_insert_ne|].
  intros a Ha. apply Hmem. destruct Hj as (Hbj & _ & Halj & _ & _ & Honj & _).
  rewrite Forall_forall in Honj. destruct (on_page_range pj a Hbj (Honj a Ha)).
  destruct (bsize_spec _ Hbj) as (? & _).
  destruct (aligned_disjoint (pi_page pj) page); [done..|lia|lia].
Qed.

Context `{!PagesLaws P}.

Lemma core_update h l1 pi pi' l2 big r r' mem' :
  kheap_core h (l1 ++ pi :: l2) big ->
  pi_idx pi' = pi_idx pi -> pi_page pi' = pi_page pi -> pi_bt pi' = pi_bt pi ->
  pagerefs h !! pi_idx pi = Some r ->
  next_samesize r' = next_samesize r -> next_all r' = next_all r ->
  (forall a, ~ (pi_page pi <= a < pi_page pi + PAGE_SIZE) -> mem' a = kmem h a) ->
  pinfo_ok (<[pi_idx pi := r']> (pagerefs h)) mem' pi' ->
  kheap_core (mkKheap (<[pi_idx pi := r']> (pagerefs h)) (pagerefs_inuse h) (sizebases h)
                (allbase h) mem' (kpages h)) (l1 ++ pi' :: l2) big.
Proof.
  intros [Hlen Hbas Hnd Hpg Hall Hsame Hpis Hin Hbig Hok] Ei Ep Eb Hr Es Ea Hmem Hpi'.
  assert (forall (f : pageref -> option nat), f r' = f r -> forall i,
    f <$> <[pi_idx pi := r']> (pagerefs h) !! i = f <$> pagerefs h !! i) as Hlink.
  { intros f Hf i. destruct (decide (i = pi_idx pi)) as [->|];
      [|by rewrite list_lookup_insert_ne by done].
    rewrite list_lookup_insert_eq by (by eapply lookup_lt_Some). rewrite Hr. simpl. by rewrite Hf. }
  assert (forall (g : pinfo -> Z), g pi' = g pi -> g <$> (l1 ++ pi' :: l2) = g <$> (l1 ++ pi :: l2)) as Hg.
  { intros g Hg. rewrite !fmap_app, !fmap_cons. by rewrite Hg. }
  assert (pi_idx <$> (l1 ++ pi' :: l2) = pi_idx <$> (l1 ++ pi :: l2)) as Hgi.
  { rewrite !fmap_app, !fmap_cons. by rewrite Ei. }
  constructor; cbn [pagerefs pagerefs_inuse sizebases allbase kmem kpages].
  - by rewrite length_insert.
  - done.
  - by rewrite Hgi.
  - by rewrite Hg.
  - rewrite Hgi. eapply chain_agree; [|exact Hall]. intros i _. by apply Hlink.
  - intros b Hb. eapply chain_agree; [intros i _; by apply Hlink|].
    specialize (Hsame b Hb). unfold of_type in *. rewrite filter_app, filter_cons in *. rewrite Eb.
    case_decide; rewrite !fmap_app in *; [|done]. rewrite !fmap_cons in *. by rewrite Ei.
  - rewrite fmap_app, fmap_cons in Hnd. rewrite fmap_app, fmap_cons in Hpg. apply Forall_app in Hpis as [H1 H2].
    apply Forall_cons in H2 as [Hpi H2]. apply NoDup_app in Hnd as (_ & Hd1 & Hnd2).
    apply NoDup_app in Hpg as (_ & Hp1 & Hpg2). apply NoDup_cons in Hnd2 as [Hd2 _].
    apply NoDup_cons in Hpg2 as [Hp2 _].
    destruct Hpi as (_ & _ & Hal & _).
    assert (forall pj, pinfo_ok (pagerefs h) (kmem h) pj -> pi_idx pj <> pi_idx pi ->
      pi_page pj <> pi_page pi -> pinfo_ok (<[pi_idx pi:=r']> (pagerefs h)) mem' pj) as Hother.
    { intros pj ? ? ?. by apply (pinfo_ok_frame _ (kmem h) _ _ _ _ (pi_page pi)). }
    apply Forall_app. split; [|constructor; [done|]].
    + apply Forall_forall. intros pj Hj. rewrite Forall_forall in H1. apply Hother; [by apply H1| |];
        intros E; [apply (Hd1 (pi_idx pj))|apply (Hp1 (pi_page pj))];
        try (by apply list_elem_of_fmap_2); rewrite E; left.
    + apply Forall_forall. intros pj Hj. rewrite Forall_forall in H2. apply Hother; [by apply H2| |];
        intros E; [apply Hd2|apply Hp2]; rewrite <- E; by apply list_elem_of_fmap_2.
  - by rewrite Hgi.
  - apply Forall_app in Hbig as [H1 H2]. apply Forall_cons in H2 as [H2 H3].
    apply Forall_app. split; [done|]. constructor; [by rewrite Ep|done].
  - eapply (eq_ind _ (pages_ok (kpages h))); [exact Hok|]. do 2 f_equal.
    rewrite !fmap_app, !fmap_cons. by rewrite Ep.
Qed.

(** ** Taking a block off a free list *)

Definition with_free pi (fl : list Z) : pinfo :=
  mkPinfo (pi_idx pi) (pi_page pi) (pi_bt pi) fl.

Lemma core_pinfo h l1 pi l2 big :
  kheap_core h (l1 ++ pi :: l2) big -> pinfo_ok (pagerefs h) (kmem h) pi.
Proof.
  intros Hc. pose proof (ki_pis _ _ _ Hc) as Hf. rewrite Forall_app, Forall_cons in Hf. tauto.
Qed.

(** The addresses of all the blocks of a page. *)
Definition page_blocks pi : list Z :=
  (fun k => pi_page pi + k * bsize (pi_bt pi)) <$> seqZ 0 (bcount (pi_bt pi)).

Lemma elem_page_blocks pi a : a ∈ page_blocks pi <-> on_page pi a.
Proof.
  unfold page_blocks, on_page. rewrite list_elem_of_fmap. split.
  - intros (k & -> & Hk). apply elem_of_seqZ in Hk. exists k. split; [lia|done].
  - intros (k & Hk & ->). exists k. split; [done|]. apply elem_of_seqZ. lia.
Qed.

Lemma free_length pi (fl : list Z) :
  NoDup fl -> Forall (on_page pi) fl -> 0 <= pi_bt pi < NSIZES ->
  Z.of_nat (length fl) <= bcount (pi_bt pi).
Proof.
  intros Hnd Hon Hb. destruct (bsize_spec _ Hb) as (? & ? & ? & _).
  assert (fl ⊆+ page_blocks pi) as Hle.
  { apply NoDup_submseteq; [done|]. intros a Ha. apply elem_page_blocks.
    rewrite Forall_forall in Hon. by apply Hon. }
  apply submseteq_length in Hle. unfold page_blocks in Hle.
  rewrite length_fmap, length_seqZ in Hle. lia.
Qed.

Lemma doalloc_spec {p : Prop} h l1 pi l2 big a fl :
  kheap_core h (l1 ++ pi :: l2) big -> pi_free pi = a :: fl ->
  wpo p (doalloc (pi_idx pi)) h (fun v h' =>
    v = a /\ kheap_core h' (l1 ++ with_free pi fl :: l2) big).
Proof.
  intros Hc Hfl. pose proof (core_pinfo _ _ _ _ _ Hc) as Hpi.
  destruct (pinfo_ref _ _ _ Hpi) as (r & Hr & Epa & Ebt & Hn & Hpab).
  pose proof Hpi as (Hb & Hp & Hal & Hlt & Hnd & Hon & r0 & Hr0 & _ & _ & Hhd).
  rewrite Hr in Hr0. injection Hr0 as <-. rewrite Hfl in *. destruct Hhd as [Hoff Hch].
  pose proof (free_length pi _ Hnd Hon Hb) as Hlen.
  apply Forall_cons in Hon as [Hona Hon]. apply NoDup_cons in Hnd as [Hna Hnd].
  destruct (bsize_spec _ Hb) as (Hbs & Hbc & Hcnt & _).
  destruct (on_page_range pi a Hb Hona) as [Ha1 Ha2]. cbn [length] in Hn, Hlen.
  unfold doalloc. wp_step. eapply wp_get_ref; [exact Hr|].
  wp_step. wp_step. unfold PAGE_SIZE in *. rewrite Epa, Hoff.
  replace (pi_page pi + (a - pi_page pi)) with a by lia.
  rewrite u32_small by lia. wp_step. unfold load. wp_step. wp_step.
  destruct Hch as (_ & Hane & Hch). rewrite Hn.
  replace (Z.of_nat (S (length fl)) - 1) with (Z.of_nat (length fl)) by lia.
  rewrite !(u16_small (Z.of_nat (length fl))) by lia.
  set (off' := match fl with [] => INVALID_OFFSET | a' :: _ => a' - pi_page pi end).
  apply (wp_mono _ _ (fun v h' => v = off' /\ h' = h)).
  { destruct fl as [|a' fl']; simpl in Hch.
    - rewrite Hch. simpl. wp_step. wp_step. by wp_step.
    - destruct Hch as (-> & Hne' & _). destruct (Z.eqb_spec a' 0); [done|]. simpl.
      apply Forall_cons in Hon as [Hona' _].
      destruct (on_page_range pi a' Hb Hona') as [? ?]. unfold PAGE_SIZE in *.
      wp_step. wp_step. wp_step. rewrite u32_small by lia. wp_step.
      wp_step. split; [|done]. apply u16_small. lia. }
  intros v h' [-> ->]. wp_step.
  apply wp_put_ref; [by eapply lookup_lt_Some|]. wp_step. split; [done|].
  apply (core_update _ _ pi _ _ _ r); try done. unfold with_free. clear Hc.
  split_and!; simpl; try done; [lia..|]. eexists.
  rewrite list_lookup_insert_eq by (by eapply lookup_lt_Some).
  split; [done|]. split_and!; [done|done|]. unfold off'.
  destruct fl as [|a' fl']; [done|]. simpl in Hch. destruct Hch as (E & Hne & Hch).
  split; done.
Qed.

(** ** A fresh page *)

Definition set_kmem (mem : Z -> Z) h : kheap P :=
  mkKheap (pagerefs h) (pagerefs_inuse h) (sizebases h) (allbase h) mem (kpages h).

Lemma thread_blocks_spec {p : Prop} (n : nat) i fla size h :
  1 <= i -> 0 < size -> 0 <= fla -> fla + (i + Z.of_nat n) * size <= 2 ^ 32 ->
  wpo p (thread_blocks n i fla size) h (fun _ h' => exists mem', h' = set_kmem mem' h /\
    (forall k, i <= k < i + Z.of_nat n -> mem' (fla + k * size) = fla + (k - 1) * size) /\
    (forall a, (forall k, i <= k < i + Z.of_nat n -> a <> fla + k * size) -> mem' a = kmem h a)).
Proof.
  revert i h. induction n as [|n IH]; intros i h Hi Hs Hf Hb; cbn [thread_blocks].
  - wp_step. exists (kmem h). split; [by destruct h|]. split; [lia|done].
  - wp_step. unfold store. rewrite !u32_small by nia. wp_step. wp_step. wp_step.
    eapply wp_mono; [apply IH; nia|]. intros [] h' (mem' & -> & Hk & Ha).
    exists mem'. split; [done|]. split.
    + intros k Hk'. destruct (decide (k = i)) as [->|]; [|apply Hk; lia].
      rewrite Ha; [simpl; by rewrite Z.eqb_refl|]. intros k ?. nia.
    + intros a Hne. rewrite Ha; [|intros k ?; apply Hne; lia]. simpl.
      destruct (Z.eqb_spec a (fla + i * size)) as [->|]; [|done].
      by destruct (Hne i); [lia|].
Qed.

(** The free list of a page nothing of which is used, last block first. *)
Fixpoint full_list (page size : Z) (n : nat) : list Z :=
  match n with
  | O => []
  | S k => (page + Z.of_nat k * size) :: full_list page size k
  end.

Lemma elem_full_list page size n a :
  a ∈ full_list page size n <-> exists k, 0 <= k < Z.of_nat n /\ a = page + k * size.
Proof.
  induction n as [|n IH]; cbn [full_list].
  - rewrite elem_of_nil. split; [done|]. intros (k & ? & _). lia.
  - rewrite elem_of_cons, IH. split.
    + intros [->|(k & ? & ->)]; [exists (Z.of_nat n) | exists k]; split; done || lia.
    + intros (k & ? & ->). destruct (decide (k = Z.of_nat n)) as [->|]; [by left|].
      right. exists k. split; [lia|done].
Qed.

Lemma full_list_NoDup page size n : 0 < size -> NoDup (full_list page size n).
Proof.
  intros Hs. induction n as [|n IH]; cbn [full_list]; constructor; [|done].
  rewrite elem_full_list. intros (k & ? & ?). nia.
Qed.

Lemma full_list_length page size n : length (full_list page size n) = n.
Proof. induction n; simpl; congruence. Qed.

Lemma full_list_chain (mem : Z -> Z) page size n :
  0 < page -> 0 < size -> mem page = 0 ->
  (forall k, 1 <= k < Z.of_nat n -> mem (page + k * size) = page + (k - 1) * size) ->
  (0 < n)%nat ->
  flchain mem (page + Z.of_nat (n - 1) * size) (full_list page size n).
Proof.
  intros Hp Hs H0. induction n as [|n IH]; intros Hk Hn; [lia|]. cbn [full_list flchain].
  replace (S n - 1)%nat with n by lia. split; [done|]. split; [nia|].
  destruct n as [|m].
  - simpl. rewrite Z.add_0_r. done.
  - rewrite Hk by lia. replace (Z.of_nat (S m) - 1) with (Z.of_nat (S m - 1)) by lia.
    apply IH; [|lia]. intros k ?. apply Hk. lia.
Qed.

(** The map of the pages in use, managed or not. *)
Abbreviation page_map pis big := (list_to_map ((fun pi => (pi_page pi, 1)) <$> pis) ∪ big).

Lemma page_map_cons pi pis (big : gmap Z Z) :
  page_map (pi :: pis) big = <[pi_page pi := 1]> (page_map pis big : gmap Z Z).
Proof. rewrite fmap_cons. simpl. by rewrite insert_union_l. Qed.

Lemma fresh_pinfo_ok (refs : list pageref) (mem : Z -> Z) (q : nat) page b r :
  0 <= b < NSIZES -> 0 < page -> page mod PAGE_SIZE = 0 -> page + PAGE_SIZE < 2 ^ 32 ->
  (q < length refs)%nat -> mem page = 0 ->
  (forall k, 1 <= k < bcount b -> mem (page + k * bsize b) = page + (k - 1) * bsize b) ->
  pageaddr_and_blocktype r = page + b -> freelist_offset r = (bcount b - 1) * bsize b ->
  nfree r = bcount b ->
  pinfo_ok (<[q := r]> refs) mem
    (mkPinfo q page b (full_list page (bsize b) (Z.to_nat (bcount b)))).
Proof.
  intros Hb Hp Hal Hlt Hq Hm0 Hmk Hpab Hoff Hn.
  destruct (bsize_spec _ Hb) as (Hbs & Hbc & Hcnt & _).
  unfold pinfo_ok; simpl. split_and!; try done; try lia.
  - apply full_list_NoDup. lia.
  - apply Forall_forall. intros a Ha. apply elem_full_list in Ha as (k & ? & ->).
    exists k; simpl. split; [lia|done].
  - exists r. rewrite list_lookup_insert_eq by done. split; [done|]. split; [done|].
    rewrite full_list_length. split; [lia|].
    pose proof (full_list_chain mem page (bsize b) (Z.to_nat (bcount b))) as Hch.
    destruct (Z.to_nat (bcount b)) as [|n] eqn:En; [lia|]. cbn [full_list] in *.
    replace (S n - 1)%nat with n in Hch by lia.
    split; [rewrite Hoff; nia|]. apply Hch; [lia..|done| |lia].
    intros k ?. apply Hmk. lia.
Qed.

Lemma idx_filter_notin (q : nat) b (pis : list pinfo) :
  q ∉ pi_idx <$> pis -> q ∉ pi_idx <$> of_type b pis.
Proof.
  intros Hqn Hi. apply Hqn. apply list_elem_of_fmap in Hi as (pj & -> & Hj).
  apply list_elem_of_filter in Hj as [_ Hj]. by apply list_elem_of_fmap_2.
Qed.

Lemma core_new_page h pis big q page b mem' w ps :
  kheap_core h pis big -> (q < Z.to_nat NPAGEREFS)%nat -> q ∉ pi_idx <$> pis ->
  inuse_ok w (q :: (pi_idx <$> pis)) -> 0 <= b < NSIZES ->
  (page_map pis big : gmap Z Z) !! page = None ->
  pages_ok ps (<[page := 1]> (page_map pis big : gmap Z Z)) -> mem' page = 0 ->
  (forall k, 1 <= k < bcount b -> mem' (page + k * bsize b) = page + (k - 1) * bsize b) ->
  (forall a, ~ (page <= a < page + PAGE_SIZE) -> mem' a = kmem h a) ->
  kheap_core
    (mkKheap (<[q := mkPageref (sizebases h !!! Z.to_nat b) (allbase h) (page + b)
                       ((bcount b - 1) * bsize b) (bcount b)]> (pagerefs h)) w
       (<[Z.to_nat b := Some q]> (sizebases h)) (Some q) mem' ps)
    (mkPinfo q page b (full_list page (bsize b) (Z.to_nat (bcount b))) :: pis) big.
Proof.
  intros [Hlen Hbas Hnd Hpg Hall Hsame Hpis Hin Hbig Hok] Hq Hqn Hw Hb HG Hps Hm0 Hmk Hma.
  rewrite <- Hlen in Hq. apply lookup_union_None in HG as [HG1 HG2].
  assert (page ∉ pi_page <$> pis) as Hpn.
  { apply not_elem_of_list_to_map in HG1. by rewrite <- list_fmap_compose in HG1. }
  destruct (pages_wf _ _ page 1 Hps) as (? & _ & ? & ?); [by rewrite lookup_insert_eq|].
  constructor; cbn [pagerefs pagerefs_inuse sizebases allbase kmem kpages];
    rewrite ?length_insert, ?fmap_cons; try done.
  - by constructor.
  - by constructor.
  - simpl. split; [done|]. eexists. rewrite list_lookup_insert_eq by done.
    split; [done|]. by apply chain_insert_notin.
  - intros b' Hb'. unfold of_type. rewrite filter_cons. fold (of_type b' pis). pose proof (idx_filter_notin q b' pis Hqn).
    specialize (Hsame b' Hb'). unfold NSIZES in *. simpl. case_decide as Eb.
    + subst b'. rewrite list_lookup_total_insert_eq by lia.
      rewrite fmap_cons. simpl. split; [done|]. eexists. rewrite list_lookup_insert_eq by done.
      split; [done|]. by apply chain_insert_notin.
    + rewrite list_lookup_total_insert_ne by lia. by apply chain_insert_notin.
  - constructor; [by apply fresh_pinfo_ok; simpl; try lia|].
    apply Forall_forall. intros pj Hj. rewrite Forall_forall in Hpis.
    apply (pinfo_ok_frame _ (kmem h) _ _ _ _ page); [by apply Hpis| | |done|done]; intros <-;
      [apply Hqn | apply Hpn]; by apply list_elem_of_fmap_2.
  - by constructor.
  - simpl. by rewrite <- insert_union_l.
Qed.

(** ** Which blocks are in use *)

Lemma block_in_split l1 pi l2 big a c :
  block_in (l1 ++ pi :: l2) big a c <->
  (on_page pi a /\ (a ∉ pi_free pi) /\ c = bsize (pi_bt pi)) \/ block_in (l1 ++ l2) big a c.
Proof.
  unfold block_in. split.
  - intros [(pj & Hj & Hrest)|?]; [|by right; right].
    apply elem_of_app in Hj as [Hj|Hj]; [right; left; exists pj; split; [|done]; apply elem_of_app; by left|].
    apply elem_of_cons in Hj as [->|Hj]; [by left|].
    right; left. exists pj. split; [|done]. apply elem_of_app. by right.
  - intros [?|[(pj & Hj & Hrest)|?]]; [left; exists pi; split; [|done]; apply elem_of_app; right; left| |by right].
    left. exists pj. split; [|done]. apply elem_of_app in Hj as [Hj|Hj]; apply elem_of_app;
      [by left | right; by right].
Qed.

Lemma page_map_pis h pis big pi :
  kheap_core h pis big -> pi ∈ pis -> (page_map pis big : gmap Z Z) !! pi_page pi = Some 1.
Proof.
  intros Hc Hi. apply lookup_union_Some_l. apply elem_of_list_to_map.
  - rewrite <- list_fmap_compose. apply (ki_pages _ _ _ Hc).
  - apply list_elem_of_fmap. by exists pi.
Qed.

Lemma page_map_big h pis big a n :
  kheap_core h pis big -> big !! a = Some n -> (page_map pis big : gmap Z Z) !! a = Some n.
Proof.
  intros Hc Ha. rewrite lookup_union_r; [done|]. apply not_elem_of_list_to_map.
  rewrite <- list_fmap_compose. intros Hi. apply list_elem_of_fmap in Hi as (pi & -> & Hi).
  pose proof (ki_big _ _ _ Hc) as Hb. rewrite Forall_forall in Hb. simpl in Ha.
  rewrite (Hb pi Hi) in Ha. done.
Qed.

(** Where a block in use lies, as part of a run of pages. *)
Lemma block_in_range h pis big a c :
  kheap_core h pis big -> block_in pis big a c ->
  exists q n, (page_map pis big : gmap Z Z) !! q = Some n /\ 0 < c /\
    q <= a /\ a + c <= q + n * PAGE_SIZE /\
    ((exists pi, pi ∈ pis /\ q = pi_page pi /\ n = 1 /\ on_page pi a /\ (a ∉ pi_free pi) /\
        c = bsize (pi_bt pi) /\ 0 <= pi_bt pi < NSIZES) \/
     (big !! a = Some n /\ q = a /\ c = n * PAGE_SIZE)).
Proof.
  intros Hc [(pi & Hi & Hon & Hnf & ->)|(n & Hn & ->)].
  - pose proof (ki_pis _ _ _ Hc) as Hp. rewrite Forall_forall in Hp.
    destruct (Hp pi Hi) as (Hb & _). destruct (on_page_range pi a Hb Hon).
    destruct (bsize_spec _ Hb) as (? & _).
    exists (pi_page pi), 1. split; [by eapply page_map_pis|]. split_and!; [lia..|].
    left. by exists pi.
  - exists a, n. pose proof (page_map_big _ _ _ _ _ Hc Hn) as HG.
    destruct (pages_wf _ _ _ _ (ki_ok _ _ _ Hc) HG) as (? & ? & _). unfold PAGE_SIZE in *.
    split_and!; [done|lia..|]. by right.
Qed.

Lemma same_page h pis big pi pj :
  kheap_core h pis big -> pi ∈ pis -> pj ∈ pis -> pi_page pi = pi_page pj -> pi = pj.
Proof.
  intros Hc Hi Hj E. pose proof (ki_pages _ _ _ Hc) as Hnd.
  apply list_elem_of_lookup in Hi as [i Hi]. apply list_elem_of_lookup in Hj as [j Hj].
  assert (i = j) as ->; [|congruence].
  eapply (NoDup_lookup _ _ _ (pi_page pi) Hnd); rewrite list_lookup_fmap; [by rewrite Hi|].
  rewrite Hj. simpl. congruence.
Qed.

Lemma page_not_big h pis big pi n :
  kheap_core h pis big -> pi ∈ pis -> big !! pi_page pi = Some n -> False.
Proof.
  intros Hc Hi Hn. pose proof (ki_big _ _ _ Hc) as Hb. rewrite Forall_forall in Hb.
  by rewrite (Hb pi Hi) in Hn.
Qed.

(** A block in use inside a managed page is a block of that page. *)
Lemma block_owner h pis big pi a c :
  kheap_core h pis big -> pi ∈ pis -> pi_page pi <= a < pi_page pi + PAGE_SIZE ->
  block_in pis big a c -> on_page pi a /\ (a ∉ pi_free pi) /\ c = bsize (pi_bt pi).
Proof.
  intros Hc Hi Hr Ha.
  destruct (block_in_range _ _ _ _ _ Hc Ha) as (q & n & Hq & ? & ? & ? & Hca).
  pose proof (page_map_pis _ _ _ _ Hc Hi) as Hp.
  destruct (decide (q = pi_page pi)) as [->|Hne].
  - destruct Hca as [(pj & Hj & Eq & -> & Hon & Hnf & -> & Hbt)|(Hbig & <- & ->)].
    + by rewrite <- (same_page _ _ _ _ _ Hc Hi Hj Eq) in *.
    + exfalso. by eapply page_not_big.
  - destruct (pages_disjoint _ _ _ _ _ _ (ki_ok _ _ _ Hc) Hq Hp Hne); lia.
Qed.

(** Blocks in use do not overlap. *)
Lemma block_in_disjoint h pis big a c b d :
  kheap_core h pis big -> block_in pis big a c -> block_in pis big b d ->
  a <> b -> a + c <= b \/ b + d <= a.
Proof.
  intros Hc Ha Hb Hne.
  destruct (block_in_range _ _ _ _ _ Hc Ha) as (q & n & Hq & ? & ? & ? & Hca).
  destruct (block_in_range _ _ _ _ _ Hc Hb) as (q' & n' & Hq' & ? & ? & ? & Hcb).
  destruct (decide (q = q')) as [<-|Hqq].
  - destruct Hca as [(pi & Hi & Eq & -> & Hon & Hnf & -> & Hbt)|(Hbig & -> & ->)],
      Hcb as [(pj & Hj & Eq' & -> & Hon' & Hnf' & -> & Hbt')|(Hbig' & -> & ->)].
    + rewrite Eq in Eq'. rewrite <- (same_page _ _ _ _ _ Hc Hi Hj Eq') in *.
      by apply (on_page_disjoint pi).
    + exfalso. subst b. by eapply page_not_big.
    + exfalso. subst a. by eapply page_not_big.
    + done.
  - destruct (pages_disjoint _ _ q n q' n' (ki_ok _ _ _ Hc) Hq Hq' Hqq); lia.
Qed.

(** ** [subpage_kmalloc] *)

(** What a client sees of an allocation of [v] with capacity [c]. *)
Definition blocks_added (pis pis' : list pinfo) (big big' : gmap Z Z) (v c : Z) : Prop :=
  (forall d, ~ block_in pis big v d) /\
  forall a d, block_in pis' big' a d <-> block_in pis big a d \/ (a = v /\ d = c).

Lemma alloc_block_spec {p : Prop} h l1 pi l2 big v fl :
  kheap_core h (l1 ++ pi :: l2) big -> Forall partly_used (l1 ++ l2) ->
  pi_free pi = v :: fl ->
  wpo p (doalloc (pi_idx pi)) h (fun w h' =>
    w = v /\ 0 < v /\ kheap_inv h' (l1 ++ with_free pi fl :: l2) big /\
    blocks_added (l1 ++ pi :: l2) (l1 ++ with_free pi fl :: l2) big big v (bsize (pi_bt pi))).
Proof.
  intros Hc Hpu Hfl. eapply wp_mono; [by eapply doalloc_spec|].
  intros w h' [-> Hc']. split; [done|].
  destruct (core_pinfo _ _ _ _ _ Hc) as (Hb & Hp & _ & _ & Hnd & Hon & _).
  pose proof (free_length pi _ Hnd Hon Hb) as Hlen. rewrite Hfl in *.
  apply Forall_cons in Hon as [Hv Hon]. apply NoDup_cons in Hnd as [Hn Hnd].
  destruct (on_page_range pi v Hb Hv). destruct (bsize_spec _ Hb) as (? & _).
  split; [lia|]. split; [split; [done|]|split].
  - apply Forall_app in Hpu as [? ?]. apply Forall_app. split; [done|]. constructor; [|done].
    unfold partly_used; simpl in *. lia.
  - intros d Hd. destruct (block_owner _ _ _ pi v d Hc) as (_ & Hnf & _); [|lia|done|].
    + apply elem_of_app. right. left.
    + rewrite Hfl in Hnf. apply Hnf. left.
  - intros a d. rewrite !block_in_split. unfold with_free, on_page; simpl. rewrite Hfl, not_elem_of_cons.
    fold (on_page pi a). split.
    + intros [(Ha & Hnf & ->)|?]; [|by left; right].
      destruct (decide (a = v)) as [->|]; [by right|]. left. left. done.
    + intros [[(Ha & [? ?] & ->)|?]|[-> ->]]; [by left|by right|by left].
Qed.

Lemma core_set_pages h pis big w s :
  kheap_core h pis big -> inuse_ok w (pi_idx <$> pis) ->
  pages_ok s (page_map pis big) -> kheap_core (set_inuse w (set_kpages s h)) pis big.
Proof. intros [] ? ?. constructor; done. Qed.

Lemma fresh_blocks pis big q page b :
  let pi := mkPinfo q page b (full_list page (bsize b) (Z.to_nat (bcount b))) in
  0 <= b < NSIZES ->
  forall a c, block_in (pi :: pis) big a c <-> block_in pis big a c.
Proof.
  intros pi Hb a c. rewrite (block_in_split [] pi pis). simpl. split; [|by right].
  intros [(Hon & Hnf & _)|?]; [|done]. exfalso. apply Hnf.
  destruct Hon as (k & Hk & ->). simpl in *. apply elem_full_list. exists k. split; [lia|done].
Qed.

Lemma idx_lt h pis big i :
  kheap_core h pis big -> i ∈ pi_idx <$> pis -> (i < length (pagerefs h))%nat.
Proof.
  intros Hc Hi. apply list_elem_of_fmap in Hi as (pi & -> & Hi).
  pose proof (ki_pis _ _ _ Hc) as Hp. rewrite Forall_forall in Hp.
  destruct (Hp pi Hi) as (_ & _ & _ & _ & _ & _ & r & Hr & _). by eapply lookup_lt_Some.
Qed.

Lemma pis_length h pis big : kheap_core h pis big -> (length pis < LIST_FUEL)%nat.
Proof.
  intros Hc. assert (pi_idx <$> pis ⊆+ seq 0 (length (pagerefs h))) as Hs.
  { apply NoDup_submseteq; [apply (ki_nodup _ _ _ Hc)|]. intros i Hi.
    apply elem_of_seq. pose proof (idx_lt _ _ _ _ Hc Hi). lia. }
  apply submseteq_length in Hs. rewrite length_fmap, length_seq, (ki_len _ _ _ Hc) in Hs.
  change (Z.to_nat NPAGEREFS) with 256%nat in Hs. unfold LIST_FUEL. lia.
Qed.

Lemma rd_sizebases h pis big b :
  kheap_core h pis big -> 0 <= b < NSIZES ->
  rd (sizebases h) b = Ret (sizebases h !!! Z.to_nat b).
Proof.
  intros Hc Hb. apply rd_lookup; [lia|]. apply list_lookup_lookup_total_lt.
  rewrite (ki_bases _ _ _ Hc). lia.
Qed.

(** The part of [subpage_kmalloc] that makes a new page of blocks. *)
Lemma new_page_spec {p : Prop} h pis big q page b s w :
  kheap_core h pis big -> Forall partly_used pis -> (q < Z.to_nat NPAGEREFS)%nat ->
  q ∉ pi_idx <$> pis -> inuse_ok w (q :: (pi_idx <$> pis)) -> 0 <= b < NSIZES ->
  (page_map pis big : gmap Z Z) !! page = None ->
  pages_ok s (<[page := 1]> (page_map pis big : gmap Z Z)) ->
  wpo p
    (let n := u16 (PAGE_SIZE / bsize b) in
     let* _ := store page 0 in
     let* _ := thread_blocks (Z.to_nat (n - 1)) 1 page (bsize b) in
     let last := u32 (page + (n - 1) * bsize b) in
     let off := u16 (last - page) in
     let* _ := kassert (off =? (n - 1) * bsize b) in
     let* h1 := get in
     let* head := lift (rd (sizebases h1) b) in
     let* _ := put_ref q (mkPageref head (allbase h1) (MKPAB page b) off n) in
     let* l := lift (wr (sizebases h1) b (Some q)) in
     let* _ := modify (set_sizebases l) in
     let* _ := modify (set_allbase (Some q)) in
     doalloc q)
    (set_kpages s (set_inuse w h))
    (fun v h' => 0 < v /\ exists pis', kheap_inv h' pis' big /\
       blocks_added pis pis' big big v (bsize b)).
Proof.
  intros Hc Hpu Hq Hqn Hw Hb HG Hps. destruct (bsize_spec _ Hb) as (Hbs & Hbc & Hcnt & _).
  destruct (pages_wf _ _ page 1 Hps) as (Hp0 & _ & Hal & Hlt); [by rewrite lookup_insert_eq|].
  fold (bcount b). rewrite u16_small by lia. rewrite Z.mul_1_l in Hlt. cbv zeta.
  rewrite (u32_small (page + _)) by nia.
  replace (page + (bcount b - 1) * bsize b - page) with ((bcount b - 1) * bsize b) by lia.
  rewrite u16_small by (unfold PAGE_SIZE in *; nia). rewrite mkpab_add
    by (unfold PAGE_SIZE, NSIZES in *; done || lia).
  wp_step. unfold store. wp_step. wp_step.
  eapply wp_mono; [apply thread_blocks_spec; [lia|lia|lia|unfold PAGE_SIZE in *; nia]|].
  intros [] h' (mem & -> & Hmk & Hma). cbn [kmem] in Hma.
  wp_step. wp_step. wp_step. wp_step. wp_step. cbn [sizebases allbase set_kmem set_kpages set_inuse].
  eapply wp_lift_Ret; [exact (rd_sizebases _ _ _ _ Hc Hb)|]. wp_step.
  apply wp_put_ref; [simpl; by rewrite (ki_len _ _ _ Hc)|]. wp_step.
  eapply wp_lift_Ret; [apply wr_in; rewrite (ki_bases _ _ _ Hc); unfold NSIZES in *; lia|].
  wp_step. wp_step. wp_step. wp_step.
  assert (mem page = 0) as Hm0.
  { rewrite Hma; [by rewrite Z.eqb_refl|]. intros k ? ?. nia. }
  pose proof (core_new_page h pis big q page b mem w s) as Hcore.
  set (pi := mkPinfo q page b (full_list page (bsize b) (Z.to_nat (bcount b)))) in *.
  destruct (Z.to_nat (bcount b)) as [|n] eqn:En; [lia|].
  eapply wp_mono.
  - apply (alloc_block_spec _ [] pi pis big (page + Z.of_nat n * bsize b) (full_list page (bsize b) n)); [|done..].
    apply Hcore; try done.
    + intros k Hk. apply Hmk. lia.
    + intros a Ha. rewrite Hma.
      * destruct (Z.eqb_spec a page); [unfold PAGE_SIZE in *; lia|done].
      * intros k ? ->. apply Ha. nia.
  - intros v h' (-> & Hv & Hinv & Hnb & Hba). split; [done|]. eexists. split; [exact Hinv|].
    pose proof (fresh_blocks pis big q page b Hb) as Hfb. rewrite En in Hfb. fold pi in Hfb.
    split.
    + intros d Hd. apply (Hnb d). by apply Hfb.
    + intros a d. rewrite Hba. simpl. by rewrite Hfb.
Qed.

Lemma subpage_kmalloc_spec h pis big sz :
  kheap_inv h pis big -> 0 <= sz <= 2048 -> is_vm_setup (ram_of (kpages h)) = true ->
  wpo pages_oom (subpage_kmalloc sz) h (fun v h' =>
    (v = 0 /\ kheap_inv h' pis big) \/
    (v <> 0 /\ exists pis' c, kheap_inv h' pis' big /\ sz <= c /\
       blocks_added pis pis' big big v c)).
Proof.
  intros [Hc Hpu] Hsz Hvm. unfold subpage_kmalloc.
  destruct (blocktype_spec sz Hsz) as (b & Eb & Hb & Hle & _).
  destruct (bsize_spec _ Hb) as (Hbs & Hbc & Hcnt & _ & Hrd & _).
  wp_step. eapply wp_lift_Ret; [exact Eb|]. wp_step. eapply wp_lift_Ret; [exact Hrd|].
  wp_step. wp_step. wp_step. eapply wp_lift_Ret; [exact (rd_sizebases _ _ _ _ Hc Hb)|]. wp_step.
  eapply wp_mono.
  { apply (find_page_spec _ _ _ _ (of_type b pis)).
    - by apply (ki_same _ _ _ Hc).
    - apply Forall_forall. intros pi Hi. apply list_elem_of_filter in Hi as [_ Hi].
      pose proof (ki_pis _ _ _ Hc) as Hp. rewrite Forall_forall in Hp. by apply Hp.
    - apply Forall_forall. intros pi Hi. by apply list_elem_of_filter in Hi as [Hi _].
    - pose proof (pis_length _ _ _ Hc). pose proof (length_filter (fun pi => pi_bt pi = b) pis). unfold of_type. lia. }
  intros [q|] h1 [-> Hq].
  - destruct Hq as (pi & Hi & -> & Hfl). apply list_elem_of_filter in Hi as [Hbt Hi].
    apply list_elem_of_split in Hi as (l1 & l2 & ->).
    destruct (pi_free pi) as [|v fl] eqn:Efl; [done|].
    rewrite Forall_app, Forall_cons in Hpu. destruct Hpu as (? & _ & ?).
    eapply wp_mono; [apply (alloc_block_spec _ _ _ _ _ v fl Hc); [by apply Forall_app|done]|].
    intros w h' (-> & Hv & Hinv & Hba). right. split; [lia|]. rewrite Hbt in Hba. eauto.
  - wp_step. eapply wp_mono; [apply (allocpageref_loop_spec _ _ _ _ (ki_inuse _ _ _ Hc)); done|].
    intros [q|] h1.
    + intros (Hql & Hqn & w & -> & Hw). wp_step. apply wp_on_pages.
      eapply wp_mono; [apply (alloc_law _ _ 1 (ki_ok _ _ _ Hc)); [done|lia]|].
      intros page s [[-> Hs]|(Hne & HG & Hs)].
      * rewrite Z.eqb_refl. wp_step. eapply wp_mono.
        { apply (freepageref_spec _ _ (q :: (pi_idx <$> pis)) (pi_idx <$> pis)); [exact Hw|by left|done|].
          intros i. rewrite elem_of_cons. split; [|tauto]. intros Hi. split; [by right|].
          by intros ->. }
        intros [] h2 (w' & -> & Hw'). wp_step. left. split; [done|]. split; [|done].
        apply (core_set_pages _ _ _ w' s Hc); done.
      * destruct (Z.eqb_spec page 0); [done|].
        eapply wp_mono; [by apply (new_page_spec h pis big q page b s w Hc Hpu)|].
        intros v h' (Hv & pis' & Hinv & Hba). right. split; [lia|]. eauto.
    + intros ->. wp_step. left. done.
Qed.

(** Adding a run of whole pages. *)
Lemma inv_add_big h pis big p n s :
  kheap_inv h pis big -> (page_map pis big : gmap Z Z) !! p = None ->
  pages_ok s (<[p := n]> (page_map pis big : gmap Z Z)) ->
  kheap_inv (set_kpages s h) pis (<[p := n]> big) /\
  blocks_added pis pis big (<[p := n]> big) p (n * PAGE_SIZE).
Proof.
  intros [Hc Hpu] HG Hs. pose proof HG as [HG1 HG2]%lookup_union_None.
  assert (p ∉ pi_page <$> pis) as Hpn.
  { apply not_elem_of_list_to_map in HG1. by rewrite <- list_fmap_compose in HG1. }
  split; [split; [|done]|split].
  - destruct Hc. constructor; try done.
    + rewrite Forall_forall in *. intros pi Hi. rewrite lookup_insert_ne; [by auto|].
      intros ->. apply Hpn. by apply list_elem_of_fmap_2.
    + simpl. by rewrite <- insert_union_r.
  - intros d [(pi & Hi & Hon & _)|(m & Hm & _)]; [|congruence].
    pose proof (page_map_pis _ _ _ _ Hc Hi) as Hp.
    pose proof (ki_pis _ _ _ Hc) as Hpis. rewrite Forall_forall in Hpis.
    destruct (Hpis pi Hi) as (Hb & _). destruct (on_page_range pi p Hb Hon).
    destruct (bsize_spec _ Hb) as (? & _). destruct (pages_wf _ _ p n Hs) as (? & ? & _); [by rewrite lookup_insert_eq|].
    assert (p <> pi_page pi) by congruence.
    destruct (pages_disjoint _ _ p n (pi_page pi) 1 Hs); unfold PAGE_SIZE in *;
      rewrite ?lookup_insert_eq, ?lookup_insert_ne by done; try done; lia.
  - intros a d. unfold block_in. split.
    + intros [?|(m & Hm & ->)]; [by left; left|].
      apply lookup_insert_Some in Hm as [[<- <-]|[_ Hm]]; [by right|]. left. right. eauto.
    + intros [[?|(m & Hm & ->)]|[-> ->]]; [by left| |].
      * right. exists m. rewrite lookup_insert_ne by congruence. done.
      * right. exists n. by rewrite lookup_insert_eq.
Qed.

(** In terms of the map of blocks. *)
Lemma rep_added (B : gmap Z Z) pis pis' big big' v c :
  (forall a d, B !! a = Some d <-> block_in pis big a d) ->
  blocks_added pis pis' big big' v c ->
  B !! v = None /\ forall a d, <[v := c]> B !! a = Some d <-> block_in pis' big' a d.
Proof.
  intros HB [Hn Hadd]. split.
  - destruct (B !! v) as [d|] eqn:E; [|done]. apply HB in E. by destruct (Hn d).
  - intros a d. rewrite Hadd, <- HB, lookup_insert_Some. split.
    + intros [[-> ->]|[? ?]]; [by right|by left].
    + intros [Hd|[-> ->]]; [|by left]. right. split; [|done]. intros <-.
      apply HB in Hd. by destruct (Hn d).
Qed.

(** ** [remove_lists] *)

Lemma split_unique (A B A' B' : list nat) x :
  NoDup (A ++ x :: B) -> A ++ x :: B = A' ++ x :: B' -> A = A' /\ B = B'.
Proof.
  revert A'. induction A as [|a A IH]; intros [|a' A'] Hnd E; simpl in *; simplify_eq.
  - done.
  - apply NoDup_cons in Hnd as [Hn _]. exfalso. apply Hn. apply elem_of_app. right. left.
  - apply NoDup_cons in Hnd as [Hn _]. exfalso. apply Hn. apply elem_of_app. right. left.
  - apply NoDup_cons in Hnd as [_ Hnd]. destruct (IH A' Hnd) as [-> ->]; done.
Qed.

(** What removing from one list leaves alone, for a field [f] of a reference. *)
Definition refs_agree {T} (f : pageref -> T) (refs refs' : list pageref) : Prop :=
  length refs' = length refs /\ forall i, f <$> refs' !! i = f <$> refs !! i.

Lemma refs_agree_refl {T} (f : pageref -> T) refs : refs_agree f refs refs.
Proof. done. Qed.

Lemma refs_agree_insert {T} (f : pageref -> T) refs (c : nat) r r' :
  refs !! c = Some r -> f r' = f r -> refs_agree f refs (<[c := r']> refs).
Proof.
  intros Hr Hf. split; [apply length_insert|]. intros i.
  destruct (decide (i = c)) as [->|]; [|by rewrite list_lookup_insert_ne].
  rewrite list_lookup_insert_eq by (by eapply lookup_lt_Some). rewrite Hr. simpl. by rewrite Hf.
Qed.

Lemma unlink_all_spec h A x B :
  chain next_all (pagerefs h) (allbase h) (A ++ x :: B) -> NoDup (A ++ x :: B) ->
  (length (A ++ x :: B) < LIST_FUEL)%nat ->
  exists refs' base', unlink LIST_FUEL get_all set_all None x h
      = Ret (tt, set_allbase base' (set_pagerefs refs' h)) /\
    chain next_all refs' base' (A ++ B) /\
    refs_agree (fun r => (next_samesize r, (pageaddr_and_blocktype r, nfree r, freelist_offset r)))
      (pagerefs h) refs'.
Proof.
  intros Hc Hnd Hf.
  pose proof (unlink_spec next_all
    (fun v r => mkPageref (next_samesize r) v (pageaddr_and_blocktype r) (freelist_offset r) (nfree r))
    get_all set_all h (allbase h) (fun v => set_allbase v h)) as Hu.
  edestruct Hu as [(l2 & v & E & -> & Hch)|(l1 & c & r & l2 & v & E & Hr & -> & Hch)];
    [done| | | |done|exact Hc| |done|exact Hf| | ].
  - intros i r Hr. unfold get_all, get_ref, bind, get, lift. by rewrite (rd_nat _ _ _ Hr).
  - done.
  - intros i v r Hr. unfold set_all, get_ref, put_ref, bind, get, lift.
    rewrite (rd_nat _ _ _ Hr), wr_nat by (by eapply lookup_lt_Some). done.
  - apply elem_of_app. right. left.
  - destruct (split_unique A B [] l2 x Hnd E) as [-> ->]. exists (pagerefs h), v.
    split; [reflexivity|]. split; [done | apply refs_agree_refl].
  - replace (l1 ++ c :: x :: l2) with ((l1 ++ [c]) ++ x :: l2) in E by (by rewrite <- app_assoc).
    destruct (split_unique A B (l1 ++ [c]) l2 x Hnd E) as [-> ->].
    exists (<[c := mkPageref (next_samesize r) v (pageaddr_and_blocktype r) (freelist_offset r)
      (nfree r)]> (pagerefs h)), (allbase h). split; [reflexivity|]. rewrite <- app_assoc.
    split; [exact Hch|]. by apply (refs_agree_insert _ _ _ r).
Qed.

Lemma unlink_same_spec h b A x B :
  length (sizebases h) = Z.to_nat NSIZES -> 0 <= b < NSIZES ->
  chain next_samesize (pagerefs h) (sizebases h !!! Z.to_nat b) (A ++ x :: B) ->
  NoDup (A ++ x :: B) -> (length (A ++ x :: B) < LIST_FUEL)%nat ->
  exists refs' bases', unlink LIST_FUEL (get_same b) (set_same b) None x h
      = Ret (tt, set_sizebases bases' (set_pagerefs refs' h)) /\
    chain next_samesize refs' (bases' !!! Z.to_nat b) (A ++ B) /\
    length bases' = length (sizebases h) /\
    (forall b', 0 <= b' -> b' <> b -> bases' !!! Z.to_nat b' = sizebases h !!! Z.to_nat b') /\
    (forall i, i ∉ A ++ B -> refs' !! i = pagerefs h !! i) /\
    refs_agree (fun r => (next_all r, (pageaddr_and_blocktype r, nfree r, freelist_offset r)))
      (pagerefs h) refs'.
Proof.
  intros Hlen Hb Hc Hnd Hf. unfold NSIZES in *.
  assert (rd (sizebases h) b = Ret (sizebases h !!! Z.to_nat b)) as Hrd.
  { apply rd_lookup; [lia|]. apply list_lookup_lookup_total_lt. lia. }
  pose proof (unlink_spec next_samesize
    (fun v r => mkPageref v (next_all r) (pageaddr_and_blocktype r) (freelist_offset r) (nfree r))
    (get_same b) (set_same b) h (sizebases h !!! Z.to_nat b)
    (fun v => set_sizebases (<[Z.to_nat b := v]> (sizebases h)) h)) as Hu.
  edestruct Hu as [(l2 & v & E & -> & Hch)|(l1 & c & r & l2 & v & E & Hr & -> & Hch)];
    [| | | |done|exact Hc| |done|exact Hf| | ].
  - unfold get_same, bind, get, lift. by rewrite Hrd.
  - intros i r Hr. unfold get_same, get_ref, bind, get, lift. by rewrite (rd_nat _ _ _ Hr).
  - intros v. unfold set_same, bind, get, lift. by rewrite wr_in by lia.
  - intros i v r Hr. unfold set_same, get_ref, put_ref, bind, get, lift.
    rewrite (rd_nat _ _ _ Hr), wr_nat by (by eapply lookup_lt_Some). done.
  - apply elem_of_app. right. left.
  - destruct (split_unique A B [] l2 x Hnd E) as [-> ->].
    exists (pagerefs h), (<[Z.to_nat b := v]> (sizebases h)). split_and!.
    + reflexivity.
    + by rewrite list_lookup_total_insert_eq by lia.
    + apply length_insert.
    + intros b' ? ?. by rewrite list_lookup_total_insert_ne by lia.
    + done.
    + apply refs_agree_refl.
  - replace (l1 ++ c :: x :: l2) with ((l1 ++ [c]) ++ x :: l2) in E by (by rewrite <- app_assoc).
    destruct (split_unique A B (l1 ++ [c]) l2 x Hnd E) as [-> ->].
    exists (<[c := mkPageref v (next_all r) (pageaddr_and_blocktype r) (freelist_offset r) (nfree r)]>
      (pagerefs h)), (sizebases h). split; [reflexivity|]. rewrite <- app_assoc.
    split; [exact Hch|]. split_and!; [done|done| |by apply (refs_agree_insert _ _ _ r)].
    intros i Hi. rewrite list_lookup_insert_ne; [done|]. intros ->. apply Hi.
    apply elem_of_app. right. left.
Qed.

Lemma refs_agree_weaken {T U} (f : pageref -> T) (g : T -> U) refs refs' :
  refs_agree f refs refs' -> refs_agree (fun r => g (f r)) refs refs'.
Proof.
  intros [Hl Hf]. split; [done|]. intros i.
  change (g ∘ f <$> refs' !! i = g ∘ f <$> refs !! i). by rewrite !option_fmap_compose, Hf.
Qed.

Lemma refs_agree_trans {T} (f : pageref -> T) refs refs' refs'' :
  refs_agree f refs refs' -> refs_agree f refs' refs'' -> refs_agree f refs refs''.
Proof. intros [? H1] [? H2]. split; [congruence|]. intros i. by rewrite H2, H1. Qed.

Lemma refs_agree_chain link refs refs' q l :
  refs_agree link refs refs' -> chain link refs q l -> chain link refs' q l.
Proof. intros [_ Ha]. apply chain_agree. intros i _. apply Ha. Qed.

Lemma of_type_app b l1 pi l2 :
  of_type b (l1 ++ pi :: l2) =
    of_type b l1 ++ (if decide (pi_bt pi = b) then [pi] else []) ++ of_type b l2.
Proof. unfold of_type. rewrite filter_app, filter_cons. by case_decide. Qed.

(** Lists of different block types have no reference in common. *)
Lemma of_type_disjoint (pis : list pinfo) b b' i :
  NoDup (pi_idx <$> pis) -> i ∈ pi_idx <$> of_type b pis -> i ∈ pi_idx <$> of_type b' pis -> b = b'.
Proof.
  intros Hnd Hi Hj. apply list_elem_of_fmap in Hi as (pi & -> & Hi).
  apply list_elem_of_fmap in Hj as (pj & E & Hj).
  apply list_elem_of_filter in Hi as [<- Hi]. apply list_elem_of_filter in Hj as [<- Hj].
  apply list_elem_of_lookup in Hi as [i Hi]. apply list_elem_of_lookup in Hj as [j Hj].
  assert (i = j) as ->; [|congruence].
  eapply (NoDup_lookup _ _ _ (pi_idx pi) Hnd); rewrite list_lookup_fmap; [by rewrite Hi|].
  rewrite Hj. simpl. by rewrite <- E.
Qed.

Lemma remove_lists_spec {p : Prop} h l1 pi l2 big :
  kheap_core h (l1 ++ pi :: l2) big ->
  wpo p (remove_lists (pi_idx pi) (pi_bt pi)) h (fun _ h' => exists refs' bases' base',
    h' = mkKheap refs' (pagerefs_inuse h) bases' base' (kmem h) (kpages h) /\
    length bases' = length (sizebases h) /\
    chain next_all refs' base' (pi_idx <$> (l1 ++ l2)) /\
    (forall b, 0 <= b < NSIZES -> chain next_samesize refs' (bases' !!! Z.to_nat b)
       (pi_idx <$> of_type b (l1 ++ l2))) /\
    refs_agree (fun r => (pageaddr_and_blocktype r, nfree r, freelist_offset r))
      (pagerefs h) refs').
Proof.
  intros Hc. destruct (core_pinfo _ _ _ _ _ Hc) as (Hb & _).
  pose proof (ki_nodup _ _ _ Hc) as Hnd. pose proof (pis_length _ _ _ Hc) as Hlen.
  pose proof (ki_same _ _ _ Hc) as Hsame. set (b0 := pi_bt pi) in *.
  pose proof (of_type_app b0 l1 pi l2) as EF. rewrite decide_True in EF by done. simpl in EF.
  assert (NoDup (pi_idx <$> of_type b0 (l1 ++ pi :: l2))) as HndF.
  { eapply sublist_NoDup; [exact Hnd|]. apply fmap_sublist, sublist_filter. }
  assert (length (of_type b0 (l1 ++ pi :: l2)) <= length (l1 ++ pi :: l2))%nat as HlenF
    by apply length_filter.
  unfold remove_lists. wp_step. wp_step. wp_step.
  destruct (unlink_same_spec h b0 (pi_idx <$> of_type b0 l1) (pi_idx pi)
    (pi_idx <$> of_type b0 l2)) as (refs1 & bases1 & E1 & Hch1 & Hlb & Hoth & Hri & Hag1);
    rewrite <- ?fmap_cons, <- ?fmap_app, <- ?EF; try done.
  { apply (ki_bases _ _ _ Hc). } { by apply Hsame. } { rewrite length_fmap. lia. }
  eapply wp_Ret; [exact E1|].
  destruct (unlink_all_spec (set_sizebases bases1 (set_pagerefs refs1 h)) (pi_idx <$> l1)
    (pi_idx pi) (pi_idx <$> l2)) as (refs2 & base2 & E2 & Hch2 & Hag2);
    rewrite <- ?fmap_cons, <- ?fmap_app; try done.
  { eapply refs_agree_chain; [exact (refs_agree_weaken _ fst _ _ Hag1)|apply (ki_all _ _ _ Hc)]. }
  { rewrite length_fmap. done. }
  eapply wp_Ret; [exact E2|]. exists refs2, bases1, base2. split; [done|]. split; [done|].
  rewrite <- fmap_app in Hch2, Hch1. split; [done|].
  split; [|exact (refs_agree_trans _ _ _ _ (refs_agree_weaken _ snd _ _ Hag1)
                     (refs_agree_weaken _ snd _ _ Hag2))].
  intros b Hb'. eapply refs_agree_chain; [exact (refs_agree_weaken _ fst _ _ Hag2)|]. simpl.
  destruct (decide (b = b0)) as [->|Hne].
  - unfold of_type in *. by rewrite filter_app.
  - rewrite Hoth by (done || lia). specialize (Hsame b Hb').
    rewrite of_type_app, decide_False in Hsame by done. simpl in Hsame.
    unfold of_type in Hsame. rewrite <- filter_app in Hsame. fold (of_type b (l1 ++ l2)) in Hsame.
    eapply chain_agree; [|exact Hsame]. intros i Hi. f_equal. apply Hri. intros Hj.
    apply Hne. apply (of_type_disjoint (l1 ++ l2) b b0 i); [|done|].
    + rewrite fmap_app. rewrite fmap_app, fmap_cons in Hnd.
      apply NoDup_app in Hnd as (? & Hd & Hnd2). apply NoDup_cons in Hnd2 as [_ ?].
      apply NoDup_app. split_and!; [done| |done]. intros j ? ?. apply (Hd j); [done|by right].
    + unfold of_type in *. by rewrite filter_app, fmap_app.
Qed.

(** ** Giving a page back *)

Lemma NoDup_middle {A} (l1 l2 : list A) x : NoDup (l1 ++ x :: l2) -> NoDup (l1 ++ l2) /\ x ∉ l1 ++ l2.
Proof.
  intros (? & Hd & [Hn ?]%NoDup_cons)%NoDup_app. split.
  - apply NoDup_app. split_and!; [done| |done]. intros j ? ?. apply (Hd j); [done|by right].
  - rewrite elem_of_app. intros [Hi|?]; [|done]. apply (Hd x); [done|left].
Qed.

Lemma drop_page_spec h l1 pi l2 big :
  kheap_core h (l1 ++ pi :: l2) big ->
  wpo pages_oom
    (let* _ := remove_lists (pi_idx pi) (pi_bt pi) in
     let* _ := on_pages (free_kpages (pi_page pi)) in
     freepageref (pi_idx pi)) h (fun _ h' => kheap_core h' (l1 ++ l2) big).
Proof.
  intros Hc. wp_step. eapply wp_mono; [exact (remove_lists_spec _ _ _ _ _ Hc)|].
  intros [] h1 (refs & bases & base & -> & Hlb & Hall & Hsame & Hag). wp_step.
  apply wp_on_pages. cbn [kpages].
  assert (page_map (l1 ++ pi :: l2) big = <[pi_page pi := 1]> (page_map (l1 ++ l2) big : gmap Z Z)) as EG.
  { rewrite <- page_map_cons. f_equal. apply list_to_map_proper.
    - rewrite <- list_fmap_compose. apply (ki_pages _ _ _ Hc).
    - by rewrite Permutation_middle. }
  pose proof (ki_pages _ _ _ Hc) as Hpg. rewrite fmap_app, fmap_cons in Hpg.
  apply NoDup_middle in Hpg as [Hpg Hpn]. rewrite <- fmap_app in Hpg, Hpn.
  pose proof (ki_nodup _ _ _ Hc) as Hnd. rewrite fmap_app, fmap_cons in Hnd.
  apply NoDup_middle in Hnd as [Hnd Hin]. rewrite <- fmap_app in Hnd, Hin.
  pose proof (ki_big _ _ _ Hc) as Hbig. rewrite Forall_app, Forall_cons in Hbig.
  pose proof (ki_pis _ _ _ Hc) as Hpis. rewrite Forall_app, Forall_cons in Hpis.
  eapply wp_mono.
  { apply (free_law _ (page_map (l1 ++ l2) big) _ 1).
    - rewrite <- EG. apply (ki_ok _ _ _ Hc).
    - apply lookup_union_None. split; [|tauto]. apply not_elem_of_list_to_map.
      by rewrite <- list_fmap_compose. }
  intros [] s Hs. eapply wp_mono.
  { apply (freepageref_spec _ _ (pi_idx <$> (l1 ++ pi :: l2)) (pi_idx <$> (l1 ++ l2))).
    - exact (ki_inuse _ _ _ Hc).
    - rewrite fmap_app, fmap_cons. apply elem_of_app. right. left.
    - rewrite <- (ki_len _ _ _ Hc). apply (idx_lt _ _ _ _ Hc).
      rewrite fmap_app, fmap_cons. apply elem_of_app. right. left.
    - intros i. rewrite !fmap_app, fmap_cons, !elem_of_app, elem_of_cons. split.
      + intros Hi. split; [tauto|]. intros ->. apply Hin. by rewrite fmap_app, elem_of_app.
      + tauto. }
  intros [] h2 (w & -> & Hw).
  constructor; cbn [pagerefs pagerefs_inuse sizebases allbase kmem kpages set_inuse set_kpages]; try done.
  - rewrite (proj1 Hag). apply (ki_len _ _ _ Hc).
  - rewrite Hlb. apply (ki_bases _ _ _ Hc).
  - apply Forall_app. destruct Hpis as (H1 & _ & H2).
    split; (eapply Forall_impl; [eassumption|]); intros pj Hj;
      (eapply pinfo_ok_agree; [exact Hj|apply Hag|done]).
  - apply Forall_app. tauto.
Qed.

(** ** Writing the freed block *)

Lemma fill_words_spec {p : Prop} (n : nat) a h :
  wpo p (fill_words n a) h (fun _ h' => exists mem', h' = set_kmem mem' h /\
    forall x, ~ (a <= x < a + 4 * Z.of_nat n) -> mem' x = kmem h x).
Proof.
  revert a h. induction n as [|n IH]; intros a h; cbn [fill_words].
  - wp_step. exists (kmem h). by destruct h.
  - wp_step. unfold store. wp_step. eapply wp_mono; [apply IH|].
    intros [] h' (mem' & -> & Hm). exists mem'. split; [done|]. intros x Hx.
    rewrite Hm by lia. simpl. destruct (Z.eqb_spec x a); [lia|done].
Qed.

(** A free list to which one more block of the page has been added. *)
Lemma free_pinfo_ok (refs : list pageref) (mem mem' : Z -> Z) pi a r r' :
  pinfo_ok refs mem pi -> on_page pi a -> a ∉ pi_free pi -> refs !! pi_idx pi = Some r ->
  pageaddr_and_blocktype r' = pageaddr_and_blocktype r -> nfree r' = nfree r + 1 ->
  freelist_offset r' = a - pi_page pi ->
  mem' a = (if freelist_offset r =? INVALID_OFFSET then 0 else pi_page pi + freelist_offset r) ->
  (forall x, ~ (a <= x < a + bsize (pi_bt pi)) -> mem' x = mem x) ->
  pinfo_ok (<[pi_idx pi := r']> refs) mem' (with_free pi (a :: pi_free pi)).
Proof.
  intros (Hb & Hp & Hal & Hlt & Hnd & Hon & r0 & Hr0 & Hpab & Hn & Hfl) Ha Hnf Hr Epab En Eoff Hma Hmx.
  rewrite Hr in Hr0. injection Hr0 as <-.
  destruct (on_page_range pi a Hb Ha). destruct (bsize_spec _ Hb) as (? & ? & ? & _).
  unfold pinfo_ok, with_free; simpl. split_and!; try done; try lia.
  - by constructor.
  - by constructor.
  - exists r'. rewrite list_lookup_insert_eq by (by eapply lookup_lt_Some).
    split; [done|]. split; [congruence|]. split; [lia|]. split; [done|].
    split; [done|]. split; [lia|]. rewrite Hma.
    destruct (pi_free pi) as [|a' fl].
    + rewrite Hfl, Z.eqb_refl. done.
    + destruct Hfl as [Eo Hch]. apply Forall_cons in Hon as [Ha' Hon].
      destruct (on_page_range pi a' Hb Ha'). unfold INVALID_OFFSET, PAGE_SIZE in *.
      destruct (Z.eqb_spec (freelist_offset r) 65535); [lia|].
      replace (pi_page pi + freelist_offset r) with a' by lia.
      eapply flchain_agree; [|exact Hch]. intros x Hx. apply Hmx.
      assert (on_page pi x) as Hox.
      { apply elem_of_cons in Hx as [->|Hx]; [done|]. rewrite Forall_forall in Hon. by apply Hon. }
      assert (a <> x) by (intros ->; done).
      destruct (on_page_disjoint pi a x Hb Ha Hox); lia.
Qed.

(** ** [subpage_kfree] *)

Definition blocks_removed (pis pis' : list pinfo) (big big' : gmap Z Z) (v : Z) : Prop :=
  forall a d, block_in pis' big' a d <-> block_in pis big a d /\ a <> v.

Lemma big_outside h pis big pi a n :
  kheap_core h pis big -> big !! a = Some n -> pi ∈ pis ->
  ~ (pi_page pi <= a < pi_page pi + PAGE_SIZE).
Proof.
  intros Hc Hn Hi Hr. pose proof (page_map_pis _ _ _ _ Hc Hi) as Hp.
  pose proof (page_map_big _ _ _ _ _ Hc Hn) as Hb.
  destruct (pages_wf _ _ _ _ (ki_ok _ _ _ Hc) Hb) as (? & ? & _).
  destruct (decide (a = pi_page pi)) as [->|Hne]; [by eapply page_not_big|].
  destruct (pages_disjoint _ _ _ _ _ _ (ki_ok _ _ _ Hc) Hb Hp Hne); unfold PAGE_SIZE in *; lia.
Qed.

Lemma free_blocks h l1 pi l2 big a :
  kheap_core h (l1 ++ pi :: l2) big -> on_page pi a ->
  blocks_removed (l1 ++ pi :: l2) (l1 ++ with_free pi (a :: pi_free pi) :: l2) big big a.
Proof.
  intros Hc Ha x d. destruct (core_pinfo _ _ _ _ _ Hc) as (Hb & _).
  destruct (on_page_range pi a Hb Ha). destruct (bsize_spec _ Hb) as (? & _).
  assert (block_in (l1 ++ l2) big a d -> False) as Hno.
  { intros Hin. assert (block_in (l1 ++ with_free pi (a :: pi_free pi) :: l2) big a d)
      by (rewrite block_in_split; by right).
    destruct Hin as [(pj & Hj & Hon & _)|(n & Hn & _)].
    - assert (pj ∈ l1 ++ pi :: l2) as Hj' by (rewrite elem_of_app, elem_of_cons in *; tauto).
      pose proof (ki_pis _ _ _ Hc) as Hp. rewrite Forall_forall in Hp.
      destruct (Hp pj Hj') as (Hbj & _ & Halj & _), (core_pinfo _ _ _ _ _ Hc) as (_ & _ & Hali & _).
      destruct (on_page_range pj a Hbj Hon). destruct (bsize_spec _ Hbj) as (? & _).
      pose proof (ki_pages _ _ _ Hc) as Hpg. rewrite fmap_app, fmap_cons in Hpg.
      apply NoDup_middle in Hpg as [_ Hpn]. rewrite <- fmap_app in Hpn.
      assert (pi_page pj <> pi_page pi).
      { intros E. apply Hpn. rewrite <- E. by apply list_elem_of_fmap_2. }
      destruct (aligned_disjoint (pi_page pj) (pi_page pi)); done || lia.
    - apply (big_outside _ _ _ pi _ _ Hc Hn); [apply elem_of_app; right; left | lia]. }
  rewrite !block_in_split. unfold with_free, on_page; simpl. rewrite not_elem_of_cons.
  fold (on_page pi x). split.
  - intros [(? & [? ?] & ?)|Hr]; [split; [by left|done]|]. split; [by right|].
    intros ->. by apply Hno.
  - intros [[(? & ? & ?)|Hr] ?]; [by left|by right].
Qed.

Lemma full_page_blocks l1 pi l2 big :
  NoDup (pi_free pi) -> Forall (on_page pi) (pi_free pi) -> 0 <= pi_bt pi < NSIZES ->
  Z.of_nat (length (pi_free pi)) = bcount (pi_bt pi) ->
  forall a d, block_in (l1 ++ pi :: l2) big a d <-> block_in (l1 ++ l2) big a d.
Proof.
  intros Hnd Hon Hb Hlen a d. rewrite block_in_split. split; [|by right].
  intros [(Ha & Hnf & _)|?]; [|done]. exfalso. apply Hnf.
  destruct (bsize_spec _ Hb) as (? & ? & ? & _).
  assert (pi_free pi ≡ₚ page_blocks pi) as ->; [|by apply elem_page_blocks].
  apply submseteq_length_Permutation.
  - apply NoDup_submseteq; [done|]. intros x Hx. apply elem_page_blocks.
    rewrite Forall_forall in Hon. by apply Hon.
  - unfold page_blocks. rewrite length_fmap, length_seqZ. lia.
Qed.

(** The part of [subpage_kfree] that puts the block on the free list. *)
Lemma free_block_spec h l1 pi l2 big a r :
  kheap_inv h (l1 ++ pi :: l2) big -> on_page pi a -> a ∉ pi_free pi ->
  pagerefs h !! pi_idx pi = Some r ->
  wpo pages_oom
    (let* _ := fill_deadbeef a (bsize (pi_bt pi)) in
     let* _ := store a (if freelist_offset r =? INVALID_OFFSET then 0
                        else u32 (pi_page pi + freelist_offset r)) in
     let nfree' := u16 (nfree r + 1) in
     let* _ := put_ref (pi_idx pi) (mkPageref (next_samesize r) (next_all r)
                 (pageaddr_and_blocktype r) (u16 (a - pi_page pi)) nfree') in
     let* _ := kassert (nfree' <=? PAGE_SIZE / bsize (pi_bt pi)) in
     let* _ :=
       if nfree' =? PAGE_SIZE / bsize (pi_bt pi) then
         let* _ := remove_lists (pi_idx pi) (pi_bt pi) in
         let* _ := on_pages (free_kpages (pi_page pi)) in
         freepageref (pi_idx pi)
       else ret tt in
     ret false) h
    (fun b h' => b = false /\ exists pis',
       kheap_inv h' pis' big /\ blocks_removed (l1 ++ pi :: l2) pis' big big a).
Proof.
  intros [Hc Hpu] Ha Hnf Hr. pose proof (core_pinfo _ _ _ _ _ Hc) as Hpi.
  pose proof (free_blocks _ _ _ _ _ _ Hc Ha) as Hrem.
  destruct (pinfo_ref _ _ _ Hpi) as (r0 & Hr0 & _ & _ & Hn & _).
  rewrite Hr in Hr0. injection Hr0 as <-.
  pose proof Hpi as (Hb & Hp & Hal & Hlt & Hnd & Hon & r1 & Hr1 & _ & _ & Hfl).
  rewrite Hr in Hr1. injection Hr1 as <-.
  destruct (on_page_range pi a Hb Ha) as [Ha1 Ha2].
  destruct (bsize_spec _ Hb) as (Hbs & Hbc & Hcnt & _ & Hrd & H4).
  pose proof (free_length pi (a :: pi_free pi)) as Hlen. cbn [length] in Hlen.
  specialize (Hlen ltac:(by constructor) ltac:(by constructor) Hb).
  unfold PAGE_SIZE in Ha2, Hlt, Hbc.
  wp_step. unfold fill_deadbeef. eapply wp_mono; [apply fill_words_spec|].
  intros [] h1 (mem1 & -> & Hm1). wp_step. unfold store. wp_step.
  rewrite (u16_small (nfree r + 1)), (u16_small (a - pi_page pi)) by lia. wp_step.
  apply wp_put_ref; [by eapply lookup_lt_Some|]. wp_step.
  fold (bcount (pi_bt pi)). wp_step. cbn [set_kmem pagerefs pagerefs_inuse sizebases allbase kmem kpages].
  match goal with |- wpo _ _ ?s _ => set (h2 := s) end.
  assert (kheap_core h2 (l1 ++ with_free pi (a :: pi_free pi) :: l2) big) as Hc2.
  { apply (core_update h l1 pi (with_free pi (a :: pi_free pi)) l2 big r); try done.
    - intros x Hx. cbn [kmem]. unfold PAGE_SIZE in Hx. destruct (Z.eqb_spec x a); [lia|]. apply Hm1. lia.
    - apply (free_pinfo_ok _ (kmem h) _ _ _ r); try done.
      + cbn [kmem]. rewrite Z.eqb_refl. destruct (Z.eqb_spec (freelist_offset r) INVALID_OFFSET); [done|].
        destruct (pi_free pi) as [|a' fl]; [done|]. destruct Hfl as [Ho _].
        apply Forall_cons in Hon as [Ha' _].
        destruct (on_page_range pi a' Hb Ha'). unfold PAGE_SIZE in *. apply u32_small. lia.
      + intros x Hx. cbn [kmem]. destruct (Z.eqb_spec x a); [lia|]. apply Hm1. lia. }
  clearbody h2. rewrite Forall_app, Forall_cons in Hpu. destruct Hpu as (Hp1 & Hppi & Hp2).
  destruct (Z.eqb_spec (nfree r + 1) (bcount (pi_bt pi))) as [Ef|Ef].
  - wp_step. eapply wp_mono; [apply (drop_page_spec _ _ _ _ _ Hc2)|].
    intros [] h3 Hc3. wp_step. split; [done|]. exists (l1 ++ l2).
    split; [split; [done | by apply Forall_app]|]. intros x d.
    etransitivity; [|exact (Hrem x d)]. symmetry.
    destruct (core_pinfo _ _ _ _ _ Hc2) as (? & _ & _ & _ & ? & ? & _).
    apply full_page_blocks; try done. simpl. lia.
  - wp_step. wp_step. wp_step. split; [done|]. eexists. split; [split; [exact Hc2|]|done].
    apply Forall_app. split; [done|]. constructor; [|done]. unfold partly_used; simpl. lia.
Qed.

Lemma subpage_kfree_small h l1 pi l2 big a :
  kheap_inv h (l1 ++ pi :: l2) big -> on_page pi a -> a ∉ pi_free pi ->
  wpo pages_oom (subpage_kfree a) h (fun b h' => b = false /\ exists pis',
    kheap_inv h' pis' big /\ blocks_removed (l1 ++ pi :: l2) pis' big big a).
Proof.
  intros Hinv Ha Hnf. pose proof Hinv as [Hc _]. pose proof (core_pinfo _ _ _ _ _ Hc) as Hpi.
  pose proof Hpi as (Hb & Hp & Hal & Hlt & Hnd & Hon & _).
  destruct (pinfo_ref _ _ _ Hpi) as (r & Hr & Epa & Ebt & Hn & Hpab).
  destruct (on_page_range pi a Hb Ha) as [Ha1 Ha2].
  destruct (bsize_spec _ Hb) as (Hbs & Hbc & Hcnt & _ & Hrd & H4).
  assert (pi ∈ l1 ++ pi :: l2) as Hi by (apply elem_of_app; right; left).
  unfold subpage_kfree. wp_step. wp_step. wp_step.
  eapply wp_mono; [apply (find_owner_spec _ _ _ _ _ (ki_all _ _ _ Hc) (ki_pis _ _ _ Hc)
                            (pis_length _ _ _ Hc))|].
  intros o h0 [-> Ho]. destruct o as [q|]; cycle 1.
  { rewrite Forall_forall in Ho. destruct (Ho pi Hi). lia. }
  destruct Ho as (pj & Hj & -> & Hrj).
  assert (pj = pi) as ->.
  { pose proof (ki_pis _ _ _ Hc) as Hps. rewrite Forall_forall in Hps.
    destruct (Hps pj Hj) as (_ & _ & Halj & _). apply (same_page _ _ _ _ _ Hc Hj Hi).
    destruct (decide (pi_page pj = pi_page pi)); [done|].
    destruct (aligned_disjoint (pi_page pj) (pi_page pi)); done || lia. }
  wp_step. eapply wp_get_ref; [exact Hr|]. rewrite Epa, Ebt. wp_step.
  eapply wp_lift_Ret; [exact Hrd|]. unfold PAGE_SIZE in Ha2, Hlt, Hrj.
  rewrite (u32_small (a - pi_page pi)) by lia.
  destruct ((PAGE_SIZE <=? a - pi_page pi) || negb ((a - pi_page pi) mod bsize (pi_bt pi) =? 0)) eqn:Echk.
  { exfalso. destruct Ha as (k & Hk & ->).
    replace (pi_page pi + k * bsize (pi_bt pi) - pi_page pi) with (k * bsize (pi_bt pi)) in * by lia.
    rewrite Z.mod_mul in Echk by lia. simpl in Echk. unfold PAGE_SIZE in Echk. lia. }
  replace (pi_page pi + (a - pi_page pi)) with a by lia. rewrite (u32_small a) by lia.
  by apply free_block_spec.
Qed.

Lemma subpage_kfree_big {p : Prop} h pis big a n :
  kheap_inv h pis big -> big !! a = Some n ->
  wpo p (subpage_kfree a) h (fun b h' => b = true /\ h' = h).
Proof.
  intros [Hc _] Hn. unfold subpage_kfree. wp_step. wp_step. wp_step.
  eapply wp_mono; [apply (find_owner_spec _ _ _ _ _ (ki_all _ _ _ Hc) (ki_pis _ _ _ Hc)
                            (pis_length _ _ _ Hc))|].
  intros o h0 [-> Ho]. destruct o as [q|]; [|by wp_step].
  destruct Ho as (pi & Hi & -> & Hr). by destruct (big_outside _ _ _ _ _ _ Hc Hn Hi).
Qed.

(** ** The allocator *)

(** Blocks are aligned for every C type. *)
Lemma rep_aligned h B a c : kheap_rep h B -> B !! a = Some c -> 0 < a /\ a mod 8 = 0.
Proof.
  intros (pis & big & [Hc _] & HB) Ha. apply HB in Ha as [(pi & Hi & Hon & _)|(n & Hn & _)].
  - pose proof (ki_pis _ _ _ Hc) as Hp. rewrite Forall_forall in Hp.
    destruct (Hp pi Hi) as (Hb & ? & Hal & _). destruct Hon as (k & Hk & ->).
    destruct (bsize_spec _ Hb) as (? & _ & _ & H8 & _). unfold PAGE_SIZE in *.
    split; [nia|]. apply Z.mod_divide in H8 as [m ->]; [|done].
    apply Z.mod_divide in Hal as [q ->]; [|done].
    replace (q * 4096 + k * (m * 8)) with ((q * 512 + k * m) * 8) by lia. by apply Z.mod_mul.
  - destruct (pages_wf _ _ _ _ (ki_ok _ _ _ Hc) (page_map_big _ _ _ _ _ Hc Hn)) as (? & _ & Hal & _).
    split; [lia|]. unfold PAGE_SIZE in Hal. apply Z.mod_divide in Hal as [q ->]; [|done].
    replace (q * 4096) with ((q * 512) * 8) by lia. by apply Z.mod_mul.
Qed.

Lemma npages_spec sz :
  0 < sz <= MAXALLOC ->
  0 < u32 (sz + PAGE_SIZE - 1) / PAGE_SIZE <= 2 ^ 19 /\
  sz <= u32 (sz + PAGE_SIZE - 1) / PAGE_SIZE * PAGE_SIZE.
Proof.
  unfold MAXALLOC, PAGE_SIZE. intros Hsz. rewrite u32_small by lia.
  Z.to_euclidean_division_equations. lia.
Qed.

Lemma rep_add_big h B pis big p n s sz :
  kheap_inv h pis big -> (forall a d, B !! a = Some d <-> block_in pis big a d) ->
  (page_map pis big : gmap Z Z) !! p = None ->
  pages_ok s (<[p := n]> (page_map pis big : gmap Z Z)) -> sz <= n * PAGE_SIZE ->
  B !! p = None /\ exists c, sz <= c /\ kheap_rep (set_kpages s h) (<[p := c]> B).
Proof.
  intros Hinv HB HG Hs Hsz. destruct (inv_add_big _ _ _ _ _ _ Hinv HG Hs) as [Hinv' Hba].
  destruct (rep_added _ _ _ _ _ _ _ HB Hba) as [Hn HB'].
  split; [done|]. exists (n * PAGE_SIZE). split; [done|]. by exists pis, (<[p := n]> big).
Qed.

Lemma kheap_kmalloc_wp h B sz :
  kheap_rep h B -> 0 < sz <= MAXALLOC ->
  wpo (pages_oom \/ is_vm_setup (ram_of (kpages h)) = false) (kheap_kmalloc sz) h (fun p h' =>
    (p = 0 /\ kheap_rep h' B) \/
    (p <> 0 /\ p mod 8 = 0 /\ B !! p = None /\
     exists c, sz <= c /\ kheap_rep h' (<[p := c]> B))).
Proof.
  intros (pis & big & Hinv & HB) Hsz. destruct (npages_spec sz Hsz) as [Hnp Hle].
  set (np := u32 (sz + PAGE_SIZE - 1) / PAGE_SIZE) in *.
  apply (wp_mono _ _ (fun p h' => (p = 0 /\ kheap_rep h' B) \/
    (p <> 0 /\ B !! p = None /\ exists c, sz <= c /\ kheap_rep h' (<[p := c]> B)))); cycle 1.
  { intros p h' [?|(Hp & Hn & c & Hc & Hr)]; [by left|right]. split_and!; [done| |done|eauto].
    eapply rep_aligned; [exact Hr|]. by rewrite lookup_insert_eq. }
  unfold kheap_kmalloc. fold np. wp_step. wp_step.
  destruct (is_vm_setup (ram_of (kpages h))) eqn:Evm; cbn [negb].
  - destruct (Z.geb_spec sz LARGEST_SUBPAGE_SIZE) as [Hbig|Hsmall].
    + apply wp_on_pages. eapply wp_weaken; [|by left].
      eapply wp_mono; [by apply (alloc_law _ _ np (ki_ok _ _ _ (proj1 Hinv)))|].
      intros p s [[-> Hs]|(Hp & HG & Hs)].
      * left. split; [done|]. exists pis, big. split; [|done]. split; [|apply Hinv].
        apply (core_set_pages _ _ _ (pagerefs_inuse h) s (proj1 Hinv)); [|done].
        apply (ki_inuse _ _ _ (proj1 Hinv)).
      * right. split; [done|]. by eapply rep_add_big.
    + eapply wp_weaken; [|by left]. unfold LARGEST_SUBPAGE_SIZE in Hsmall.
      eapply wp_mono; [apply (subpage_kmalloc_spec _ _ _ _ Hinv); [lia|done]|].
      intros v h' [[-> Hinv']|(Hv & pis' & c & Hinv' & Hc & Hba)].
      * left. split; [done|]. by exists pis, big.
      * right. destruct (rep_added _ _ _ _ _ _ _ HB Hba) as [Hn HB'].
        split_and!; [done..|]. exists c. split; [done|]. by exists pis', big.
  - wp_step. apply wp_on_pages. pose proof (steal_law _ _ np (ki_ok _ _ _ (proj1 Hinv)) Evm Hnp) as Hst.
    unfold wpx in Hst. unfold wpx at 1, steal.
    destruct (ram_stealmem np (ram_of (kpages h))) as [[pa r]|w]; [|by destruct w].
    destruct Hst as [[-> _]|(Hpa & HG & Hs)].
    + simpl. by right.
    + destruct (Z.eqb_spec pa 0); [done|]. wp_step. right.
      destruct (pages_wf _ _ _ _ Hs (lookup_insert_eq _ _ _)) as (? & _).
      split; [lia|]. by eapply rep_add_big.
Qed.

Lemma rep_removed (B : gmap Z Z) pis pis' big big' v :
  (forall a d, B !! a = Some d <-> block_in pis big a d) ->
  blocks_removed pis pis' big big' v ->
  forall a d, delete v B !! a = Some d <-> block_in pis' big' a d.
Proof.
  intros HB Hrem a d. rewrite lookup_delete_Some, HB. split.
  - intros [? ?]. apply Hrem. done.
  - intros Hin. apply Hrem in Hin as [? ?]. done.
Qed.

(** Giving a run of whole pages back. *)
Lemma free_big_spec h pis big a n :
  kheap_inv h pis big -> big !! a = Some n ->
  wpo pages_oom (on_pages (free_kpages a)) h (fun _ h' =>
    kheap_inv h' pis (delete a big) /\ blocks_removed pis pis big (delete a big) a).
Proof.
  intros [Hc Hpu] Hn. pose proof (page_map_big _ _ _ _ _ Hc Hn) as HG.
  assert (a ∉ pi_page <$> pis) as Hna.
  { intros Hi. apply list_elem_of_fmap in Hi as (pi & -> & Hi). by eapply page_not_big. }
  apply wp_on_pages. eapply wp_mono.
  - apply (free_law _ (page_map pis (delete a big)) _ n).
    + rewrite insert_union_r; [|apply not_elem_of_list_to_map; by rewrite <- list_fmap_compose].
      rewrite insert_delete_id by done. apply (ki_ok _ _ _ Hc).
    + apply lookup_union_None. split; [|apply lookup_delete_eq].
      apply not_elem_of_list_to_map. by rewrite <- list_fmap_compose.
  - intros [] s Hs. split; [split; [|done]|].
    + destruct Hc. constructor; try done. eapply Forall_impl; [exact ki_big|].
      intros pi Hp. apply lookup_delete_None. by right.
    + intros x d. unfold block_in. split.
      * intros [(pi & Hi & Hon & Hnf & Hd)|(m & Hm & ->)].
        -- split; [left; by exists pi|]. intros ->.
           pose proof (ki_pis _ _ _ Hc) as Hp. rewrite Forall_forall in Hp.
           destruct (Hp pi Hi) as (Hb & _). destruct (on_page_range pi a Hb Hon).
           destruct (bsize_spec _ Hb) as (? & _). apply (big_outside _ _ _ pi _ _ Hc Hn Hi). lia.
        -- apply lookup_delete_Some in Hm as [? Hm]. split; [right; eauto|done].
      * intros [[?|(m & Hm & ->)] Hne]; [by left|]. right. exists m.
        by rewrite lookup_delete_ne.
Qed.

Lemma kheap_kfree_wp h B p c :
  kheap_rep h B -> B !! p = Some c ->
  wpo pages_oom (kheap_kfree p) h (fun _ h' => kheap_rep h' (delete p B)).
Proof.
  intros Hrep Hp. pose proof (rep_aligned _ _ _ _ Hrep Hp) as [Hpos _].
  destruct Hrep as (pis & big & Hinv & HB). pose proof (proj1 (HB p c) Hp) as Hin.
  unfold kheap_kfree. cbn [OPT_A3 andb]. wp_step. wp_step.
  destruct (Z.eqb_spec p 0) as [|_]; [lia|]. wp_step.
  destruct Hin as [(pi & Hi & Hon & Hnf & _)|(n & Hn & _)].
  - apply list_elem_of_split in Hi as (l1 & l2 & ->).
    eapply wp_mono; [by apply (subpage_kfree_small _ _ _ _ _ _ Hinv)|].
    intros b h' (-> & pis' & Hinv' & Hrem). wp_step. exists pis', big. split; [done|].
    by eapply rep_removed.
  - eapply wp_mono; [exact (subpage_kfree_big _ _ _ _ _ Hinv Hn)|].
    intros b h' [-> ->]. wp_step.
    pose proof (page_map_big _ _ _ _ _ (proj1 Hinv) Hn) as HG.
    destruct (pages_wf _ _ _ _ (ki_ok _ _ _ (proj1 Hinv)) HG) as (_ & _ & Hal & _).
    wp_step. eapply wp_mono; [by apply (free_big_spec _ _ _ _ _ Hinv Hn)|].
    intros [] h' [Hinv' Hrem]. exists pis, (delete p big). split; [done|]. by eapply rep_removed.
Qed.

Lemma rep_below h B a c : kheap_rep h B -> B !! a = Some c -> a < 2 ^ 32.
Proof.
  intros (pis & big & [Hc _] & HB) Ha. apply HB in Ha as [(pi & Hi & Hon & _)|(n & Hn & _)].
  - pose proof (ki_pis _ _ _ Hc) as Hp. rewrite Forall_forall in Hp. destruct (Hp pi Hi) as (Hb & _).
    destruct (on_page_range _ _ Hb Hon). destruct (bsize_spec _ Hb) as (? & _).
    destruct (pages_wf _ _ _ _ (ki_ok _ _ _ Hc) (page_map_pis _ _ _ _ Hc Hi)) as (_ & _ & _ & ?). lia.
  - destruct (pages_wf _ _ _ _ (ki_ok _ _ _ Hc) (page_map_big _ _ _ _ _ Hc Hn)) as (_ & ? & _ & ?).
    unfold PAGE_SIZE in *. lia.
Qed.

Lemma rep_disjoint h B a c b d :
  kheap_rep h B -> B !! a = Some c -> B !! b = Some d -> a <> b ->
  a + c <= b \/ b + d <= a.
Proof.
  intros (pis & big & [Hc _] & HB) Ha Hb Hne. apply HB in Ha, Hb.
  by eapply block_in_disjoint.
Qed.

Lemma kheap_zero_rep s : pages_ok s ∅ -> kheap_rep (kheap_zero s) ∅.
Proof.
  intros Hs. exists [], ∅. split.
  - split; [|done]. constructor; try done.
    + apply NoDup_nil_2.
    + apply NoDup_nil_2.
    + intros b Hb. change (of_type b []) with (@nil pinfo). cbn [chain fmap list_fmap].
      apply lookup_total_replicate_2. unfold NSIZES in *. lia.
    + split_and!; [done| |].
      * apply Forall_replicate. lia.
      * intros i Hi. unfold inuse_bit, kheap_zero; cbn [pagerefs_inuse].
        rewrite lookup_total_replicate_2.
        -- rewrite Z.testbit_0_l. split; [done|]. intros H. by apply elem_of_nil in H.
        -- change (Z.to_nat NPAGEREFS) with 256%nat in Hi. change (Z.to_nat INUSE_WORDS) with 8%nat.
           Z.to_euclidean_division_equations. lia.
  - intros a c. rewrite lookup_empty. split; [done|].
    intros [(pi & Hi & _)|(n & Hn & _)]; [by apply elem_of_nil in Hi|by rewrite lookup_empty in Hn].
Qed.

(** C1: [kmalloc] of [sz] bytes, whatever the blocks [B] in use: either it
    returns null, and the same blocks are in use, or it returns a block that
    was not in use, aligned to eight bytes, of capacity at least [sz] and
    overlapping no other block, and exactly that block is added.  It panics
    only where the page allocator does, or before the virtual memory system is
    up. *)
Theorem kheap_kmalloc_correct h B sz :
  kheap_rep h B -> 0 < sz <= MAXALLOC ->
  wpo (pages_oom \/ is_vm_setup (ram_of (kpages h)) = false) (kheap_kmalloc sz) h (fun p h' =>
    (p = 0 /\ kheap_rep h' B) \/
    (p <> 0 /\ p mod 8 = 0 /\ B !! p = None /\
     exists c, sz <= c /\ kheap_rep h' (<[p := c]> B) /\
       forall b d, B !! b = Some d -> p + c <= b \/ b + d <= p)).
Proof.
  intros Hrep Hsz. eapply wp_mono; [by apply kheap_kmalloc_wp|].
  intros p h' [?|(Hp & Hal & Hn & c & Hc & Hrep')]; [by left|right].
  split_and!; [done..|]. exists c. split_and!; [done..|]. intros b d Hb.
  assert (p <> b) by congruence.
  apply (rep_disjoint _ _ p c b d Hrep'); [apply lookup_insert_eq| |done].
  by rewrite lookup_insert_ne.
Qed.

(** C2: [kfree] of a block in use returns, and takes exactly that block out of
    the heap: every other block stays in use with its capacity. *)
Theorem kheap_kfree_correct h B p c :
  kheap_rep h B -> B !! p = Some c ->
  wpo pages_oom (kheap_kfree p) h (fun _ h' => kheap_rep h' (delete p B)).
Proof. apply kheap_kfree_wp. Qed.

(** ** The heap as an allocator for its clients, who do not see capacities *)

Definition kheap_ok (h : kheap P) (L : gset Z) : Prop := exists B, kheap_rep h B /\ dom B = L.

#[global] Program Instance kheap_laws : AllocatorLaws (kheap P) := {
  oom_panics := True;
  heap_ok := kheap_ok;
}.
Next Obligation.
  intros n h L (B & Hrep & HL) Hn. eapply wp_weaken; [|done].
  eapply wp_mono; [by apply kheap_kmalloc_wp|].
  intros p h' [[-> Hrep']|(Hp & _ & Hnone & c & _ & Hrep')]; [left; split; [done|by exists B]|].
  right. split_and!; [done| |].
  - rewrite <- HL. by apply not_elem_of_dom.
  - exists (<[p := c]> B). split; [done|]. by rewrite dom_insert_L, HL.
Qed.
Next Obligation.
  intros p h L (B & Hrep & HL) Hn. eapply wp_weaken; [|done].
  assert (p ∈ dom B) as [c Hc]%elem_of_dom by (rewrite HL; set_solver).
  eapply wp_mono; [exact (kheap_kfree_wp _ _ _ _ Hrep Hc)|].
  intros [] h' Hrep'. exists (delete p B). split; [done|]. rewrite dom_delete_L, HL. set_solver.
Qed.

#[global] Instance kheap_aligned : AlignedAlloc (kheap P).
Proof.
  intros h L p (B & Hrep & <-) [c Hc]%elem_of_dom. destruct (rep_aligned _ _ _ _ Hrep Hc).
  pose proof (rep_below _ _ _ _ Hrep Hc). lia.
Qed.

End Proofs.
