(* ===== verification/Dumbvm.v ===== *)
(** * The page allocator of the first kernels ([kern/arch/mips/mips/dumbvm.c])

    Pages come from [ram_stealmem] and never go back: [free_kpages] does
    nothing.  It is the lawful page allocator the heap runs on until the
    virtual memory system is up. *)

From S2P Require Import Prelude.
From S2P Require Import Ram.
From S2P Require Import Kheap.
From S2P Require Import KheapProof.

Definition getppages (npages : Z) : M ram Z := ram_stealmem npages.

Definition dumb_alloc_kpages (npages : Z) : M ram Z :=
  let* pa := getppages npages in
  if pa =? 0 then ret 0 else ret (PADDR_TO_KVADDR pa).

Definition dumb_free_kpages (addr : Z) : M ram unit := ret tt.

#[global] Instance dumb_pages : Pages ram := {
  alloc_kpages := dumb_alloc_kpages;
  free_kpages := dumb_free_kpages;
  ram_of := fun r => r;
  set_ram := fun r _ => r;
}.

(** The runs handed out lie below the free pointer and do not overlap.  Once
    somebody has called [ram_getsize] there is no memory left to steal. *)
Definition dumb_ok (r : ram) (G : gmap Z Z) : Prop :=
  (ram_wf r \/ (lastpaddr r = 0 /\ firstpaddr r = 0)) /\
  (forall p n, G !! p = Some n ->
     MIPS_KSEG0 < p /\ 0 < n /\ p mod PAGE_SIZE = 0 /\
     p + n * PAGE_SIZE <= MIPS_KSEG0 + RAM_LIMIT /\
     (lastpaddr r <> 0 -> p + n * PAGE_SIZE <= MIPS_KSEG0 + firstpaddr r)) /\
  (forall p n q m, G !! p = Some n -> G !! q = Some m -> p <> q ->
     p + n * PAGE_SIZE <= q \/ q + m * PAGE_SIZE <= p).

Lemma dumb_ok_steal r r' G n :
  dumb_ok r G -> ram_wf r -> 0 < n <= 2 ^ 19 -> ram_wf r' ->
  firstpaddr r' = firstpaddr r + n * PAGE_SIZE ->
  G !! PADDR_TO_KVADDR (firstpaddr r) = None /\
  dumb_ok r' (<[PADDR_TO_KVADDR (firstpaddr r) := n]> G).
Proof.
  intros (_ & Hin & Hdis) Hwf Hn Hwf' Hfp. pose proof Hwf as (? & Hal & ? & ?).
  pose proof Hwf' as (_ & _ & ? & ?).
  unfold PADDR_TO_KVADDR, RAM_LIMIT, PAGE_SIZE, MIPS_KSEG0 in *. rewrite u32_small by lia.
  set (p0 := firstpaddr r + 2147483648) in *.
  assert (G !! p0 = None) as Hnone.
  { destruct (G !! p0) as [m|] eqn:E; [|done]. apply Hin in E. lia. }
  split; [done|]. split; [by left|]. unfold PAGE_SIZE, MIPS_KSEG0, RAM_LIMIT. split.
  - intros p m Hp. apply lookup_insert_Some in Hp as [[<- <-]|[_ Hp]].
    + split_and!; [lia..| |lia|lia]. unfold p0. rewrite Zplus_mod, Hal. reflexivity.
    + apply Hin in Hp. lia.
  - intros p m q k Hp Hq Hne.
    apply lookup_insert_Some in Hp as [[<- <-]|[_ Hp]];
      apply lookup_insert_Some in Hq as [[<- <-]|[_ Hq]]; [done| | |by eapply Hdis].
    + apply Hin in Hq. lia.
    + apply Hin in Hp. lia.
Qed.

#[global] Program Instance dumb_laws : PagesLaws ram := {
  pages_oom := False;
  pages_ok := dumb_ok;
}.
Next Obligation.
  intros s G p n (_ & Hin & _) Hp. apply Hin in Hp. unfold RAM_LIMIT, MIPS_KSEG0 in *. lia.
Qed.
Next Obligation. intros s G p n q m (_ & _ & Hdis). apply Hdis. Qed.
Next Obligation.
  intros s G n Hok Hvm Hn. unfold is_vm_setup in Hvm. simpl in Hvm.
  pose proof Hok as ([(? & ? & ? & ?)|[Hl Hf]] & _); [lia|].
  unfold alloc_kpages, dumb_pages, dumb_alloc_kpages, getppages, ram_stealmem, wpx, bind, get.
  unfold PAGE_SIZE. rewrite Hl, Hf, (u32_small (n * 4096)), u32_small by lia.
  destruct (Z.gtb_spec (0 + n * 4096) 0); [by left|lia].
Qed.
Next Obligation.
  intros s G n Hok Hvm Hn. unfold is_vm_setup in Hvm. simpl in Hvm.
  pose proof Hok as ([Hwf|[Hl _]] & _); [|simpl in *; lia].
  eapply wp_mono; [apply (ram_stealmem_spec n s Hwf); lia|].
  intros pa r' [(-> & -> & _)|(-> & Hne & Hwf' & _ & Hfp)]; [by left|right].
  split; [done|]. by apply dumb_ok_steal.
Qed.
Next Obligation.
  intros s G p n (Hwf & Hin & Hdis) Hp. apply wp_ret. split; [done|].
  assert (forall q m, G !! q = Some m -> <[p := n]> G !! q = Some m) as Hsub.
  { intros q m Hq. rewrite lookup_insert_ne; [done|]. congruence. }
  split; eauto.
Qed.

(** A machine with half a megabyte, the kernel in the first 64 kilobytes. *)
Definition boot_ram : ram := mkRam 0x10000 0x80000 0x7fffffff.

Lemma boot_ram_ok : dumb_ok boot_ram ∅.
Proof.
  split; [left; split_and!; vm_compute; congruence|].
  split; intros *; rewrite lookup_empty; done.
Qed.

(** The heap the kernel boots with. *)
Definition boot_heap : kheap ram := kheap_zero boot_ram.

Lemma boot_heap_rep : kheap_rep boot_heap ∅.
Proof. apply kheap_zero_rep, boot_ram_ok. Qed.

Lemma boot_heap_ok : kheap_ok boot_heap ∅.
Proof. exists ∅. split; [apply boot_heap_rep | apply dom_empty_L]. Qed.

(** [ram_getsize] hands the rest of memory to somebody else: the blocks in use
    stay so, and every later request for a page fails. *)
Lemma getsize_rep (h : kheap ram) B v :
  kheap_rep h B -> kheap_rep (set_kpages (mkRam 0 0 v) h) B.
Proof.
  intros (pis & big & [Hc Hpu] & HB). exists pis, big. split; [|done]. split; [|done].
  apply (core_set_pages h pis big (pagerefs_inuse h) (mkRam 0 0 v) Hc); [apply (ki_inuse _ _ _ Hc)|].
  destruct (ki_ok _ _ _ Hc) as (_ & Hin & Hdis). split; [by right|]. split; [|done].
  intros p n Hp. apply Hin in Hp. simpl. split_and!; try lia.
Qed.

Definition boot_heap1 : kheap ram := kheap_zero (mkRam 0x11000 0x80000 0x7fffffff).

Lemma kheap_kmalloc_correct_witness :
  kheap_rep boot_heap ∅ /\ kheap_kmalloc 100 boot_heap = Ret (0x80010000, boot_heap1) /\
  exists c, 100 <= c /\ kheap_rep boot_heap1 {[ 0x80010000 := c ]}.
Proof.
  split; [exact boot_heap_rep|]. split; [reflexivity|].
  pose proof (kheap_kmalloc_correct boot_heap ∅ 100 boot_heap_rep ltac:(unfold MAXALLOC; lia)) as H.
  unfold wpx in H. change (kheap_kmalloc 100 boot_heap) with (@Ret _ (0x80010000, boot_heap1)) in H.
  destruct H as [[H _]|(_ & _ & _ & c & Hc & Hr & _)]; [discriminate|]. exists c. split; assumption.
Defined.

Lemma boot_heap1_rep : exists c, kheap_rep boot_heap1 {[ 0x80010000 := c ]}.
Proof.
  pose proof (kheap_kmalloc_wp boot_heap ∅ 100 boot_heap_rep ltac:(unfold MAXALLOC; lia)) as H.
  unfold wpx in H. change (kheap_kmalloc 100 boot_heap) with (@Ret _ (0x80010000, boot_heap1)) in H.
  destruct H as [[H _]|(_ & _ & _ & c & _ & Hr)]; [discriminate|]. by exists c.
Qed.

Lemma kheap_kfree_correct_witness :
  exists c, kheap_rep boot_heap1 {[ 0x80010000 := c ]} /\
    wpo pages_oom (kheap_kfree 0x80010000) boot_heap1 (fun _ h' =>
      kheap_rep h' (delete 0x80010000 {[ 0x80010000 := c ]})).
Proof.
  destruct boot_heap1_rep as [c Hc]. exists c. split; [exact Hc|].
  apply (kheap_kfree_correct boot_heap1 {[ 0x80010000 := c ]} 0x80010000 c Hc). apply lookup_singleton_eq.
Defined.
