(* ===== verification/Array.v ===== *)
(** * Resizable arrays of pointers ([kern/lib/array.c])

    [struct array] is the record [array]; the cells of the block [v] points to
    are a list, in which [None] is a cell nobody has written yet.  Every
    function of the file is a definition, over any [Allocator].  The abstract
    value of an array is [contents], the list of its first [num] cells. *)

From S2P Require Import Prelude.
From S2P Require Import Ram.
From S2P Require Import Kheap.
From S2P Require Import KheapProof.
From S2P Require Import Dumbvm.

Record block (A : Type) := mkBlock { blk_addr : Z; blk_cells : list (option A) }.
Arguments mkBlock {A} _ _.
Arguments blk_addr {A} _.
Arguments blk_cells {A} _.

Record array (A : Type) := mkArray {
  arr_addr : Z;                 (* where the structure itself was allocated *)
  arr_num : Z;
  arr_max : Z;
  arr_v : option (block A);
}.
Arguments mkArray {A} _ _ _ _.
Arguments arr_addr {A} _.
Arguments arr_num {A} _.
Arguments arr_max {A} _.
Arguments arr_v {A} _.

Definition PTR_SIZE : Z := 4.
Definition SIZEOF_ARRAY : Z := 12.

Section Array.
Context {H : Type} `{!Allocator H} {A : Type}.
Implicit Types (a : array A) (h : H).

Definition array_create : M H (option (array A)) :=
  let* p := kmalloc SIZEOF_ARRAY in
  if p =? 0 then ret None
  else ret (Some (mkArray p 0 0 None)).

Definition array_getnum a : Z := arr_num a.

(** The cells [a->v] points to; a null pointer has none. *)
Definition cells a : list (option A) :=
  match arr_v a with
  | Some b => blk_cells b
  | None => []
  end.

Definition array_getguy a (index : Z) : res (option A) :=
  let? _ := rassert (arr_num a <=? arr_max a) in
  let? _ := rassert ((0 <=? index) && (index <? arr_num a)) in
  rd (cells a) index.

(** [while (nguys > newmax) newmax = (newmax+1)*2;] *)
Fixpoint grow_max (fuel : nat) (nguys newmax : Z) : res Z :=
  match fuel with
  | O => Stop OutOfFuel
  | S f =>
      if nguys >? newmax then grow_max f nguys (s32 (s32 (newmax + 1) * 2))
      else Ret newmax
  end.

Definition GROW_FUEL : nat := 40.

Definition array_preallocate a (nguys : Z) : M H (Z * array A) :=
  let* _ := kassert ((0 <=? arr_num a) && (arr_num a <=? arr_max a)) in
  let* newmax := lift (grow_max GROW_FUEL nguys (arr_max a)) in
  let bytes := u32 (newmax * PTR_SIZE) in
  let* newv := kmalloc bytes in
  if newv =? 0 then ret (ENOMEM, a)
  else
    let fresh := replicate (Z.to_nat (bytes / PTR_SIZE)) None in
    let* newcells := lift (copy_up (Z.to_nat (arr_num a)) 0 (cells a) fresh) in
    let* _ := match arr_v a with
              | Some b => kfree (blk_addr b)
              | None => ret tt
              end in
    ret (0, mkArray (arr_addr a) (arr_num a) newmax (Some (mkBlock newv newcells))).

Definition array_setsize a (nguys : Z) : M H (Z * array A) :=
  let* _ := kassert ((0 <=? arr_num a) && (arr_num a <=? arr_max a)) in
  if nguys >? arr_max a then
    let* (result, a') := array_preallocate a nguys in
    if negb (result =? 0) then ret (result, a')
    else ret (0, mkArray (arr_addr a') nguys (arr_max a') (arr_v a'))
  else if (nguys =? 0) && (arr_max a >? 16) then
    match arr_v a with
    | None => halt Panic
    | Some b =>
        let* _ := kfree (blk_addr b) in
        ret (0, mkArray (arr_addr a) nguys 0 None)
    end
  else ret (0, mkArray (arr_addr a) nguys (arr_max a) (arr_v a)).

(** The store [a->v[index] = ptr]. *)
Definition set_cell a (index : Z) (ptr : A) : res (array A) :=
  match arr_v a with
  | None => Stop Fault
  | Some b =>
      let? cs := wr (blk_cells b) index (Some ptr) in
      Ret (mkArray (arr_addr a) (arr_num a) (arr_max a)
             (Some (mkBlock (blk_addr b) cs)))
  end.

Definition array_setguy a (index : Z) (ptr : A) : res (array A) :=
  let? _ := rassert (arr_num a <=? arr_max a) in
  let? _ := rassert ((0 <=? index) && (index <? arr_num a)) in
  set_cell a index ptr.

Definition array_add a (guy : A) : M H (Z * array A) :=
  let ix := arr_num a in
  let* (result, a') := array_setsize a (s32 (ix + 1)) in
  if negb (result =? 0) then ret (result, a')
  else
    let* a'' := lift (set_cell a' ix guy) in
    ret (0, a'').

(** [memmove] of [n] cells inside one block, from [src] down to [dst]. *)
Definition move_cells (l : list (option A)) (dst src n : Z) : res (list (option A)) :=
  if (0 <=? dst) && (0 <=? src) && (0 <=? n)
     && (src + n <=? Z.of_nat (length l)) && (dst + n <=? Z.of_nat (length l))
  then Ret (take (Z.to_nat dst) l ++ take (Z.to_nat n) (drop (Z.to_nat src) l)
              ++ drop (Z.to_nat (dst + n)) l)
  else Stop Fault.

Definition array_remove a (index : Z) : res (array A) :=
  let? _ := rassert (arr_num a <=? arr_max a) in
  let? _ := rassert ((0 <=? index) && (index <? arr_num a)) in
  let nmove := arr_num a - (index + 1) in
  let? cs := move_cells (cells a) index (index + 1)
               (u32 (nmove * PTR_SIZE) / PTR_SIZE) in
  Ret (mkArray (arr_addr a) (arr_num a - 1) (arr_max a)
         (match arr_v a with
          | Some b => Some (mkBlock (blk_addr b) cs)
          | None => None
          end)).

Definition array_destroy a : M H unit :=
  let* _ := match arr_v a with
            | Some b => kfree (blk_addr b)
            | None => ret tt
            end in
  kfree (arr_addr a).

(** ** Well-formedness and abstract value *)

(** [MAXGUYS] keeps every size computation of the file inside an [int]:
    a larger array would need more than a gigabyte of pointers. *)
Definition MAXGUYS : Z := 2 ^ 28.

Definition array_wf a : Prop :=
  0 <= arr_num a <= arr_max a /\ arr_max a <= 2 * MAXGUYS /\
  Z.of_nat (length (cells a)) = arr_max a.

Definition contents a : list (option A) := take (Z.to_nat (arr_num a)) (cells a).

(** ** Growing *)

Lemma grow_max_spec (fuel : nat) (nguys newmax : Z) :
  0 <= newmax -> newmax <= 2 * MAXGUYS -> nguys <= MAXGUYS ->
  MAXGUYS < (newmax + 1) * 2 ^ Z.of_nat fuel ->
  exists m, grow_max (S fuel) nguys newmax = Ret m /\
    nguys <= m /\ newmax <= m /\ m <= Z.max newmax (2 * nguys).
Proof.
  unfold MAXGUYS. revert newmax. induction fuel as [|f IH]; intros m0 H0 H1 H2 H3.
  - exists m0. cbn [grow_max]. destruct (Z.gtb_spec nguys m0); [lia|]. split; [done | lia].
  - cbn [grow_max]. destruct (Z.gtb_spec nguys m0); [|exists m0; split; [done | lia]].
    rewrite (s32_small (m0 + 1)), s32_small by lia.
    destruct (IH ((m0 + 1) * 2)) as (m & Hm & ?); [lia..| |].
    + rewrite Nat2Z.inj_succ, Z.pow_succ_r in H3 by lia. nia.
    + exists m. split; [exact Hm | lia].
Qed.

(** Forty iterations are enough for every array the kernel can hold. *)
Lemma grow_max_total (nguys newmax : Z) :
  0 <= newmax <= 2 * MAXGUYS -> nguys <= MAXGUYS ->
  exists m, grow_max GROW_FUEL nguys newmax = Ret m /\
    nguys <= m /\ newmax <= m /\ m <= Z.max newmax (2 * nguys).
Proof.
  intros. apply (grow_max_spec 39); try lia. unfold MAXGUYS in *. simpl. lia.
Qed.

Lemma contents_length a : array_wf a -> Z.of_nat (length (contents a)) = arr_num a.
Proof.
  unfold array_wf, contents. intros (? & ? & ?). rewrite length_take. lia.
Qed.

(** ** Against the allocator's laws *)

Context `{!AllocatorLaws H}.

(** The addresses an array owns. *)
Definition footprint a : gset Z :=
  {[ arr_addr a ]} ∪ match arr_v a with Some b => {[ blk_addr b ]} | None => ∅ end.

(** A well-formed array that owns its memory; [F] is what others own. *)
Definition array_ok a h (F : gset Z) : Prop :=
  array_wf a /\ heap_ok h (footprint a ∪ F) /\ footprint a ## F /\
  match arr_v a with Some b => blk_addr b <> arr_addr a | None => True end.

(** Replacing the block of an array by a fresh one, the old one freed. *)
Lemma wp_swap_block a F h1 newv cs (num max : Z) (P : unit -> H -> Prop) :
  footprint a ## F ->
  match arr_v a with Some b => blk_addr b <> arr_addr a | None => True end ->
  newv ∉ footprint a ∪ F -> heap_ok h1 ({[ newv ]} ∪ (footprint a ∪ F)) ->
  let a' := mkArray (arr_addr a) num max (Some (mkBlock newv cs)) in
  array_wf a' -> (forall h2, array_ok a' h2 F -> P tt h2) ->
  wpo oom_panics (match arr_v a with Some b => kfree (blk_addr b) | None => ret tt end) h1 P.
Proof.
  intros HF Hd Hfresh Hh1 a' Hwf HP. unfold footprint in *.
  destruct (arr_v a) as [b|] eqn:Ev.
  - eapply wp_mono.
    + apply (kfree_law _ _ ({[newv]} ∪ {[arr_addr a]} ∪ F)); [|set_solver].
      eapply (eq_ind _ (heap_ok h1)); [exact Hh1 | gset_eq].
    + intros [] h2 Hh2. apply HP. unfold array_ok, footprint, a'; simpl.
      split_and!; [done| |set_solver..].
      eapply (eq_ind _ (heap_ok h2)); [exact Hh2 | gset_eq].
  - apply wp_ret, HP. unfold array_ok, footprint, a'; simpl.
    split_and!; [done| |set_solver..].
    eapply (eq_ind _ (heap_ok h1)); [exact Hh1 | gset_eq].
Qed.

Lemma array_wf_block (addr num max newv : Z) (l : list (option A)) :
  Z.of_nat (length l) = num -> num <= max -> max <= 2 * MAXGUYS ->
  let a' := mkArray addr num max
              (Some (mkBlock newv (l ++ replicate (Z.to_nat (max - num)) None))) in
  array_wf a' /\ contents a' = l.
Proof.
  intros Hl ? ? a'. unfold array_wf, contents, a', cells; simpl.
  rewrite length_app, length_replicate. repeat split; try lia.
  apply take_app_length'. lia.
Qed.

Lemma array_preallocate_wp a nguys h F :
  array_ok a h F -> 0 < nguys <= MAXGUYS ->
  wpo oom_panics (array_preallocate a nguys) h (fun '(r, a') h' =>
    (r = ENOMEM /\ alloc_fails /\ a' = a /\ array_ok a h' F) \/
    (r = 0 /\ array_ok a' h' F /\ contents a' = contents a /\
     arr_num a' = arr_num a /\
     arr_max a <= arr_max a' <= Z.max (arr_max a) (2 * nguys) /\ nguys <= arr_max a')).
Proof.
  intros (Hwf & Hh & HF & Hd) Hg. pose proof Hwf as (? & ? & ?).
  destruct (grow_max_total nguys (arr_max a)) as (m & Em & ? & ? & ?); [lia..|].
  assert (0 < m * PTR_SIZE <= MAXALLOC) by (unfold PTR_SIZE, MAXGUYS, MAXALLOC in *; lia).
  unfold array_preallocate. wp_step. wp_step. wp_step.
  apply (wp_lift_Ret _ m); [done|]. rewrite u32_small by (unfold MAXALLOC in *; lia). wp_step.
  eapply wp_mono; [by apply kmalloc_wp|]. intros p h1 [(-> & ? & Hl1)|(Hp & Hf & Hl1)].
  - left. done.
  - destruct (Z.eqb_spec p 0); [done|]. wp_step.
    pose proof (contents_length a Hwf) as Hcl.
    unfold PTR_SIZE. rewrite Z.div_mul by lia.
    eapply wp_lift_Ret.
    { apply (copy_up_spec _ 0); rewrite ?length_replicate; simpl; try lia. done. }
    rewrite drop_replicate. cbn [Nat.add]. fold (contents a). wp_step.
    replace (Z.to_nat m - Z.to_nat (arr_num a))%nat with (Z.to_nat (m - arr_num a)) by lia.
    destruct (array_wf_block (arr_addr a) (arr_num a) m p (contents a)) as [Hwf' Hc]; [lia..|].
    eapply wp_swap_block; [done..|]. intros h2 Hok. apply wp_ret. right.
    repeat (split; [done|]). simpl. lia.
Qed.

(** Changing [num] alone, within the block. *)
Lemma array_ok_num a h F (num : Z) :
  array_ok a h F -> 0 <= num <= arr_max a ->
  array_ok (mkArray (arr_addr a) num (arr_max a) (arr_v a)) h F.
Proof.
  intros ((? & ? & ?) & ? & ? & ?) ?.
  unfold array_ok, array_wf; simpl; split_and!; done || lia.
Qed.

(** [array_setsize] never changes the elements that remain. *)
Lemma array_setsize_wp a nguys h F :
  array_ok a h F -> 0 <= nguys <= MAXGUYS ->
  wpo oom_panics (array_setsize a nguys) h (fun '(r, a') h' =>
    (r = ENOMEM /\ alloc_fails /\ a' = a /\ arr_max a < nguys /\ array_ok a h' F) \/
    (r = 0 /\ array_ok a' h' F /\ arr_num a' = nguys /\ (0 < nguys -> arr_max a <= arr_max a') /\
     forall k : nat, (k < Nat.min (Z.to_nat nguys) (Z.to_nat (arr_num a)))%nat ->
       contents a' !! k = contents a !! k)).
Proof.
  intros Hok Hg. pose proof Hok as (Hwf & Hh & HF & Hd). pose proof Hwf as (? & ? & ?).
  unfold array_setsize. wp_step. wp_step. destruct (Z.gtb_spec nguys (arr_max a)).
  - wp_step. eapply wp_mono; [apply array_preallocate_wp; [done | lia]|].
    intros [r a'] h' [(-> & ? & -> & ?)|(-> & Hok' & Hc & Hn & ? & ?)]; apply wp_ret; [by left|].
    right. split_and!; [done|by apply array_ok_num; [|lia]|done|simpl; lia|].
    intros k Hk. rewrite <- Hc. unfold contents, cells; simpl.
    rewrite !lookup_take_lt by lia. done.
  - destruct ((nguys =? 0) && (arr_max a >? 16)) eqn:E.
    + assert (nguys = 0) as -> by lia. unfold footprint, cells in *.
      destruct (arr_v a) as [b|] eqn:Ev; [|simpl in *; lia].
      wp_step. eapply wp_mono.
      * apply (kfree_law _ _ ({[arr_addr a]} ∪ F)); [|set_solver].
        eapply (eq_ind _ (heap_ok h)); [exact Hh | gset_eq].
      * intros [] h' Hh'. apply wp_ret. right.
        split_and!; [done| |done|simpl; lia|simpl; lia].
        unfold array_ok, array_wf, MAXGUYS, cells, footprint; simpl.
        rewrite union_empty_r_L. split_and!; done || lia || set_solver.
    + apply wp_ret. right. split_and!; [done|by apply array_ok_num; [|lia]|done|simpl; lia|].
      intros k Hk. unfold contents, cells; simpl. rewrite !lookup_take_lt by lia. done.
Qed.

Lemma set_cell_spec a h F ix x :
  array_ok a h F -> 0 <= ix < arr_num a ->
  exists a', set_cell a ix x = Ret a' /\ array_ok a' h F /\
    contents a' = <[Z.to_nat ix := Some x]> (contents a) /\ arr_max a' = arr_max a.
Proof.
  intros ((? & ? & Hl) & Hh & HF & Hd) Hi. unfold set_cell.
  unfold cells in Hl. destruct (arr_v a) as [b|] eqn:Ev; [|simpl in Hl; lia].
  rewrite wr_in by lia. eexists. split; [done|].
  unfold array_ok, array_wf, contents, cells, footprint in *; simpl.
  rewrite Ev in *. rewrite length_insert.
  split_and!; try done; try lia. by rewrite take_insert_lt by lia.
Qed.

(** [array_add] appends, or answers [ENOMEM] and changes nothing. *)
Lemma array_add_wp a x h F :
  array_ok a h F -> arr_num a < MAXGUYS ->
  wpo oom_panics (array_add a x) h (fun '(r, a') h' =>
    array_ok a' h' F /\
    ((r = 0 /\ contents a' = contents a ++ [Some x] /\ arr_max a <= arr_max a') \/
     (r = ENOMEM /\ alloc_fails /\ a' = a /\ arr_num a = arr_max a))).
Proof.
  intros Hok Hn. pose proof Hok as (Hwf & _). pose proof Hwf as (? & ? & ?).
  unfold array_add. rewrite s32_small by (unfold MAXGUYS in *; lia). wp_step.
  eapply wp_mono; [apply array_setsize_wp; [done | lia]|].
  intros [r a'] h' [(-> & ? & -> & ? & ?)|(-> & Hok' & Hn' & Hm' & Hk)]; simpl.
  - apply wp_ret. split; [done|]. right. split_and!; done || lia.
  - wp_step.
    destruct (set_cell_spec a' h' F (arr_num a) x) as (a2 & -> & Hok2 & Hc2 & Hx2); [done | lia|].
    simpl. split; [done|]. left. split; [done|]. split; [|lia].
    rewrite Hc2. destruct Hok' as (Hwf' & _).
    pose proof (contents_length a Hwf) as L. pose proof (contents_length a' Hwf') as L'.
    apply (insert_last_app _ _ _ (Z.to_nat (arr_num a))); [lia..|].
    intros k ?. apply Hk. lia.
Qed.

(** An array with room appends without the heap. *)
Lemma array_add_room a x h F :
  array_ok a h F -> arr_num a < arr_max a -> arr_num a < MAXGUYS ->
  exists a', array_add a x h = Ret ((0, a'), h) /\ array_ok a' h F /\
    arr_max a' = arr_max a /\ contents a' = contents a ++ [Some x].
Proof.
  intros Hok Hlt Hn. pose proof Hok as (Hwf & _). pose proof Hwf as (? & ? & ?).
  set (a1 := mkArray (arr_addr a) (arr_num a + 1) (arr_max a) (arr_v a)).
  assert (array_ok a1 h F) as Hok1 by (apply array_ok_num; [done | lia]).
  destruct (set_cell_spec a1 h F (arr_num a) x) as (a2 & E & Hok2 & Hc2 & Hx2); [done | simpl; lia|].
  exists a2. unfold array_add, array_setsize, kassert.
  rewrite s32_small by (unfold MAXGUYS in *; lia).
  assert (((0 <=? arr_num a) && (arr_num a <=? arr_max a)) = true) as -> by lia.
  assert (((arr_num a + 1 =? 0) && (arr_max a >? 16)) = false) as -> by lia.
  destruct (Z.gtb_spec (arr_num a + 1) (arr_max a)); [lia|].
  unfold bind; simpl. fold a1. rewrite E; simpl. split; [done|]. split; [done|].
  split; [done|].
  rewrite Hc2. destruct Hok1 as (Hwf1 & _).
  pose proof (contents_length a Hwf) as L. pose proof (contents_length a1 Hwf1) as L1.
  apply (insert_last_app _ _ _ (Z.to_nat (arr_num a))); [lia|simpl in L1; lia|].
  intros k ?. unfold contents, cells; simpl. rewrite !lookup_take_lt by lia. done.
Qed.

(** While [num < max], that is, after an [array_preallocate] that
    succeeded, [array_add] cannot fail and does not touch the heap at all: this
    is what makes preallocation worth calling. *)
Theorem array_add_preallocated a x h F :
  array_ok a h F -> arr_num a < arr_max a -> arr_num a < MAXGUYS ->
  exists a', array_add a x h = Ret ((0, a'), h) /\ array_ok a' h F /\
    arr_max a' = arr_max a /\ contents a' = contents a ++ [Some x].
Proof. apply array_add_room. Qed.

Lemma array_getguy_spec a i :
  array_wf a ->
  array_getguy a i =
    match (if i <? 0 then None else contents a !! Z.to_nat i) with
    | Some c => Ret c
    | None => Stop Panic
    end.
Proof.
  intros Hwf. pose proof (contents_length a Hwf) as L. destruct Hwf as (? & ? & ?).
  unfold array_getguy. replace (arr_num a <=? arr_max a) with true by lia. simpl.
  destruct (Z.ltb_spec i 0); [by replace (0 <=? i) with false by lia|].
  replace (0 <=? i) with true by lia. simpl.
  destruct (Z.ltb_spec i (arr_num a)); simpl.
  - destruct (rd_total (cells a) i) as [c Hc]; [lia|]. rewrite Hc.
    apply rd_inv in Hc as [_ Hc]. unfold contents.
    by rewrite lookup_take_lt, Hc by lia.
  - by rewrite lookup_ge_None_2 by lia.
Qed.

Lemma array_setguy_spec a h F i x :
  array_ok a h F ->
  if (0 <=? i) && (i <? arr_num a)
  then exists a', array_setguy a i x = Ret a' /\ array_ok a' h F /\
         contents a' = <[Z.to_nat i := Some x]> (contents a)
  else array_setguy a i x = Stop Panic.
Proof.
  intros Hok. pose proof Hok as ((? & ? & ?) & _). unfold array_setguy.
  replace (arr_num a <=? arr_max a) with true by lia. simpl.
  destruct ((0 <=? i) && (i <? arr_num a)) eqn:E; [simpl | done].
  destruct (set_cell_spec a h F i x) as (a1 & ? & ? & ? & _); [done | lia | by exists a1].
Qed.

Lemma move_down_take (l : list (option A)) (i num : nat) :
  (i < num)%nat -> (num <= length l)%nat ->
  take (num - 1) (take i l ++ take (num - S i) (drop (S i) l) ++ drop (i + (num - S i)) l)
  = delete i (take num l).
Proof.
  intros Hi Hn. rewrite app_assoc, take_app_le
    by (rewrite length_app, !length_take, length_drop; lia).
  rewrite take_ge by (rewrite length_app, !length_take, length_drop; lia).
  rewrite delete_take_drop, take_take, Nat.min_l by lia.
  f_equal. by rewrite skipn_firstn_comm.
Qed.

(** [array_remove] deletes the element at its index. *)
Lemma array_remove_spec a h F i :
  array_ok a h F ->
  if (0 <=? i) && (i <? arr_num a)
  then exists a', array_remove a i = Ret a' /\ array_ok a' h F /\ arr_max a' = arr_max a /\
         contents a' = delete (Z.to_nat i) (contents a)
  else array_remove a i = Stop Panic.
Proof.
  intros Hok. pose proof Hok as ((? & ? & Hl) & Hh & HF & Hd). unfold array_remove.
  replace (arr_num a <=? arr_max a) with true by lia. simpl.
  destruct ((0 <=? i) && (i <? arr_num a)) eqn:E; [simpl | done].
  rewrite u32_small by (unfold PTR_SIZE, MAXGUYS in *; lia).
  unfold PTR_SIZE. rewrite Z.div_mul by lia. unfold move_cells.
  match goal with |- context [if ?b then _ else _] => replace b with true by lia end. simpl.
  unfold cells in Hl. destruct (arr_v a) as [b|] eqn:Ev; [|simpl in Hl; lia].
  assert (cells a = blk_cells b) as Ec by (unfold cells; by rewrite Ev).
  assert (Z.to_nat (i + 1) = S (Z.to_nat i)) as E1 by lia.
  assert (Z.to_nat (arr_num a - (i + 1)) = Z.to_nat (arr_num a) - S (Z.to_nat i))%nat as E2 by lia.
  assert (Z.to_nat (i + (arr_num a - (i + 1)))
          = Z.to_nat i + (Z.to_nat (arr_num a) - S (Z.to_nat i)))%nat as E3 by lia.
  rewrite Ec, E1, E2, E3. eexists. split; [done|].
  unfold array_ok, array_wf, contents, footprint, cells in *; simpl. rewrite Ev in *.
  rewrite !length_app, !length_take, !length_drop. split; [split_and!; done || lia|]. split; [done|].
  replace (Z.to_nat (arr_num a - 1)) with (Z.to_nat (arr_num a) - 1)%nat by lia.
  apply move_down_take; lia.
Qed.

Lemma array_create_spec h F :
  heap_ok h F ->
  wpo oom_panics array_create h (fun o h' =>
    match o with
    | Some a => array_ok a h' F /\ contents a = []
    | None => heap_ok h' F
    end).
Proof.
  intros Hh. unfold array_create. wp_step.
  eapply wp_mono; [apply kmalloc_law; [done | unfold SIZEOF_ARRAY, MAXALLOC; lia]|].
  intros p h1 [[-> ?]|(Hp & Hf & ?)]; [done|].
  destruct (Z.eqb_spec p 0); [done|]. apply wp_ret.
  unfold array_ok, array_wf, contents, footprint, cells, MAXGUYS; simpl.
  rewrite union_empty_r_L. split_and!; done || lia || set_solver.
Qed.

(** [array_destroy] gives all the memory of the array back. *)
Lemma array_destroy_spec a h F :
  array_ok a h F -> wpo oom_panics (array_destroy a) h (fun _ h' => heap_ok h' F).
Proof.
  intros (_ & Hh & HF & Hd). unfold array_destroy, footprint in *.
  wp_step. destruct (arr_v a) as [b|].
  - eapply wp_mono.
    + apply (kfree_law _ _ ({[arr_addr a]} ∪ F)); [|set_solver].
      eapply (eq_ind _ (heap_ok h)); [exact Hh | gset_eq].
    + intros [] h' Hh'. apply kfree_law; [done | set_solver].
  - apply wp_ret, kfree_law; [|set_solver]. by rewrite union_empty_r_L in Hh.
Qed.

(** ** Refinement of a list

    The operations of the interface, and what each does to the list of the
    elements.  The answer is a pointer, a number or an error code. *)

Inductive array_op :=
| OpAdd (x : A)
| OpRemove (i : Z)
| OpSet (i : Z) (x : A)
| OpGet (i : Z)
| OpNum
| OpPreallocate (n : Z)
| OpSetsize (n : Z).

Inductive array_ans :=
| AnsPtr (p : option A)
| AnsInt (n : Z).

Definition array_run a (op : array_op) : M H (array_ans * array A) :=
  match op with
  | OpAdd x => let* (r, a') := array_add a x in ret (AnsInt r, a')
  | OpRemove i => let* a' := lift (array_remove a i) in ret (AnsInt 0, a')
  | OpSet i x => let* a' := lift (array_setguy a i x) in ret (AnsInt 0, a')
  | OpGet i => let* p := lift (array_getguy a i) in ret (AnsPtr p, a)
  | OpNum => ret (AnsInt (array_getnum a), a)
  | OpPreallocate n => let* (r, a') := array_preallocate a n in ret (AnsInt r, a')
  | OpSetsize n => let* (r, a') := array_setsize a n in ret (AnsInt r, a')
  end.

(** The calls the interface allows: indices in range and sizes in bounds. *)
Definition op_allowed (l : list (option A)) (op : array_op) : Prop :=
  match op with
  | OpAdd _ => Z.of_nat (length l) < MAXGUYS
  | OpRemove i | OpSet i _ | OpGet i => 0 <= i < Z.of_nat (length l)
  | OpNum => True
  | OpPreallocate n => 0 < n <= MAXGUYS
  | OpSetsize n => 0 <= n <= MAXGUYS
  end.

(** The abstract effect.  Running out of memory leaves the list alone;
    elements added by [array_setsize] are arbitrary. *)
Inductive op_spec (l : list (option A)) : array_op -> array_ans -> list (option A) -> Prop :=
| spec_add x : op_spec l (OpAdd x) (AnsInt 0) (l ++ [Some x])
| spec_add_nomem x : op_spec l (OpAdd x) (AnsInt ENOMEM) l
| spec_remove i : op_spec l (OpRemove i) (AnsInt 0) (delete (Z.to_nat i) l)
| spec_set i x : op_spec l (OpSet i x) (AnsInt 0) (<[Z.to_nat i := Some x]> l)
| spec_get i p : l !! Z.to_nat i = Some p -> op_spec l (OpGet i) (AnsPtr p) l
| spec_num : op_spec l OpNum (AnsInt (Z.of_nat (length l))) l
| spec_prealloc n : op_spec l (OpPreallocate n) (AnsInt 0) l
| spec_prealloc_nomem n : op_spec l (OpPreallocate n) (AnsInt ENOMEM) l
| spec_setsize n l' :
    Z.of_nat (length l') = n ->
    (forall k : nat, (k < Nat.min (length l') (length l))%nat -> l' !! k = l !! k) ->
    op_spec l (OpSetsize n) (AnsInt 0) l'
| spec_setsize_nomem n :
    Z.of_nat (length l) < n -> op_spec l (OpSetsize n) (AnsInt ENOMEM) l.

(** C30: every allowed operation on a well-formed array returns, leaves a
    well-formed array, gives back and takes memory consistently with the heap
    (the live addresses stay those of the array and [F]: nothing leaks, nothing
    is freed twice), and refines the abstract effect on the list of elements. *)
Theorem array_refines_list a h F op :
  array_ok a h F -> op_allowed (contents a) op ->
  wpo oom_panics (array_run a op) h (fun '(ans, a') h' =>
    array_ok a' h' F /\ op_spec (contents a) op ans (contents a')).
Proof.
  intros Hok Hal. pose proof Hok as (Hwf & _). pose proof (contents_length a Hwf) as L.
  destruct op as [x|i|i x|i| |n|n]; simpl in Hal; rewrite ?L in Hal; unfold array_run.
  - wp_step. eapply wp_mono; [by apply array_add_wp|].
    intros [r a'] h' [Hok' [(-> & Hc & _)|(-> & _ & -> & _)]]; wp_step; split; [done| |done|constructor].
    rewrite Hc. constructor.
  - pose proof (array_remove_spec a h F i Hok) as Hr.
    replace ((0 <=? i) && (i <? arr_num a)) with true in Hr by lia.
    destruct Hr as (a' & -> & Hok' & _ & Hc). wp_step. wp_step. simpl. split; [done|].
    rewrite Hc. constructor.
  - pose proof (array_setguy_spec a h F i x Hok) as Hr.
    replace ((0 <=? i) && (i <? arr_num a)) with true in Hr by lia.
    destruct Hr as (a' & -> & Hok' & Hc). wp_step. wp_step. simpl. split; [done|].
    rewrite Hc. constructor.
  - destruct (lookup_lt_is_Some_2 (contents a) (Z.to_nat i)) as [p Hp]; [lia|].
    rewrite (array_getguy_spec a i Hwf). replace (i <? 0) with false by lia. rewrite Hp.
    wp_step. wp_step. simpl. split; [done|]. by constructor.
  - wp_step. split; [done|]. unfold array_getnum. rewrite <- L. constructor.
  - wp_step. eapply wp_mono; [by apply array_preallocate_wp|].
    intros [r a'] h' [(-> & _ & -> & ?)|(-> & ? & Hc & _)]; wp_step; split; try done; [constructor|].
    rewrite Hc. constructor.
  - wp_step. eapply wp_mono; [by apply array_setsize_wp|].
    intros [r a'] h' [(-> & _ & -> & Hm & ?)|(-> & Hok' & Hn & _ & Hk)]; wp_step; split; try done.
    + constructor. destruct Hwf. lia.
    + pose proof (contents_length a' (proj1 Hok')) as L'. constructor; [lia|].
      intros k ?. apply Hk. lia.
Qed.

End Array.

(** ** Instances: the first arrays of a booting kernel *)

Definition boot_array : array Z := mkArray 0x80010000 0 0 None.
Definition boot_array_heap : kheap ram := kheap_zero (mkRam 0x11000 0x80000 0x7fffffff).

Lemma boot_array_ok : array_ok boot_array boot_array_heap ∅.
Proof.
  pose proof (array_create_spec (A := Z) boot_heap ∅ boot_heap_ok) as H.
  unfold wpx in H.
  change (array_create boot_heap) with (@Ret _ (Some boot_array, boot_array_heap)) in H.
  apply H.
Qed.

(** The same array once it holds [7]. *)
Definition boot_array1 : array Z :=
  mkArray 0x80010000 1 2 (Some (mkBlock 0x80011000 [Some 7; None])).
Definition boot_array1_heap : kheap ram := kheap_zero (mkRam 0x12000 0x80000 0x7fffffff).

Lemma boot_array1_added :
  array_add boot_array 7 boot_array_heap = Ret ((0, boot_array1), boot_array1_heap).
Proof. reflexivity. Qed.

Lemma boot_array1_ok : array_ok boot_array1 boot_array1_heap ∅.
Proof.
  pose proof (array_add_wp boot_array 7 boot_array_heap ∅ boot_array_ok eq_refl) as H.
  unfold wpx in H. rewrite boot_array1_added in H. apply H.
Qed.

Lemma array_refines_list_witness :
  array_ok boot_array boot_array_heap ∅ /\ op_allowed (contents boot_array) (OpAdd 7) /\
  op_spec (contents boot_array) (OpAdd 7) (AnsInt 0) (contents boot_array1).
Proof.
  assert (op_allowed (contents boot_array) (OpAdd 7)) as Hal by reflexivity.
  split; [exact boot_array_ok|]. split; [exact Hal|].
  pose proof (array_refines_list boot_array boot_array_heap ∅ (OpAdd 7) boot_array_ok Hal) as H.
  unfold wpx, array_run, bind in H. rewrite boot_array1_added in H. apply H.
Defined.

Lemma array_add_preallocated_witness :
  array_ok boot_array1 boot_array1_heap ∅ /\ arr_num boot_array1 < arr_max boot_array1 /\
  exists a', array_add boot_array1 8 boot_array1_heap = Ret ((0, a'), boot_array1_heap) /\
    contents a' = [Some 7; Some 8].
Proof.
  split; [exact boot_array1_ok|]. split; [reflexivity|].
  destruct (array_add_preallocated boot_array1 8 boot_array1_heap ∅ boot_array1_ok eq_refl eq_refl)
    as (a' & E & _ & _ & Hc).
  exists a'. split; [exact E | exact Hc].
Defined.
