(* ===== verification/Queue.v ===== *)
(** * Ring-buffer queues ([kern/lib/queue.c])

    [struct queue] is the record [queue]; [queue_ok q l h F] relates it to the
    list [l] of the pointers it holds, oldest first.  [q_grow] refills the
    larger buffer by calling [q_addtail], which itself calls [q_grow] when the
    ring is full; the recursion is bounded by [fuel] and two levels are shown
    to be enough, because a ring that has just been enlarged is never full. *)

From S2P Require Import Prelude.
From S2P Require Import Ram.
From S2P Require Import Kheap.
From S2P Require Import KheapProof.
From S2P Require Import Dumbvm.
From S2P Require Import Array.

Record queue (A : Type) := mkQueue {
  q_addr : Z;                   (* where the structure itself was allocated *)
  q_size : Z;
  q_nextwrite : Z;
  q_nextread : Z;
  q_data : block A;
}.
Arguments mkQueue {A} _ _ _ _ _.
Arguments q_addr {A} _.
Arguments q_size {A} _.
Arguments q_nextwrite {A} _.
Arguments q_nextread {A} _.
Arguments q_data {A} _.

Definition SIZEOF_QUEUE : Z := 16.

(** [while (nsize < targetsize) { nsize *= 2; assert(nsize > 0); }] *)
Fixpoint q_newsize (fuel : nat) (nsize targetsize : Z) : res Z :=
  match fuel with
  | O => Stop OutOfFuel
  | S f =>
      if nsize <? targetsize then
        let nsize' := s32 (nsize * 2) in
        let? _ := rassert (nsize' >? 0) in
        q_newsize f nsize' targetsize
      else Ret nsize
  end.

Definition NEWSIZE_FUEL : nat := 34.

Section Queue.
Context {H : Type} `{!Allocator H} {A : Type}.
Implicit Types (q : queue A) (h : H).

Definition q_create (size : Z) : M H (option (queue A)) :=
  let* qp := kmalloc SIZEOF_QUEUE in
  if qp =? 0 then ret None
  else
    let bytes := u32 (size * PTR_SIZE) in
    let* data := kmalloc bytes in
    if data =? 0 then
      let* _ := kfree qp in
      ret None
    else
      ret (Some (mkQueue qp size 0 0
                   (mkBlock data (replicate (Z.to_nat (bytes / PTR_SIZE)) None)))).

Definition q_empty q : bool := q_nextwrite q =? q_nextread q.

(** [q->data[ix]], which must hold a pointer somebody stored. *)
Definition q_read (data : block A) (ix : Z) : res A :=
  let? c := rd (blk_cells data) ix in
  match c with
  | Some x => Ret x
  | None => Stop Fault
  end.

Definition q_store q (ptr : A) (nextnext : Z) : res (queue A) :=
  let? cs := wr (blk_cells (q_data q)) (q_nextwrite q) (Some ptr) in
  Ret (mkQueue (q_addr q) (q_size q) nextnext (q_nextread q)
         (mkBlock (blk_addr (q_data q)) cs)).

Section Grow.
Variable addtail : queue A -> A -> M H (Z * queue A).

(** [for (i=onr; i!=onw; i = (i+1)%osize) ...] *)
Fixpoint q_refill (fuel : nat) (olddata : block A) (osize onw i : Z) q : M H (queue A) :=
  if i =? onw then ret q
  else
    match fuel with
    | O => halt OutOfFuel
    | S f =>
        let* x := lift (q_read olddata i) in
        let* (result, q') := addtail q x in
        let* _ := kassert (result =? 0) in
        q_refill f olddata osize onw (Z.rem (s32 (i + 1)) osize) q'
    end.

Definition q_grow_with q (targetsize : Z) : M H (Z * queue A) :=
  let* nsize := lift (q_newsize NEWSIZE_FUEL (q_size q) targetsize) in
  let bytes := u32 (nsize * PTR_SIZE) in
  let* ndata := kmalloc bytes in
  if ndata =? 0 then ret (ENOMEM, q)
  else
    let* q' := q_refill (Z.to_nat (q_size q)) (q_data q) (q_size q)
                 (q_nextwrite q) (q_nextread q)
                 (mkQueue (q_addr q) nsize 0 0
                    (mkBlock ndata (replicate (Z.to_nat (bytes / PTR_SIZE)) None))) in
    let* _ := kfree (blk_addr (q_data q)) in
    ret (0, q').
End Grow.

Fixpoint q_addtail_fuel (fuel : nat) q (ptr : A) : M H (Z * queue A) :=
  match fuel with
  | O => halt OutOfFuel
  | S f =>
      let* _ := kassert (q_size q >? 0) in
      let nextnext := Z.rem (s32 (q_nextwrite q + 1)) (q_size q) in
      if nextnext =? q_nextread q then
        let* (result, q1) := q_grow_with (q_addtail_fuel f) q (s32 (q_size q + 1)) in
        if negb (result =? 0) then ret (result, q1)
        else
          let nextnext1 := Z.rem (s32 (q_nextwrite q1 + 1)) (q_size q1) in
          let* q2 := lift (q_store q1 ptr nextnext1) in
          ret (0, q2)
      else
        let* q2 := lift (q_store q ptr nextnext) in
        ret (0, q2)
  end.

(** The functions of the file, at a depth that is enough. *)
Definition q_addtail : queue A -> A -> M H (Z * queue A) := q_addtail_fuel 2.
Definition q_grow : queue A -> Z -> M H (Z * queue A) := q_grow_with (q_addtail_fuel 1).

Definition q_preallocate q (size : Z) : M H (Z * queue A) :=
  let* _ := kassert (q_size q >? 0) in
  if size >? q_size q then q_grow q size
  else ret (0, q).

Definition q_remhead q : res (A * queue A) :=
  let? _ := rassert (q_size q >? 0) in
  let? _ := rassert (negb (q_empty q)) in
  let? x := q_read (q_data q) (q_nextread q) in
  Ret (x, mkQueue (q_addr q) (q_size q) (q_nextwrite q)
            (Z.rem (s32 (q_nextread q + 1)) (q_size q)) (q_data q)).

Definition q_destroy q : M H unit :=
  let* _ := kassert (q_empty q) in
  let* _ := kfree (blk_addr (q_data q)) in
  kfree (q_addr q).

Definition q_getstart q : Z := q_nextread q.
Definition q_getend q : Z := q_nextwrite q.
Definition q_getsize q : Z := q_size q.

Definition q_getguy q (index : Z) : res (option A) :=
  let? _ := rassert ((0 <=? index) && (index <? q_size q)) in
  rd (blk_cells (q_data q)) index.

(** ** The abstract queue *)

(** The size up to which every byte count of the file fits 32 bits. *)
Definition MAXQ : Z := 2 ^ 29.

Definition q_wf q : Prop :=
  0 < q_size q < MAXQ /\ Z.of_nat (length (blk_cells (q_data q))) = q_size q /\
  0 <= q_nextread q < q_size q.

(** The ring holds the list [l] from [nextread] on, and [nextwrite] is one past
    its end; one slot is always free. *)
Definition q_holds q (l : list A) : Prop :=
  Z.of_nat (length l) < q_size q /\
  q_nextwrite q = (q_nextread q + Z.of_nat (length l)) mod q_size q /\
  forall (k : nat) x, l !! k = Some x ->
    blk_cells (q_data q) !! Z.to_nat ((q_nextread q + Z.of_nat k) mod q_size q)
    = Some (Some x).

(** ** The doubling loop *)

Lemma q_newsize_spec (fuel : nat) nsize target :
  0 < nsize -> 2 ^ 31 <= nsize * 2 ^ Z.of_nat fuel -> nsize < 2 ^ 31 -> target < 2 ^ 31 ->
  match q_newsize (S fuel) nsize target with
  | Ret m => Z.max nsize target <= m /\ (m = nsize \/ m < 2 * target)
  | Stop w => w = Panic /\ 2 ^ 30 < target
  end.
Proof.
  revert nsize. induction fuel as [|f IH]; intros n Hn Hf Hb Ht; cbn [q_newsize].
  - change (2 ^ Z.of_nat 0) with 1 in Hf. lia.
  - destruct (Z.ltb_spec n target); [|lia].
    destruct (decide (n < 2 ^ 30)) as [Hs|Hs].
    + rewrite s32_small by lia. replace (n * 2 >? 0) with true by lia. simpl.
      rewrite Nat2Z.inj_succ, Z.pow_succ_r in Hf by lia.
      specialize (IH (n * 2) ltac:(lia) ltac:(lia) ltac:(lia) Ht).
      cbn [q_newsize] in IH. destruct (if n * 2 <? target then _ else _); [lia | exact IH].
    + assert (s32 (n * 2) = n * 2 - 2 ^ 32) as ->.
      { unfold s32. rewrite <- (Z.mod_unique (n * 2 + 2 ^ 31) (2 ^ 32) 1 (n * 2 - 2 ^ 31)); lia. }
      replace (n * 2 - 2 ^ 32 >? 0) with false by lia. simpl. split; [done | lia].
Qed.

(** The fuel is enough for a positive size: the loop ends for every target. *)
Lemma q_newsize_total nsize target :
  0 < nsize < 2 ^ 31 -> target <= 2 ^ 30 ->
  exists m, q_newsize NEWSIZE_FUEL nsize target = Ret m /\
    Z.max nsize target <= m /\ (m = nsize \/ m < 2 * target).
Proof.
  intros Hn Ht. pose proof (q_newsize_spec 33 nsize target) as Hs.
  change (S 33) with NEWSIZE_FUEL in Hs.
  destruct (q_newsize NEWSIZE_FUEL nsize target); [eexists; split; [done|]; apply Hs; lia|].
  destruct Hs; lia.
Qed.

(** ** One store into a ring that is not full *)

Lemma ring_next (r n k : Z) :
  0 < n -> 0 <= k -> 0 <= r < n ->
  Z.rem ((r + k) mod n + 1) n = (r + (k + 1)) mod n.
Proof.
  intros Hn Hk Hr. pose proof (Z.mod_pos_bound (r + k) n).
  rewrite Z.rem_mod_nonneg by lia. rewrite Z.add_assoc.
  by rewrite Zplus_mod_idemp_l.
Qed.

Lemma ring_inj (r n j k : Z) :
  0 < n -> 0 <= j < n -> 0 <= k < n -> (r + j) mod n = (r + k) mod n -> j = k.
Proof.
  intros Hn Hj Hk E. rewrite <- (Z.mod_small j n), <- (Z.mod_small k n) by lia.
  replace j with ((r + j) - r) by lia. replace k with ((r + k) - r) by lia.
  by rewrite Zminus_mod, E, <- Zminus_mod.
Qed.

Lemma q_store_spec q l x :
  q_wf q -> q_holds q l -> Z.of_nat (length l) + 1 < q_size q ->
  exists q', q_store q x (Z.rem (s32 (q_nextwrite q + 1)) (q_size q)) = Ret q' /\
    q_wf q' /\ q_holds q' (l ++ [x]) /\ q_size q' = q_size q /\ q_addr q' = q_addr q /\
    blk_addr (q_data q') = blk_addr (q_data q).
Proof.
  intros (Hs & Hd & Hr) (Hl & Hw & Hk) Hfull. unfold MAXQ in Hs.
  pose proof (Z.mod_pos_bound (q_nextread q + Z.of_nat (length l)) (q_size q)).
  unfold q_store. rewrite s32_small by lia. rewrite wr_in by lia. simpl.
  eexists. split; [done|]. rewrite Hw, ring_next by lia.
  unfold q_wf, q_holds, MAXQ; simpl. rewrite length_insert, length_app; simpl.
  replace (Z.of_nat (length l + 1)) with (Z.of_nat (length l) + 1) by lia.
  split_and!; try done; try lia.
  intros k y Hy. destruct (decide (k = length l)) as [->|Hne].
  - rewrite list_lookup_middle in Hy by done. simplify_eq.
    apply list_lookup_insert_eq. lia.
  - apply lookup_snoc_Some in Hy as [[? Hy]|[]]; [|lia].
    rewrite list_lookup_insert_ne; [by apply Hk|]. intros E.
    apply Z2Nat.inj in E; [|lia|apply Z.mod_pos_bound; lia].
    apply ring_inj in E; lia.
Qed.

(** A ring with two free slots or more takes a pointer without allocating. *)
Lemma q_addtail_room (f : nat) q l x h :
  q_wf q -> q_holds q l -> Z.of_nat (length l) + 1 < q_size q ->
  exists q', q_addtail_fuel (S f) q x h = Ret ((0, q'), h) /\
    q_wf q' /\ q_holds q' (l ++ [x]) /\ q_size q' = q_size q /\ q_addr q' = q_addr q /\
    blk_addr (q_data q') = blk_addr (q_data q).
Proof.
  intros Hwf Hq Hroom. destruct (q_store_spec q l x) as (q' & E & Hq'); [done..|].
  exists q'. split; [|done]. destruct Hwf as (Hs & Hd & Hr), Hq as (Hl & Hw & _).
  pose proof (Z.mod_pos_bound (q_nextread q + Z.of_nat (length l)) (q_size q)).
  cbn [q_addtail_fuel]. unfold kassert, bind.
  replace (q_size q >? 0) with true by lia. cbn [rassert lift].
  rewrite E. destruct (Z.eqb_spec (Z.rem (s32 (q_nextwrite q + 1)) (q_size q)) (q_nextread q))
    as [E2|]; [|done].
  exfalso. rewrite s32_small, Hw, ring_next in E2 by (unfold MAXQ in *; lia).
  rewrite <- (Z.mod_small (q_nextread q) (q_size q)) in E2 at 2 by lia.
  rewrite <- (Z.add_0_r (q_nextread q)) in E2 at 2. apply ring_inj in E2; lia.
Qed.

Lemma q_refill_spec (f fuel k : nat) q l qn h :
  q_wf q -> q_holds q l -> (k <= length l)%nat -> (length l - k <= fuel)%nat ->
  q_wf qn -> q_holds qn (take k l) -> Z.of_nat (length l) < q_size qn ->
  exists qn',
    q_refill (q_addtail_fuel (S f)) fuel (q_data q) (q_size q) (q_nextwrite q)
      ((q_nextread q + Z.of_nat k) mod q_size q) qn h = Ret (qn', h) /\
    q_wf qn' /\ q_holds qn' l /\ q_size qn' = q_size qn /\ q_addr qn' = q_addr qn /\
    blk_addr (q_data qn') = blk_addr (q_data qn).
Proof.
  intros Hwf Hq. pose proof Hwf as (Hs & Hd & Hr). pose proof Hq as (Hl & Hw & Hget).
  revert k qn. induction fuel as [|fuel IH]; intros k qn Hk Hf Hwn Hqn Hn.
  - assert (k = length l) as -> by lia. cbn [q_refill]. rewrite Hw, Z.eqb_refl.
    rewrite take_ge in Hqn by lia. by exists qn.
  - destruct (decide (k = length l)) as [->|Hne].
    { cbn [q_refill]. rewrite Hw, Z.eqb_refl. rewrite take_ge in Hqn by lia. by exists qn. }
    destruct (lookup_lt_is_Some_2 l k) as [x Hx]; [lia|].
    destruct (q_addtail_room f qn (take k l) x h) as (qn1 & E & Hw1 & Hh1 & Hs1 & Ha1 & Hb1);
      [done..|rewrite length_take; lia|].
    rewrite <- (take_S_r _ _ _ Hx) in Hh1.
    destruct (IH (S k) qn1) as (qn' & E' & Hrest); [lia..|done|done|lia|].
    exists qn'. cbn [q_refill].
    destruct (Z.eqb_spec ((q_nextread q + Z.of_nat k) mod q_size q) (q_nextwrite q)) as [Ee|_].
    { exfalso. rewrite Hw in Ee. apply ring_inj in Ee; lia. }
    pose proof (Z.mod_pos_bound (q_nextread q + Z.of_nat k) (q_size q)).
    unfold q_read. rewrite (rd_lookup _ _ (Some x)) by (lia || by apply Hget).
    unfold bind at 1; cbn [rbind lift]. unfold bind at 1. rewrite E.
    unfold bind, kassert; cbn [rassert Z.eqb lift].
    rewrite s32_small, ring_next by (unfold MAXQ in *; lia).
    replace (Z.of_nat k + 1) with (Z.of_nat (S k)) by lia. rewrite E'.
    split; [done|]. by rewrite <- Hs1, <- Ha1, <- Hb1.
Qed.

(** ** Against the allocator's laws *)

Context `{!AllocatorLaws H}.

Definition q_footprint q : gset Z := {[ q_addr q; blk_addr (q_data q) ]}.

(** A queue that holds [l], and owns its memory; [F] is what others own. *)
Definition queue_ok q (l : list A) h (F : gset Z) : Prop :=
  q_wf q /\ q_holds q l /\ heap_ok h (q_footprint q ∪ F) /\ q_footprint q ## F /\
  q_addr q <> blk_addr (q_data q).

Lemma q_grow_wp (f : nat) q l target h F :
  queue_ok q l h F -> target <= 2 ^ 28 ->
  wpo oom_panics (q_grow_with (q_addtail_fuel (S f)) q target) h (fun '(r, q') h' =>
    queue_ok q' l h' F /\
    ((r = ENOMEM /\ alloc_fails /\ q' = q) \/
     (r = 0 /\ target <= q_size q' /\
      q_size q <= q_size q' <= Z.max (q_size q) (2 * target)))).
Proof.
  intros (Hwf & Hq & Hh & HF & Hne) Ht. pose proof Hwf as (Hs & Hd & Hr).
  pose proof Hq as (Hl & Hw & Hget). unfold MAXQ in Hs.
  destruct (q_newsize_total (q_size q) target) as (m & Em & Hm & Hmt); [lia..|].
  unfold q_grow_with. wp_step. apply (wp_lift_Ret _ m); [done|].
  rewrite u32_small by (unfold PTR_SIZE; lia). wp_step.
  eapply wp_mono; [apply kmalloc_wp; [done | unfold PTR_SIZE, MAXALLOC; lia]|].
  intros p h1 [(-> & ? & Hh1)|(Hp & Hf & Hh1)].
  - split; [|by left]. done.
  - destruct (Z.eqb_spec p 0); [done|]. wp_step.
    unfold PTR_SIZE. rewrite Z.div_mul by lia.
    set (qn := mkQueue (q_addr q) m 0 0 (mkBlock p (replicate (Z.to_nat m) (None (A := A))))).
    destruct (q_refill_spec f (Z.to_nat (q_size q)) 0 q l qn h1)
      as (q' & E & Hwf' & Hq' & Hs' & Ha' & Hb'); [done|done|lia|lia| | |simpl; lia|].
    { unfold q_wf, MAXQ; simpl. rewrite length_replicate. lia. }
    { unfold q_holds; simpl. rewrite Z.mod_small by lia. split_and!; [lia|done|].
      intros k x Hx. by destruct k. }
    rewrite Z.add_0_r, Z.mod_small in E by lia.
    eapply wp_Ret; [exact E|]. wp_step. unfold q_footprint in *.
    eapply wp_mono.
    + apply (kfree_law _ _ ({[p]} ∪ {[q_addr q]} ∪ F)); [|clear - Hf HF Hne; set_solver].
      eapply (eq_ind _ (heap_ok h1)); [exact Hh1 | clear; gset_eq].
    + intros [] h2 Hh2. apply wp_ret. unfold queue_ok, q_footprint.
      rewrite Ha', Hb'. simpl. split; [|right; simpl in Hs'; lia].
      split_and!; [done|done| |clear - Hf HF Hne; set_solver..].
      eapply (eq_ind _ (heap_ok h2)); [exact Hh2 | clear; gset_eq].
Qed.

(** [q_addtail] appends, or answers [ENOMEM] and changes nothing.  The
    recursion of [q_grow] through it never goes deeper than one level. *)
Lemma q_addtail_wp q l x h F :
  queue_ok q l h F -> q_size q < 2 ^ 28 ->
  wpo oom_panics (q_addtail q x) h (fun '(r, q') h' =>
    (r = 0 /\ queue_ok q' (l ++ [x]) h' F /\
     q_size q <= q_size q' <= Z.max (q_size q) (2 * (Z.of_nat (length l) + 2))) \/
    (r = ENOMEM /\ alloc_fails /\ q' = q /\ queue_ok q l h' F /\
     Z.of_nat (length l) + 1 = q_size q)).
Proof.
  intros Hok Hb. pose proof Hok as (Hwf & Hq & Hh & HF & Hne).
  pose proof Hwf as (Hs & Hd & Hr). pose proof Hq as (Hl & Hw & Hget).
  destruct (decide (Z.of_nat (length l) + 1 < q_size q)) as [Hroom|Hfull].
  - destruct (q_addtail_room 1 q l x h) as (q' & E & ? & ? & ? & Ha & Hb'); [done..|].
    eapply wp_Ret; [exact E|]. left. split; [done|].
    split; [|lia]. unfold queue_ok, q_footprint in *. rewrite Ha, Hb'. done.
  - unfold q_addtail. remember 1%nat as g eqn:Eg. cbn [q_addtail_fuel]. subst g.
    wp_step. wp_step.
    assert (Z.rem (s32 (q_nextwrite q + 1)) (q_size q) = q_nextread q) as Enn.
    { pose proof (Z.mod_pos_bound (q_nextread q + Z.of_nat (length l)) (q_size q)).
      rewrite s32_small, Hw, ring_next by lia.
      replace (q_nextread q + (Z.of_nat (length l) + 1)) with (q_nextread q + 1 * q_size q) by lia.
      rewrite Z.mod_add, Z.mod_small by lia. done. }
    rewrite Enn, Z.eqb_refl. rewrite s32_small by lia. wp_step.
    eapply wp_mono; [apply q_grow_wp; [done | lia]|].
    intros [r q1] h1 [Hok1 [(-> & ? & ->)|(-> & Ht & Hge)]].
    + right. split_and!; done || lia.
    + simpl. wp_step. destruct Hok1 as (Hwf1 & Hq1 & Hh1 & HF1 & Hne1).
      destruct (q_store_spec q1 l x) as (q2 & E2 & ? & ? & ? & Ha & Hb2); [done|done|lia|].
      rewrite E2. simpl. left. split; [done|]. split; [|lia].
      unfold queue_ok, q_footprint in *. rewrite Ha, Hb2. done.
Qed.

(** [q_remhead] takes the oldest pointer; on an empty queue it panics. *)
Lemma q_remhead_spec q l h F :
  queue_ok q l h F ->
  match l with
  | [] => q_remhead q = Stop Panic
  | x :: l' => exists q', q_remhead q = Ret (x, q') /\ queue_ok q' l' h F
  end.
Proof.
  intros (Hwf & Hq & Hh & HF & Hne). pose proof Hwf as (Hs & Hd & Hr). unfold MAXQ in Hs.
  destruct Hq as (Hl & Hw & Hget). unfold q_remhead, q_empty.
  replace (q_size q >? 0) with true by lia. cbn [rassert rbind].
  destruct l as [|x l'].
  - simpl in Hw. rewrite Z.add_0_r, Z.mod_small in Hw by lia. by rewrite Hw, Z.eqb_refl.
  - destruct (Z.eqb_spec (q_nextwrite q) (q_nextread q)) as [E|_].
    { exfalso. rewrite Hw in E.
      assert ((q_nextread q + Z.of_nat (length (x :: l'))) mod q_size q
              = (q_nextread q + 0) mod q_size q) as E'
        by (rewrite E, Z.add_0_r, Z.mod_small; lia).
      apply ring_inj in E'; simpl in *; lia. }
    cbn [negb rassert rbind]. unfold q_read.
    pose proof (Hget 0%nat x eq_refl) as H0. rewrite Z.add_0_r, Z.mod_small in H0 by lia.
    rewrite (rd_lookup _ _ (Some x)) by (done || lia). cbn [rbind].
    rewrite s32_small by lia. eexists. split; [done|].
    pose proof (ring_next (q_nextread q) (q_size q) 0) as Hn.
    rewrite !Z.add_0_r, Z.add_0_l, Z.mod_small in Hn by lia.
    pose proof (Z.mod_pos_bound (q_nextread q + 1) (q_size q)).
    unfold queue_ok, q_wf, q_holds, MAXQ; simpl. rewrite Hn by lia. simpl in *.
    split_and!; try done; try lia.
    + rewrite Hw, Zplus_mod_idemp_l. f_equal. lia.
    + intros k y Hy. rewrite <- (Hget (S k) y) by done.
      rewrite Zplus_mod_idemp_l. do 3 f_equal. lia.
Qed.

Lemma q_preallocate_wp q l size h F :
  queue_ok q l h F -> size <= 2 ^ 28 ->
  wpo oom_panics (q_preallocate q size) h (fun '(r, q') h' =>
    queue_ok q' l h' F /\ ((r = ENOMEM /\ alloc_fails /\ q' = q) \/
     (r = 0 /\ size <= q_size q' /\
      q_size q <= q_size q' <= Z.max (q_size q) (2 * size)))).
Proof.
  intros Hok Hb. pose proof Hok as ((? & _) & _).
  unfold q_preallocate. wp_step. wp_step.
  destruct (Z.gtb_spec size (q_size q)).
  - eapply wp_mono; [by apply q_grow_wp|].
    intros [r q'] h' [? [?|(? & ? & ?)]]; split; auto with lia.
  - apply wp_ret. split; [done|]. right. split_and!; done || lia.
Qed.

(** Adding a list of pointers one after the other. *)
Fixpoint q_addall q (xs : list A) : M H (Z * queue A) :=
  match xs with
  | [] => ret (0, q)
  | x :: xs' =>
      let* (r, q') := q_addtail q x in
      if negb (r =? 0) then ret (r, q') else q_addall q' xs'
  end.

Lemma q_addall_room q l xs h F :
  queue_ok q l h F -> Z.of_nat (length (l ++ xs)) < q_size q ->
  exists q', q_addall q xs h = Ret ((0, q'), h) /\ queue_ok q' (l ++ xs) h F.
Proof.
  revert q l. induction xs as [|x xs IH]; intros q l Hok Hlen.
  - exists q. by rewrite app_nil_r.
  - pose proof Hok as (Hwf & Hq & Hh & HF & Hne).
    rewrite length_app in Hlen; simpl in Hlen.
    destruct (q_addtail_room 1 q l x h) as (q1 & E & ? & ? & Hs & Ha & Hb); [done|done|lia|].
    destruct (IH q1 (l ++ [x])) as (q' & E' & Hok').
    + unfold queue_ok, q_footprint in *. by rewrite Ha, Hb.
    + rewrite !length_app, Hs; simpl. lia.
    + exists q'. cbn [q_addall]. unfold bind. unfold q_addtail. rewrite E. simpl.
      rewrite E'. split; [done|]. by rewrite <- app_assoc in Hok'.
Qed.

(** What a successful [q_preallocate] of [size] reserves: up to [size - 1]
    pointers in all can then be queued without the heap being touched. *)
Theorem q_preallocate_reserves q l xs size h F :
  queue_ok q l h F -> size <= 2 ^ 28 -> Z.of_nat (length (l ++ xs)) < size ->
  wpo oom_panics (q_preallocate q size) h (fun '(r, q1) h1 =>
    r = 0 ->
    exists q2, q_addall q1 xs h1 = Ret ((0, q2), h1) /\ queue_ok q2 (l ++ xs) h1 F).
Proof.
  intros Hok Hb Hlen. eapply wp_mono; [by apply q_preallocate_wp|].
  intros [r q1] h1 [Hok1 [[-> _]|(-> & Hsz & _)]]; [done|]. intros _.
  apply q_addall_room; [done | lia].
Qed.

Lemma q_create_wp size h F :
  heap_ok h F -> 0 < size < MAXQ ->
  wpo oom_panics (q_create size) h (fun o h' =>
    match o with
    | Some q => queue_ok q [] h' F /\ q_size q = size
    | None => heap_ok h' F
    end).
Proof.
  intros Hh Hs. unfold q_create, MAXQ in *. wp_step.
  eapply wp_mono; [apply kmalloc_law; [done | unfold SIZEOF_QUEUE, MAXALLOC; lia]|].
  intros p h1 [[-> ?]|(Hp & Hf & Hh1)]; [done|].
  destruct (Z.eqb_spec p 0); [done|]. wp_step.
  rewrite u32_small by (unfold PTR_SIZE; lia).
  eapply wp_mono; [apply kmalloc_law; [done | unfold PTR_SIZE, MAXALLOC; lia]|].
  intros d h2 [[-> ?]|(Hd & Hf2 & Hh2)].
  - rewrite Z.eqb_refl. wp_step. eapply wp_mono; [by apply kfree_law|]. intros [] h3 ?. done.
  - destruct (Z.eqb_spec d 0); [done|]. apply wp_ret. split; [|done].
    unfold PTR_SIZE. rewrite Z.div_mul by lia.
    unfold queue_ok, q_wf, q_holds, q_footprint, MAXQ; simpl. rewrite length_replicate.
    rewrite Z.mod_small by lia. split_and!; try lia; try set_solver.
    eapply (eq_ind _ (heap_ok h2)); [exact Hh2 | clear; gset_eq].
Qed.

(** [q_destroy] of an empty queue gives its memory back, and panics otherwise. *)
Lemma q_destroy_wp q l h F :
  queue_ok q l h F ->
  match l with
  | [] => wpo oom_panics (q_destroy q) h (fun _ h' => heap_ok h' F)
  | _ => q_destroy q h = Stop Panic
  end.
Proof.
  intros (Hwf & Hq & Hh & HF & Hne). unfold q_destroy, q_empty.
  destruct Hwf as (Hs & Hd & Hr), Hq as (Hl & Hw & Hget). destruct l as [|x l].
  - simpl in Hw. rewrite Z.add_0_r, Z.mod_small in Hw by lia. wp_step. wp_step. wp_step.
    unfold q_footprint in *. eapply wp_mono.
    + apply (kfree_law _ _ ({[q_addr q]} ∪ F)); [|clear - HF Hne; set_solver].
      eapply (eq_ind _ (heap_ok h)); [exact Hh | clear; gset_eq].
    + intros [] h' Hh'. apply kfree_law; [done | clear - HF; set_solver].
  - destruct (Z.eqb_spec (q_nextwrite q) (q_nextread q)) as [E|]; [|done].
    exfalso. rewrite Hw in E.
    assert ((q_nextread q + Z.of_nat (length (x :: l))) mod q_size q
            = (q_nextread q + 0) mod q_size q) as E'
      by (rewrite E, Z.add_0_r, Z.mod_small; lia).
    apply ring_inj in E'; simpl in *; lia.
Qed.

(** ** Refinement of a first-in first-out list *)

Inductive queue_op :=
| QAddtail (x : A)
| QRemhead
| QPreallocate (n : Z)
| QEmpty.

Inductive queue_ans :=
| QPtr (x : A)
| QInt (n : Z).

Definition queue_run q (op : queue_op) : M H (queue_ans * queue A) :=
  match op with
  | QAddtail x => let* (r, q') := q_addtail q x in ret (QInt r, q')
  | QRemhead => let* (x, q') := lift (q_remhead q) in ret (QPtr x, q')
  | QPreallocate n => let* (r, q') := q_preallocate q n in ret (QInt r, q')
  | QEmpty => ret (QInt (if q_empty q then 1 else 0), q)
  end.

Inductive queue_spec : list A -> queue_op -> queue_ans -> list A -> Prop :=
| qspec_add l x : queue_spec l (QAddtail x) (QInt 0) (l ++ [x])
| qspec_add_nomem l x : queue_spec l (QAddtail x) (QInt ENOMEM) l
| qspec_rem x l : queue_spec (x :: l) QRemhead (QPtr x) l
| qspec_prealloc l n : queue_spec l (QPreallocate n) (QInt 0) l
| qspec_prealloc_nomem l n : queue_spec l (QPreallocate n) (QInt ENOMEM) l
| qspec_empty l : queue_spec l QEmpty (QInt (match l with [] => 1 | _ => 0 end)) l.

Definition queue_allowed q (l : list A) (op : queue_op) : Prop :=
  match op with
  | QAddtail _ => q_size q < 2 ^ 28
  | QRemhead => l <> []
  | QPreallocate n => n <= 2 ^ 28
  | QEmpty => True
  end.

Lemma q_empty_spec q l : q_wf q -> q_holds q l -> q_empty q = match l with [] => true | _ => false end.
Proof.
  intros (Hs & Hd & Hr) (Hl & Hw & _). unfold q_empty. destruct l as [|x l].
  - simpl in Hw. rewrite Z.add_0_r, Z.mod_small in Hw by lia. rewrite Hw. by rewrite Z.eqb_refl.
  - apply Z.eqb_neq. intros E. rewrite Hw in E.
    assert ((q_nextread q + Z.of_nat (length (x :: l))) mod q_size q
            = (q_nextread q + 0) mod q_size q) as E'
      by (rewrite E, Z.add_0_r, Z.mod_small; lia).
    apply ring_inj in E'; simpl in *; lia.
Qed.

(** C31: every allowed operation on a well-formed queue returns, keeps it
    well-formed, leaks no memory, and refines the abstract first-in first-out
    list, growth of the ring included. *)
Theorem queue_refines_fifo q l h F op :
  queue_ok q l h F -> queue_allowed q l op ->
  wpo oom_panics (queue_run q op) h (fun '(ans, q') h' =>
    exists l', queue_ok q' l' h' F /\ queue_spec l op ans l').
Proof.
  intros Hok Hal. destruct op as [x| |n|]; simpl in Hal; unfold queue_run.
  - wp_step. eapply wp_mono; [by apply q_addtail_wp|].
    intros [r q'] h' [(-> & Hok' & _)|(-> & _ & -> & Hok' & _)]; wp_step; eexists; (split; [done|]); constructor.
  - pose proof (q_remhead_spec q l h F Hok) as Hr. destruct l as [|x l]; [done|].
    destruct Hr as (q' & -> & Hok'). wp_step. wp_step. simpl. exists l. split; [done|constructor].
  - wp_step. eapply wp_mono; [by apply q_preallocate_wp|].
    intros [r q'] h' [Hok' [(-> & _ & ->)|[-> _]]]; wp_step; exists l; (split; [done|]); constructor.
  - wp_step. exists l. split; [done|]. destruct Hok as (Hwf & Hh & _).
    rewrite (q_empty_spec q l Hwf Hh). destruct l; constructor.
Qed.

(** A ring of [n] slots holds [n - 1] pointers only.  After a [q_preallocate]
    of [n] that found [n] slots in place, the [n]th pointer needs memory, and
    is refused with [ENOMEM] when there is none. *)
Theorem q_preallocate_one_short q l x h h' F :
  queue_ok q l h F -> q_size q < 2 ^ 28 -> Z.of_nat (length l) + 1 = q_size q ->
  kmalloc (2 * q_size q * PTR_SIZE) h = Ret (0, h') ->
  q_preallocate q (q_size q) h = Ret ((0, q), h) /\
  q_addtail q x h = Ret ((ENOMEM, q), h').
Proof.
  intros ((Hs & Hd & Hr) & (Hl & Hw & _) & _) Hb Hfull Hk. split.
  - unfold q_preallocate, kassert, bind. replace (q_size q >? 0) with true by lia.
    simpl. destruct (Z.gtb_spec (q_size q) (q_size q)); [lia|done].
  - unfold q_addtail. remember 1%nat as g eqn:Eg. cbn [q_addtail_fuel]. subst g.
    assert (Z.rem (s32 (q_nextwrite q + 1)) (q_size q) = q_nextread q) as Enn.
    { pose proof (Z.mod_pos_bound (q_nextread q + Z.of_nat (length l)) (q_size q)).
      rewrite s32_small, Hw, ring_next by lia.
      replace (q_nextread q + (Z.of_nat (length l) + 1)) with (q_nextread q + 1 * q_size q) by lia.
      rewrite Z.mod_add, Z.mod_small by lia. done. }
    assert (q_newsize NEWSIZE_FUEL (q_size q) (q_size q + 1) = Ret (2 * q_size q)) as En.
    { cbn [q_newsize NEWSIZE_FUEL]. replace (q_size q <? q_size q + 1) with true by lia.
      rewrite s32_small by lia. replace (q_size q * 2 >? 0) with true by (symmetry; apply Z.gtb_lt; lia).
      cbn [rassert rbind]. replace (q_size q * 2 <? q_size q + 1) with false by lia.
      f_equal. lia. }
    unfold kassert, bind. replace (q_size q >? 0) with true by lia. cbn [rassert lift].
    rewrite Enn, Z.eqb_refl. rewrite s32_small by lia. unfold q_grow_with.
    unfold bind. rewrite En. cbn [lift]. rewrite u32_small by (unfold PTR_SIZE; lia).
    rewrite Hk. done.
Qed.

End Queue.

(** ** Instances: a queue of two slots created at boot *)

Definition boot_queue : queue Z :=
  mkQueue 0x80010000 2 0 0 (mkBlock 0x80011000 [None; None]).
Definition boot_queue_heap : kheap ram := kheap_zero (mkRam 0x12000 0x80000 0x7fffffff).

Lemma boot_queue_ok : queue_ok boot_queue [] boot_queue_heap ∅.
Proof.
  pose proof (q_create_wp (A := Z) 2 boot_heap ∅ boot_heap_ok) as H.
  unfold wpx in H.
  change (q_create 2 boot_heap) with (@Ret _ (Some boot_queue, boot_queue_heap)) in H.
  apply H. unfold MAXQ. lia.
Qed.

(** The same queue holding [5], which fills it. *)
Definition full_queue : queue Z :=
  mkQueue 0x80010000 2 1 0 (mkBlock 0x80011000 [Some 5; None]).

Lemma full_queue_added : q_addtail boot_queue 5 boot_queue_heap = Ret ((0, full_queue), boot_queue_heap).
Proof. reflexivity. Qed.

Lemma full_queue_ok : queue_ok full_queue [5] boot_queue_heap ∅.
Proof.
  pose proof (q_addtail_wp boot_queue [] 5 boot_queue_heap ∅ boot_queue_ok eq_refl) as H.
  unfold wpx in H. rewrite full_queue_added in H. destruct H as [(_ & H & _)|[H _]]; [exact H|done].
Qed.

Lemma queue_refines_fifo_witness :
  queue_ok full_queue [5] boot_queue_heap ∅ /\ queue_allowed full_queue [5] QRemhead /\
  exists q', queue_run full_queue QRemhead boot_queue_heap = Ret ((QPtr 5, q'), boot_queue_heap) /\
    queue_ok q' [] boot_queue_heap ∅.
Proof.
  split; [exact full_queue_ok|]. split; [discriminate|].
  pose proof (queue_refines_fifo full_queue [5] boot_queue_heap ∅ QRemhead full_queue_ok ltac:(discriminate)) as H.
  unfold wpx in H. eexists. split; [reflexivity|].
  change (queue_run full_queue QRemhead boot_queue_heap) with
    (@Ret _ (QPtr 5, mkQueue 0x80010000 2 1 1 (q_data full_queue), boot_queue_heap)) in H.
  cbv beta iota in H. destruct H as (l' & Hok & Hs). inversion Hs; subst. exact Hok.
Defined.

Lemma q_preallocate_reserves_witness :
  queue_ok boot_queue [] boot_queue_heap ∅ /\
  wpo oom_panics (q_preallocate boot_queue 3) boot_queue_heap (fun '(r, q1) h1 =>
    r = 0 -> exists q2, q_addall q1 [1; 2] h1 = Ret ((0, q2), h1) /\ queue_ok q2 [1; 2] h1 ∅).
Proof.
  split; [exact boot_queue_ok|].
  apply (q_preallocate_reserves boot_queue [] [1; 2] 3 boot_queue_heap ∅ boot_queue_ok); simpl; lia.
Defined.

(** The same, once the virtual memory system has taken the rest of memory. *)
Definition nomem_heap : kheap ram := set_kpages (mkRam 0 0 0) boot_queue_heap.

Lemma full_queue_nomem_ok : queue_ok full_queue [5] nomem_heap ∅.
Proof.
  destruct full_queue_ok as (Hwf & Hh & (B & Hrep & HB) & Hd & Hne).
  split_and!; try done. exists B. split; [by apply getsize_rep|done].
Qed.

Lemma q_preallocate_one_short_witness :
  queue_ok full_queue [5] nomem_heap ∅ /\
  q_preallocate full_queue 2 nomem_heap = Ret ((0, full_queue), nomem_heap) /\
  q_addtail full_queue 6 nomem_heap = Ret ((ENOMEM, full_queue), nomem_heap).
Proof.
  split; [exact full_queue_nomem_ok|].
  apply (q_preallocate_one_short full_queue [5] 6 nomem_heap nomem_heap ∅ full_queue_nomem_ok);
    reflexivity.
Defined.
