(* ===== verification/Bitmap.v ===== *)
(** * Bitmaps ([kern/lib/bitmap.c])

    [struct bitmap] is the record [bitmap]; its bytes are a list.  [bitmap_rep b
    X] relates it to the set [X] of the bit numbers that are marked: every bit
    below [nbits] is set exactly when it is in [X], and the leftover bits of the
    last byte are set, which is why [bitmap_alloc] never hands one out. *)

From S2P Require Import Prelude.
From S2P Require Import Ram.
From S2P Require Import Kheap.
From S2P Require Import KheapProof.
From S2P Require Import Dumbvm.

Definition BITS_PER_WORD : Z := 8.
Definition WORD_ALLBITS : Z := 0xff.
Definition SIZEOF_BITMAP : Z := 8.

(** [DIVROUNDUP(a,b)] of [lib.h], on [u_int32_t]. *)
Definition DIVROUNDUP (a b : Z) : Z := u32 (u32 (a + b) - 1) / b.

Record bitmap := mkBitmap {
  bm_addr : Z;                  (* where the structure itself was allocated *)
  bm_nbits : Z;
  bm_vaddr : Z;                 (* where the bytes were *)
  bm_v : list Z;
}.

Definition set_bytes (b : bitmap) (v : list Z) : bitmap :=
  mkBitmap (bm_addr b) (bm_nbits b) (bm_vaddr b) v.

(** [for (j=overbits; j<BITS_PER_WORD; j++) v[ix] |= 1 << j;] *)
Fixpoint mark_over (fuel : nat) (j : Z) (byte : Z) : Z :=
  match fuel with
  | O => byte
  | S f => if j <? BITS_PER_WORD then mark_over f (j + 1) (u8 (Z.lor byte (u8 (Z.shiftl 1 j))))
           else byte
  end.

Section Create.
Context {H : Type} `{!Allocator H}.

Definition bitmap_create (nbits : Z) : M H (option bitmap) :=
  let words := DIVROUNDUP nbits BITS_PER_WORD in
  let* b := kmalloc SIZEOF_BITMAP in
  if b =? 0 then ret None
  else
    let* v := kmalloc words in
    if v =? 0 then
      let* _ := kfree b in
      ret None
    else
      let bytes := replicate (Z.to_nat words) 0 in       (* bzero *)
      if nbits / BITS_PER_WORD <? words then
        let ix := u32 (words - 1) in
        let overbits := u32 (nbits - u32 (ix * BITS_PER_WORD)) in
        let* _ := kassert (nbits / BITS_PER_WORD =? u32 (words - 1)) in
        let* _ := kassert ((overbits >? 0) && (overbits <? BITS_PER_WORD)) in
        let* byte := lift (rd bytes ix) in
        let* bytes' := lift (wr bytes ix (mark_over 8 overbits byte)) in
        ret (Some (mkBitmap b nbits v bytes'))
      else ret (Some (mkBitmap b nbits v bytes)).

Definition bitmap_destroy (b : bitmap) : M H unit :=
  let* _ := kfree (bm_vaddr b) in
  kfree (bm_addr b).
End Create.

Definition bitmap_getdata (b : bitmap) : list Z := bm_v b.

(** [for (offset = 0; offset < BITS_PER_WORD; offset++)], in one byte. *)
Fixpoint find_bit (fuel : nat) (byte offset : Z) : option Z :=
  match fuel with
  | O => None
  | S f =>
      let mask := u8 (Z.shiftl 1 offset) in
      if Z.land byte mask =? 0 then Some offset else find_bit f byte (offset + 1)
  end.

(** [for (ix=0; ix<maxix; ix++)]; the answer is the error code and the index. *)
Fixpoint bitmap_alloc_loop (fuel : nat) (b : bitmap) (ix maxix : Z) : res (Z * Z * bitmap) :=
  if ix <? maxix then
    match fuel with
    | O => Stop OutOfFuel
    | S f =>
        let? byte := rd (bm_v b) ix in
        if negb (byte =? WORD_ALLBITS) then
          match find_bit 8 byte 0 with
          | Some offset =>
              let mask := u8 (Z.shiftl 1 offset) in
              let? v' := wr (bm_v b) ix (u8 (Z.lor byte mask)) in
              let index := u32 (u32 (ix * BITS_PER_WORD) + offset) in
              let? _ := rassert (index <? bm_nbits b) in
              Ret (0, index, set_bytes b v')
          | None => Stop Panic                   (* assert(0) *)
          end
        else bitmap_alloc_loop f b (ix + 1) maxix
    end
  else Ret (ENOSPC, 0, b).

Definition bitmap_alloc (b : bitmap) : res (Z * Z * bitmap) :=
  let maxix := DIVROUNDUP (bm_nbits b) BITS_PER_WORD in
  bitmap_alloc_loop (Z.to_nat maxix) b 0 maxix.

Definition bitmap_translate (bitno : Z) : Z * Z :=
  (bitno / BITS_PER_WORD, u8 (Z.shiftl 1 (bitno mod BITS_PER_WORD))).

Definition bitmap_mark (b : bitmap) (index : Z) : res bitmap :=
  let? _ := rassert (index <? bm_nbits b) in
  let '(ix, mask) := bitmap_translate index in
  let? byte := rd (bm_v b) ix in
  let? _ := rassert (Z.land byte mask =? 0) in
  let? v' := wr (bm_v b) ix (u8 (Z.lor byte mask)) in
  Ret (set_bytes b v').

Definition bitmap_unmark (b : bitmap) (index : Z) : res bitmap :=
  let? _ := rassert (index <? bm_nbits b) in
  let '(ix, mask) := bitmap_translate index in
  let? byte := rd (bm_v b) ix in
  let? _ := rassert (negb (Z.land byte mask =? 0)) in
  let? v' := wr (bm_v b) ix (u8 (Z.land byte (Z.lnot mask))) in
  Ret (set_bytes b v').

(** Nonzero when the bit is set. *)
Definition bitmap_isset (b : bitmap) (index : Z) : res Z :=
  let '(ix, mask) := bitmap_translate index in
  let? byte := rd (bm_v b) ix in
  Ret (Z.land byte mask).

(** ** Representation *)

Definition bit (v : list Z) (i : Z) : bool :=
  Z.testbit (v !!! Z.to_nat (i / 8)) (i mod 8).

Definition nwords (nbits : Z) : Z := (nbits + 7) / 8.

(** The sizes for which no computation of the file wraps. *)
Definition MAXBITS : Z := 2 ^ 31.

Definition bitmap_wf (b : bitmap) : Prop :=
  0 <= bm_nbits b <= MAXBITS /\
  Z.of_nat (length (bm_v b)) = nwords (bm_nbits b) /\
  Forall (fun w => 0 <= w < 256) (bm_v b) /\
  (forall i, bm_nbits b <= i < 8 * nwords (bm_nbits b) -> bit (bm_v b) i = true).

Definition bitmap_rep (b : bitmap) (X : gset Z) : Prop :=
  bitmap_wf b /\
  (forall i, 0 <= i < bm_nbits b -> (bit (bm_v b) i = true <-> i ∈ X)) /\
  (forall i, i ∈ X -> 0 <= i < bm_nbits b).

(** ** Bytes *)

Lemma mask_pow2 k : 0 <= k < 8 -> u8 (Z.shiftl 1 k) = 2 ^ k.
Proof.
  intros Hk. rewrite Z.shiftl_mul_pow2, Z.mul_1_l by lia. apply u8_small.
  split; [apply Z.pow_nonneg; lia | apply Z.pow_lt_mono_r; lia].
Qed.

Lemma byte_lor w k : 0 <= w < 256 -> 0 <= k < 8 -> 0 <= Z.lor w (2 ^ k) < 256.
Proof.
  intros Hw Hk. assert (0 < 2 ^ k) by (apply Z.pow_pos_nonneg; lia).
  assert (0 <= Z.lor w (2 ^ k)) by (apply Z.lor_nonneg; lia). split; [done|].
  assert (Z.lor w (2 ^ k) <> 0) by (intros E; apply Z.lor_eq_0_iff in E; lia).
  apply (Z.log2_lt_pow2 _ 8); [lia|]. rewrite Z.log2_lor, Z.log2_pow2 by lia.
  assert (Z.log2 w < 8); [|lia]. destruct (decide (w = 0)) as [->|]; [done|].
  apply Z.log2_lt_pow2; lia.
Qed.

Lemma byte_clear w k :
  0 <= w < 256 -> u8 (Z.land w (Z.lnot (2 ^ k))) = Z.land w (Z.lnot (2 ^ k)).
Proof.
  intros Hw. unfold u8. rewrite <- Z.land_ones by lia. rewrite <- Z.land_assoc, (Z.land_comm (Z.lnot _)), Z.land_assoc.
  rewrite Z.land_ones, Z.mod_small by lia. done.
Qed.

Lemma bit_set v (n : nat) w k i :
  v !! n = Some w -> 0 <= k < 8 -> 0 <= i ->
  bit (<[n := Z.lor w (2 ^ k)]> v) i = bool_decide (i = 8 * Z.of_nat n + k) || bit v i.
Proof.
  intros Hw Hk Hi. unfold bit. pose proof (Z.div_mod i 8 ltac:(lia)).
  pose proof (Z.mod_pos_bound i 8 ltac:(lia)).
  destruct (decide (Z.to_nat (i / 8) = n)) as [E|E].
  - rewrite E, list_lookup_total_insert_eq by (by eapply lookup_lt_Some).
    rewrite (list_lookup_total_correct _ _ _ Hw), Z.lor_spec, Z.pow2_bits_eqb by lia.
    rewrite orb_comm. f_equal. destruct (Z.eqb_spec k (i mod 8)); symmetry;
      [apply bool_decide_true | apply bool_decide_false]; lia.
  - rewrite list_lookup_total_insert_ne by done.
    rewrite bool_decide_false; [done|]. lia.
Qed.

Lemma bit_clear v (n : nat) w k i :
  v !! n = Some w -> 0 <= k < 8 -> 0 <= i ->
  bit (<[n := Z.land w (Z.lnot (2 ^ k))]> v) i =
    negb (bool_decide (i = 8 * Z.of_nat n + k)) && bit v i.
Proof.
  intros Hw Hk Hi. unfold bit. pose proof (Z.div_mod i 8 ltac:(lia)).
  pose proof (Z.mod_pos_bound i 8 ltac:(lia)).
  destruct (decide (Z.to_nat (i / 8) = n)) as [E|E].
  - rewrite E, list_lookup_total_insert_eq by (by eapply lookup_lt_Some).
    rewrite (list_lookup_total_correct _ _ _ Hw), Z.land_spec, Z.lnot_spec, Z.pow2_bits_eqb by lia.
    rewrite andb_comm. do 2 f_equal. destruct (Z.eqb_spec k (i mod 8)); symmetry;
      [apply bool_decide_true | apply bool_decide_false]; lia.
  - rewrite list_lookup_total_insert_ne by done.
    rewrite bool_decide_false; [done|]. lia.
Qed.

(** [find_bit] finds the lowest clear bit of a byte. *)
Lemma find_bit_spec (fuel : nat) w k :
  0 <= k -> k + Z.of_nat fuel = 8 ->
  match find_bit fuel w k with
  | Some j => k <= j < 8 /\ Z.testbit w j = false /\ forall i, k <= i < j -> Z.testbit w i = true
  | None => forall i, k <= i < 8 -> Z.testbit w i = true
  end.
Proof.
  revert k. induction fuel as [|f IH]; intros k Hk Hf; cbn [find_bit].
  - intros i ?. lia.
  - rewrite mask_pow2, land_pow2 by lia. assert (0 < 2 ^ k) by (apply Z.pow_pos_nonneg; lia).
    destruct (Z.testbit w k) eqn:E.
    + destruct (Z.eqb_spec (2 ^ k) 0); [lia|].
      specialize (IH (k + 1) ltac:(lia) ltac:(lia)). destruct (find_bit f w (k + 1)) as [j|].
      * destruct IH as (? & ? & Hi). split_and!; [lia..|done|]. intros i ?.
        destruct (decide (i = k)) as [->|]; [done|]. apply Hi. lia.
      * intros i ?. destruct (decide (i = k)) as [->|]; [done|]. apply IH. lia.
    + simpl. split_and!; [lia..|done|]. intros i ?. lia.
Qed.

Lemma byte_full_or_clear w :
  0 <= w < 256 -> w <> WORD_ALLBITS ->
  exists j, find_bit 8 w 0 = Some j /\ 0 <= j < 8 /\ Z.testbit w j = false /\
    forall i, 0 <= i < j -> Z.testbit w i = true.
Proof.
  intros Hw Hne. pose proof (find_bit_spec 8 w 0 ltac:(lia) ltac:(lia)) as Hf.
  destruct (find_bit 8 w 0) as [j|]; [by exists j|]. exfalso. apply Hne.
  by apply (all_bits_ones _ 8).
Qed.

Lemma divroundup_nwords n : 0 <= n <= MAXBITS -> DIVROUNDUP n BITS_PER_WORD = nwords n.
Proof.
  unfold MAXBITS, DIVROUNDUP, BITS_PER_WORD, nwords. intros ?.
  rewrite (u32_small (n + 8)), u32_small by lia. f_equal. lia.
Qed.

Lemma nwords_bound n : 0 <= n -> n <= 8 * nwords n < n + 8.
Proof. unfold nwords. intros. Z.to_euclidean_division_equations. lia. Qed.

(** ** The operations *)

(** Setting a clear bit below [nbits]. *)
Lemma rep_set b X (n : nat) w k :
  bitmap_rep b X -> bm_v b !! n = Some w -> 0 <= k < 8 -> 8 * Z.of_nat n + k < bm_nbits b ->
  bitmap_rep (set_bytes b (<[n := Z.lor w (2 ^ k)]> (bm_v b))) ({[ 8 * Z.of_nat n + k ]} ∪ X).
Proof.
  intros ((Hn & Hl & Hb & Ho) & Hx & Hr) Hw Hk Hlt.
  pose proof (Forall_lookup_1 _ _ _ _ Hb Hw) as Hwb. pose proof (nwords_bound (bm_nbits b)).
  unfold bitmap_rep, bitmap_wf, set_bytes; simpl. rewrite length_insert. split_and!; try done; try lia.
  - apply Forall_insert; [done|]. by apply byte_lor.
  - intros i ?. rewrite (bit_set _ _ w) by (done || lia). rewrite Ho by lia. apply orb_true_r.
  - intros i ?. rewrite (bit_set _ _ w) by (done || lia).
    rewrite orb_true_iff, bool_decide_eq_true, Hx by done. set_solver.
  - intros i [->%elem_of_singleton|?]%elem_of_union; [lia|auto].
Qed.

Lemma bit_word (b : bitmap) (n : nat) w k :
  bm_v b !! n = Some w -> 0 <= k < 8 -> bit (bm_v b) (8 * Z.of_nat n + k) = Z.testbit w k.
Proof.
  intros Hw Hk. unfold bit. rewrite (Z.mul_comm 8), Z.div_add_l, (Z.div_small k), Z.add_0_r by lia.
  rewrite Nat2Z.id, (list_lookup_total_correct _ _ _ Hw). f_equal.
  rewrite Z.add_comm, Z.mod_add, Z.mod_small by lia. done.
Qed.

Lemma bitmap_alloc_loop_spec (fuel : nat) b X ix maxix :
  bitmap_rep b X -> 0 <= ix -> maxix = nwords (bm_nbits b) -> maxix <= ix + Z.of_nat fuel ->
  (forall j, 0 <= j < 8 * ix -> bit (bm_v b) j = true) ->
  match bitmap_alloc_loop fuel b ix maxix with
  | Ret (0, i, b') => 0 <= i < bm_nbits b /\ (i ∉ X) /\ (forall j, 0 <= j < i -> j ∈ X) /\
      bitmap_rep b' ({[ i ]} ∪ X) /\ bm_nbits b' = bm_nbits b /\
      bm_addr b' = bm_addr b /\ bm_vaddr b' = bm_vaddr b
  | Ret (r, _, b') => r = ENOSPC /\ b' = b /\ forall j, 0 <= j < bm_nbits b -> j ∈ X
  | Stop _ => False
  end.
Proof.
  intros Hrep Hix Hmax. pose proof Hrep as ((Hn & Hl & Hb & Ho) & Hx & Hr).
  pose proof (nwords_bound (bm_nbits b)). unfold MAXBITS in *.
  revert ix Hix. induction fuel as [|f IH]; intros ix Hix Hf Hall; cbn [bitmap_alloc_loop];
    destruct (Z.ltb_spec ix maxix); try lia; try (simpl; split_and!; try done; intros j ?;
      apply Hx; [lia|]; apply Hall; lia).
  destruct (rd_total (bm_v b) ix) as [w Hrd]; [lia|]. rewrite Hrd. cbn [rbind].
  apply rd_inv in Hrd as [_ Hw]. pose proof (Forall_lookup_1 _ _ _ _ Hb Hw) as Hwb.
  assert (ix = Z.of_nat (Z.to_nat ix)) as Eix by lia.
  destruct (Z.eqb_spec w WORD_ALLBITS) as [->|Hne]; cbn [negb].
  - apply IH; [lia..|]. intros j ?. destruct (decide (j < 8 * ix)); [apply Hall; lia|].
    replace j with (8 * Z.of_nat (Z.to_nat ix) + (j - 8 * ix)) by lia.
    rewrite (bit_word _ _ _ _ Hw) by lia. change WORD_ALLBITS with (Z.ones 8).
    rewrite Z.testbit_ones_nonneg by lia. apply Z.ltb_lt. lia.
  - destruct (byte_full_or_clear w) as (k & -> & Hk & Hck & Hlow); [done..|].
    rewrite mask_pow2 by done. rewrite u8_small by (by apply byte_lor).
    rewrite wr_in by lia. cbn [rbind]. unfold BITS_PER_WORD.
    assert (bit (bm_v b) (ix * 8 + k) = false) as Hclr.
    { rewrite Eix, (Z.mul_comm _ 8), (bit_word _ _ _ _ Hw) by lia. done. }
    assert (ix * 8 + k < bm_nbits b).
    { destruct (decide (ix * 8 + k < bm_nbits b)); [done|].
      rewrite Ho in Hclr by lia. done. }
    rewrite (u32_small (ix * 8)), u32_small by lia.
    replace (ix * 8 + k <? bm_nbits b) with true by lia. cbn [rassert rbind].
    split_and!; [lia..| | | |done|done|done].
    + intros Hin. apply Hx in Hin; [congruence|lia].
    + intros j ?. apply Hx; [lia|]. destruct (decide (j < 8 * ix)); [apply Hall; lia|].
      replace j with (8 * Z.of_nat (Z.to_nat ix) + (j - 8 * ix)) by lia.
      rewrite (bit_word _ _ _ _ Hw) by lia. apply Hlow. lia.
    + replace (ix * 8 + k) with (8 * Z.of_nat (Z.to_nat ix) + k) by lia.
      apply rep_set; [done..|lia].
Qed.

Lemma bitmap_alloc_spec b X :
  bitmap_rep b X ->
  (exists i b', bitmap_alloc b = Ret (0, i, b') /\ 0 <= i < bm_nbits b /\ (i ∉ X) /\
     (forall j, 0 <= j < i -> j ∈ X) /\ bitmap_rep b' ({[ i ]} ∪ X) /\
     bm_nbits b' = bm_nbits b /\ bm_addr b' = bm_addr b /\ bm_vaddr b' = bm_vaddr b) \/
  (exists i, bitmap_alloc b = Ret (ENOSPC, i, b) /\ forall j, 0 <= j < bm_nbits b -> j ∈ X).
Proof.
  intros Hrep. pose proof Hrep as ((Hn & _) & _). pose proof (nwords_bound (bm_nbits b)).
  unfold bitmap_alloc. rewrite divroundup_nwords by done.
  pose proof (bitmap_alloc_loop_spec (Z.to_nat (nwords (bm_nbits b))) b X 0 _ Hrep ltac:(lia) eq_refl
    ltac:(lia) ltac:(lia)) as Hl.
  destruct (bitmap_alloc_loop _ _ _ _) as [[[r i] b']|]; [|done].
  destruct r; [left; eauto 10|right|right]; destruct Hl as (-> & -> & ?); eauto.
Qed.

Lemma bitmap_mark_spec b X i :
  bitmap_rep b X -> 0 <= i -> i < bm_nbits b ->
  if decide (i ∈ X) then bitmap_mark b i = Stop Panic
  else exists b', bitmap_mark b i = Ret b' /\ bitmap_rep b' ({[ i ]} ∪ X) /\
    bm_nbits b' = bm_nbits b /\ bm_addr b' = bm_addr b /\ bm_vaddr b' = bm_vaddr b.
Proof.
  intros Hrep Hi Hlt. pose proof Hrep as ((Hn & Hl & Hb & Ho) & Hx & Hr).
  pose proof (nwords_bound (bm_nbits b)). pose proof (Z.div_mod i 8 ltac:(lia)).
  pose proof (Z.mod_pos_bound i 8 ltac:(lia)).
  unfold bitmap_mark, bitmap_translate, BITS_PER_WORD. rewrite mask_pow2 by lia.
  replace (i <? bm_nbits b) with true by lia. cbn [rassert rbind].
  destruct (rd_total (bm_v b) (i / 8)) as [w Hrd]; [lia|]. rewrite Hrd. cbn [rbind].
  apply rd_inv in Hrd as [_ Hw]. pose proof (Forall_lookup_1 _ _ _ _ Hb Hw) as Hwb.
  specialize (Hx i ltac:(lia)). unfold bit in Hx. rewrite (list_lookup_total_correct _ _ _ Hw) in Hx.
  rewrite land_pow2 by lia. assert (0 < 2 ^ (i mod 8)) by (apply Z.pow_pos_nonneg; lia).
  destruct (Z.testbit w (i mod 8)) eqn:E; case_decide as Hin; try (by exfalso; destruct Hx; auto).
  - destruct (Z.eqb_spec (2 ^ (i mod 8)) 0); [lia|done].
  - apply Hx in Hin. done.
  - rewrite Z.eqb_refl. cbn [rassert rbind]. rewrite wr_in by lia. cbn [rbind].
    rewrite u8_small by (by apply byte_lor). eexists. split; [done|]. split; [|done].
    replace i with (8 * Z.of_nat (Z.to_nat (i / 8)) + i mod 8) at 3 by lia.
    apply rep_set; [done..|lia].
Qed.

Lemma bitmap_unmark_spec b X i :
  bitmap_rep b X -> 0 <= i -> i < bm_nbits b ->
  if decide (i ∈ X) then exists b', bitmap_unmark b i = Ret b' /\ bitmap_rep b' (X ∖ {[ i ]}) /\
    bm_nbits b' = bm_nbits b /\ bm_addr b' = bm_addr b /\ bm_vaddr b' = bm_vaddr b
  else bitmap_unmark b i = Stop Panic.
Proof.
  intros Hrep Hi Hlt. pose proof Hrep as ((Hn & Hl & Hb & Ho) & Hx & Hr).
  pose proof (nwords_bound (bm_nbits b)). pose proof (Z.div_mod i 8 ltac:(lia)).
  pose proof (Z.mod_pos_bound i 8 ltac:(lia)).
  unfold bitmap_unmark, bitmap_translate, BITS_PER_WORD. rewrite mask_pow2 by lia.
  replace (i <? bm_nbits b) with true by lia. cbn [rassert rbind].
  destruct (rd_total (bm_v b) (i / 8)) as [w Hrd]; [lia|]. rewrite Hrd. cbn [rbind].
  apply rd_inv in Hrd as [_ Hw]. pose proof (Forall_lookup_1 _ _ _ _ Hb Hw) as Hwb.
  pose proof (Hx i ltac:(lia)) as Hxi. unfold bit in Hxi.
  rewrite (list_lookup_total_correct _ _ _ Hw) in Hxi.
  rewrite land_pow2 by lia. assert (0 < 2 ^ (i mod 8)) by (apply Z.pow_pos_nonneg; lia).
  destruct (Z.testbit w (i mod 8)) eqn:E; case_decide as Hin; try (by exfalso; destruct Hxi; auto).
  - destruct (Z.eqb_spec (2 ^ (i mod 8)) 0); [lia|]. cbn [negb rassert rbind].
    rewrite wr_in by lia. cbn [rbind]. rewrite byte_clear by done.
    eexists. split; [done|]. split; [|done].
    assert (forall j, 0 <= j -> bit (<[Z.to_nat (i / 8) := Z.land w (Z.lnot (2 ^ (i mod 8)))]> (bm_v b)) j
      = negb (bool_decide (j = i)) && bit (bm_v b) j) as Hbit.
    { intros j ?. rewrite (bit_clear _ _ w) by (done || lia).
      by replace (8 * Z.of_nat (Z.to_nat (i / 8)) + i mod 8) with i by lia. }
    unfold bitmap_rep, bitmap_wf, set_bytes; simpl. rewrite length_insert. split_and!; try done; try lia.
    + apply Forall_insert; [done|]. rewrite <- byte_clear by done. apply u8_bound.
    + intros j ?. rewrite Hbit, Ho, bool_decide_false by lia. done.
    + intros j ?. rewrite Hbit, andb_true_iff, negb_true_iff, bool_decide_eq_false, Hx by lia. set_solver.
    + intros j ?. apply Hr. set_solver.
  - apply Hxi in Hin. done.
  - rewrite Z.eqb_refl. done.
Qed.

(** ** Creation *)

Lemma mark_over_spec (fuel : nat) j w :
  0 <= w < 256 -> 0 <= j -> 8 <= j + Z.of_nat fuel ->
  0 <= mark_over fuel j w < 256 /\
  forall i, 0 <= i < 8 -> Z.testbit (mark_over fuel j w) i = (j <=? i) || Z.testbit w i.
Proof.
  revert j w. induction fuel as [|f IH]; intros j w Hw Hj Hf; cbn [mark_over]; unfold BITS_PER_WORD.
  - split; [done|]. intros i ?. by replace (j <=? i) with false by lia.
  - destruct (Z.ltb_spec j 8).
    + rewrite mask_pow2, u8_small by (try apply byte_lor; lia).
      destruct (IH (j + 1) (Z.lor w (2 ^ j))) as [? Hb]; [by apply byte_lor|lia..|].
      split; [done|]. intros i Hi. rewrite Hb, Z.lor_spec, Z.pow2_bits_eqb by lia.
      destruct (Z.testbit w i); [by rewrite !orb_true_r|]. rewrite orb_false_r, orb_false_l.
      destruct (Z.leb_spec (j + 1) i), (Z.leb_spec j i), (Z.eqb_spec j i); simpl; lia || done.
    + split; [done|]. intros i ?. by replace (j <=? i) with false by lia.
Qed.

Lemma zero_bit (n : nat) i : 0 <= i < 8 * Z.of_nat n -> bit (replicate n 0) i = false.
Proof.
  intros Hi. unfold bit. rewrite lookup_total_replicate_2; [apply Z.testbit_0_l|].
  Z.to_euclidean_division_equations. lia.
Qed.

(** The bytes [bitmap_create] leaves: every bit of the map clear. *)
Lemma create_rep addr vaddr nbits v :
  0 <= nbits <= MAXBITS ->
  v = (if nbits / 8 <? nwords nbits
       then <[Z.to_nat (nwords nbits - 1) := mark_over 8 (nbits - 8 * (nwords nbits - 1)) 0]>
              (replicate (Z.to_nat (nwords nbits)) 0)
       else replicate (Z.to_nat (nwords nbits)) 0) ->
  bitmap_rep (mkBitmap addr nbits vaddr v) ∅.
Proof.
  intros Hn ->. pose proof (nwords_bound nbits ltac:(lia)) as Hb.
  pose proof (Z.div_mod nbits 8 ltac:(lia)). pose proof (Z.mod_pos_bound nbits 8 ltac:(lia)).
  assert (0 <= nwords nbits) by lia.
  destruct (Z.ltb_spec (nbits / 8) (nwords nbits)) as [Hlt|Hge].
  - set (m := nwords nbits) in *. set (over := nbits - 8 * (m - 1)).
    destruct (mark_over_spec 8 over 0 ltac:(lia) ltac:(unfold over; lia) ltac:(unfold over; lia)) as [Hr Hbit].
    assert (forall i, 0 <= i < 8 * m -> bit (<[Z.to_nat (m - 1):=mark_over 8 over 0]> (replicate (Z.to_nat m) 0)) i
      = (nbits <=? i)) as Hall.
    { intros i Hi. pose proof (Z.div_mod i 8 ltac:(lia)). pose proof (Z.mod_pos_bound i 8 ltac:(lia)).
      unfold bit. destruct (decide (Z.to_nat (i / 8) = Z.to_nat (m - 1))) as [E|E].
      - rewrite E, list_lookup_total_insert_eq by (rewrite length_replicate; lia).
        rewrite Hbit, Z.testbit_0_l, orb_false_r by lia. unfold over.
        destruct (Z.leb_spec (nbits - 8 * (m - 1)) (i mod 8)), (Z.leb_spec nbits i); lia || done.
      - rewrite list_lookup_total_insert_ne by done. fold (bit (replicate (Z.to_nat m) 0) i).
        rewrite zero_bit by lia. symmetry. apply Z.leb_gt. lia. }
    unfold bitmap_rep, bitmap_wf; simpl. fold m. rewrite length_insert, length_replicate.
    split_and!; try lia.
    + apply Forall_insert; [apply Forall_replicate; lia|done].
    + intros i ?. rewrite Hall by lia. lia.
    + intros i ?. rewrite Hall by lia. replace (nbits <=? i) with false by lia. set_solver.
    + set_solver.
  - unfold bitmap_rep, bitmap_wf; simpl. rewrite length_replicate. split_and!; try lia.
    + apply Forall_replicate. lia.
    + intros i ?. rewrite zero_bit by lia. set_solver.
    + set_solver.
Qed.

Section CreateSpec.
Context {H : Type} `{!Allocator H} `{!AllocatorLaws H}.

Definition bitmap_ok (b : bitmap) (X : gset Z) (h : H) (F : gset Z) : Prop :=
  bitmap_rep b X /\ heap_ok h ({[ bm_addr b; bm_vaddr b ]} ∪ F) /\
  ({[ bm_addr b; bm_vaddr b ]} : gset Z) ## F /\ bm_addr b <> bm_vaddr b.

Lemma bitmap_create_wp nbits h F :
  heap_ok h F -> 0 < nbits <= MAXBITS ->
  wpo oom_panics (bitmap_create nbits) h (fun o h' =>
    match o with
    | Some b => bitmap_ok b ∅ h' F /\ bm_nbits b = nbits
    | None => heap_ok h' F
    end).
Proof.
  intros Hh Hn. pose proof (nwords_bound nbits ltac:(lia)) as Hnw.
  pose proof (Z.div_mod nbits 8 ltac:(lia)). pose proof (Z.mod_pos_bound nbits 8 ltac:(lia)).
  unfold bitmap_create. rewrite divroundup_nwords by lia. unfold BITS_PER_WORD, MAXBITS in *. wp_step.
  eapply wp_mono; [apply kmalloc_law; [done|unfold SIZEOF_BITMAP, MAXALLOC; lia]|].
  intros p h1 [[-> ?]|(Hp & Hf & Hh1)]; [done|].
  destruct (Z.eqb_spec p 0); [done|]. wp_step.
  eapply wp_mono; [apply kmalloc_law; [done|unfold MAXALLOC; lia]|].
  intros d h2 [[-> ?]|(Hd & Hf2 & Hh2)].
  - rewrite Z.eqb_refl. wp_step. eapply wp_mono; [by apply kfree_law|]. intros [] h3 ?. done.
  - destruct (Z.eqb_spec d 0); [done|].
    assert (forall v, bitmap_rep (mkBitmap p nbits d v) ∅ -> bitmap_ok (mkBitmap p nbits d v) ∅ h2 F) as Hok.
    { intros v Hv. split; [done|]. simpl. split_and!; [|clear - Hf Hf2; set_solver..].
      eapply (eq_ind _ (heap_ok h2)); [exact Hh2 | clear; gset_eq]. }
    pose proof (fun v => create_rep p d nbits v ltac:(unfold MAXBITS; lia)) as Hrep.
    destruct (Z.ltb_spec (nbits / 8) (nwords nbits)) as [Hlt|Hge]; cycle 1.
    { wp_step. split; [|done]. by apply Hok, Hrep. }
    rewrite (u32_small (nwords nbits - 1)), (u32_small (_ * 8)), (u32_small (nbits - _)) by lia.
    wp_step. wp_step. wp_step. wp_step. wp_step.
    eapply wp_lift_Ret; [apply rd_lookup; [lia|apply lookup_replicate_2; lia]|]. wp_step.
    eapply wp_lift_Ret; [apply wr_in; rewrite length_replicate; lia|]. wp_step.
    split; [|done]. apply Hok, Hrep. by rewrite (Z.mul_comm 8).
Qed.
End CreateSpec.

(** ** What a client sees *)

(** Allocate [n] bits in a row, stopping at the first error. *)
Fixpoint alloc_many (n : nat) (b : bitmap) : res (Z * list Z * bitmap) :=
  match n with
  | O => Ret (0, [], b)
  | S n' =>
      let? (r, i, b1) := bitmap_alloc b in
      if negb (r =? 0) then Ret (r, [], b1)
      else
        let? (r', l, b2) := alloc_many n' b1 in
        Ret (r', i :: l, b2)
  end.

Lemma rep_size b X : bitmap_rep b X -> Z.of_nat (size X) <= bm_nbits b.
Proof.
  intros ((Hn & _) & _ & Hr).
  assert (X ⊆ list_to_set (seqZ 0 (bm_nbits b))) as Hsub.
  { intros i Hi. apply elem_of_list_to_set, elem_of_seqZ. apply Hr in Hi. lia. }
  apply subseteq_size in Hsub. rewrite size_list_to_set in Hsub by apply NoDup_seqZ.
  rewrite length_seqZ in Hsub. lia.
Qed.

Lemma rep_full b X :
  bitmap_rep b X -> (forall j, 0 <= j < bm_nbits b -> j ∈ X) -> Z.of_nat (size X) = bm_nbits b.
Proof.
  intros Hrep Hall. pose proof (rep_size _ _ Hrep). destruct Hrep as ((Hn & _) & _).
  assert (list_to_set (seqZ 0 (bm_nbits b)) ⊆ X) as Hsub.
  { intros i Hi. apply elem_of_list_to_set, elem_of_seqZ in Hi. apply Hall. lia. }
  apply subseteq_size in Hsub. rewrite size_list_to_set in Hsub by apply NoDup_seqZ.
  rewrite length_seqZ in Hsub. lia.
Qed.

(** C32: as long as there are clear bits, [bitmap_alloc] hands them out, lowest
    first, each once: [n] calls on a map with at least [n] clear bits return an
    increasing list of [n] bit numbers that were clear, and mark exactly those;
    on a full map the answer is [ENOSPC] and nothing changes. *)
Theorem bitmap_alloc_exhausts (n : nat) b X :
  bitmap_rep b X ->
  if Z.of_nat (size X) + Z.of_nat n <=? bm_nbits b
  then exists l b', alloc_many n b = Ret (0, l, b') /\ length l = n /\ NoDup l /\
         (forall i, i ∈ l -> 0 <= i < bm_nbits b /\ (i ∉ X)) /\
         (forall i j, i ∈ l -> 0 <= j < i -> j ∈ X \/ j ∈ l) /\
         bitmap_rep b' (list_to_set l ∪ X) /\ bm_nbits b' = bm_nbits b
  else exists l b', alloc_many n b = Ret (ENOSPC, l, b') /\
         bitmap_rep b' (list_to_set (seqZ 0 (bm_nbits b))) /\ bm_nbits b' = bm_nbits b.
Proof.
  revert b X. induction n as [|n IH]; intros b X Hrep; pose proof (rep_size _ _ Hrep).
  - destruct (Z.leb_spec (Z.of_nat (size X) + Z.of_nat 0) (bm_nbits b)); [|lia].
    exists [], b. split_and!; try done; [apply NoDup_nil_2|set_solver|set_solver|].
    rewrite list_to_set_nil. by rewrite union_empty_l_L.
  - cbn [alloc_many]. destruct (bitmap_alloc_spec b X Hrep)
      as [(i & b1 & E & Hi & HiX & Hlow & Hrep1 & Hn1 & _)|(i & E & Hall)].
    + rewrite E. cbn [rbind Z.eqb negb]. specialize (IH b1 ({[i]} ∪ X) Hrep1).
      rewrite size_union, size_singleton, Hn1 in IH by set_solver.
      replace (Z.of_nat (1 + size X) + Z.of_nat n) with (Z.of_nat (size X) + Z.of_nat (S n)) in IH by lia.
      destruct (Z.of_nat (size X) + Z.of_nat (S n) <=? bm_nbits b).
      * destruct IH as (l & b' & -> & Hlen & Hnd & Hin & Hlo & Hrep' & Hn'). cbn [rbind].
        exists (i :: l), b'. split_and!; [done|simpl; lia| | | | |done].
        -- constructor; [|done]. intros Hil. apply Hin in Hil. set_solver.
        -- intros j [->|Hj]%elem_of_cons; [done|]. apply Hin in Hj. set_solver.
        -- intros j k [->|Hj]%elem_of_cons Hk; [left; by apply Hlow|].
           destruct (Hlo j k Hj Hk); set_solver.
        -- eapply (eq_ind _ (bitmap_rep b')); [exact Hrep'|]. rewrite list_to_set_cons. set_solver.
      * destruct IH as (l & b' & -> & Hrep' & Hn'). cbn [rbind]. by exists (i :: l), b'.
    + pose proof (rep_full _ _ Hrep Hall).
      destruct (Z.leb_spec (Z.of_nat (size X) + Z.of_nat (S n)) (bm_nbits b)); [lia|].
      rewrite E. cbn [rbind]. exists [], b. split_and!; try done.
      eapply (eq_ind _ (bitmap_rep b)); [exact Hrep|]. apply leibniz_equiv. intros j.
      rewrite elem_of_list_to_set, elem_of_seqZ. destruct Hrep as (_ & _ & Hr).
      split; [intros Hj; apply Hr in Hj; lia|]. intros ?. apply Hall. lia.
Qed.

Lemma same_bytes b b' X :
  bitmap_rep b X -> bitmap_rep b' X -> bm_nbits b' = bm_nbits b -> bm_v b' = bm_v b.
Proof.
  intros ((Hn & Hl & Hb & Ho) & Hx & _) ((Hn' & Hl' & Hb' & Ho') & Hx' & _) En. rewrite En in *.
  apply (list_eq_same_length _ _ (length (bm_v b))); [done|lia|].
  intros k w' w Hk Hw' Hw.
  pose proof (Forall_lookup_1 _ _ _ _ Hb Hw) as Hwb. pose proof (Forall_lookup_1 _ _ _ _ Hb' Hw') as Hwb'.
  simpl in *. apply Z.bits_inj'. intros j Hj. destruct (decide (j < 8)).
  - rewrite <- (bit_word b' k w' j Hw'), <- (bit_word b k w j Hw) by lia.
    destruct (decide (8 * Z.of_nat k + j < bm_nbits b)).
    + apply eq_true_iff_eq. rewrite Hx, Hx' by lia. done.
    + rewrite Ho, Ho' by lia. done.
  - assert (forall x, 0 <= x < 256 -> Z.testbit x j = false) as Hz; [|by rewrite !Hz].
    intros x Hxb. destruct (decide (x = 0)) as [->|]; [apply Z.testbit_0_l|].
    apply Z.bits_above_log2; [lia|]. apply Z.lt_le_trans with 8; [apply Z.log2_lt_pow2; lia|lia].
Qed.

(** [bitmap_mark] of a clear bit sets exactly that bit, and
    [bitmap_unmark] then restores the map byte for byte; marking a marked bit
    and unmarking a clear one panic. *)
Theorem bitmap_mark_unmark b X i :
  bitmap_rep b X -> 0 <= i < bm_nbits b ->
  if decide (i ∈ X)
  then bitmap_mark b i = Stop Panic /\
       exists b', bitmap_unmark b i = Ret b' /\ bitmap_rep b' (X ∖ {[ i ]}) /\ bitmap_mark b' i = Ret b
  else bitmap_unmark b i = Stop Panic /\
       exists b', bitmap_mark b i = Ret b' /\ bitmap_rep b' ({[ i ]} ∪ X) /\ bitmap_unmark b' i = Ret b.
Proof.
  intros Hrep Hi. pose proof (bitmap_mark_spec b X i Hrep ltac:(lia) ltac:(lia)) as Hm.
  pose proof (bitmap_unmark_spec b X i Hrep ltac:(lia) ltac:(lia)) as Hu.
  case_decide as Hin.
  - split; [done|]. destruct Hu as (b' & E & Hrep' & Hn & Ha & Hv). exists b'. split; [done|].
    split; [done|].
    pose proof (bitmap_mark_spec b' _ i Hrep' ltac:(lia) ltac:(lia)) as Hm'.
    rewrite decide_False in Hm' by set_solver. destruct Hm' as (b'' & -> & Hrep'' & Hn' & Ha' & Hv').
    assert ({[i]} ∪ X ∖ {[i]} = X) as EX by gset_eq. rewrite EX in Hrep''.
    pose proof (same_bytes b b'' X Hrep Hrep'' ltac:(lia)). f_equal.
    destruct b, b', b''; simpl in *; congruence.
  - split; [done|]. destruct Hm as (b' & E & Hrep' & Hn & Ha & Hv). exists b'. split; [done|].
    split; [done|].
    pose proof (bitmap_unmark_spec b' _ i Hrep' ltac:(lia) ltac:(lia)) as Hu'.
    rewrite decide_True in Hu' by set_solver. destruct Hu' as (b'' & -> & Hrep'' & Hn' & Ha' & Hv').
    assert (({[i]} ∪ X) ∖ {[i]} = X) as EX by gset_eq. rewrite EX in Hrep''.
    pose proof (same_bytes b b'' X Hrep Hrep'' ltac:(lia)). f_equal.
    destruct b, b', b''; simpl in *; congruence.
Qed.

(** ** Instances: a map of ten bits created at boot *)

Definition boot_bitmap : bitmap := mkBitmap 0x80010000 10 0x80011000 [0; 0xfc].

Lemma boot_bitmap_rep : bitmap_rep boot_bitmap ∅.
Proof.
  pose proof (bitmap_create_wp 10 boot_heap ∅ boot_heap_ok) as Hc. unfold wpx in Hc.
  change (bitmap_create 10 boot_heap) with
    (@Ret _ (Some boot_bitmap, kheap_zero (mkRam 0x12000 0x80000 0x7fffffff))) in Hc.
  apply Hc. unfold MAXBITS. lia.
Qed.

Lemma bitmap_alloc_exhausts_witness :
  bitmap_rep boot_bitmap ∅ /\
  (exists l b', alloc_many 10 boot_bitmap = Ret (0, l, b') /\ length l = 10%nat /\ NoDup l) /\
  exists l b', alloc_many 11 boot_bitmap = Ret (ENOSPC, l, b').
Proof.
  split; [exact boot_bitmap_rep|]. split.
  - destruct (bitmap_alloc_exhausts 10 boot_bitmap ∅ boot_bitmap_rep) as (l & b' & E & Hl & Hn & _).
    exists l, b'. auto.
  - destruct (bitmap_alloc_exhausts 11 boot_bitmap ∅ boot_bitmap_rep) as (l & b' & E & _).
    exists l, b'. exact E.
Defined.

Lemma bitmap_mark_unmark_witness :
  bitmap_rep boot_bitmap ∅ /\ bitmap_unmark boot_bitmap 9 = Stop Panic /\
  exists b', bitmap_mark boot_bitmap 9 = Ret b' /\ bitmap_unmark b' 9 = Ret boot_bitmap.
Proof.
  split; [exact boot_bitmap_rep|].
  pose proof (bitmap_mark_unmark boot_bitmap ∅ 9 boot_bitmap_rep ltac:(simpl; lia)) as H.
  rewrite decide_False in H by set_solver. destruct H as [H (b' & E & _ & E')].
  split; [exact H|]. exists b'. auto.
Defined.
