(* ===== verification/Own.v ===== *)
(** * Ownership of heap blocks

    A component whose state spans several allocated structures describes what
    it owns by the list of their addresses: [owns h l R] says that the heap is
    sound, that the addresses of [l] are distinct and handed out, and that [R]
    is what everybody else owns.  The order of [l] does not matter, which is
    the [Proper] instance below; the lemmas turn the set-based contracts of the
    allocator, of [kern/lib/array.c] and of [kern/lib/queue.c] into moves of
    addresses into and out of the list. *)

From S2P Require Import Prelude.
From S2P Require Import Array.
From S2P Require Import Queue.

Section Own.
Context {H : Type} `{AllocatorLaws H}.
Implicit Types (h : H) (l : list Z) (R : gset Z).

Definition owns h l R : Prop :=
  heap_ok h (list_to_set l ∪ R) /\ NoDup l /\ (forall x, x ∈ l -> x ∉ R).

#[global] Instance owns_perm h : Proper (Permutation ==> eq ==> iff) (owns h).
Proof.
  assert (forall l l' R, Permutation l l' -> owns h l R -> owns h l' R) as D.
  { intros l l' R E (Hh & Hn & Hd). split_and!.
    - by rewrite <- (list_to_set_perm_L _ _ E).
    - by rewrite <- E.
    - intros x Hx. apply Hd. by rewrite E. }
  intros l l' E R ? <-. split; apply D; [done | by symmetry].
Qed.

Lemma owns_move h l l' R : owns h l R -> Permutation l l' -> owns h l' R.
Proof. intros ? <-. done. Qed.

Lemma owns_intro h l R :
  heap_ok h (list_to_set l ∪ R) -> NoDup l -> list_to_set l ## R -> owns h l R.
Proof.
  intros ? ? Hd. split_and!; [done..|]. intros x Hx ?. apply (Hd x); [|done].
  by apply elem_of_list_to_set.
Qed.

Lemma wp_kmalloc_own n h l R :
  owns h l R -> 0 < n <= MAXALLOC ->
  wpo oom_panics (kmalloc n) h (fun p h' =>
    (p = 0 /\ alloc_fails /\ owns h' l R) \/ (p <> 0 /\ owns h' (p :: l) R)).
Proof.
  intros (Hh & Hn & Hd) Hs. eapply wp_mono; [by apply kmalloc_wp|].
  intros p h' [(-> & ? & ?)|(Hp & Hf & Hh')]; [by left|right]. split; [done|].
  apply not_elem_of_union in Hf as [Hf1 Hf2]. rewrite elem_of_list_to_set in Hf1.
  split_and!.
  - cbn [list_to_set]. by rewrite <- union_assoc_L.
  - by constructor.
  - intros x Hx. apply elem_of_cons in Hx as [->|Hx]; auto.
Qed.

Lemma wp_kfree_own p h l R :
  owns h (p :: l) R -> wpo oom_panics (kfree p) h (fun _ h' => owns h' l R).
Proof.
  intros (Hh & Hn & Hd). apply NoDup_cons in Hn as [Hp Hn]. eapply wp_mono.
  - apply (kfree_law _ _ (list_to_set l ∪ R)).
    + cbn [list_to_set] in Hh. by rewrite union_assoc_L.
    + rewrite elem_of_union, elem_of_list_to_set. intros [?|?]; [done|].
      apply (Hd p); [left | done].
  - intros [] h' ?. split_and!; [done..|]. intros x ?. apply Hd. by right.
Qed.

Section Arrays.
Context {A : Type}.
Implicit Types a : array A.

Definition array_blocks a : list Z :=
  arr_addr a :: match arr_v a with Some b => [blk_addr b] | None => [] end.

Lemma array_blocks_set a : list_to_set (array_blocks a) = footprint a.
Proof.
  unfold array_blocks, footprint. destruct (arr_v a); simpl; [|done]. by rewrite union_empty_r_L.
Qed.

(** [array_ok] against the rest of an owned list is ownership of the whole. *)
Lemma array_ok_owns a h l R :
  owns h (array_blocks a ++ l) R -> array_wf a -> array_ok a h (list_to_set l ∪ R).
Proof.
  intros (Hh & Hn & Hd) Hw. rewrite list_to_set_app_L, array_blocks_set in Hh.
  apply NoDup_app in Hn as (Hn1 & Hn2 & Hn3). split_and!.
  - done.
  - by rewrite union_assoc_L.
  - intros x Hx Hy. rewrite <- array_blocks_set, elem_of_list_to_set in Hx.
    rewrite elem_of_union, elem_of_list_to_set in Hy.
    destruct Hy as [Hy|Hy]; [by apply (Hn2 x) | apply (Hd x); [apply elem_of_app; by left | done]].
  - unfold array_blocks in Hn1. destruct (arr_v a) as [b|]; [|done].
    apply NoDup_cons in Hn1 as [Hx _]. intros E. apply Hx. rewrite E. left.
Qed.

Lemma owns_array_ok a h l R :
  array_ok a h (list_to_set l ∪ R) -> NoDup l -> (forall x, x ∈ l -> x ∉ R) ->
  array_wf a /\ owns h (array_blocks a ++ l) R.
Proof.
  intros (Hw & Hh & Hd & Hb) Hn HR. split; [done|]. split_and!.
  - by rewrite list_to_set_app_L, array_blocks_set, <- union_assoc_L.
  - apply NoDup_app. split_and!; [|intros x Hx Hy|done].
    + unfold array_blocks. destruct (arr_v a) as [b|]; [|apply NoDup_singleton].
      apply NoDup_cons. split; [|apply NoDup_singleton]. intros E%list_elem_of_singleton. by rewrite E in Hb.
    + apply (Hd x).
      * by rewrite <- array_blocks_set, elem_of_list_to_set.
      * rewrite elem_of_union, elem_of_list_to_set. by left.
  - intros x [Hx|Hx]%elem_of_app; [|by apply HR]. intros Hy. apply (Hd x).
    + by rewrite <- array_blocks_set, elem_of_list_to_set.
    + apply elem_of_union. by right.
Qed.

Lemma owns_rest h l1 l2 R : owns h (l1 ++ l2) R -> NoDup l2 /\ forall x, x ∈ l2 -> x ∉ R.
Proof.
  intros (_ & Hn & Hd). apply NoDup_app in Hn as (_ & _ & ?). split; [done|].
  intros x ?. apply Hd. apply elem_of_app. by right.
Qed.

Lemma array_add_own a x h l R :
  owns h (array_blocks a ++ l) R -> array_wf a -> arr_num a < MAXGUYS ->
  wpo oom_panics (array_add a x) h (fun '(r, a') h' =>
    array_wf a' /\ owns h' (array_blocks a' ++ l) R /\
    ((r = 0 /\ contents a' = contents a ++ [Some x] /\ arr_max a <= arr_max a') \/
     (r = ENOMEM /\ alloc_fails /\ a' = a))).
Proof.
  intros Ho Hw Hn. pose proof (owns_rest _ _ _ _ Ho) as [? ?].
  eapply wp_mono; [apply array_add_wp; [by apply array_ok_owns | done]|].
  intros [r a'] h' [Hok Hr]. apply owns_array_ok in Hok as [? ?]; [|done..].
  split_and!; [done..|]. destruct Hr as [?|(? & ? & ? & ?)]; auto.
Qed.

Lemma array_add_room_own a x h l R :
  owns h (array_blocks a ++ l) R -> array_wf a -> arr_num a < MAXGUYS -> arr_num a < arr_max a ->
  exists a', array_add a x h = Ret ((0, a'), h) /\ array_wf a' /\
    owns h (array_blocks a' ++ l) R /\ arr_max a' = arr_max a /\
    contents a' = contents a ++ [Some x].
Proof.
  intros Ho Hw Hn Hm. pose proof (owns_rest _ _ _ _ Ho) as [? ?].
  destruct (array_add_room a x h (list_to_set l ∪ R)) as (a' & E & Hok & ? & ?);
    [by apply array_ok_owns | done..|].
  apply owns_array_ok in Hok as [? ?]; [|done..]. by exists a'.
Qed.

Lemma array_preallocate_own a n h l R :
  owns h (array_blocks a ++ l) R -> array_wf a -> 0 < n <= MAXGUYS ->
  wpo oom_panics (array_preallocate a n) h (fun '(r, a') h' =>
    array_wf a' /\ owns h' (array_blocks a' ++ l) R /\ contents a' = contents a /\
    arr_max a <= arr_max a' /\
    ((r = 0 /\ n <= arr_max a') \/ (r = ENOMEM /\ alloc_fails /\ a' = a))).
Proof.
  intros Ho Hw Hn. pose proof (owns_rest _ _ _ _ Ho) as [? ?].
  eapply wp_mono; [apply array_preallocate_wp; [by apply array_ok_owns | done]|].
  intros [r a'] h' [(-> & ? & -> & Hok)|(-> & Hok & Hc & ? & ? & ?)];
    (apply owns_array_ok in Hok as [? ?]; [|done..]); split_and!; try done; try lia; auto.
Qed.

(** Emptying an array always succeeds; a large block is given back. *)
Lemma array_setsize_0_own a h l R :
  owns h (array_blocks a ++ l) R -> array_wf a ->
  wpo oom_panics (array_setsize a 0) h (fun '(r, a') h' =>
    r = 0 /\ array_wf a' /\ owns h' (array_blocks a' ++ l) R /\ contents a' = []).
Proof.
  intros Ho Hw. pose proof (owns_rest _ _ _ _ Ho) as [? ?]. pose proof Hw as (? & _).
  eapply wp_mono; [apply array_setsize_wp; [by apply array_ok_owns | unfold MAXGUYS; lia]|].
  intros [r a'] h' [(-> & ? & -> & ? & Hok)|(-> & Hok & Hn & _)]; [lia|].
  apply owns_array_ok in Hok as [? ?]; [|done..]. split_and!; try done.
  unfold contents. by rewrite Hn.
Qed.

Lemma array_remove_own a i h l R :
  owns h (array_blocks a ++ l) R -> array_wf a -> 0 <= i < arr_num a ->
  exists a', array_remove a i = Ret a' /\ array_wf a' /\ owns h (array_blocks a' ++ l) R /\
    arr_max a' = arr_max a /\ contents a' = delete (Z.to_nat i) (contents a).
Proof.
  intros Ho Hw Hi. pose proof (owns_rest _ _ _ _ Ho) as [? ?].
  pose proof (array_remove_spec a h (list_to_set l ∪ R) i (array_ok_owns _ _ _ _ Ho Hw)) as S.
  replace ((0 <=? i) && (i <? arr_num a)) with true in S by lia.
  destruct S as (a' & E & Hok & ? & ?). apply owns_array_ok in Hok as [? ?]; [|done..]. by exists a'.
Qed.

Lemma array_create_own h l R :
  owns h l R ->
  wpo oom_panics array_create h (fun o h' =>
    match o with
    | Some a => array_wf a /\ owns h' (array_blocks a ++ l) R /\ contents a = []
    | None => alloc_fails /\ owns h' l R
    end).
Proof.
  intros Ho. unfold array_create. wp_step.
  eapply wp_mono; [apply wp_kmalloc_own; [done | unfold SIZEOF_ARRAY, MAXALLOC; lia]|].
  intros p h' [(-> & ? & ?)|(Hp & ?)]; [done|]. destruct (Z.eqb_spec p 0); [done|].
  apply wp_ret. unfold array_wf, contents, cells, MAXGUYS; simpl. split_and!; done || lia.
Qed.

Lemma array_destroy_own a h l R :
  owns h (array_blocks a ++ l) R -> array_wf a ->
  wpo oom_panics (array_destroy a) h (fun _ h' => owns h' l R).
Proof.
  intros Ho Hw. pose proof (owns_rest _ _ _ _ Ho) as [? ?].
  eapply wp_mono; [apply array_destroy_spec; by apply array_ok_owns|]. intros [] h' ?. done.
Qed.
End Arrays.

Section Queues.
Context {A : Type}.
Implicit Types q : queue A.

Definition queue_blocks q : list Z := [q_addr q; blk_addr (q_data q)].

Lemma queue_blocks_set q : list_to_set (queue_blocks q) = q_footprint q.
Proof. unfold queue_blocks, q_footprint; simpl. by rewrite union_empty_r_L. Qed.

Lemma queue_ok_owns q xs h l R :
  owns h (queue_blocks q ++ l) R -> q_wf q -> q_holds q xs -> queue_ok q xs h (list_to_set l ∪ R).
Proof.
  intros (Hh & Hn & Hd) Hw Hq. rewrite list_to_set_app_L, queue_blocks_set in Hh.
  apply NoDup_app in Hn as (Hn1 & Hn2 & Hn3). split_and!; [done|done| | |].
  - by rewrite union_assoc_L.
  - intros x Hx Hy. rewrite <- queue_blocks_set, elem_of_list_to_set in Hx.
    rewrite elem_of_union, elem_of_list_to_set in Hy.
    destruct Hy as [Hy|Hy]; [by apply (Hn2 x) | apply (Hd x); [apply elem_of_app; by left | done]].
  - apply NoDup_cons in Hn1 as [Hx _]. intros E. apply Hx. rewrite E. left.
Qed.

Lemma owns_queue_ok q xs h l R :
  queue_ok q xs h (list_to_set l ∪ R) -> NoDup l -> (forall x, x ∈ l -> x ∉ R) ->
  q_wf q /\ q_holds q xs /\ owns h (queue_blocks q ++ l) R.
Proof.
  intros (Hw & Hq & Hh & Hd & Hb) Hn HR. split; [done|]. split; [done|]. split_and!.
  - by rewrite list_to_set_app_L, queue_blocks_set, <- union_assoc_L.
  - apply NoDup_app. split_and!; [|intros x Hx Hy|done].
    + apply NoDup_cons. split; [|apply NoDup_singleton]. intros E%list_elem_of_singleton. done.
    + apply (Hd x).
      * by rewrite <- queue_blocks_set, elem_of_list_to_set.
      * rewrite elem_of_union, elem_of_list_to_set. by left.
  - intros x [Hx|Hx]%elem_of_app; [|by apply HR]. intros Hy. apply (Hd x).
    + by rewrite <- queue_blocks_set, elem_of_list_to_set.
    + apply elem_of_union. by right.
Qed.

Lemma q_addtail_own q xs x h l R :
  owns h (queue_blocks q ++ l) R -> q_wf q -> q_holds q xs -> q_size q < 2 ^ 28 ->
  wpo oom_panics (q_addtail q x) h (fun '(r, q') h' =>
    q_wf q' /\ owns h' (queue_blocks q' ++ l) R /\
    ((r = 0 /\ q_holds q' (xs ++ [x]) /\
      q_size q' <= Z.max (q_size q) (2 * (Z.of_nat (length xs) + 2))) \/
     (r = ENOMEM /\ alloc_fails /\ q' = q))).
Proof.
  intros Ho Hw Hq Hs. pose proof (owns_rest _ _ _ _ Ho) as [? ?].
  eapply wp_mono; [apply q_addtail_wp; [by apply queue_ok_owns | done]|].
  intros [r q'] h' [(-> & Hok & ?)|(-> & ? & -> & Hok & _)];
    (apply owns_queue_ok in Hok as (? & ? & ?); [|done..]); split_and!; try done.
  - left. split_and!; done || lia.
  - by right.
Qed.

(** With room left, adding at the tail does not use the heap. *)
Lemma q_addtail_room_own q xs x h l R :
  owns h (queue_blocks q ++ l) R -> q_wf q -> q_holds q xs ->
  Z.of_nat (length xs) + 1 < q_size q ->
  exists q', q_addtail q x h = Ret ((0, q'), h) /\ q_wf q' /\ q_holds q' (xs ++ [x]) /\
    q_size q' = q_size q /\ owns h (queue_blocks q' ++ l) R.
Proof.
  intros Ho Hw Hq Hs.
  destruct (q_addtail_room 1 q xs x h) as (q' & E & ? & ? & ? & Ea & Eb); [done..|].
  exists q'. unfold queue_blocks. by rewrite Ea, Eb.
Qed.

Lemma q_preallocate_own q xs n h l R :
  owns h (queue_blocks q ++ l) R -> q_wf q -> q_holds q xs -> n <= 2 ^ 28 ->
  wpo oom_panics (q_preallocate q n) h (fun '(r, q') h' =>
    q_wf q' /\ q_holds q' xs /\ owns h' (queue_blocks q' ++ l) R /\
    q_size q' <= Z.max (q_size q) (2 * n) /\
    ((r = 0 /\ n <= q_size q') \/ (r = ENOMEM /\ alloc_fails /\ q' = q))).
Proof.
  intros Ho Hw Hq Hs. pose proof (owns_rest _ _ _ _ Ho) as [? ?].
  eapply wp_mono; [apply q_preallocate_wp; [by apply queue_ok_owns | done]|].
  intros [r q'] h' [Hok Hr]. apply owns_queue_ok in Hok as (? & ? & ?); [|done..].
  split_and!; try done; destruct Hr as [(? & ? & ->)|(? & ? & ?)]; auto with lia.
Qed.

Lemma q_remhead_own q x xs h l R :
  owns h (queue_blocks q ++ l) R -> q_wf q -> q_holds q (x :: xs) ->
  exists q', q_remhead q = Ret (x, q') /\ q_wf q' /\ q_holds q' xs /\ q_size q' = q_size q /\
    owns h (queue_blocks q' ++ l) R.
Proof.
  intros Ho Hw Hq. pose proof (owns_rest _ _ _ _ Ho) as [? ?].
  destruct (q_remhead_spec q (x :: xs) h (list_to_set l ∪ R)) as (q' & E & Hok);
    [by apply queue_ok_owns|].
  apply owns_queue_ok in Hok as (? & ? & ?); [|done..]. exists q'. split_and!; try done.
  unfold q_remhead in E. destruct (rassert _); [|done]; simpl in E.
  destruct (rassert _); [|done]; simpl in E. destruct (q_read _ _); [|done].
  simpl in E. by simplify_eq.
Qed.

Lemma q_create_own n h l R :
  owns h l R -> 0 < n < MAXQ ->
  wpo oom_panics (q_create n) h (fun o h' =>
    match o with
    | Some q => q_wf q /\ q_holds q [] /\ q_size q = n /\ owns h' (queue_blocks q ++ l) R
    | None => alloc_fails /\ owns h' l R
    end).
Proof.
  intros Ho Hn. unfold MAXQ in Hn. unfold q_create. wp_step.
  eapply wp_mono; [apply wp_kmalloc_own; [done | unfold SIZEOF_QUEUE, MAXALLOC; lia]|].
  intros p h1 [(-> & ? & ?)|(Hp & Ho1)]; [done|]. destruct (Z.eqb_spec p 0); [done|].
  rewrite u32_small by (unfold PTR_SIZE; lia). wp_step.
  eapply wp_mono; [apply wp_kmalloc_own; [done | unfold PTR_SIZE, MAXALLOC; lia]|].
  intros d h2 [(-> & ? & Ho2)|(Hd & Ho2)].
  - simpl. wp_step. eapply wp_mono; [by apply wp_kfree_own|]. intros [] h3 ?. by wp_step.
  - destruct (Z.eqb_spec d 0); [done|]. wp_step. unfold PTR_SIZE. rewrite Z.div_mul by lia.
    unfold q_wf, q_holds, queue_blocks, MAXQ; simpl. rewrite length_replicate.
    split_and!; try done; try lia.
    eapply owns_move; [exact Ho2|]. constructor.
Qed.
End Queues.
End Own.

(** Permutations of concatenations of block lists. *)
Ltac solve_blocks :=
  repeat rewrite <- ?app_assoc, <- ?app_comm_cons, ?app_nil_r;
  cbn [app];
  first [ reflexivity | solve_Permutation ].

(** ** The blocks of a table of structures *)

Section Blocks.
Context {B : Type} (own : Z -> B -> list Z).
Implicit Types m : gmap Z B.

Definition table_blocks m : list Z := concat (map (fun '(a, b) => own a b) (map_to_list m)).

Lemma table_blocks_insert m a b :
  m !! a = None -> Permutation (table_blocks (<[a := b]> m)) (own a b ++ table_blocks m).
Proof.
  intros Hm. unfold table_blocks. by rewrite (map_to_list_insert m a b Hm).
Qed.

Lemma table_blocks_delete m a b :
  m !! a = Some b -> Permutation (table_blocks m) (own a b ++ table_blocks (delete a m)).
Proof.
  intros Hm. rewrite <- table_blocks_insert by apply lookup_delete_eq.
  by rewrite insert_delete_id.
Qed.

Lemma table_blocks_update m a b b' :
  m !! a = Some b -> own a b' = own a b ->
  Permutation (table_blocks (<[a := b']> m)) (table_blocks m).
Proof.
  intros Hm E. rewrite (table_blocks_delete m a b) by done.
  rewrite <- insert_delete_eq, table_blocks_insert by apply lookup_delete_eq. by rewrite E.
Qed.
End Blocks.
