(* ===== verification/Bump.v ===== *)
(** * A heap that only grows

    An allocator of a few lines that satisfies the laws the components rely on,
    with the blocks handed out as a set.  It is where the examples of the other
    files run. *)

From S2P Require Import Prelude.

Abbreviation bump := (Z * gset Z)%type.

#[global] Instance bump_alloc : Allocator bump := {
  kmalloc n := fun '(next, L) =>
    let size := (n + 7) / 8 * 8 in
    if next + size <? 2 ^ 32 then Ret (next, (next + size, {[next]} ∪ L)) else Ret (0, (next, L));
  kfree p := fun '(next, L) => Ret (tt, (next, L ∖ {[p]}));
}.

Definition bump_ok (h : bump) (L : gset Z) : Prop :=
  L = h.2 /\ 0 < h.1 < 2 ^ 32 /\ h.1 mod 8 = 0 /\ set_Forall (fun p => 0 < p < h.1 /\ p mod 8 = 0) h.2.

#[global] Instance bump_laws : AllocatorLaws bump.
Proof.
  refine {| oom_panics := False; heap_ok := bump_ok |}.
  - intros n [next L] ? (-> & Hn & Hm & HL) Hs. simpl in *. unfold wpx, kmalloc, bump_alloc.
    destruct (Z.ltb_spec (next + (n + 7) / 8 * 8) (2 ^ 32)); [right|left; by split_and!].
    assert (next ∉ L) by (intros Hin; specialize (HL _ Hin); simpl in HL; lia). split_and!; [lia|done|].
    unfold bump_ok. simpl. split_and!; [done|..].
    + Z.to_euclidean_division_equations. lia.
    + lia.
    + Z.to_euclidean_division_equations. lia.
    + apply set_Forall_union; [apply set_Forall_singleton|]; [Z.to_euclidean_division_equations; lia|].
      intros p Hp. specialize (HL p Hp). simpl in HL. Z.to_euclidean_division_equations. lia.
  - intros p [next L0] L (E & Hn & Hm & HL) Hp. simpl in *. unfold wpx, bump_ok. simpl. split_and!; try done; try lia.
    + set_solver.
    + intros q Hq. apply HL. set_solver.
Defined.

#[global] Instance bump_aligned : AlignedAlloc bump.
Proof. intros [next L] ? p (-> & Hn & Hm & HL) Hp. specialize (HL p Hp). simpl in *. lia. Qed.
