(* ===== verification/Thread.v ===== *)
(** * Threads, the scheduler and semaphores

    [kern/thread/thread.c], [kern/thread/scheduler.c], the semaphores of
    [kern/thread/synch.c], the spl functions of [kern/arch/mips/mips/spl.c], the
    interrupt path of [mips_trap] and [mips_interrupt], and [md_switch].

    One state [tsys] holds the globals of those files.  A C function that calls
    [mi_switch] is cut at [md_switch]: what is left of it to run is the
    [t_resume] of the thread that was switched out, and [thread_resume] runs
    it when some later [md_switch] picks that thread again.  [curthread] is [0]
    (null) while [scheduler] waits for an interrupt: each iteration of its
    loop is one [idle_interrupt].

    A call is one step up to its context switch.  Where the code runs with
    interrupts on, as [thread_fork] does before its [splhigh] and after its
    [splx], a timer interrupt in the middle is not modelled: what it does there
    is to allocate and free memory, to fill in the structure of a thread that
    no list holds yet, to make a file table and to count a reference. *)

From S2P Require Import Prelude.
From S2P Require Import Array.
From S2P Require Import Queue.

(** What the thread code calls of the VM system, of the VFS and of the file
    tables: each runs on a state of its own. *)
Class ThreadEnv (E : Type) := {
  as_activate : Z -> M E unit;
  as_destroy : Z -> M E unit;
  vop_incref : Z -> M E unit;
  vop_decref : Z -> M E unit;
  ft_create : M E Z;
  lbolt : Z;                    (* the address of the global [lbolt] *)
}.

Definition SPL_HIGH : Z := 15.
Definition STACK_SIZE : Z := 4096.
Definition HZ : Z := 100.
Definition SIZEOF_THREAD : Z := 96.
Definition SIZEOF_SEMAPHORE : Z := 8.

(** What a thread does when it runs next.

    - [RRun]: it is executing code outside this file;
    - [RStart]: it was set up by [md_initpcb] and enters [mi_threadstart];
    - [RYield spl]: it is inside [thread_yield];
    - [RTick spl oldin savespl]: it was interrupted by the timer and is inside
      the [thread_yield] of [hardclock];
    - [RSleep]: it is inside [thread_sleep];
    - [RP sem spl]: it is inside the [thread_sleep] of [P];
    - [RDead]: it is inside [thread_exit]. *)
Inductive resume :=
  | RRun | RStart
  | RYield (spl : Z)
  | RTick (spl oldin savespl : Z)
  | RSleep
  | RP (sem spl : Z)
  | RDead.

Record thread := mkThread {
  t_pcb_ininterrupt : Z;
  t_resume : resume;
  t_name : Z;
  t_namestr : list Z;
  t_sleepaddr : Z;
  t_stack : Z;
  t_canary : list Z;            (* [t_stack[0]] to [t_stack[3]] *)
  t_ft : Z;
  t_vmspace : Z;
  t_cwd : Z;
}.

Record semaphore := mkSem { sem_name : Z; sem_count : Z }.

(** [threadstate_t]; [S_RUN] is never passed to [mi_switch]. *)
Inductive threadstate := S_RUN | S_READY | S_SLEEP | S_ZOMB.

Record tsys (H E : Type) := mkTsys {
  ts_threads : gmap Z thread;
  ts_sems : gmap Z semaphore;
  ts_sleepers : option (array Z);
  ts_zombies : option (array Z);
  ts_runqueue : option (queue Z);
  ts_num : Z;                   (* [numthreads] *)
  ts_cur : Z;                   (* [curthread] *)
  ts_prev : Z;                  (* the local [cur] of the [mi_switch] under way *)
  ts_spl : Z;                   (* [curspl] *)
  ts_inint : Z;                 (* [in_interrupt] *)
  ts_lbolt : Z;                 (* [lbolt_counter] *)
  ts_heap : H;
  ts_env : E;
}.
Arguments mkTsys {H E}.
Arguments ts_threads {H E} _.
Arguments ts_sems {H E} _.
Arguments ts_sleepers {H E} _.
Arguments ts_zombies {H E} _.
Arguments ts_runqueue {H E} _.
Arguments ts_num {H E} _.
Arguments ts_cur {H E} _.
Arguments ts_prev {H E} _.
Arguments ts_spl {H E} _.
Arguments ts_inint {H E} _.
Arguments ts_lbolt {H E} _.
Arguments ts_heap {H E} _.
Arguments ts_env {H E} _.

Section Thread.
Context {H E : Type} `{!Allocator H} `{!ThreadEnv E}.
Implicit Types s : tsys H E.
#[local] Abbreviation T := (tsys H E).

(** ** Access to the state *)

Definition set_threads m s : T := mkTsys m (ts_sems s) (ts_sleepers s) (ts_zombies s) (ts_runqueue s)
  (ts_num s) (ts_cur s) (ts_prev s) (ts_spl s) (ts_inint s) (ts_lbolt s) (ts_heap s) (ts_env s).
Definition set_sems m s : T := mkTsys (ts_threads s) m (ts_sleepers s) (ts_zombies s) (ts_runqueue s)
  (ts_num s) (ts_cur s) (ts_prev s) (ts_spl s) (ts_inint s) (ts_lbolt s) (ts_heap s) (ts_env s).
Definition set_sleepers a s : T := mkTsys (ts_threads s) (ts_sems s) a (ts_zombies s) (ts_runqueue s)
  (ts_num s) (ts_cur s) (ts_prev s) (ts_spl s) (ts_inint s) (ts_lbolt s) (ts_heap s) (ts_env s).
Definition set_zombies a s : T := mkTsys (ts_threads s) (ts_sems s) (ts_sleepers s) a (ts_runqueue s)
  (ts_num s) (ts_cur s) (ts_prev s) (ts_spl s) (ts_inint s) (ts_lbolt s) (ts_heap s) (ts_env s).
Definition set_runqueue q s : T := mkTsys (ts_threads s) (ts_sems s) (ts_sleepers s) (ts_zombies s) q
  (ts_num s) (ts_cur s) (ts_prev s) (ts_spl s) (ts_inint s) (ts_lbolt s) (ts_heap s) (ts_env s).
Definition set_num n s : T := mkTsys (ts_threads s) (ts_sems s) (ts_sleepers s) (ts_zombies s)
  (ts_runqueue s) n (ts_cur s) (ts_prev s) (ts_spl s) (ts_inint s) (ts_lbolt s) (ts_heap s) (ts_env s).
Definition set_cur c s : T := mkTsys (ts_threads s) (ts_sems s) (ts_sleepers s) (ts_zombies s)
  (ts_runqueue s) (ts_num s) c (ts_prev s) (ts_spl s) (ts_inint s) (ts_lbolt s) (ts_heap s) (ts_env s).
Definition set_prev c s : T := mkTsys (ts_threads s) (ts_sems s) (ts_sleepers s) (ts_zombies s)
  (ts_runqueue s) (ts_num s) (ts_cur s) c (ts_spl s) (ts_inint s) (ts_lbolt s) (ts_heap s) (ts_env s).
Definition set_spl x s : T := mkTsys (ts_threads s) (ts_sems s) (ts_sleepers s) (ts_zombies s)
  (ts_runqueue s) (ts_num s) (ts_cur s) (ts_prev s) x (ts_inint s) (ts_lbolt s) (ts_heap s) (ts_env s).
Definition set_inint x s : T := mkTsys (ts_threads s) (ts_sems s) (ts_sleepers s) (ts_zombies s)
  (ts_runqueue s) (ts_num s) (ts_cur s) (ts_prev s) (ts_spl s) x (ts_lbolt s) (ts_heap s) (ts_env s).
Definition set_lbolt x s : T := mkTsys (ts_threads s) (ts_sems s) (ts_sleepers s) (ts_zombies s)
  (ts_runqueue s) (ts_num s) (ts_cur s) (ts_prev s) (ts_spl s) (ts_inint s) x (ts_heap s) (ts_env s).
Definition set_heap h s : T := mkTsys (ts_threads s) (ts_sems s) (ts_sleepers s) (ts_zombies s)
  (ts_runqueue s) (ts_num s) (ts_cur s) (ts_prev s) (ts_spl s) (ts_inint s) (ts_lbolt s) h (ts_env s).
Definition set_env e s : T := mkTsys (ts_threads s) (ts_sems s) (ts_sleepers s) (ts_zombies s)
  (ts_runqueue s) (ts_num s) (ts_cur s) (ts_prev s) (ts_spl s) (ts_inint s) (ts_lbolt s) (ts_heap s) e.

Definition on_heap {A} (m : M H A) : M T A := fun s =>
  let? (a, h) := m (ts_heap s) in Ret (a, set_heap h s).
Definition on_env {A} (m : M E A) : M T A := fun s =>
  let? (a, e) := m (ts_env s) in Ret (a, set_env e s).

(** A pointer that must not be null, or the kernel faults. *)
Definition deref {A} (o : option A) : M T A := lift (match o with Some a => Ret a | None => Stop Fault end).

Definition the_thread (t : Z) : M T thread :=
  let* s := get in deref (ts_threads s !! t).
Definition upd_thread (t : Z) (f : thread -> thread) : M T unit :=
  let* th := the_thread t in
  modify (fun s => set_threads (<[t := f th]> (ts_threads s)) s).
Definition the_sem (a : Z) : M T semaphore :=
  let* s := get in deref (ts_sems s !! a).
Definition the_sleepers : M T (array Z) := let* s := get in deref (ts_sleepers s).
Definition the_zombies : M T (array Z) := let* s := get in deref (ts_zombies s).
Definition the_runqueue : M T (queue Z) := let* s := get in deref (ts_runqueue s).

(** An element of an array of threads: the code dereferences it at once. *)
Definition guy (a : array Z) (i : Z) : M T Z :=
  let* c := lift (array_getguy a i) in deref c.

Definition th_resume (k : resume) (t : thread) : thread :=
  mkThread (t_pcb_ininterrupt t) k (t_name t) (t_namestr t) (t_sleepaddr t) (t_stack t)
    (t_canary t) (t_ft t) (t_vmspace t) (t_cwd t).
Definition th_inint (x : Z) (t : thread) : thread :=
  mkThread x (t_resume t) (t_name t) (t_namestr t) (t_sleepaddr t) (t_stack t)
    (t_canary t) (t_ft t) (t_vmspace t) (t_cwd t).
Definition th_sleepaddr (a : Z) (t : thread) : thread :=
  mkThread (t_pcb_ininterrupt t) (t_resume t) (t_name t) (t_namestr t) a (t_stack t)
    (t_canary t) (t_ft t) (t_vmspace t) (t_cwd t).
Definition th_stack (a : Z) (c : list Z) (t : thread) : thread :=
  mkThread (t_pcb_ininterrupt t) (t_resume t) (t_name t) (t_namestr t) (t_sleepaddr t) a
    c (t_ft t) (t_vmspace t) (t_cwd t).
Definition th_vmspace (a : Z) (t : thread) : thread :=
  mkThread (t_pcb_ininterrupt t) (t_resume t) (t_name t) (t_namestr t) (t_sleepaddr t) (t_stack t)
    (t_canary t) (t_ft t) a (t_cwd t).
Definition th_cwd (a : Z) (t : thread) : thread :=
  mkThread (t_pcb_ininterrupt t) (t_resume t) (t_name t) (t_namestr t) (t_sleepaddr t) (t_stack t)
    (t_canary t) (t_ft t) (t_vmspace t) a.

(** ** spl.c *)

Definition splx (newspl : Z) : M T Z :=
  let* s := get in
  let* _ := modify (set_spl newspl) in
  ret (ts_spl s).
Definition splhigh : M T Z := splx SPL_HIGH.
Definition spl0 : M T Z := splx 0.

(** [assert(curspl>0)] *)
Definition assert_spl : M T unit :=
  let* s := get in kassert (ts_spl s >? 0).

(** ** scheduler.c *)

Definition scheduler_bootstrap : M T unit :=
  let* q := on_heap (q_create 32) in
  match q with
  | None => halt Panic
  | Some q => modify (set_runqueue (Some q))
  end.

Definition scheduler_preallocate (nthreads : Z) : M T Z :=
  let* _ := assert_spl in
  let* q := the_runqueue in
  let* (r, q') := on_heap (q_preallocate q nthreads) in
  let* _ := modify (set_runqueue (Some q')) in
  ret r.

Fixpoint drop_all (fuel : nat) (q : queue Z) : M T (queue Z) :=
  if q_empty q then ret q
  else
    match fuel with
    | O => halt OutOfFuel
    | S f =>
        let* (t, q') := lift (q_remhead q) in
        let* _ := the_thread t in
        drop_all f q'
    end.

Definition scheduler_killall : M T unit :=
  let* _ := assert_spl in
  let* q := the_runqueue in
  let* q' := drop_all (Z.to_nat (q_size q)) q in
  modify (set_runqueue (Some q')).

Definition scheduler_shutdown : M T unit :=
  let* _ := scheduler_killall in
  let* _ := assert_spl in
  let* q := the_runqueue in
  let* _ := on_heap (q_destroy q) in
  modify (set_runqueue None).

(** One pass of the loop of [scheduler]: the next thread to run, or [None]
    where the code goes into [cpu_idle]. *)
Definition scheduler : M T (option Z) :=
  let* _ := assert_spl in
  let* q := the_runqueue in
  if q_empty q then ret None
  else
    let* (t, q') := lift (q_remhead q) in
    let* _ := modify (set_runqueue (Some q')) in
    ret (Some t).

Definition make_runnable (t : Z) : M T Z :=
  let* _ := assert_spl in
  let* q := the_runqueue in
  let* (r, q') := on_heap (q_addtail q t) in
  let* _ := modify (set_runqueue (Some q')) in
  ret r.

(** ** thread.c: creation and disposal *)

(** [kstrdup]: the address of the copy, and the copy. *)
Definition kstrdup (str : list Z) : M H (Z * list Z) :=
  let* z := kmalloc (Z.of_nat (length str) + 1) in
  ret (z, str).

Definition thread_create (name : list Z) : M T Z :=
  let* p := on_heap (kmalloc SIZEOF_THREAD) in
  if p =? 0 then ret 0
  else
    let* (n, str) := on_heap (kstrdup name) in
    if n =? 0 then
      let* _ := on_heap (kfree p) in
      ret 0
    else
      let* ft := on_env ft_create in
      let* _ := modify (fun s =>
        set_threads (<[p := mkThread 0 RRun n str 0 0 [] ft 0 0]> (ts_threads s)) s) in
      ret p.

(** The structure is freed, and nobody may use it any more. *)
Definition free_thread (t : Z) : M T unit :=
  let* _ := on_heap (kfree t) in
  modify (fun s => set_threads (delete t (ts_threads s)) s).

Definition thread_destroy (t : Z) : M T unit :=
  let* s := get in
  let* _ := kassert (negb (t =? ts_cur s)) in
  let* th := the_thread t in
  let* _ := kassert (t_vmspace th =? 0) in
  let* _ := kassert (t_cwd th =? 0) in
  let* _ := (if t_stack th =? 0 then ret tt else on_heap (kfree (t_stack th))) in
  let* _ := on_heap (kfree (t_name th)) in
  free_thread t.

(** [for (i=0; i<array_getnum(zombies); i++)] *)
Fixpoint destroy_all (n : nat) (i : Z) : M T unit :=
  match n with
  | O => ret tt
  | S n' =>
      let* a := the_zombies in
      let* z := guy a i in
      let* s := get in
      let* _ := kassert (negb (z =? ts_cur s)) in
      let* _ := thread_destroy z in
      destroy_all n' (i + 1)
  end.

Definition exorcise : M T unit :=
  let* _ := assert_spl in
  let* a := the_zombies in
  let* _ := destroy_all (Z.to_nat (array_getnum a)) 0 in
  let* (r, a') := on_heap (array_setsize a 0) in
  let* _ := modify (set_zombies (Some a')) in
  kassert (r =? 0).

(** Looks at every sleeper only to print its name. *)
Fixpoint print_sleepers (n : nat) (a : array Z) (i : Z) : M T unit :=
  match n with
  | O => ret tt
  | S n' =>
      let* t := guy a i in
      let* _ := the_thread t in
      print_sleepers n' a (i + 1)
  end.

Definition thread_killall : M T unit :=
  let* _ := assert_spl in
  let* a := the_sleepers in
  let* _ := print_sleepers (Z.to_nat (array_getnum a)) a 0 in
  let* (r, a') := on_heap (array_setsize a 0) in
  let* _ := modify (set_sleepers (Some a')) in
  kassert (r =? 0).

Definition thread_panic : M T unit :=
  let* _ := assert_spl in
  let* _ := thread_killall in
  scheduler_killall.

Definition one_thread_only : M T bool :=
  let* spl := splhigh in
  let* s := get in
  let* _ := splx spl in
  ret (ts_num s =? 1).

Definition BOOT_NAME : list Z := [60; 98; 111; 111; 116; 47; 109; 101; 110; 117; 62].

Definition thread_bootstrap : M T Z :=
  let* a := on_heap array_create in
  match a with
  | None => halt Panic
  | Some a =>
      let* _ := modify (set_sleepers (Some a)) in
      let* z := on_heap array_create in
      match z with
      | None => halt Panic
      | Some z =>
          let* _ := modify (set_zombies (Some z)) in
          let* me := thread_create BOOT_NAME in
          if me =? 0 then halt Panic
          else
            let* _ := modify (set_cur me) in
            let* _ := modify (set_num 1) in
            ret me
      end
  end.

Definition thread_shutdown : M T unit :=
  let* a := the_sleepers in
  let* _ := on_heap (array_destroy a) in
  let* _ := modify (set_sleepers None) in
  let* z := the_zombies in
  let* _ := on_heap (array_destroy z) in
  modify (set_zombies None).

(** ** thread.c: forking *)

Definition CANARY : list Z := [0xae; 0x11; 0xda; 0x33].

(** The part of [thread_fork] with interrupts off: space first, then the
    run queue. *)
Definition fork_enqueue (newguy : Z) : M T Z :=
  let* s := get in
  let n := s32 (ts_num s + 1) in
  let* a := the_sleepers in
  let* (r1, a') := on_heap (array_preallocate a n) in
  let* _ := modify (set_sleepers (Some a')) in
  if negb (r1 =? 0) then ret r1
  else
    let* z := the_zombies in
    let* (r2, z') := on_heap (array_preallocate z n) in
    let* _ := modify (set_zombies (Some z')) in
    if negb (r2 =? 0) then ret r2
    else
      let* r3 := scheduler_preallocate n in
      if negb (r3 =? 0) then ret r3
      else make_runnable newguy.

(** The second half of [thread_fork]: the new thread joins the system, or it is
    taken apart again. *)
Definition fork_finish (newguy : Z) : M T (Z * Z) :=
  let* spl := splhigh in
  let* result := fork_enqueue newguy in
  if result =? 0 then
    let* _ := modify (fun s => set_num (s32 (ts_num s + 1)) s) in
    let* _ := splx spl in
    ret (0, newguy)
  else
    let* _ := splx spl in
    let* th := the_thread newguy in
    let* _ := (if t_cwd th =? 0 then ret tt else on_env (vop_decref (t_cwd th))) in
    let* _ := on_heap (kfree (t_stack th)) in
    let* _ := on_heap (kfree (t_name th)) in
    let* _ := free_thread newguy in
    ret (result, 0).

(** [thread_fork], with the new thread as second result. *)
Definition thread_fork (name : list Z) : M T (Z * Z) :=
  let* newguy := thread_create name in
  if newguy =? 0 then ret (ENOMEM, 0)
  else
    let* stk := on_heap (kmalloc STACK_SIZE) in
    let* th := the_thread newguy in
    if stk =? 0 then
      let* _ := on_heap (kfree (t_name th)) in
      let* _ := free_thread newguy in
      ret (ENOMEM, 0)
    else
      let* _ := upd_thread newguy (th_stack stk CANARY) in
      let* s := get in
      let* cur := the_thread (ts_cur s) in
      let* _ := (if t_cwd cur =? 0 then ret tt
                 else
                   let* _ := on_env (vop_incref (t_cwd cur)) in
                   upd_thread newguy (th_cwd (t_cwd cur))) in
      let* _ := upd_thread newguy (th_resume RStart) in
      fork_finish newguy.

(** ** thread.c: the context switch *)

Definition canary_ok (th : thread) : bool :=
  (t_stack th =? 0) || bool_decide (t_canary th = CANARY).

(** [md_switch(&cur->t_pcb, &next->t_pcb)]: [in_interrupt] is per thread. *)
Definition md_switch (old nu : Z) : M T unit :=
  if old =? nu then ret tt
  else
    let* s := get in
    let* _ := upd_thread old (th_inint (ts_inint s)) in
    let* th := the_thread nu in
    modify (set_inint (t_pcb_ininterrupt th)).

(** [next = scheduler(); curthread = next; md_switch(...)], or nothing when
    there is no thread to run yet. *)
Definition dispatch : M T unit :=
  let* next := scheduler in
  match next with
  | None => ret tt
  | Some t =>
      let* _ := modify (set_cur t) in
      let* s := get in
      md_switch (ts_prev s) t
  end.

(** [result = array_add(sleepers, cur)] and [result = array_add(zombies, cur)] *)
Definition add_sleeper (cur : Z) : M T Z :=
  let* a := the_sleepers in
  let* (r, a') := on_heap (array_add a cur) in
  let* _ := modify (set_sleepers (Some a')) in
  ret r.
Definition add_zombie (cur : Z) : M T Z :=
  let* a := the_zombies in
  let* (r, a') := on_heap (array_add a cur) in
  let* _ := modify (set_zombies (Some a')) in
  ret r.

(** The first half of [mi_switch]; [k] is what the thread has left to do.  The
    answer is [false] when the function returns at once because the
    scheduler is running already. *)
Definition mi_switch (nextstate : threadstate) (k : resume) : M T bool :=
  let* _ := assert_spl in
  let* s := get in
  let cur := ts_cur s in
  if cur =? 0 then ret false
  else
    let* th := the_thread cur in
    let* _ := kassert (canary_ok th) in
    let* _ := modify (set_cur 0) in
    let* _ := modify (set_prev cur) in
    let* _ := upd_thread cur (th_resume k) in
    let* result :=
      (match nextstate with
       | S_READY => make_runnable cur
       | S_SLEEP => add_sleeper cur
       | S_ZOMB => add_zombie cur
       | S_RUN => halt Panic
       end) in
    let* _ := kassert (result =? 0) in
    let* _ := dispatch in
    ret true.

(** The second half of [mi_switch], in the thread switched to. *)
Definition mi_switch_return : M T unit :=
  let* _ := exorcise in
  let* s := get in
  let* th := the_thread (ts_cur s) in
  if t_vmspace th =? 0 then ret tt else on_env (as_activate (t_vmspace th)).

Definition thread_exit : M T unit :=
  let* s := get in
  let* th := the_thread (ts_cur s) in
  let* _ := kassert (canary_ok th) in
  let* _ := splhigh in
  let* _ := (if t_vmspace th =? 0 then ret tt
             else
               let* _ := upd_thread (ts_cur s) (th_vmspace 0) in
               on_env (as_destroy (t_vmspace th))) in
  let* _ := (if t_cwd th =? 0 then ret tt
             else
               let* _ := on_env (vop_decref (t_cwd th)) in
               upd_thread (ts_cur s) (th_cwd 0)) in
  let* s := get in
  let* _ := kassert (ts_num s >? 0) in
  let* _ := modify (set_num (s32 (ts_num s - 1))) in
  let* sw := mi_switch S_ZOMB RDead in
  if sw then ret tt else halt Panic.

(** [thread_yield]; [k] makes the resume point of the caller. *)
Definition thread_yield (k : Z -> resume) : M T bool :=
  let* spl := splhigh in
  let* s := get in
  let* _ := kassert (match ts_sleepers s with Some _ => true | None => false end) in
  let* sw := mi_switch S_READY (k spl) in
  if sw then ret true
  else
    let* _ := splx spl in
    ret false.

Definition thread_sleep (addr : Z) (k : resume) : M T unit :=
  let* s := get in
  let* _ := kassert (ts_inint s =? 0) in
  let* _ := upd_thread (ts_cur s) (th_sleepaddr addr) in
  let* sw := mi_switch S_SLEEP k in
  if sw then ret tt else upd_thread (ts_cur s) (th_sleepaddr 0).

(** [for (i=0; i<array_getnum(sleepers); i++)]: each pass either moves on or
    takes one sleeper out. *)
Fixpoint wakeup_loop (fuel : nat) (addr i : Z) : M T unit :=
  let* a := the_sleepers in
  if i <? array_getnum a then
    match fuel with
    | O => halt OutOfFuel
    | S f =>
        let* t := guy a i in
        let* th := the_thread t in
        if t_sleepaddr th =? addr then
          let* a' := lift (array_remove a i) in
          let* _ := modify (set_sleepers (Some a')) in
          let* result := make_runnable t in
          let* _ := kassert (result =? 0) in
          wakeup_loop f addr i
        else wakeup_loop f addr (i + 1)
    end
  else ret tt.

Definition thread_wakeup (addr : Z) : M T unit :=
  let* _ := assert_spl in
  let* a := the_sleepers in
  wakeup_loop (Z.to_nat (array_getnum a)) addr 0.

Fixpoint hassleepers_loop (n : nat) (a : array Z) (addr i : Z) : M T bool :=
  match n with
  | O => ret false
  | S n' =>
      let* t := guy a i in
      let* th := the_thread t in
      if t_sleepaddr th =? addr then ret true else hassleepers_loop n' a addr (i + 1)
  end.

Definition thread_hassleepers (addr : Z) : M T bool :=
  let* _ := assert_spl in
  let* a := the_sleepers in
  hassleepers_loop (Z.to_nat (array_getnum a)) a addr 0.

(** [mi_threadstart] up to the call of the thread's function. *)
Definition mi_threadstart : M T unit :=
  let* s := get in
  let* th := the_thread (ts_cur s) in
  let* _ := (if t_vmspace th =? 0 then ret tt else on_env (as_activate (t_vmspace th))) in
  let* _ := spl0 in
  ret tt.

(** ** synch.c: semaphores *)

Definition sem_create (name : list Z) (initial_count : Z) : M T Z :=
  let* _ := kassert (0 <=? initial_count) in
  let* p := on_heap (kmalloc SIZEOF_SEMAPHORE) in
  if p =? 0 then ret 0
  else
    let* (n, _) := on_heap (kstrdup name) in
    if n =? 0 then
      let* _ := on_heap (kfree p) in
      ret 0
    else
      let* _ := modify (fun s => set_sems (<[p := mkSem n initial_count]> (ts_sems s)) s) in
      ret p.

Definition sem_destroy (sem : Z) : M T unit :=
  let* _ := kassert (negb (sem =? 0)) in
  let* spl := splhigh in
  let* b := thread_hassleepers sem in
  let* _ := kassert (negb b) in
  let* _ := splx spl in
  let* sm := the_sem sem in
  let* _ := on_heap (kfree (sem_name sm)) in
  let* _ := on_heap (kfree sem) in
  modify (fun s => set_sems (delete sem (ts_sems s)) s).

Definition set_count (sem c : Z) : M T unit :=
  let* sm := the_sem sem in
  modify (fun s => set_sems (<[sem := mkSem (sem_name sm) c]> (ts_sems s)) s).

(** [while (sem->count==0) thread_sleep(sem);] and what follows it; the answer
    says whether the semaphore was taken or the thread went to sleep. *)
Definition P_loop (sem spl : Z) : M T bool :=
  let* sm := the_sem sem in
  if sem_count sm =? 0 then
    let* _ := thread_sleep sem (RP sem spl) in
    ret false
  else
    let* _ := kassert (sem_count sm >? 0) in
    let* _ := set_count sem (s32 (sem_count sm - 1)) in
    let* _ := splx spl in
    ret true.

Definition P (sem : Z) : M T bool :=
  let* _ := kassert (negb (sem =? 0)) in
  let* s := get in
  let* _ := kassert (ts_inint s =? 0) in
  let* spl := splhigh in
  P_loop sem spl.

Definition V (sem : Z) : M T unit :=
  let* _ := kassert (negb (sem =? 0)) in
  let* spl := splhigh in
  let* sm := the_sem sem in
  let c := s32 (sem_count sm + 1) in
  let* _ := set_count sem c in
  let* _ := kassert (c >? 0) in
  let* _ := thread_wakeup sem in
  let* _ := splx spl in
  ret tt.

(** ** Interrupts: mips_trap, mips_interrupt and hardclock *)

(** [lbolt_counter++], and a wakeup on [lbolt] once a second. *)
Definition lbolt_tick : M T unit :=
  let* s := get in
  let* _ := modify (set_lbolt (s32 (ts_lbolt s + 1))) in
  if HZ <=? s32 (ts_lbolt s + 1) then
    let* _ := modify (set_lbolt 0) in
    thread_wakeup lbolt
  else ret tt.

Definition hardclock (k : Z -> resume) : M T bool :=
  let* _ := lbolt_tick in
  thread_yield k.

(** The interrupts of the system: the timer, and a device whose handler
    signals a semaphore. *)
Inductive irq := IrqTimer | IrqDevice (sem : Z).

(** What is left of [mips_interrupt] and [mips_trap] after the handler. *)
Definition interrupt_return (oldin savespl : Z) : M T unit :=
  let* _ := modify (set_inint oldin) in
  let* _ := splhigh in
  modify (set_spl savespl).

Definition interrupt (i : irq) : M T unit :=
  let* s := get in
  let savespl := ts_spl s in
  let oldin := ts_inint s in
  let* _ := modify (set_spl SPL_HIGH) in
  let* _ := modify (set_inint 1) in
  let* _ := assert_spl in
  let* sw := (match i with
              | IrqTimer => hardclock (fun spl => RTick spl oldin savespl)
              | IrqDevice sem => let* _ := V sem in ret false
              end) in
  if sw then ret tt else interrupt_return oldin savespl.

(** [cpu_idle] takes one interrupt, and [scheduler] looks again. *)
Definition idle_interrupt (i : irq) : M T unit :=
  let* _ := assert_spl in
  let* _ := interrupt i in
  dispatch.

(** ** The thread that was switched to goes on *)

(** The answer is the semaphore just taken, if any. *)
Definition thread_resume : M T (option Z) :=
  let* s := get in
  let* th := the_thread (ts_cur s) in
  let* _ := upd_thread (ts_cur s) (th_resume RRun) in
  match t_resume th with
  | RRun => ret None
  | RStart =>
      let* _ := mi_threadstart in
      ret None
  | RYield spl =>
      let* _ := mi_switch_return in
      let* _ := splx spl in
      ret None
  | RTick spl oldin savespl =>
      let* _ := mi_switch_return in
      let* _ := splx spl in
      let* _ := interrupt_return oldin savespl in
      ret None
  | RSleep =>
      let* _ := mi_switch_return in
      let* _ := upd_thread (ts_cur s) (th_sleepaddr 0) in
      ret None
  | RP sem spl =>
      let* _ := mi_switch_return in
      let* _ := upd_thread (ts_cur s) (th_sleepaddr 0) in
      let* b := P_loop sem spl in
      ret (if b then Some sem else None)
  | RDead => halt Panic
  end.

(** ** The steps of the system *)

Inductive action :=
  | AFork (name : list Z)
  | AYield
  | ASleep (addr : Z)
  | AWakeup (addr : Z)
  | AExit
  | AP (sem : Z)
  | AV (sem : Z)
  | AInterrupt (i : irq)        (* while a thread runs *)
  | AIdle (i : irq)             (* while the scheduler waits *)
  | AResume.

Inductive event := Acquired (sem : Z) | Released (sem : Z).

(** One step, and what it did to the semaphores. *)
Definition run_action (a : action) : M T (list event) :=
  match a with
  | AFork name => let* _ := thread_fork name in ret []
  | AYield => let* _ := thread_yield RYield in ret []
  | ASleep addr => let* _ := thread_sleep addr RSleep in ret []
  | AWakeup addr => let* _ := thread_wakeup addr in ret []
  | AExit => let* _ := thread_exit in ret []
  | AP sem => let* b := P sem in ret (if b then [Acquired sem] else [])
  | AV sem => let* _ := V sem in ret [Released sem]
  | AInterrupt i =>
      let* _ := interrupt i in
      ret (match i with IrqDevice sem => [Released sem] | IrqTimer => [] end)
  | AIdle i =>
      let* _ := idle_interrupt i in
      ret (match i with IrqDevice sem => [Released sem] | IrqTimer => [] end)
  | AResume =>
      let* o := thread_resume in
      ret (match o with Some sem => [Acquired sem] | None => [] end)
  end.
End Thread.
