(* ===== verification/ThreadFork.v ===== *)
(** * What a new thread is given

    [thread_fork] calls the file tables and the VFS layer: what it leaves in
    their state, and what of it the new thread holds.  [ThreadProof.v] only
    needs that these calls return; here they are followed one by one. *)

From S2P Require Import Prelude.
From S2P Require Import Array.
From S2P Require Import Queue.
From S2P Require Import Thread.

Section Fork.
Context {H W : Type} `{!Allocator H} `{!ThreadEnv W}.
Implicit Types s : tsys H W.

(** Code that leaves the threads and the other parts of the kernel alone. *)
Definition aside {A} (m : M (tsys H W) A) : Prop := forall s a s',
  m s = Ret (a, s') -> ts_env s' = ts_env s /\ ts_threads s' = ts_threads s /\ ts_cur s' = ts_cur s.

Lemma aside_ret {A} (a : A) : aside (ret a).
Proof. by intros s a' s' [= <- <-]. Qed.

Lemma aside_bind {A B} (m : M (tsys H W) A) (k : A -> M (tsys H W) B) :
  aside m -> (forall a, aside (k a)) -> aside (bind m k).
Proof.
  intros Hm Hk s b s' (a & s1 & E1 & E2)%bind_inv. destruct (Hm _ _ _ E1) as (? & ? & ?).
  destruct (Hk _ _ _ _ E2) as (? & ? & ?). split_and!; congruence.
Qed.

Lemma aside_on_heap {A} (m : M H A) : aside (on_heap m).
Proof. intros s a s'. unfold on_heap. destruct (m (ts_heap s)) as [[x h]|]; [|done]. by intros [= _ <-]. Qed.

Lemma aside_lift {A} (x : res A) : aside (lift x).
Proof. intros s a s'. unfold lift. destruct x; [|done]. by intros [= _ <-]. Qed.

Lemma aside_get : aside get.
Proof. by intros s a s' [= _ <-]. Qed.

Lemma aside_modify f :
  (forall s, ts_env (f s) = ts_env s /\ ts_threads (f s) = ts_threads s /\ ts_cur (f s) = ts_cur s) -> aside (modify f).
Proof. intros Hf s a s' [= _ <-]. apply Hf. Qed.

Ltac look_aside :=
  repeat match goal with
  | |- aside (ret _) => apply aside_ret
  | |- aside (bind _ _) => apply aside_bind; [|intros ?]
  | |- aside (on_heap _) => apply aside_on_heap
  | |- aside (lift _) => apply aside_lift
  | |- aside get => apply aside_get
  | |- aside (modify _) => apply aside_modify; done
  | |- aside (match ?x with _ => _ end) => destruct x
  end.

Lemma splx_aside x : aside (splx x).
Proof. unfold splx. look_aside. Qed.

Lemma fork_enqueue_aside t : aside (fork_enqueue t).
Proof.
  unfold fork_enqueue, the_sleepers, the_zombies, scheduler_preallocate, make_runnable, assert_spl, the_runqueue, deref, kassert.
  look_aside.
Qed.

Lemma the_thread_inv t s th s' : the_thread t s = Ret (th, s') -> ts_threads s !! t = Some th /\ s' = s.
Proof.
  unfold the_thread, deref. intros (x & s1 & [= <- <-] & E2)%bind_inv. unfold lift in E2.
  destruct (ts_threads s !! t); [|done]. by simplify_eq.
Qed.

Lemma upd_thread_inv t f s u s' : upd_thread t f s = Ret (u, s') ->
  exists th, ts_threads s !! t = Some th /\ s' = set_threads (<[t := f th]> (ts_threads s)) s.
Proof. intros (th & s1 & [Ht ->]%the_thread_inv & [= _ <-])%bind_inv. by exists th. Qed.

Lemma on_env_inv {A} (m : M W A) s a s' : on_env m s = Ret (a, s') -> exists e, m (ts_env s) = Ret (a, e) /\ s' = set_env e s.
Proof. unfold on_env. destruct (m (ts_env s)) as [[x e]|]; [|done]. intros [= <- <-]. by exists e. Qed.

(** The memory of a thread is freed: the state of the others is not touched. *)
Lemma free_thread_env t s u s' : free_thread t s = Ret (u, s') -> ts_env s' = ts_env s.
Proof.
  intros (x & s1 & E1 & [= _ <-])%bind_inv. by destruct (aside_on_heap _ _ _ _ E1) as [? _].
Qed.

Lemma thread_create_inv name s t s' :
  thread_create name s = Ret (t, s') ->
  ts_cur s' = ts_cur s /\
  ((t = 0 /\ ts_env s' = ts_env s) \/
   (t <> 0 /\ exists n ft, ft_create (ts_env s) = Ret (ft, ts_env s') /\
      ts_threads s' = <[t := mkThread 0 RRun n name 0 0 [] ft 0 0]> (ts_threads s))).
Proof.
  intros (p & s1 & E1 & E)%bind_inv. destruct (aside_on_heap _ _ _ _ E1) as (He1 & Ht1 & Hc1).
  destruct (Z.eqb_spec p 0) as [->|Hp]; [injection E as <- <-; by auto|].
  apply bind_inv in E as ([n str] & s2 & E2 & E). destruct (aside_on_heap _ _ _ _ E2) as (He2 & Ht2 & Hc2).
  assert (str = name) as ->.
  { unfold on_heap, kstrdup in E2. unfold bind in E2. destruct (kmalloc _ _) as [[z h]|]; [|done]. cbn in E2. by simplify_eq. }
  destruct (Z.eqb_spec n 0).
  - apply bind_inv in E as (x & s3 & E3 & E). injection E as <- <-.
    destruct (aside_on_heap _ _ _ _ E3) as (He3 & Ht3 & Hc3). split; [congruence|]. left. split; [done|congruence].
  - apply bind_inv in E as (ft & s3 & E3 & E). apply on_env_inv in E3 as (e & E3 & ->).
    apply bind_inv in E as (x & s4 & [= _ <-] & [= <- <-]). split; [cbn; congruence|]. right. split; [done|].
    exists n, ft. rewrite He2, He1 in E3. split; [exact E3|]. cbn. by rewrite Ht2, Ht1.
Qed.

(** What the file tables and the VFS layer went through for a fork in [s] by
    a thread with the current directory [cwd]: nothing, if it failed at once;
    a file table [ft], which a failure does not take back; and a reference to
    the directory, which it does. *)
Inductive fork_env (cwd : Z) (e : W) : Z -> Z -> W -> Prop :=
  | env_none : fork_env cwd e ENOMEM 0 e
  | env_table r ft e1 : ft_create e = Ret (ft, e1) -> r <> 0 \/ cwd = 0 -> fork_env cwd e r ft e1
  | env_shared ft e1 e2 :
      ft_create e = Ret (ft, e1) -> cwd <> 0 -> vop_incref cwd e1 = Ret (tt, e2) -> fork_env cwd e 0 ft e2
  | env_undone r ft e1 e2 e3 :
      ft_create e = Ret (ft, e1) -> cwd <> 0 -> r <> 0 -> vop_incref cwd e1 = Ret (tt, e2) ->
      vop_decref cwd e2 = Ret (tt, e3) -> fork_env cwd e r ft e3.

(** What the thread that comes out of it holds. *)
Definition given name cwd ft (th : thread) : Prop :=
  t_namestr th = name /\ t_cwd th = cwd /\ t_ft th = ft.

Lemma fork_finish_inv t s r t' s' th :
  ts_threads s !! t = Some th -> fork_finish t s = Ret ((r, t'), s') ->
  (r = 0 /\ t' = t /\ ts_env s' = ts_env s /\ ts_threads s' !! t = Some th) \/
  (r <> 0 /\ (if t_cwd th =? 0 then ts_env s' = ts_env s
              else exists e, vop_decref (t_cwd th) (ts_env s) = Ret (tt, e) /\ ts_env s' = e)).
Proof.
  intros Hth (spl & s1 & E1 & E)%bind_inv. destruct (splx_aside _ _ _ _ E1) as (He1 & Ht1 & _).
  apply bind_inv in E as (result & s2 & E2 & E). destruct (fork_enqueue_aside _ _ _ _ E2) as (He2 & Ht2 & _).
  destruct (Z.eqb_spec result 0) as [->|Hr].
  - apply bind_inv in E as (x & s3 & [= _ <-] & E). apply bind_inv in E as (y & s4 & E4 & [= <- <- <-]).
    destruct (splx_aside _ _ _ _ E4) as (He4 & Ht4 & _). cbn in He4, Ht4. left. split_and!; [done|done|congruence|].
    by rewrite Ht4, Ht2, Ht1.
  - apply bind_inv in E as (y & s4 & E4 & E). destruct (splx_aside _ _ _ _ E4) as (He4 & Ht4 & _).
    apply bind_inv in E as (th' & s5 & [Hth' ->]%the_thread_inv & E). rewrite Ht4, Ht2, Ht1, Hth in Hth'. simplify_eq Hth'; intros <-.
    apply bind_inv in E as (z & s6 & E6 & E). apply bind_inv in E as (? & s7 & E7 & E). apply bind_inv in E as (? & s8 & E8 & E).
    apply bind_inv in E as (? & s9 & E9 & [= <- _ <-]).
    destruct (aside_on_heap _ _ _ _ E7) as [He7 _]. destruct (aside_on_heap _ _ _ _ E8) as [He8 _].
    pose proof (free_thread_env _ _ _ _ E9) as He9. right. split; [done|]. destruct (t_cwd th =? 0).
    + injection E6 as _ <-. congruence.
    + apply on_env_inv in E6 as (e & E6 & ->). destruct z. exists e. split; [congruence|]. cbn in He7. congruence.
Qed.

Lemma thread_fork_inv name s cur r t s' :
  ts_threads s !! ts_cur s = Some cur ->
  (forall t s1, thread_create name s = Ret (t, s1) -> t <> 0 -> t <> ts_cur s) ->
  thread_fork name s = Ret ((r, t), s') ->
  exists ft, fork_env (t_cwd cur) (ts_env s) r ft (ts_env s') /\
    (r = 0 -> exists th, ts_threads s' !! t = Some th /\ given name (t_cwd cur) ft th).
Proof.
  intros Hcur Hfresh (p & s1 & E1 & E)%bind_inv. specialize (Hfresh _ _ E1).
  apply thread_create_inv in E1 as [Hc1 [[-> He1]|(Hp & n & ft & Eft & Ht1)]].
  { injection E as <- <- <-. exists 0. rewrite He1. split; [constructor | done]. }
  specialize (Hfresh Hp). rewrite (proj2 (Z.eqb_neq p 0) Hp) in E. exists ft.
  apply bind_inv in E as (stk & s2 & E2 & E). destruct (aside_on_heap _ _ _ _ E2) as (He2 & Ht2 & Hc2).
  apply bind_inv in E as (th & s3 & [Hth ->]%the_thread_inv & E). destruct (Z.eqb_spec stk 0) as [_|Hstk].
  { apply bind_inv in E as (x & s4 & E4 & E). apply bind_inv in E as (y & s5 & E5 & [= <- <- <-]).
    destruct (aside_on_heap _ _ _ _ E4) as (He4 & _). pose proof (free_thread_env _ _ _ _ E5) as He5.
    rewrite He5, He4, He2. split; [apply env_table; [done | by left] | done]. }
  apply bind_inv in E as (x & s4 & (th4 & Hth4 & ->)%upd_thread_inv & E). apply bind_inv in E as (y & s5 & [= <- <-] & E).
  apply bind_inv in E as (cur' & s6 & [Hcur' ->]%the_thread_inv & E). cbn [ts_threads set_threads ts_cur] in Hcur'.
  rewrite Hc2, Hc1, Ht2, Ht1, !lookup_insert_ne, Hcur in Hcur' by done. simplify_eq Hcur'; intros <-.
  rewrite Ht2, Ht1, lookup_insert_eq in Hth4. simplify_eq Hth4; intros <-.
  apply bind_inv in E as (z & s7 & E7 & E). apply bind_inv in E as (w & s8 & (th8 & Hth8 & ->)%upd_thread_inv & E).
  eapply fork_finish_inv in E; [|apply lookup_insert_eq]. cbn [ts_env set_threads] in E.
  assert (t_namestr th8 = name /\ t_cwd th8 = t_cwd cur /\ t_ft th8 = ft /\
    if t_cwd cur =? 0 then ts_env s7 = ts_env s1 else vop_incref (t_cwd cur) (ts_env s1) = Ret (tt, ts_env s7)) as (Hn8 & Hc8 & Hf8 & He7).
  { destruct (Z.eqb_spec (t_cwd cur) 0) as [Hcw|Hcw].
    - injection E7 as _ <-. cbn in Hth8. rewrite lookup_insert_eq in Hth8. simplify_eq Hth8; intros <-. by rewrite Hcw.
    - apply bind_inv in E7 as ([] & s9 & (e & Ee & ->)%on_env_inv & (th9 & Hth9 & ->)%upd_thread_inv). cbn in *.
      rewrite lookup_insert_eq in Hth9. simplify_eq Hth9; intros <-. rewrite lookup_insert_eq in Hth8.
      simplify_eq Hth8; intros <-. by rewrite <- He2. }
  cbn [t_cwd th_resume] in E. rewrite Hc8 in E. destruct E as [(-> & -> & He & Ht')|[Hr He]].
  - rewrite He. split; [|intros _; eexists; split; [exact Ht'|done]]. destruct (Z.eqb_spec (t_cwd cur) 0).
    + rewrite He7. apply env_table; [done | by right].
    + by eapply env_shared.
  - split; [|done]. destruct (Z.eqb_spec (t_cwd cur) 0).
    + rewrite He, He7. apply env_table; [done | by right].
    + destruct He as (e & Ed & ->). by eapply env_undone.
Qed.
End Fork.
