(* ===== verification/ThreadProof.v ===== *)
(** * The thread system is sound

    [store_ok] relates the arrays, the ring and the heap of the thread system
    to three lists of threads (runnable, asleep, dead); [threads_ok] is the
    invariant of the system on top of it.  Each function gets a contract over
    the lists, each action of [Thread.v] keeps the invariant, and the
    properties at the end follow by induction over executions.

    The contracts allow a panic only when the allocator panics or refuses a
    request ([may_panic]): an assertion that fails for any other reason would
    break them. *)

From S2P Require Import Prelude.
From S2P Require Import Array.
From S2P Require Import Queue.
From S2P Require Import Own.
From S2P Require Import Thread.

(** The calls into other parts of the kernel return. *)
Class ThreadEnvLaws (E : Type) `{!ThreadEnv E} := {
  env_ok : E -> Prop;
  as_activate_law a e : env_ok e -> wp (as_activate a) e (fun _ e' => env_ok e');
  as_destroy_law a e : env_ok e -> wp (as_destroy a) e (fun _ e' => env_ok e');
  vop_incref_law v e : env_ok e -> wp (vop_incref v) e (fun _ e' => env_ok e');
  vop_decref_law v e : env_ok e -> wp (vop_decref v) e (fun _ e' => env_ok e');
  ft_create_law e : env_ok e -> wp ft_create e (fun _ e' => env_ok e');
}.

(** More threads than memory has room for: each owns a stack of a page. *)
Definition MAXT : Z := 2 ^ 20.

Definition thread_own (t : Z) (th : thread) : list Z :=
  t :: t_name th :: (if t_stack th =? 0 then [] else [t_stack th]).
Definition sem_own (a : Z) (sm : semaphore) : list Z := [a; sem_name sm].

Section Proof.
Context {H E : Type} `{AllocatorLaws H} `{ThreadEnvLaws E}.
Implicit Types s : tsys H E.
Context (R : gset Z).

Definition may_panic : Prop := oom_panics \/ alloc_fails.

(** ** Rules for the state monad of the thread system *)

Lemma wp_on_heap {A} p (m : M H A) s Q :
  wpo p m (ts_heap s) (fun a h => Q a (set_heap h s)) -> wpo p (on_heap m) s Q.
Proof. unfold wpx, on_heap. destruct (m (ts_heap s)) as [[a h]|w]; simpl; done. Qed.

Lemma wp_on_env {A} p (m : M E A) s Q :
  wpo p m (ts_env s) (fun a e => Q a (set_env e s)) -> wpo p (on_env m) s Q.
Proof. unfold wpx, on_env. destruct (m (ts_env s)) as [[a h]|w]; simpl; done. Qed.

Lemma wp_oom {A} (m : M H A) h Q : wpo oom_panics m h Q -> wpo may_panic m h Q.
Proof. intros W. eapply wp_weaken; [exact W|]. by left. Qed.

Lemma wp_deref {A} p (o : option A) a s (Q : A -> tsys H E -> Prop) :
  o = Some a -> Q a s -> wpo p (deref o) s Q.
Proof. by intros ->. Qed.

Lemma wp_the_thread p t th s Q :
  ts_threads s !! t = Some th -> Q th s -> wpo p (the_thread t) s Q.
Proof. intros Ht HQ. unfold the_thread. wp_steps. by eapply wp_deref. Qed.

Lemma wp_upd_thread p t th f s Q :
  ts_threads s !! t = Some th ->
  Q tt (set_threads (<[t := f th]> (ts_threads s)) s) -> wpo p (upd_thread t f) s Q.
Proof. intros Ht HQ. unfold upd_thread. wp_step. eapply wp_the_thread; [done|]. by wp_step. Qed.

Lemma wp_assert_spl p s (Q : unit -> tsys H E -> Prop) :
  ts_spl s > 0 -> Q tt s -> wpo p assert_spl s Q.
Proof. intros Hs HQ. unfold assert_spl. wp_step. wp_step. by wp_step. Qed.

Lemma wp_splx p x s (Q : Z -> tsys H E -> Prop) :
  Q (ts_spl s) (set_spl x s) -> wpo p (splx x) s Q.
Proof. intros HQ. unfold splx. wp_steps. done. Qed.

(** ** The store *)

Definition blocks s (aS aZ : array Z) (q : queue Z) : list Z :=
  array_blocks aS ++ array_blocks aZ ++ queue_blocks q ++
  table_blocks thread_own (ts_threads s) ++ table_blocks sem_own (ts_sems s).

(** The run queue, the sleepers and the zombies hold the given threads, and
    the thread system owns the memory of exactly these structures, of the
    threads, of the semaphores and of the blocks [X] under construction. *)
Definition store_plus (X : list Z) s (rl sl zl : list Z) : Prop :=
  exists aS aZ q,
    ts_sleepers s = Some aS /\ ts_zombies s = Some aZ /\ ts_runqueue s = Some q /\
    array_wf aS /\ contents aS = map Some sl /\
    array_wf aZ /\ contents aZ = map Some zl /\
    q_wf q /\ q_holds q rl /\ q_size q <= 4 * MAXT /\
    owns (ts_heap s) (X ++ blocks s aS aZ q) R /\ env_ok (ts_env s).

Abbreviation store_ok := (store_plus []).

(** Room reserved for sleepers. *)
Definition reserve s : Z := match ts_sleepers s with Some a => arr_max a | None => 0 end.

(** What a step on the store leaves alone. *)
Definition keep s s' : Prop :=
  ts_sems s' = ts_sems s /\ ts_num s' = ts_num s /\
  ts_cur s' = ts_cur s /\ ts_prev s' = ts_prev s /\ ts_spl s' = ts_spl s /\
  ts_inint s' = ts_inint s /\ ts_lbolt s' = ts_lbolt s /\ reserve s <= reserve s'.
Definition frame s s' : Prop := ts_threads s' = ts_threads s /\ keep s s'.

Ltac solve_keep :=
  unfold frame, keep, reserve in *; simpl in *; destruct_and?;
  repeat match goal with
    | Es : ts_sleepers ?s = Some _ |- context [ts_sleepers ?s] => rewrite Es
    end;
  simpl; split_and?; congruence || lia.

Lemma frame_refl s : frame s s.
Proof. unfold frame, keep. split_and!; done || lia. Qed.

Lemma frame_trans s1 s2 s3 : frame s1 s2 -> frame s2 s3 -> frame s1 s3.
Proof. unfold frame, keep. intros; destruct_and!. split_and!; congruence || lia. Qed.

(** The store does not depend on the scalar fields. *)
Lemma store_scalars X s s' rl sl zl :
  ts_threads s' = ts_threads s -> ts_sems s' = ts_sems s ->
  ts_sleepers s' = ts_sleepers s -> ts_zombies s' = ts_zombies s ->
  ts_runqueue s' = ts_runqueue s -> ts_heap s' = ts_heap s -> ts_env s' = ts_env s ->
  store_plus X s rl sl zl -> store_plus X s' rl sl zl.
Proof.
  intros E1 E2 E3 E4 E5 E6 E7. unfold store_plus, blocks. by rewrite E1, E2, E3, E4, E5, E6, E7.
Qed.

Lemma contents_num (a : array Z) l :
  array_wf a -> contents a = map Some l -> arr_num a = Z.of_nat (length l).
Proof. intros Hw Hc. rewrite <- (contents_length a Hw), Hc, length_map. done. Qed.

Lemma make_runnable_wp s rl sl zl t :
  store_ok s rl sl zl -> ts_spl s > 0 -> Z.of_nat (length rl) < MAXT ->
  wpo may_panic (make_runnable t) s (fun r s' =>
    frame s s' /\
    ((r = 0 /\ store_ok s' (rl ++ [t]) sl zl) \/
     (r = ENOMEM /\ alloc_fails /\ store_ok s' rl sl zl))).
Proof.
  intros (aS & aZ & q & ES & EZ & EQ & WS & CS & WZ & CZ & Wq & Hq & Hb & Ho & He) Hs Hl.
  unfold make_runnable. wp_step. apply wp_assert_spl; [done|]. wp_step.
  unfold the_runqueue. wp_steps. eapply wp_deref; [done|]. wp_step.
  apply wp_on_heap, wp_oom. eapply wp_mono.
  - apply (q_addtail_own q rl t _
             (array_blocks aS ++ array_blocks aZ ++ table_blocks thread_own (ts_threads s) ++
              table_blocks sem_own (ts_sems s)) R); [|done|done|unfold MAXT in *; lia].
    eapply owns_move; [done|]. unfold blocks. solve_blocks.
  - intros [r q'] h' (Wq' & Ho' & Hr). wp_step. wp_step. wp_step.
    assert (forall rl', q_holds q' rl' -> q_size q' <= 4 * MAXT ->
      store_ok (set_runqueue (Some q') (set_heap h' s)) rl' sl zl) as K.
    { intros rl' ? ?. exists aS, aZ, q'. split_and!; try done. simpl.
      eapply owns_move; [done|]. unfold blocks; simpl. solve_blocks. }
    split; [unfold frame, keep, reserve; simpl; split_and!; done || lia|].
    destruct Hr as [(-> & Hq' & Hsz)|(-> & ? & ->)].
    + left. split; [done|]. apply K; [done|unfold MAXT in *; lia].
    + right. split_and!; auto.
Qed.

(** Replacing the array of sleepers, of zombies, or the queue, keeps the rest. *)
Definition but_sleepers s (aZ : array Z) (q : queue Z) : list Z :=
  array_blocks aZ ++ queue_blocks q ++
  table_blocks thread_own (ts_threads s) ++ table_blocks sem_own (ts_sems s).
Definition but_zombies s (aS : array Z) (q : queue Z) : list Z :=
  array_blocks aS ++ queue_blocks q ++
  table_blocks thread_own (ts_threads s) ++ table_blocks sem_own (ts_sems s).

Lemma blocks_zombies s aS aZ q :
  Permutation (blocks s aS aZ q) (array_blocks aZ ++ but_zombies s aS q).
Proof. unfold blocks, but_zombies. solve_blocks. Qed.

Lemma add_sleeper_wp s rl sl zl t :
  store_ok s rl sl zl -> Z.of_nat (length sl) < MAXT ->
  wpo may_panic (add_sleeper t) s (fun r s' =>
    frame s s' /\
    ((r = 0 /\ store_ok s' rl (sl ++ [t]) zl) \/
     (r = ENOMEM /\ alloc_fails /\ store_ok s' rl sl zl))).
Proof.
  intros (aS & aZ & q & ES & EZ & EQ & WS & CS & WZ & CZ & Wq & Hq & Hb & Ho & He) Hl.
  unfold add_sleeper. wp_step. unfold the_sleepers. wp_steps. eapply wp_deref; [done|].
  wp_step. apply wp_on_heap, wp_oom. eapply wp_mono.
  - apply (array_add_own aS t _ (but_sleepers s aZ q) R); [done|done|].
    rewrite (contents_num _ _ WS CS). unfold MAXT, MAXGUYS in *. lia.
  - intros [r a'] h' (Wa & Ho' & Hr). wp_step. wp_step. wp_step.
    unfold frame, keep, reserve. rewrite ES; simpl.
    destruct Hr as [(-> & Hc & Hm)|(-> & ? & ->)].
    + split; [split_and!; done || lia|]. left. split; [done|]. exists a', aZ, q.
      split_and!; try done. rewrite map_app. simpl. by rewrite Hc, CS.
    + split; [split_and!; done || lia|]. right. split_and!; [done|done|]. by exists aS, aZ, q.
Qed.

(** With room reserved, going to sleep does not use the heap. *)
Lemma add_sleeper_room s rl sl zl t :
  store_ok s rl sl zl -> Z.of_nat (length sl) < MAXT -> Z.of_nat (length sl) < reserve s ->
  exists a', add_sleeper t s = Ret (0, set_sleepers (Some a') s) /\
    store_ok (set_sleepers (Some a') s) rl (sl ++ [t]) zl /\ arr_max a' = reserve s.
Proof.
  intros (aS & aZ & q & ES & EZ & EQ & WS & CS & WZ & CZ & Wq & Hq & Hb & Ho & He) Hl Hr.
  unfold reserve in *. rewrite ES in *. pose proof (contents_num _ _ WS CS) as Hn.
  destruct (array_add_room_own aS t (ts_heap s) (but_sleepers s aZ q) R)
    as (a' & Ea & Wa & Ho' & Hm & Hc); [done|done|unfold MAXT, MAXGUYS in *; lia|lia|].
  exists a'. split_and!; [|exists a', aZ, q; split_and!; try done|done].
  - unfold add_sleeper, the_sleepers, deref, on_heap, bind, get, modify, ret, lift.
    rewrite ES; simpl. rewrite Ea; simpl. by destruct s.
  - rewrite map_app. simpl. by rewrite Hc, CS.
Qed.

Lemma add_zombie_wp s rl sl zl t :
  store_ok s rl sl zl -> Z.of_nat (length zl) < MAXT ->
  wpo may_panic (add_zombie t) s (fun r s' =>
    frame s s' /\
    ((r = 0 /\ store_ok s' rl sl (zl ++ [t])) \/
     (r = ENOMEM /\ alloc_fails /\ store_ok s' rl sl zl))).
Proof.
  intros (aS & aZ & q & ES & EZ & EQ & WS & CS & WZ & CZ & Wq & Hq & Hb & Ho & He) Hl.
  unfold add_zombie. wp_step. unfold the_zombies. wp_steps. eapply wp_deref; [done|].
  wp_step. apply wp_on_heap, wp_oom. cbn [app] in Ho. rewrite blocks_zombies in Ho. eapply wp_mono.
  - apply (array_add_own aZ t _ (but_zombies s aS q) R); [done|done|].
    rewrite (contents_num _ _ WZ CZ). unfold MAXT, MAXGUYS in *. lia.
  - intros [r a'] h' (Wa & Ho' & Hr). wp_step. wp_step. wp_step.
    split; [unfold frame, keep, reserve; simpl; split_and!; done || lia|].
    destruct Hr as [(-> & Hc & Hm)|(-> & ? & ->)].
    + left. split; [done|]. exists aS, a', q. split_and!; try done.
      * rewrite map_app. simpl. by rewrite Hc, CZ.
      * cbn [app]. by rewrite blocks_zombies.
    + right. split_and!; [done|done|]. exists aS, aZ, q. split_and!; try done.
      cbn [app]. by rewrite blocks_zombies.
Qed.

(** One look of the scheduler at the run queue. *)
Lemma scheduler_wp s rl sl zl :
  store_ok s rl sl zl -> ts_spl s > 0 ->
  wp scheduler s (fun o s' =>
    frame s s' /\ ts_heap s' = ts_heap s /\
    match rl with
    | [] => o = None /\ s' = s
    | t :: rl' => o = Some t /\ store_ok s' rl' sl zl
    end).
Proof.
  intros (aS & aZ & q & ES & EZ & EQ & WS & CS & WZ & CZ & Wq & Hq & Hb & Ho & He) Hs.
  unfold scheduler. wp_step. apply wp_assert_spl; [done|]. wp_step.
  unfold the_runqueue. wp_steps. eapply wp_deref; [done|].
  rewrite (q_empty_spec q rl Wq Hq). destruct rl as [|t rl'].
  - wp_step. split_and!; [apply frame_refl|done..].
  - assert (owns (ts_heap s) (queue_blocks q ++ array_blocks aS ++ array_blocks aZ ++
      table_blocks thread_own (ts_threads s) ++ table_blocks sem_own (ts_sems s)) R) as Ho1.
    { eapply owns_move; [done|]. unfold blocks. solve_blocks. }
    destruct (q_remhead_own q t rl' _ _ _ Ho1 Wq Hq) as (q' & Er & Wq' & Hq' & Hsz & Ho').
    wp_step. rewrite Er. apply (wp_lift_Ret _ (t, q')); [done|]. wp_step. wp_step. wp_step.
    split_and!; [unfold frame, keep, reserve; simpl; split_and!; done || lia|done|done|].
    exists aS, aZ, q'. split_and!; try done; [simpl; lia|].
    eapply owns_move; [exact Ho'|]. unfold blocks. simpl. solve_blocks.
Qed.

(** ** Waking up *)

Definition sleeps_on s (addr t : Z) : bool :=
  match ts_threads s !! t with Some th => t_sleepaddr th =? addr | None => false end.
Definition woken s (addr : Z) (l : list Z) : list Z := List.filter (sleeps_on s addr) l.
Definition unwoken s (addr : Z) (l : list Z) : list Z :=
  List.filter (fun t => negb (sleeps_on s addr t)) l.

Lemma woken_perm s addr l : Permutation (woken s addr l ++ unwoken s addr l) l.
Proof.
  unfold woken, unwoken. induction l as [|t l IH]; [done|]; simpl.
  destruct (sleeps_on s addr t); simpl.
  - by constructor.
  - rewrite <- Permutation_middle. by constructor.
Qed.

(** One sleeper taken out of the array. *)
Lemma remove_sleeper s rl pre t post zl aS :
  store_ok s rl (pre ++ t :: post) zl -> ts_sleepers s = Some aS ->
  exists a', array_remove aS (Z.of_nat (length pre)) = Ret a' /\
    store_ok (set_sleepers (Some a') s) rl (pre ++ post) zl /\
    frame s (set_sleepers (Some a') s) /\
    array_getguy aS (Z.of_nat (length pre)) = Ret (Some t).
Proof.
  intros (a & aZ & q & ES & EZ & EQ & WS & CS & WZ & CZ & Wq & Hq & Hb & Ho & He) E1.
  rewrite ES in E1. injection E1 as ->. pose proof (contents_num _ _ WS CS) as Hn.
  rewrite length_app in Hn; simpl in Hn.
  destruct (array_remove_own aS (Z.of_nat (length pre)) _ (but_sleepers s aZ q) R Ho WS)
    as (a' & Er & Wa & Ho' & Hm & Hc); [lia|].
  exists a'. split_and!; [done| | |].
  - exists a', aZ, q. split_and!; try done. rewrite Hc, CS, Nat2Z.id, !map_app. simpl.
    rewrite <- (length_map Some pre), delete_middle. done.
  - unfold frame, keep, reserve; simpl. rewrite ES. split_and!; done || lia.
  - rewrite array_getguy_spec by done. replace (Z.of_nat (length pre) <? 0) with false by lia.
    rewrite CS, Nat2Z.id, map_app, lookup_app_r by (rewrite length_map; lia).
    by rewrite length_map, Nat.sub_diag.
Qed.

Lemma sleeps_on_frame s s' addr : frame s s' -> sleeps_on s' addr = sleeps_on s addr.
Proof. intros (Ht & _). unfold sleeps_on. by rewrite Ht. Qed.

Lemma wakeup_loop_wp (fuel : nat) s rl pre post zl addr :
  store_ok s rl (pre ++ post) zl -> ts_spl s > 0 -> (length post <= fuel)%nat ->
  (forall t, t ∈ post -> is_Some (ts_threads s !! t)) ->
  Z.of_nat (length rl + length post) <= MAXT ->
  wpo may_panic (wakeup_loop fuel addr (Z.of_nat (length pre))) s (fun _ s' =>
    frame s s' /\ store_ok s' (rl ++ woken s addr post) (pre ++ unwoken s addr post) zl).
Proof.
  revert s rl pre post. induction fuel as [|f IH]; intros s rl pre post Hst Hs Hf Hin Hl;
    destruct post as [|t post]; simpl in Hf; try lia;
    pose proof Hst as (aS & aZ & q & ES & _ & _ & WS & CS & _);
    pose proof (contents_num _ _ WS CS) as Hn; rewrite length_app in Hn; simpl in Hn;
    cbn [wakeup_loop]; wp_step; unfold the_sleepers; wp_step; wp_step;
    (eapply wp_deref; [done|]); unfold array_getnum.
  1-2: replace (Z.of_nat (length pre) <? arr_num aS) with false by lia; wp_step;
    rewrite app_nil_r in *; (split; [apply frame_refl|]); simpl; by rewrite app_nil_r.
  destruct (remove_sleeper s rl pre t post zl aS Hst ES) as (a' & Er & Hst' & Hfr & Hg).
  replace (Z.of_nat (length pre) <? arr_num aS) with true by lia.
  wp_step. unfold guy. wp_step. rewrite Hg. apply (wp_lift_Ret _ (Some t)); [done|].
  eapply wp_deref; [done|]. wp_step. destruct (Hin t) as [th Hth]; [left|].
  eapply wp_the_thread; [done|].
  assert (sleeps_on s addr t = (t_sleepaddr th =? addr)) as Eo by (unfold sleeps_on; by rewrite Hth).
  unfold woken, unwoken; simpl List.filter. rewrite Eo. destruct (t_sleepaddr th =? addr); simpl negb.
  - wp_step. rewrite Er. apply (wp_lift_Ret _ a'); [done|]. wp_step. wp_step. wp_step.
    eapply wp_mono; [apply make_runnable_wp; [done|done|simpl in Hl; lia]|].
    intros r s2 [Hfr2 [[-> Hst2]|(-> & Hfail & _)]]; wp_step.
    2: { unfold ENOMEM, kassert, wpx; simpl. by right. }
    wp_step. pose proof (frame_trans _ _ _ Hfr Hfr2) as Hfr3.
    eapply wp_mono.
    + apply IH; [exact Hst2| | lia | |].
      * destruct Hfr3 as (_ & _ & _ & _ & _ & -> & _). done.
      * intros t' ?. destruct Hfr3 as (-> & _). apply Hin. by right.
      * rewrite length_app. simpl in *. lia.
    + intros [] s3 [Hfr4 Hst3]. split; [by eapply frame_trans|].
      unfold woken, unwoken in Hst3. rewrite (sleeps_on_frame _ _ addr Hfr3) in Hst3.
      by rewrite <- app_assoc in Hst3.
  - specialize (IH s rl (pre ++ [t]) post). rewrite length_app in IH. simpl in IH.
    replace (Z.of_nat (length pre) + 1) with (Z.of_nat (length pre + 1)) by lia.
    eapply wp_mono; [apply IH|].
    + by rewrite <- app_assoc.
    + done.
    + lia.
    + intros t' ?. apply Hin. by right.
    + simpl in Hl. lia.
    + intros [] s3 [Hfr4 Hst3]. split; [done|]. by rewrite <- app_assoc in Hst3.
Qed.

Lemma thread_wakeup_wp s rl sl zl addr :
  store_ok s rl sl zl -> ts_spl s > 0 ->
  (forall t, t ∈ sl -> is_Some (ts_threads s !! t)) ->
  Z.of_nat (length rl + length sl) <= MAXT ->
  wpo may_panic (thread_wakeup addr) s (fun _ s' =>
    frame s s' /\ store_ok s' (rl ++ woken s addr sl) (unwoken s addr sl) zl).
Proof.
  intros Hst Hs Hin Hl. pose proof Hst as (aS & aZ & q & ES & _ & _ & WS & CS & _).
  pose proof (contents_num _ _ WS CS) as Hn.
  unfold thread_wakeup. wp_step. apply wp_assert_spl; [done|]. wp_step.
  unfold the_sleepers. wp_steps. eapply wp_deref; [done|].
  apply (wakeup_loop_wp _ s rl [] sl zl addr); try done. unfold array_getnum. lia.
Qed.

Lemma hassleepers_loop_wp s (a : array Z) pre post addr :
  array_wf a -> contents a = map Some (pre ++ post) ->
  (forall t, t ∈ post -> is_Some (ts_threads s !! t)) ->
  hassleepers_loop (length post) a addr (Z.of_nat (length pre)) s
    = Ret (existsb (sleeps_on s addr) post, s).
Proof.
  intros Wa. revert pre. induction post as [|t post IH]; intros pre Ca Hin; [done|].
  cbn [length hassleepers_loop]. unfold guy, the_thread, deref, bind, get, lift, ret.
  rewrite array_getguy_spec by done. destruct (Z.ltb_spec (Z.of_nat (length pre)) 0); [lia|].
  rewrite Ca, Nat2Z.id, map_app, lookup_app_r by (rewrite length_map; lia).
  rewrite length_map, Nat.sub_diag. simpl. destruct (Hin t) as [th Hth]; [left|].
  rewrite Hth. simpl. unfold sleeps_on at 1. rewrite Hth.
  destruct (t_sleepaddr th =? addr); [done|]. simpl.
  specialize (IH (pre ++ [t])). rewrite length_app in IH. simpl in IH.
  replace (Z.of_nat (length pre) + 1) with (Z.of_nat (length pre + 1)) by lia.
  apply IH; [by rewrite <- app_assoc|]. intros t' ?. apply Hin. by right.
Qed.

Lemma thread_hassleepers_spec s rl sl zl addr :
  store_ok s rl sl zl -> ts_spl s > 0 ->
  (forall t, t ∈ sl -> is_Some (ts_threads s !! t)) ->
  thread_hassleepers addr s = Ret (existsb (sleeps_on s addr) sl, s).
Proof.
  intros (aS & aZ & q & ES & _ & _ & WS & CS & _) Hs Hin.
  pose proof (contents_num _ _ WS CS) as Hn.
  pose proof (hassleepers_loop_wp s aS [] sl addr WS CS Hin) as E1.
  unfold thread_hassleepers, assert_spl, kassert, the_sleepers, deref, bind, get, lift.
  destruct (Z.gtb_spec (ts_spl s) 0); [|lia]. simpl. rewrite ES; simpl. unfold array_getnum.
  rewrite Hn, Nat2Z.id. exact E1.
Qed.

(** ** Disposing of threads *)

Lemma wp_heap_free s a (l : list Z) (Q : unit -> tsys H E -> Prop) :
  owns (ts_heap s) (a :: l) R ->
  (forall h, owns h l R -> Q tt (set_heap h s)) ->
  wpo may_panic (on_heap (kfree a)) s Q.
Proof.
  intros Ho HQ. apply wp_on_heap, wp_oom.
  eapply wp_mono; [by apply wp_kfree_own|]. intros [] h ?. by apply HQ.
Qed.

Lemma thread_destroy_wp s rl sl zl t th :
  store_ok s rl sl zl -> ts_threads s !! t = Some th ->
  t <> ts_cur s -> t_vmspace th = 0 -> t_cwd th = 0 ->
  wpo may_panic (thread_destroy t) s (fun _ s' =>
    keep s s' /\ ts_threads s' = delete t (ts_threads s) /\
    ts_zombies s' = ts_zombies s /\ store_ok s' rl sl zl).
Proof.
  intros (aS & aZ & q & ES & EZ & EQ & WS & CS & WZ & CZ & Wq & Hq & Hb & Ho & He) Ht Hc Hv Hd.
  pose (rest := blocks (set_threads (delete t (ts_threads s)) s) aS aZ q).
  assert (owns (ts_heap s) ((if t_stack th =? 0 then [] else [t_stack th]) ++
            t_name th :: t :: rest) R) as Ho1.
  { eapply owns_move; [done|]. unfold rest, blocks; simpl.
    rewrite (table_blocks_delete thread_own _ t th Ht). unfold thread_own.
    destruct (t_stack th =? 0); solve_blocks. }
  unfold thread_destroy. wp_step. wp_step. wp_step. wp_step. wp_step.
  eapply wp_the_thread; [done|]. wp_step. wp_step. wp_step. wp_step. wp_step.
  eapply (wp_mono _ _ (fun _ s1 => exists h, s1 = set_heap h s /\
            owns h (t_name th :: t :: rest) R)).
  { destruct (t_stack th =? 0); simpl in Ho1.
    - wp_step. exists (ts_heap s). split; [by destruct s | done].
    - eapply wp_heap_free; [done|]. intros h ?. by exists h. }
  intros [] s1 (h1 & -> & Ho2). wp_step. eapply wp_heap_free; [done|]. intros h2 Ho3.
  unfold free_thread. wp_step. eapply wp_heap_free; [done|]. intros h3 Ho4. wp_step.
  unfold keep, reserve; simpl. split_and!; try done || lia. by exists aS, aZ, q.
Qed.

Definition drop_threads (l : list Z) (m : gmap Z thread) : gmap Z thread :=
  foldl (fun m t => delete t m) m l.

Lemma drop_threads_lookup l m t :
  drop_threads l m !! t = if decide (t ∈ l) then None else m !! t.
Proof.
  revert m. induction l as [|x l IH]; intros m.
  - rewrite decide_False by apply not_elem_of_nil. done.
  - change (drop_threads (x :: l) m) with (drop_threads l (delete x m)).
    rewrite IH. destruct (decide (t ∈ l)).
    + rewrite decide_True; [done|by right].
    + destruct (decide (t = x)) as [->|].
      * rewrite decide_True by left. apply lookup_delete_eq.
      * rewrite decide_False by (rewrite elem_of_cons; tauto). by rewrite lookup_delete_ne.
Qed.

(** A dead thread: off the processor, its resources given up in [thread_exit]. *)
Definition dead s (t : Z) : Prop :=
  t <> ts_cur s /\ exists th, ts_threads s !! t = Some th /\ t_vmspace th = 0 /\ t_cwd th = 0.

Lemma destroy_all_wp s rl sl pre post :
  store_ok s rl sl (pre ++ post) -> NoDup post -> (forall t, t ∈ post -> dead s t) ->
  wpo may_panic (destroy_all (length post) (Z.of_nat (length pre))) s (fun _ s' =>
    keep s s' /\ ts_threads s' = drop_threads post (ts_threads s) /\
    ts_zombies s' = ts_zombies s /\ store_ok s' rl sl (pre ++ post)).
Proof.
  revert s pre. induction post as [|t post IH]; intros s pre Hst Hnd Hd.
  { cbn [length destroy_all]. wp_step. split_and!; try done. }
  pose proof Hst as (aS & aZ & q & _ & EZ & _ & _ & _ & WZ & CZ & _).
  apply NoDup_cons in Hnd as [Hni Hnd].
  destruct (Hd t) as (Hc & th & Ht & Hv & Hw); [left|].
  cbn [length destroy_all]. wp_step. unfold the_zombies. wp_steps. eapply wp_deref; [done|].
  wp_step. unfold guy. wp_step. rewrite array_getguy_spec by done.
  destruct (Z.ltb_spec (Z.of_nat (length pre)) 0); [lia|].
  rewrite CZ, Nat2Z.id, map_app, lookup_app_r by (rewrite length_map; lia).
  rewrite length_map, Nat.sub_diag. apply (wp_lift_Ret _ (Some t)); [done|].
  eapply wp_deref; [done|]. wp_step. wp_step. wp_step. wp_step. wp_step.
  eapply wp_mono; [by eapply thread_destroy_wp|].
  intros [] s1 (Hk & Et & Ez & Hst1).
  specialize (IH s1 (pre ++ [t])). rewrite <- app_assoc in IH; simpl in IH.
  replace (Z.of_nat (length pre) + 1) with (Z.of_nat (length (pre ++ [t])))
    by (rewrite length_app; simpl; lia).
  eapply wp_mono; [apply IH; [done|done|]|].
  - intros t' Ht'. destruct (Hd t') as (Hc' & th' & ? & ? & ?); [by right|].
    pose proof Hk as (_ & _ & Ec & _). split; [congruence|]. exists th'.
    rewrite Et, lookup_delete_ne by (intros ->; done). done.
  - intros [] s2 (Hk2 & Et2 & Ez2 & Hst2). split_and!.
    + unfold keep in *. destruct_and!. split_and!; congruence || lia.
    + by rewrite Et2, Et.
    + congruence.
    + done.
Qed.

(** [exorcise] disposes of every zombie and of nothing else. *)
Lemma exorcise_wp s rl sl zl :
  store_ok s rl sl zl -> ts_spl s > 0 -> NoDup zl -> (forall t, t ∈ zl -> dead s t) ->
  wpo may_panic exorcise s (fun _ s' =>
    keep s s' /\ ts_threads s' = drop_threads zl (ts_threads s) /\ store_ok s' rl sl []).
Proof.
  intros Hst Hs Hnd Hd. pose proof Hst as (aS & aZ & q & _ & EZ & _ & _ & _ & WZ & CZ & _).
  unfold exorcise. wp_step. apply wp_assert_spl; [done|]. wp_step.
  unfold the_zombies. wp_steps. eapply wp_deref; [done|]. wp_step.
  unfold array_getnum. rewrite (contents_num _ _ WZ CZ), Nat2Z.id.
  eapply wp_mono; [by apply (destroy_all_wp s rl sl [] zl)|].
  intros [] s1 (Hk & Et & Ez & Hst1). wp_step.
  destruct Hst1 as (aS1 & aZ1 & q1 & ES1 & EZ1 & EQ1 & WS1 & CS1 & WZ1 & CZ1 & Wq & Hq & Hb & Ho & He).
  rewrite Ez, EZ in EZ1. injection EZ1 as <-. cbn [app] in Ho. rewrite blocks_zombies in Ho.
  apply wp_on_heap, wp_oom. eapply wp_mono; [by apply array_setsize_0_own|].
  intros [r a'] h (-> & Wa & Ho' & Hc). wp_step. wp_step. wp_step.
  split_and!; try done. exists aS1, a', q1. split_and!; try done.
  cbn [app]. by rewrite blocks_zombies.
Qed.

(** ** Creating threads *)

Lemma table_blocks_elem {B} (own : Z -> B -> list Z) (m : gmap Z B) a b x :
  m !! a = Some b -> x ∈ own a b -> x ∈ table_blocks own m.
Proof. intros Hm Hx. rewrite (table_blocks_delete own m a b Hm). apply elem_of_app. by left. Qed.

Lemma store_malloc X s rl sl zl n :
  store_plus X s rl sl zl -> 0 < n <= MAXALLOC ->
  wpo may_panic (on_heap (kmalloc n)) s (fun p s' =>
    exists h, s' = set_heap h s /\
    ((p = 0 /\ alloc_fails /\ store_plus X s' rl sl zl) \/
     (p <> 0 /\ store_plus (p :: X) s' rl sl zl))).
Proof.
  intros (aS & aZ & q & ES & EZ & EQ & WS & CS & WZ & CZ & Wq & Hq & Hb & Ho & He) Hn.
  apply wp_on_heap, wp_oom. eapply wp_mono; [by apply wp_kmalloc_own|].
  intros p h [(-> & ? & ?)|(Hp & ?)]; exists h; (split; [done|]); [left|right];
    split_and!; try done; by exists aS, aZ, q.
Qed.

Lemma store_perm X Y s rl sl zl :
  store_plus X s rl sl zl -> Permutation X Y -> store_plus Y s rl sl zl.
Proof.
  intros (aS & aZ & q & ES & EZ & EQ & WS & CS & WZ & CZ & Wq & Hq & Hb & Ho & He) Hp.
  exists aS, aZ, q. split_and!; try done. by rewrite <- Hp.
Qed.

Lemma store_free X p s rl sl zl :
  store_plus (p :: X) s rl sl zl ->
  wpo may_panic (on_heap (kfree p)) s (fun _ s' =>
    exists h, s' = set_heap h s /\ store_plus X s' rl sl zl).
Proof.
  intros (aS & aZ & q & ES & EZ & EQ & WS & CS & WZ & CZ & Wq & Hq & Hb & Ho & He).
  eapply wp_heap_free; [exact Ho|]. intros h ?. exists h. split; [done|]. by exists aS, aZ, q.
Qed.

Lemma store_env {A} X s rl sl zl (m : M E A) :
  store_plus X s rl sl zl -> (forall e, env_ok e -> wp m e (fun _ e' => env_ok e')) ->
  wpo may_panic (on_env m) s (fun _ s' =>
    exists e, s' = set_env e s /\ store_plus X s' rl sl zl).
Proof.
  intros (aS & aZ & q & ES & EZ & EQ & WS & CS & WZ & CZ & Wq & Hq & Hb & Ho & He) Hm.
  apply wp_on_env. eapply (wp_weaken False); [|done]. eapply wp_mono; [by apply Hm|].
  intros a e ?. exists e. split; [done|]. by exists aS, aZ, q.
Qed.

(** The blocks under construction become the blocks of a new thread. *)
Lemma store_insert X t th s rl sl zl :
  store_plus (thread_own t th ++ X) s rl sl zl ->
  ts_threads s !! t = None /\
  store_plus X (set_threads (<[t := th]> (ts_threads s)) s) rl sl zl.
Proof.
  intros (aS & aZ & q & ES & EZ & EQ & WS & CS & WZ & CZ & Wq & Hq & Hb & Ho & He).
  assert (ts_threads s !! t = None) as Hf.
  { destruct Ho as (Hh & Hn & HR). destruct (ts_threads s !! t) as [th'|] eqn:Ht; [|done].
    unfold thread_own in Hn. cbn [app] in Hn. apply NoDup_cons in Hn as [Hn _]. destruct Hn.
    right. rewrite !elem_of_app. right; right. unfold blocks. rewrite !elem_of_app.
    right; right; right; left. eapply (table_blocks_elem thread_own); [done|]. left. }
  split; [done|]. exists aS, aZ, q. split_and!; try done.
  eapply owns_move; [exact Ho|]. unfold blocks; simpl.
  rewrite (table_blocks_insert thread_own _ t th Hf). solve_blocks.
Qed.

(** And back. *)
Lemma store_delete X t th s rl sl zl :
  store_plus X s rl sl zl -> ts_threads s !! t = Some th ->
  store_plus (thread_own t th ++ X) (set_threads (delete t (ts_threads s)) s) rl sl zl.
Proof.
  intros (aS & aZ & q & ES & EZ & EQ & WS & CS & WZ & CZ & Wq & Hq & Hb & Ho & He) Ht.
  exists aS, aZ, q. split_and!; try done.
  eapply owns_move; [exact Ho|]. unfold blocks; simpl.
  rewrite (table_blocks_delete thread_own _ t th Ht). solve_blocks.
Qed.

Lemma store_update X Y t th th' s rl sl zl :
  store_plus (Y ++ X) s rl sl zl -> ts_threads s !! t = Some th ->
  Permutation (thread_own t th') (Y ++ thread_own t th) ->
  store_plus X (set_threads (<[t := th']> (ts_threads s)) s) rl sl zl.
Proof.
  intros (aS & aZ & q & ES & EZ & EQ & WS & CS & WZ & CZ & Wq & Hq & Hb & Ho & He) Ht Hp.
  exists aS, aZ, q. split_and!; try done.
  eapply owns_move; [exact Ho|]. unfold blocks; simpl.
  rewrite (table_blocks_delete thread_own _ t th Ht).
  rewrite <- insert_delete_eq, (table_blocks_insert thread_own) by apply lookup_delete_eq.
  rewrite Hp. solve_blocks.
Qed.

Definition NAMEMAX : Z := 2 ^ 20.

Lemma kstrdup_wp X s rl sl zl name :
  store_plus X s rl sl zl -> Z.of_nat (length name) < NAMEMAX ->
  wpo may_panic (on_heap (kstrdup name)) s (fun '(p, str) s' =>
    str = name /\ exists h, s' = set_heap h s /\
    ((p = 0 /\ alloc_fails /\ store_plus X s' rl sl zl) \/
     (p <> 0 /\ store_plus (p :: X) s' rl sl zl))).
Proof.
  intros Hst Hn. apply wp_on_heap. unfold kstrdup. wp_step.
  pose proof (store_malloc X s rl sl zl (Z.of_nat (length name) + 1) Hst) as W.
  unfold NAMEMAX, MAXALLOC in *. specialize (W ltac:(lia)).
  unfold wpx, on_heap in *. destruct (kmalloc _ (ts_heap s)) as [[p h]|w]; [|exact W].
  simpl in *. split; [done|]. destruct W as (h' & -> & W). by exists h'.
Qed.

Lemma set_heap_twice h1 h2 s : set_heap h2 (set_heap h1 s) = set_heap h2 s.
Proof. done. Qed.

Lemma thread_create_wp s rl sl zl name :
  store_ok s rl sl zl -> Z.of_nat (length name) < NAMEMAX ->
  wpo may_panic (thread_create name) s (fun t s' =>
    keep s s' /\
    ((t = 0 /\ alloc_fails /\ ts_threads s' = ts_threads s /\ store_ok s' rl sl zl) \/
     (t <> 0 /\ ts_threads s !! t = None /\ store_ok s' rl sl zl /\
      exists n ft, ts_threads s' =
        <[t := mkThread 0 RRun n name 0 0 [] ft 0 0]> (ts_threads s)))).
Proof.
  intros Hst Hn. unfold thread_create. wp_step.
  eapply wp_mono; [apply store_malloc; [done|unfold SIZEOF_THREAD, MAXALLOC; lia]|].
  intros p s1 (h1 & -> & [(-> & Hf & Hst1)|[Hp Hst1]]).
  { simpl. wp_step. split; [solve_keep|]. by left. }
  destruct (Z.eqb_spec p 0); [done|]. wp_step.
  eapply wp_mono; [by apply kstrdup_wp|]. rewrite ?set_heap_twice.
  intros [nm str] s2 (-> & h2 & -> & [(-> & Hf & Hst2)|[Hn0 Hst2]]).
  { simpl. wp_step. eapply wp_mono; [by apply store_free|].
    intros [] s3 (h3 & -> & Hst3). wp_step. split; [solve_keep|]. by left. }
  destruct (Z.eqb_spec nm 0); [done|]. wp_step.
  eapply wp_mono; [apply store_env; [done|]; intros e; apply ft_create_law|].
  intros ft s3 (e3 & -> & Hst3). wp_step. wp_step. wp_step.
  destruct (store_insert [] p (mkThread 0 RRun nm name 0 0 [] ft 0 0) _ _ _ _
              ltac:(unfold thread_own; simpl; eapply store_perm; [exact Hst3|solve_blocks]))
    as [Hfr Hst4].
  split; [solve_keep|]. right. split_and!; [done|done|done|]. by exists nm, ft.
Qed.

Lemma scheduler_preallocate_wp s rl sl zl n :
  store_ok s rl sl zl -> ts_spl s > 0 -> n <= MAXT ->
  wpo may_panic (scheduler_preallocate n) s (fun r s' =>
    frame s s' /\ store_ok s' rl sl zl /\ (r = 0 \/ r = ENOMEM /\ alloc_fails)).
Proof.
  intros (aS & aZ & q & ES & EZ & EQ & WS & CS & WZ & CZ & Wq & Hq & Hb & Ho & He) Hs Hn.
  unfold scheduler_preallocate. wp_step. apply wp_assert_spl; [done|]. wp_step.
  unfold the_runqueue. wp_steps. eapply wp_deref; [done|]. wp_step.
  apply wp_on_heap, wp_oom. eapply wp_mono.
  - apply (q_preallocate_own q rl n _
             (array_blocks aS ++ array_blocks aZ ++ table_blocks thread_own (ts_threads s) ++
              table_blocks sem_own (ts_sems s)) R); [|done|done|unfold MAXT in *; lia].
    eapply owns_move; [done|]. unfold blocks. solve_blocks.
  - intros [r q'] h' (Wq' & Hq' & Ho' & Hsz & Hr). wp_step. wp_step. wp_step.
    split_and!; [solve_keep| |destruct Hr as [[??]|(? & ? & ?)]; auto].
    exists aS, aZ, q'. split_and!; try done; [unfold MAXT in *; lia|].
    eapply owns_move; [done|]. unfold blocks; simpl. solve_blocks.
Qed.

Lemma fork_enqueue_wp s rl sl zl t :
  store_ok s rl sl zl -> ts_spl s > 0 -> 0 <= ts_num s -> ts_num s + 1 <= MAXT ->
  Z.of_nat (length rl) < MAXT ->
  wpo may_panic (fork_enqueue t) s (fun r s' =>
    frame s s' /\
    ((r = 0 /\ store_ok s' (rl ++ [t]) sl zl /\ ts_num s + 1 <= reserve s') \/
     (r = ENOMEM /\ alloc_fails /\ store_ok s' rl sl zl))).
Proof.
  intros Hst Hs Hn Hm Hl.
  pose proof Hst as (aS & aZ & q & ES & EZ & EQ & WS & CS & WZ & CZ & Wq & Hq & Hb & Ho & He).
  unfold fork_enqueue. wp_step. wp_step. rewrite s32_small by (unfold MAXT in *; lia).
  wp_step. unfold the_sleepers. wp_step. wp_step. eapply wp_deref; [done|]. wp_step.
  apply wp_on_heap, wp_oom. eapply wp_mono.
  { apply (array_preallocate_own aS _ _ (but_sleepers s aZ q) R);
      [exact Ho|done|unfold MAXT, MAXGUYS in *; lia]. }
  intros [r1 a1] h1 (W1 & Ho1 & C1 & M1 & Hr1). wp_step. wp_step. rewrite <- C1 in CS.
  destruct Hr1 as [(-> & Hres)|(-> & Hf & ->)]; simpl.
  2: { wp_step. split; [solve_keep|]. right. split_and!; try done. by exists aS, aZ, q. }
  wp_step. unfold the_zombies. wp_step. wp_step. eapply wp_deref; [done|]. wp_step.
  set (s1 := set_sleepers (Some a1) (set_heap h1 s)).
  assert (blocks s1 a1 aZ q = array_blocks a1 ++ but_sleepers s aZ q) as Eb by done.
  apply wp_on_heap, wp_oom. eapply wp_mono.
  { apply (array_preallocate_own aZ _ _ (but_zombies s a1 q) R);
      [|done|unfold MAXT, MAXGUYS in *; lia].
    change (but_zombies s a1 q) with (but_zombies s1 a1 q). by rewrite <- blocks_zombies, Eb. }
  intros [r2 a2] h2 (W2 & Ho2 & C2 & M2 & Hr2). wp_step. wp_step. rewrite <- C2 in CZ.
  set (s2 := set_zombies (Some a2) (set_heap h2 s1)).
  assert (store_ok s2 rl sl zl) as Hst2.
  { exists a1, a2, q. split_and!; try done. cbn [app]. by rewrite blocks_zombies. }
  assert (frame s s2) as Hf2 by solve_keep.
  destruct Hr2 as [(-> & _)|(-> & Hf & ->)]; simpl.
  2: { wp_step. split; [done|]. by right. }
  wp_step. eapply wp_mono; [by apply scheduler_preallocate_wp|].
  intros r3 s3 (Hf3 & Hst3 & Hr3). pose proof (frame_trans _ _ _ Hf2 Hf3) as Hf4.
  destruct Hr3 as [->|[-> Hf]]; simpl.
  2: { wp_step. split; [done|]. by right. }
  assert (ts_num s + 1 <= reserve s3) as Hres3.
  { destruct Hf3 as (_ & Hk). unfold keep in Hk. destruct_and!. unfold s2, s1, reserve in *. simpl in *. lia. }
  eapply wp_mono; [apply make_runnable_wp; [done| |done]|].
  { destruct Hf4 as (_ & _ & _ & _ & _ & -> & _). done. }
  intros r4 s4 [Hf5 Hr4]. split; [by eapply frame_trans|].
  destruct Hr4 as [[-> ?]|?]; [left|by right]. split_and!; try done.
  destruct Hf5 as (_ & Hk). unfold keep in Hk. destruct_and!. lia.
Qed.

(** Undoing the creation of a thread: its name and its structure are freed. *)
Lemma wp_unmake {A} s rl sl zl t name (m : M (tsys H E) A) Q :
  store_plus [name; t] (set_threads (delete t (ts_threads s)) s) rl sl zl ->
  (forall s', keep s s' -> ts_threads s' = delete t (ts_threads s) ->
     store_ok s' rl sl zl -> wpo may_panic m s' Q) ->
  wpo may_panic (let* _ := on_heap (kfree name) in let* _ := free_thread t in m) s Q.
Proof.
  intros (aS & aZ & q & ES & EZ & EQ & WS & CS & WZ & CZ & Wq & Hq & Hb & Ho & He) HQ.
  wp_step. eapply wp_heap_free; [exact Ho|]. intros h1 Ho1. wp_step.
  unfold free_thread. wp_step. eapply wp_heap_free; [exact Ho1|]. intros h2 Ho2. wp_step.
  apply HQ; [solve_keep|done|]. by exists aS, aZ, q.
Qed.

(** The thread [thread_fork] makes. *)
Definition new_thread (th : thread) : Prop :=
  t_resume th = RStart /\ t_pcb_ininterrupt th = 0 /\ t_sleepaddr th = 0 /\
  canary_ok th = true /\ t_vmspace th = 0.

(** What [thread_fork] did, from the state before it. *)
Definition forked s rl sl zl (r t : Z) s' : Prop :=
  ts_sems s' = ts_sems s /\ ts_cur s' = ts_cur s /\ ts_prev s' = ts_prev s /\
  ts_spl s' = ts_spl s /\ ts_inint s' = ts_inint s /\ ts_lbolt s' = ts_lbolt s /\
  ((r = 0 /\ t <> 0 /\ ts_threads s !! t = None /\ ts_num s' = ts_num s + 1 /\
    ts_num s + 1 <= reserve s' /\ store_ok s' (rl ++ [t]) sl zl /\
    exists th, ts_threads s' = <[t := th]> (ts_threads s) /\ new_thread th) \/
   (r = ENOMEM /\ alloc_fails /\ ts_num s' = ts_num s /\ reserve s <= reserve s' /\
    store_ok s' rl sl zl /\ ts_threads s' = ts_threads s)).

Lemma fork_finish_wp s s1 rl sl zl t th :
  store_ok s1 rl sl zl -> 0 <= ts_num s -> ts_num s + 1 <= MAXT ->
  Z.of_nat (length rl) < MAXT -> t <> 0 -> ts_threads s !! t = None -> keep s s1 ->
  ts_threads s1 = <[t := th]> (ts_threads s) -> new_thread th -> t_stack th <> 0 ->
  wpo may_panic (fork_finish t) s1 (fun '(r, t') s' => forked s rl sl zl r t' s').
Proof.
  intros Hst Hn Hm Hl Ht0 Hfr Hk Et Hnew Hstk. unfold fork_finish.
  wp_step. apply wp_splx. wp_step. unfold SPL_HIGH.
  eapply wp_mono.
  { apply fork_enqueue_wp; [eapply store_scalars; [..|exact Hst]; done|simpl; lia|
      simpl; solve_keep|simpl; solve_keep|done]. }
  intros r s2 (Hf & [(-> & Hst2 & Hres)|(-> & Hfail & Hst2)]); simpl.
  - wp_step. wp_step. wp_step. apply wp_splx. wp_step.
    pose proof Hf as (Et2 & Hk2). simpl in *.
    unfold forked. split_and!; [unfold keep in *; destruct_and!; simpl in *; congruence..|].
    left. unfold keep in *; destruct_and!; simpl in *.
    split_and!; try done.
    + rewrite s32_small; [congruence|unfold MAXT in *; lia].
    + unfold reserve in *; simpl in *. lia.
    + exists th. split; [congruence|done].
  - wp_step. apply wp_splx. wp_step.
    pose proof Hf as (Et2 & Hk2). simpl in Et2.
    assert (ts_threads s2 !! t = Some th) as Hth by (rewrite Et2, Et; apply lookup_insert_eq).
    eapply wp_the_thread; [exact Hth|]. wp_step.
    set (s3 := set_spl _ s2).
    eapply (wp_mono _ _ (fun _ s4 => exists e, s4 = set_env e s3 /\ store_ok s4 rl sl zl)).
    { assert (store_ok s3 rl sl zl) as K by exact Hst2.
      destruct (t_cwd th =? 0).
      - wp_step. exists (ts_env s3). split; [by destruct s3 | exact K].
      - apply store_env; [done|]. intros e. apply vop_decref_law. }
    intros [] s4 (e & -> & Hst4).
    pose proof (store_delete [] t th _ _ _ _ Hst4 Hth) as Hd. unfold thread_own in Hd.
    destruct (Z.eqb_spec (t_stack th) 0); [done|]. cbn [app] in Hd.
    apply (store_perm _ [t_stack th; t_name th; t]) in Hd; [|solve_blocks].
    destruct Hd as (aS & aZ & q & ES & EZ & EQ & WS & CS & WZ & CZ & Wq & Hq & Hb & Ho & He).
    wp_step. eapply wp_heap_free; [exact Ho|]. intros h5 Ho5.
    eapply wp_unmake; [by exists aS, aZ, q|]. intros s6 Hk6 Et6 Hst6. wp_step.
    unfold forked. simpl in Et6. rewrite Et2, Et, delete_insert_id in Et6 by done.
    clear - Hk Hk2 Hk6 Hfail Et6 Hst6. unfold keep, reserve in *; simpl in *. destruct_and!.
    split_and!; [congruence..|]. right. split_and!; try done; congruence || lia.
Qed.

Lemma thread_fork_wp s rl sl zl name :
  store_ok s rl sl zl -> Z.of_nat (length name) < NAMEMAX ->
  is_Some (ts_threads s !! ts_cur s) -> 0 <= ts_num s -> ts_num s + 1 <= MAXT ->
  Z.of_nat (length rl) < MAXT ->
  wpo may_panic (thread_fork name) s (fun '(r, t) s' => forked s rl sl zl r t s').
Proof.
  intros Hst Hname [cth Hcur] Hn Hm Hl. unfold thread_fork. wp_step.
  eapply wp_mono; [by apply thread_create_wp|].
  intros t s1 (Hk1 & [(-> & Hf & Et & Hst1)|(Ht0 & Hfr & Hst1 & n & ft & Et)]).
  { simpl. wp_step. unfold forked, keep in *. destruct_and!. split_and!; [done..|]. right. done. }
  destruct (Z.eqb_spec t 0); [done|]. wp_step.
  eapply wp_mono; [apply store_malloc; [done|unfold STACK_SIZE, MAXALLOC; lia]|].
  intros stk s2 (h2 & -> & Hstk). wp_step.
  assert (ts_threads (set_heap h2 s1) !! t = Some (mkThread 0 RRun n name 0 0 [] ft 0 0)) as Ht2
    by (simpl; rewrite Et; apply lookup_insert_eq).
  eapply wp_the_thread; [exact Ht2|]. destruct Hstk as [(-> & Hf & Hst2)|(Hs0 & Hst2)]; simpl.
  { pose proof (store_delete [] t _ _ _ _ _ Hst2 Ht2) as Hd. unfold thread_own in Hd.
    cbn in Hd. apply (store_perm _ [n; t]) in Hd; [|solve_blocks].
    eapply wp_unmake; [exact Hd|]. intros s3 Hk3 Et3 Hst3. wp_step. simpl in Et3.
    rewrite Et, delete_insert_id in Et3 by done.
    unfold forked, keep, reserve in *. simpl in *. destruct_and!.
    split_and!; [congruence..|]. right. split_and!; try done; congruence || lia. }
  destruct (Z.eqb_spec stk 0); [done|]. wp_step. eapply wp_upd_thread; [exact Ht2|].
  set (th3 := th_stack stk CANARY _).
  assert (store_ok (set_threads (<[t := th3]> (ts_threads s1)) (set_heap h2 s1)) rl sl zl) as Hst3.
  { eapply (store_update [] [stk] t _ _ (set_heap h2 s1)); [exact Hst2|exact Ht2|].
    unfold thread_own, th3; simpl.
    destruct (Z.eqb_spec stk 0); [done|]. solve_blocks. }
  assert (ts_cur s1 = ts_cur s) as Ec by apply Hk1.
  assert (t <> ts_cur s) by congruence.
  wp_step. wp_step. wp_step. eapply wp_the_thread.
  { simpl. rewrite Et, Ec, !lookup_insert_ne by done. exact Hcur. }
  set (s3 := set_threads _ _) in *. wp_step.
  eapply (wp_mono _ _ (fun _ s4 => exists c, store_ok s4 rl sl zl /\ keep s3 s4 /\
    ts_threads s4 = <[t := th_cwd c th3]> (ts_threads s))).
  { destruct (t_cwd cth =? 0).
    - wp_step. exists 0. split_and!; [done|solve_keep|]. simpl. by rewrite Et, insert_insert_eq.
    - wp_step. eapply wp_mono; [apply store_env; [exact Hst3|]; intros e; apply vop_incref_law|].
      intros [] s4 (e & -> & Hst4).
      assert (ts_threads (set_env e s3) !! t = Some th3) as Ht4 by apply lookup_insert_eq.
      eapply wp_upd_thread; [exact Ht4|]. exists (t_cwd cth). split_and!; [|solve_keep|].
      + eapply (store_update [] []); [exact Hst4|exact Ht4|done].
      + simpl. by rewrite Et, !insert_insert_eq. }
  intros [] s4 (c & Hst4 & Hk4 & Et4). wp_step.
  assert (ts_threads s4 !! t = Some (th_cwd c th3)) as Ht4 by (rewrite Et4; apply lookup_insert_eq).
  eapply wp_upd_thread; [exact Ht4|].
  eapply (fork_finish_wp s _ _ _ _ t (th_resume RStart (th_cwd c th3))); try done.
  - eapply (store_update [] []); [exact Hst4|exact Ht4|done].
  - unfold s3 in *. solve_keep.
  - simpl. by rewrite Et4, insert_insert_eq.
  - unfold new_thread, th3, canary_ok; simpl. split_and!; try done.
    apply orb_true_r.
Qed.
End Proof.
