(* ===== verification/ThreadInv.v ===== *)
(** * The invariant of the thread system, and the steps that keep it

    [threads_ok] says that every thread is in exactly one place (running, in
    the run queue, asleep or dead), that [numthreads] counts those that are
    not dead, that what each parked thread will do next fits the place it is
    in, and that nobody sleeps on a semaphore that could be taken. *)

From S2P Require Import Prelude.
From S2P Require Import Array.
From S2P Require Import Queue.
From S2P Require Import Own.
From S2P Require Import Thread.
From S2P Require Import ThreadProof.

Section Inv.
Context {H E : Type} `{AllocatorLaws H} `{ThreadEnvLaws E}.
Implicit Types s : tsys H E.
Context (R : gset Z).
#[local] Abbreviation T := (tsys H E).
#[local] Abbreviation store_ok := (store_plus R []).

Definition curl s : list Z := if ts_cur s =? 0 then [] else [ts_cur s].
Definition everyone s (rl sl zl : list Z) : list Z := curl s ++ rl ++ sl ++ zl.

(** The value of [in_interrupt] that goes with a resume point. *)
Definition exp_inint (k : resume) : Z := match k with RTick _ _ _ => 1 | _ => 0 end.

(** Where the [in_interrupt] of a thread is kept: in the global while the
    thread is running or its [mi_switch] is under way, else in its pcb. *)
Definition inint_of s (t : Z) (th : thread) : Z :=
  if (t =? ts_cur s) || ((ts_cur s =? 0) && (t =? ts_prev s)) then ts_inint s
  else t_pcb_ininterrupt th.

Definition resume_ok s (k : resume) : Prop :=
  match k with
  | RYield spl => 0 <= spl
  | RTick spl oldin savespl => oldin = 0 /\ savespl = 0
  | RP sem spl => is_Some (ts_sems s !! sem) /\ 0 <= spl
  | _ => True
  end.

(** A sleeper sleeps on the address its resume point says. *)
Definition asleep_ok s (th : thread) : Prop :=
  match t_resume th with
  | RSleep => ts_sems s !! t_sleepaddr th = None
  | RP sem _ => t_sleepaddr th = sem
  | _ => False
  end.

Record thread_ok s (rl sl zl : list Z) (t : Z) (th : thread) : Prop := {
  tk_canary : canary_ok th = true;
  tk_resume : resume_ok s (t_resume th);
  tk_inint : t_resume th <> RRun -> inint_of s t th = exp_inint (t_resume th);
  tk_zombie : t ∈ zl -> t_resume th = RDead /\ t_vmspace th = 0 /\ t_cwd th = 0;
  tk_alive : (t ∉ zl) -> t_resume th <> RDead;
  tk_parked : t ∈ rl -> t_resume th <> RRun;
  tk_asleep : t ∈ sl -> asleep_ok s th;
}.

Definition sems_ok s (sl : list Z) : Prop :=
  forall a sm, ts_sems s !! a = Some sm ->
    a <> 0 /\ 0 <= sem_count sm < 2 ^ 31 /\
    (0 < sem_count sm -> forall t, t ∈ sl -> sleeps_on s a t = false).

Record core s (rl sl zl : list Z) : Prop := {
  core_nodup : NoDup (everyone s rl sl zl);
  core_dom : forall t, t ∈ everyone s rl sl zl <-> is_Some (ts_threads s !! t);
  core_zero : ts_threads s !! 0 = None;
  core_max : Z.of_nat (length (everyone s rl sl zl)) <= MAXT;
  core_thread : forall t th, ts_threads s !! t = Some th -> thread_ok s rl sl zl t th;
  core_sems : sems_ok s sl;
  core_prev : ts_cur s = 0 -> is_Some (ts_threads s !! ts_prev s);
}.

Definition running s : Prop :=
  exists th, ts_threads s !! ts_cur s = Some th /\ t_resume th = RRun.

Definition counted s (rl sl : list Z) : Prop :=
  ts_num s = Z.of_nat (length (curl s ++ rl ++ sl)) /\ (ts_num s <= 1 \/ ts_num s <= reserve s).

(** The invariant.  Interrupts are off unless a thread is running. *)
Definition threads_ok s (rl sl zl : list Z) : Prop :=
  store_ok s rl sl zl /\ core s rl sl zl /\ counted s rl sl /\
  0 <= ts_spl s /\ (running s \/ ts_spl s > 0) /\ (running s -> ts_inint s = 0).

(** ** What moves do to the invariant *)

(** Threads that differ in nothing but the saved [in_interrupt]. *)
Definition same_but_inint (th th' : thread) : Prop :=
  canary_ok th' = canary_ok th /\ t_resume th' = t_resume th /\ t_vmspace th' = t_vmspace th /\
  t_cwd th' = t_cwd th /\ t_sleepaddr th' = t_sleepaddr th.

Lemma thread_ok_move s s' rl sl zl rl' sl' zl' t th th' :
  thread_ok s rl sl zl t th -> same_but_inint th th' ->
  (t ∈ rl' -> t_resume th <> RRun) -> (t ∈ sl' -> t ∈ sl) -> (t ∈ zl' <-> t ∈ zl) ->
  (forall a, is_Some (ts_sems s' !! a) <-> is_Some (ts_sems s !! a)) ->
  (t_resume th <> RRun -> inint_of s' t th' = inint_of s t th) ->
  thread_ok s' rl' sl' zl' t th'.
Proof.
  intros [K1 K2 K3 K4 K5 K6 K7] (Ec & Er & Ev & Ed & Ea) Hr Hs Hz Hsem Hi.
  constructor; rewrite ?Ec, ?Er, ?Ev, ?Ed, ?Hz; try done.
  - destruct (t_resume th); try done. simpl in *. by rewrite Hsem.
  - intros Hn. by rewrite Hi, K3.
  - intros Ht. specialize (K7 (Hs Ht)). unfold asleep_ok in *. rewrite Er, Ea.
    destruct (t_resume th); try done.
    apply eq_None_not_Some. rewrite Hsem. by rewrite <- eq_None_not_Some.
Qed.

(** Only these fields matter, [in_interrupt] only while no thread is running. *)
Lemma core_ext s s' rl sl zl :
  core s rl sl zl -> ts_threads s' = ts_threads s -> ts_sems s' = ts_sems s ->
  ts_cur s' = ts_cur s -> ts_prev s' = ts_prev s -> (running s \/ ts_inint s' = ts_inint s) ->
  core s' rl sl zl.
Proof.
  intros [K1 K2 K3 K4 K5 K6 K7] Et Es Ec Ep Ei.
  assert (curl s' = curl s) as Ecl by (unfold curl; by rewrite Ec).
  constructor; unfold everyone in *; rewrite ?Ecl, ?Et, ?Ep, ?Ec; try done.
  - intros t th Ht. eapply thread_ok_move; [by apply K5|..]; try done.
    + by apply (K5 t th Ht).
    + intros a. by rewrite Es.
    + intros Hn. unfold inint_of. rewrite Ec, Ep.
      destruct Ei as [(thc & Hc & Hr)| ->]; [|done].
      destruct (Z.eqb_spec t (ts_cur s)) as [->|]; simpl; [congruence|].
      destruct (Z.eqb_spec (ts_cur s) 0) as [E0|]; [|done]. rewrite E0 in Hc. congruence.
  - intros a sm. rewrite Es. intros Ha. destruct (K6 a sm Ha) as (? & ? & Hw).
    split_and!; [done|lia|lia|]. intros Hc t Ht. unfold sleeps_on. rewrite Et. by apply Hw.
Qed.

(** The store changed, nothing else. *)
Lemma core_frame s s' rl sl zl : frame s s' -> core s rl sl zl -> core s' rl sl zl.
Proof.
  intros (Et & Es & En & Ec & Ep & Espl & Ei & El & _) Hc.
  by eapply core_ext; eauto.
Qed.

Lemma core_sleepers s rl sl zl : core s rl sl zl -> forall t, t ∈ sl -> is_Some (ts_threads s !! t).
Proof.
  intros Hc t Ht. apply (core_dom _ _ _ _ Hc). unfold everyone. rewrite !elem_of_app. tauto.
Qed.

Lemma core_lengths s rl sl zl :
  core s rl sl zl -> Z.of_nat (length (curl s) + length rl + length sl + length zl) <= MAXT.
Proof. intros Hc. pose proof (core_max _ _ _ _ Hc). unfold everyone in *. rewrite !length_app in *. lia. Qed.

(** Some sleepers become runnable. *)
Lemma core_wake s rl sl zl addr :
  core s rl sl zl -> core s (rl ++ woken s addr sl) (unwoken s addr sl) zl.
Proof.
  intros [K1 K2 K3 K4 K5 K6 K7].
  assert (Permutation (everyone s (rl ++ woken s addr sl) (unwoken s addr sl) zl)
            (everyone s rl sl zl)) as Hp.
  { unfold everyone. rewrite <- app_assoc, (app_assoc (woken _ _ _)), woken_perm. done. }
  assert (forall t, t ∈ woken s addr sl -> t ∈ sl) as W1.
  { intros t Ht. rewrite <- (woken_perm s addr sl). apply elem_of_app. by left. }
  assert (forall t, t ∈ unwoken s addr sl -> t ∈ sl) as W2.
  { intros t Ht. rewrite <- (woken_perm s addr sl). apply elem_of_app. by right. }
  constructor; try done.
  - by rewrite Hp.
  - intros t. by rewrite Hp.
  - by rewrite Hp.
  - intros t th Ht. eapply thread_ok_move; [by apply K5|..]; try done; [|apply W2].
    intros [Hr|Hr]%elem_of_app; [by apply (K5 t th Ht)|].
    pose proof (tk_asleep _ _ _ _ _ _ (K5 t th Ht) (W1 t Hr)) as Ha. intros Ek.
    unfold asleep_ok in Ha. by rewrite Ek in Ha.
  - intros a sm Ha. destruct (K6 a sm Ha) as (? & ? & Hw). split_and!; [done|lia|lia|].
    intros Hc t Ht. by apply Hw; [|apply W2].
Qed.

(** A thread that runs stops running, and goes to one of the lists. *)
Lemma core_park s rl sl zl rl' sl' zl' c th th' s' :
  core s rl sl zl -> ts_cur s = c -> c <> 0 -> ts_threads s !! c = Some th ->
  ts_threads s' = <[c := th']> (ts_threads s) -> t_sleepaddr th' = t_sleepaddr th ->
  ts_cur s' = 0 -> ts_prev s' = c -> ts_inint s' = ts_inint s -> ts_sems s' = ts_sems s ->
  Permutation (rl' ++ sl' ++ zl') (c :: rl ++ sl ++ zl) ->
  (forall t, t <> c -> (t ∈ rl' -> t ∈ rl) /\ (t ∈ sl' -> t ∈ sl) /\ (t ∈ zl' <-> t ∈ zl)) ->
  thread_ok s' rl' sl' zl' c th' ->
  (forall a sm, ts_sems s !! a = Some sm -> 0 < sem_count sm -> c ∈ sl' -> t_sleepaddr th <> a) ->
  core s' rl' sl' zl'.
Proof.
  intros [K1 K2 K3 K4 K5 K6 K7] Ec Hc0 Hth Et Ea Ec' Ep' Ei' Es' Hp Hmv Hc Hsem.
  assert (everyone s' rl' sl' zl' = rl' ++ sl' ++ zl') as Ee' by (unfold everyone, curl; by rewrite Ec').
  assert (everyone s rl sl zl = c :: rl ++ sl ++ zl) as Ee.
  { unfold everyone, curl. rewrite Ec. by destruct (Z.eqb_spec c 0). }
  assert (Permutation (everyone s' rl' sl' zl') (everyone s rl sl zl)) as Hp' by by rewrite Ee, Ee'.
  assert (c ∉ rl ++ sl ++ zl) as Hni by (rewrite Ee in K1; by apply NoDup_cons in K1 as [? _]).
  constructor.
  - by rewrite Hp'.
  - intros t. rewrite Hp', K2, Et. destruct (decide (t = c)) as [->|].
    + rewrite lookup_insert_eq, Hth. split; eauto.
    + by rewrite lookup_insert_ne.
  - rewrite Et, lookup_insert_ne by done. done.
  - by rewrite Hp'.
  - intros t tht. rewrite Et. destruct (decide (t = c)) as [->|Hne].
    + rewrite lookup_insert_eq. intros [= <-]. done.
    + rewrite lookup_insert_ne by done. intros Ht. destruct (Hmv t Hne) as (Hr & Hs & Hz).
      eapply thread_ok_move; [by apply K5|..]; try done.
      * intros ?. apply (K5 t tht Ht). by apply Hr.
      * intros a. by rewrite Es'.
      * intros _. unfold inint_of. rewrite Ec', Ep', Ec. simpl.
        destruct (Z.eqb_spec t 0) as [->|]; [congruence|]. destruct (Z.eqb_spec t c); [done|].
        destruct (Z.eqb_spec c 0); done.
  - intros a sm. rewrite Es'. intros Ha. destruct (K6 a sm Ha) as (? & ? & Hw).
    split_and!; [done|lia|lia|]. intros Hcnt t Ht. unfold sleeps_on. rewrite Et.
    destruct (decide (t = c)) as [->|Hne].
    + rewrite lookup_insert_eq, Ea. apply Z.eqb_neq. by eapply Hsem.
    + rewrite lookup_insert_ne by done. apply (Hw Hcnt t). by apply Hmv.
  - intros _. rewrite Ep', Et, lookup_insert_eq. eauto.
Qed.

(** The next thread starts to run. *)
Lemma core_dispatch s t rl sl zl old :
  core s (t :: rl) sl zl -> ts_cur s = 0 -> ts_prev s = old ->
  forall tht s',
    ts_threads s !! t = Some tht -> ts_sems s' = ts_sems s -> ts_cur s' = t ->
    (if old =? t then ts_threads s' = ts_threads s /\ ts_inint s' = ts_inint s
     else exists tho, ts_threads s !! old = Some tho /\
          ts_threads s' = <[old := th_inint (ts_inint s) tho]> (ts_threads s) /\
          ts_inint s' = t_pcb_ininterrupt tht) ->
    core s' rl sl zl.
Proof.
  intros [K1 K2 K3 K4 K5 K6 K7] Ec Ep tht s' Ht Es' Ec' Hsw.
  assert (t <> 0) as Ht0 by congruence.
  assert (everyone s' rl sl zl = everyone s (t :: rl) sl zl) as Ee.
  { unfold everyone, curl. rewrite Ec, Ec'. by destruct (Z.eqb_spec t 0). }
  assert (forall x, is_Some (ts_threads s' !! x) <-> is_Some (ts_threads s !! x)) as Hdom.
  { intros x. destruct (old =? t); [by destruct Hsw as [-> _]|].
    destruct Hsw as (tho & Ho & -> & _). destruct (decide (x = old)) as [->|].
    - rewrite lookup_insert_eq, Ho. split; eauto.
    - by rewrite lookup_insert_ne. }
  assert (forall x thx', ts_threads s' !! x = Some thx' ->
    exists thx, ts_threads s !! x = Some thx /\
      (thx' = thx \/ thx' = th_inint (ts_inint s) thx) /\ inint_of s' x thx' = inint_of s x thx) as Hth.
  { intros x thx' Hx. destruct (Z.eqb_spec old t) as [->|Hne].
    - destruct Hsw as [E1 E2]. rewrite E1 in Hx. exists thx'. split_and!; [done|by left|].
      unfold inint_of. rewrite Ec, Ec', E2, Ep. simpl.
      destruct (Z.eqb_spec x 0) as [->|]; [congruence|]. simpl.
      destruct (Z.eqb_spec x t); [done|]. destruct (Z.eqb_spec t 0); done.
    - destruct Hsw as (tho & Ho & E1 & E2). rewrite E1 in Hx. unfold inint_of.
      rewrite Ec, Ec', Ep, E2. simpl. destruct (Z.eqb_spec t 0); [done|]. simpl. rewrite orb_false_r.
      destruct (decide (x = old)) as [->|Hxo].
      + rewrite lookup_insert_eq in Hx. injection Hx as <-. exists tho. split_and!; [done|by right|].
        destruct (Z.eqb_spec old 0) as [->|]; [congruence|]. rewrite Z.eqb_refl. simpl.
        by destruct (Z.eqb_spec old t).
      + rewrite lookup_insert_ne in Hx by done. exists thx'. split_and!; [done|by left|].
        destruct (Z.eqb_spec x 0) as [->|]; [congruence|]. destruct (Z.eqb_spec x old); [done|]. simpl.
        destruct (Z.eqb_spec x t) as [->|]; [congruence|done]. }
  constructor.
  - by rewrite Ee.
  - intros x. by rewrite Ee, K2, Hdom.
  - apply eq_None_not_Some. rewrite Hdom, K3. by intros [].
  - by rewrite Ee.
  - intros x thx' Hx'. destruct (Hth x thx' Hx') as (thx & Hx & Hor & Hi).
    eapply thread_ok_move; [by apply K5|..]; try done.
    + by destruct Hor as [->| ->].
    + intros ?. apply (K5 x thx Hx). by right.
    + intros a. by rewrite Es'.
  - intros a sm. rewrite Es'. intros Ha. destruct (K6 a sm Ha) as (? & ? & Hw).
    split_and!; [done|lia|lia|]. intros Hcnt x Hx. specialize (Hw Hcnt x Hx). unfold sleeps_on in *.
    destruct (ts_threads s' !! x) as [thx'|] eqn:Hx'; [|done].
    destruct (Hth x thx' Hx') as (thx & E1 & Hor & _). rewrite E1 in Hw.
    by destruct Hor as [->| ->].
  - intros ?. congruence.
Qed.

(** What a context switch leaves alone. *)
Definition stays s s' : Prop :=
  ts_sems s' = ts_sems s /\ ts_num s' = ts_num s /\ ts_spl s' = ts_spl s /\
  ts_lbolt s' = ts_lbolt s /\ reserve s <= reserve s'.

Lemma frame_stays s s' : frame s s' -> stays s s'.
Proof. unfold frame, keep, stays. intros; destruct_and!. split_and!; done. Qed.

Lemma stays_trans s1 s2 s3 : stays s1 s2 -> stays s2 s3 -> stays s1 s3.
Proof. unfold stays. intros; destruct_and!. split_and!; congruence || lia. Qed.

(** A table of threads whose entries keep their blocks. *)
Lemma store_update_same s rl sl zl t th th' :
  store_ok s rl sl zl -> ts_threads s !! t = Some th -> thread_own t th' = thread_own t th ->
  store_ok (set_threads (<[t := th']> (ts_threads s)) s) rl sl zl.
Proof. intros Hst Ht Eo. eapply (store_update R [] []); [exact Hst|exact Ht|]. by rewrite Eo. Qed.

(** The run queue in front: the scheduler takes its head, and waits when there
    is none. *)
Definition dispatched s (rl sl zl : list Z) s' : Prop :=
  match rl with
  | [] => s' = s
  | t :: rl' => ts_cur s' = t /\ core s' rl' sl zl /\ store_ok s' rl' sl zl /\ ~ running s'
  end.

Lemma dispatch_wp s rl sl zl :
  store_ok s rl sl zl -> core s rl sl zl -> ts_cur s = 0 -> ts_spl s > 0 ->
  wp dispatch s (fun _ s' =>
    stays s s' /\ ts_heap s' = ts_heap s /\ dispatched s rl sl zl s').
Proof.
  intros Hst Hc Ec Hs. unfold dispatch. wp_step.
  eapply wp_mono; [by eapply scheduler_wp|]. intros o s1 (Hf & Hh & Hr).
  destruct rl as [|t rl].
  { destruct Hr as [-> ->]. wp_step. unfold stays. split_and!; done || lia. }
  destruct Hr as [-> Hst1]. pose proof Hf as (Et & Es & En & Ec1 & Ep & Esp & Ei & El & Er).
  wp_step. wp_step. wp_step. wp_step. simpl.
  assert (is_Some (ts_threads s !! t)) as [tht Ht].
  { apply (core_dom _ _ _ _ Hc). unfold everyone. rewrite !elem_of_app. right; left; left. }
  destruct (core_prev _ _ _ _ Hc Ec) as [tho Hold].
  assert (t_resume tht <> RRun) as Hnr.
  { apply (tk_parked _ _ _ _ _ _ (core_thread _ _ _ _ Hc t tht Ht)). left. }
  unfold md_switch. rewrite Ep. destruct (Z.eqb_spec (ts_prev s) t) as [Epv|Hne].
  - wp_step. split; [by unfold stays, reserve in *|]. split; [done|]. split_and!; [done| |done|].
    1: apply (core_dispatch s t rl sl zl (ts_prev s) Hc Ec eq_refl tht); [done..|].
    + rewrite Epv, Z.eqb_refl. simpl. by rewrite Et, Ei.
    + intros (x & Hx & Hr). simpl in Hx. rewrite Et, Ht in Hx. congruence.
  - wp_step. wp_step. wp_step. eapply wp_upd_thread; [simpl; by rewrite Et|].
    wp_step. eapply wp_the_thread.
    { simpl. rewrite Et, lookup_insert_ne by done. exact Ht. }
    wp_step. split; [by unfold stays, reserve in *|]. split; [done|]. split_and!; [done| | |].
    + apply (core_dispatch s t rl sl zl (ts_prev s) Hc Ec eq_refl tht); [done..|].
      destruct (Z.eqb_spec (ts_prev s) t); [done|]. simpl. exists tho. by rewrite Et, Ei.
    + eapply (store_update_same s1 rl sl zl (ts_prev s) tho); [exact Hst1|by rewrite Et|done].
    + intros (x & Hx & Hr). simpl in Hx. rewrite Et, lookup_insert_ne, Ht in Hx by done. congruence.
Qed.

(** ** The context switch *)

(** Where the current thread goes. *)
Definition stash (st : threadstate) (c : Z) (rl sl zl : list Z) : list Z * list Z * list Z :=
  match st with
  | S_READY => (rl ++ [c], sl, zl)
  | S_SLEEP => (rl, sl ++ [c], zl)
  | _ => (rl, sl, zl ++ [c])
  end.

(** What the resume point must be like for the place. *)
Definition fits s (st : threadstate) (th : thread) (k : resume) : Prop :=
  resume_ok s k /\ ts_inint s = exp_inint k /\
  match st with
  | S_READY => k <> RRun /\ k <> RDead
  | S_SLEEP => asleep_ok s (th_resume k th) /\
      forall sm, ts_sems s !! t_sleepaddr th = Some sm -> sem_count sm = 0
  | S_ZOMB => k = RDead /\ t_vmspace th = 0 /\ t_cwd th = 0
  | S_RUN => False
  end.

Definition switched s' (rl sl zl : list Z) : Prop :=
  exists rl', core s' rl' sl zl /\ store_ok s' rl' sl zl /\ curl s' ++ rl' = rl /\
    (ts_cur s' = 0 -> rl = []) /\ ~ running s'.

Lemma dispatched_switched s rl sl zl s' :
  core s rl sl zl -> store_ok s rl sl zl -> ts_cur s = 0 -> dispatched s rl sl zl s' ->
  switched s' rl sl zl.
Proof.
  intros Hc Hst Ec Hd. unfold dispatched in Hd. destruct rl as [|t rl].
  - subst s'. exists []. split_and!; try done; [unfold curl; by rewrite Ec|].
    intros (x & Hx & _). rewrite Ec, (core_zero _ _ _ _ Hc) in Hx. done.
  - destruct Hd as (E1 & Hc1 & Hst1 & Hnr). exists rl. split_and!; try done.
    + unfold curl. rewrite E1. destruct (Z.eqb_spec t 0) as [->|]; [|done].
      destruct (core_dom _ _ _ _ Hc 0) as [D _]. unfold everyone, curl in D.
      rewrite !elem_of_app, (core_zero _ _ _ _ Hc) in D. destruct D as [x ?]; [|done].
      right; left; left.
    + intros E0. destruct (core_dom _ _ _ _ Hc 0) as [D _]. unfold everyone, curl in D.
      rewrite !elem_of_app, (core_zero _ _ _ _ Hc) in D. destruct D as [x ?]; [|done].
      right; left. rewrite <- E1, E0. left.
Qed.

(** The current thread, parked in the right list, keeps the invariant. *)
Lemma core_stash s rl sl zl st c th k s1 rl' sl' zl' :
  core s rl sl zl -> ts_cur s = c -> c <> 0 -> ts_threads s !! c = Some th ->
  fits s st th k -> stash st c rl sl zl = (rl', sl', zl') ->
  ts_threads s1 = <[c := th_resume k th]> (ts_threads s) -> ts_cur s1 = 0 -> ts_prev s1 = c ->
  ts_inint s1 = ts_inint s -> ts_sems s1 = ts_sems s ->
  core s1 rl' sl' zl'.
Proof.
  intros Hc Ec Hc0 Hth (Hk & Hi & Hfit) Est Et Ec1 Ep1 Ei1 Es1.
  pose proof (core_nodup _ _ _ _ Hc) as Hnd. unfold everyone, curl in Hnd. rewrite Ec in Hnd.
  destruct (Z.eqb_spec c 0) as [|_]; [done|]. cbn [app] in Hnd.
  apply NoDup_cons in Hnd as [Hni _]. rewrite !elem_of_app in Hni.
  pose proof (core_thread _ _ _ _ Hc c th Hth) as [K1 K2 K3 K4 K5 K6 K7].
  eapply (core_park s rl sl zl _ _ _ c th _ s1 Hc); try done.
  - destruct st; simpl in Est; simplify_eq; solve_blocks.
  - intros t Hne. destruct st; simpl in Est; simplify_eq; rewrite !elem_of_app, !list_elem_of_singleton;
      split_and!; tauto || (split; tauto).
  - assert (inint_of s1 c (th_resume k th) = exp_inint k) as Hi1.
    { unfold inint_of. rewrite Ec1, Ep1, Ei1, !Z.eqb_refl, orb_true_r. done. }
    assert (canary_ok (th_resume k th) = true) as Hcan by done.
    assert (resume_ok s1 k) as Hk1 by (destruct k; simpl in *; by rewrite ?Es1).
    destruct st; simpl in Est, Hfit; simplify_eq.
    + destruct Hfit. constructor; try done; tauto.
    + destruct Hfit as [Ha _].
      assert (asleep_ok s1 (th_resume k th)) as Ha1.
      { unfold asleep_ok in *. simpl in *. destruct k; by rewrite ?Es1. }
      assert (k <> RDead /\ k <> RRun) by (by destruct k).
      constructor; try done; tauto.
    + destruct Hfit as (-> & ? & ?). constructor; try done; try tauto.
      intros Hz. destruct Hz. apply elem_of_app. right. by left.
  - intros a sm Ha Hcnt Hin <-. destruct st; simpl in Est, Hfit; simplify_eq; try tauto.
    destruct Hfit as [_ Hz]. rewrite (Hz sm Ha) in Hcnt. lia.
Qed.

(** The call of [mi_switch] that puts the current thread on its list. *)
Definition stash_call (st : threadstate) (c : Z) : M T Z :=
  match st with
  | S_READY => make_runnable c
  | S_SLEEP => add_sleeper c
  | S_ZOMB => add_zombie c
  | S_RUN => halt Panic
  end.

Lemma stash_call_wp s rl sl zl st c rl' sl' zl' :
  store_ok s rl sl zl -> ts_spl s > 0 -> st <> S_RUN ->
  Z.of_nat (length rl) < MAXT -> Z.of_nat (length sl) < MAXT -> Z.of_nat (length zl) < MAXT ->
  stash st c rl sl zl = (rl', sl', zl') ->
  wpo may_panic (stash_call st c) s (fun r s' =>
    frame s s' /\ ((r = 0 /\ store_ok s' rl' sl' zl') \/ (r = ENOMEM /\ alloc_fails))).
Proof.
  intros Hst Hs Hrun Hr Hl Hz Est. destruct st; simpl in Est; simplify_eq.
  - eapply wp_mono; [by apply make_runnable_wp|]. intros r s1 [Hf [?|(? & ? & ?)]]; auto.
  - eapply wp_mono; [by apply add_sleeper_wp|]. intros r s1 [Hf [?|(? & ? & ?)]]; auto.
  - eapply wp_mono; [by apply add_zombie_wp|]. intros r s1 [Hf [?|(? & ? & ?)]]; auto.
Qed.

(** [mi_switch], from what is known of the call that stashes the current thread:
    that call may panic only if [p], and leaves a heap that satisfies [HP]. *)
Lemma mi_switch_gen (p : Prop) (HP : H -> Prop) s rl sl zl st c th k rl' sl' zl' :
  store_ok s rl sl zl -> core s rl sl zl -> ts_cur s = c -> ts_threads s !! c = Some th ->
  ts_spl s > 0 -> fits s st th k -> stash st c rl sl zl = (rl', sl', zl') ->
  (forall s1, store_ok s1 rl sl zl -> ts_spl s1 > 0 -> ts_heap s1 = ts_heap s ->
     reserve s1 = reserve s ->
     wpo p (stash_call st c) s1 (fun r s2 =>
       frame s1 s2 /\ ((r = 0 /\ store_ok s2 rl' sl' zl' /\ HP (ts_heap s2)) \/ (r = ENOMEM /\ p)))) ->
  wpo p (mi_switch st k) s (fun b s' =>
    b = true /\ stays s s' /\ switched s' rl' sl' zl' /\ HP (ts_heap s')).
Proof.
  intros Hst Hc Ec Hth Hs Hfit Est Hcall.
  assert (c <> 0) as Hc0 by (intros ->; rewrite (core_zero _ _ _ _ Hc) in Hth; done).
  pose proof (tk_canary _ _ _ _ _ _ (core_thread _ _ _ _ Hc c th Hth)) as Hcan.
  unfold mi_switch. wp_step. apply wp_assert_spl; [done|]. wp_step. wp_step.
  rewrite Ec. destruct (Z.eqb_spec c 0); [done|].
  wp_step. eapply wp_the_thread; [done|]. wp_step. wp_step; [done|].
  wp_step. wp_step. wp_step. wp_step. wp_step. eapply wp_upd_thread; [exact Hth|].
  set (s1 := set_threads _ _).
  assert (store_ok s1 rl sl zl) as Hst1.
  { apply (store_update_same (set_prev c (set_cur 0 s)) rl sl zl c th); done. }
  assert (core s1 rl' sl' zl') as Hc1 by (by eapply core_stash).
  wp_step. fold (stash_call st c).
  eapply wp_mono; [apply Hcall; [exact Hst1|done..]|].
  intros r s2 (Hf & [(-> & Hst2 & HP2)|[-> Hfail]]); wp_step.
  2: { unfold ENOMEM, kassert, wpx; simpl. done. }
  wp_step. wp_step.
  assert (stays s s2) as Hs2 by (apply frame_stays in Hf; exact Hf).
  assert (ts_cur s2 = 0) as Ec2 by (by destruct Hf as (_ & _ & _ & -> & _)).
  assert (core s2 rl' sl' zl') as Hc2 by (by eapply core_frame).
  eapply (wp_weaken False); [|done].
  eapply wp_mono; [apply (dispatch_wp s2 rl' sl' zl'); [done..|]|].
  { by destruct Hs2 as (_ & _ & -> & _). }
  intros [] s3 (Hs3 & Eh & Hd). wp_step. split; [done|]. split; [by eapply stays_trans|].
  split; [by eapply dispatched_switched|]. by rewrite Eh.
Qed.

Lemma mi_switch_wp s rl sl zl st c th k rl' sl' zl' :
  store_ok s rl sl zl -> core s rl sl zl -> ts_cur s = c -> ts_threads s !! c = Some th ->
  ts_spl s > 0 -> fits s st th k -> stash st c rl sl zl = (rl', sl', zl') ->
  wpo may_panic (mi_switch st k) s (fun b s' =>
    b = true /\ stays s s' /\ switched s' rl' sl' zl').
Proof.
  intros Hst Hc Ec Hth Hs Hfit Est.
  assert (c <> 0) as Hc0 by (intros ->; rewrite (core_zero _ _ _ _ Hc) in Hth; done).
  pose proof (core_lengths _ _ _ _ Hc) as Hlen. unfold curl in Hlen. rewrite Ec in Hlen.
  destruct (Z.eqb_spec c 0); [done|]. simpl in Hlen.
  eapply wp_mono.
  { eapply (mi_switch_gen may_panic (fun _ => True)); try done. intros s1 Hst1 Hs1 _ _.
    eapply wp_mono; [eapply stash_call_wp; [exact Hst1|done| |lia|lia|lia|done]|].
    - intros ->. by destruct Hfit as (_ & _ & []).
    - intros r s2 (Hf & [[-> ?]|[-> ?]]); (split; [done|]); [by left|]. right. split; [done|]. by right. }
  intros b s' (? & ? & ? & _). done.
Qed.

(** ** The actions *)

(** The head of [rl] was switched to, [rl'] is the rest; with [rl] empty the
    scheduler waits. *)
Definition runs_next s (rl' rl : list Z) : Prop :=
  curl s ++ rl' = rl /\ ~ running s /\ (ts_cur s = 0 -> rl = []).

(** The run queue over a step from [s], with queue [rl], to [s']: either the
    same thread is current and threads have queued up behind, or the head of the
    queue, with those that queued up, is current.  [switch] rules out the first. *)
Definition queued (switch : bool) s (rl : list Z) s' (rl' : list Z) : Prop :=
  (switch = false /\ ts_cur s' = ts_cur s /\ exists more, rl' = rl ++ more) \/
  (exists more, curl s' ++ rl' = rl ++ more /\ (ts_cur s' = 0 -> rl ++ more = [])).

Definition moved (switch : bool) s (rl : list Z) s' : Prop :=
  exists rl' sl' zl', threads_ok s' rl' sl' zl' /\ queued switch s rl s' rl'.

Lemma moved_stay s rl s' more sl zl :
  threads_ok s' (rl ++ more) sl zl -> ts_cur s' = ts_cur s -> moved false s rl s'.
Proof. intros Hok Ec. eexists _, _, _. split; [exact Hok|]. left. eauto. Qed.

Lemma moved_same s rl s' sl zl :
  threads_ok s' rl sl zl -> ts_cur s' = ts_cur s -> moved false s rl s'.
Proof. intros Hok. eapply (moved_stay s rl s' []). by rewrite app_nil_r. Qed.

Lemma moved_next switch s rl s' rl' more sl zl :
  threads_ok s' rl' sl zl -> runs_next s' rl' (rl ++ more) -> moved switch s rl s'.
Proof.
  intros Hok (Hq & _ & Hz). eexists _, _, _. split; [exact Hok|]. right. by exists more.
Qed.

Lemma moved_head switch s rl s' rl' sl zl :
  threads_ok s' rl' sl zl -> runs_next s' rl' rl -> moved switch s rl s'.
Proof. intros Hok Hn. eapply (moved_next switch s rl s' rl' []); [exact Hok|]. by rewrite app_nil_r. Qed.

Lemma switched_ok s rl sl zl :
  switched s rl sl zl -> ts_spl s > 0 -> ts_num s = Z.of_nat (length rl + length sl) ->
  (ts_num s <= 1 \/ ts_num s <= reserve s) ->
  exists rl', threads_ok s rl' sl zl /\ runs_next s rl' rl.
Proof.
  intros (rl' & Hc & Hst & Hrl & Hz0 & Hnr) Hs Hn Hres. exists rl'.
  split; [|done]. unfold threads_ok, counted. split_and!; try done; try lia.
  rewrite Hn, app_assoc, Hrl, length_app. lia.
Qed.

Lemma running_cur s rl sl zl :
  core s rl sl zl -> running s -> ts_cur s <> 0 /\ curl s = [ts_cur s].
Proof.
  intros Hc (th & Hth & _). assert (ts_cur s <> 0) as Hn.
  { intros E0. rewrite E0, (core_zero _ _ _ _ Hc) in Hth. done. }
  split; [done|]. unfold curl. by destruct (Z.eqb_spec (ts_cur s) 0).
Qed.

(** [thread_yield] by a running thread: it goes to the tail of the run queue and
    the head of the queue runs. *)
Lemma thread_yield_wp s rl sl zl kf :
  store_ok s rl sl zl -> core s rl sl zl -> running s -> counted s rl sl ->
  (resume_ok s (kf (ts_spl s)) /\ ts_inint s = exp_inint (kf (ts_spl s)) /\
   kf (ts_spl s) <> RRun /\ kf (ts_spl s) <> RDead) ->
  wpo may_panic (thread_yield kf) s (fun b s' =>
    b = true /\ ts_sems s' = ts_sems s /\
    exists rl', threads_ok s' rl' sl zl /\ runs_next s' rl' (rl ++ [ts_cur s])).
Proof.
  intros Hst Hc Hrun [Hn Hres] (Hk & Hi & Hk1 & Hk2).
  destruct (running_cur _ _ _ _ Hc Hrun) as [Hc0 Ecl]. destruct Hrun as (th & Hth & Hr).
  pose proof Hst as (aS & _ & _ & ES & _).
  unfold thread_yield. wp_step. apply wp_splx. wp_step. wp_step. wp_step.
  wp_step; [simpl; by rewrite ES|]. wp_step.
  eapply wp_mono.
  { eapply (mi_switch_wp (set_spl SPL_HIGH s) rl sl zl S_READY (ts_cur s) th); try done.
    - eapply core_ext; [exact Hc|done..|by right]. }
  intros b s1 (-> & (Es & En & Esp & El & Er) & Hsw). wp_step. split_and!; [done..|].
  apply (switched_ok s1 (rl ++ [ts_cur s]) sl zl); try done.
  - rewrite Esp. done.
  - rewrite En. simpl. rewrite Hn, Ecl, !length_app. simpl. lia.
  - rewrite En. simpl in *. destruct Hres; [left; done|right]. unfold reserve in *; simpl in *. lia.
Qed.

(** The current thread changes its own structure. *)
Lemma core_upd_cur s rl sl zl th' :
  core s rl sl zl -> is_Some (ts_threads s !! ts_cur s) -> canary_ok th' = true ->
  t_resume th' = RRun -> core (set_threads (<[ts_cur s := th']> (ts_threads s)) s) rl sl zl.
Proof.
  intros Hc [th Hth] Hcan Hr. set (c := ts_cur s) in *.
  assert (c <> 0) as Hc0 by (intros E0; rewrite E0, (core_zero _ _ _ _ Hc) in Hth; done).
  pose proof (core_nodup _ _ _ _ Hc) as Hnd. unfold everyone, curl in Hnd. fold c in Hnd.
  destruct (Z.eqb_spec c 0) as [|_]; [done|]. cbn [app] in Hnd.
  apply NoDup_cons in Hnd as [Hni _]. rewrite !elem_of_app in Hni.
  destruct Hc as [K1 K2 K3 K4 K5 K6 K7]. constructor; simpl; try done.
  - intros t. change (everyone _ rl sl zl) with (everyone s rl sl zl). rewrite K2.
    destruct (decide (t = c)) as [->|]; [|by rewrite lookup_insert_ne].
    rewrite lookup_insert_eq, Hth. split; eauto.
  - by rewrite lookup_insert_ne.
  - intros t tht. destruct (decide (t = c)) as [->|Hne].
    + rewrite lookup_insert_eq. intros [= <-]. constructor; rewrite ?Hr; try done; tauto.
    + rewrite lookup_insert_ne by done. intros Ht.
      eapply thread_ok_move; [by apply K5|..]; try done. by apply (K5 t tht Ht).
  - intros a sm Ha. destruct (K6 a sm Ha) as (? & ? & Hw). split_and!; [done|lia|lia|].
    intros Hcnt t Ht. unfold sleeps_on; simpl. rewrite lookup_insert_ne; [by apply Hw|].
    intros <-. tauto.
Qed.

Lemma thread_sleep_gen (p : Prop) (HP : H -> Prop) s rl sl zl addr k :
  store_ok s rl sl zl -> core s rl sl zl -> running s -> counted s rl sl ->
  ts_spl s > 0 -> ts_inint s = 0 -> resume_ok s k ->
  match k with
  | RSleep => ts_sems s !! addr = None
  | RP sem _ => addr = sem /\ forall sm, ts_sems s !! sem = Some sm -> sem_count sm = 0
  | _ => False
  end ->
  (forall s1, store_ok s1 rl sl zl -> ts_spl s1 > 0 -> ts_heap s1 = ts_heap s ->
     reserve s1 = reserve s ->
     wpo p (add_sleeper (ts_cur s)) s1 (fun r s2 =>
       frame s1 s2 /\ ((r = 0 /\ store_ok s2 rl (sl ++ [ts_cur s]) zl /\ HP (ts_heap s2)) \/
                       (r = ENOMEM /\ p)))) ->
  wpo p (thread_sleep addr k) s (fun _ s' =>
    ts_sems s' = ts_sems s /\ HP (ts_heap s') /\
    exists rl', threads_ok s' rl' (sl ++ [ts_cur s]) zl /\ runs_next s' rl' rl).
Proof.
  intros Hst Hc Hrun [Hn Hres] Hs Hi Hk Hka Hcall.
  destruct (running_cur _ _ _ _ Hc Hrun) as [Hc0 Ecl]. destruct Hrun as (th & Hth & Hr).
  unfold thread_sleep. wp_step. wp_step. wp_step. wp_step. wp_step.
  eapply wp_upd_thread; [exact Hth|]. wp_step.
  set (s1 := set_threads _ s).
  assert (core s1 rl sl zl) as Hc1.
  { apply core_upd_cur; [done|eauto| |done]. apply (core_thread _ _ _ _ Hc _ _ Hth). }
  eapply wp_mono.
  { eapply (mi_switch_gen p HP s1 rl sl zl S_SLEEP (ts_cur s) (th_sleepaddr addr th) k); try done.
    - by apply (store_update_same s rl sl zl (ts_cur s) th).
    - apply lookup_insert_eq.
    - unfold fits. split; [by destruct k|]. split; [by destruct k|].
      unfold asleep_ok. simpl. destruct k; try done; simpl in *; destruct_and?; subst; split; try done.
      intros sm Hsm. congruence. }
  intros b s2 (-> & (Es & En & Esp & El & Er) & Hsw & HP2). wp_step. split; [done|]. split; [done|].
  apply (switched_ok s2 rl (sl ++ [ts_cur s]) zl); try done.
  - rewrite Esp. done.
  - rewrite En. simpl. rewrite Hn, Ecl, !length_app. simpl. lia.
  - rewrite En. simpl in *. destruct Hres; [left; done|right]. unfold reserve in *; simpl in *. lia.
Qed.

Lemma thread_sleep_wp s rl sl zl addr k :
  store_ok s rl sl zl -> core s rl sl zl -> running s -> counted s rl sl ->
  ts_spl s > 0 -> ts_inint s = 0 -> resume_ok s k ->
  match k with
  | RSleep => ts_sems s !! addr = None
  | RP sem _ => addr = sem /\ forall sm, ts_sems s !! sem = Some sm -> sem_count sm = 0
  | _ => False
  end ->
  wpo may_panic (thread_sleep addr k) s (fun _ s' =>
    ts_sems s' = ts_sems s /\
    exists rl', threads_ok s' rl' (sl ++ [ts_cur s]) zl /\ runs_next s' rl' rl).
Proof.
  intros Hst Hc Hrun Hn Hs Hi Hk Hka. destruct (running_cur _ _ _ _ Hc Hrun) as [_ Ecl].
  pose proof (core_lengths _ _ _ _ Hc) as Hlen. rewrite Ecl in Hlen. simpl in Hlen.
  eapply wp_mono.
  { apply (thread_sleep_gen may_panic (fun _ => True) s rl sl zl addr k); try done.
    intros s1 Hst1 _ _ _. eapply wp_mono; [apply add_sleeper_wp; [exact Hst1|lia]|].
    intros r s2 (Hf & [[-> ?]|(-> & ? & ?)]); (split; [done|]); [by left|].
    right. split; [done|]. by right. }
  intros [] s2 (? & _ & ?). done.
Qed.

(** The current thread [c] is running with structure [th], and the rest is as
    in [s0]. *)
Definition at_work s0 rl sl zl (c : Z) (th : thread) s : Prop :=
  store_ok s rl sl zl /\ core s rl sl zl /\ stays s0 s /\ ts_cur s = c /\
  ts_inint s = ts_inint s0 /\ ts_threads s !! c = Some th /\ t_resume th = RRun.

Lemma at_work_upd s0 rl sl zl c th s f :
  at_work s0 rl sl zl c th s -> thread_own c (f th) = thread_own c th ->
  canary_ok (f th) = canary_ok th -> t_resume (f th) = RRun ->
  wpo may_panic (upd_thread c f) s (fun _ s' => at_work s0 rl sl zl c (f th) s').
Proof.
  intros (Hst & Hc & Hs & Ec & Hi & Hth & Hr) Eo Ecan Er.
  eapply wp_upd_thread; [exact Hth|]. unfold at_work. split_and!; try done.
  - by apply (store_update_same s rl sl zl c th).
  - rewrite <- Ec. apply core_upd_cur; [done|rewrite Ec; eauto| |done].
    rewrite Ecan. apply (core_thread _ _ _ _ Hc _ _ Hth).
  - apply lookup_insert_eq.
Qed.

Lemma at_work_env {A} s0 rl sl zl c th s (m : M E A) :
  at_work s0 rl sl zl c th s -> (forall e, env_ok e -> wp m e (fun _ e' => env_ok e')) ->
  wpo may_panic (on_env m) s (fun _ s' => at_work s0 rl sl zl c th s').
Proof.
  intros (Hst & Hc & Hs & Ec & Hi & Hth & Hr) Hm.
  eapply wp_mono; [by eapply (store_env R)|]. intros a s' (e & -> & Hst').
  unfold at_work. split_and!; try done. eapply core_ext; [exact Hc|done..|by right].
Qed.

(** The resources [thread_exit] gives up. *)
Lemma exit_release_wp s0 rl sl zl c th s :
  at_work s0 rl sl zl c th s ->
  wpo may_panic
    (let* _ := (if t_vmspace th =? 0 then ret tt
                else
                  let* _ := upd_thread c (th_vmspace 0) in
                  on_env (as_destroy (t_vmspace th))) in
     if t_cwd th =? 0 then ret tt
     else
       let* _ := on_env (vop_decref (t_cwd th)) in
       upd_thread c (th_cwd 0)) s
    (fun _ s' => exists th', at_work s0 rl sl zl c th' s' /\ t_vmspace th' = 0 /\ t_cwd th' = 0).
Proof.
  intros Hw. wp_step.
  eapply (wp_mono _ _ (fun _ s1 => exists th1, at_work s0 rl sl zl c th1 s1 /\ t_vmspace th1 = 0 /\
    t_cwd th1 = t_cwd th)).
  { destruct (Z.eqb_spec (t_vmspace th) 0); [wp_step; by exists th|]. wp_step.
    eapply wp_mono; [eapply (at_work_upd _ _ _ _ _ _ _ (th_vmspace 0)); [exact Hw|done..|apply Hw]|].
    intros [] s1 Hw1. eapply wp_mono; [eapply at_work_env; [exact Hw1|intros e; apply as_destroy_law]|].
    intros [] s2 Hw2. by exists (th_vmspace 0 th). }
  intros [] s1 (th1 & Hw1 & Hv1 & Hd1). rewrite <- Hd1.
  destruct (Z.eqb_spec (t_cwd th1) 0); [wp_step; by exists th1|]. wp_step.
  eapply wp_mono; [eapply at_work_env; [exact Hw1|intros e; apply vop_decref_law]|].
  intros [] s2 Hw2.
  eapply wp_mono; [eapply (at_work_upd _ _ _ _ _ _ _ (th_cwd 0)); [exact Hw2|done..|apply Hw2]|].
  intros [] s3 Hw3. by exists (th_cwd 0 th1).
Qed.

Lemma thread_exit_wp s rl sl zl :
  store_ok s rl sl zl -> core s rl sl zl -> running s -> counted s rl sl -> ts_inint s = 0 ->
  wpo may_panic thread_exit s (fun _ s' =>
    ts_sems s' = ts_sems s /\ ts_num s' = ts_num s - 1 /\
    exists rl', threads_ok s' rl' sl (zl ++ [ts_cur s]) /\ runs_next s' rl' rl).
Proof.
  intros Hst Hc Hrun [Hn Hres] Hi.
  destruct (running_cur _ _ _ _ Hc Hrun) as [Hc0 Ecl]. destruct Hrun as (th & Hth & Hr).
  pose proof (tk_canary _ _ _ _ _ _ (core_thread _ _ _ _ Hc _ _ Hth)) as Hcan.
  pose proof (core_lengths _ _ _ _ Hc) as Hlen. rewrite Ecl in *. simpl in Hlen, Hn.
  unfold thread_exit. wp_step. wp_step. wp_step. eapply wp_the_thread; [done|].
  wp_step. wp_step; [done|]. wp_step. apply wp_splx.
  assert (at_work (set_spl SPL_HIGH s) rl sl zl (ts_cur s) th (set_spl SPL_HIGH s)) as Hw.
  { unfold at_work, stays. split_and!; try done; try lia. eapply core_ext; [exact Hc|done..|by right]. }
  apply exit_release_wp in Hw. eapply wp_bind_assoc; [exact Hw|].
  intros [] s1 (th1 & (Hst1 & Hc1 & (Es & En & Esp & El & Er) & Ec1 & Hi1 & Hth1 & Hr1) & Hv & Hd).
  simpl in *. wp_step. wp_step. wp_step. wp_step.
  wp_step. wp_step. wp_step.
  rewrite s32_small by (unfold MAXT in *; rewrite En, Hn, length_app; lia).
  eapply wp_mono.
  { eapply (mi_switch_wp (set_num (ts_num s1 - 1) s1) rl sl zl S_ZOMB (ts_cur s) th1 RDead); try done.
    - eapply core_ext; [exact Hc1|done..|by right].
    - simpl. rewrite Esp. done.
    - unfold fits. split_and!; try done. simpl. congruence. }
  intros b s2 (-> & (Es2 & En2 & Esp2 & El2 & Er2) & Hsw). wp_step. simpl in *.
  split; [congruence|]. split; [lia|].
  apply (switched_ok s2 rl sl (zl ++ [ts_cur s])); try done.
  - rewrite Esp2. simpl. rewrite Esp. done.
  - rewrite En2, En, Hn, length_app. lia.
  - unfold reserve in *; simpl in *. lia.
Qed.

(** ** Semaphores *)

Definition count_of s (a : Z) : Z := match ts_sems s !! a with Some sm => sem_count sm | None => 0 end.

Lemma core_set_sem s rl sl zl a sm sm' :
  core s rl sl zl -> ts_sems s !! a = Some sm -> 0 <= sem_count sm' < 2 ^ 31 ->
  (0 < sem_count sm' -> forall t, t ∈ sl -> sleeps_on s a t = false) ->
  core (set_sems (<[a := sm']> (ts_sems s)) s) rl sl zl.
Proof.
  intros [K1 K2 K3 K4 K5 K6 K7] Ha Hb Hw.
  assert (forall x, is_Some (<[a := sm']> (ts_sems s) !! x) <-> is_Some (ts_sems s !! x)) as Hd.
  { intros x. destruct (decide (x = a)) as [->|]; [|by rewrite lookup_insert_ne].
    rewrite lookup_insert_eq, Ha. split; eauto. }
  constructor; simpl; try done.
  - intros t th Ht. eapply thread_ok_move; [by apply K5|..]; try done. by apply (K5 t th Ht).
  - intros x smx. simpl. destruct (decide (x = a)) as [->|].
    + rewrite lookup_insert_eq. intros [= <-]. destruct (K6 a sm Ha) as (? & _).
      split_and!; [done|lia|lia|]. exact Hw.
    + rewrite lookup_insert_ne by done. apply K6.
Qed.

Lemma store_set_sem s rl sl zl a sm c :
  store_ok s rl sl zl -> ts_sems s !! a = Some sm ->
  store_ok (set_sems (<[a := mkSem (sem_name sm) c]> (ts_sems s)) s) rl sl zl.
Proof.
  intros (aS & aZ & q & ES & EZ & EQ & WS & CS & WZ & CZ & Wq & Hq & Hb & Ho & He) Ha.
  exists aS, aZ, q. split_and!; try done. eapply owns_move; [exact Ho|].
  unfold blocks; simpl. by rewrite (table_blocks_update sem_own _ a sm).
Qed.

Lemma wp_the_sem p a sm s (Q : semaphore -> T -> Prop) :
  ts_sems s !! a = Some sm -> Q sm s -> wpo p (the_sem a) s Q.
Proof. intros Ha HQ. unfold the_sem. wp_steps. by eapply wp_deref. Qed.

Lemma wp_set_count p a sm c s (Q : unit -> T -> Prop) :
  ts_sems s !! a = Some sm ->
  Q tt (set_sems (<[a := mkSem (sem_name sm) c]> (ts_sems s)) s) -> wpo p (set_count a c) s Q.
Proof. intros Ha HQ. unfold set_count. wp_step. eapply wp_the_sem; [done|]. by wp_step. Qed.

(** What [V] changes besides the lists. *)
Definition signalled s (a : Z) s' : Prop :=
  ts_threads s' = ts_threads s /\ ts_num s' = ts_num s /\ ts_cur s' = ts_cur s /\
  ts_prev s' = ts_prev s /\ ts_spl s' = ts_spl s /\ ts_inint s' = ts_inint s /\
  ts_lbolt s' = ts_lbolt s /\ reserve s <= reserve s' /\
  exists sm, ts_sems s !! a = Some sm /\
    ts_sems s' = <[a := mkSem (sem_name sm) (sem_count sm + 1)]> (ts_sems s).

Lemma V_wp s rl sl zl a sm :
  store_ok s rl sl zl -> (forall t, t ∈ sl -> is_Some (ts_threads s !! t)) ->
  Z.of_nat (length rl + length sl) <= MAXT ->
  ts_sems s !! a = Some sm -> a <> 0 -> 0 <= sem_count sm < 2 ^ 31 - 1 ->
  wpo may_panic (V a) s (fun _ s' =>
    signalled s a s' /\ store_ok s' (rl ++ woken s a sl) (unwoken s a sl) zl).
Proof.
  intros Hst Hin Hl Ha Ha0 Hb. unfold V. wp_step. wp_step.
  wp_step. apply wp_splx. wp_step. eapply wp_the_sem; [done|].
  rewrite s32_small by lia. wp_step. eapply wp_set_count; [done|]. wp_step. wp_step. wp_step.
  eapply wp_mono.
  { apply (thread_wakeup_wp R _ rl sl zl); [by apply store_set_sem|done|done|done]. }
  intros [] s1 [(Et & Es & En & Ec & Ep & Esp & Ei & El & Er) Hst1]. simpl in *.
  wp_step. apply wp_splx. wp_step. split; [|exact Hst1].
  unfold signalled, reserve in *; simpl in *. split_and!; try done. by exists sm.
Qed.

(** Waking up is a step of the invariant, and after [V] nobody sleeps on the
    semaphore. *)
Lemma core_signalled s a s' rl sl zl :
  core s rl sl zl -> signalled s a s' -> count_of s a < 2 ^ 31 - 1 ->
  core s' (rl ++ woken s a sl) (unwoken s a sl) zl.
Proof.
  intros Hc (Et & En & Ec & Ep & Esp & Ei & El & Er & sm & Ha & Es) Hb.
  unfold count_of in Hb. rewrite Ha in Hb.
  destruct (core_sems _ _ _ _ Hc a sm Ha) as (? & ? & _).
  apply (core_wake s rl sl zl a) in Hc.
  eapply (core_set_sem s _ _ _ a sm (mkSem (sem_name sm) (sem_count sm + 1))) in Hc; [|done|simpl; lia|].
  - eapply core_ext; [exact Hc|done..|by right].
  - intros _ t Ht. unfold unwoken in Ht. apply list_elem_of_In, filter_In in Ht as [_ Ht].
    by destruct (sleeps_on s a t).
Qed.

(** The loop of [P]: either the semaphore is taken and the thread goes on, or
    the thread sleeps on it. *)
Lemma P_loop_wp s rl sl zl a sm spl :
  store_ok s rl sl zl -> core s rl sl zl -> running s -> counted s rl sl ->
  ts_spl s > 0 -> ts_inint s = 0 -> ts_sems s !! a = Some sm -> 0 <= spl ->
  wpo may_panic (P_loop a spl) s (fun b s' =>
    if b then
      0 < sem_count sm /\
      ts_sems s' = <[a := mkSem (sem_name sm) (sem_count sm - 1)]> (ts_sems s) /\
      threads_ok s' rl sl zl /\ running s' /\ ts_spl s' = spl /\ ts_cur s' = ts_cur s
    else
      sem_count sm = 0 /\ ts_sems s' = ts_sems s /\
      exists rl', threads_ok s' rl' (sl ++ [ts_cur s]) zl /\ runs_next s' rl' rl).
Proof.
  intros Hst Hc Hrun Hn Hs Hi Ha Hspl. destruct (core_sems _ _ _ _ Hc a sm Ha) as (_ & Hcnt & Hw).
  unfold P_loop. wp_step. eapply wp_the_sem; [done|].
  destruct (Z.eqb_spec (sem_count sm) 0) as [E0|Hne].
  - wp_step. eapply wp_mono.
    { eapply (thread_sleep_wp s rl sl zl a (RP a spl)); try done.
      split; [done|]. intros sm' Ha'. congruence. }
    intros [] s1 (Es & Hex). wp_step. done.
  - wp_step. wp_step. wp_step. rewrite s32_small by lia. eapply wp_set_count; [done|].
    wp_step. apply wp_splx. wp_step. split_and!; [lia|done| |done..].
    destruct Hn as [Hn Hres]. unfold threads_ok, counted. split_and!; try done.
    + by apply (store_set_sem s).
    + assert (core (set_sems (<[a := mkSem (sem_name sm) (sem_count sm - 1)]> (ts_sems s)) s)
              rl sl zl) as Hc1.
      { eapply core_set_sem; [exact Hc|exact Ha|simpl; lia|]. simpl. intros ?. apply Hw. lia. }
      eapply core_ext; [exact Hc1|done..|by right].
    + by left.
Qed.

Lemma P_wp s rl sl zl a sm :
  threads_ok s rl sl zl -> running s -> ts_sems s !! a = Some sm ->
  wpo may_panic (P a) s (fun b s' =>
    if b then
      0 < sem_count sm /\
      ts_sems s' = <[a := mkSem (sem_name sm) (sem_count sm - 1)]> (ts_sems s) /\
      threads_ok s' rl sl zl /\ running s' /\ ts_spl s' = ts_spl s /\ ts_cur s' = ts_cur s
    else
      sem_count sm = 0 /\ ts_sems s' = ts_sems s /\
      exists rl', threads_ok s' rl' (sl ++ [ts_cur s]) zl /\ runs_next s' rl' rl).
Proof.
  intros (Hst & Hc & Hn & Hs & Hor & Hi) Hrun Ha.
  destruct (core_sems _ _ _ _ Hc a sm Ha) as (Ha0 & _ & _).
  unfold P. wp_step. wp_step. wp_step. wp_step. wp_step. rewrite (Hi Hrun). wp_step.
  wp_step. apply wp_splx.
  apply (P_loop_wp (set_spl SPL_HIGH s) rl sl zl a sm (ts_spl s)); try done.
  - eapply core_ext; [exact Hc|done..|by right].
  - by apply Hi.
Qed.

(** ** Coming back from [mi_switch] *)

Lemma core_exorcise s s' rl sl zl :
  core s rl sl zl -> ts_cur s <> 0 -> keep s s' ->
  ts_threads s' = drop_threads zl (ts_threads s) -> core s' rl sl [].
Proof.
  intros [K1 K2 K3 K4 K5 K6 K7] Hc0 (Es & En & Ec & Ep & Esp & Ei & El & _) Et.
  assert (everyone s rl sl zl = everyone s' rl sl [] ++ zl) as Ee.
  { unfold everyone, curl. rewrite Ec, app_nil_r, <- !app_assoc. done. }
  rewrite Ee in *. apply NoDup_app in K1 as (N1 & N2 & N3). rewrite length_app in K4.
  assert (forall t, ts_threads s' !! t = if decide (t ∈ zl) then None else ts_threads s !! t) as L
    by (intros t; by rewrite Et, drop_threads_lookup).
  constructor; try done.
  - intros t. rewrite L. destruct (decide (t ∈ zl)) as [Hz|Hz].
    + split; [intros Ht; by destruct (N2 t)|by intros []].
    + rewrite <- K2, elem_of_app. tauto.
  - rewrite L, K3. by destruct (decide (0 ∈ zl)).
  - lia.
  - intros t th. rewrite L. destruct (decide (t ∈ zl)) as [|Hz]; [done|]. intros Ht.
    destruct (K5 t th Ht) as [Q1 Q2 Q3 Q4 Q5 Q6 Q7]. constructor; try done.
    + destruct (t_resume th); simpl in *; by rewrite ?Es.
    + unfold inint_of in *. by rewrite Ec, Ep, Ei.
    + by intros ?%not_elem_of_nil.
    + intros _. by apply Q5.
    + unfold asleep_ok in *. by rewrite Es.
  - intros a sm. rewrite Es. intros Ha. destruct (K6 a sm Ha) as (? & ? & Hw).
    split_and!; [done|lia|lia|]. intros Hcnt t Ht. specialize (Hw Hcnt t Ht).
    unfold sleeps_on in *. rewrite L. destruct (decide (t ∈ zl)) as [Hz|]; [done|exact Hw].
  - intros E0. congruence.
Qed.

Lemma mi_switch_return_wp s0 rl sl zl c th s :
  at_work s0 rl sl zl c th s -> ts_spl s > 0 ->
  wpo may_panic mi_switch_return s (fun _ s' => at_work s0 rl sl [] c th s').
Proof.
  intros (Hst & Hc & Hs & Ec & Hi & Hth & Hr) Hspl.
  assert (c <> 0) as Hc0 by (intros ->; rewrite (core_zero _ _ _ _ Hc) in Hth; done).
  assert (NoDup zl /\ c ∉ zl) as [Hnd Hcz].
  { pose proof (core_nodup _ _ _ _ Hc) as K. unfold everyone, curl in K. rewrite Ec in K.
    destruct (Z.eqb_spec c 0); [done|]. apply NoDup_cons in K as [K1 K2].
    rewrite !NoDup_app in K2. rewrite !elem_of_app in K1. tauto. }
  unfold mi_switch_return. wp_step. eapply wp_mono.
  { eapply (exorcise_wp R); [exact Hst|done|done|]. intros t Ht. split; [congruence|].
    destruct (proj1 (core_dom _ _ _ _ Hc t)) as [tht Htt].
    { unfold everyone. rewrite !elem_of_app. tauto. }
    exists tht. split; [done|]. by apply (core_thread _ _ _ _ Hc t tht Htt). }
  intros [] s1 (Hk & Et & Hst1).
  assert (at_work s0 rl sl [] c th s1) as Hw.
  { pose proof Hk as (Es & En & Ec1 & Ep & Esp & Ei & El & Er). unfold at_work, stays in *.
    destruct_and!. split_and!; try congruence; try lia; try done.
    - eapply core_exorcise; [exact Hc|congruence|done|done].
    - rewrite Et, drop_threads_lookup. by rewrite decide_False. }
  wp_step. wp_step. wp_step. pose proof Hw as (_ & _ & _ & Ec1 & _ & Hth1 & _). rewrite Ec1.
  eapply wp_the_thread; [exact Hth1|]. destruct (t_vmspace th =? 0); [by wp_step|].
  eapply at_work_env; [exact Hw|]. intros e. apply as_activate_law.
Qed.

(** The thread is back in its own code. *)
Lemma at_work_ok s0 rl sl zl c th s x :
  at_work s0 rl sl zl c th s -> counted s0 rl sl -> ts_cur s0 = c -> 0 <= x ->
  threads_ok (set_inint 0 (set_spl x s)) rl sl zl /\ running (set_inint 0 (set_spl x s)).
Proof.
  intros (Hst & Hc & (Es & En & Esp & El & Er) & Ec & Hi & Hth & Hr) [Hn Hres] E0 Hx.
  assert (running s) as Hrun by (exists th; by rewrite Ec).
  assert (running (set_inint 0 (set_spl x s))) as Hrun' by exact Hrun.
  split; [|done]. unfold threads_ok, counted. split_and!; try done.
  - eapply core_ext; [exact Hc|done..|by left].
  - change (curl (set_inint 0 (set_spl x s))) with (curl s). simpl. rewrite En, Hn.
    unfold curl. by rewrite Ec, E0.
  - simpl. rewrite En. change (reserve (set_inint 0 (set_spl x s))) with (reserve s). lia.
  - by left.
Qed.

Lemma set_inint_id s x : ts_inint s = 0 -> set_inint 0 (set_spl x s) = set_spl x s.
Proof. intros Ei. destruct s; simpl in *. by subst. Qed.

Lemma set_spl_id s : set_spl (ts_spl s) s = s.
Proof. by destruct s. Qed.

(** The state of the thread that was switched to, once it runs. *)
Lemma resume_at_work s rl sl zl th :
  threads_ok s rl sl zl -> ts_threads s !! ts_cur s = Some th ->
  at_work s rl sl zl (ts_cur s) (th_resume RRun th)
    (set_threads (<[ts_cur s := th_resume RRun th]> (ts_threads s)) s).
Proof.
  intros (Hst & Hc & _) Hth. unfold at_work, stays. split_and!; try done; try lia.
  - by apply (store_update_same s rl sl zl (ts_cur s) th).
  - apply core_upd_cur; [done|eauto| |done]. apply (core_thread _ _ _ _ Hc _ _ Hth).
  - apply lookup_insert_eq.
Qed.

Lemma thread_resume_wp s rl sl zl :
  threads_ok s rl sl zl -> ts_cur s <> 0 -> ~ running s ->
  wpo may_panic thread_resume s (fun o s' =>
    moved false s rl s' /\
    match o with
    | Some a => exists sm, ts_sems s !! a = Some sm /\
        ts_sems s' = <[a := mkSem (sem_name sm) (sem_count sm - 1)]> (ts_sems s)
    | None => ts_sems s' = ts_sems s
    end).
Proof.
  intros Hok Hc0 Hnr. pose proof Hok as (Hst & Hc & Hn & Hs & Hor & _).
  assert (ts_spl s > 0) as Hspl by (by destruct Hor).
  destruct (proj1 (core_dom _ _ _ _ Hc (ts_cur s))) as [th Hth].
  { unfold everyone, curl. destruct (Z.eqb_spec (ts_cur s) 0); [done|]. left. }
  pose proof (resume_at_work s rl sl zl th Hok Hth) as Hw.
  pose proof (core_thread _ _ _ _ Hc _ _ Hth) as [_ Hk Hi _ Hal _ _].
  assert (ts_cur s ∉ zl) as Hz.
  { pose proof (core_nodup _ _ _ _ Hc) as K. unfold everyone, curl in K.
    destruct (Z.eqb_spec (ts_cur s) 0); [done|]. apply NoDup_cons in K as [K1 _].
    rewrite !elem_of_app in K1. tauto. }
  specialize (Hal Hz). assert (t_resume th <> RRun) as Hnrun by (intros E0; apply Hnr; by exists th).
  specialize (Hi Hnrun). unfold inint_of in Hi. rewrite Z.eqb_refl in Hi. simpl in Hi.
  unfold thread_resume. wp_step. wp_step. wp_step. eapply wp_the_thread; [exact Hth|].
  wp_step. eapply wp_upd_thread; [exact Hth|]. set (s1 := set_threads _ s) in *.
  destruct (t_resume th) as [| |spl|spl oldin savespl| |a spl|]; try done; simpl in Hk, Hi.
  - wp_step. unfold mi_threadstart. wp_step. wp_step. wp_step.
    eapply wp_the_thread; [apply lookup_insert_eq|]. wp_step.
    eapply (wp_mono _ _ (fun _ s2 => at_work s rl sl zl (ts_cur s) (th_resume RRun th) s2)).
    { destruct (t_vmspace _ =? 0); [by wp_step|]. eapply at_work_env; [exact Hw|].
      intros e. apply as_activate_law. }
    intros [] s2 Hw2. wp_step. apply wp_splx. wp_step. wp_step.
    destruct (at_work_ok _ _ _ _ _ _ _ 0 Hw2 Hn eq_refl ltac:(lia)) as [Hok2 _].
    rewrite set_inint_id in Hok2 by (destruct Hw2 as (_ & _ & _ & _ & -> & _); done).
    split; [by eapply moved_same; [exact Hok2|apply Hw2]|]. apply Hw2.
  - wp_step. eapply wp_mono; [by eapply mi_switch_return_wp|]. intros [] s2 Hw2.
    wp_step. apply wp_splx. wp_step.
    destruct (at_work_ok _ _ _ _ _ _ _ spl Hw2 Hn eq_refl Hk) as [Hok2 _].
    rewrite set_inint_id in Hok2 by (destruct Hw2 as (_ & _ & _ & _ & -> & _); done).
    split; [by eapply moved_same; [exact Hok2|apply Hw2]|]. apply Hw2.
  - destruct Hk as [-> ->]. wp_step. eapply wp_mono; [by eapply mi_switch_return_wp|].
    intros [] s2 Hw2. wp_step. apply wp_splx. wp_step. unfold interrupt_return.
    wp_step. wp_step. wp_step. apply wp_splx. wp_step. wp_step.
    destruct (at_work_ok _ _ _ _ _ _ _ 0 Hw2 Hn eq_refl ltac:(lia)) as [Hok2 _].
    split; [by eapply moved_same; [exact Hok2|apply Hw2]|]. apply Hw2.
  - wp_step. eapply wp_mono; [by eapply mi_switch_return_wp|]. intros [] s2 Hw2. wp_step.
    eapply wp_mono; [eapply (at_work_upd _ _ _ _ _ _ _ (th_sleepaddr 0) Hw2); done|].
    intros [] s3 Hw3. wp_step. pose proof Hw3 as (_ & _ & (Es3 & _ & Esp3 & _) & _ & Ei3 & _).
    destruct (at_work_ok _ _ _ _ _ _ _ (ts_spl s3) Hw3 Hn eq_refl ltac:(lia)) as [Hok3 _].
    rewrite set_inint_id, set_spl_id in Hok3 by congruence.
    split; [by eapply moved_same; [exact Hok3|apply Hw3]|]. done.
  - wp_step. eapply wp_mono; [by eapply mi_switch_return_wp|]. intros [] s2 Hw2. wp_step.
    eapply wp_mono; [eapply (at_work_upd _ _ _ _ _ _ _ (th_sleepaddr 0) Hw2); done|].
    intros [] s3 Hw3. wp_step. pose proof Hw3 as (_ & _ & (Es3 & _ & Esp3 & _) & _ & Ei3 & _).
    destruct (at_work_ok _ _ _ _ _ _ _ (ts_spl s3) Hw3 Hn eq_refl ltac:(lia)) as [Hok3 Hrun3].
    rewrite set_inint_id, set_spl_id in Hok3, Hrun3 by congruence.
    destruct Hk as [[sm Hsm] Hsp].
    destruct Hok3 as (Hst3 & Hc3 & Hn3 & Hs3 & _ & Hi3).
    eapply wp_mono.
    { eapply (P_loop_wp s3 rl sl [] a sm spl); try done; [lia|by apply Hi3|congruence]. }
    intros [] s4 Hb; wp_step.
    + destruct Hb as (_ & Es4 & Hok4 & _ & _ & Ec4).
      split; [eapply moved_same; [exact Hok4|rewrite Ec4; apply Hw3]|]. exists sm.
      split; [done|]. congruence.
    + destruct Hb as (_ & Es4 & rl4 & Hok4 & Hn4). split; [by eapply moved_head|]. congruence.
Qed.

(** ** Interrupts *)

Lemma counted_move s s' rl sl rl' sl' :
  counted s rl sl -> ts_num s' = ts_num s -> ts_cur s' = ts_cur s -> reserve s <= reserve s' ->
  Permutation (rl' ++ sl') (rl ++ sl) -> counted s' rl' sl'.
Proof.
  intros [Hn Hr] En Ec Er Hp. unfold counted.
  assert (curl s' = curl s) as -> by (unfold curl; by rewrite Ec).
  rewrite En, (length_app (curl s)), Hp, <- length_app. split; [done | lia].
Qed.

Lemma woken_counted s a rl sl : Permutation ((rl ++ woken s a sl) ++ unwoken s a sl) (rl ++ sl).
Proof. by rewrite <- app_assoc, woken_perm. Qed.

(** What the clock changes besides the lists. *)
Definition clocked s s' : Prop :=
  ts_threads s' = ts_threads s /\ ts_sems s' = ts_sems s /\ ts_num s' = ts_num s /\
  ts_cur s' = ts_cur s /\ ts_prev s' = ts_prev s /\ ts_spl s' = ts_spl s /\
  ts_inint s' = ts_inint s /\ reserve s <= reserve s'.

Lemma lbolt_tick_wp s rl sl zl :
  store_ok s rl sl zl -> (forall t, t ∈ sl -> is_Some (ts_threads s !! t)) ->
  Z.of_nat (length rl + length sl) <= MAXT -> ts_spl s > 0 ->
  wpo may_panic lbolt_tick s (fun _ s' =>
    clocked s s' /\ exists more sl', let rl' := rl ++ more in store_ok s' rl' sl' zl /\
      Permutation (rl' ++ sl') (rl ++ sl) /\
      forall s0, ts_threads s0 = ts_threads s -> core s0 rl sl zl -> core s0 rl' sl' zl).
Proof.
  intros Hst Hin Hl Hs. unfold lbolt_tick. wp_step. wp_step. wp_step. wp_step.
  destruct (HZ <=? s32 (ts_lbolt s + 1)).
  - wp_step. wp_step. eapply wp_mono.
    { apply (thread_wakeup_wp R _ rl sl zl); done. }
    intros [] s1 [(Et & Es & En & Ec & Ep & Esp & Ei & El & Er) Hst1].
    split; [by unfold clocked, reserve in *; simpl in *; split_and!|].
    eexists _, _. split; [exact Hst1|]. split; [apply woken_counted|].
    intros s0 E0 Hc. apply (core_wake s0 rl sl zl lbolt) in Hc.
    unfold woken, unwoken, sleeps_on in *. simpl. by rewrite E0 in Hc.
  - wp_step. split; [by unfold clocked, reserve; simpl; split_and!|]. exists [], sl.
    rewrite app_nil_r. done.
Qed.

Lemma thread_yield_idle s rl sl zl kf :
  store_ok s rl sl zl -> ts_cur s = 0 -> thread_yield kf s = Ret (false, s).
Proof.
  intros (aS & _ & _ & ES & _) Ec. unfold thread_yield, splhigh, splx, mi_switch, assert_spl, kassert.
  unfold bind, get, modify, ret, lift; simpl. rewrite ES; simpl. rewrite Ec; simpl. by destruct s.
Qed.

(** The interrupt finds the system in a state in which it may be handled. *)
Definition irq_ok s (i : irq) : Prop :=
  match i with
  | IrqTimer => True
  | IrqDevice a => is_Some (ts_sems s !! a) /\ count_of s a < 2 ^ 31 - 1
  end.

Definition irq_sems s (i : irq) s' : Prop :=
  match i with
  | IrqTimer => ts_sems s' = ts_sems s
  | IrqDevice a => exists sm, ts_sems s !! a = Some sm /\
      ts_sems s' = <[a := mkSem (sem_name sm) (sem_count sm + 1)]> (ts_sems s)
  end.

(** A device interrupt, whether a thread is running or not. *)
Lemma device_wp s rl sl zl a :
  store_ok s rl sl zl -> core s rl sl zl -> counted s rl sl -> irq_ok s (IrqDevice a) ->
  wpo may_panic (interrupt (IrqDevice a)) s (fun _ s' =>
    signalled s a s' /\ counted s' (rl ++ woken s a sl) (unwoken s a sl) /\
    core s' (rl ++ woken s a sl) (unwoken s a sl) zl /\
    store_ok s' (rl ++ woken s a sl) (unwoken s a sl) zl).
Proof.
  intros Hst Hc Hn [[sm Ha] Hb]. destruct (core_sems _ _ _ _ Hc a sm Ha) as (Ha0 & Hcnt & _).
  pose proof (core_lengths _ _ _ _ Hc) as Hlen.
  unfold interrupt. wp_step. wp_step. wp_step. wp_step. wp_step. wp_step. wp_step.
  apply wp_assert_spl; [done|]. wp_step. wp_step. eapply wp_mono.
  { eapply (V_wp (set_inint 1 (set_spl SPL_HIGH s)) rl sl zl a sm); try done.
    - apply (core_sleepers _ _ _ _ Hc).
    - lia.
    - unfold count_of in Hb. rewrite Ha in Hb. lia. }
  intros [] s1 [(Et & En & Ec & Ep & Esp & Ei & El & Er & sm' & Ha' & Es) Hst1]. wp_step.
  unfold interrupt_return. wp_step. wp_step. wp_step. apply wp_splx. wp_step. simpl in *.
  match goal with |- signalled _ _ ?x /\ _ => set (s3 := x) end.
  assert (signalled s a s3) as Hsig.
  { unfold signalled, s3, reserve in *; simpl. split_and!; try done. by exists sm'. }
  split; [done|]. split; [|split; [|exact Hst1]].
  - destruct Hsig as (_ & En3 & Ec3 & _ & _ & _ & _ & Er3 & _).
    eapply counted_move; [exact Hn|done|done|done|apply woken_counted].
  - by eapply core_signalled.
Qed.
End Inv.
