(* ===== verification/Threads.v ===== *)
(** * What the thread system guarantees

    The steps of [Thread.v] from states that satisfy the invariant of
    [ThreadInv.v]: every step that is allowed returns and keeps the invariant,
    for ever ([threads_invariant]), semaphores count ([semaphore_accounting])
    and lose no wakeup, a wakeup reaches exactly the sleepers on its address,
    and yielding is fair. *)

From S2P Require Import Prelude.
From S2P Require Import Ram.
From S2P Require Import Kheap.
From S2P Require Import KheapProof.
From S2P Require Import Dumbvm.
From S2P Require Import Array.
From S2P Require Import Queue.
From S2P Require Import Own.
From S2P Require Import Thread.
From S2P Require Import ThreadFork.
From S2P Require Import ThreadProof.
From S2P Require Import ThreadInv.

Lemma set_spl_back {H E} (s : tsys H E) x : set_spl (ts_spl s) (set_spl x s) = s.
Proof. by destruct s. Qed.

Section Threads.
Context {H E : Type} `{AllocatorLaws H} `{ThreadEnvLaws E}.
Implicit Types s : tsys H E.
Context (R : gset Z).
#[local] Abbreviation T := (tsys H E).
#[local] Abbreviation store_ok := (store_plus R []).
#[local] Abbreviation threads_ok := (threads_ok R).
#[local] Abbreviation moved := (moved R).

Definition sys_ok s : Prop := exists rl sl zl, threads_ok s rl sl zl.

Lemma moved_ok b s rl s' : moved b s rl s' -> sys_ok s'.
Proof. intros (rl' & sl' & zl' & Hok & _). by exists rl', sl', zl'. Qed.

(** ** Interrupts *)

Lemma timer_wp s rl sl zl :
  threads_ok s rl sl zl -> running s -> ts_spl s = 0 ->
  wpo may_panic (interrupt IrqTimer) s (fun _ s' => moved true s rl s' /\ ts_sems s' = ts_sems s).
Proof.
  intros (Hst & Hc & Hn & Hs & Hor & Hi) Hrun Hspl. pose proof (core_lengths _ _ _ _ Hc) as Hlen.
  unfold interrupt. wp_step. wp_step. wp_step. wp_step. wp_step. wp_step. wp_step.
  apply wp_assert_spl; [done|]. wp_step. unfold hardclock. wp_step.
  eapply wp_mono.
  { apply (lbolt_tick_wp R _ rl sl zl); try done; [apply (core_sleepers _ _ _ _ Hc)|lia]. }
  intros [] s1 [(Et & Es & En & Ec & Ep & Esp & Ei & Er) (more & sl' & Hst1 & Hp & Hcore)].
  simpl in *.
  assert (running s1) as Hrun1 by (unfold running; by rewrite Et, Ec).
  eapply wp_mono.
  { apply (thread_yield_wp R s1 (rl ++ more) sl' zl); [done| |done| |].
    - eapply core_ext; [by apply (Hcore s)|done..|by left].
    - eapply counted_move; done.
    - rewrite Ei, Hspl, (Hi Hrun). done. }
  intros b s2 (-> & Es2 & rl2 & Hok & Hnx). wp_step. split; [|congruence].
  rewrite <- app_assoc in Hnx. by eapply moved_next.
Qed.

Lemma interrupt_wp s rl sl zl i :
  threads_ok s rl sl zl -> running s -> ts_spl s = 0 -> irq_ok s i ->
  wpo may_panic (interrupt i) s (fun _ s' =>
    moved (match i with IrqTimer => true | _ => false end) s rl s' /\ irq_sems s i s').
Proof.
  intros Hok Hrun Hspl Hi. destruct i as [|a]; [by eapply timer_wp|].
  destruct Hok as (Hst & Hc & Hn & Hs & Hor & Hin).
  eapply wp_mono; [by eapply (device_wp R)|].
  intros [] s1 (Hsig & Hn1 & Hc1 & Hst1).
  pose proof Hsig as (Et & En & Ec & Ep & Esp & Ei & El & Er & sm & Ha & Es).
  assert (running s1) by (unfold running; by rewrite Et, Ec).
  split; [|by exists sm]. eapply moved_stay; [|exact Ec]. split_and!; [exact Hst1|exact Hc1|exact Hn1|lia|by left|].
  intros _. rewrite Ei. by apply Hin.
Qed.

(** An interrupt in the idle loop, after which the scheduler looks again. *)
Lemma idle_wp s rl sl zl i :
  threads_ok s rl sl zl -> ts_cur s = 0 -> irq_ok s i ->
  wpo may_panic (idle_interrupt i) s (fun _ s' => moved false s rl s' /\ irq_sems s i s').
Proof.
  intros (Hst & Hc & Hn & Hs & Hor & Hin) Ec0 Hi. pose proof (core_lengths _ _ _ _ Hc) as Hlen.
  assert (ts_spl s > 0) as Hspl.
  { destruct Hor as [(th & Hth & _)|]; [|done]. rewrite Ec0, (core_zero _ _ _ _ Hc) in Hth. done. }
  unfold idle_interrupt. wp_step. apply wp_assert_spl; [done|]. wp_step.
  eapply (wp_mono _ _ (fun _ s1 => exists more sl1, let rl1 := rl ++ more in
    core s1 rl1 sl1 zl /\ store_ok s1 rl1 sl1 zl /\ counted s1 rl1 sl1 /\ ts_cur s1 = 0 /\ ts_spl s1 = ts_spl s /\ irq_sems s i s1)).
  - destruct i as [|a].
    + unfold interrupt. wp_step. wp_step. wp_step. wp_step. wp_step. wp_step. wp_step.
      apply wp_assert_spl; [done|]. wp_step. unfold hardclock. wp_step. eapply wp_mono.
      { apply (lbolt_tick_wp R _ rl sl zl); try done; [apply (core_sleepers _ _ _ _ Hc)|lia]. }
      intros [] s1 [(Et & Es & En & Ec & Ep & Esp & Ei & Er) (more & sl' & Hst1 & Hp & Hcore)].
      simpl in *. eapply wp_Ret; [eapply (thread_yield_idle R); [done|congruence]|].
      unfold interrupt_return. wp_step. wp_step. wp_step. apply wp_splx. wp_step.
      exists more, sl'. split_and!; try done; simpl; try congruence.
      * eapply core_ext; [by apply (Hcore s)|done..|by right].
      * eapply counted_move; done.
    + eapply wp_mono; [by eapply (device_wp R)|]. intros [] s1 (Hsig & Hn1 & Hc1 & Hst1).
      pose proof Hsig as (Et & En & Ec & Ep & Esp & Ei & El & Er & sm & Ha & Es).
      eexists _, _. split_and!; try done; [congruence|]. by exists sm.
  - intros [] s1 (more & sl1 & Hc1 & Hst1 & [Hn1 Hr1] & Ec1 & Esp1 & Hsem).
    set (rl1 := rl ++ more) in *.
    eapply (wp_weaken False); [|done].
    eapply wp_mono; [apply (dispatch_wp R s1 rl1 sl1 zl); [done..|lia]|].
    intros [] s2 ((Es2 & En2 & Esp2 & El2 & Er2) & _ & Hd).
    apply (dispatched_switched R) in Hd; [|done..].
    destruct (switched_ok R s2 rl1 sl1 zl Hd) as (rl2 & Hok & Hnx).
    + lia.
    + rewrite En2, Hn1. unfold curl. rewrite Ec1. simpl. by rewrite length_app.
    + lia.
    + split; [by eapply moved_next|]. destruct i; simpl in *; by rewrite Es2.
Qed.

(** ** One step *)

(** When an action may be taken: a thread must be running to call into the
    thread system, [thread_sleep] and [thread_wakeup] want interrupts off, and
    only [P] sleeps on a semaphore. *)
Definition allowed s (a : action) : Prop :=
  match a with
  | AFork name => running s /\ Z.of_nat (length name) < NAMEMAX /\
      Z.of_nat (size (ts_threads s)) < MAXT
  | AYield | AExit => running s
  | ASleep addr => running s /\ ts_spl s > 0 /\ ts_sems s !! addr = None
  | AWakeup _ => running s /\ ts_spl s > 0
  | AP a => running s /\ is_Some (ts_sems s !! a)
  | AV a => running s /\ is_Some (ts_sems s !! a) /\ count_of s a < 2 ^ 31 - 1
  | AInterrupt i => running s /\ ts_spl s = 0 /\ irq_ok s i
  | AIdle i => ts_cur s = 0 /\ irq_ok s i
  | AResume => ts_cur s <> 0 /\ ~ running s
  end.

(** The change of the count of semaphore [a] that the events stand for. *)
Definition delta (a : Z) (e : event) : Z :=
  match e with
  | Acquired b => if a =? b then -1 else 0
  | Released b => if a =? b then 1 else 0
  end.
Fixpoint deltas (a : Z) (ev : list event) : Z :=
  match ev with
  | [] => 0
  | e :: ev' => delta a e + deltas a ev'
  end.

Lemma everyone_size s rl sl zl :
  core s rl sl zl -> length (everyone s rl sl zl) = size (ts_threads s).
Proof.
  intros Hc. rewrite <- size_dom.
  rewrite <- (size_list_to_set (C := gset Z)) by apply (core_nodup _ _ _ _ Hc).
  f_equal. apply leibniz_equiv. intros t.
  by rewrite elem_of_list_to_set, (core_dom _ _ _ _ Hc), elem_of_dom.
Qed.

Lemma core_fork s s' rl sl zl t th :
  core s rl sl zl -> running s -> t <> 0 -> ts_threads s !! t = None ->
  Z.of_nat (size (ts_threads s)) < MAXT ->
  ts_threads s' = <[t := th]> (ts_threads s) -> new_thread th ->
  ts_sems s' = ts_sems s -> ts_cur s' = ts_cur s -> ts_prev s' = ts_prev s ->
  ts_inint s' = ts_inint s -> core s' (rl ++ [t]) sl zl.
Proof.
  intros Hc Hrun Ht0 Hfr Hsz Et (N1 & N2 & N3 & N4 & N5) Es Ec Ep Ei.
  destruct (running_cur _ _ _ _ Hc Hrun) as [Hc0 _]. pose proof (everyone_size _ _ _ _ Hc) as Hlen.
  destruct Hc as [K1 K2 K3 K4 K5 K6 K7].
  assert (t ∉ everyone s rl sl zl) as Hni by (rewrite K2, Hfr; by intros []).
  assert (Permutation (everyone s' (rl ++ [t]) sl zl) (t :: everyone s rl sl zl)) as Hp.
  { unfold everyone, curl. rewrite Ec. solve_blocks. }
  constructor.
  - rewrite Hp. by apply NoDup_cons.
  - intros x. rewrite Hp, Et, elem_of_cons, K2. destruct (decide (x = t)) as [->|].
    + rewrite lookup_insert_eq. split; eauto.
    + rewrite lookup_insert_ne by done. naive_solver.
  - by rewrite Et, lookup_insert_ne.
  - rewrite Hp. simpl. lia.
  - intros x thx. rewrite Et. unfold everyone in Hni. rewrite !elem_of_app in Hni.
    destruct (decide (x = t)) as [->|Hne].
    + rewrite lookup_insert_eq. intros [= <-]. constructor; rewrite ?N1; try done; try tauto.
      unfold inint_of. rewrite Ec, Ep, N2.
      destruct (Z.eqb_spec t (ts_cur s)) as [E0|]; [|by destruct (Z.eqb_spec (ts_cur s) 0)].
      destruct Hrun as (thc & Hthc & _). congruence.
    + rewrite lookup_insert_ne by done. intros Hx.
      eapply thread_ok_move; [by apply K5|..]; try done.
      * intros [Hr|Hr%list_elem_of_singleton]%elem_of_app; [|done]. by apply (K5 x thx Hx).
      * intros a. by rewrite Es.
      * intros _. unfold inint_of. by rewrite Ec, Ep, Ei.
  - intros a sm. rewrite Es. intros Ha. destruct (K6 a sm Ha) as (? & ? & Hw).
    split_and!; [done|lia|lia|]. intros Hcnt x Hx. specialize (Hw Hcnt x Hx).
    unfold sleeps_on in *. rewrite Et. destruct (decide (x = t)) as [->|Hne].
    + by rewrite lookup_insert_eq, N3; apply Z.eqb_neq.
    + by rewrite lookup_insert_ne.
  - intros E0. congruence.
Qed.


Lemma fork_action_wp s rl sl zl name :
  threads_ok s rl sl zl -> allowed s (AFork name) ->
  wpo may_panic (thread_fork name) s (fun '(r, t) s' =>
    running s' /\ ts_cur s' = ts_cur s /\ ts_sems s' = ts_sems s /\
    ((r = 0 /\ ts_threads s !! t = None /\ threads_ok s' (rl ++ [t]) sl zl) \/
     (r = ENOMEM /\ alloc_fails /\ threads_ok s' rl sl zl))).
Proof.
  intros (Hst & Hc & [Hn Hres] & Hs & Hor & Hi) (Hrun & Hname & Hsz).
  pose proof (core_lengths _ _ _ _ Hc) as Hlen. pose proof (everyone_size _ _ _ _ Hc) as Hev.
  destruct (running_cur _ _ _ _ Hc Hrun) as [Hc0 Ecl]. unfold everyone in Hev.
  rewrite !length_app, Ecl in Hev. rewrite !length_app, Ecl in Hn. simpl in *.
  eapply wp_mono.
  { apply (thread_fork_wp R s rl sl zl); [done|done| |lia|lia|lia].
    destruct Hrun as (th & Hth & _). eauto. }
  intros [r t] s1 (Es & Ec & Ep & Esp & Ei & El & Hf).
  assert (curl s1 = [ts_cur s]) as Ecl1 by (unfold curl in *; by rewrite Ec).
  destruct Hf as [(-> & Ht0 & Hfr & En & Hres1 & Hst1 & th & Et & Hnew)
                 |(-> & Hfail & En & Hr1 & Hst1 & Et)].
  - assert (running s1) as Hrun1.
    { destruct Hrun as (thc & Hthc & Hr). exists thc. rewrite Ec, Et, lookup_insert_ne; [done|congruence]. }
    split; [done|]. split; [done|]. split; [done|]. left. split_and!; try done.
    unfold ThreadInv.threads_ok, counted. split_and!; try done.
    + by eapply core_fork.
    + rewrite Ecl1, En, !length_app. simpl. lia.
    + right. lia.
    + lia.
    + by left.
    + intros _. rewrite Ei. by apply Hi.
  - assert (running s1) as Hrun1 by (unfold running; by rewrite Ec, Et).
    split; [done|]. split; [done|]. split; [done|]. right. split_and!; try done.
    unfold ThreadInv.threads_ok, counted. split_and!; try done.
    + eapply core_ext; [exact Hc|done..|by left].
    + rewrite Ecl1, En, !length_app. simpl. lia.
    + rewrite En. lia.
    + lia.
    + by left.
    + intros _. rewrite Ei. by apply Hi.
Qed.

Lemma wakeup_action_wp s rl sl zl addr :
  threads_ok s rl sl zl -> running s -> ts_spl s > 0 ->
  wpo may_panic (thread_wakeup addr) s (fun _ s' =>
    frame s s' /\ threads_ok s' (rl ++ woken s addr sl) (unwoken s addr sl) zl).
Proof.
  intros (Hst & Hc & Hn & Hs & Hor & Hi) Hrun Hspl. pose proof (core_lengths _ _ _ _ Hc).
  eapply wp_mono; [apply (thread_wakeup_wp R s rl sl zl); [done|done|by eapply core_sleepers|lia]|].
  intros [] s1 [Hf Hst1]. split; [done|].
  pose proof Hf as (Et & Es & En & Ec & Ep & Esp & Ei & El & Er).
  assert (running s1) by (unfold running; by rewrite Et, Ec).
  split_and!; [done| | |lia|by left|].
  - apply (core_frame s s1); [done|]. by apply core_wake.
  - eapply counted_move; [exact Hn|done..|apply woken_counted].
  - intros _. rewrite Ei. by apply Hi.
Qed.

Lemma V_action_wp s rl sl zl a :
  threads_ok s rl sl zl -> running s -> is_Some (ts_sems s !! a) -> count_of s a < 2 ^ 31 - 1 ->
  wpo may_panic (V a) s (fun _ s' =>
    signalled s a s' /\ threads_ok s' (rl ++ woken s a sl) (unwoken s a sl) zl).
Proof.
  intros (Hst & Hc & Hn & Hs & Hor & Hi) Hrun [sm Ha] Hb. pose proof (core_lengths _ _ _ _ Hc).
  destruct (core_sems _ _ _ _ Hc a sm Ha) as (Ha0 & Hcnt & _).
  eapply wp_mono.
  { apply (V_wp R s rl sl zl a sm); [done|by eapply core_sleepers|lia|done|done|].
    unfold count_of in Hb. rewrite Ha in Hb. lia. }
  intros [] s1 [Hsig Hst1]. split; [done|].
  pose proof Hsig as (Et & En & Ec & Ep & Esp & Ei & El & Er & _).
  assert (running s1) by (unfold running; by rewrite Et, Ec).
  split_and!; [done|by eapply core_signalled| |lia|by left|].
  - eapply counted_move; [exact Hn|done..|apply woken_counted].
  - intros _. rewrite Ei. by apply Hi.
Qed.

Lemma count_released s s' a b sm :
  ts_sems s !! a = Some sm ->
  ts_sems s' = <[a := mkSem (sem_name sm) (sem_count sm + 1)]> (ts_sems s) ->
  count_of s' b = count_of s b + deltas b [Released a].
Proof.
  intros Ha Es. unfold count_of. rewrite Es. simpl. destruct (Z.eqb_spec b a) as [->|].
  - rewrite lookup_insert_eq, Ha. simpl. lia.
  - rewrite lookup_insert_ne by done. lia.
Qed.

Lemma count_acquired s s' a b sm :
  ts_sems s !! a = Some sm ->
  ts_sems s' = <[a := mkSem (sem_name sm) (sem_count sm - 1)]> (ts_sems s) ->
  count_of s' b = count_of s b + deltas b [Acquired a].
Proof.
  intros Ha Es. unfold count_of. rewrite Es. simpl. destruct (Z.eqb_spec b a) as [->|].
  - rewrite lookup_insert_eq, Ha. simpl. lia.
  - rewrite lookup_insert_ne by done. lia.
Qed.

Lemma count_same s s' b : ts_sems s' = ts_sems s -> count_of s' b = count_of s b + deltas b [].
Proof. intros Es. unfold count_of. rewrite Es. simpl. lia. Qed.

Lemma irq_count s s' i b :
  irq_sems s i s' ->
  count_of s' b = count_of s b +
    deltas b (match i with IrqDevice sem => [Released sem] | IrqTimer => [] end).
Proof.
  destruct i as [|a]; simpl irq_sems; [apply count_same|].
  intros (sm & Ha & Es). by eapply count_released.
Qed.

(** The actions that give up the processor whatever the state. *)
Definition switches (a : action) : bool :=
  match a with
  | AYield | ASleep _ | AExit | AInterrupt IrqTimer => true
  | _ => false
  end.

(** Every allowed step returns and keeps the invariant, the run queue is served
    in order, and the counts of the semaphores follow the events. *)
Lemma step_wp s rl sl zl a :
  threads_ok s rl sl zl -> allowed s a ->
  wpo may_panic (run_action a) s (fun ev s' =>
    moved (switches a) s rl s' /\ forall b, count_of s' b = count_of s b + deltas b ev).
Proof.
  intros Hok Hal. pose proof Hok as (Hst & Hc & Hn & Hs & Hor & Hi).
  destruct a as [name| |addr|addr| |a|a|i|i|]; simpl in Hal; unfold run_action; wp_step.
  - eapply wp_mono; [by eapply fork_action_wp|]. intros [r t] s1 (_ & Ec & Es & Hr). wp_step.
    split; [|intros b; by apply count_same].
    destruct Hr as [(_ & _ & ?)|(_ & _ & ?)]; [by eapply moved_stay|by eapply moved_same].
  - eapply wp_mono; [apply (thread_yield_wp R s rl sl zl); try done|].
    { split_and!; try done. by apply Hi. }
    intros b s1 (_ & Es & rl' & Hok1 & Hnx). wp_step.
    split; [by eapply moved_next|intros x; by apply count_same].
  - destruct Hal as (Hrun & Hspl & Ha). eapply wp_mono.
    { apply (thread_sleep_wp R s rl sl zl addr RSleep); try done. by apply Hi. }
    intros [] s1 (Es & rl' & Hok1 & Hnx). wp_step.
    split; [by eapply moved_head|intros x; by apply count_same].
  - destruct Hal as (Hrun & Hspl). eapply wp_mono; [by eapply wakeup_action_wp|].
    intros [] s1 [Hf Hok1]. wp_step.
    split; [eapply moved_stay; [exact Hok1|apply Hf]|intros x; apply count_same; apply Hf].
  - eapply wp_mono; [apply (thread_exit_wp R s rl sl zl); try done; by apply Hi|].
    intros [] s1 (Es & _ & rl' & Hok1 & Hnx). wp_step.
    split; [by eapply moved_head|intros x; by apply count_same].
  - destruct Hal as (Hrun & sm & Ha). eapply wp_mono; [by eapply (P_wp R)|].
    intros [] s1 Hb; wp_step.
    + destruct Hb as (_ & Es & Hok1 & _ & _ & Ec). split; [by eapply moved_same|].
      intros x. by eapply count_acquired.
    + destruct Hb as (_ & Es & rl' & Hok1 & Hnx).
      split; [by eapply moved_head|intros x; by apply count_same].
  - destruct Hal as (Hrun & Ha & Hb). eapply wp_mono; [by eapply V_action_wp|].
    intros [] s1 [Hsig Hok1]. wp_step. split; [eapply moved_stay; [exact Hok1|apply Hsig]|].
    destruct Hsig as (_ & _ & _ & _ & _ & _ & _ & _ & sm & Hsm & Es).
    intros x. by eapply count_released.
  - destruct Hal as (Hrun & Hspl & Hirq). eapply wp_mono; [by eapply interrupt_wp|].
    intros [] s1 [Hok1 Hsem]. wp_step. split; [by destruct i|]. intros b. by apply irq_count.
  - destruct Hal as (Ec & Hirq). eapply wp_mono; [by eapply idle_wp|].
    intros [] s1 [Hok1 Hsem]. wp_step. split; [done|]. intros b. by apply irq_count.
  - destruct Hal as (Hc0 & Hnr). eapply wp_mono; [by eapply (thread_resume_wp R)|].
    intros o s1 [Hok1 Ho]. wp_step. split; [done|]. intros b. destruct o as [a|].
    + destruct Ho as (sm & Ha & Es). by eapply count_acquired.
    + by apply count_same.
Qed.

(** ** Executions *)

Inductive exec (s0 : T) : list event -> T -> Prop :=
  | exec_nil : exec s0 [] s0
  | exec_step ev s a ev' s' :
      exec s0 ev s -> allowed s a -> run_action a s = Ret (ev', s') -> exec s0 (ev ++ ev') s'.

Lemma deltas_app b ev ev' : deltas b (ev ++ ev') = deltas b ev + deltas b ev'.
Proof. induction ev as [|e ev IH]; simpl; lia. Qed.

Lemma exec_ok s0 ev s :
  sys_ok s0 -> exec s0 ev s -> sys_ok s /\ forall b, count_of s b = count_of s0 b + deltas b ev.
Proof.
  intros Hok. induction 1 as [|ev s a ev' s' He [IH1 IH2] Hal Hrun].
  - split; [done|]. intros b. simpl. lia.
  - destruct IH1 as (rl & sl & zl & Hs). pose proof (step_wp s rl sl zl a Hs Hal) as W.
    unfold wpx in W. rewrite Hrun in W. destruct W as [Hok' Hc]. split; [by eapply moved_ok|]. intros b. rewrite Hc, IH2, deltas_app. lia.
Qed.

(** C3: the invariant of the thread system holds in every reachable state: every
    thread is in exactly one of the four places (running, run queue, sleepers,
    zombies), [numthreads] counts the live ones, every resume point fits its
    place, and the heap holds exactly the blocks of the system.  In every
    reachable state every action that may be taken (fork, yield, sleep, wakeup,
    exit, P, V, timer and device interrupts, the idle loop, the second half of a
    context switch) returns: no assertion of the code fails and no null or
    dangling pointer is followed, unless the allocator refuses memory. *)
Theorem threads_invariant s0 ev s :
  sys_ok s0 -> exec s0 ev s ->
  sys_ok s /\
  forall a, allowed s a -> wpo may_panic (run_action a) s (fun _ s' => sys_ok s').
Proof.
  intros Hok He. destruct (exec_ok s0 ev s Hok He) as [Hs _]. split; [done|].
  intros a Ha. destruct Hs as (rl & sl & zl & Hs). eapply wp_mono; [by eapply step_wp|].
  intros ev' s' [Hm _]. by eapply moved_ok.
Qed.

(** C4: semaphores count.  Along every execution, preemption included, the value
    of a semaphore is its initial value plus the number of [V]s minus the number
    of completed [P]s, and it is never negative: with an initial value of one,
    at most one thread is between its [P] and its [V]. *)
Theorem semaphore_accounting s0 ev s a :
  sys_ok s0 -> exec s0 ev s ->
  count_of s a = count_of s0 a + deltas a ev /\ 0 <= count_of s0 a + deltas a ev.
Proof.
  intros Hok He. destruct (exec_ok s0 ev s Hok He) as [(rl & sl & zl & Hs) Hc].
  rewrite <- Hc. split; [done|]. unfold count_of. destruct (ts_sems s !! a) as [sm|] eqn:Ha; [|lia].
  destruct Hs as (_ & Hcore & _). apply (core_sems _ _ _ _ Hcore a sm Ha).
Qed.

(** C5: no wakeup is lost.  In every reachable state a thread that is asleep in
    [P] finds its semaphore at zero: nobody sleeps on a semaphore that could be
    taken, whatever the interleaving of [P], [V] and interrupts. *)
Theorem no_lost_wakeup s0 ev s sleepers t th a spl :
  sys_ok s0 -> exec s0 ev s ->
  ts_sleepers s = Some sleepers -> Some t ∈ contents sleepers ->
  ts_threads s !! t = Some th -> t_resume th = RP a spl -> count_of s a = 0.
Proof.
  intros Hok He ES Ht Hth Hk. destruct (exec_ok s0 ev s Hok He) as [(rl & sl & zl & Hst & Hc & _) _].
  destruct Hst as (aS & _ & _ & ES' & _ & _ & _ & CS & _). rewrite ES in ES'. injection ES' as <-.
  rewrite CS in Ht. apply list_elem_of_fmap in Ht as (t' & [= <-] & Ht).
  destruct (core_thread _ _ _ _ Hc t th Hth) as [_ _ _ _ _ _ Ha]. specialize (Ha Ht).
  unfold asleep_ok in Ha. rewrite Hk in Ha. unfold count_of.
  destruct (ts_sems s !! a) as [sm|] eqn:Hsm; [|done].
  destruct (core_sems _ _ _ _ Hc a sm Hsm) as (_ & Hb & Hw).
  destruct (decide (0 < sem_count sm)) as [Hp|]; [|lia].
  specialize (Hw Hp t Ht). unfold sleeps_on in Hw. rewrite Hth, Ha in Hw.
  by apply Z.eqb_neq in Hw.
Qed.

(** C33: [thread_wakeup addr] makes runnable exactly the threads asleep on
    [addr], in the order in which they went to sleep, behind those that are
    runnable already; the other sleepers stay, in order, and no thread structure
    changes. *)
Theorem thread_wakeup_exact s rl sl zl addr :
  threads_ok s rl sl zl -> running s -> ts_spl s > 0 ->
  wpo may_panic (thread_wakeup addr) s (fun _ s' =>
    ts_threads s' = ts_threads s /\
    threads_ok s' (rl ++ List.filter (sleeps_on s addr) sl)
                  (List.filter (fun t => negb (sleeps_on s addr t)) sl) zl).
Proof.
  intros Hok Hrun Hspl. eapply wp_mono; [by eapply wakeup_action_wp|].
  intros [] s1 [[Et _] Hok1]. done.
Qed.

(** Scheduling is round robin: [thread_yield] puts the current thread at the
    tail of the run queue and switches to its head. *)
Lemma thread_yield_rotates s rl sl zl :
  threads_ok s rl sl zl -> running s ->
  wpo may_panic (thread_yield RYield) s (fun _ s' =>
    exists rl', threads_ok s' rl' sl zl /\ ts_cur s' :: rl' = rl ++ [ts_cur s]).
Proof.
  intros (Hst & Hc & Hn & Hs & Hor & Hi) Hrun.
  eapply wp_mono; [apply (thread_yield_wp R s rl sl zl); try done|].
  { split_and!; try done. by apply Hi. }
  intros b s1 (_ & _ & rl' & Hok & Erl & _ & Hz). exists rl'. split; [done|].
  unfold curl in Erl. destruct (Z.eqb_spec (ts_cur s1) 0) as [E0|]; [|done].
  specialize (Hz E0). by destruct rl.
Qed.

(** A thread in place [n] of the run queue is current in at most [n + 1]
    switches; no step moves it back. *)
Lemma queued_place b s rl s' rl' t n :
  queued b s rl s' rl' -> rl !! n = Some t ->
  ts_cur s' = t \/ exists m, rl' !! m = Some t /\ (if b then m < n else m <= n)%nat.
Proof.
  intros [(-> & _ & more & ->)|(more & Hq & Hz)] Ht.
  - right. exists n. rewrite lookup_app_l by (by eapply lookup_lt_Some). auto.
  - assert (ts_cur s' <> 0) as Hc0.
    { intros E0. specialize (Hz E0). by destruct rl. }
    unfold curl in Hq. destruct (Z.eqb_spec (ts_cur s') 0); [done|].
    assert ((rl ++ more) !! n = Some t) as Ht' by (rewrite lookup_app_l by (by eapply lookup_lt_Some); done).
    rewrite <- Hq in Ht'. destruct n as [|n]; simpl in Ht'; [left; congruence|].
    right. exists n. split; [done|]. destruct b; lia.
Qed.

(** A run of the system, by its actions. *)
Inductive steps : T -> list action -> T -> Prop :=
  | steps_nil s : steps s [] s
  | steps_cons s a ev s1 tr s2 :
      allowed s a -> run_action a s = Ret (ev, s1) -> steps s1 tr s2 -> steps s (a :: tr) s2.

(** [t] is the current thread at some point of the run [tr] from [s]. *)
Definition gets_to_run (t : Z) s (tr : list action) : Prop :=
  exists tr1 tr2 s1, tr = tr1 ++ tr2 /\ steps s tr1 s1 /\ ts_cur s1 = t.

Lemma gets_to_run_cons t s a ev s1 tr :
  allowed s a -> run_action a s = Ret (ev, s1) -> gets_to_run t s1 tr -> gets_to_run t s (a :: tr).
Proof.
  intros Ha Hr (tr1 & tr2 & s2 & -> & Hst & Hc). exists (a :: tr1), tr2, s2.
  split_and!; [done|by eapply steps_cons|done].
Qed.

(** C6: no thread starves.  Whatever the threads do and however interrupts
    fall, a thread in place [n] of the run queue (counting from zero) gets to
    run before the processor has been given up [n + 1] times by yielding,
    sleeping, exiting or a tick of the timer: those that become runnable later
    queue up behind it. *)
Theorem ready_thread_runs s tr s' rl sl zl n t :
  threads_ok s rl sl zl -> rl !! n = Some t -> steps s tr s' ->
  (n < length (List.filter switches tr))%nat -> gets_to_run t s tr.
Proof.
  intros Hok Ht Hst. revert rl sl zl n Hok Ht.
  induction Hst as [s|s a ev s1 tr s2 Hal Hrun Hst IH]; intros rl sl zl n Hok Ht Hn; [simpl in Hn; lia|].
  eapply (gets_to_run_cons t s a); [done..|].
  pose proof (step_wp s rl sl zl a Hok Hal) as W. unfold wpx in W. rewrite Hrun in W.
  destruct W as [(rl' & sl' & zl' & Hok' & Hq) _].
  destruct (queued_place _ _ _ _ _ t n Hq Ht) as [Hc|(m & Hm & Hlt)].
  - exists [], tr, s1. split_and!; [done|constructor|done].
  - apply (IH rl' sl' zl' m Hok' Hm). simpl in Hn. destruct (switches a); simpl in Hn; lia.
Qed.


(** Once a second thread has been forked, going to sleep cannot fail: the
    room reserved by [thread_fork] is enough for [array_add], and [thread_sleep]
    up to the context switch returns without calling the allocator. *)
Theorem thread_sleep_reserved s rl sl zl addr :
  threads_ok s rl sl zl -> running s -> ts_spl s > 0 -> ts_sems s !! addr = None ->
  2 <= ts_num s ->
  exists s', thread_sleep addr RSleep s = Ret (tt, s') /\ ts_heap s' = ts_heap s /\
    exists rl', threads_ok s' rl' (sl ++ [ts_cur s]) zl /\ runs_next s' rl' rl.
Proof.
  intros (Hst & Hc & Hn & Hs & Hor & Hi) Hrun Hspl Ha Hnum.
  destruct (running_cur _ _ _ _ Hc Hrun) as [_ Ecl].
  pose proof (core_lengths _ _ _ _ Hc) as Hlen. rewrite Ecl in Hlen. simpl in Hlen.
  pose proof Hn as [En Hres]. rewrite Ecl in En. simpl in En. rewrite length_app in En.
  assert (wp (thread_sleep addr RSleep) s (fun _ s' => ts_heap s' = ts_heap s /\
    exists rl', threads_ok s' rl' (sl ++ [ts_cur s]) zl /\ runs_next s' rl' rl)) as W.
  { eapply wp_mono.
    - apply (thread_sleep_gen R False (fun h => h = ts_heap s) s rl sl zl addr RSleep); try done.
      + by apply Hi.
      + intros s1 Hst1 _ Eh1 Er1.
        destruct (add_sleeper_room R s1 rl sl zl (ts_cur s) Hst1) as (a' & Ea & Hst2 & Hm); [lia..|].
        eapply wp_Ret; [exact Ea|]. split; [|by left].
        unfold frame, keep, reserve in *; simpl; split_and!; done || lia.
    - intros [] s' (_ & ? & ?). done. }
  apply wp_elim in W as ([] & s' & Es & Hp). by exists s'.
Qed.

(** When a thread that was switched out comes back, [exorcise] disposes of
    exactly the threads that exited: their structures, names and stacks go back
    to the heap, and nobody else is touched. *)
Theorem exorcise_reclaims s rl sl zl :
  threads_ok s rl sl zl -> ts_cur s <> 0 -> ts_spl s > 0 ->
  wpo may_panic exorcise s (fun _ s' =>
    store_ok s' rl sl [] /\
    forall t, ts_threads s' !! t = if decide (t ∈ zl) then None else ts_threads s !! t).
Proof.
  intros (Hst & Hc & _) Hc0 Hspl.
  pose proof (core_nodup _ _ _ _ Hc) as K. unfold everyone, curl in K.
  destruct (Z.eqb_spec (ts_cur s) 0); [done|]. apply NoDup_cons in K as [K1 K2].
  rewrite !NoDup_app in K2. rewrite !elem_of_app in K1.
  eapply wp_mono.
  - eapply (exorcise_wp R); [exact Hst|done|tauto|]. intros t Ht. split; [intros ->; tauto|].
    destruct (proj1 (core_dom _ _ _ _ Hc t)) as [tht Htt].
    { unfold everyone. rewrite !elem_of_app. tauto. }
    exists tht. split; [done|]. by apply (core_thread _ _ _ _ Hc t tht Htt).
  - intros [] s1 (_ & Et & Hst1). split; [done|]. intros t. by rewrite Et, drop_threads_lookup.
Qed.

(** [exorcise] also gives up the room [thread_fork] reserved in the array of
    zombies: with more than sixteen slots reserved, it leaves none, so that the
    next [thread_exit] has to ask the allocator. *)
Theorem exorcise_drops_reservation s rl sl a :
  threads_ok s rl sl [] -> ts_spl s > 0 -> ts_zombies s = Some a -> arr_max a > 16 ->
  wpo may_panic exorcise s (fun _ s' =>
    exists a', ts_zombies s' = Some a' /\ arr_max a' = 0).
Proof.
  intros (Hst & _) Hspl Ez Hmax.
  destruct Hst as (aS & aZ & q & ES & EZ & EQ & WS & CS & WZ & CZ & Wq & Hq & Hb & Ho & He).
  rewrite Ez in EZ. injection EZ as <-. pose proof (contents_num _ _ WZ CZ) as Hn. simpl in Hn.
  unfold exorcise. wp_step. apply wp_assert_spl; [done|]. wp_step. unfold the_zombies. wp_steps.
  eapply wp_deref; [done|]. wp_step. unfold array_getnum. rewrite Hn, Nat2Z.id. cbn [destroy_all].
  wp_step. wp_step. apply wp_on_heap, wp_oom. unfold array_setsize.
  destruct WZ as (? & ? & Hl). wp_step. wp_step.
  destruct (Z.gtb_spec 0 (arr_max a)); [lia|]. destruct (Z.gtb_spec (arr_max a) 16); [|lia].
  cbn [Z.eqb andb]. unfold cells in Hl. destruct (arr_v a) as [b|] eqn:Ev; [|simpl in Hl; lia].
  wp_step. cbn [app] in Ho. rewrite blocks_zombies in Ho. eapply wp_mono.
  { eapply (wp_kfree_own (blk_addr b) _ (arr_addr a :: but_zombies s aS q) R).
    eapply owns_move; [exact Ho|]. unfold array_blocks. rewrite Ev. solve_blocks. }
  intros [] h1 _. wp_step. wp_step. wp_step. wp_step. by eexists.
Qed.

(** ** Booting *)

(** The globals before any initialisation, with interrupts off. *)
Definition zero_sys (h : H) (e : E) : T :=
  mkTsys ∅ ∅ None None None 0 0 0 SPL_HIGH 0 0 h e.

Definition boot_threads : M T Z :=
  let* _ := scheduler_bootstrap in
  thread_bootstrap.

Lemma boot_threads_wp h e :
  owns h [] R -> env_ok e ->
  wpo may_panic boot_threads (zero_sys h e) (fun me s' =>
    threads_ok s' [] [] [] /\ running s' /\ ts_sems s' = ∅).
Proof.
  intros Ho He. unfold boot_threads. wp_step. unfold scheduler_bootstrap. wp_step.
  apply wp_on_heap, wp_oom. eapply wp_mono.
  { apply (q_create_own 32 h [] R); [done|unfold MAXQ; lia]. }
  intros [q|] h1 Hq; [|by right; apply Hq]. destruct Hq as (Wq & Hq & Hsz & Ho1). wp_step.
  unfold thread_bootstrap. wp_step. apply wp_on_heap, wp_oom.
  eapply wp_mono; [by apply array_create_own|].
  intros [a|] h2 Ha; [|by right; apply Ha]. destruct Ha as (Wa & Ho2 & Ca). wp_step. wp_step. wp_step.
  apply wp_on_heap, wp_oom. eapply wp_mono; [by apply array_create_own|].
  intros [z|] h3 Hz; [|by right; apply Hz]. destruct Hz as (Wz & Ho3 & Cz). wp_step. wp_step. wp_step.
  match goal with |- wpo _ _ ?x _ => set (s3 := x) end.
  assert (store_ok s3 [] [] []) as Hst3.
  { exists a, z, q. split_and!; try done; [unfold MAXT; lia|].
    eapply owns_move; [exact Ho3|]. unfold blocks, table_blocks; simpl.
    rewrite !map_to_list_empty. simpl. solve_blocks. }
  eapply wp_mono; [apply (thread_create_wp R s3 [] [] []); [done|reflexivity]|].
  intros me s4 (Hk & [(-> & ? & _)|(Hme & _ & Hst4 & n & ft & Et)]); [by right|].
  destruct (Z.eqb_spec me 0); [done|]. wp_step. wp_step. wp_step. wp_step. wp_step.
  destruct Hk as (Es & _ & _ & Ep & Esp & Ei & _). simpl in *.
  assert (running (set_num 1 (set_cur me s4))) as Hrun.
  { eexists. simpl. rewrite Et, lookup_insert_eq. done. }
  split; [|done]. split_and!; [done| | |simpl; rewrite Esp; done|by left|done].
  - constructor; unfold everyone, curl; simpl; destruct (Z.eqb_spec me 0); try done; cbn [app].
    + apply NoDup_singleton.
    + intros t. rewrite Et, list_elem_of_singleton. destruct (decide (t = me)) as [->|].
      * rewrite lookup_insert_eq. split; eauto.
      * rewrite lookup_insert_ne, lookup_empty by done. split; [done|by intros []].
    + by rewrite Et, lookup_insert_ne.
    + intros t th. rewrite Et. destruct (decide (t = me)) as [->|].
      * rewrite lookup_insert_eq. intros [= <-]. constructor; try done; by intros ?%not_elem_of_nil.
      * by rewrite lookup_insert_ne, lookup_empty by done.
    + intros x sm. simpl. rewrite Es. done.
  - split; [|by left]. unfold curl; simpl. by destruct (Z.eqb_spec me 0).
Qed.

(** ** Creating and destroying semaphores *)

Lemma store_insert_sem p n c s rl sl zl :
  store_plus R [p; n] s rl sl zl ->
  ts_sems s !! p = None /\ store_ok (set_sems (<[p := mkSem n c]> (ts_sems s)) s) rl sl zl.
Proof.
  intros (aS & aZ & q & ES & EZ & EQ & WS & CS & WZ & CZ & Wq & Hq & Hb & Ho & He).
  assert (ts_sems s !! p = None) as Hf.
  { destruct Ho as (Hh & Hn & HR). destruct (ts_sems s !! p) as [sm|] eqn:Hp; [|done].
    cbn [app] in Hn. apply NoDup_cons in Hn as [Hn _]. destruct Hn.
    right. unfold blocks. rewrite !elem_of_app. right; right; right; right.
    eapply (table_blocks_elem sem_own); [done|]. left. }
  split; [done|]. exists aS, aZ, q. split_and!; try done.
  eapply owns_move; [exact Ho|]. unfold blocks; simpl.
  rewrite (table_blocks_insert sem_own _ p (mkSem n c) Hf). simpl. solve_blocks.
Qed.

Lemma core_new_sem s s' rl sl zl p n c :
  core s rl sl zl -> ts_sems s !! p = None -> p <> 0 -> 0 <= c < 2 ^ 31 ->
  (forall t, t ∈ sl -> sleeps_on s p t = false) ->
  ts_threads s' = ts_threads s -> ts_cur s' = ts_cur s -> ts_prev s' = ts_prev s ->
  ts_inint s' = ts_inint s -> ts_sems s' = <[p := mkSem n c]> (ts_sems s) ->
  core s' rl sl zl.
Proof.
  intros [K1 K2 K3 K4 K5 K6 K7] Hp Hp0 Hc Hsl Et Ec Epv Ei Es.
  assert (curl s' = curl s) as Ecl by (unfold curl; by rewrite Ec).
  assert (forall a, is_Some (ts_sems s !! a) -> is_Some (ts_sems s' !! a)) as Hmono.
  { intros a. rewrite Es, lookup_insert_is_Some'. by right. }
  constructor; unfold everyone in *; rewrite ?Ecl, ?Et, ?Epv, ?Ec; try done.
  - intros t th Ht. destruct (K5 t th Ht) as [Q1 Q2 Q3 Q4 Q5 Q6 Q7]. constructor; try done.
    + destruct (t_resume th); simpl in *; try done. naive_solver.
    + unfold inint_of in *. by rewrite Ec, Epv, Ei.
    + intros Hs. specialize (Q7 Hs). unfold asleep_ok in *. destruct (t_resume th); try done.
      rewrite Es, lookup_insert_ne; [done|]. intros ->. specialize (Hsl t Hs).
      unfold sleeps_on in Hsl. rewrite Ht in Hsl. by apply Z.eqb_neq in Hsl.
  - intros a sm. rewrite Es. destruct (decide (a = p)) as [->|].
    + rewrite lookup_insert_eq. intros [= <-]. simpl. split_and!; [done|lia|lia|].
      intros _ t Ht. unfold sleeps_on. rewrite Et. by apply Hsl.
    + rewrite lookup_insert_ne by done. intros Ha. destruct (K6 a sm Ha) as (? & ? & Hw).
      split_and!; [done|lia|lia|]. intros ? t Ht. unfold sleeps_on. rewrite Et. by apply Hw.
Qed.

Lemma sem_create_wp s rl sl zl name c :
  threads_ok s rl sl zl -> running s -> Z.of_nat (length name) < NAMEMAX -> 0 <= c < 2 ^ 31 ->
  wpo may_panic (sem_create name c) s (fun p s' =>
    ts_cur s' = ts_cur s /\ ts_threads s' = ts_threads s /\ ts_spl s' = ts_spl s /\
    ((p = 0 /\ alloc_fails /\ threads_ok s' rl sl zl /\ ts_sems s' = ts_sems s) \/
     (p <> 0 /\ (exists n, ts_sems s' = <[p := mkSem n c]> (ts_sems s)) /\
      ((forall t, t ∈ sl -> sleeps_on s p t = false) -> threads_ok s' rl sl zl)))).
Proof.
  intros (Hst & Hc & Hn & Hs & Hor & Hi) Hrun Hname Hcnt.
  assert (forall s', keep s s' -> ts_threads s' = ts_threads s -> store_ok s' rl sl zl ->
    threads_ok s' rl sl zl) as Hfail.
  { intros s' Hk Et Hst'. pose proof Hk as (Es & En & Ec & Ep & Esp & Ei & El & Er).
    assert (running s') by (unfold running; by rewrite Ec, Et).
    split_and!; [done|by eapply core_ext; [exact Hc|done..|left]| |lia|by left|].
    - eapply counted_move; done.
    - intros _. rewrite Ei. by apply Hi. }
  unfold sem_create. wp_step. wp_step. wp_step.
  eapply wp_mono; [apply (store_malloc R); [exact Hst|unfold SIZEOF_SEMAPHORE, MAXALLOC; lia]|].
  intros p s1 (h1 & -> & [(-> & Hf & Hst1)|[Hp Hst1]]).
  { simpl. wp_step. split_and!; try done. left. split_and!; try done.
    apply Hfail; [unfold keep; split_and!; done|done|done]. }
  destruct (Z.eqb_spec p 0); [done|]. wp_step.
  eapply wp_mono; [by apply (kstrdup_wp R)|].
  intros [nm str] s2 (-> & h2 & -> & [(-> & Hf & Hst2)|[Hn0 Hst2]]).
  { simpl. wp_step. eapply wp_mono; [by apply (store_free R)|].
    intros [] s3 (h3 & -> & Hst3). wp_step. split_and!; try done. left. split_and!; try done.
    apply Hfail; [unfold keep; split_and!; done|done|done]. }
  destruct (Z.eqb_spec nm 0); [done|]. wp_step. wp_step. wp_step.
  destruct (store_insert_sem p nm c (set_heap h2 (set_heap h1 s)) rl sl zl) as [Hfr Hst3].
  { eapply store_perm; [exact Hst2|solve_blocks]. }
  split_and!; try done. right. split_and!; [done|by exists nm|]. intros Hsl.
  split_and!; [exact Hst3| |exact Hn|done|by left|done].
  eapply (core_new_sem s); done.
Qed.

(** [sem_destroy] panics exactly when some thread is asleep on the semaphore;
    otherwise it gives the name and the structure back to the heap and takes
    the semaphore out of the system, and nothing else changes. *)
Theorem sem_destroy_guarded s rl sl zl a sm :
  threads_ok s rl sl zl -> ts_sems s !! a = Some sm ->
  if existsb (sleeps_on s a) sl then sem_destroy a s = Stop Panic
  else wpo may_panic (sem_destroy a) s (fun _ s' =>
    store_ok s' rl sl zl /\ ts_sems s' = delete a (ts_sems s) /\
    ts_threads s' = ts_threads s /\ ts_cur s' = ts_cur s /\ ts_spl s' = ts_spl s).
Proof.
  intros (Hst & Hc & _) Ha. destruct (core_sems _ _ _ _ Hc a sm Ha) as (Ha0 & _).
  pose proof (thread_hassleepers_spec R (set_spl SPL_HIGH s) rl sl zl a Hst eq_refl
                (core_sleepers _ _ _ _ Hc)) as Eh.
  change (sleeps_on (set_spl SPL_HIGH s) a) with (sleeps_on s a) in Eh.
  destruct (existsb (sleeps_on s a) sl) eqn:Eb.
  - unfold sem_destroy, splhigh, splx, kassert, bind, get, modify, ret, lift.
    destruct (Z.eqb_spec a 0); [done|]. simpl. rewrite Eh. done.
  - unfold sem_destroy. wp_step. wp_step. wp_step. apply wp_splx. wp_step.
    eapply wp_Ret; [exact Eh|]. wp_step. wp_step. wp_step. apply wp_splx. simpl.
    rewrite set_spl_back. wp_step. eapply wp_the_sem; [done|].
    destruct Hst as (aS & aZ & q & ES & EZ & EQ & WS & CS & WZ & CZ & Wq & Hq & Hb & Ho & He).
    assert (owns (ts_heap s) (sem_name sm :: a ::
              blocks (set_sems (delete a (ts_sems s)) s) aS aZ q) R) as Ho1.
    { eapply owns_move; [exact Ho|]. unfold blocks; simpl.
      rewrite (table_blocks_delete sem_own _ a sm Ha). simpl. solve_blocks. }
    wp_step. eapply wp_heap_free; [exact Ho1|]. intros h1 Ho2.
    wp_step. eapply wp_heap_free; [exact Ho2|]. intros h2 Ho3. wp_step.
    split; [|done]. by exists aS, aZ, q.
Qed.
End Threads.

(** ** Instances: a booted kernel

    The other parts of the kernel are played by functions that do nothing. *)

#[global] Instance null_env : ThreadEnv unit := {|
  as_activate _ := ret tt;
  as_destroy _ := ret tt;
  vop_incref _ := ret tt;
  vop_decref _ := ret tt;
  ft_create := ret 0;
  lbolt := 0x80000010;
|}.

#[global] Program Instance null_env_laws : ThreadEnvLaws unit := {| env_ok _ := True |}.
Solve All Obligations with done.

Definition run_state {S A} (m : M S A) (s : S) : S :=
  match m s with Ret (_, s') => s' | Stop _ => s end.
Definition returns {S A} (m : M S A) (s : S) : bool :=
  match m s with Ret _ => true | Stop _ => false end.

Lemma wp_run {S A} p (m : M S A) s (Q : A -> S -> Prop) :
  wpo p m s Q -> returns m s = true ->
  exists a, m s = Ret (a, run_state m s) /\ Q a (run_state m s).
Proof. unfold wpx, returns, run_state. destruct (m s) as [[a s']|w]; [|done]. by exists a. Qed.

#[local] Abbreviation BS := (tsys (kheap ram) unit).

Lemma null_env_ok : env_ok tt.
Proof. exact I. Qed.

Lemma boot_owns : owns boot_heap [] ∅.
Proof. apply owns_intro; [exact boot_heap_ok|constructor|done]. Qed.

Definition boot_sys : BS := run_state boot_threads (zero_sys boot_heap tt).

Lemma boot_sys_ok : threads_ok ∅ boot_sys [] [] [] /\ running boot_sys /\ ts_sems boot_sys = ∅.
Proof.
  destruct (wp_run _ _ _ _ (boot_threads_wp ∅ boot_heap tt boot_owns null_env_ok)) as (me & _ & Hb);
    [vm_compute; reflexivity|exact Hb].
Qed.

(** A semaphore of value zero, then a second thread. *)
Definition sem_sys : BS := run_state (sem_create [115] 0) boot_sys.
Definition fork_sys : BS := run_state (thread_fork [97]) sem_sys.
Definition boot_sem : Z := 0x80016000.

Lemma sem_sys_ok :
  threads_ok ∅ sem_sys [] [] [] /\ running sem_sys /\ is_Some (ts_sems sem_sys !! boot_sem).
Proof.
  destruct boot_sys_ok as (Hok & Hrun & _).
  destruct (wp_run _ _ _ _ (sem_create_wp ∅ boot_sys [] [] [] [115] 0 Hok Hrun eq_refl ltac:(lia)))
    as (p & E & Ec & Et & _ & Hb); [vm_compute; reflexivity|].
  split_and!.
  - destruct Hb as [(_ & _ & ? & _)|(_ & _ & Hb)]; [assumption|]. apply Hb.
    intros t Ht. exfalso. exact (not_elem_of_nil _ Ht).
  - unfold running in *. change sem_sys with (run_state (sem_create [115] 0) boot_sys).
    rewrite Ec, Et. exact Hrun.
  - vm_compute. eexists. reflexivity.
Qed.

Lemma fork_allowed : allowed sem_sys (AFork [97]).
Proof.
  destruct sem_sys_ok as (_ & Hrun & _). split; [exact Hrun|]. split; [reflexivity|vm_compute; reflexivity].
Qed.

Lemma fork_sys_ok : exists rl, threads_ok ∅ fork_sys rl [] [] /\ running fork_sys.
Proof.
  destruct sem_sys_ok as (Hok & Hrun & _).
  destruct (wp_run _ _ _ _ (fork_action_wp ∅ sem_sys [] [] [] [97] Hok fork_allowed))
    as ([r t] & E & Hrun' & _ & _ & Hb); [vm_compute; reflexivity|].
  destruct Hb as [(_ & _ & Hb)|(_ & _ & Hb)]; eexists; (split; [exact Hb | exact Hrun']).
Qed.

Lemma fork_sys_queue : exists t, threads_ok ∅ fork_sys [t] [] [] /\ t <> ts_cur fork_sys.
Proof.
  destruct sem_sys_ok as (Hok & Hrun & _).
  destruct (wp_run _ _ _ _ (fork_action_wp ∅ sem_sys [] [] [] [97] Hok fork_allowed))
    as ([r t] & E & Hrun' & Ec & _ & Hb); [vm_compute; reflexivity|].
  exists t. destruct Hb as [(_ & Hf & Hb)|(-> & _ & Hb)].
  - split; [exact Hb|]. unfold fork_sys. rewrite Ec. intros ->. destruct Hrun as (th & Hth & _). rewrite Hf in Hth. discriminate.
  - exfalso. clear - E. vm_compute in E. discriminate.
Qed.

Lemma sem_sys_sys : sys_ok ∅ sem_sys.
Proof. destruct sem_sys_ok as [Hok _]. exists [], [], []. exact Hok. Qed.

Lemma fork_step : run_action (AFork [97]) sem_sys = Ret ([], fork_sys).
Proof. vm_compute. reflexivity. Qed.

Lemma fork_exec : exec sem_sys [] fork_sys.
Proof. exact (exec_step sem_sys [] sem_sys _ _ _ (exec_nil sem_sys) fork_allowed fork_step). Qed.

Lemma threads_invariant_witness :
  sys_ok ∅ sem_sys /\ exec sem_sys [] fork_sys /\ sys_ok ∅ fork_sys.
Proof.
  split; [exact sem_sys_sys|]. split; [exact fork_exec|].
  exact (proj1 (threads_invariant ∅ sem_sys [] fork_sys sem_sys_sys fork_exec)).
Defined.

(** The boot thread signals the semaphore. *)
Definition v_sys : BS := run_state (V boot_sem) fork_sys.

Lemma V_exec : exec sem_sys [Released boot_sem] v_sys.
Proof.
  apply (exec_step sem_sys [] fork_sys (AV boot_sem) [Released boot_sem] v_sys fork_exec).
  - destruct fork_sys_ok as (rl & _ & Hrun). split; [exact Hrun|].
    split; [vm_compute; eexists; reflexivity|vm_compute; reflexivity].
  - vm_compute. reflexivity.
Qed.

Lemma semaphore_accounting_witness :
  sys_ok ∅ sem_sys /\ exec sem_sys [Released boot_sem] v_sys /\
  count_of v_sys boot_sem = count_of sem_sys boot_sem + 1.
Proof.
  split; [exact sem_sys_sys|]. split; [exact V_exec|].
  exact (proj1 (semaphore_accounting ∅ sem_sys [Released boot_sem] v_sys boot_sem sem_sys_sys V_exec)).
Defined.

(** The boot thread goes to sleep on the semaphore. *)
Definition p_sys : BS := run_state (P boot_sem) fork_sys.

Lemma P_exec : exec sem_sys [] p_sys.
Proof.
  apply (exec_step sem_sys [] fork_sys (AP boot_sem) [] p_sys fork_exec).
  - destruct fork_sys_ok as (rl & _ & Hrun). split; [exact Hrun|].
    vm_compute; eexists; reflexivity.
  - vm_compute. reflexivity.
Qed.

Definition boot_tid : Z := ts_cur boot_sys.

Lemma no_lost_wakeup_witness :
  sys_ok ∅ sem_sys /\ exec sem_sys [] p_sys /\
  (exists a th spl, ts_sleepers p_sys = Some a /\ contents a = [Some boot_tid] /\
     ts_threads p_sys !! boot_tid = Some th /\ t_resume th = RP boot_sem spl) /\
  count_of p_sys boot_sem = 0.
Proof.
  split; [exact sem_sys_sys|]. split; [exact P_exec|].
  assert (exists a th spl, ts_sleepers p_sys = Some a /\ contents a = [Some boot_tid] /\
     ts_threads p_sys !! boot_tid = Some th /\ t_resume th = RP boot_sem spl) as Hex.
  { eexists _, _, _. split; [vm_compute; reflexivity|]. split; [vm_compute; reflexivity|].
    split; [vm_compute; reflexivity|reflexivity]. }
  split; [exact Hex|]. destruct Hex as (a & th & spl & Ea & Ec & Eth & Ek).
  apply (no_lost_wakeup ∅ sem_sys [] p_sys a boot_tid th boot_sem spl sem_sys_sys P_exec Ea);
    [rewrite Ec; left|exact Eth|exact Ek].
Defined.

(** The second thread begins, and turns interrupts off. *)
Definition begun_sys : BS := run_state thread_resume p_sys.
Definition off_sys : BS := set_spl SPL_HIGH begun_sys.

Lemma resume_exec : exec sem_sys [] begun_sys.
Proof.
  apply (exec_step sem_sys [] p_sys AResume [] begun_sys P_exec).
  - split; [vm_compute; discriminate|]. intros (th & Hth & Hr). vm_compute in Hth. injection Hth as <-. discriminate Hr.
  - vm_compute. reflexivity.
Qed.

Lemma off_running : running off_sys.
Proof. vm_compute. eexists. split; reflexivity. Qed.

Lemma threads_off R (s : BS) rl sl zl : threads_ok R s rl sl zl -> threads_ok R (set_spl SPL_HIGH s) rl sl zl.
Proof.
  intros (Hst & Hc & Hn & _ & _ & Hi). split; [done|]. split; [eapply core_ext; [exact Hc|done..|by right]|].
  do 2 (split; [done|]). split; [by right|done].
Qed.

Lemma begun_sleepers rl sl zl : threads_ok ∅ begun_sys rl sl zl -> sl = [boot_tid].
Proof.
  intros ((aS & aZ & q & ES & _ & _ & _ & HS & _) & _). vm_compute in ES. injection ES as <-.
  destruct sl as [|t [|t' sl]]; [discriminate HS|injection HS as <-; reflexivity|discriminate HS].
Qed.

Lemma off_sys_ok : exists rl zl, threads_ok ∅ off_sys rl [boot_tid] zl.
Proof.
  destruct (exec_ok ∅ _ _ _ sem_sys_sys resume_exec) as [(rl & sl & zl & Hok) _]. exists rl, zl.
  rewrite (begun_sleepers rl sl zl Hok) in Hok. exact (threads_off ∅ begun_sys rl [boot_tid] zl Hok).
Qed.

Lemma off_level : ts_spl off_sys > 0.
Proof. vm_compute. reflexivity. Qed.

Lemma off_sleeps : sleeps_on off_sys boot_sem boot_tid = true.
Proof. vm_compute. reflexivity. Qed.

Lemma woken_one {S A} p (m : M S A) s (f : Z -> bool) t (Q : list Z -> list Z -> A -> S -> Prop) :
  f t = true -> wpo p m s (Q (List.filter f [t]) (List.filter (fun t => negb (f t)) [t])) -> wpo p m s (Q [t] []).
Proof. intros E. simpl. by rewrite E. Qed.

(** A thread asleep on the semaphore is woken. *)
Lemma thread_wakeup_exact_witness :
  exists rl zl, threads_ok ∅ off_sys rl [boot_tid] zl /\ running off_sys /\ ts_spl off_sys > 0 /\
  wpo may_panic (thread_wakeup boot_sem) off_sys (fun _ s' =>
    ts_threads s' = ts_threads off_sys /\ threads_ok ∅ s' (rl ++ [boot_tid]) [] zl).
Proof.
  destruct off_sys_ok as (rl & zl & Hok). exists rl, zl.
  split; [exact Hok|]. split; [exact off_running|]. split; [exact off_level|].
  exact (woken_one _ _ off_sys (sleeps_on off_sys boot_sem) boot_tid
    (fun l1 l2 _ s' => ts_threads s' = ts_threads off_sys /\ threads_ok ∅ s' (rl ++ l1) l2 zl)
    off_sleeps (thread_wakeup_exact ∅ off_sys rl [boot_tid] zl boot_sem Hok off_running off_level)).
Defined.

(** The second thread is first in the queue; the boot thread yields once. *)
Definition yield_sys : BS := run_state (thread_yield RYield) fork_sys.

Lemma yield_steps : steps fork_sys [AYield] yield_sys.
Proof.
  destruct fork_sys_ok as (rl & _ & Hrun).
  apply (steps_cons fork_sys AYield [] yield_sys [] yield_sys);
    [exact Hrun|vm_compute; reflexivity|constructor].
Qed.

Lemma ready_thread_runs_witness :
  exists t, threads_ok ∅ fork_sys [t] [] [] /\ t <> ts_cur fork_sys /\ gets_to_run t fork_sys [AYield].
Proof.
  destruct fork_sys_queue as (t & Hok & Hne). exists t. split; [exact Hok|]. split; [exact Hne|].
  exact (ready_thread_runs ∅ fork_sys [AYield] yield_sys [t] [] [] 0 t Hok eq_refl yield_steps (le_n 1)).
Defined.


Lemma thread_sleep_reserved_witness :
  exists rl, threads_ok ∅ fork_sys rl [] [] /\ running fork_sys /\ 2 <= ts_num fork_sys /\
  exists s', thread_sleep 5 RSleep fork_sys = Ret (tt, s') /\ ts_heap s' = ts_heap fork_sys.
Proof.
  destruct fork_sys_ok as (rl & Hok & Hrun). exists rl. split; [exact Hok|]. split; [exact Hrun|].
  assert (2 <= ts_num fork_sys) as Hn by (vm_compute; discriminate). split; [exact Hn|].
  destruct (thread_sleep_reserved ∅ fork_sys rl [] [] 5 Hok Hrun) as (s' & E & Eh & _);
    [vm_compute; reflexivity|vm_compute; reflexivity|exact Hn|].
  exists s'. split; [exact E | exact Eh].
Defined.

Lemma exorcise_reclaims_witness :
  exists rl, threads_ok ∅ fork_sys rl [] [] /\
  wpo may_panic exorcise fork_sys (fun _ s' =>
    store_plus ∅ [] s' rl [] [] /\
    forall t, ts_threads s' !! t = if decide (t ∈ []) then None else ts_threads fork_sys !! t).
Proof.
  destruct fork_sys_ok as (rl & Hok & Hrun). exists rl. split; [exact Hok|].
  apply (exorcise_reclaims ∅ fork_sys rl [] [] Hok); [vm_compute; discriminate|vm_compute; reflexivity].
Defined.

Lemma sem_destroy_guarded_witness :
  threads_ok ∅ sem_sys [] [] [] /\ is_Some (ts_sems sem_sys !! boot_sem) /\
  wpo may_panic (sem_destroy boot_sem) sem_sys (fun _ s' =>
    store_plus ∅ [] s' [] [] [] /\ ts_sems s' = delete boot_sem (ts_sems sem_sys) /\
    ts_threads s' = ts_threads sem_sys /\ ts_cur s' = ts_cur sem_sys /\ ts_spl s' = ts_spl sem_sys).
Proof.
  destruct sem_sys_ok as (Hok & _ & [sm Hs]). split; [exact Hok|]. split; [exists sm; exact Hs|].
  exact (sem_destroy_guarded ∅ sem_sys [] [] [] boot_sem sm Hok Hs).
Defined.

(** Sixteen more threads, so that more than sixteen slots are reserved. *)
Fixpoint fork_many (n : nat) (s : BS) : BS :=
  match n with O => s | S n' => fork_many n' (run_state (thread_fork [97]) s) end.
Fixpoint forks_return (n : nat) (s : BS) : bool :=
  match n with
  | O => true
  | S n' => returns (thread_fork [97]) s && (Z.of_nat (size (ts_threads s)) <? MAXT) &&
            forks_return n' (run_state (thread_fork [97]) s)
  end.

Lemma fork_many_ok n s :
  forks_return n s = true -> (exists rl, threads_ok ∅ s rl [] []) -> running s ->
  (exists rl, threads_ok ∅ (fork_many n s) rl [] []).
Proof.
  revert s. induction n as [|n IH]; intros s Hr (rl & Hok) Hrun; [by exists rl|].
  cbn [forks_return] in Hr. apply andb_prop in Hr as [Hr Hr2]. apply andb_prop in Hr as [Hr1 Hsz].
  cbn [fork_many]. assert (allowed s (AFork [97])) as Hal.
  { split; [done|]. split; [reflexivity|]. by apply Z.ltb_lt. }
  destruct (wp_run _ _ _ _ (fork_action_wp ∅ s rl [] [] [97] Hok Hal) Hr1) as ([r t] & _ & Hrun' & _ & _ & Hb).
  apply IH; [done| |done]. destruct Hb as [(_ & _ & Hb)|(_ & _ & Hb)]; by eexists.
Qed.

Definition crowd_sys : BS := fork_many 16 fork_sys.

Lemma exorcise_drops_reservation_witness :
  exists rl a, threads_ok ∅ crowd_sys rl [] [] /\ ts_zombies crowd_sys = Some a /\ arr_max a > 16 /\
  wpo may_panic exorcise crowd_sys (fun _ s' =>
    exists a', ts_zombies s' = Some a' /\ arr_max a' = 0).
Proof.
  assert (exists rl, threads_ok ∅ crowd_sys rl [] []) as (rl & Hok).
  { destruct fork_sys_ok as (rl & Hok & Hrun). apply (fork_many_ok 16 fork_sys);
      [vm_compute; reflexivity|exists rl; exact Hok|exact Hrun]. }
  assert (exists a, ts_zombies crowd_sys = Some a /\ arr_max a > 16) as (a & Ea & Hm).
  { eexists. split; [vm_compute; reflexivity|reflexivity]. }
  exists rl, a. split; [exact Hok|]. split; [exact Ea|]. split; [exact Hm|].
  apply (exorcise_drops_reservation ∅ crowd_sys rl [] a Hok); [vm_compute; reflexivity|exact Ea|exact Hm].
Defined.
