(* ===== verification/Bytes.v ===== *)
(** * Byte sequences

    What the memory and string functions, the user copies, the file system
    and the disk driver share: reading and overwriting a range of a byte
    array ([slice], [splice], and their checked forms [rdn] and [wrn], whose
    out-of-range uses are a [Fault]), and the big-endian layout of 16- and
    32-bit integers in memory, which is how a C structure written to disk
    by a MIPS kernel becomes bytes. *)

From S2P Require Import Prelude.

Section Ranges.
Context {A : Type}.
Implicit Types (l bs cs : list A) (a b n k : nat).

Definition slice l a n : list A := take n (drop a l).

Definition splice l a bs : list A := take a l ++ bs ++ drop (a + length bs) l.

Lemma length_slice l a n : (a + n <= length l)%nat -> length (slice l a n) = n.
Proof. intros H. unfold slice. rewrite length_take, length_drop. lia. Qed.

Lemma length_splice l a bs : (a + length bs <= length l)%nat -> length (splice l a bs) = length l.
Proof. intros H. unfold splice. rewrite !length_app, length_take, length_drop. lia. Qed.

Lemma lookup_slice l a n k : (k < n)%nat -> slice l a n !! k = l !! (a + k)%nat.
Proof. intros H. unfold slice. rewrite lookup_take_lt by done. apply lookup_drop. Qed.

Lemma lookup_splice l a bs k :
  (a + length bs <= length l)%nat ->
  splice l a bs !! k =
    if decide (a <= k < a + length bs)%nat then bs !! (k - a)%nat else l !! k.
Proof.
  intros H. unfold splice. destruct (decide (k < a)%nat).
  - rewrite lookup_app_l by (rewrite length_take; lia). rewrite lookup_take_lt by done.
    destruct (decide _); [lia | done].
  - rewrite lookup_app_r by (rewrite length_take; lia). rewrite length_take, Nat.min_l by lia.
    destruct (decide _).
    + rewrite lookup_app_l by lia. done.
    + rewrite lookup_app_r by lia. rewrite lookup_drop. f_equal. lia.
Qed.

Lemma slice_ext l l' a n :
  length l' = length l -> (forall k, (a <= k < a + n)%nat -> l' !! k = l !! k) -> slice l' a n = slice l a n.
Proof.
  intros Hl He. apply list_eq. intros k. destruct (decide (k < n)%nat).
  - rewrite !lookup_slice by done. apply He. lia.
  - unfold slice. by rewrite !lookup_take_ge by lia.
Qed.

Lemma slice_splice_same l a bs :
  (a + length bs <= length l)%nat -> slice (splice l a bs) a (length bs) = bs.
Proof.
  intros H. apply list_eq. intros k. destruct (decide (k < length bs)%nat).
  - rewrite lookup_slice by done. rewrite lookup_splice by done.
    destruct (decide _); [f_equal|]; lia.
  - rewrite !lookup_ge_None_2; [done | lia|]. rewrite length_slice; [lia|]. rewrite length_splice; lia.
Qed.

Lemma slice_splice_other l a bs b n :
  (a + length bs <= length l)%nat -> (b + n <= length l)%nat ->
  (b + n <= a \/ a + length bs <= b)%nat ->
  slice (splice l a bs) b n = slice l b n.
Proof.
  intros H1 H2 H3. apply list_eq. intros k. destruct (decide (k < n)%nat).
  - rewrite !lookup_slice by done. rewrite lookup_splice by done.
    destruct (decide _); [lia | done].
  - rewrite !lookup_ge_None_2; [done|..]; rewrite length_slice; rewrite ?length_splice; lia.
Qed.

Lemma splice_nil l a : splice l a [] = l.
Proof. unfold splice. simpl. rewrite Nat.add_0_r. apply take_drop. Qed.

Lemma splice_app l a bs cs :
  (a + length bs + length cs <= length l)%nat ->
  splice (splice l a bs) (a + length bs) cs = splice l a (bs ++ cs).
Proof.
  intros H. apply list_eq. intros k.
  rewrite !lookup_splice; rewrite ?length_splice; rewrite ?length_app; try lia.
  repeat destruct (decide _); try lia; try done.
  - rewrite lookup_app_r by lia. f_equal. lia.
  - by rewrite lookup_app_l by lia.
Qed.

Lemma splice_slice_id l a n : (a + n <= length l)%nat -> splice l a (slice l a n) = l.
Proof.
  intros H. apply list_eq. intros k. rewrite lookup_splice; rewrite length_slice; try lia.
  destruct (decide _); [|done]. rewrite lookup_slice by lia. f_equal. lia.
Qed.

Lemma slice_app l a n k : slice l a (n + k) = slice l a n ++ slice l (a + n) k.
Proof. unfold slice. by rewrite <- take_take_drop, drop_drop. Qed.

Lemma slice_slice l a n b k : (b + k <= n)%nat -> slice (slice l a n) b k = slice l (a + b) k.
Proof.
  intros H. apply list_eq. intros j. destruct (decide (j < k)%nat).
  - rewrite !lookup_slice by lia. f_equal. lia.
  - unfold slice. rewrite !lookup_take_ge by lia. done.
Qed.

(** Overwriting a part of a piece. *)
Lemma splice_splice_slice l a n b bs :
  (a + n <= length l)%nat -> (b + length bs <= n)%nat ->
  splice l a (splice (slice l a n) b bs) = splice l (a + b) bs.
Proof.
  intros H1 H2. assert (L : length (slice l a n) = n) by (by apply length_slice).
  assert (L2 : length (splice (slice l a n) b bs) = n) by (rewrite length_splice; lia).
  apply list_eq. intros j. rewrite !lookup_splice by lia. rewrite L2.
  repeat destruct (decide _); try lia; try done; rewrite ?lookup_slice by lia; f_equal; lia.
Qed.

Lemma slice_all l : slice l 0 (length l) = l.
Proof. unfold slice. by rewrite drop_0, firstn_all. Qed.

Lemma splice_all l bs : length bs = length l -> splice l 0 bs = bs.
Proof.
  intros H. unfold splice. simpl. rewrite drop_ge by lia. apply app_nil_r.
Qed.

Lemma Forall_slice (P : A -> Prop) l a n : Forall P l -> Forall P (slice l a n).
Proof. intros H. by apply Forall_take, Forall_drop. Qed.

Lemma Forall_splice (P : A -> Prop) l a bs : Forall P l -> Forall P bs -> Forall P (splice l a bs).
Proof. intros H1 H2. unfold splice. rewrite !Forall_app. auto using Forall_take, Forall_drop. Qed.

Lemma insert_splice l k x : (k < length l)%nat -> <[k := x]> l = splice l k [x].
Proof. intros H. unfold splice. simpl. rewrite insert_take_drop, Nat.add_1_r by done. done. Qed.

(** Reading and writing [n] elements at an index of a C array. *)
Definition rdn l (i n : Z) : res (list A) :=
  if (0 <=? i) && (0 <=? n) && (i + n <=? Z.of_nat (length l))
  then Ret (slice l (Z.to_nat i) (Z.to_nat n))
  else Stop Fault.

Definition wrn l (i : Z) bs : res (list A) :=
  if (0 <=? i) && (i + Z.of_nat (length bs) <=? Z.of_nat (length l))
  then Ret (splice l (Z.to_nat i) bs)
  else Stop Fault.

Lemma rdn_in l (i n : Z) :
  0 <= i -> 0 <= n -> i + n <= Z.of_nat (length l) ->
  rdn l i n = Ret (slice l (Z.to_nat i) (Z.to_nat n)).
Proof.
  intros. unfold rdn. replace ((0 <=? i) && (0 <=? n) && (i + n <=? Z.of_nat (length l))) with true; [done|].
  symmetry. rewrite !andb_true_iff. lia.
Qed.

Lemma wrn_in l (i : Z) bs :
  0 <= i -> i + Z.of_nat (length bs) <= Z.of_nat (length l) ->
  wrn l i bs = Ret (splice l (Z.to_nat i) bs).
Proof.
  intros. unfold wrn. replace ((0 <=? i) && (i + Z.of_nat (length bs) <=? Z.of_nat (length l))) with true; [done|].
  symmetry. rewrite !andb_true_iff. lia.
Qed.
End Ranges.

(** ** Bytes and words *)

Definition byte_ok (b : Z) : Prop := 0 <= b < 256.
Definition word_ok (w : Z) : Prop := 0 <= w < 2 ^ 32.

(** The bytes of a 16- or 32-bit integer in memory; MIPS is big-endian. *)
Definition be16 (w : Z) : list Z := [w / 256 mod 256; w mod 256].
Definition be32 (w : Z) : list Z :=
  [w / 2 ^ 24 mod 256; w / 2 ^ 16 mod 256; w / 2 ^ 8 mod 256; w mod 256].

Definition un16 (bs : list Z) : Z :=
  match bs with [a; b] => a * 256 + b | _ => 0 end.
Definition un32 (bs : list Z) : Z :=
  match bs with [a; b; c; d] => a * 2 ^ 24 + b * 2 ^ 16 + c * 2 ^ 8 + d | _ => 0 end.

Lemma un16_be16 w : 0 <= w < 2 ^ 16 -> un16 (be16 w) = w.
Proof. intros H. unfold un16, be16. Z.to_euclidean_division_equations. lia. Qed.

Lemma un32_be32 w : word_ok w -> un32 (be32 w) = w.
Proof. unfold word_ok, un32, be32. intros H. Z.to_euclidean_division_equations. lia. Qed.

Lemma be16_un16 bs : length bs = 2%nat -> Forall byte_ok bs -> be16 (un16 bs) = bs.
Proof.
  destruct bs as [|a [|b [|]]]; try done. intros _ H.
  apply Forall_cons in H as [Ha H]. apply Forall_cons in H as [Hb _]. unfold byte_ok, be16, un16 in *.
  f_equal; [|f_equal]; Z.to_euclidean_division_equations; lia.
Qed.

Lemma be32_un32 bs : length bs = 4%nat -> Forall byte_ok bs -> be32 (un32 bs) = bs.
Proof.
  destruct bs as [|a [|b [|c [|d [|]]]]]; try done. intros _ H.
  apply Forall_cons in H as [Ha H]. apply Forall_cons in H as [Hb H].
  apply Forall_cons in H as [Hc H]. apply Forall_cons in H as [Hd _]. unfold byte_ok, be32, un32 in *.
  repeat f_equal; Z.to_euclidean_division_equations; lia.
Qed.

Lemma be16_bytes w : Forall byte_ok (be16 w).
Proof. repeat constructor; apply Z.mod_pos_bound; lia. Qed.

Lemma be32_bytes w : Forall byte_ok (be32 w).
Proof. repeat constructor; apply Z.mod_pos_bound; lia. Qed.

Lemma un16_bound bs : Forall byte_ok bs -> 0 <= un16 bs < 2 ^ 16.
Proof.
  unfold un16. destruct bs as [|a [|b [|]]]; try lia. intros H.
  apply Forall_cons in H as [Ha H]. apply Forall_cons in H as [Hb _]. unfold byte_ok in *. lia.
Qed.

Lemma un32_bound bs : Forall byte_ok bs -> word_ok (un32 bs).
Proof.
  unfold un32, word_ok. destruct bs as [|a [|b [|c [|d [|]]]]]; try lia. intros H.
  apply Forall_cons in H as [Ha H]. apply Forall_cons in H as [Hb H].
  apply Forall_cons in H as [Hc H]. apply Forall_cons in H as [Hd _]. unfold byte_ok in *. lia.
Qed.

(** An array of 32-bit integers. *)
Definition words_bytes (ws : list Z) : list Z := mjoin (be32 <$> ws).

Fixpoint bytes_words (n : nat) (bs : list Z) : list Z :=
  match n with
  | O => []
  | S n' => un32 (take 4 bs) :: bytes_words n' (drop 4 bs)
  end.

Lemma length_words_bytes ws : length (words_bytes ws) = (4 * length ws)%nat.
Proof. unfold words_bytes. induction ws as [|w ws IH]; [done|]. csimpl. rewrite IH. lia. Qed.

Lemma length_bytes_words n bs : length (bytes_words n bs) = n.
Proof. revert bs. induction n as [|n IH]; intros bs; [done|]. simpl. by rewrite IH. Qed.

Lemma bytes_words_words_bytes ws rest :
  Forall word_ok ws -> bytes_words (length ws) (words_bytes ws ++ rest) = ws.
Proof.
  induction 1 as [|w ws Hw _ IH]; [done|]. change (words_bytes (w :: ws)) with (be32 w ++ words_bytes ws).
  cbn [bytes_words length]. rewrite <- app_assoc, drop_app_length', take_app_length' by done.
  by rewrite IH, un32_be32.
Qed.

Lemma words_bytes_bytes_words n bs :
  length bs = (4 * n)%nat -> Forall byte_ok bs -> words_bytes (bytes_words n bs) = bs.
Proof.
  revert bs. induction n as [|n IH]; intros bs Hl Hb.
  - by destruct bs.
  - cbn [bytes_words]. change (words_bytes (?a :: ?b)) with (be32 a ++ words_bytes b).
    rewrite be32_un32 by (rewrite ?length_take; try apply Forall_take; lia || done).
    rewrite IH; [apply take_drop | rewrite length_drop; lia | by apply Forall_drop].
Qed.

Lemma words_bytes_ok ws : Forall byte_ok (words_bytes ws).
Proof.
  unfold words_bytes. induction ws as [|w ws IH]; [constructor|]. csimpl.
  rewrite ?Forall_cons. pose proof (be32_bytes w) as Hb. unfold be32 in Hb. rewrite !Forall_cons in Hb. tauto.
Qed.

Lemma bytes_words_ok n bs : Forall byte_ok bs -> Forall word_ok (bytes_words n bs).
Proof.
  revert bs. induction n as [|n IH]; intros bs H; constructor.
  - by apply un32_bound, Forall_take.
  - by apply IH, Forall_drop.
Qed.
