(* ===== verification/Cstring.v ===== *)
(** * Memory and string functions ([lib/libc], as compiled into the kernel)

    A pointer into an object is the list of the object's bytes from there on,
    or, for the functions whose two pointers may alias, an index into the one
    memory both point into; leaving the object is a [Fault].  An index into an
    object does not wrap: no object is as large as the address space. *)

From S2P Require Import Prelude.
From S2P Require Import Bytes.

(** ** [memcpy.c], [memmove.c], [bzero.c] *)

(** [for (i=0; i<n; i++) d[i] = s[i];] on elements of [w] bytes. *)
Fixpoint copy_forward (n : nat) (w : Z) (m : list Z) (d s i : Z) : res (list Z) :=
  match n with
  | O => Ret m
  | S n' =>
      let? x := rdn m (s + w * i) w in
      let? m' := wrn m (d + w * i) x in
      copy_forward n' w m' d s (i + 1)
  end.

(** [for (i=n; i>0; i--) d[i-1] = s[i-1];] on elements of [w] bytes. *)
Fixpoint copy_backward (n : nat) (w : Z) (m : list Z) (d s : Z) : res (list Z) :=
  match n with
  | O => Ret m
  | S n' =>
      let? x := rdn m (s + w * Z.of_nat n') w in
      let? m' := wrn m (d + w * Z.of_nat n') x in
      copy_backward n' w m' d s
  end.

Definition SIZEOF_LONG : Z := 4.

Definition word_aligned (dst src len : Z) : bool :=
  (dst mod SIZEOF_LONG =? 0) && (src mod SIZEOF_LONG =? 0) && (len mod SIZEOF_LONG =? 0).

Definition memcpy (m : list Z) (dst src len : Z) : res (list Z) :=
  if word_aligned dst src len
  then copy_forward (Z.to_nat (len / SIZEOF_LONG)) SIZEOF_LONG m dst src 0
  else copy_forward (Z.to_nat len) 1 m dst src 0.

Definition memmove (m : list Z) (dst src len : Z) : res (list Z) :=
  if dst <? src then memcpy m dst src len
  else if word_aligned dst src len
  then copy_backward (Z.to_nat (len / SIZEOF_LONG)) SIZEOF_LONG m dst src
  else copy_backward (Z.to_nat len) 1 m dst src.

(** [for (i=0; i<n; i++) b[i] = 0;] on elements of [w] bytes. *)
Fixpoint zero_forward (n : nat) (w : Z) (m : list Z) (b i : Z) : res (list Z) :=
  match n with
  | O => Ret m
  | S n' =>
      let? m' := wrn m (b + w * i) (replicate (Z.to_nat w) 0) in
      zero_forward n' w m' b (i + 1)
  end.

Definition bzero (m : list Z) (vblock len : Z) : res (list Z) :=
  if (vblock mod SIZEOF_LONG =? 0) && (len mod SIZEOF_LONG =? 0)
  then zero_forward (Z.to_nat (len / SIZEOF_LONG)) SIZEOF_LONG m vblock 0
  else zero_forward (Z.to_nat len) 1 m vblock 0.

(** ** [strlen.c], [strcmp.c], [strcpy.c], [strcat.c], [strchr.c], [strrchr.c] *)

(** A [char] is signed. *)
Definition schar (c : Z) : Z := if c <? 128 then c else c - 256.

Fixpoint strlen_loop (fuel : nat) (s : list Z) (i : Z) : res Z :=
  match fuel with
  | O => Stop OutOfFuel
  | S f =>
      let? c := rd s i in
      if c =? 0 then Ret i else strlen_loop f s (i + 1)
  end.

Definition strlen (s : list Z) : res Z := strlen_loop (S (length s)) s 0.

Fixpoint strcmp_loop (fuel : nat) (a b : list Z) (i : Z) : res Z :=
  match fuel with
  | O => Stop OutOfFuel
  | S f =>
      let? x := rd a i in
      let? y := rd b i in
      if negb (x =? 0) && (x =? y) then strcmp_loop f a b (i + 1)
      else if schar x >? schar y then Ret 1
      else if x =? y then Ret 0
      else Ret (-1)
  end.

Definition strcmp (a b : list Z) : res Z := strcmp_loop (S (length a)) a b 0.

Fixpoint strcpy_loop (fuel : nat) (dest src : list Z) (i : Z) : res (list Z) :=
  match fuel with
  | O => Stop OutOfFuel
  | S f =>
      let? c := rd src i in
      if negb (c =? 0) then
        let? dest' := wr dest i c in
        strcpy_loop f dest' src (i + 1)
      else wr dest i 0
  end.

Definition strcpy (dest src : list Z) : res (list Z) := strcpy_loop (S (length src)) dest src 0.

Definition strcat (dest src : list Z) : res (list Z) :=
  let? offset := strlen dest in
  let? tail := strcpy (drop (Z.to_nat offset) dest) src in
  Ret (take (Z.to_nat offset) dest ++ tail).

(** The index of the character found; [None] is the null pointer. *)
Fixpoint strchr_loop (fuel : nat) (s : list Z) (ch i : Z) : res (option Z) :=
  match fuel with
  | O => Stop OutOfFuel
  | S f =>
      let? c := rd s i in
      if negb (c =? 0) then
        if schar c =? ch then Ret (Some i) else strchr_loop f s ch (i + 1)
      else if schar c =? ch then Ret (Some i) else Ret None
  end.

Definition strchr (s : list Z) (ch : Z) : res (option Z) := strchr_loop (S (length s)) s ch 0.

Fixpoint strrchr_loop (n : nat) (s : list Z) (ch : Z) : res (option Z) :=
  match n with
  | O => Ret None
  | S i =>
      let? c := rd s (Z.of_nat i) in
      if schar c =? ch then Ret (Some (Z.of_nat i)) else strrchr_loop i s ch
  end.

Definition strrchr (s : list Z) (ch : Z) : res (option Z) :=
  let? n := strlen s in
  strrchr_loop (Z.to_nat (n + 1)) s ch.

(** ** [strtok_r.c] *)

(** Advance over the characters that are in [seps] ([skip]) or that are not. *)
Fixpoint scan (fuel : nat) (skip : bool) (m seps : list Z) (p : Z) : res Z :=
  match fuel with
  | O => Stop OutOfFuel
  | S f =>
      let? c := rd m p in
      if c =? 0 then Ret p
      else
        let? w := strchr seps (schar c) in
        if Bool.eqb (match w with Some _ => true | None => false end) skip
        then scan f skip m seps (p + 1)
        else Ret p
  end.

(** The buffer [m] is the object the string and the saved context point into;
    the answer is the word found, the new context and the buffer. *)
Definition strtok_r (m : list Z) (string : option Z) (seps : list Z) (context : option Z) :
    res (option Z * option Z * list Z) :=
  let context := match string with Some _ => string | None => context end in
  match context with
  | None => Ret (None, None, m)
  | Some head0 =>
      let? head := scan (S (length m)) true m seps head0 in
      let? c := rd m head in
      if c =? 0 then Ret (None, None, m)
      else
        let? tail := scan (S (length m)) false m seps head in
        let? t := rd m tail in
        if t =? 0 then Ret (Some head, None, m)
        else
          let? m' := wr m tail 0 in
          Ret (Some head, Some (tail + 1), m')
  end.

(** ** [atoi.c] *)

Fixpoint skip_blanks (fuel : nat) (s : list Z) (i : Z) : res Z :=
  match fuel with
  | O => Stop OutOfFuel
  | S f =>
      let? c := rd s i in
      if (c =? 32) || (c =? 9) then skip_blanks f s (i + 1) else Ret i
  end.

Definition digits : list Z := [48; 49; 50; 51; 52; 53; 54; 55; 56; 57; 0].

Fixpoint atoi_loop (fuel : nat) (s : list Z) (i val : Z) : res Z :=
  match fuel with
  | O => Stop OutOfFuel
  | S f =>
      let? c := rd s i in
      if c =? 0 then Ret val
      else
        let? wh := strchr digits (schar c) in
        match wh with
        | None => Ret val
        | Some digit => atoi_loop f s (i + 1) (u32 (u32 (val * 10) + digit))
        end
  end.

Definition atoi (s : list Z) : res Z :=
  let fuel := S (length s) in
  let? i := skip_blanks fuel s 0 in
  let? c := rd s i in
  let neg := c =? 45 in
  let i := if neg then i + 1 else if c =? 43 then i + 1 else i in
  let? val := atoi_loop fuel s i 0 in
  Ret (if neg then s32 (u32 (- val)) else s32 val).

(** ** The memory functions copy

    The state after some elements is the original memory with a part of the
    destination overwritten by the original source; the next element is read
    where nothing has been overwritten yet. *)

Lemma copy_step (m : list Z) (d s a k w : nat) :
  (s + a + k + w <= length m)%nat -> (d + a + k + w <= length m)%nat ->
  (d <= s \/ k = 0)%nat ->
  let mk := splice m (d + a) (slice m (s + a) k) in
  splice mk (d + a + k) (slice mk (s + a + k) w) = splice m (d + a) (slice m (s + a) (k + w)).
Proof.
  intros Hs Hd Ho mk. subst mk. rewrite slice_app.
  assert (L : length (slice m (s + a) k) = k) by (apply length_slice; lia).
  assert (E : slice (splice m (d + a) (slice m (s + a) k)) (s + a + k) w = slice m (s + a + k) w).
  { destruct Ho as [Ho| ->].
    - apply slice_splice_other; rewrite ?L; lia.
    - unfold slice at 2. rewrite take_0, splice_nil. done. }
  rewrite E. pose proof (splice_app m (d + a) (slice m (s + a) k) (slice m (s + a + k) w)) as K1.
  rewrite L in K1. apply K1. rewrite length_slice; lia.
Qed.

Lemma copy_forward_spec (n i w : nat) (m : list Z) (d s : nat) :
  (d <= s)%nat -> (s + w * (i + n) <= length m)%nat ->
  copy_forward n (Z.of_nat w) (splice m d (slice m s (w * i))) (Z.of_nat d) (Z.of_nat s) (Z.of_nat i) =
    Ret (splice m d (slice m s (w * (i + n)))).
Proof.
  revert i. induction n as [|n IH]; intros i Hds Hl; cbn [copy_forward].
  - by rewrite Nat.add_0_r.
  - assert (L : length (splice m d (slice m s (w * i))) = length m)
      by (apply length_splice; rewrite length_slice; nia).
    rewrite rdn_in by nia. cbn [rbind].
    replace (Z.to_nat (Z.of_nat s + Z.of_nat w * Z.of_nat i)) with (s + w * i)%nat by nia.
    rewrite Nat2Z.id, wrn_in; [|nia | rewrite length_slice; nia]. cbn [rbind].
    replace (Z.to_nat (Z.of_nat d + Z.of_nat w * Z.of_nat i)) with (d + w * i)%nat by nia.
    pose proof (copy_step m d s 0 (w * i) w) as K1. rewrite !Nat.add_0_r in K1.
    rewrite K1 by nia. replace (w * i + w)%nat with (w * S i)%nat by nia.
    replace (Z.of_nat i + 1) with (Z.of_nat (S i)) by lia. rewrite IH by nia.
    by rewrite <- Nat.add_succ_comm.
Qed.

Lemma copy_backward_spec (n k w : nat) (m : list Z) (d s : nat) :
  (s <= d)%nat -> (d + w * (n + k) <= length m)%nat ->
  copy_backward n (Z.of_nat w) (splice m (d + w * n) (slice m (s + w * n) (w * k)))
      (Z.of_nat d) (Z.of_nat s) =
    Ret (splice m d (slice m s (w * (n + k)))).
Proof.
  revert k. induction n as [|n IH]; intros k Hds Hl; cbn [copy_backward].
  - by rewrite !Nat.mul_0_r, !Nat.add_0_r.
  - set (mk := splice m (d + w * S n) (slice m (s + w * S n) (w * k))).
    assert (L : length (slice m (s + w * S n) (w * k)) = (w * k)%nat) by (apply length_slice; nia).
    assert (Lk : length mk = length m) by (apply length_splice; rewrite L; nia).
    rewrite rdn_in by nia. cbn [rbind].
    replace (Z.to_nat (Z.of_nat s + Z.of_nat w * Z.of_nat n)) with (s + w * n)%nat by nia.
    rewrite Nat2Z.id. replace (slice mk (s + w * n) w) with (slice m (s + w * n) w)
      by (symmetry; apply slice_splice_other; rewrite ?L; nia).
    rewrite wrn_in; [|nia | rewrite length_slice; nia]. cbn [rbind].
    replace (Z.to_nat (Z.of_nat d + Z.of_nat w * Z.of_nat n)) with (d + w * n)%nat by nia.
    replace (S n + k)%nat with (n + S k)%nat by lia. rewrite <- IH by nia. f_equal.
    assert (Lw : length (slice m (s + w * n) w) = w) by (apply length_slice; nia).
    assert (Lb : length (slice m (s + w * n) (w * S k)) = (w * S k)%nat) by (apply length_slice; nia).
    apply list_eq. intros j.
    rewrite !lookup_splice by (rewrite ?Lw, ?Lb, ?Lk; nia). unfold mk.
    rewrite Lw, Lb, lookup_splice by (rewrite ?L; nia). rewrite L.
    repeat destruct (decide _); try nia; try done; rewrite !lookup_slice by nia; f_equal; nia.
Qed.

Lemma word_aligned_len dst src len :
  word_aligned dst src len = true -> 0 <= len -> 4 * (len / SIZEOF_LONG) = len.
Proof.
  unfold word_aligned, SIZEOF_LONG. rewrite !andb_true_iff. intros [_ Hl] ?.
  apply Z.eqb_eq in Hl. Z.to_euclidean_division_equations. lia.
Qed.

Lemma memcpy_spec (m : list Z) (d s n : nat) :
  (d <= s)%nat -> (s + n <= length m)%nat ->
  memcpy m (Z.of_nat d) (Z.of_nat s) (Z.of_nat n) = Ret (splice m d (slice m s n)).
Proof.
  intros Hds Hl. unfold memcpy. destruct (word_aligned _ _ _) eqn:E.
  - apply word_aligned_len in E; [|lia]. set (q := Z.to_nat (Z.of_nat n / SIZEOF_LONG)).
    assert (Hq : n = (4 * q)%nat) by (unfold q; pose proof (Z.div_pos (Z.of_nat n) SIZEOF_LONG); unfold SIZEOF_LONG in *; lia).
    pose proof (copy_forward_spec q 0 4 m d s Hds) as K1. rewrite Nat.mul_0_r, Nat.add_0_l in K1.
    unfold slice at 1 in K1. rewrite take_0, splice_nil in K1. rewrite Hq. apply K1. lia.
  - pose proof (copy_forward_spec n 0 1 m d s Hds) as K1. rewrite Nat.mul_0_r, Nat.add_0_l in K1.
    unfold slice at 1 in K1. rewrite take_0, splice_nil, Nat.mul_1_l in K1. rewrite Nat2Z.id. apply K1. lia.
Qed.

Lemma memmove_spec (m : list Z) (d s n : nat) :
  (d + n <= length m)%nat -> (s + n <= length m)%nat ->
  memmove m (Z.of_nat d) (Z.of_nat s) (Z.of_nat n) = Ret (splice m d (slice m s n)).
Proof.
  intros Hd Hs. unfold memmove. destruct (Z.ltb_spec (Z.of_nat d) (Z.of_nat s)).
  { apply memcpy_spec; lia. }
  destruct (word_aligned _ _ _) eqn:E.
  - apply word_aligned_len in E; [|lia]. set (q := Z.to_nat (Z.of_nat n / SIZEOF_LONG)).
    assert (Hq : n = (4 * q)%nat) by (unfold q; pose proof (Z.div_pos (Z.of_nat n) SIZEOF_LONG); unfold SIZEOF_LONG in *; lia).
    pose proof (copy_backward_spec q 0 4 m d s) as K1. rewrite Nat.mul_0_r, Nat.add_0_r in K1.
    unfold slice at 1 in K1. rewrite take_0, splice_nil in K1. rewrite Hq. apply K1; lia.
  - pose proof (copy_backward_spec n 0 1 m d s) as K1. rewrite Nat.mul_0_r, Nat.add_0_r in K1.
    unfold slice at 1 in K1. rewrite take_0, splice_nil, !Nat.mul_1_l in K1. rewrite Nat2Z.id. apply K1; lia.
Qed.

Lemma zero_forward_spec (n i w : nat) (m : list Z) (b : nat) :
  (b + w * (i + n) <= length m)%nat ->
  zero_forward n (Z.of_nat w) (splice m b (replicate (w * i) 0)) (Z.of_nat b) (Z.of_nat i) =
    Ret (splice m b (replicate (w * (i + n)) 0)).
Proof.
  revert i. induction n as [|n IH]; intros i Hl; cbn [zero_forward].
  - by rewrite Nat.add_0_r.
  - assert (L : length (splice m b (replicate (w * i) 0)) = length m)
      by (apply length_splice; rewrite length_replicate; nia).
    rewrite Nat2Z.id, wrn_in; [|nia | rewrite length_replicate; nia]. cbn [rbind].
    replace (Z.to_nat (Z.of_nat b + Z.of_nat w * Z.of_nat i)) with (b + length (replicate (w * i) 0%Z))%nat
      by (rewrite length_replicate; nia).
    rewrite splice_app by (rewrite !length_replicate; nia). rewrite <- replicate_add.
    replace (w * i + w)%nat with (w * S i)%nat by nia.
    replace (Z.of_nat i + 1) with (Z.of_nat (S i)) by lia. rewrite IH by nia.
    by rewrite <- Nat.add_succ_comm.
Qed.

Lemma bzero_spec (m : list Z) (b n : nat) :
  (b + n <= length m)%nat ->
  bzero m (Z.of_nat b) (Z.of_nat n) = Ret (splice m b (replicate n 0)).
Proof.
  intros Hl. unfold bzero. destruct (_ && _) eqn:E.
  - apply andb_true_iff in E as [_ E]. apply Z.eqb_eq in E. unfold SIZEOF_LONG in *.
    set (q := Z.to_nat (Z.of_nat n / 4)).
    assert (Hq : n = (4 * q)%nat) by (unfold q; Z.to_euclidean_division_equations; lia).
    pose proof (zero_forward_spec q 0 4 m b) as K1. rewrite Nat.mul_0_r, Nat.add_0_l in K1.
    cbn [replicate] in K1. rewrite splice_nil in K1. rewrite Hq. apply K1. lia.
  - pose proof (zero_forward_spec n 0 1 m b) as K1. rewrite Nat.mul_0_r, Nat.add_0_l in K1.
    cbn [replicate] in K1. rewrite splice_nil, Nat.mul_1_l in K1. rewrite Nat2Z.id. apply K1. lia.
Qed.

(** C35: [memmove] is the copy through a temporary: wherever the two ranges lie
    in memory, overlapping or not, aligned (and copied by words) or not, the
    destination ends with the bytes the source had at the call and no other
    byte changes; [memcpy] does the same when the destination does not lie
    above the source. *)
Theorem memmove_copies (m : list Z) (d s n : nat) :
  (d + n <= length m)%nat -> (s + n <= length m)%nat ->
  exists m', memmove m (Z.of_nat d) (Z.of_nat s) (Z.of_nat n) = Ret m' /\
    ((d <= s)%nat -> memcpy m (Z.of_nat d) (Z.of_nat s) (Z.of_nat n) = Ret m') /\
    length m' = length m /\
    forall k, m' !! k = if decide (d <= k < d + n)%nat then m !! (s + (k - d))%nat else m !! k.
Proof.
  intros Hd Hs. exists (splice m d (slice m s n)).
  assert (L : length (slice m s n) = n) by (by apply length_slice).
  split_and!.
  - by apply memmove_spec.
  - intros ?. by apply memcpy_spec.
  - apply length_splice. lia.
  - intros k. rewrite lookup_splice by lia. rewrite L.
    destruct (decide _); [|done]. apply lookup_slice. lia.
Qed.

Lemma memmove_copies_witness :
  memmove [1; 2; 3; 4; 5; 6; 7; 8; 9; 10; 11; 12; 13] 4 0 8
    = Ret [1; 2; 3; 4; 1; 2; 3; 4; 5; 6; 7; 8; 13] /\
  memmove [1; 2; 3; 4; 5] 1 2 3 = Ret [1; 3; 4; 5; 5].
Proof.
  destruct (memmove_copies [1; 2; 3; 4; 5; 6; 7; 8; 9; 10; 11; 12; 13] 4 0 8) as (m' & E & _);
    [simpl; lia..|].
  split; [|reflexivity]. transitivity (Ret m'); [exact E|]. rewrite <- E. reflexivity.
Defined.

(** ** Strings *)

(** [s] points to the string [str]: its characters and a null byte. *)
Definition is_cstr (s str : list Z) : Prop :=
  exists rest, s = str ++ 0 :: rest /\ Forall (fun c => c <> 0) str.

Lemma is_cstr_char s str (i : nat) :
  is_cstr s str -> (i < length str)%nat ->
  exists c, str !! i = Some c /\ rd s (Z.of_nat i) = Ret c /\ c <> 0.
Proof.
  intros (rest & -> & Hz) Hi. destruct (lookup_lt_is_Some_2 str i Hi) as [c Hc].
  exists c. split_and!; [done| |by eapply (Forall_lookup_1 (fun c => c <> 0))].
  apply rd_nat. by rewrite lookup_app_l.
Qed.

Lemma is_cstr_end s str : is_cstr s str -> rd s (Z.of_nat (length str)) = Ret 0.
Proof. intros (rest & -> & _). apply rd_nat. by apply list_lookup_middle. Qed.

Lemma is_cstr_length s str : is_cstr s str -> (length str < length s)%nat.
Proof. intros (rest & -> & _). rewrite length_app. simpl. lia. Qed.

Lemma strlen_spec s str : is_cstr s str -> strlen s = Ret (Z.of_nat (length str)).
Proof.
  intros Hs. pose proof (is_cstr_length _ _ Hs) as Hl. unfold strlen.
  enough (G : forall fuel i, (i <= length str)%nat -> (length str - i < fuel)%nat ->
            strlen_loop fuel s (Z.of_nat i) = Ret (Z.of_nat (length str))) by (apply (G _ 0%nat); lia).
  induction fuel as [|f IH]; intros i Hi Hf; [lia|]. cbn [strlen_loop].
  destruct (decide (i = length str)) as [->|].
  - by rewrite (is_cstr_end _ _ Hs).
  - destruct (is_cstr_char s str i Hs) as (c & _ & -> & Hc); [lia|]. cbn [rbind].
    destruct (Z.eqb_spec c 0); [done|]. replace (Z.of_nat i + 1) with (Z.of_nat (S i)) by lia.
    apply IH; lia.
Qed.

Lemma strcpy_spec dest s str :
  is_cstr s str -> (length str < length dest)%nat ->
  strcpy dest s = Ret (splice dest 0 (str ++ [0])).
Proof.
  intros Hs Hd. pose proof (is_cstr_length _ _ Hs) as Hl. unfold strcpy.
  enough (G : forall fuel i, (i <= length str)%nat -> (length str - i < fuel)%nat ->
            strcpy_loop fuel (splice dest 0 (take i str)) s (Z.of_nat i) = Ret (splice dest 0 (str ++ [0]))).
  { rewrite <- (G (S (length s)) 0%nat) by lia. by rewrite take_0, splice_nil. }
  induction fuel as [|f IH]; intros i Hi Hf; [lia|]. cbn [strcpy_loop].
  assert (L : length (take i str) = i) by (rewrite length_take; lia).
  assert (Ld : length (splice dest 0 (take i str)) = length dest) by (apply length_splice; lia).
  assert (W : forall c, <[i := c]> (splice dest 0 (take i str)) = splice dest 0 (take i str ++ [c])).
  { intros c. rewrite <- splice_app, L by (simpl; lia). apply insert_splice. lia. }
  destruct (decide (i = length str)) as [->|].
  - rewrite (is_cstr_end _ _ Hs). simpl. rewrite wr_nat by lia. by rewrite W, firstn_all.
  - destruct (is_cstr_char s str i Hs) as (c & Hc & -> & Hz); [lia|]. cbn [rbind].
    destruct (Z.eqb_spec c 0); [done|]. simpl negb. cbv iota. rewrite wr_nat by lia. cbn [rbind].
    rewrite W, <- take_S_r by done. replace (Z.of_nat i + 1) with (Z.of_nat (S i)) by lia.
    apply IH; lia.
Qed.

(** The order of strings: that of the first pair of characters that differ,
    the end of a string being the character 0. *)
Fixpoint lex (x y : list Z) : Z :=
  match x, y with
  | [], [] => 0
  | [], d :: _ => if 0 >? schar d then 1 else -1
  | c :: _, [] => if schar c >? 0 then 1 else -1
  | c :: x', d :: y' => if c =? d then lex x' y' else if schar c >? schar d then 1 else -1
  end.

Lemma lex_eq x y : lex x y = 0 <-> x = y.
Proof.
  revert y. induction x as [|c x IH]; intros [|d y]; simpl; try done.
  - by destruct (0 >? schar d).
  - by destruct (schar c >? 0).
  - destruct (Z.eqb_spec c d) as [->|].
    + rewrite IH. naive_solver.
    + destruct (schar c >? schar d); naive_solver.
Qed.

Lemma strcmp_spec a b x y : is_cstr a x -> is_cstr b y -> strcmp a b = Ret (lex x y).
Proof.
  intros (ra & -> & Hx) (rb & -> & Hy). unfold strcmp.
  enough (G : forall fuel pa pb, length pa = length pb -> (length x < fuel)%nat ->
            strcmp_loop fuel (pa ++ x ++ 0 :: ra) (pb ++ y ++ 0 :: rb) (Z.of_nat (length pa)) = Ret (lex x y)).
  { apply (G _ [] []); [done|]. rewrite length_app. simpl. lia. }
  revert y Hy. induction Hx as [|c x Hc Hx IH]; intros y Hy fuel pa pb Hp Hf;
    (destruct fuel as [|f]; [simpl in Hf; lia|]); cbn [strcmp_loop].
  - rewrite (rd_nat _ (length pa) 0) by (by apply list_lookup_middle).
    rewrite Hp. destruct Hy as [|d y Hd Hy]; cbn [rbind].
    + by rewrite (rd_nat _ (length pb) 0) by (by apply list_lookup_middle).
    + rewrite (rd_nat _ (length pb) d) by (by apply list_lookup_middle). cbn [rbind].
      simpl. change (schar 0) with 0. destruct (0 >? schar d); [done|].
      destruct d; done.
  - rewrite (rd_nat _ (length pa) c) by (by apply list_lookup_middle).
    rewrite Hp. destruct Hy as [|d y Hd Hy]; cbn [rbind].
    + rewrite (rd_nat _ (length pb) 0) by (by apply list_lookup_middle). cbn [rbind].
      replace (negb (c =? 0) && (c =? 0)) with false by (by destruct (c =? 0)). simpl.
      change (schar 0) with 0. destruct (schar c >? 0); [done|]. by destruct (Z.eqb_spec c 0).
    + rewrite (rd_nat _ (length pb) d) by (by apply list_lookup_middle). cbn [rbind lex].
      destruct (Z.eqb_spec c 0) as [|_]; [done|]. simpl. destruct (Z.eqb_spec c d) as [->|].
      * specialize (IH y Hy f (pa ++ [d]) (pb ++ [d])). rewrite !length_app, <- !app_assoc in IH.
        simpl in IH. replace (Z.of_nat (length pb) + 1) with (Z.of_nat (length pa + 1)) by lia.
        apply IH; simpl in Hf; lia.
      * by destruct (schar c >? schar d).
Qed.

Lemma strchr_spec s str ch :
  is_cstr s str ->
  strchr s ch = Ret ((fun p => Z.of_nat p.1) <$> list_find (fun c => schar c = ch) (str ++ [0])).
Proof.
  intros (rest & -> & Hz). unfold strchr.
  enough (G : forall fuel pre, (length str < fuel)%nat ->
            strchr_loop fuel (pre ++ str ++ 0 :: rest) ch (Z.of_nat (length pre)) =
            Ret ((fun p => Z.of_nat (length pre + p.1)) <$> list_find (fun c => schar c = ch) (str ++ [0]))).
  { apply (G _ []). rewrite length_app. simpl. lia. }
  induction Hz as [|c str Hc _ IH]; intros fuel pre Hf;
    (destruct fuel as [|f]; [simpl in Hf; lia|]); cbn [strchr_loop].
  - rewrite (rd_nat _ (length pre) 0) by (by apply list_lookup_middle). cbn [rbind list_find app].
    simpl negb. cbv iota. destruct (Z.eqb_spec (schar 0) ch), (decide (schar 0 = ch)); try done.
    csimpl. by rewrite Nat.add_0_r.
  - rewrite (rd_nat _ (length pre) c) by (by apply list_lookup_middle). cbn [rbind].
    destruct (Z.eqb_spec c 0); [done|]. cbn [negb list_find app].
    destruct (Z.eqb_spec (schar c) ch), (decide (schar c = ch)); try done.
    + csimpl. by rewrite Nat.add_0_r.
    + specialize (IH f (pre ++ [c])). rewrite length_app, <- app_assoc in IH. simpl in IH.
      replace (Z.of_nat (length pre) + 1) with (Z.of_nat (length pre + 1)) by lia.
      rewrite IH by (simpl in Hf; lia). f_equal.
      destruct (list_find _ (str ++ [0])) as [[k z]|]; [|done]. csimpl. do 2 f_equal. lia.
Qed.

(** The last place where a character occurs. *)
Fixpoint find_last (l : list Z) (ch : Z) : option nat :=
  match l with
  | [] => None
  | c :: l' =>
      match find_last l' ch with
      | Some i => Some (S i)
      | None => if schar c =? ch then Some 0%nat else None
      end
  end.

Lemma find_last_snoc l c ch :
  find_last (l ++ [c]) ch = if schar c =? ch then Some (length l) else find_last l ch.
Proof.
  induction l as [|d l IH]; simpl; [done|]. rewrite IH. by destruct (schar c =? ch).
Qed.

Lemma strrchr_spec s str ch :
  is_cstr s str -> strrchr s ch = Ret (Z.of_nat <$> find_last (str ++ [0]) ch).
Proof.
  intros Hs. unfold strrchr. rewrite (strlen_spec _ _ Hs). cbn [rbind].
  destruct Hs as (rest & -> & _).
  replace (Z.to_nat _) with (length (str ++ [0])) by (rewrite length_app; simpl; lia).
  replace (str ++ 0 :: rest) with ((str ++ [0]) ++ rest) by (by rewrite <- app_assoc).
  generalize (str ++ [0]) as l. intros l. revert rest.
  induction l as [|c l IH] using rev_ind; intros rest; [done|].
  rewrite length_app, Nat.add_1_r, find_last_snoc. cbn [strrchr_loop].
  rewrite (rd_nat _ (length l) c) by (rewrite <- app_assoc; by apply list_lookup_middle).
  cbn [rbind]. destruct (schar c =? ch); [done|]. rewrite <- app_assoc. apply IH.
Qed.
