(* ===== verification/Copyinout.v ===== *)
(** * Copies between user and kernel memory ([kern/lib/copyinout.c])

    The user side of a copy is a [region]: the bytes the process sees from the
    address it passed on, and how many of them it can really access before the
    first address at which the VM system finds no page (or no permission).
    An access past that point is the fatal fault that [pcb_badfaultfunc] turns
    into a jump to [copyfail], so that the call answers [EFAULT] with what was
    copied until then in place.  The field itself is set before the copy and
    cleared on every way out. *)

From S2P Require Import Prelude.
From S2P Require Import Bytes.

Definition USERTOP : Z := 0x80000000.

Record region := mkRegion {
  rg_addr : Z;                  (* address of the first byte *)
  rg_bytes : list Z;
  rg_ok : Z;                    (* bytes accessible before the first bad page *)
}.

Definition set_region (r : region) (bs : list Z) : region := mkRegion (rg_addr r) bs (rg_ok r).

(** The error code and [*stoplen]. *)
Definition copycheck (userptr len : Z) : Z * Z :=
  let bot := userptr in
  let top := u32 (u32 (bot + len) - 1) in
  if top <? bot then (EFAULT, len)
  else if bot >=? USERTOP then (EFAULT, len)
  else if top >=? USERTOP then (0, u32 (USERTOP - bot))
  else (0, len).

(** [copyin(r + off, dest + doff, len)]. *)
Definition copyin (r : region) (off : Z) (dest : list Z) (doff len : Z) : res (Z * list Z) :=
  let '(result, stoplen) := copycheck (u32 (rg_addr r + off)) len in
  if negb (result =? 0) then Ret (result, dest)
  else if negb (stoplen =? len) then Ret (EFAULT, dest)
  else
    let n := Z.max 0 (Z.min len (rg_ok r - off)) in
    let? bs := rdn (rg_bytes r) off n in
    let? dest' := wrn dest doff bs in
    if n <? len then Ret (EFAULT, dest') else Ret (0, dest').

(** [copyout(src + soff, r + off, len)]. *)
Definition copyout (src : list Z) (soff : Z) (r : region) (off len : Z) : res (Z * region) :=
  let '(result, stoplen) := copycheck (u32 (rg_addr r + off)) len in
  if negb (result =? 0) then Ret (result, r)
  else if negb (stoplen =? len) then Ret (EFAULT, r)
  else
    let n := Z.max 0 (Z.min len (rg_ok r - off)) in
    let? bs := rdn src soff n in
    let? mem := wrn (rg_bytes r) off bs in
    if n <? len then Ret (EFAULT, set_region r mem) else Ret (0, set_region r mem).

(** The loop of [copystr]; [limit] is the number of bytes of the user side
    that can be accessed.  The answer is the error code, the destination and
    [*gotlen], which is only set on success. *)
Fixpoint copystr_loop (fuel : nat) (dest src : list Z) (maxlen stoplen limit i : Z) :
    res (Z * list Z * option Z) :=
  match fuel with
  | O => Stop OutOfFuel
  | S f =>
      if (i <? maxlen) && (i <? stoplen) then
        if limit <=? i then Ret (EFAULT, dest, None)        (* copyfail *)
        else
          let? c := rd src i in
          let? dest' := wr dest i c in
          if c =? 0 then Ret (0, dest', Some (i + 1))
          else copystr_loop f dest' src maxlen stoplen limit (i + 1)
      else if stoplen <? maxlen then Ret (EFAULT, dest, None)
      else Ret (ENAMETOOLONG, dest, None)
  end.

Definition copystr (dest src : list Z) (maxlen stoplen limit : Z) : res (Z * list Z * option Z) :=
  copystr_loop (S (Z.to_nat maxlen)) dest src maxlen stoplen limit 0.

Definition copyinstr (r : region) (dest : list Z) (len : Z) : res (Z * list Z * option Z) :=
  let '(result, stoplen) := copycheck (rg_addr r) len in
  if negb (result =? 0) then Ret (result, dest, None)
  else copystr dest (rg_bytes r) len stoplen (rg_ok r).

Definition copyoutstr (src : list Z) (r : region) (len : Z) : res (Z * region * option Z) :=
  let '(result, stoplen) := copycheck (rg_addr r) len in
  if negb (result =? 0) then Ret (result, r, None)
  else
    let? (result, mem, got) := copystr (rg_bytes r) src len stoplen (rg_ok r) in
    Ret (result, set_region r mem, got).

(** ** What they guarantee *)

(** The bytes [off .. off+len) of the region lie in user space and can be
    accessed. *)
Definition user_ok (r : region) (off len : Z) : Prop :=
  rg_addr r + off + len <= USERTOP /\ off + len <= rg_ok r.

(** A region is a window of the 32-bit address space; the bytes that can be
    accessed are bytes of it. *)
Definition region_wf (r : region) : Prop :=
  0 <= rg_addr r /\ rg_addr r + Z.of_nat (length (rg_bytes r)) < 2 ^ 32 /\
  0 <= rg_ok r <= Z.of_nat (length (rg_bytes r)) /\ Forall byte_ok (rg_bytes r).

(** [copycheck] accepts a block exactly when it is not empty and lies in user
    space; a block of no bytes is refused, because the address of its last byte
    comes before that of its first or, at address 0, wraps around. *)
Lemma copycheck_spec a len :
  0 <= a < 2 ^ 32 -> 0 <= len < 2 ^ 32 ->
  if bool_decide (0 < len /\ a + len <= USERTOP) then copycheck a len = (0, len)
  else (copycheck a len).1 = EFAULT \/ ((copycheck a len).1 = 0 /\ (copycheck a len).2 <> len).
Proof.
  unfold USERTOP, copycheck. intros Ha Hl. rewrite !Z.geb_leb. unfold u32, USERTOP.
  case_bool_decide as Hc.
  - rewrite (Z.mod_small (a + len)), Z.mod_small by lia.
    destruct (Z.ltb_spec (a + len - 1) a); [lia|].
    destruct (Z.leb_spec 0x80000000 a); [lia|]. destruct (Z.leb_spec 0x80000000 (a + len - 1)); [lia|].
    done.
  - set (t := ((a + len) mod 2 ^ 32 - 1) mod 2 ^ 32).
    assert (Ht : (a + len = 0 /\ t = 2 ^ 32 - 1) \/ (a + len = 2 ^ 32 /\ t = 2 ^ 32 - 1) \/
                 (0 < a + len < 2 ^ 32 /\ t = a + len - 1) \/ (2 ^ 32 < a + len /\ t < a)).
    { unfold t. Z.to_euclidean_division_equations. lia. }
    destruct (Z.ltb_spec t a); [by left|]. destruct (Z.leb_spec 0x80000000 a); [by left|].
    destruct (Z.leb_spec 0x80000000 t); simpl; right; [|lia].
    rewrite Z.mod_small by lia. lia.
Qed.

(** How much of a block is copied, and what the copy answers. *)
Definition copied (r : region) (off len : Z) : nat :=
  if bool_decide (0 < len /\ rg_addr r + off + len <= USERTOP)
  then Z.to_nat (Z.min len (rg_ok r - off)) else 0.

Definition copy_errno (r : region) (off len : Z) : Z :=
  if bool_decide (0 < len /\ user_ok r off len) then 0 else EFAULT.

Lemma copied_bound r off len :
  region_wf r -> 0 <= off <= Z.of_nat (length (rg_bytes r)) -> 0 <= len ->
  (copied r off len <= Z.to_nat len)%nat /\ (Z.to_nat off + copied r off len <= length (rg_bytes r))%nat.
Proof. intros (_ & _ & Hk & _) Ho Hl. unfold copied. case_bool_decide; lia. Qed.

Lemma copied_all r off len :
  0 <= len -> 0 < len /\ user_ok r off len -> copied r off len = Z.to_nat len.
Proof. unfold user_ok, copied. intros. rewrite bool_decide_true by lia. lia. Qed.

(** The two copies differ only in the direction of the transfer [k]. *)
Lemma copy_spec {A} r off len (k : Z -> res A) (x : A) :
  region_wf r -> 0 <= off <= Z.of_nat (length (rg_bytes r)) -> 0 <= len < 2 ^ 32 ->
  k 0 = Ret x ->
  (let '(result, stoplen) := copycheck (u32 (rg_addr r + off)) len in
   if negb (result =? 0) then Ret (result, x)
   else if negb (stoplen =? len) then Ret (EFAULT, x)
   else
     let n := Z.max 0 (Z.min len (rg_ok r - off)) in
     let? y := k n in
     if n <? len then Ret (EFAULT, y) else Ret (0, y)) =
  let? y := k (Z.of_nat (copied r off len)) in Ret (copy_errno r off len, y).
Proof.
  intros (Ha & Hw & Hk & _) Hoff Hl Hx. rewrite (u32_small (rg_addr r + off)) by lia.
  pose proof (copycheck_spec (rg_addr r + off) len ltac:(lia) Hl) as C.
  destruct (copycheck (rg_addr r + off) len) as [e stop]. simpl in C.
  unfold copied, copy_errno, user_ok. case_bool_decide as Hc.
  - injection C as -> ->. rewrite !Z.eqb_refl. cbn [negb].
    replace (Z.of_nat (Z.to_nat (Z.min len (rg_ok r - off)))) with (Z.max 0 (Z.min len (rg_ok r - off))) by lia.
    destruct (k _); [|done]. cbn [rbind]. case_bool_decide; case_match; try done; lia.
  - rewrite bool_decide_false by (intros ?; apply Hc; lia). change (Z.of_nat 0) with 0. rewrite Hx. cbn [rbind].
    destruct C as [-> | [-> C]]; [done|]. cbn [negb Z.eqb]. by destruct (Z.eqb_spec stop len).
Qed.

Lemma copyin_spec r off dest doff len :
  region_wf r -> 0 <= off <= Z.of_nat (length (rg_bytes r)) -> 0 <= len < 2 ^ 32 ->
  0 <= doff -> doff + len <= Z.of_nat (length dest) ->
  copyin r off dest doff len =
    Ret (copy_errno r off len,
         splice dest (Z.to_nat doff) (slice (rg_bytes r) (Z.to_nat off) (copied r off len))).
Proof.
  intros Hr Ho Hl Hd Hdl. pose proof (copied_bound r off len Hr Ho ltac:(lia)).
  assert (K : forall n : nat, (n <= Z.to_nat len)%nat -> (Z.to_nat off + n <= length (rg_bytes r))%nat ->
            (let? bs := rdn (rg_bytes r) off (Z.of_nat n) in wrn dest doff bs) =
            Ret (splice dest (Z.to_nat doff) (slice (rg_bytes r) (Z.to_nat off) n))).
  { intros n ? ?. rewrite rdn_in by lia. cbn [rbind]. rewrite Nat2Z.id, wrn_in; [done | lia|].
    rewrite length_slice; lia. }
  pose proof (copy_spec r off len (fun n => let? bs := rdn (rg_bytes r) off n in wrn dest doff bs)
    dest Hr Ho Hl) as C. cbv beta in C. rewrite (K (copied r off len)) in C by lia.
  cbn [rbind] in C. rewrite <- C.
  - unfold copyin. destruct (copycheck _ _) as [e st]. destruct (negb (e =? 0)), (negb (st =? len)); try done.
    cbv zeta. clear. by destruct (rdn _ _ _).
  - etransitivity; [apply (K 0%nat); lia|]. unfold slice. by rewrite take_0, splice_nil.
Qed.

Lemma copyout_spec src soff r off len :
  region_wf r -> 0 <= off <= Z.of_nat (length (rg_bytes r)) -> 0 <= len < 2 ^ 32 ->
  0 <= soff -> soff + len <= Z.of_nat (length src) ->
  copyout src soff r off len =
    Ret (copy_errno r off len,
         set_region r (splice (rg_bytes r) (Z.to_nat off) (slice src (Z.to_nat soff) (copied r off len)))).
Proof.
  intros Hr Ho Hl Hd Hdl. pose proof (copied_bound r off len Hr Ho ltac:(lia)).
  assert (K : forall n : nat, (n <= Z.to_nat len)%nat -> (Z.to_nat off + n <= length (rg_bytes r))%nat ->
            (let? bs := rdn src soff (Z.of_nat n) in
             let? mem := wrn (rg_bytes r) off bs in Ret (set_region r mem)) =
            Ret (set_region r (splice (rg_bytes r) (Z.to_nat off) (slice src (Z.to_nat soff) n)))).
  { intros n ? ?. rewrite rdn_in by lia. cbn [rbind]. rewrite Nat2Z.id, wrn_in; [done | lia|].
    rewrite length_slice; lia. }
  pose proof (copy_spec r off len (fun n => let? bs := rdn src soff n in
             let? mem := wrn (rg_bytes r) off bs in Ret (set_region r mem))
    r Hr Ho Hl) as C. cbv beta in C. rewrite (K (copied r off len)) in C by lia.
  cbn [rbind] in C. rewrite <- C.
  - unfold copyout. destruct (copycheck _ _) as [e st]. destruct (negb (e =? 0)), (negb (st =? len)); try done.
    cbv zeta. clear. destruct (rdn _ _ _); [|done]. cbn [rbind]. by destruct (wrn _ _ _).
  - etransitivity; [apply (K 0%nat); lia|]. unfold slice. rewrite take_0, splice_nil. by destruct r.
Qed.

Lemma copycheck_user a len :
  0 <= a < USERTOP -> 0 < len <= 2 ^ 31 ->
  copycheck a len = (0, Z.min len (USERTOP - a)).
Proof.
  unfold USERTOP. intros Ha Hl. unfold copycheck, USERTOP.
  rewrite (u32_small (a + len)), (u32_small (a + len - 1)) by lia. rewrite !Z.geb_leb.
  destruct (Z.ltb_spec (a + len - 1) a); [lia|]. destruct (Z.leb_spec 0x80000000 a); [lia|].
  destruct (Z.leb_spec 0x80000000 (a + len - 1)).
  - rewrite u32_small by lia. f_equal. lia.
  - f_equal. lia.
Qed.

Lemma copystr_loop_spec (fuel i : nat) dest src maxlen stoplen limit :
  let n := Z.to_nat (Z.min maxlen (Z.min stoplen limit)) in
  (n <= length src)%nat -> (n <= length dest)%nat -> (i <= n)%nat ->
  (Z.to_nat maxlen - i < fuel)%nat -> 0 <= limit ->
  (forall j, (j < i)%nat -> src !! j <> Some 0) ->
  match list_find (fun c => c = 0) (take n src) with
  | Some (k, _) =>
      copystr_loop fuel (splice dest 0 (take i src)) src maxlen stoplen limit (Z.of_nat i) =
        Ret (0, splice dest 0 (take (S k) src), Some (Z.of_nat k + 1))
  | None =>
      copystr_loop fuel (splice dest 0 (take i src)) src maxlen stoplen limit (Z.of_nat i) =
        Ret (if (limit <? Z.min maxlen stoplen) || (stoplen <? maxlen) then EFAULT else ENAMETOOLONG,
             splice dest 0 (take n src), None)
  end.
Proof.
  intros n Hs Hd. revert i. induction fuel as [|f IH]; intros i Hi Hf Hlim Hz; [lia|].
  assert (L : length (splice dest 0 (take i src)) = length dest)
    by (apply length_splice; rewrite length_take; lia).
  destruct (decide (i = n)) as [->|Hin].
  - assert (list_find (fun c => c = 0) (take n src) = None) as ->.
    { apply list_find_None, Forall_forall. intros c [j Hj]%list_elem_of_lookup Hc. subst c.
      pose proof (lookup_lt_Some _ _ _ Hj) as Hlt. rewrite length_take in Hlt.
      rewrite lookup_take_lt in Hj by lia. apply (Hz j); [lia | done]. }
    cbn [copystr_loop].
    destruct (Z.ltb_spec (Z.of_nat n) maxlen), (Z.ltb_spec (Z.of_nat n) stoplen),
      (Z.leb_spec limit (Z.of_nat n)), (Z.ltb_spec limit (Z.min maxlen stoplen)),
      (Z.ltb_spec stoplen maxlen); simpl; try done; lia.
  - destruct (lookup_lt_is_Some_2 src i) as [c Hc]; [lia|].
    assert (W : <[i := c]> (splice dest 0 (take i src)) = splice dest 0 (take (S i) src)).
    { rewrite insert_splice by lia. rewrite (take_S_r _ _ c) by done. rewrite <- splice_app.
      - f_equal. rewrite length_take. lia.
      - rewrite length_take. simpl. lia. }
    cbn [copystr_loop]. replace ((Z.of_nat i <? maxlen) && (Z.of_nat i <? stoplen)) with true by lia.
    replace (limit <=? Z.of_nat i) with false by lia.
    rewrite (rd_nat _ _ c Hc). cbn [rbind]. rewrite wr_nat by lia. cbn [rbind]. rewrite W.
    destruct (Z.eqb_spec c 0) as [->|Hnz].
    + assert (list_find (fun c => c = 0) (take n src) = Some (i, 0)) as ->; [|done].
      apply list_find_Some. split_and!; [rewrite lookup_take_lt by lia; done | done |].
      intros j y Hy ? ->. rewrite lookup_take_lt in Hy by lia. by apply (Hz j).
    + replace (Z.of_nat i + 1) with (Z.of_nat (S i)) by lia. apply IH; [lia..|].
      intros j Hj. destruct (decide (j = i)) as [->|]; [congruence | apply Hz; lia].
Qed.

(** What is copied lies in user space. *)
Lemma copied_user r off len : copied r off len = 0%nat \/ rg_addr r + off + Z.of_nat (copied r off len) <= USERTOP.
Proof. unfold copied. case_bool_decide; lia. Qed.

(** C36: [copyin] and [copyout] never take the kernel down, whatever address and
    length the process passes: they answer 0, and move exactly the block asked
    for, when it is not empty, lies in user space and can be accessed, and
    otherwise [EFAULT], having written nothing but a prefix of it.  On every
    way out they keep away from the kernel's addresses: [copyout] changes no
    byte at or above [USERTOP], and what [copyin] answers and copies does not
    depend on the bytes there. *)
Theorem user_copies_safe r off len dest doff :
  region_wf r -> 0 <= off <= Z.of_nat (length (rg_bytes r)) -> 0 <= len < 2 ^ 32 ->
  0 <= doff -> doff + len <= Z.of_nat (length dest) ->
  exists (n : nat) e dest' mem',
    copyin r off dest doff len = Ret (e, dest') /\
    copyout dest doff r off len = Ret (e, set_region r mem') /\
    dest' = splice dest (Z.to_nat doff) (slice (rg_bytes r) (Z.to_nat off) n) /\
    mem' = splice (rg_bytes r) (Z.to_nat off) (slice dest (Z.to_nat doff) n) /\
    ((e = 0 /\ 0 < len /\ user_ok r off len /\ Z.of_nat n = len) \/
     (e = EFAULT /\ ~ (0 < len /\ user_ok r off len) /\ Z.of_nat n <= len)) /\
    (forall j : nat, USERTOP <= rg_addr r + Z.of_nat j -> mem' !! j = rg_bytes r !! j) /\
    (forall bs, length bs = length (rg_bytes r) -> Forall byte_ok bs ->
       (forall j : nat, rg_addr r + Z.of_nat j < USERTOP -> bs !! j = rg_bytes r !! j) ->
       copyin (set_region r bs) off dest doff len = Ret (e, dest')).
Proof.
  intros Hr Ho Hl Hd Hdl. exists (copied r off len), (copy_errno r off len). do 2 eexists.
  pose proof (copied_bound r off len Hr Ho ltac:(lia)). pose proof (copied_user r off len) as Hu.
  split_and!; [by apply copyin_spec | by apply copyout_spec | done | done | | |].
  - unfold copy_errno. case_bool_decide as Hc.
    + left. split_and!; try apply Hc; [done|]. rewrite copied_all by (done || lia). lia.
    + right. split_and!; [done | done | lia].
  - intros j Hj. rewrite lookup_splice by (rewrite length_slice; lia). rewrite length_slice by lia.
    by rewrite decide_False by lia.
  - intros bs Hbl Hbb Hbs. rewrite copyin_spec.
    + do 3 f_equal. change (copied (set_region r bs) off len) with (copied r off len).
      apply slice_ext; simpl; [done|]. intros j Hj. apply Hbs. lia.
    + destruct Hr as (? & ? & ? & _). unfold region_wf. simpl. by rewrite Hbl.
    + simpl. by rewrite Hbl.
    + done.
    + done.
    + done.
Qed.

Definition sample_region : region := mkRegion 0x7ffffffc [1; 2; 3; 4; 5; 6] 5.

Lemma user_copies_safe_witness :
  copyin sample_region 1 [0; 0; 0; 0] 1 3 = Ret (0, [0; 2; 3; 4]) /\
  copyin (mkRegion 0x7ffffffc [1; 2; 3; 4; 9; 9] 5) 1 [0; 0; 0; 0] 1 3 = Ret (0, [0; 2; 3; 4]) /\
  copyin sample_region 3 [0; 0; 0; 0] 0 2 = Ret (EFAULT, [0; 0; 0; 0]).
Proof.
  destruct (user_copies_safe sample_region 1 3 [0; 0; 0; 0] 1) as (n & e & d & m & I & _ & _ & _ & _ & _ & K).
  - split_and!; simpl; [lia..|]. repeat constructor; lia.
  - simpl. lia.
  - lia.
  - lia.
  - simpl. lia.
  - assert (E : Ret (e, d) = Ret (0, [0; 2; 3; 4])) by (rewrite <- I; reflexivity).
    rewrite <- E. split; [exact I|]. split; [|reflexivity].
    apply (K [1; 2; 3; 4; 9; 9]); [reflexivity | repeat constructor; lia |].
    intros j. change (rg_addr sample_region) with 0x7ffffffc. unfold USERTOP. intros Hj.
    do 4 (destruct j as [|j]; [reflexivity|]). lia.
Defined.

(** [copyinstr] answers the string of the process, and its length with the
    terminator, when the terminator comes within the first [len] bytes, within
    user space and before the first bad page; otherwise it answers [EFAULT] if
    it was stopped by the end of user space or by a bad page and
    [ENAMETOOLONG] if only by [len].  It always returns. *)
Theorem copyinstr_correct r dest len :
  region_wf r -> 0 < len <= 2 ^ 31 -> len <= Z.of_nat (length dest) ->
  let n := Z.to_nat (Z.min len (Z.min (USERTOP - rg_addr r) (rg_ok r))) in
  copyinstr r dest len =
    match list_find (fun c => c = 0) (take n (rg_bytes r)) with
    | Some (k, _) => Ret (0, splice dest 0 (take (S k) (rg_bytes r)), Some (Z.of_nat k + 1))
    | None => Ret (if bool_decide (Z.of_nat n < len) then EFAULT else ENAMETOOLONG,
                   splice dest 0 (take n (rg_bytes r)), None)
    end.
Proof.
  intros (Ha & Hw & Hk & _) Hl Hd n. unfold copyinstr.
  destruct (decide (rg_addr r < USERTOP)) as [Hu|Hu].
  - rewrite copycheck_user by lia. remember (Z.min len (USERTOP - rg_addr r)) as stop eqn:Hs.
    cbn [negb Z.eqb]. unfold copystr.
    pose proof (copystr_loop_spec (S (Z.to_nat len)) 0 dest (rg_bytes r) len stop (rg_ok r)) as C.
    cbv zeta in C. replace (Z.to_nat (Z.min len (Z.min stop (rg_ok r)))) with n in C by lia.
    rewrite take_0, splice_nil in C. specialize (C ltac:(lia) ltac:(lia) ltac:(lia) ltac:(lia) ltac:(lia) ltac:(lia)).
    destruct (list_find _ _) as [[k c]|]; change (Z.of_nat 0) with 0 in C; rewrite C; [done|]. repeat f_equal.
    destruct (Z.ltb_spec (rg_ok r) (Z.min len stop)), (Z.ltb_spec stop len); simpl; case_bool_decide; done || lia.
  - assert (n = 0)%nat as -> by lia. rewrite !take_0. cbn [list_find]. rewrite splice_nil.
    rewrite bool_decide_true by lia. unfold copycheck. rewrite Z.geb_leb.
    replace (USERTOP <=? rg_addr r) with true by lia. by destruct (_ <? _).
Qed.

Lemma copyinstr_correct_witness :
  copyinstr (mkRegion 0x1000 [104; 105; 0; 7] 4) [9; 9; 9; 9; 9] 5 = Ret (0, [104; 105; 0; 9; 9], Some 3).
Proof.
  rewrite (copyinstr_correct (mkRegion 0x1000 [104; 105; 0; 7] 4) [9; 9; 9; 9; 9] 5); [reflexivity|..].
  - split_and!; simpl; [lia..|]. repeat constructor; lia.
  - lia.
  - simpl. lia.
Defined.
