(* ===== verification/Uio.v ===== *)
(** * Data transfer descriptions ([kern/userprog/uio.c], [kern/include/uio.h])

    A [struct uio] is the record [uio]; the memory its only iovec points into is
    a [region] and the iovec's base an index into it, so that what a transfer
    stores is part of the value the call hands back.  [kbuf] arguments of the
    source are a byte array and an index. *)

From S2P Require Import Prelude.
From S2P Require Import Bytes.
From S2P Require Import Copyinout.

Inductive uio_dir := UIO_READ | UIO_WRITE.
Inductive uio_seg := UIO_USERSPACE | UIO_SYSSPACE | UIO_USERISPACE.

#[global] Instance uio_dir_eq_dec : EqDecision uio_dir.
Proof. solve_decision. Defined.
#[global] Instance uio_seg_eq_dec : EqDecision uio_seg.
Proof. solve_decision. Defined.

Record uio := mkUio {
  iov_region : region;          (* the memory of the iovec *)
  iov_base : Z;                 (* where the iovec's base is in it *)
  iov_len : Z;
  uio_offset : Z;               (* off_t, a signed 32-bit integer *)
  uio_resid : Z;                (* size_t *)
  uio_segflg : uio_seg;
  uio_rw : uio_dir;
  uio_space : Z;                (* 0 for the kernel *)
}.

Definition is_read (u : uio) : bool := bool_decide (uio_rw u = UIO_READ).
Definition is_write (u : uio) : bool := bool_decide (uio_rw u = UIO_WRITE).

Definition set_offset (z : Z) (u : uio) : uio :=
  mkUio (iov_region u) (iov_base u) (iov_len u) z (uio_resid u) (uio_segflg u) (uio_rw u) (uio_space u).
Definition set_resid (z : Z) (u : uio) : uio :=
  mkUio (iov_region u) (iov_base u) (iov_len u) (uio_offset u) z (uio_segflg u) (uio_rw u) (uio_space u).
Definition set_iov_region (r : region) (u : uio) : uio :=
  mkUio r (iov_base u) (iov_len u) (uio_offset u) (uio_resid u) (uio_segflg u) (uio_rw u) (uio_space u).

(** The updates at the end of the loop of [uiomove], with those of the base. *)
Definition advance (size : Z) (u : uio) : uio :=
  mkUio (iov_region u) (iov_base u + size) (u32 (iov_len u - size)) (s32 (uio_offset u + size))
    (u32 (uio_resid u - size)) (uio_segflg u) (uio_rw u) (uio_space u).

(** The transfer of [size] bytes between the buffer and the iovec. *)
Definition uio_copy (ptr : list Z) (pi size : Z) (u : uio) : res (Z * list Z * uio) :=
  let r := iov_region u in
  match uio_segflg u, uio_rw u with
  | UIO_SYSSPACE, UIO_READ =>
      let? bs := rdn ptr pi size in
      let? mem := wrn (rg_bytes r) (iov_base u) bs in
      Ret (0, ptr, set_iov_region (set_region r mem) u)
  | UIO_SYSSPACE, UIO_WRITE =>
      let? bs := rdn (rg_bytes r) (iov_base u) size in
      let? ptr' := wrn ptr pi bs in
      Ret (0, ptr', u)
  | _, UIO_READ =>
      let? (result, r') := copyout ptr pi r (iov_base u) size in
      Ret (result, ptr, set_iov_region r' u)
  | _, UIO_WRITE =>
      let? (result, ptr') := copyin r (iov_base u) ptr pi size in
      Ret (result, ptr', u)
  end.

Fixpoint uiomove_loop (fuel : nat) (ptr : list Z) (pi n : Z) (u : uio) : res (Z * list Z * uio) :=
  match fuel with
  | O => Stop OutOfFuel
  | S f =>
      if (n >? 0) && (uio_resid u >? 0) then
        let size := if iov_len u >? n then n else iov_len u in
        if size =? 0 then Stop Panic
        else
          let? (result, ptr', u') := uio_copy ptr pi size u in
          if negb (result =? 0) then Ret (result, ptr', u')
          else uiomove_loop f ptr' (pi + size) (n - size) (advance size u')
      else Ret (0, ptr, u)
  end.

(** One pass moves everything or empties the iovec, and then the next one
    panics: the loop ends at its third test. *)
Definition UIOMOVE_FUEL : nat := 3.

(** [uiomove(ptr + pi, n, uio)]; [cur] is [curthread->t_vmspace]. *)
Definition uiomove (cur : Z) (ptr : list Z) (pi n : Z) (u : uio) : res (Z * list Z * uio) :=
  let? _ := rassert (match uio_segflg u with
                     | UIO_SYSSPACE => uio_space u =? 0
                     | _ => uio_space u =? cur
                     end) in
  uiomove_loop UIOMOVE_FUEL ptr pi n u.

Definition uio_zeros : list Z := replicate 16 0.

Fixpoint uiomovezeros_loop (fuel : nat) (cur : Z) (n : Z) (u : uio) : res (Z * uio) :=
  match fuel with
  | O => Stop OutOfFuel
  | S f =>
      if n >? 0 then
        let amt := if 16 >? n then n else 16 in
        let? (result, _, u') := uiomove cur uio_zeros 0 amt u in
        if negb (result =? 0) then Ret (result, u')
        else uiomovezeros_loop f cur (n - amt) u'
      else Ret (0, u)
  end.

Definition uiomovezeros (cur n : Z) (u : uio) : res (Z * uio) :=
  let? _ := rassert (is_read u) in
  uiomovezeros_loop (S (Z.to_nat n)) cur n u.

Definition mk_kuio (kbuf : list Z) (len pos : Z) (rw : uio_dir) : uio :=
  mkUio (mkRegion 0 kbuf 0) 0 len pos len UIO_SYSSPACE rw 0.

(** ** The transfer *)

(** The iovec lies in its memory and holds at least [uio_resid] bytes; offsets
    stay in an [off_t]. *)
Definition uio_wf (cur : Z) (u : uio) : Prop :=
  0 <= iov_base u /\ 0 <= uio_resid u <= iov_len u /\
  iov_base u + iov_len u <= Z.of_nat (length (rg_bytes (iov_region u))) /\ iov_len u < 2 ^ 31 /\
  0 <= uio_offset u /\ uio_offset u + uio_resid u < 2 ^ 31 /\
  match uio_segflg u with
  | UIO_SYSSPACE => uio_space u = 0 /\ Forall byte_ok (rg_bytes (iov_region u))
  | _ => uio_space u = cur /\ region_wf (iov_region u)
  end.

(** The next [n] bytes of the iovec can be accessed. *)
Definition uio_access (u : uio) (n : Z) : Prop :=
  match uio_segflg u with
  | UIO_SYSSPACE => True
  | _ => 0 < n -> user_ok (iov_region u) (iov_base u) n
  end.

(** The bytes the transfer is about: the next [n] of the iovec. *)
Definition uio_data (u : uio) (n : nat) : list Z :=
  slice (rg_bytes (iov_region u)) (Z.to_nat (iov_base u)) n.

(** [u] after [bs] went to the next bytes of its memory. *)
Definition uio_fill (bs : list Z) (u : uio) : uio :=
  advance (Z.of_nat (length bs))
    (set_iov_region
       (set_region (iov_region u) (splice (rg_bytes (iov_region u)) (Z.to_nat (iov_base u)) bs)) u).

Lemma advance_small cur u n :
  uio_wf cur u -> 0 <= n <= uio_resid u ->
  advance n u = mkUio (iov_region u) (iov_base u + n) (iov_len u - n) (uio_offset u + n)
                  (uio_resid u - n) (uio_segflg u) (uio_rw u) (uio_space u).
Proof.
  intros (? & ? & ? & ? & ? & ? & _) Hn. unfold advance.
  rewrite (u32_small (iov_len u - n)), (u32_small (uio_resid u - n)), s32_small by lia. done.
Qed.

Lemma advance_0 cur u : uio_wf cur u -> advance 0 u = u.
Proof.
  intros Hw. pose proof Hw as (_ & ? & _). rewrite (advance_small cur) by (done || lia).
  rewrite !Z.sub_0_r, !Z.add_0_r. by destruct u.
Qed.

Lemma region_wf_set r bs :
  region_wf r -> length bs = length (rg_bytes r) -> Forall byte_ok bs -> region_wf (set_region r bs).
Proof. unfold region_wf. simpl. intros (? & ? & ? & ?) -> ?. done. Qed.

Lemma advance_wf cur u n : uio_wf cur u -> 0 <= n <= uio_resid u -> uio_wf cur (advance n u).
Proof.
  intros Hw Hn. rewrite (advance_small cur) by done. unfold uio_wf in *. simpl.
  destruct Hw as (? & ? & ? & ? & ? & ? & ?). split_and!; lia || done.
Qed.

Lemma uio_wf_region cur u bs :
  uio_wf cur u -> length bs = length (rg_bytes (iov_region u)) -> Forall byte_ok bs ->
  uio_wf cur (set_iov_region (set_region (iov_region u) bs) u).
Proof.
  intros (? & ? & ? & ? & ? & ? & Hs) Hl Hb. unfold uio_wf. simpl. rewrite Hl. split_and!; try done; try lia.
  destruct (uio_segflg u); destruct Hs; split; auto using region_wf_set.
Qed.

Lemma uio_bytes cur u : uio_wf cur u -> Forall byte_ok (rg_bytes (iov_region u)).
Proof.
  intros (_ & _ & _ & _ & _ & _ & Hs). destruct (uio_segflg u); destruct Hs as [_ Hs]; try done; apply Hs.
Qed.

Lemma uio_data_ok cur u n : uio_wf cur u -> Forall byte_ok (uio_data u n).
Proof. intros Hw. apply Forall_slice. by eapply uio_bytes. Qed.

Lemma length_uio_data cur u n :
  uio_wf cur u -> Z.of_nat n <= uio_resid u -> length (uio_data u n) = n.
Proof. intros (? & ? & ? & _) Hn. apply length_slice. lia. Qed.

Lemma uio_fill_wf cur u bs :
  uio_wf cur u -> Z.of_nat (length bs) <= uio_resid u -> Forall byte_ok bs -> uio_wf cur (uio_fill bs u).
Proof.
  intros Hw Hl Hb. pose proof Hw as (? & ? & ? & _). apply advance_wf; [|simpl; lia].
  apply uio_wf_region; [done | apply length_splice; lia |].
  apply Forall_splice; [by eapply uio_bytes | done].
Qed.

(** One pass of the loop. *)
Lemma uio_copy_spec cur ptr pi n u :
  uio_wf cur u -> 0 < n <= uio_resid u -> uio_access u n ->
  0 <= pi -> pi + n <= Z.of_nat (length ptr) ->
  uio_copy ptr pi n u =
    match uio_rw u with
    | UIO_READ =>
        Ret (0, ptr, set_iov_region (set_region (iov_region u)
          (splice (rg_bytes (iov_region u)) (Z.to_nat (iov_base u)) (slice ptr (Z.to_nat pi) (Z.to_nat n)))) u)
    | UIO_WRITE => Ret (0, splice ptr (Z.to_nat pi) (uio_data u (Z.to_nat n)), u)
    end.
Proof.
  intros Hw Hn Ha Hpi Hp. pose proof Hw as (Hb & Hr & Hl & Hi & _ & _ & Hs). unfold uio_copy, uio_access in *.
  destruct (uio_segflg u), (uio_rw u).
  1,5: rewrite copyout_spec by (apply Hs || lia); unfold copy_errno;
       rewrite bool_decide_true by auto with lia; rewrite copied_all by auto with lia; done.
  1,4: rewrite copyin_spec by (apply Hs || lia); unfold copy_errno;
       rewrite bool_decide_true by auto with lia; rewrite copied_all by auto with lia; done.
  - rewrite rdn_in by lia. cbn [rbind]. rewrite wrn_in by (rewrite ?length_slice; lia). done.
  - rewrite rdn_in by lia. cbn [rbind]. rewrite wrn_in by (rewrite ?length_slice; lia). done.
Qed.

Lemma uiomove_spec cur ptr pi n u :
  uio_wf cur u -> 0 <= n <= uio_resid u -> uio_access u n ->
  0 <= pi -> pi + n <= Z.of_nat (length ptr) ->
  uiomove cur ptr pi n u =
    match uio_rw u with
    | UIO_READ => Ret (0, ptr, uio_fill (slice ptr (Z.to_nat pi) (Z.to_nat n)) u)
    | UIO_WRITE => Ret (0, splice ptr (Z.to_nat pi) (uio_data u (Z.to_nat n)), advance n u)
    end.
Proof.
  intros Hw Hn Ha Hpi Hp. pose proof Hw as (Hb & Hr & Hl & Hi & ? & ? & Hs). unfold uiomove.
  replace (match uio_segflg u with UIO_SYSSPACE => uio_space u =? 0 | _ => uio_space u =? cur end) with true
    by (destruct (uio_segflg u); destruct Hs as [-> _]; by rewrite ?Z.eqb_refl).
  cbn [rassert rbind]. unfold UIOMOVE_FUEL. cbn [uiomove_loop].
  destruct (Z.gtb_spec n 0) as [Hn0|Hn0]; cbn [andb].
  - destruct (Z.gtb_spec (uio_resid u) 0); [|lia].
    replace (if iov_len u >? n then n else iov_len u) with n by (destruct (Z.gtb_spec (iov_len u) n); lia).
    destruct (Z.eqb_spec n 0); [lia|]. rewrite (uio_copy_spec cur) by (done || lia).
    rewrite Z.sub_diag. destruct (uio_rw u) eqn:E; cbn [rbind negb Z.eqb Z.gtb Z.compare andb].
    + unfold uio_fill. rewrite length_slice by lia. by rewrite Z2Nat.id by lia.
    + done.
  - assert (n = 0) as -> by lia. unfold slice, uio_data, slice. rewrite !take_0.
    destruct (uio_rw u).
    + unfold uio_fill. rewrite splice_nil. simpl length. rewrite (advance_0 cur).
      * by destruct u as [[]].
      * by destruct u as [[]].
    + by rewrite splice_nil, (advance_0 cur).
Qed.

Lemma uio_fill_app cur u bs cs :
  uio_wf cur u -> Z.of_nat (length bs) + Z.of_nat (length cs) <= uio_resid u -> Forall byte_ok bs ->
  uio_fill cs (uio_fill bs u) = uio_fill (bs ++ cs) u.
Proof.
  intros Hw Hl Hb. pose proof Hw as (? & ? & ? & ? & ? & ? & _). unfold uio_fill.
  assert (Hw1 : uio_wf cur (uio_fill bs u)) by (apply uio_fill_wf; [done | lia | done]).
  assert (E : forall l, Z.of_nat (length l) <= uio_resid u ->
     advance (Z.of_nat (length l)) (set_iov_region (set_region (iov_region u)
       (splice (rg_bytes (iov_region u)) (Z.to_nat (iov_base u)) l)) u) =
     mkUio (set_region (iov_region u) (splice (rg_bytes (iov_region u)) (Z.to_nat (iov_base u)) l))
       (iov_base u + Z.of_nat (length l)) (iov_len u - Z.of_nat (length l))
       (uio_offset u + Z.of_nat (length l)) (uio_resid u - Z.of_nat (length l))
       (uio_segflg u) (uio_rw u) (uio_space u)).
  { intros l Hll. unfold advance. simpl. rewrite !u32_small, s32_small by lia. done. }
  rewrite !E by (rewrite ?length_app; lia). unfold advance, set_iov_region, set_region. simpl.
  rewrite !u32_small, s32_small by lia. rewrite length_app.
  replace (Z.to_nat (iov_base u + Z.of_nat (length bs))) with (Z.to_nat (iov_base u) + length bs)%nat by lia.
  rewrite splice_app by lia. f_equal; lia.
Qed.

Lemma uio_fill_nil cur u : uio_wf cur u -> uio_fill [] u = u.
Proof.
  intros Hw. unfold uio_fill. rewrite splice_nil. simpl length.
  assert (set_iov_region (set_region (iov_region u) (rg_bytes (iov_region u))) u = u) as ->
    by (by destruct u as [[]]). by apply (advance_0 cur).
Qed.

Lemma uio_fill_fields cur u bs :
  uio_wf cur u -> Z.of_nat (length bs) <= uio_resid u ->
  uio_offset (uio_fill bs u) = uio_offset u + Z.of_nat (length bs) /\
  uio_resid (uio_fill bs u) = uio_resid u - Z.of_nat (length bs) /\
  iov_base (uio_fill bs u) = iov_base u + Z.of_nat (length bs) /\
  iov_len (uio_fill bs u) = iov_len u - Z.of_nat (length bs) /\ uio_rw (uio_fill bs u) = uio_rw u.
Proof.
  intros (? & ? & ? & ? & ? & ? & _) Hl. unfold uio_fill, advance. simpl.
  rewrite !u32_small, s32_small by lia. done.
Qed.

Lemma uio_access_le u n k : uio_access u n -> 0 <= k <= n -> uio_access u k.
Proof. unfold uio_access, user_ok. destruct (uio_segflg u); try done; intros H Hk ?; lia. Qed.

Lemma uio_access_fill cur u bs n :
  uio_wf cur u -> uio_access u (Z.of_nat (length bs) + n) -> Z.of_nat (length bs) <= uio_resid u ->
  uio_access (uio_fill bs u) n.
Proof.
  unfold uio_access, user_ok, uio_fill. intros Hw Ha Hl. simpl. destruct (uio_segflg u); try done;
    intros; simpl; lia.
Qed.

Lemma uio_access_advance u k n :
  uio_access u (k + n) -> 0 <= k -> uio_access (advance k u) n.
Proof.
  unfold uio_access, user_ok. intros Ha Hk. simpl. destruct (uio_segflg u); try done; intros; lia.
Qed.

Lemma uio_data_app u (n k : nat) :
  0 <= iov_base u -> uio_data u (n + k) = uio_data u n ++ uio_data (advance (Z.of_nat n) u) k.
Proof. intros H. unfold uio_data. simpl. rewrite slice_app. do 2 f_equal. lia. Qed.

Lemma advance_advance cur u n k :
  uio_wf cur u -> 0 <= n -> 0 <= k -> n + k <= uio_resid u -> advance k (advance n u) = advance (n + k) u.
Proof.
  intros Hw Hn Hk Hl. rewrite (advance_small cur u n), (advance_small cur u (n + k)) by (done || lia).
  pose proof Hw as (? & ? & ? & ? & ? & ? & _). unfold advance. simpl.
  rewrite !u32_small, s32_small by lia. f_equal; lia.
Qed.

Lemma zeros_bytes n : Forall byte_ok (replicate n 0).
Proof. apply Forall_replicate. unfold byte_ok. lia. Qed.

Lemma uiomovezeros_loop_spec (fuel : nat) cur n u :
  uio_wf cur u -> uio_rw u = UIO_READ -> 0 <= n <= uio_resid u -> uio_access u n ->
  (Z.to_nat n < fuel)%nat ->
  uiomovezeros_loop fuel cur n u = Ret (0, uio_fill (replicate (Z.to_nat n) 0) u).
Proof.
  revert n u. induction fuel as [|f IH]; intros n u Hw Hrw Hn Ha Hf; [lia|]. cbn [uiomovezeros_loop].
  destruct (Z.gtb_spec n 0).
  - set (amt := if 16 >? n then n else 16).
    assert (0 < amt <= n /\ amt <= 16) by (unfold amt; destruct (Z.gtb_spec 16 n); lia).
    clearbody amt. rewrite uiomove_spec; [|done | lia | eapply uio_access_le; [exact Ha | lia] | lia |
      unfold uio_zeros; rewrite length_replicate; lia].
    rewrite Hrw. cbn [rbind negb Z.eqb]. change (Z.to_nat 0) with 0%nat.
    assert (slice uio_zeros 0 (Z.to_nat amt) = replicate (Z.to_nat amt) 0) as ->.
    { unfold slice, uio_zeros. rewrite drop_0. rewrite take_replicate. f_equal. lia. }
    assert (Hl : length (replicate (Z.to_nat amt) 0) = Z.to_nat amt) by apply length_replicate.
    pose proof (uio_fill_fields cur u (replicate (Z.to_nat amt) 0) Hw ltac:(lia)) as (? & ? & ? & ? & ?).
    rewrite IH; [|apply uio_fill_wf; [done | lia | apply zeros_bytes] | congruence | lia | | lia].
    + rewrite (uio_fill_app cur), <- replicate_add; [|done | rewrite !length_replicate; lia | apply zeros_bytes].
      do 4 f_equal. lia.
    + apply (uio_access_fill cur); [done| |lia]. eapply uio_access_le; [exact Ha | lia].
  - assert (n = 0) as -> by lia. simpl replicate. by rewrite (uio_fill_nil cur).
Qed.

Lemma uiomovezeros_spec cur n u :
  uio_wf cur u -> uio_rw u = UIO_READ -> 0 <= n <= uio_resid u -> uio_access u n ->
  uiomovezeros cur n u = Ret (0, uio_fill (replicate (Z.to_nat n) 0) u).
Proof.
  intros Hw Hrw Hn Ha. unfold uiomovezeros, is_read. rewrite bool_decide_true by done. cbn [rassert rbind].
  apply uiomovezeros_loop_spec; done || lia.
Qed.

Lemma uiomove_fault cur ptr pi n u :
  uio_wf cur u -> 0 < n <= uio_resid u -> ~ uio_access u n ->
  0 <= pi -> pi + n <= Z.of_nat (length ptr) ->
  exists ptr' r', uiomove cur ptr pi n u = Ret (EFAULT, ptr', set_iov_region r' u).
Proof.
  intros Hw Hn Ha Hpi Hp. pose proof Hw as (Hb & Hr & Hl & Hi & ? & ? & Hs). unfold uiomove.
  replace (match uio_segflg u with UIO_SYSSPACE => uio_space u =? 0 | _ => uio_space u =? cur end) with true
    by (destruct (uio_segflg u); destruct Hs as [-> _]; by rewrite ?Z.eqb_refl).
  cbn [rassert rbind]. unfold UIOMOVE_FUEL. cbn [uiomove_loop].
  destruct (Z.gtb_spec n 0); [|lia]. destruct (Z.gtb_spec (uio_resid u) 0); [|lia]. cbn [andb].
  replace (if iov_len u >? n then n else iov_len u) with n by (destruct (Z.gtb_spec (iov_len u) n); lia).
  destruct (Z.eqb_spec n 0); [lia|]. unfold uio_copy, uio_access in *.
  assert (Hu : forall r, iov_region u = r -> set_iov_region r u = u) by (intros r <-; by destruct u).
  destruct (uio_segflg u); [|done|]; (destruct (uio_rw u);
    [rewrite copyout_spec by (apply Hs || lia) | rewrite copyin_spec by (apply Hs || lia)]);
    unfold copy_errno; rewrite bool_decide_false by (intros [? ?]; apply Ha; auto);
    cbn [rbind negb Z.eqb EFAULT]; eexists _, _; try done; by rewrite (Hu (iov_region u)).
Qed.

(** C37: Within [uio_resid], [uiomove] moves exactly [n] bytes: to the next bytes
    of the caller's memory for a read, from them for a write, and moves the
    base, the offset and the two lengths along by [n]; if the memory is a
    process's and a byte of it cannot be accessed it answers [EFAULT] and the
    base, offset and lengths are as before. *)
Theorem uiomove_exact cur ptr pi n u :
  uio_wf cur u -> 0 < n <= uio_resid u -> 0 <= pi -> pi + n <= Z.of_nat (length ptr) ->
  (uio_access u n ->
   exists u', uiomove cur ptr pi n u =
       Ret (0, (if is_write u then splice ptr (Z.to_nat pi) (uio_data u (Z.to_nat n)) else ptr), u') /\
     rg_bytes (iov_region u') =
       (if is_write u then rg_bytes (iov_region u)
        else splice (rg_bytes (iov_region u)) (Z.to_nat (iov_base u)) (slice ptr (Z.to_nat pi) (Z.to_nat n))) /\
     iov_base u' = iov_base u + n /\ iov_len u' = iov_len u - n /\
     uio_offset u' = uio_offset u + n /\ uio_resid u' = uio_resid u - n) /\
  (~ uio_access u n ->
   exists ptr' r', uiomove cur ptr pi n u = Ret (EFAULT, ptr', set_iov_region r' u)).
Proof.
  intros Hw Hn Hpi Hp. split; [|intros ?; by apply uiomove_fault]. intros Ha.
  rewrite uiomove_spec by (done || lia). unfold is_write.
  destruct (uio_rw u).
  - eexists. split; [done|]. assert (L : length (slice ptr (Z.to_nat pi) (Z.to_nat n)) = Z.to_nat n)
      by (apply length_slice; lia).
    pose proof (uio_fill_fields cur u (slice ptr (Z.to_nat pi) (Z.to_nat n)) Hw) as F. rewrite L in F.
    destruct F as (-> & -> & -> & -> & _); [lia|]. split; [done|]. lia.
  - eexists. split; [done|]. rewrite (advance_small cur) by (done || lia). simpl. split_and!; done || lia.
Qed.

Lemma uiomove_exact_witness :
  uiomove 0 [7; 8; 9] 1 2 (mk_kuio [0; 0; 0; 0] 4 100 UIO_READ) =
    Ret (0, [7; 8; 9], mkUio (mkRegion 0 [8; 9; 0; 0] 0) 2 2 102 2 UIO_SYSSPACE UIO_READ 0).
Proof.
  destruct (uiomove_exact 0 [7; 8; 9] 1 2 (mk_kuio [0; 0; 0; 0] 4 100 UIO_READ)) as [R _].
  - unfold uio_wf, mk_kuio. simpl. split_and!; try lia; try done. apply (zeros_bytes 4).
  - simpl. lia.
  - lia.
  - simpl. lia.
  - destruct (R I) as (u' & E & _). transitivity (Ret (0, [7; 8; 9], u')); [exact E|].
    etransitivity; [symmetry; exact E | reflexivity].
Defined.

(** [uiomove] does not bound a transfer by [uio_resid]: asked for more bytes
    than that, it moves as many as the iovec holds, past the end of what the
    uio was limited to, and [uio_resid] wraps around to a number near 2^32. *)
Theorem uiomove_overruns_resid cur ptr pi n u :
  uio_segflg u = UIO_SYSSPACE -> uio_space u = 0 -> uio_rw u = UIO_READ ->
  0 < uio_resid u < n -> n <= iov_len u < 2 ^ 31 ->
  0 <= iov_base u -> iov_base u + iov_len u <= Z.of_nat (length (rg_bytes (iov_region u))) ->
  0 <= pi -> pi + n <= Z.of_nat (length ptr) ->
  exists u', uiomove cur ptr pi n u = Ret (0, ptr, u') /\
    slice (rg_bytes (iov_region u')) (Z.to_nat (iov_base u)) (Z.to_nat n) = slice ptr (Z.to_nat pi) (Z.to_nat n) /\
    uio_resid u' = 2 ^ 32 + uio_resid u - n.
Proof.
  intros Hs Hsp Hrw Hr Hl Hb Hbl Hpi Hp. unfold uiomove. rewrite Hs, Hsp. cbn [rassert rbind Z.eqb].
  unfold UIOMOVE_FUEL. cbn [uiomove_loop].
  destruct (Z.gtb_spec n 0); [|lia]. destruct (Z.gtb_spec (uio_resid u) 0); [|lia]. cbn [andb].
  replace (if iov_len u >? n then n else iov_len u) with n by (destruct (Z.gtb_spec (iov_len u) n); lia).
  destruct (Z.eqb_spec n 0); [lia|]. unfold uio_copy. rewrite Hs, Hrw.
  assert (L : length (slice ptr (Z.to_nat pi) (Z.to_nat n)) = Z.to_nat n) by (apply length_slice; lia).
  rewrite rdn_in by lia. cbn [rbind]. rewrite wrn_in by lia. cbn [rbind negb Z.eqb].
  rewrite Z.sub_diag. cbn [Z.gtb Z.compare andb]. eexists. split; [done|]. simpl. split.
  - rewrite <- L at 2. apply slice_splice_same. lia.
  - unfold u32. rewrite <- (Z_mod_plus_full _ 1). rewrite Z.mod_small by lia. lia.
Qed.

Lemma uiomove_overruns_resid_witness :
  let u := set_resid 1 (mk_kuio [0; 0; 0; 0] 4 0 UIO_READ) in
  exists u', uiomove 0 [7; 8; 9] 0 3 u = Ret (0, [7; 8; 9], u') /\ uio_resid u' = 2 ^ 32 - 2.
Proof.
  intros u. destruct (uiomove_overruns_resid 0 [7; 8; 9] 0 3 u) as (u' & E & _ & R);
    [done | done | done | simpl; lia..|]. exists u'. split; [exact E|]. rewrite R. reflexivity.
Defined.
