(* ===== verification/Blockdev.v ===== *)
(** * Block devices ([kern/include/dev.h])

    What a file system promises itself of the [struct device] under it.  A
    device is a state [D] with the entry [d_io] of its function table and the
    two numbers a file system reads.  [BlockDevLaws] is the contract of a
    one-sector transfer: a read fills the caller's memory with the sector or
    fails with [EIO] having moved nothing; a write of a sector replaces it, or
    is refused with [EIO], and then the sector may hold anything.

    A refused write has already consumed the caller's data, and a caller that
    tries again, as [sfs_rwblock] does, hands over an empty request: the write
    is lost and reported as done (see [SfsFault.v]).  So what a file system
    achieves it achieves unless a write is refused on the way.  [careful] is
    the device that gives up at the first write the disk refuses; the proofs
    on SFS run on it ([CarefulLaws]), and [SfsCareful.v] shows that where a run
    on it returns, the run on the device itself is the same. *)

From S2P Require Import Prelude.
From S2P Require Import Bytes.
From S2P Require Import Copyinout.
From S2P Require Import Uio.

Definition SECTSIZE : Z := 512.

(** [d_io cur u]: [cur] is the address space of the running thread. *)
Class BlockDev (D : Type) := d_io : Z -> uio -> M D (Z * uio).

Class DevSize (D : Type) := {
  d_blocks : D -> Z;
  d_blocksize : D -> Z;
}.

Definition sector_wf (bs : list Z) : Prop := length bs = Z.to_nat SECTSIZE /\ Forall byte_ok bs.

(** Every byte of the disk has an offset that is an [off_t]. *)
Definition MAXBLOCKS : Z := 2 ^ 22 - 1.

(** What is on the disk. *)
Class Disk (D : Type) `{!DevSize D} := {
  dev_ok : D -> Prop;
  sector : D -> Z -> list Z;
  dev_bounds d : dev_ok d -> 0 <= d_blocks d <= MAXBLOCKS /\ d_blocksize d = SECTSIZE;
  sector_law d b : dev_ok d -> 0 <= b < d_blocks d -> sector_wf (sector d b);
}.

(** A request of the caller for sector [b]. *)
Definition sector_request {D} `{!DevSize D} (cur : Z) (u : uio) (rw : uio_dir) (d : D) (b : Z) : Prop :=
  uio_wf cur u /\ uio_rw u = rw /\ uio_resid u = SECTSIZE /\
  uio_access u SECTSIZE /\ uio_offset u = SECTSIZE * b /\ 0 <= b < d_blocks d.

Section Transfers.
Context {D : Type} `{!DevSize D, !Disk D}.

Definition same_disk (d d' : D) : Prop :=
  dev_ok d' /\ d_blocks d' = d_blocks d /\ forall c, 0 <= c < d_blocks d -> sector d' c = sector d c.

Definition disk_set (d : D) (b : Z) (bs : list Z) (d' : D) : Prop :=
  dev_ok d' /\ d_blocks d' = d_blocks d /\
  forall c, 0 <= c < d_blocks d -> sector d' c = if decide (c = b) then bs else sector d c.
End Transfers.

Class BlockDevLaws (D : Type) `{!BlockDev D, !DevSize D, !Disk D} := {
  d_io_read_law cur u d b :
    dev_ok d -> sector_request cur u UIO_READ d b ->
    wp (d_io cur u) d (fun '(r, u') d' => same_disk d d' /\
      ((r = 0 /\ u' = uio_fill (sector d b) u) \/ (r = EIO /\ u' = u)));
  d_io_write_law cur u d b :
    dev_ok d -> sector_request cur u UIO_WRITE d b ->
    wp (d_io cur u) d (fun '(r, u') d' =>
      (r = 0 /\ u' = advance SECTSIZE u /\ disk_set d b (uio_data u (Z.to_nat SECTSIZE)) d') \/
      (r = EIO /\ exists bs, disk_set d b bs d'));
}.

(** ** The device that gives up at a refused write *)

Definition careful {D} `{!BlockDev D} : BlockDev D := fun cur u =>
  let* (r, u') := d_io cur u in
  if is_write u && (r =? EIO) then halt Refused else ret (r, u').

Class CarefulLaws (D : Type) `{!BlockDev D, !DevSize D, !Disk D} := {
  careful_read_law cur u d b :
    dev_ok d -> sector_request cur u UIO_READ d b ->
    wp (d_io cur u) d (fun '(r, u') d' => same_disk d d' /\
      ((r = 0 /\ u' = uio_fill (sector d b) u) \/ (r = EIO /\ u' = u)));
  careful_write_law cur u d b :
    dev_ok d -> sector_request cur u UIO_WRITE d b ->
    wpr (d_io cur u) d (fun '(r, u') d' =>
      r = 0 /\ u' = advance SECTSIZE u /\ disk_set d b (uio_data u (Z.to_nat SECTSIZE)) d');
}.

(** Code that may run into a refused write. *)
Class MayRefuse (rf : Prop) := may_refuse : rf.

#[export] Instance may_refuse_true : MayRefuse True := I.

Lemma wp_allowed {S A} {rf p : Prop} `{!MayRefuse rf} (m : M S A) s Q : wpx True p m s Q -> wpx rf p m s Q.
Proof. unfold wpx. destruct (m s) as [[a s']|[]]; [done..|]. intros _. apply may_refuse. Qed.

Lemma careful_laws {D} `{BlockDevLaws D} : @CarefulLaws D careful _ _.
Proof.
  split; intros cur u d b Hd Hu; pose proof Hu as (_ & Hrw & _); unfold d_io, careful; wp_step.
  - eapply wp_mono; [by apply (d_io_read_law cur u d b)|]. intros [r u'] d' Hr.
    unfold is_write. rewrite Hrw, bool_decide_false by done. cbn [andb]. by wp_step.
  - eapply wp_mono; [eapply wp_calls; [by apply (d_io_write_law cur u d b)|done]|].
    intros [r u'] d' [(-> & -> & Hs)|(-> & _)]; unfold is_write; rewrite Hrw, bool_decide_true by done;
      [by apply wp_ret|done].
Qed.
