(* ===== verification/Lhd.v ===== *)
(** * The LAMEbus disk driver ([kern/dev/lamebus/lhd.c])

    The card is a parameter: [hw_op] is what an operation started through the
    status register does, the code it leaves there, the on-card buffer after
    it and the new state of the medium.  The driver's [lhd_softc] is the record
    [lhd], the counts of its two semaphores included; the thread that waits in
    [P(lh_done)] is woken by the interrupt that the end of the operation
    raises, so that the wait is where [lhd_irq] runs.  A [P] that would wait
    for another thread does not return in this model ([OutOfFuel]); the
    theorems show that it does not happen when the device is not in use. *)

From S2P Require Import Prelude.
From S2P Require Import Bytes.
From S2P Require Import Copyinout.
From S2P Require Import Uio.
From S2P Require Import Blockdev.

Definition LHD_SECTSIZE : Z := 512.
Definition LHD_IDLE : Z := 0.
Definition LHD_WORKING : Z := 1.
Definition LHD_OK : Z := 4.
Definition LHD_INVSECT : Z := 12.
Definition LHD_MEDIA : Z := 20.
Definition LHD_ISWRITE : Z := 2.
Definition LHD_STATEMASK : Z := 0x1d.

(** The card: [hw_op iswrite sector buffer]. *)
Class LhdCard (HW : Type) := {
  hw_nsect : HW -> Z;
  hw_op : bool -> Z -> list Z -> HW -> Z * list Z * HW;
}.

Record lhd (HW : Type) := mkLhd {
  lh_hw : HW;
  lh_stat : Z;                  (* register LHD_REG_STAT *)
  lh_sect : Z;                  (* register LHD_REG_SECT *)
  lh_buf : list Z;              (* the on-card buffer *)
  lh_result : Z;
  lh_clear : Z;                 (* count of the semaphore *)
  lh_done : Z;
  lh_blocks : Z;                (* lh_dev.d_blocks *)
  lh_blocksize : Z;
}.
Arguments mkLhd {HW} _ _ _ _ _ _ _ _ _.
Arguments lh_hw {HW} _.
Arguments lh_stat {HW} _.
Arguments lh_sect {HW} _.
Arguments lh_buf {HW} _.
Arguments lh_result {HW} _.
Arguments lh_clear {HW} _.
Arguments lh_done {HW} _.
Arguments lh_blocks {HW} _.
Arguments lh_blocksize {HW} _.

Section Driver.
Context {HW : Type} `{!LhdCard HW}.
Implicit Types (l : lhd HW).

Definition set_stat (z : Z) l : lhd HW :=
  mkLhd (lh_hw l) z (lh_sect l) (lh_buf l) (lh_result l) (lh_clear l) (lh_done l) (lh_blocks l) (lh_blocksize l).
Definition set_sect (z : Z) l : lhd HW :=
  mkLhd (lh_hw l) (lh_stat l) z (lh_buf l) (lh_result l) (lh_clear l) (lh_done l) (lh_blocks l) (lh_blocksize l).
Definition set_buf (b : list Z) l : lhd HW :=
  mkLhd (lh_hw l) (lh_stat l) (lh_sect l) b (lh_result l) (lh_clear l) (lh_done l) (lh_blocks l) (lh_blocksize l).
Definition set_clear (z : Z) l : lhd HW :=
  mkLhd (lh_hw l) (lh_stat l) (lh_sect l) (lh_buf l) (lh_result l) z (lh_done l) (lh_blocks l) (lh_blocksize l).
Definition set_done (z : Z) l : lhd HW :=
  mkLhd (lh_hw l) (lh_stat l) (lh_sect l) (lh_buf l) (lh_result l) (lh_clear l) z (lh_blocks l) (lh_blocksize l).
Definition set_result (z : Z) l : lhd HW :=
  mkLhd (lh_hw l) (lh_stat l) (lh_sect l) (lh_buf l) z (lh_clear l) (lh_done l) (lh_blocks l) (lh_blocksize l).

Definition lhd_code_to_errno (code : Z) : Z :=
  let c := Z.land code LHD_STATEMASK in
  if c =? LHD_OK then 0
  else if c =? LHD_INVSECT then EINVAL
  else if c =? LHD_MEDIA then EIO
  else EAGAIN.

Definition lhd_iodone (err : Z) : M (lhd HW) unit :=
  let* _ := modify (set_result err) in
  modify (fun l => set_done (lh_done l + 1) l).            (* V(lh->lh_done) *)

Definition lhd_irq : M (lhd HW) unit :=
  let* val := gets lh_stat in
  let c := Z.land val LHD_STATEMASK in
  if (c =? LHD_OK) || (c =? LHD_INVSECT) || (c =? LHD_MEDIA) then
    let* _ := modify (set_stat 0) in
    lhd_iodone (lhd_code_to_errno val)
  else ret tt.

(** The card ends the operation in progress and leaves its code in the status
    register. *)
Definition card_finish l : lhd HW :=
  let '(status, buf, hw) :=
    hw_op (Z.testbit (lh_stat l) 1) (lh_sect l) (lh_buf l) (lh_hw l) in
  mkLhd hw status (lh_sect l) buf (lh_result l) (lh_clear l) (lh_done l) (lh_blocks l) (lh_blocksize l).

(** [P(lh->lh_done)]. *)
Definition wait_done : M (lhd HW) unit :=
  let* n := gets lh_done in
  let* _ := (if n =? 0 then
               let* _ := modify card_finish in
               lhd_irq
             else ret tt) in
  let* n := gets lh_done in
  if n =? 0 then halt OutOfFuel
  else modify (set_done (n - 1)).

Definition P_clear : M (lhd HW) unit :=
  let* n := gets lh_clear in
  if n =? 0 then halt OutOfFuel else modify (set_clear (n - 1)).

Definition V_clear : M (lhd HW) unit := modify (fun l => set_clear (lh_clear l + 1) l).

(** The loop over the sectors, from the [i]th on. *)
Fixpoint lhd_io_loop (n : nat) (cur sector i statval : Z) (u : uio) : M (lhd HW) (Z * uio) :=
  match n with
  | O => ret (0, u)
  | S n' =>
      let* _ := P_clear in
      let* buf := gets lh_buf in
      let* (result, buf, u) :=
        (if is_write u then lift (uiomove cur buf 0 LHD_SECTSIZE u) else ret (0, buf, u)) in
      let* _ := modify (set_buf buf) in
      if negb (result =? 0) then
        let* _ := V_clear in
        ret (result, u)
      else
        let* _ := modify (set_sect (u32 (sector + i))) in
        let* _ := modify (set_stat statval) in
        let* _ := wait_done in
        let* result := gets lh_result in
        let* buf := gets lh_buf in
        let* (result, buf, u) :=
          (if (result =? 0) && is_read u then lift (uiomove cur buf 0 LHD_SECTSIZE u)
           else ret (result, buf, u)) in
        let* _ := V_clear in
        if negb (result =? 0) then ret (result, u)
        else lhd_io_loop n' cur sector (i + 1) statval u
  end.

Definition lhd_io (cur : Z) (u : uio) : M (lhd HW) (Z * uio) :=
  let sector := u32 (Z.quot (uio_offset u) LHD_SECTSIZE) in
  let sectoff := u32 (Z.rem (uio_offset u) LHD_SECTSIZE) in
  let len := uio_resid u / LHD_SECTSIZE in
  let lenoff := uio_resid u mod LHD_SECTSIZE in
  if negb (sectoff =? 0) || negb (lenoff =? 0) then ret (EINVAL, u)
  else
    let* blocks := gets lh_blocks in
    if u32 (sector + len) >? blocks then ret (EINVAL, u)
    else
      let statval := if is_write u then Z.lor LHD_WORKING LHD_ISWRITE else LHD_WORKING in
      lhd_io_loop (Z.to_nat len) cur sector 0 statval u.

(** [config_lhd], once its semaphores are made. *)
Definition config_lhd (hw : HW) (buf : list Z) : lhd HW :=
  mkLhd hw 0 0 buf 0 1 0 (hw_nsect hw) LHD_SECTSIZE.

Definition lhd_open (openflags : Z) : Z := 0.
Definition lhd_close : Z := 0.
Definition lhd_ioctl (op data : Z) : Z := EIOCTL.
End Driver.

#[export] Instance lhd_blockdev {HW} `{!LhdCard HW} : BlockDev (lhd HW) := lhd_io.

#[export] Instance lhd_devsize {HW} : DevSize (lhd HW) := {
  d_blocks := lh_blocks;
  d_blocksize := lh_blocksize;
}.

(** ** The driver keeps the contract of a block device *)

(** What the LAMEbus disk documents of an operation on a sector it has: a read
    puts the sector into the buffer or reports a media error; a write stores
    the buffer, or reports a media error, and then the sector may hold
    anything. *)
Class LhdCardLaws (HW : Type) `{!LhdCard HW} := {
  hw_ok : HW -> Prop;
  hw_sector : HW -> Z -> list Z;
  hw_bounds hw : hw_ok hw -> 0 <= hw_nsect hw <= MAXBLOCKS;
  hw_sector_law hw b : hw_ok hw -> 0 <= b < hw_nsect hw -> sector_wf (hw_sector hw b);
  hw_read_law hw b buf : hw_ok hw -> 0 <= b < hw_nsect hw -> sector_wf buf ->
    let '(st, buf', hw') := hw_op false b buf hw in
    hw_ok hw' /\ hw_nsect hw' = hw_nsect hw /\ sector_wf buf' /\
    (forall c, 0 <= c < hw_nsect hw -> hw_sector hw' c = hw_sector hw c) /\
    ((Z.land st LHD_STATEMASK = LHD_OK /\ buf' = hw_sector hw b) \/
     Z.land st LHD_STATEMASK = LHD_MEDIA);
  hw_write_law hw b buf : hw_ok hw -> 0 <= b < hw_nsect hw -> sector_wf buf ->
    let '(st, buf', hw') := hw_op true b buf hw in
    hw_ok hw' /\ hw_nsect hw' = hw_nsect hw /\ sector_wf buf' /\
    exists bs,
    (forall c, 0 <= c < hw_nsect hw -> hw_sector hw' c = if decide (c = b) then bs else hw_sector hw c) /\
    ((Z.land st LHD_STATEMASK = LHD_OK /\ bs = buf) \/ Z.land st LHD_STATEMASK = LHD_MEDIA);
}.

Section Correct.
Context {HW : Type} `{LhdCardLaws HW}.
Implicit Types (l : lhd HW).

(** Nobody is using the device. *)
Definition lhd_ok l : Prop :=
  hw_ok (lh_hw l) /\ lh_blocks l = hw_nsect (lh_hw l) /\ lh_blocksize l = LHD_SECTSIZE /\
  lh_clear l = 1 /\ lh_done l = 0 /\ sector_wf (lh_buf l).

(** The operation the registers describe, from its start to the interrupt. *)
Lemma wait_done_wp l st buf hw (Q : unit -> lhd HW -> Prop) :
  lh_done l = 0 ->
  hw_op (Z.testbit (lh_stat l) 1) (lh_sect l) (lh_buf l) (lh_hw l) = (st, buf, hw) ->
  Z.land st LHD_STATEMASK = LHD_OK \/ Z.land st LHD_STATEMASK = LHD_MEDIA ->
  Q tt (mkLhd hw 0 (lh_sect l) buf (if Z.land st LHD_STATEMASK =? LHD_OK then 0 else EIO)
          (lh_clear l) 0 (lh_blocks l) (lh_blocksize l)) ->
  wp wait_done l Q.
Proof.
  intros Hd Hop Hst HQ. unfold wait_done. wp_step. wp_step. rewrite Hd. cbn [Z.eqb].
  wp_step. wp_step. wp_step. unfold card_finish. rewrite Hop.
  unfold lhd_irq. wp_step. wp_step. simpl lh_stat. unfold lhd_code_to_errno.
  destruct Hst as [Hst|Hst]; rewrite Hst in *; simpl in *; unfold lhd_iodone;
    repeat wp_step; rewrite Hd; simpl; exact HQ.
Qed.

Lemma one_sector u b blocks :
  uio_offset u = SECTSIZE * b -> 0 <= b < blocks -> blocks <= MAXBLOCKS -> uio_resid u = SECTSIZE ->
  u32 (Z.quot (uio_offset u) LHD_SECTSIZE) = b /\
  u32 (Z.rem (uio_offset u) LHD_SECTSIZE) = 0 /\ uio_resid u / LHD_SECTSIZE = 1 /\
  uio_resid u mod LHD_SECTSIZE = 0 /\ u32 (b + 1) <= blocks /\ u32 (b + 0) = b.
Proof.
  unfold SECTSIZE, LHD_SECTSIZE, MAXBLOCKS. intros -> Hb Hm ->.
  rewrite (Z.mul_comm 512 b), Z.quot_mul, Z.rem_mul by lia.
  rewrite (u32_small (b + 1)), Z.add_0_r, (u32_small b) by lia. split_and!; done || lia.
Qed.

#[export] Program Instance lhd_disk : Disk (lhd HW) := {
  dev_ok := lhd_ok;
  sector l := hw_sector (lh_hw l);
}.
Next Obligation.
  intros l (Hhw & Hbl & Hbs & _). pose proof (hw_bounds _ Hhw). simpl. rewrite Hbl. split; [lia | done].
Qed.
Next Obligation.
  intros l b (Hhw & Hbl & _) Hb. apply hw_sector_law; [done|]. simpl in Hb. lia.
Qed.

Lemma lhd_read l cur u b :
  lhd_ok l -> sector_request cur u UIO_READ l b ->
  wp (lhd_io cur u) l (fun '(r, u') l' => same_disk l l' /\
    ((r = 0 /\ u' = uio_fill (hw_sector (lh_hw l) b) u) \/ (r = EIO /\ u' = u))).
Proof.
  intros (Hhw & Hbl & Hbs & Hcl & Hdn & Hbuf) (Hw & Hrw & Hres & Hacc & Hoff & Hb). simpl in Hb.
  pose proof (hw_bounds _ Hhw) as Hbd.
  destruct (one_sector u b (lh_blocks l)) as (E1 & E2 & E3 & E4 & E5 & E6); [done..|lia|done|].
  unfold lhd_io. rewrite E1, E2, E3, E4. cbn [negb orb Z.eqb].
  assert (Hr : is_read u = true) by (by apply bool_decide_eq_true).
  assert (Hnw : is_write u = false) by (unfold is_write; rewrite Hrw; done).
  wp_step. wp_step. destruct (Z.gtb_spec (u32 (b + 1)) (lh_blocks l)); [lia|].
  rewrite Hnw. change (Z.to_nat 1) with 1%nat. cbn [lhd_io_loop]. rewrite Hnw.
  wp_step. unfold P_clear at 1. wp_step. wp_step. rewrite Hcl. cbn [Z.eqb Z.sub].
  repeat wp_step. cbn [negb Z.eqb]. repeat wp_step. rewrite E6.
  pose proof (hw_read_law (lh_hw l) b (lh_buf l) Hhw ltac:(lia) Hbuf) as L.
  destruct (hw_op false b (lh_buf l) (lh_hw l)) as [[st buf] hw] eqn:Eop.
  destruct L as (Hhw' & Hn & Hbuf' & Hs & Hst).
  eapply (wait_done_wp _ st buf hw); [done | exact Eop | tauto |].
  repeat wp_step. simpl.
  destruct Hst as [[Hst Hbb]|Hst]; rewrite Hst; simpl; rewrite ?Hr.
  - destruct Hbuf' as [Hlen Hbytes].
    wp_step. rewrite uiomove_spec by (done || (rewrite ?Hlen, ?Hres; unfold LHD_SECTSIZE, SECTSIZE; lia)).
    rewrite Hrw. simpl. repeat wp_step. unfold same_disk, dev_ok; simpl; unfold lhd_ok; simpl.
    split_and!; try done; [cbn; congruence | intros; apply Hs; lia |]. left. split; [done|].
    rewrite <- Hbb. unfold slice. rewrite drop_0, take_ge by (by rewrite Hlen). done.
  - repeat wp_step. simpl. repeat wp_step. unfold same_disk, dev_ok; simpl; unfold lhd_ok; simpl. split_and!; try done.
    + cbn. congruence.
    + intros; apply Hs; lia.
    + by right.
Qed.

(** A write of one sector, whatever the card makes of it: the descriptor is
    consumed either way. *)
Lemma lhd_write_op l cur u b st buf hw :
  lh_clear l = 1 -> lh_done l = 0 -> sector_wf (lh_buf l) -> lh_blocks l <= MAXBLOCKS ->
  uio_wf cur u -> uio_rw u = UIO_WRITE -> uio_resid u = SECTSIZE ->
  uio_access u SECTSIZE -> uio_offset u = SECTSIZE * b -> 0 <= b < lh_blocks l ->
  hw_op true b (uio_data u (Z.to_nat SECTSIZE)) (lh_hw l) = (st, buf, hw) ->
  Z.land st LHD_STATEMASK = LHD_OK \/ Z.land st LHD_STATEMASK = LHD_MEDIA ->
  wp (lhd_io cur u) l (fun '(r, u') l' =>
    r = (if Z.land st LHD_STATEMASK =? LHD_OK then 0 else EIO) /\ u' = advance SECTSIZE u /\
    l' = mkLhd hw 0 b buf r 1 0 (lh_blocks l) (lh_blocksize l)).
Proof.
  intros Hcl Hdn Hbuf Hbd Hw Hrw Hres Hacc Hoff Hb Eop Hst.
  destruct (one_sector u b (lh_blocks l)) as (E1 & E2 & E3 & E4 & E5 & E6); [done..|].
  unfold lhd_io. rewrite E1, E2, E3, E4. cbn [negb orb Z.eqb].
  assert (Hr : is_write u = true) by (by apply bool_decide_eq_true).
  wp_step. wp_step. destruct (Z.gtb_spec (u32 (b + 1)) (lh_blocks l)); [lia|].
  rewrite Hr. change (Z.to_nat 1) with 1%nat. cbn [lhd_io_loop]. rewrite Hr.
  wp_step. unfold P_clear at 1. wp_step. wp_step. rewrite Hcl. cbn [Z.eqb Z.sub].
  destruct Hbuf as [Hlen Hbytes]. wp_step. wp_step. wp_step. wp_step. wp_step. simpl lh_buf.
  assert (Hnr : is_read (advance LHD_SECTSIZE u) = false) by (unfold is_read, advance; simpl; rewrite Hrw; done).
  rewrite uiomove_spec by (done || (rewrite ?Hlen, ?Hres; unfold LHD_SECTSIZE, SECTSIZE; lia)).
  rewrite Hrw. cbn [rwp]. repeat wp_step. cbn [negb Z.eqb]. repeat wp_step. rewrite E6.
  assert (Hdl : length (uio_data u (Z.to_nat SECTSIZE)) = Z.to_nat SECTSIZE)
    by (apply (length_uio_data cur); [done|]; rewrite Hres; unfold SECTSIZE; lia).
  assert (E7 : splice (lh_buf l) (Z.to_nat 0) (uio_data u (Z.to_nat LHD_SECTSIZE)) =
               uio_data u (Z.to_nat SECTSIZE)) by (apply splice_all; rewrite Hlen; exact Hdl).
  rewrite E7. eapply (wait_done_wp _ st buf hw); [done | exact Eop | done |].
  repeat wp_step. simpl. destruct Hst as [Hst|Hst]; rewrite Hst, Hnr; simpl; repeat wp_step; simpl;
    repeat wp_step; done.
Qed.

Lemma lhd_write l cur u b :
  lhd_ok l -> sector_request cur u UIO_WRITE l b ->
  wp (lhd_io cur u) l (fun '(r, u') l' =>
    (r = 0 /\ u' = advance SECTSIZE u /\ disk_set l b (uio_data u (Z.to_nat SECTSIZE)) l') \/
    (r = EIO /\ exists bs, disk_set l b bs l')).
Proof.
  intros (Hhw & Hbl & Hbs & Hcl & Hdn & Hbuf) (Hw & Hrw & Hres & Hacc & Hoff & Hb). simpl in Hb.
  pose proof (hw_bounds _ Hhw) as Hbd.
  set (dat := uio_data u (Z.to_nat SECTSIZE)).
  assert (Hdl : length dat = Z.to_nat SECTSIZE)
    by (apply (length_uio_data cur); [done|]; rewrite Hres; unfold SECTSIZE; lia).
  assert (Hdat : sector_wf dat) by (split; [exact Hdl | by eapply uio_data_ok]).
  pose proof (hw_write_law (lh_hw l) b dat Hhw ltac:(lia) Hdat) as L.
  destruct (hw_op true b dat (lh_hw l)) as [[st buf] hw] eqn:Eop.
  destruct L as (Hhw' & Hn & Hbuf' & bs & Hs & Hst).
  eapply wp_mono; [eapply (lhd_write_op l cur u b st buf hw); done || lia || tauto|].
  intros [r u'] l' (-> & -> & ->).
  assert (Hset : disk_set l b bs (mkLhd hw 0 b buf (if Z.land st LHD_STATEMASK =? LHD_OK then 0 else EIO) 1 0
                                    (lh_blocks l) (lh_blocksize l))).
  { unfold disk_set, dev_ok; simpl; unfold lhd_ok; simpl. split_and!; try done; [cbn; congruence|].
    intros. apply Hs. lia. }
  destruct Hst as [[Hst ->]|Hst]; rewrite Hst in *; [left; done|]. right. split; [done|]. by exists bs.
Qed.

#[export] Instance lhd_blockdev_laws : BlockDevLaws (lhd HW).
Proof. split; intros; [by apply lhd_read | by apply lhd_write]. Qed.
End Correct.

(** ** A card

    Sectors in a list; the operations to come that fail with a media error are
    two schedules, one for reads and one for writes. *)

Record simcard := mkCard {
  sc_sectors : list (list Z);
  sc_rfaults : list bool;
  sc_wfaults : list bool;
}.

Definition next_fault (l : list bool) : bool * list bool :=
  match l with [] => (false, []) | f :: l' => (f, l') end.

Definition sim_op (w : bool) (b : Z) (buf : list Z) (c : simcard) : Z * list Z * simcard :=
  if (b <? 0) || (Z.of_nat (length (sc_sectors c)) <=? b) then (LHD_INVSECT, buf, c)
  else if w then
    let '(f, faults) := next_fault (sc_wfaults c) in
    if f then (Z.lor LHD_MEDIA LHD_ISWRITE, buf, mkCard (sc_sectors c) (sc_rfaults c) faults)
    else (Z.lor LHD_OK LHD_ISWRITE, buf,
          mkCard (<[Z.to_nat b := buf]> (sc_sectors c)) (sc_rfaults c) faults)
  else
    let '(f, faults) := next_fault (sc_rfaults c) in
    let c' := mkCard (sc_sectors c) faults (sc_wfaults c) in
    if f then (LHD_MEDIA, buf, c')
    else (LHD_OK, default [] (sc_sectors c !! Z.to_nat b), c').

#[export] Instance simcard_card : LhdCard simcard := {
  hw_nsect c := Z.of_nat (length (sc_sectors c));
  hw_op := sim_op;
}.

#[export] Program Instance simcard_laws : LhdCardLaws simcard := {
  hw_ok c := Z.of_nat (length (sc_sectors c)) <= MAXBLOCKS /\
             Forall sector_wf (sc_sectors c);
  hw_sector c b := default [] (sc_sectors c !! Z.to_nat b);
}.
Next Obligation. intros c (? & _). simpl. lia. Qed.
Next Obligation.
  intros c b (_ & Hf) Hb. simpl in *.
  destruct (lookup_lt_is_Some_2 (sc_sectors c) (Z.to_nat b)) as [s Hs]; [lia|].
  rewrite Hs. by eapply Forall_lookup_1.
Qed.
Next Obligation.
  intros c b buf (Hm & Hf) Hb Hbuf. simpl in *. unfold sim_op.
  replace ((b <? 0) || (Z.of_nat (length (sc_sectors c)) <=? b)) with false by lia.
  destruct (lookup_lt_is_Some_2 (sc_sectors c) (Z.to_nat b)) as [s Hs]; [lia|].
  destruct (next_fault (sc_rfaults c)) as [[] fs]; simpl; rewrite ?Hs; simpl; split_and!; try done.
  - by right.
  - by eapply Forall_lookup_1.
  - by left.
Qed.
Next Obligation.
  intros c b buf (Hm & Hf) Hb Hbuf. simpl in *. unfold sim_op.
  replace ((b <? 0) || (Z.of_nat (length (sc_sectors c)) <=? b)) with false by lia.
  destruct (next_fault (sc_wfaults c)) as [[] fs]; simpl.
  - split_and!; try done. exists (default [] (sc_sectors c !! Z.to_nat b)). split; [|by right].
    intros d Hd. by destruct (decide (d = b)) as [->|].
  - rewrite length_insert. split_and!; try done; [by apply Forall_insert|]. exists buf. split; [|by left].
    intros d Hd. destruct (decide (d = b)) as [->|];
      [by rewrite list_lookup_insert_eq by lia | by rewrite list_lookup_insert_ne by lia].
Qed.
