(* ===== verification/Vnode.v ===== *)
(** * Vnodes ([kern/fs/vfs/vnode.c], [kern/include/vnode.h])

    The reference and open counts every file system shares.  A [struct vnode]
    is a [vnode] record; [O] is the type of the function tables.  What
    [vnode.c] calls through the table of a vnode is the class [VnodeOps], and
    where it finds the vnode a pointer names the class [VnodeStore]; a file
    system instantiates both.  The lock of the counts is a block of memory: acquiring and
    releasing it does nothing in this kernel ([synch.c]). *)

From S2P Require Import Prelude.
From S2P Require Import Array.
From S2P Require Import Own.
From S2P Require Import Thread.

Record lock := mkLock {
  lk_addr : Z;
  lk_name : Z;                  (* address of the copy of the name *)
}.

Definition SIZEOF_LOCK : Z := 4.

Section Locks.
Context {H : Type} `{!Allocator H}.

Definition lock_create (name : list Z) : M H (option lock) :=
  let* p := kmalloc SIZEOF_LOCK in
  if p =? 0 then ret None
  else
    let* (n, _) := kstrdup name in
    if n =? 0 then
      let* _ := kfree p in
      ret None
    else ret (Some (mkLock p n)).

Definition lock_destroy (lk : lock) : M H unit :=
  let* _ := kfree (lk_name lk) in
  kfree (lk_addr lk).
End Locks.

Definition lock_acquire {S} (lk : option lock) : M S unit := ret tt.
Definition lock_release {S} (lk : option lock) : M S unit := ret tt.
Definition lock_do_i_hold (lk : option lock) : Z := 1.

Record vnode (O : Type) := mkVnode {
  vn_refcount : Z;
  vn_opencount : Z;
  vn_countlock : option lock;
  vn_fs : Z;                    (* 0 is the null pointer *)
  vn_data : Z;
  vn_ops : option O;
}.
Arguments mkVnode {O} _ _ _ _ _ _.
Arguments vn_refcount {O} _.
Arguments vn_opencount {O} _.
Arguments vn_countlock {O} _.
Arguments vn_fs {O} _.
Arguments vn_data {O} _.
Arguments vn_ops {O} _.

Definition set_refcount {O} (z : Z) (v : vnode O) : vnode O :=
  mkVnode z (vn_opencount v) (vn_countlock v) (vn_fs v) (vn_data v) (vn_ops v).
Definition set_opencount {O} (z : Z) (v : vnode O) : vnode O :=
  mkVnode (vn_refcount v) z (vn_countlock v) (vn_fs v) (vn_data v) (vn_ops v).

Definition VOP_MAGIC : Z := 0xa2b3c4d5.
Definition DEADBEEF : Z := 0xdeadbeef.

(** "vnode-countlock" *)
Definition countlock_name : list Z :=
  [118; 110; 111; 100; 101; 45; 99; 111; 117; 110; 116; 108; 111; 99; 107].

Section Life.
Context {H : Type} `{!Allocator H} {O : Type}.

(** The fields of the new vnode; [vn_fs] and [vn_data] are only set on success. *)
Definition vnode_init (ops : O) (fs data : Z) : M H (Z * vnode O) :=
  let* lk := lock_create countlock_name in
  match lk with
  | None => ret (ENOMEM, mkVnode 1 0 None 0 0 (Some ops))
  | Some _ => ret (0, mkVnode 1 0 lk fs data (Some ops))
  end.

Definition vnode_kill (v : vnode O) : M H (vnode O) :=
  let* _ := kassert (vn_refcount v =? 1) in
  let* _ := kassert (vn_opencount v =? 0) in
  match vn_countlock v with
  | None => halt Panic
  | Some lk =>
      let* _ := lock_destroy lk in
      ret (mkVnode 0 0 None 0 0 None)
  end.
End Life.

(** The operations [vnode.c] calls. *)
Inductive vop := VopOpen | VopClose | VopReclaim | VopRead | VopWrite | VopIoctl | VopStat
  | VopGettype | VopTryseek | VopFsync | VopMmap | VopTruncate | VopNamefile | VopCreat
  | VopSymlink | VopMkdir | VopLink | VopRemove | VopRmdir | VopRename | VopReadlink
  | VopGetdirentry | VopLookup | VopLookparent.

#[global] Instance vop_eq_dec : EqDecision vop.
Proof. solve_decision. Defined.

Class VnodeStore (S O : Type) := {
  get_vnode : Z -> M S (vnode O);
  put_vnode : Z -> vnode O -> M S unit;
  vop_magic : O -> Z;
}.

Class VnodeOps (S : Type) := {
  vop_reclaim : Z -> M S Z;
  vop_close : Z -> M S Z;
}.

Section Counts.
Context {S O : Type} `{!VnodeStore S O}.

(** The checks on the vnode a pointer names; a pointer to no vnode is a fault
    that the tests for null and 0xdeadbeef catch for those two values. *)
Definition vnode_check (p : Z) (op : vop) : M S unit :=
  let* _ := kassert (negb (p =? 0)) in
  let* _ := kassert (negb (p =? DEADBEEF)) in
  let* v := get_vnode p in
  match vn_ops v with
  | None => halt Panic
  | Some ops =>
      let* _ := kassert (vop_magic ops =? VOP_MAGIC) in
      let* _ := kassert (negb (vn_fs v =? DEADBEEF)) in
      let* _ := lock_acquire (vn_countlock v) in
      let* _ := kassert (0 <=? vn_refcount v) in
      let* _ := kassert (negb ((vn_refcount v =? 0) && negb (bool_decide (op = VopReclaim)))) in
      let* _ := kassert (0 <=? vn_opencount v) in
      lock_release (vn_countlock v)
  end.

Definition vnode_incref (p : Z) : M S unit :=
  let* _ := kassert (negb (p =? 0)) in
  let* v := get_vnode p in
  let* _ := lock_acquire (vn_countlock v) in
  let* _ := put_vnode p (set_refcount (s32 (vn_refcount v + 1)) v) in
  lock_release (vn_countlock v).

(** An error other than [EBUSY] only makes a warning. *)
Definition vnode_decref `{!VnodeOps S} (p : Z) : M S unit :=
  let* _ := kassert (negb (p =? 0)) in
  let* v := get_vnode p in
  let* _ := lock_acquire (vn_countlock v) in
  let* _ := kassert (vn_refcount v >? 0) in
  let* actually_do_it :=
    (if vn_refcount v >? 1 then
       let* _ := put_vnode p (set_refcount (vn_refcount v - 1) v) in
       ret false
     else ret true) in
  let* _ := lock_release (vn_countlock v) in
  if actually_do_it then
    let* _ := vnode_check p VopReclaim in
    let* _ := vop_reclaim p in
    ret tt
  else ret tt.

Definition vnode_incopen (p : Z) : M S unit :=
  let* _ := kassert (negb (p =? 0)) in
  let* v := get_vnode p in
  let* _ := lock_acquire (vn_countlock v) in
  let* _ := put_vnode p (set_opencount (s32 (vn_opencount v + 1)) v) in
  lock_release (vn_countlock v).

Definition vnode_decopen `{!VnodeOps S} (p : Z) : M S unit :=
  let* _ := kassert (negb (p =? 0)) in
  let* v := get_vnode p in
  let* _ := lock_acquire (vn_countlock v) in
  let* _ := kassert (vn_opencount v >? 0) in
  let opencount := vn_opencount v - 1 in
  let* _ := put_vnode p (set_opencount opencount v) in
  let* _ := lock_release (vn_countlock v) in
  if opencount >? 0 then ret tt
  else
    let* _ := vnode_check p VopClose in
    let* _ := vop_close p in
    ret tt.
End Counts.

(** ** The memory of a vnode's lock *)

Definition lock_blocks (lk : option lock) : list Z :=
  match lk with Some lk => [lk_addr lk; lk_name lk] | None => [] end.

Section LifeProof.
Context {H : Type} `{AllocatorLaws H} {O : Type}.
Implicit Types (h : H) (l : list Z) (R : gset Z).

Lemma lock_create_own name h l R :
  owns h l R -> Z.of_nat (length name) < 1000 ->
  wpo oom_panics (lock_create name) h (fun lk h' =>
    (lk = None -> alloc_fails) /\ owns h' (lock_blocks lk ++ l) R).
Proof.
  intros Ho Hn. unfold lock_create. wp_step.
  eapply wp_mono; [apply wp_kmalloc_own; [exact Ho | unfold SIZEOF_LOCK, MAXALLOC; lia]|].
  intros p h1 [(-> & ? & ?)|(Hp & Ho1)]; [by wp_steps|].
  destruct (Z.eqb_spec p 0); [done|]. unfold kstrdup. wp_step. wp_step.
  eapply wp_mono; [apply wp_kmalloc_own; [exact Ho1 | unfold MAXALLOC; lia]|].
  intros z h2 [(-> & ? & Ho2)|(Hn0 & Ho2)]; wp_steps.
  - cbn [Z.eqb]. wp_step. eapply wp_mono; [by apply wp_kfree_own|]. intros [] h3 ?. by wp_steps.
  - destruct (Z.eqb_spec z 0); [done|]. wp_steps. split; [done|].
    eapply owns_move; [exact Ho2|]. simpl. constructor.
Qed.

Lemma lock_destroy_own lk h l R :
  owns h (lock_blocks (Some lk) ++ l) R ->
  wpo oom_panics (lock_destroy lk) h (fun _ h' => owns h' l R).
Proof.
  intros Ho. unfold lock_destroy. wp_step.
  eapply wp_mono; [apply (wp_kfree_own _ _ (lk_addr lk :: l)); eapply owns_move; [exact Ho|]; simpl; constructor|].
  intros [] h1 Ho1. by apply wp_kfree_own.
Qed.

Lemma vnode_init_own (ops : O) fs data h l R :
  owns h l R ->
  wpo oom_panics (vnode_init ops fs data) h (fun '(r, v) h' =>
    owns h' (lock_blocks (vn_countlock v) ++ l) R /\
    ((r = 0 /\ v = mkVnode 1 0 (vn_countlock v) fs data (Some ops) /\ vn_countlock v <> None) \/
     (r = ENOMEM /\ alloc_fails /\ vn_countlock v = None))).
Proof.
  intros Ho. unfold vnode_init. wp_step.
  eapply wp_mono; [apply lock_create_own; [exact Ho | simpl; lia]|].
  intros [lk|] h1 [Hf Ho1]; wp_steps; split; try done; [by left | right; auto].
Qed.

Lemma vnode_kill_own (v : vnode O) h l R :
  owns h (lock_blocks (vn_countlock v) ++ l) R ->
  vn_refcount v = 1 -> vn_opencount v = 0 -> vn_countlock v <> None ->
  wpo oom_panics (vnode_kill v) h (fun _ h' => owns h' l R).
Proof.
  intros Ho Hr Hc Hk. unfold vnode_kill. rewrite Hr, Hc. wp_step. wp_step. wp_step. wp_step.
  destruct (vn_countlock v) as [lk|]; [|done]. wp_step.
  eapply wp_mono; [by apply lock_destroy_own|]. intros [] h1 ?. by wp_steps.
Qed.
End LifeProof.
