(* ===== verification/Sfs.v ===== *)
(** * SFS: blocks, files and directories ([kern/fs/sfs/sfs_io.c], [sfs_vnode.c])

    The file system runs on a state [sfs]: the heap, the device, the fields of
    [struct sfs_fs] and the table of the [struct sfs_vnode]s in memory, indexed
    by their addresses.  An inode, a directory entry and the superblock are
    records; what goes to disk is their bytes, laid out as the C structures are.
    A [uio] is threaded through the calls that advance it.  The static buffers
    of the source are local: each is filled before it is used, and no call that
    would use the same one again is made in between. *)

From S2P Require Import Prelude.
From S2P Require Import Array.
From S2P Require Import Bitmap.
From S2P Require Import Bytes.
From S2P Require Import Cstring.
From S2P Require Import Copyinout.
From S2P Require Import Uio.
From S2P Require Import Blockdev.
From S2P Require Import Vnode.

(** ** On-disk structures ([kern/include/kern/sfs.h]) *)

Definition SFS_MAGIC : Z := 0xabadf001.
Definition SFS_BLOCKSIZE : Z := 512.
Definition SFS_VOLNAME_SIZE : Z := 32.
Definition SFS_NDIRECT : Z := 15.
Definition SFS_DBPERIDB : Z := 128.
Definition SFS_NAMELEN : Z := 60.
Definition SFS_SB_LOCATION : Z := 0.
Definition SFS_ROOT_LOCATION : Z := 1.
Definition SFS_MAP_LOCATION : Z := 2.
Definition SFS_NOINO : Z := 0.
Definition SFS_BLOCKBITS : Z := SFS_BLOCKSIZE * 8.
Definition SFS_TYPE_INVAL : Z := 0.
Definition SFS_TYPE_FILE : Z := 1.
Definition SFS_TYPE_DIR : Z := 2.

(** [SFS_ROUNDUP], [SFS_BITMAPSIZE] and [SFS_BITBLOCKS], on [u_int32_t]. *)
Definition SFS_ROUNDUP (a b : Z) : Z := u32 (u32 (a + b - 1) / b * b).
Definition SFS_BITMAPSIZE (nblocks : Z) : Z := SFS_ROUNDUP nblocks SFS_BLOCKBITS.
Definition SFS_BITBLOCKS (nblocks : Z) : Z := SFS_BITMAPSIZE nblocks / SFS_BLOCKBITS.

Record sfs_super := mkSuper {
  sp_magic : Z;
  sp_nblocks : Z;
  sp_volname : list Z;
  sp_reserved : list Z;
}.

Record sfs_inode := mkInode {
  sfi_size : Z;
  sfi_type : Z;
  sfi_linkcount : Z;
  sfi_direct : list Z;
  sfi_indirect : Z;
  sfi_waste : list Z;
}.

Record sfs_dir := mkDir {
  sfd_ino : Z;
  sfd_name : list Z;
}.

Definition SIZEOF_SFS_DIR : Z := 64.

(** The code writes and reads these structures as they lie in memory.  What follows
    is that representation, which the C has no function for: the fields in the
    order of their declaration, without padding, in the byte order of the
    machine, which is big-endian. *)
Definition super_bytes (s : sfs_super) : list Z :=
  be32 (sp_magic s) ++ be32 (sp_nblocks s) ++ sp_volname s ++ words_bytes (sp_reserved s).
Definition bytes_super (bs : list Z) : sfs_super :=
  mkSuper (un32 (slice bs 0 4)) (un32 (slice bs 4 4)) (slice bs 8 32) (bytes_words 118 (drop 40 bs)).

Definition inode_bytes (i : sfs_inode) : list Z :=
  be32 (sfi_size i) ++ be16 (sfi_type i) ++ be16 (sfi_linkcount i) ++
  words_bytes (sfi_direct i) ++ be32 (sfi_indirect i) ++ words_bytes (sfi_waste i).
Definition bytes_inode (bs : list Z) : sfs_inode :=
  mkInode (un32 (slice bs 0 4)) (un16 (slice bs 4 2)) (un16 (slice bs 6 2))
    (bytes_words 15 (drop 8 bs)) (un32 (slice bs 68 4)) (bytes_words 110 (drop 72 bs)).

Definition dir_bytes (d : sfs_dir) : list Z := be32 (sfd_ino d) ++ sfd_name d.
Definition bytes_dir (bs : list Z) : sfs_dir := mkDir (un32 (slice bs 0 4)) (slice bs 4 60).

(** ** In memory ([kern/include/sfs.h]) *)

(** The two function tables. *)
Inductive sfs_ops := sfs_fileops | sfs_dirops.

Record sfs_vnode := mkSv {
  sv_v : vnode sfs_ops;
  sv_i : sfs_inode;
  sv_ino : Z;
  sv_dirty : bool;
}.

Record sfs_fs := mkSfsFs {
  fs_addr : Z;
  fs_super : sfs_super;
  fs_superdirty : bool;
  fs_vnodes : array Z;
  fs_freemap : bitmap;
  fs_freemapdirty : bool;
}.

Definition SIZEOF_SFS_VNODE : Z := 544.
Definition SIZEOF_SFS_FS : Z := 552.

Definition set_size (z : Z) (i : sfs_inode) : sfs_inode :=
  mkInode z (sfi_type i) (sfi_linkcount i) (sfi_direct i) (sfi_indirect i) (sfi_waste i).
Definition set_type (z : Z) (i : sfs_inode) : sfs_inode :=
  mkInode (sfi_size i) z (sfi_linkcount i) (sfi_direct i) (sfi_indirect i) (sfi_waste i).
Definition set_linkcount (z : Z) (i : sfs_inode) : sfs_inode :=
  mkInode (sfi_size i) (sfi_type i) z (sfi_direct i) (sfi_indirect i) (sfi_waste i).
Definition set_direct (l : list Z) (i : sfs_inode) : sfs_inode :=
  mkInode (sfi_size i) (sfi_type i) (sfi_linkcount i) l (sfi_indirect i) (sfi_waste i).
Definition set_indirect (z : Z) (i : sfs_inode) : sfs_inode :=
  mkInode (sfi_size i) (sfi_type i) (sfi_linkcount i) (sfi_direct i) z (sfi_waste i).

(** Change the inode of a vnode and mark it dirty. *)
Definition dirty_inode (f : sfs_inode -> sfs_inode) (sv : sfs_vnode) : sfs_vnode :=
  mkSv (sv_v sv) (f (sv_i sv)) (sv_ino sv) true.
Definition set_dirty (b : bool) (sv : sfs_vnode) : sfs_vnode :=
  mkSv (sv_v sv) (sv_i sv) (sv_ino sv) b.
Definition set_inode (i : sfs_inode) (sv : sfs_vnode) : sfs_vnode :=
  mkSv (sv_v sv) i (sv_ino sv) (sv_dirty sv).
Definition set_sv_v (v : vnode sfs_ops) (sv : sfs_vnode) : sfs_vnode :=
  mkSv v (sv_i sv) (sv_ino sv) (sv_dirty sv).

Definition set_freemap (m : bitmap) (f : sfs_fs) : sfs_fs :=
  mkSfsFs (fs_addr f) (fs_super f) (fs_superdirty f) (fs_vnodes f) m (fs_freemapdirty f).
Definition set_freemapdirty (b : bool) (f : sfs_fs) : sfs_fs :=
  mkSfsFs (fs_addr f) (fs_super f) (fs_superdirty f) (fs_vnodes f) (fs_freemap f) b.
Definition set_superdirty (b : bool) (f : sfs_fs) : sfs_fs :=
  mkSfsFs (fs_addr f) (fs_super f) b (fs_vnodes f) (fs_freemap f) (fs_freemapdirty f).
Definition set_vnodes (a : array Z) (f : sfs_fs) : sfs_fs :=
  mkSfsFs (fs_addr f) (fs_super f) (fs_superdirty f) a (fs_freemap f) (fs_freemapdirty f).

Record sfs (H D : Type) := mkSfs {
  sx_heap : H;
  sx_dev : D;
  sx_fs : sfs_fs;
  sx_vn : gmap Z sfs_vnode;
}.
Arguments mkSfs {H D} _ _ _ _.
Arguments sx_heap {H D} _.
Arguments sx_dev {H D} _.
Arguments sx_fs {H D} _.
Arguments sx_vn {H D} _.

(** [curthread->t_vmspace], which [uiomove] checks a user transfer against. *)
Class CurSpace := cur_space : Z.

(** ** [sfs_io.c] *)

Section BlockIO.
Context {D : Type} {dev : BlockDev D} `{!CurSpace}.

(** [goto retry]: the first call and up to ten more. *)
Fixpoint rwblock_loop (fuel : nat) (tries : Z) (u : uio) : M D (Z * uio) :=
  match fuel with
  | O => halt OutOfFuel
  | S f =>
      let* (result, u) := d_io cur_space u in
      if result =? EINVAL then halt Panic
      else if result =? EIO then
        if tries =? 0 then rwblock_loop f (tries + 1) u
        else if tries <? 10 then rwblock_loop f (tries + 1) u
        else ret (result, u)
      else ret (result, u)
  end.

Definition RETRIES : nat := 11.

Definition sfs_rwblock (u : uio) : M D (Z * uio) := rwblock_loop RETRIES 0 u.

Definition SFSUIO (ptr : list Z) (block : Z) (rw : uio_dir) : uio :=
  mk_kuio ptr SFS_BLOCKSIZE (s32 (s32 block * SFS_BLOCKSIZE)) rw.

(** The error code, and the buffer after the call. *)
Definition sfs_rblock (data : list Z) (block : Z) : M D (Z * list Z) :=
  let* (result, u) := sfs_rwblock (SFSUIO data block UIO_READ) in
  ret (result, rg_bytes (iov_region u)).

Definition sfs_wblock (data : list Z) (block : Z) : M D Z :=
  let* (result, _) := sfs_rwblock (SFSUIO data block UIO_WRITE) in
  ret result.
End BlockIO.

Section Files.
Context {H D : Type} `{!Allocator H} {dev : BlockDev D} `{!CurSpace}.
Local Abbreviation S := (sfs H D).

Definition on_heap {A} (m : M H A) : M S A :=
  fun s => match m (sx_heap s) with
           | Ret (a, h) => Ret (a, mkSfs h (sx_dev s) (sx_fs s) (sx_vn s))
           | Stop w => Stop w
           end.

Definition on_dev {A} (m : M D A) : M S A :=
  fun s => match m (sx_dev s) with
           | Ret (a, d) => Ret (a, mkSfs (sx_heap s) d (sx_fs s) (sx_vn s))
           | Stop w => Stop w
           end.

Definition set_fs (f : sfs_fs) (s : S) : S := mkSfs (sx_heap s) (sx_dev s) f (sx_vn s).
Definition set_vn (v : gmap Z sfs_vnode) (s : S) : S := mkSfs (sx_heap s) (sx_dev s) (sx_fs s) v.
Definition modify_fs (f : sfs_fs -> sfs_fs) : M S unit := modify (fun s => set_fs (f (sx_fs s)) s).

(** A pointer to a vnode that is not in memory is a fault. *)
Definition get_sv (p : Z) : M S sfs_vnode :=
  fun s => match sx_vn s !! p with
           | Some sv => Ret (sv, s)
           | None => Stop Fault
           end.
Definition put_sv (p : Z) (sv : sfs_vnode) : M S unit := modify (fun s => set_vn (<[p := sv]> (sx_vn s)) s).
Definition modify_sv (p : Z) (f : sfs_vnode -> sfs_vnode) : M S unit :=
  let* sv := get_sv p in
  put_sv p (f sv).

(** A block of zeros: a static buffer, or what [bzero] leaves in one. *)
Definition zero_block : list Z := replicate (Z.to_nat SFS_BLOCKSIZE) 0.

(** ** [sfs_vnode.c]: blocks *)

Definition sfs_clearblock (block : Z) : M S Z := on_dev (sfs_wblock zero_block block).

Definition sfs_sync_inode (p : Z) : M S Z :=
  let* sv := get_sv p in
  if sv_dirty sv then
    let* result := on_dev (sfs_wblock (inode_bytes (sv_i sv)) (sv_ino sv)) in
    if negb (result =? 0) then ret result
    else
      let* _ := modify_sv p (set_dirty false) in
      ret 0
  else ret 0.

(** The error code and the block. *)
Definition sfs_balloc : M S (Z * Z) :=
  let* f := gets sx_fs in
  let* (result, diskblock, m) := lift (bitmap_alloc (fs_freemap f)) in
  let* _ := modify_fs (set_freemap m) in
  if negb (result =? 0) then ret (result, diskblock)
  else
    let* _ := modify_fs (set_freemapdirty true) in
    let* _ := kassert (negb (diskblock >=? sp_nblocks (fs_super f))) in
    let* result := sfs_clearblock diskblock in
    ret (result, diskblock).

Definition sfs_bfree (diskblock : Z) : M S unit :=
  let* f := gets sx_fs in
  let* m := lift (bitmap_unmark (fs_freemap f) diskblock) in
  let* _ := modify_fs (set_freemap m) in
  modify_fs (set_freemapdirty true).

Definition sfs_bused (diskblock : Z) : M S bool :=
  let* f := gets sx_fs in
  let* _ := kassert (negb (diskblock >=? sp_nblocks (fs_super f))) in
  let* r := lift (bitmap_isset (fs_freemap f) diskblock) in
  ret (negb (r =? 0)).

(** The last lines of [sfs_bmap]: panic if the block is marked free, hand it
    back otherwise. *)
Definition bmap_done (block : Z) : M S (Z * Z) :=
  if negb (block =? 0) then
    let* used := sfs_bused block in
    let* _ := kassert used in
    ret (0, block)
  else ret (0, block).

(** The part of [sfs_bmap] that looks into the loaded indirect block. *)
Definition bmap_indirect (idblock idoff : Z) (doalloc : bool) (idbuf : list Z) : M S (Z * Z) :=
  let* block := lift (rd idbuf idoff) in
  if (block =? 0) && doalloc then
    let* (result, block) := sfs_balloc in
    if negb (result =? 0) then ret (result, 0)
    else
      let* idbuf := lift (wr idbuf idoff block) in
      let* result := on_dev (sfs_wblock (words_bytes idbuf) idblock) in
      if negb (result =? 0) then ret (result, 0)
      else bmap_done block
  else bmap_done block.

(** The error code and [*diskblock]. *)
Definition sfs_bmap (p : Z) (fileblock : Z) (doalloc : bool) : M S (Z * Z) :=
  let* sv := get_sv p in
  if fileblock <? SFS_NDIRECT then
    let* block := lift (rd (sfi_direct (sv_i sv)) fileblock) in
    if (block =? 0) && doalloc then
      let* (result, block) := sfs_balloc in
      if negb (result =? 0) then ret (result, 0)
      else
        let* direct := lift (wr (sfi_direct (sv_i sv)) fileblock block) in
        let* _ := modify_sv p (dirty_inode (set_direct direct)) in
        bmap_done block
    else bmap_done block
  else
    let fileblock := fileblock - SFS_NDIRECT in
    let idnum := fileblock / SFS_DBPERIDB in
    let idoff := fileblock mod SFS_DBPERIDB in
    if idnum >? 0 then ret (EINVAL, 0)
    else
      let idblock := sfi_indirect (sv_i sv) in
      if (idblock =? 0) && negb doalloc then ret (0, 0)
      else if idblock =? 0 then
        let* (result, idblock) := sfs_balloc in
        if negb (result =? 0) then ret (result, 0)
        else
          let* _ := modify_sv p (dirty_inode (set_indirect idblock)) in
          bmap_indirect idblock idoff doalloc (replicate (Z.to_nat SFS_DBPERIDB) 0)
      else
        let* (result, bs) := on_dev (sfs_rblock zero_block idblock) in
        if negb (result =? 0) then ret (result, 0)
        else bmap_indirect idblock idoff doalloc (bytes_words (Z.to_nat SFS_DBPERIDB) bs).

(** ** File-level I/O *)

Definition sfs_partialio (p : Z) (u : uio) (skipstart len : Z) : M S (Z * uio) :=
  let doalloc := is_write u in
  let* _ := kassert (u32 (skipstart + len) <=? SFS_BLOCKSIZE) in
  let fileblock := u32 (Z.quot (uio_offset u) SFS_BLOCKSIZE) in
  let* (result, diskblock) := sfs_bmap p fileblock doalloc in
  if negb (result =? 0) then ret (result, u)
  else
    let* (result, iobuf) :=
      (if diskblock =? 0 then
         let* _ := kassert (is_read u) in
         ret (0, zero_block)
       else on_dev (sfs_rblock zero_block diskblock)) in
    if negb (result =? 0) then ret (result, u)
    else
      let* (result, iobuf, u) := lift (uiomove cur_space iobuf skipstart len u) in
      if negb (result =? 0) then ret (result, u)
      else if is_write u then
        let* result := on_dev (sfs_wblock iobuf diskblock) in
        if negb (result =? 0) then ret (result, u) else ret (0, u)
      else ret (0, u).

Definition sfs_blockio (p : Z) (u : uio) : M S (Z * uio) :=
  let doalloc := is_write u in
  let fileblock := u32 (Z.quot (uio_offset u) SFS_BLOCKSIZE) in
  let* (result, diskblock) := sfs_bmap p fileblock doalloc in
  if negb (result =? 0) then ret (result, u)
  else if diskblock =? 0 then
    let* _ := kassert (is_read u) in
    lift (uiomovezeros cur_space SFS_BLOCKSIZE u)
  else
    let saveoff := uio_offset u in
    let diskoff := s32 (diskblock * SFS_BLOCKSIZE) in
    let u := set_offset diskoff u in
    let* _ := kassert (uio_resid u >=? SFS_BLOCKSIZE) in
    let saveres := s32 (uio_resid u) in
    let diskres := SFS_BLOCKSIZE in
    let u := set_resid diskres u in
    let* (result, u) := on_dev (sfs_rwblock u) in
    let u := set_offset (s32 (s32 (uio_offset u - diskoff) + saveoff)) u in
    let u := set_resid (u32 (u32 (uio_resid u - diskres) + saveres)) u in
    ret (result, u).

(** [for (i=0; i<nblocks; i++)]. *)
Fixpoint io_blocks (nblocks : nat) (p : Z) (u : uio) : M S (Z * uio) :=
  match nblocks with
  | O => ret (0, u)
  | Datatypes.S n =>
      let* (result, u) := sfs_blockio p u in
      if negb (result =? 0) then ret (result, u) else io_blocks n p u
  end.

(** The whole blocks and the partial block at the end. *)
Definition io_aligned (p : Z) (u : uio) : M S (Z * uio) :=
  let* _ := kassert (Z.rem (uio_offset u) SFS_BLOCKSIZE =? 0) in
  let nblocks := uio_resid u / SFS_BLOCKSIZE in
  let* (result, u) := io_blocks (Z.to_nat nblocks) p u in
  if negb (result =? 0) then ret (result, u)
  else
    let* _ := kassert (uio_resid u <? SFS_BLOCKSIZE) in
    if uio_resid u >? 0 then sfs_partialio p u 0 (uio_resid u)
    else ret (result, u).

(** [sfs_io] between the check for EOF and the label [out]. *)
Definition io_body (p : Z) (u : uio) : M S (Z * uio) :=
  let blkoff := u32 (Z.rem (uio_offset u) SFS_BLOCKSIZE) in
  let* (result, u) :=
    (if negb (blkoff =? 0) then
       let skip := blkoff in
       let len := u32 (SFS_BLOCKSIZE - blkoff) in
       let len := if len >? uio_resid u then uio_resid u else len in
       sfs_partialio p u skip len
     else ret (0, u)) in
  if negb (result =? 0) then ret (result, u)
  else if uio_resid u =? 0 then ret (result, u)
  else io_aligned p u.

(** From [out] on. *)
Definition io_out (p : Z) (extraresid result : Z) (u : uio) : M S (Z * uio) :=
  let* sv := get_sv p in
  let* _ := (if is_write u && (uio_offset u >? s32 (sfi_size (sv_i sv)))
             then modify_sv p (dirty_inode (set_size (u32 (uio_offset u))))
             else ret tt) in
  ret (result, set_resid (u32 (uio_resid u + extraresid)) u).

Definition sfs_io (p : Z) (u : uio) : M S (Z * uio) :=
  let* sv := get_sv p in
  let size := s32 (sfi_size (sv_i sv)) in
  let endpos := s32 (uio_offset u + uio_resid u) in
  if is_read u && (uio_offset u >=? size) then ret (0, u)
  else
    let extraresid := if is_read u && (endpos >? size) then u32 (endpos - size) else 0 in
    let* _ := (if is_read u && (endpos >? size) then kassert (uio_resid u >? extraresid) else ret tt) in
    let u := set_resid (u32 (uio_resid u - extraresid)) u in
    let* (result, u) := io_body p u in
    io_out p extraresid result u.

(** ** Directories *)

(** The error code and the entry read. *)
Definition sfs_readdir (p slot : Z) : M S (Z * sfs_dir) :=
  let actualpos := s32 (slot * SIZEOF_SFS_DIR) in
  let buf := replicate (Z.to_nat SIZEOF_SFS_DIR) 0 in
  let* (result, ku) := sfs_io p (mk_kuio buf SIZEOF_SFS_DIR actualpos UIO_READ) in
  let sd := bytes_dir (rg_bytes (iov_region ku)) in
  if negb (result =? 0) then ret (result, sd)
  else
    let* _ := kassert (negb (uio_resid ku >? 0)) in
    ret (0, sd).

Definition sfs_writedir (p : Z) (sd : sfs_dir) (slot : Z) : M S Z :=
  let* _ := kassert (slot >=? 0) in
  let actualpos := s32 (slot * SIZEOF_SFS_DIR) in
  let* (result, ku) := sfs_io p (mk_kuio (dir_bytes sd) SIZEOF_SFS_DIR actualpos UIO_WRITE) in
  if negb (result =? 0) then ret result
  else
    let* _ := kassert (negb (uio_resid ku >? 0)) in
    ret 0.

Definition sfs_dir_nentries (p : Z) : M S Z :=
  let* sv := get_sv p in
  let* _ := kassert (sfi_type (sv_i sv) =? SFS_TYPE_DIR) in
  let size := sfi_size (sv_i sv) in
  let* _ := kassert (size mod SIZEOF_SFS_DIR =? 0) in
  ret (s32 (size / SIZEOF_SFS_DIR)).

(** What [sfs_dir_findname] has stored through its pointer arguments. *)
Record findname := mkFind {
  fn_ino : option Z;
  fn_slot : option Z;
  fn_emptyslot : option Z;
}.

(** The loop over the slots, from the [i]th on. *)
Fixpoint findname_loop (n : nat) (p : Z) (name : list Z) (i : Z) (found : bool) (fn : findname) :
    M S (Z * findname) :=
  match n with
  | O => ret (if found then 0 else ENOENT, fn)
  | Datatypes.S n' =>
      let* (result, tsd) := sfs_readdir p i in
      if negb (result =? 0) then ret (result, fn)
      else if sfd_ino tsd =? SFS_NOINO then
        findname_loop n' p name (i + 1) found (mkFind (fn_ino fn) (fn_slot fn) (Some i))
      else
        let* tname := lift (wr (sfd_name tsd) (SFS_NAMELEN - 1) 0) in
        let* c := lift (strcmp tname name) in
        if c =? 0 then
          let* _ := kassert (negb found) in
          findname_loop n' p name (i + 1) true (mkFind (Some (sfd_ino tsd)) (Some i) (fn_emptyslot fn))
        else findname_loop n' p name (i + 1) found fn
  end.

Definition sfs_dir_findname (p : Z) (name : list Z) : M S (Z * findname) :=
  let* nentries := sfs_dir_nentries p in
  findname_loop (Z.to_nat nentries) p name 0 false (mkFind None None None).

(** The error code and the slot used. *)
Definition sfs_dir_link (p : Z) (name : list Z) (ino : Z) : M S (Z * Z) :=
  let* (result, fn) := sfs_dir_findname p name in
  if negb (result =? 0) && negb (result =? ENOENT) then ret (result, -1)
  else if result =? 0 then ret (EEXIST, -1)
  else
    let emptyslot := default (-1) (fn_emptyslot fn) in
    let* len := lift (strlen name) in
    if len + 1 >? SFS_NAMELEN then ret (ENAMETOOLONG, -1)
    else
      let* emptyslot := (if emptyslot <? 0 then sfs_dir_nentries p else ret emptyslot) in
      let* sname := lift (strcpy (replicate (Z.to_nat SFS_NAMELEN) 0) name) in
      let* result := sfs_writedir p (mkDir ino sname) emptyslot in
      ret (result, emptyslot).

Definition sfs_dir_unlink (p slot : Z) : M S Z :=
  sfs_writedir p (mkDir SFS_NOINO (replicate (Z.to_nat SFS_NAMELEN) 0)) slot.
End Files.
