(* ===== verification/SfsOps.v ===== *)
(** * SFS: vnode and file system operations ([sfs_vnode.c], [sfs_fs.c])

    The operations of the two function tables, the table of loaded vnodes, and
    mounting, syncing and unmounting.  A vnode operation takes the address of
    the [struct sfs_vnode], which is also that of the [struct vnode] in it;
    [*ret] is part of the answer. *)

From S2P Require Import Prelude.
From S2P Require Import Array.
From S2P Require Import Bitmap.
From S2P Require Import Bytes.
From S2P Require Import Cstring.
From S2P Require Import Copyinout.
From S2P Require Import Uio.
From S2P Require Import Blockdev.
From S2P Require Import Vnode.
From S2P Require Import Sfs.

Definition O_RDONLY : Z := 0.
Definition O_APPEND : Z := 32.
Definition O_ACCMODE : Z := 3.
Definition S_IFREG : Z := 4096.          (* 010000 *)
Definition S_IFDIR : Z := 8192.          (* 020000 *)

Record stat := mkStat {
  st_mode : Z;
  st_nlink : Z;
  st_size : Z;
  st_blocks : Z;
}.

Section Ops.
Context {H D : Type} `{!Allocator H} {dev : BlockDev D} `{!CurSpace}.
Local Abbreviation S := (sfs H D).

#[export] Instance sfs_vnodestore : VnodeStore S sfs_ops := {
  get_vnode p := let* sv := get_sv p in ret (sv_v sv);
  put_vnode p v := modify_sv p (set_sv_v v);
  vop_magic _ := VOP_MAGIC;
}.

(** ** Loading *)

(** [array_getguy(sfs->sfs_vnodes, i)]; a cell nobody wrote is no pointer. *)
Definition sfs_guy (i : Z) : M S Z :=
  let* f := gets sx_fs in
  let* c := lift (array_getguy (fs_vnodes f) i) in
  match c with
  | Some p => ret p
  | None => halt Fault
  end.

(** The search of the table; an answer is the vnode that was found. *)
Fixpoint find_loaded (n : nat) (ino forcetype i : Z) : M S (option Z) :=
  match n with
  | O => ret None
  | Datatypes.S n' =>
      let* p := sfs_guy i in
      let* sv := get_sv p in
      let* used := sfs_bused (sv_ino sv) in
      let* _ := kassert used in
      if sv_ino sv =? ino then
        let* _ := kassert (forcetype =? SFS_TYPE_INVAL) in
        let* _ := vnode_incref p in
        ret (Some p)
      else find_loaded n' ino forcetype (i + 1)
  end.

(** The rest of [sfs_loadvnode], for an inode that is not in memory. *)
Definition load_new (ino forcetype : Z) : M S (Z * Z) :=
  let* p := on_heap (kmalloc SIZEOF_SFS_VNODE) in
  if p =? 0 then ret (ENOMEM, 0)
  else
    let* used := sfs_bused ino in
    let* _ := kassert used in
    let* (result, bs) := on_dev (sfs_rblock zero_block ino) in
    if negb (result =? 0) then
      let* _ := on_heap (kfree p) in
      ret (result, 0)
    else
      let i := bytes_inode bs in
      let* _ := (if negb (forcetype =? SFS_TYPE_INVAL) then kassert (sfi_type i =? SFS_TYPE_INVAL)
                 else ret tt) in
      let dirty := negb (forcetype =? SFS_TYPE_INVAL) in
      let i := if dirty then set_type forcetype i else i in
      let* ops := (if sfi_type i =? SFS_TYPE_FILE then ret sfs_fileops
                   else if sfi_type i =? SFS_TYPE_DIR then ret sfs_dirops
                   else halt Panic) in
      let* f := gets sx_fs in
      let* (result, v) := on_heap (vnode_init ops (fs_addr f) p) in
      if negb (result =? 0) then
        let* _ := on_heap (kfree p) in
        ret (result, 0)
      else
        let* (result, a) := on_heap (array_add (fs_vnodes f) p) in
        let* _ := modify_fs (set_vnodes a) in
        if negb (result =? 0) then
          let* _ := on_heap (vnode_kill v) in
          let* _ := on_heap (kfree p) in
          ret (result, 0)
        else
          let* _ := put_sv p (mkSv v i ino dirty) in
          ret (0, p).

Definition sfs_loadvnode (ino forcetype : Z) : M S (Z * Z) :=
  let* f := gets sx_fs in
  let num := array_getnum (fs_vnodes f) in
  let* o := find_loaded (Z.to_nat num) ino forcetype 0 in
  match o with
  | Some p => ret (0, p)
  | None => load_new ino forcetype
  end.

(** The error code, the vnode and the slot. *)
Definition sfs_lookonce (p : Z) (name : list Z) : M S (Z * Z * Z) :=
  let* (result, fn) := sfs_dir_findname p name in
  if negb (result =? 0) then ret (result, 0, 0)
  else
    let* (result, q) := sfs_loadvnode (default 0 (fn_ino fn)) SFS_TYPE_INVAL in
    if negb (result =? 0) then ret (result, 0, 0)
    else
      let* sv := get_sv q in
      let* _ := kassert (negb (sfi_linkcount (sv_i sv) =? 0)) in
      ret (0, q, default 0 (fn_slot fn)).

Definition sfs_makeobj (type : Z) : M S (Z * Z) :=
  let* (result, ino) := sfs_balloc in
  if negb (result =? 0) then ret (result, 0)
  else sfs_loadvnode ino type.

(** ** Truncation *)

(** The loop over the direct blocks, from the [i]th on. *)
Fixpoint truncate_direct (n : nat) (p i blocklen : Z) : M S unit :=
  match n with
  | O => ret tt
  | Datatypes.S n' =>
      let* sv := get_sv p in
      let* block := lift (rd (sfi_direct (sv_i sv)) i) in
      let* _ := (if (i >=? blocklen) && negb (block =? 0) then
                   let* _ := sfs_bfree block in
                   let* direct := lift (wr (sfi_direct (sv_i sv)) i 0) in
                   modify_sv p (dirty_inode (set_direct direct))
                 else ret tt) in
      truncate_direct n' p (i + 1) blocklen
  end.

(** The loop over the indirect block; the answer is [idbuf], [hasnonzero] and
    [iddirty]. *)
Fixpoint truncate_indirect (n : nat) (j blocklen : Z) (idbuf : list Z) (hasnonzero iddirty : bool) :
    M S (list Z * bool * bool) :=
  match n with
  | O => ret (idbuf, hasnonzero, iddirty)
  | Datatypes.S n' =>
      let* block := lift (rd idbuf j) in
      let* (idbuf, iddirty) :=
        (if (blocklen <? SFS_NDIRECT + j) && negb (block =? 0) then
           let* _ := sfs_bfree block in
           let* idbuf := lift (wr idbuf j 0) in
           ret (idbuf, true)
         else ret (idbuf, iddirty)) in
      let* block := lift (rd idbuf j) in
      truncate_indirect n' (j + 1) blocklen idbuf (hasnonzero || negb (block =? 0)) iddirty
  end.

(** The indirect block of [sfs_truncate]. *)
Definition truncate_idblock (p blocklen : Z) : M S Z :=
  let* sv := get_sv p in
  let idblock := sfi_indirect (sv_i sv) in
  let highblock := SFS_NDIRECT + SFS_DBPERIDB - 1 in
  if (blocklen <? highblock) && negb (idblock =? 0) then
    let* (result, bs) := on_dev (sfs_rblock zero_block idblock) in
    if negb (result =? 0) then ret result
    else
      let* (idbuf, hasnonzero, iddirty) :=
        truncate_indirect (Z.to_nat SFS_DBPERIDB) 0 blocklen
          (bytes_words (Z.to_nat SFS_DBPERIDB) bs) false false in
      if negb hasnonzero then
        let* _ := sfs_bfree idblock in
        let* _ := modify_sv p (dirty_inode (set_indirect 0)) in
        ret 0
      else if iddirty then on_dev (sfs_wblock (words_bytes idbuf) idblock)
      else ret 0
  else ret 0.

Definition sfs_truncate (p len : Z) : M S Z :=
  let blocklen := u32 (Z.quot (s32 (s32 (len + SFS_BLOCKSIZE) - 1)) SFS_BLOCKSIZE) in
  let* _ := truncate_direct (Z.to_nat SFS_NDIRECT) p 0 blocklen in
  let* result := truncate_idblock p blocklen in
  if negb (result =? 0) then ret result
  else
    let* _ := modify_sv p (dirty_inode (set_size (u32 len))) in
    ret 0.

(** The entry [vop_truncate] of the two tables. *)
Definition VOP_TRUNCATE (p len : Z) : M S Z :=
  let* _ := vnode_check p VopTruncate in
  let* v := get_vnode p in
  match vn_ops v with
  | Some sfs_fileops => sfs_truncate p len
  | Some sfs_dirops => ret EISDIR
  | None => halt Fault
  end.

(** ** Closing and reclaiming *)

Definition sfs_fsync (p : Z) : M S Z := sfs_sync_inode p.

Definition VOP_FSYNC (p : Z) : M S Z :=
  let* _ := vnode_check p VopFsync in
  sfs_fsync p.

Definition sfs_close (p : Z) : M S Z := VOP_FSYNC p.

(** The search for the vnode in the table. *)
Fixpoint find_index (n : nat) (p i : Z) : M S Z :=
  match n with
  | O => ret (-1)
  | Datatypes.S n' =>
      let* q := sfs_guy i in
      if q =? p then ret i else find_index n' p (i + 1)
  end.

Definition sfs_reclaim (p : Z) : M S Z :=
  let* sv := get_sv p in
  let v := sv_v sv in
  let* _ := lock_acquire (vn_countlock v) in
  if negb (vn_refcount v =? 1) then
    let* _ := kassert (vn_refcount v >? 1) in
    let* _ := put_vnode p (set_refcount (vn_refcount v - 1) v) in
    let* _ := lock_release (vn_countlock v) in
    ret EBUSY
  else
    let* _ := lock_release (vn_countlock v) in
    let* result := (if sfi_linkcount (sv_i sv) =? 0 then VOP_TRUNCATE p 0 else ret 0) in
    if negb (result =? 0) then ret result
    else
      let* result := sfs_sync_inode p in
      if negb (result =? 0) then ret result
      else
        let* sv := get_sv p in
        let* _ := (if sfi_linkcount (sv_i sv) =? 0 then sfs_bfree (sv_ino sv) else ret tt) in
        let* f := gets sx_fs in
        let* ix := find_index (Z.to_nat (array_getnum (fs_vnodes f))) p 0 in
        let* _ := kassert (negb (ix <? 0)) in
        let* a := lift (array_remove (fs_vnodes f) ix) in
        let* _ := modify_fs (set_vnodes a) in
        let* _ := on_heap (vnode_kill (sv_v sv)) in
        let* _ := on_heap (kfree p) in
        let* _ := modify (fun s => set_vn (delete p (sx_vn s)) s) in
        ret 0.

(** [VOP_RECLAIM] and [VOP_CLOSE] of both tables. *)
#[export] Instance sfs_vnodeops : VnodeOps S := {
  vop_reclaim := sfs_reclaim;
  vop_close := sfs_close;
}.

(** ** The other vnode operations *)

Definition sfs_open (p openflags : Z) : M S Z :=
  if negb (Z.land openflags O_APPEND =? 0) then ret EUNIMP else ret 0.

Definition sfs_opendir (p openflags : Z) : M S Z :=
  if negb (Z.land openflags O_ACCMODE =? O_RDONLY) then ret EISDIR
  else if negb (Z.land openflags O_APPEND =? 0) then ret EISDIR
  else ret 0.

Definition sfs_read (p : Z) (u : uio) : M S (Z * uio) :=
  let* _ := kassert (is_read u) in
  sfs_io p u.

Definition sfs_write (p : Z) (u : uio) : M S (Z * uio) :=
  let* _ := kassert (is_write u) in
  sfs_io p u.

Definition sfs_ioctl (p op data : Z) : M S Z := ret EINVAL.

Definition sfs_gettype (p : Z) : M S (Z * Z) :=
  let* sv := get_sv p in
  if sfi_type (sv_i sv) =? SFS_TYPE_FILE then ret (0, S_IFREG)
  else if sfi_type (sv_i sv) =? SFS_TYPE_DIR then ret (0, S_IFDIR)
  else halt Panic.

Definition sfs_stat (p : Z) : M S (Z * stat) :=
  let* _ := vnode_check p VopGettype in
  let* (result, mode) := sfs_gettype p in
  if negb (result =? 0) then ret (result, mkStat mode 0 0 0)
  else
    let* sv := get_sv p in
    ret (0, mkStat mode 0 (s32 (sfi_size (sv_i sv))) 0).

Definition sfs_tryseek (p pos : Z) : M S Z := if pos <? 0 then ret EINVAL else ret 0.

Definition sfs_mmap (p : Z) : M S Z := ret EUNIMP.

Definition sfs_namefile (p : Z) (u : uio) : M S (Z * uio) :=
  let* sv := get_sv p in
  let* _ := kassert (sv_ino sv =? SFS_ROOT_LOCATION) in
  ret (0, u).

(** The error code and the vnode. *)
Definition sfs_creat (p : Z) (name : list Z) (excl : bool) : M S (Z * Z) :=
  let* (result, fn) := sfs_dir_findname p name in
  if negb (result =? 0) && negb (result =? ENOENT) then ret (result, 0)
  else if (result =? 0) && excl then ret (EEXIST, 0)
  else if result =? 0 then
    let* (result, q) := sfs_loadvnode (default 0 (fn_ino fn)) SFS_TYPE_INVAL in
    if negb (result =? 0) then ret (result, 0) else ret (0, q)
  else
    let* (result, q) := sfs_makeobj SFS_TYPE_FILE in
    if negb (result =? 0) then ret (result, 0)
    else
      let* g := get_sv q in
      let* (result, _) := sfs_dir_link p name (sv_ino g) in
      if negb (result =? 0) then
        let* _ := vnode_decref q in
        ret (result, 0)
      else
        let* _ := modify_sv q (dirty_inode (fun i => set_linkcount (u16 (sfi_linkcount i + 1)) i)) in
        ret (0, q).

Definition sfs_link (dir : Z) (name : list Z) (file : Z) : M S Z :=
  let* d := get_sv dir in
  let* f := get_sv file in
  let* _ := kassert (vn_fs (sv_v f) =? vn_fs (sv_v d)) in
  let* (result, _) := sfs_dir_link dir name (sv_ino f) in
  if negb (result =? 0) then ret result
  else
    let* _ := modify_sv file (dirty_inode (fun i => set_linkcount (u16 (sfi_linkcount i + 1)) i)) in
    ret 0.

Definition sfs_remove (dir : Z) (name : list Z) : M S Z :=
  let* (result, victim, slot) := sfs_lookonce dir name in
  if negb (result =? 0) then ret result
  else
    let* result := sfs_dir_unlink dir slot in
    let* _ := (if result =? 0 then
                 let* sv := get_sv victim in
                 let* _ := kassert (sfi_linkcount (sv_i sv) >? 0) in
                 modify_sv victim (dirty_inode (fun i => set_linkcount (u16 (sfi_linkcount i - 1)) i))
               else ret tt) in
    let* _ := vnode_decref victim in
    ret result.

(** The label [puke]. *)
Definition rename_puke (g1 result : Z) : M S Z :=
  let* _ := vnode_decref g1 in
  ret result.

Definition sfs_rename (d1 : Z) (n1 : list Z) (d2 : Z) (n2 : list Z) : M S Z :=
  let* _ := kassert (d1 =? d2) in
  let* sv := get_sv d1 in
  let* _ := kassert (sv_ino sv =? SFS_ROOT_LOCATION) in
  let* (result, g1, slot1) := sfs_lookonce d1 n1 in
  if negb (result =? 0) then ret result
  else
    let* g := get_sv g1 in
    let* _ := kassert (sfi_type (sv_i g) =? SFS_TYPE_FILE) in
    let* (result, slot2) := sfs_dir_link d1 n2 (sv_ino g) in
    if negb (result =? 0) then rename_puke g1 result
    else
      let* _ := modify_sv g1 (dirty_inode (fun i => set_linkcount (u16 (sfi_linkcount i + 1)) i)) in
      let* result := sfs_dir_unlink d1 slot1 in
      if negb (result =? 0) then
        let* result2 := sfs_dir_unlink d1 slot2 in
        let* _ := kassert (result2 =? 0) in
        let* _ := modify_sv g1 (fun g => set_inode (set_linkcount (u16 (sfi_linkcount (sv_i g) - 1)) (sv_i g)) g) in
        rename_puke g1 result
      else
        let* g := get_sv g1 in
        let* _ := kassert (sfi_linkcount (sv_i g) >? 0) in
        let* _ := modify_sv g1 (dirty_inode (fun i => set_linkcount (u16 (sfi_linkcount i - 1)) i)) in
        let* _ := vnode_decref g1 in
        ret 0.

(** The error code, the directory and the buffer. *)
Definition sfs_lookparent (p : Z) (path buf : list Z) (buflen : Z) : M S (Z * Z * list Z) :=
  let* sv := get_sv p in
  if negb (sfi_type (sv_i sv) =? SFS_TYPE_DIR) then ret (ENOTDIR, 0, buf)
  else
    let* len := lift (strlen path) in
    if len + 1 >? buflen then ret (ENAMETOOLONG, 0, buf)
    else
      let* buf := lift (strcpy buf path) in
      let* _ := vnode_incref p in
      ret (0, p, buf).

Definition sfs_lookup (p : Z) (path : list Z) : M S (Z * Z) :=
  let* sv := get_sv p in
  if negb (sfi_type (sv_i sv) =? SFS_TYPE_DIR) then ret (ENOTDIR, 0)
  else
    let* (result, final, _) := sfs_lookonce p path in
    if negb (result =? 0) then ret (result, 0) else ret (0, final).

Definition sfs_notdir : Z := ENOTDIR.
Definition sfs_isdir : Z := EISDIR.
Definition sfs_unimp : Z := EUNIMP.

(** The function tables: what an operation of a vnode is. *)
Inductive request :=
| ReqOpen (flags : Z) | ReqRead (u : uio) | ReqWrite (u : uio) | ReqIoctl (op data : Z) | ReqStat
| ReqGettype | ReqTryseek (pos : Z) | ReqFsync | ReqMmap | ReqTruncate (len : Z) | ReqNamefile (u : uio)
| ReqCreat (name : list Z) (excl : bool) | ReqSymlink (name contents : list Z) | ReqMkdir (name : list Z)
| ReqLink (name : list Z) (file : Z) | ReqRemove (name : list Z) | ReqRmdir (name : list Z)
| ReqRename (n1 : list Z) (d2 : Z) (n2 : list Z) | ReqLookup (path : list Z)
| ReqLookparent (path buf : list Z) (buflen : Z) | ReqReadlink (u : uio) | ReqGetdirentry (u : uio).

(** The answer: the error code and what the operation hands back. *)
Inductive answer :=
| AnsCode (r : Z) | AnsUio (r : Z) (u : uio) | AnsVnode (r p : Z) | AnsStat (r : Z) (st : stat)
| AnsMode (r m : Z) | AnsName (r p : Z) (buf : list Z).

Definition ans {A} (f : A -> answer) (m : M S A) : M S answer := let* a := m in ret (f a).

Definition sfs_fileops_table (p : Z) (q : request) : M S answer :=
  match q with
  | ReqOpen fl => ans AnsCode (sfs_open p fl)
  | ReqRead u => ans (fun '(r, u) => AnsUio r u) (sfs_read p u)
  | ReqWrite u => ans (fun '(r, u) => AnsUio r u) (sfs_write p u)
  | ReqIoctl op data => ans AnsCode (sfs_ioctl p op data)
  | ReqStat => ans (fun '(r, st) => AnsStat r st) (sfs_stat p)
  | ReqGettype => ans (fun '(r, m) => AnsMode r m) (sfs_gettype p)
  | ReqTryseek pos => ans AnsCode (sfs_tryseek p pos)
  | ReqFsync => ans AnsCode (sfs_fsync p)
  | ReqMmap => ans AnsCode (sfs_mmap p)
  | ReqTruncate len => ans AnsCode (sfs_truncate p len)
  | _ => ret (AnsCode sfs_notdir)
  end.

Definition sfs_dirops_table (p : Z) (q : request) : M S answer :=
  match q with
  | ReqOpen fl => ans AnsCode (sfs_opendir p fl)
  | ReqIoctl op data => ans AnsCode (sfs_ioctl p op data)
  | ReqStat => ans (fun '(r, st) => AnsStat r st) (sfs_stat p)
  | ReqGettype => ans (fun '(r, m) => AnsMode r m) (sfs_gettype p)
  | ReqFsync => ans AnsCode (sfs_fsync p)
  | ReqNamefile u => ans (fun '(r, u) => AnsUio r u) (sfs_namefile p u)
  | ReqCreat name excl => ans (fun '(r, q) => AnsVnode r q) (sfs_creat p name excl)
  | ReqLink name file => ans AnsCode (sfs_link p name file)
  | ReqRemove name => ans AnsCode (sfs_remove p name)
  | ReqRename n1 d2 n2 => ans AnsCode (sfs_rename p n1 d2 n2)
  | ReqLookup path => ans (fun '(r, q) => AnsVnode r q) (sfs_lookup p path)
  | ReqLookparent path buf len =>
      ans (fun '(r, q, buf) => AnsName r q buf) (sfs_lookparent p path buf len)
  | ReqGetdirentry _ | ReqTryseek _ | ReqSymlink _ _ | ReqMkdir _ | ReqRmdir _ => ret (AnsCode sfs_unimp)
  | ReqRead _ | ReqReadlink _ | ReqWrite _ | ReqMmap | ReqTruncate _ => ret (AnsCode sfs_isdir)
  end.

(** [VOP_...(v, ...)]: the check, then the entry of the vnode's table. *)
Definition vop_call (p : Z) (op : vop) (q : request) : M S answer :=
  let* _ := vnode_check p op in
  let* v := get_vnode p in
  match vn_ops v with
  | Some sfs_fileops => sfs_fileops_table p q
  | Some sfs_dirops => sfs_dirops_table p q
  | None => halt Fault
  end.

(** The root vnode. *)
Definition sfs_getroot : M S Z :=
  let* (result, p) := sfs_loadvnode SFS_ROOT_LOCATION SFS_TYPE_INVAL in
  let* _ := kassert (result =? 0) in
  ret p.

End Ops.

(** ** [sfs_fs.c] *)

Section Fs.
Context {H D : Type} `{!Allocator H} {dev : BlockDev D} `{!DevSize D} `{!CurSpace}.
Local Abbreviation S := (sfs H D).

(** The loop of [sfs_mapio], from sector [j] of the map on; the answer is the
    error code and the bytes of the bitmap. *)
Fixpoint mapio_loop (n : nat) (rw : uio_dir) (j : Z) (bitdata : list Z) : M D (Z * list Z) :=
  match n with
  | O => ret (0, bitdata)
  | Datatypes.S n' =>
      let* ptr := lift (rdn bitdata (j * SFS_BLOCKSIZE) SFS_BLOCKSIZE) in
      let* (result, bitdata) :=
        (match rw with
         | UIO_READ =>
             let* (result, ptr) := sfs_rblock ptr (SFS_MAP_LOCATION + j) in
             let* bitdata := lift (wrn bitdata (j * SFS_BLOCKSIZE) ptr) in
             ret (result, bitdata)
         | UIO_WRITE =>
             let* result := sfs_wblock ptr (SFS_MAP_LOCATION + j) in
             ret (result, bitdata)
         end) in
      if negb (result =? 0) then ret (result, bitdata) else mapio_loop n' rw (j + 1) bitdata
  end.

(** The error code and the free map, whose bytes the device reads and writes. *)
Definition sfs_mapio (super : sfs_super) (freemap : bitmap) (rw : uio_dir) : M D (Z * bitmap) :=
  let mapsize := SFS_BITBLOCKS (sp_nblocks super) in
  let* (result, bitdata) := mapio_loop (Z.to_nat mapsize) rw 0 (bitmap_getdata freemap) in
  ret (result, set_bytes freemap bitdata).

(** The loop over the loaded vnodes, from the [i]th on; errors are ignored. *)
Fixpoint sync_vnodes (n : nat) (i : Z) : M S unit :=
  match n with
  | O => ret tt
  | Datatypes.S n' =>
      let* p := sfs_guy i in
      let* _ := VOP_FSYNC p in
      sync_vnodes n' (i + 1)
  end.

(** The end of [sfs_sync]. *)
Definition sync_super : M S Z :=
  let* f := gets sx_fs in
  if fs_superdirty f then
    let* result := on_dev (sfs_wblock (super_bytes (fs_super f)) SFS_SB_LOCATION) in
    if negb (result =? 0) then ret result
    else
      let* _ := modify_fs (set_superdirty false) in
      ret 0
  else ret 0.

Definition sfs_sync : M S Z :=
  let* f := gets sx_fs in
  let* _ := sync_vnodes (Z.to_nat (array_getnum (fs_vnodes f))) 0 in
  let* f := gets sx_fs in
  if fs_freemapdirty f then
    let* (result, m) := on_dev (sfs_mapio (fs_super f) (fs_freemap f) UIO_WRITE) in
    let* _ := modify_fs (set_freemap m) in
    if negb (result =? 0) then ret result
    else
      let* _ := modify_fs (set_freemapdirty false) in
      sync_super
  else sync_super.

Definition sfs_getvolname (s : S) : list Z := sp_volname (fs_super (sx_fs s)).

Definition sfs_unmount : M S Z :=
  let* f := gets sx_fs in
  if array_getnum (fs_vnodes f) >? 0 then ret EBUSY
  else
    let* _ := kassert (negb (fs_superdirty f)) in
    let* _ := kassert (negb (fs_freemapdirty f)) in
    let* _ := on_heap (array_destroy (fs_vnodes f)) in
    let* _ := on_heap (bitmap_destroy (fs_freemap f)) in
    let* _ := on_heap (kfree (fs_addr f)) in
    ret 0.

(** Mounting runs before there is a [struct sfs_fs]: on the heap and the device. *)
Definition heap_part {A} (m : M H A) : M (H * D) A :=
  fun '(h, d) => match m h with Ret (a, h') => Ret (a, (h', d)) | Stop w => Stop w end.
Definition dev_part {A} (m : M D A) : M (H * D) A :=
  fun '(h, d) => match m d with Ret (a, d') => Ret (a, (h, d')) | Stop w => Stop w end.

(** The error paths of [sfs_domount]. *)
Definition domount_fail (p : Z) (vnodes : array Z) (result : Z) : M (H * D) (Z * option sfs_fs) :=
  let* _ := heap_part (array_destroy vnodes) in
  let* _ := heap_part (kfree p) in
  ret (result, None).

Definition sfs_domount : M (H * D) (Z * option sfs_fs) :=
  let* blocksize := gets (fun s => d_blocksize s.2) in
  if negb (blocksize =? SFS_BLOCKSIZE) then ret (ENXIO, None)
  else
    let* p := heap_part (kmalloc SIZEOF_SFS_FS) in
    if p =? 0 then ret (ENOMEM, None)
    else
      let* vnodes := heap_part array_create in
      match vnodes with
      | None =>
          let* _ := heap_part (kfree p) in
          ret (ENOMEM, None)
      | Some vnodes =>
          let* (result, bs) := dev_part (sfs_rblock zero_block SFS_SB_LOCATION) in
          if negb (result =? 0) then domount_fail p vnodes result
          else
            let super := bytes_super bs in
            if negb (sp_magic super =? SFS_MAGIC) then domount_fail p vnodes EINVAL
            else
              let* volname := lift (wr (sp_volname super) (SFS_VOLNAME_SIZE - 1) 0) in
              let super := mkSuper (sp_magic super) (sp_nblocks super) volname (sp_reserved super) in
              let* freemap := heap_part (bitmap_create (SFS_BITMAPSIZE (sp_nblocks super))) in
              match freemap with
              | None => domount_fail p vnodes ENOMEM
              | Some freemap =>
                  let* (result, freemap) := dev_part (sfs_mapio super freemap UIO_READ) in
                  if negb (result =? 0) then
                    let* _ := heap_part (bitmap_destroy freemap) in
                    domount_fail p vnodes result
                  else ret (0, Some (mkSfsFs p super false vnodes freemap false))
              end
      end.
End Fs.
