(* ===== verification/SfsCareful.v ===== *)
(** * SFS: runs in which the disk refuses a write

    The proofs on SFS are about its code over [careful], the device that gives
    up at the first sector write the disk refuses.  Here: a run over that
    device either stops there or is the run over the device itself, function
    by function, and what this makes of a contract. *)

From S2P Require Import Prelude.
From S2P Require Import Bytes.
From S2P Require Import Copyinout.
From S2P Require Import Uio.
From S2P Require Import Blockdev.
From S2P Require Import Bitmap.
From S2P Require Import Vnode.
From S2P Require Import Sfs.
From S2P Require Import SfsOps.

(** [m] is [m'] up to the point where it gives up. *)
Definition tracks {S A} (m m' : M S A) : Prop := forall s, m s = Stop Refused \/ m s = m' s.

Lemma tracks_refl {S A} (m : M S A) : tracks m m.
Proof. intros s. by right. Qed.

Lemma tracks_bind {S A B} (m m' : M S A) (k k' : A -> M S B) :
  tracks m m' -> (forall a, tracks (k a) (k' a)) -> tracks (bind m k) (bind m' k').
Proof.
  intros Hm Hk s. unfold bind. destruct (Hm s) as [->| ->]; [by left|].
  destruct (m' s) as [[a s']|w]; [apply Hk | by right].
Qed.

Lemma tracks_on_dev {H D A} (m m' : M D A) :
  tracks m m' -> tracks (on_dev (H := H) m) (on_dev m').
Proof. intros Hm s. unfold on_dev. destruct (Hm (sx_dev s)) as [->| ->]; [by left | by right]. Qed.

Create HintDb tracks.

(** One step along two runs of the same code. *)
Ltac track :=
  match goal with
  | |- tracks ?m ?m => apply tracks_refl
  | |- tracks (bind _ _) (bind _ _) => apply tracks_bind; [|intros ?; cbv beta]
  | |- tracks (on_dev _) (on_dev _) => apply tracks_on_dev
  | |- tracks (match ?x with _ => _ end) _ => destruct x
  | |- _ => solve [auto 1 with tracks nocore]
  end.

Tactic Notation "tracking" reference(f) := intros; unfold f; cbv zeta; repeat track.

Section Careful.
Context {H D : Type} `{!Allocator H} {dev : BlockDev D} `{!CurSpace}.

Lemma careful_tracks cur u : tracks (careful cur u) (d_io cur u).
Proof.
  intros d. unfold careful, bind. destruct (d_io cur u d) as [[[r u'] d']|w]; [|by right].
  destruct (is_write u && (r =? EIO)); [by left | by right].
Qed.

(** It gives up exactly when a write is answered with [EIO]. *)
Lemma careful_refuses cur u d :
  d_io cur u d <> Stop Refused ->
  careful cur u d = Stop Refused <-> is_write u = true /\ exists u' d', d_io cur u d = Ret (EIO, u', d').
Proof.
  intros Hn. unfold careful, bind. destruct (d_io cur u d) as [[[r u'] d']|w].
  - destruct (is_write u); cbn [andb]; [|split; [done | by intros [? _]]].
    destruct (Z.eqb_spec r EIO) as [->|Hr]; [split; [by eauto | done]|].
    split; [done|]. intros (_ & ? & ? & E). congruence.
  - split; [congruence|]. intros (_ & ? & ? & E). congruence.
Qed.

Lemma rwblock_loop_tracks fuel tries u :
  tracks (rwblock_loop (dev := careful) fuel tries u) (rwblock_loop fuel tries u).
Proof.
  revert tries u. induction fuel as [|f IH]; intros tries u; cbn [rwblock_loop]; [apply tracks_refl|].
  apply tracks_bind; [apply careful_tracks|]. intros []. repeat track.
Qed.
#[local] Hint Resolve rwblock_loop_tracks : tracks.

Lemma sfs_rwblock_tracks u : tracks (sfs_rwblock (dev := careful) u) (sfs_rwblock u).
Proof. tracking sfs_rwblock. Qed.
#[local] Hint Resolve sfs_rwblock_tracks : tracks.

Lemma sfs_rblock_tracks data b : tracks (sfs_rblock (dev := careful) data b) (sfs_rblock data b).
Proof. tracking sfs_rblock. Qed.
#[local] Hint Resolve sfs_rblock_tracks : tracks.

Lemma sfs_wblock_tracks data b : tracks (sfs_wblock (dev := careful) data b) (sfs_wblock data b).
Proof. tracking sfs_wblock. Qed.
#[local] Hint Resolve sfs_wblock_tracks : tracks.

Lemma sfs_balloc_tracks : tracks (sfs_balloc (dev := careful) (H := H)) sfs_balloc.
Proof. tracking sfs_balloc. unfold sfs_clearblock. repeat track. Qed.
#[local] Hint Resolve sfs_balloc_tracks : tracks.

Lemma bmap_indirect_tracks idb off da buf :
  tracks (bmap_indirect (dev := careful) (H := H) idb off da buf) (bmap_indirect idb off da buf).
Proof. tracking bmap_indirect. Qed.
#[local] Hint Resolve bmap_indirect_tracks : tracks.

Lemma sfs_bmap_tracks p k da : tracks (sfs_bmap (dev := careful) (H := H) p k da) (sfs_bmap p k da).
Proof. tracking sfs_bmap. Qed.
#[local] Hint Resolve sfs_bmap_tracks : tracks.

Lemma sfs_partialio_tracks p u skip len :
  tracks (sfs_partialio (dev := careful) (H := H) p u skip len) (sfs_partialio p u skip len).
Proof. tracking sfs_partialio. Qed.
#[local] Hint Resolve sfs_partialio_tracks : tracks.

Lemma sfs_blockio_tracks p u : tracks (sfs_blockio (dev := careful) (H := H) p u) (sfs_blockio p u).
Proof. tracking sfs_blockio. Qed.
#[local] Hint Resolve sfs_blockio_tracks : tracks.

Lemma io_blocks_tracks n p u : tracks (io_blocks (dev := careful) (H := H) n p u) (io_blocks n p u).
Proof. revert u. induction n as [|n IH]; intros u; cbn [io_blocks]; repeat track. Qed.
#[local] Hint Resolve io_blocks_tracks : tracks.

Lemma io_aligned_tracks p u : tracks (io_aligned (dev := careful) (H := H) p u) (io_aligned p u).
Proof. tracking io_aligned. Qed.
#[local] Hint Resolve io_aligned_tracks : tracks.

Lemma io_body_tracks p u : tracks (io_body (dev := careful) (H := H) p u) (io_body p u).
Proof. tracking io_body. Qed.
#[local] Hint Resolve io_body_tracks : tracks.

Lemma sfs_io_tracks p u : tracks (sfs_io (dev := careful) (H := H) p u) (sfs_io p u).
Proof. tracking sfs_io. Qed.
#[local] Hint Resolve sfs_io_tracks : tracks.

Lemma sfs_read_tracks p u : tracks (sfs_read (dev := careful) (H := H) p u) (sfs_read p u).
Proof. tracking sfs_read. Qed.

Lemma sfs_write_tracks p u : tracks (sfs_write (dev := careful) (H := H) p u) (sfs_write p u).
Proof. tracking sfs_write. Qed.

Lemma sfs_readdir_tracks p slot : tracks (sfs_readdir (dev := careful) (H := H) p slot) (sfs_readdir p slot).
Proof. tracking sfs_readdir. Qed.
#[local] Hint Resolve sfs_readdir_tracks : tracks.

Lemma sfs_writedir_tracks p sd slot :
  tracks (sfs_writedir (dev := careful) (H := H) p sd slot) (sfs_writedir p sd slot).
Proof. tracking sfs_writedir. Qed.
#[local] Hint Resolve sfs_writedir_tracks : tracks.

Lemma findname_loop_tracks n p name i found fn :
  tracks (findname_loop (dev := careful) (H := H) n p name i found fn) (findname_loop n p name i found fn).
Proof.
  revert i found fn. induction n as [|n IH]; intros i found fn; cbn [findname_loop]; repeat track.
Qed.
#[local] Hint Resolve findname_loop_tracks : tracks.

Lemma sfs_dir_findname_tracks p name :
  tracks (sfs_dir_findname (dev := careful) (H := H) p name) (sfs_dir_findname p name).
Proof. tracking sfs_dir_findname. Qed.
#[local] Hint Resolve sfs_dir_findname_tracks : tracks.

Lemma sfs_dir_link_tracks p name ino :
  tracks (sfs_dir_link (dev := careful) (H := H) p name ino) (sfs_dir_link p name ino).
Proof. tracking sfs_dir_link. Qed.

Lemma sfs_dir_unlink_tracks p slot :
  tracks (sfs_dir_unlink (dev := careful) (H := H) p slot) (sfs_dir_unlink p slot).
Proof. tracking sfs_dir_unlink. Qed.

Lemma truncate_idblock_tracks p k :
  tracks (truncate_idblock (dev := careful) (H := H) p k) (truncate_idblock p k).
Proof. tracking truncate_idblock. Qed.
#[local] Hint Resolve truncate_idblock_tracks : tracks.

Lemma sfs_truncate_tracks p len : tracks (sfs_truncate (dev := careful) (H := H) p len) (sfs_truncate p len).
Proof. tracking sfs_truncate. Qed.

(** In the run of [m] from [s] the disk refuses a write: [m] is code over the
    device it is given. *)
Definition refuses {S A} (m : BlockDev D -> M S A) (s : S) : Prop := m careful s = Stop Refused.

Lemma tracks_wp {S A} (m m' : M S A) s Q : tracks m m' -> wp m s Q -> wp m' s Q.
Proof. intros Ht. unfold wpx. by destruct (Ht s) as [->| ->]. Qed.

Lemma tracks_wpr {S A} (m : BlockDev D -> M S A) s Q :
  tracks (m careful) (m dev) -> wpr (m careful) s Q -> refuses m s \/ wp (m dev) s Q.
Proof.
  intros Ht. unfold refuses, wpx. destruct (Ht s) as [->| ->]; [by left|].
  destruct (m dev s) as [[a s']|[]]; try done; (by left) || (by right).
Qed.
End Careful.
