(* ===== verification/SfsBlock.v ===== *)
(** * SFS: the block layer

    What reading, writing, allocating and freeing a block do, over any device
    that keeps its contract and any allocator.  [fs_ok s X] is the state of the
    block layer: [X] are the blocks marked in use. *)

From S2P Require Import Prelude.
From S2P Require Import Array.
From S2P Require Import Bitmap.
From S2P Require Import Bytes.
From S2P Require Import Copyinout.
From S2P Require Import Uio.
From S2P Require Import Blockdev.
From S2P Require Import Vnode.
From S2P Require Import Sfs.

(** ** Bitmap lookups *)

Lemma bitmap_isset_spec b X i :
  bitmap_rep b X -> 0 <= i < bm_nbits b ->
  exists r, bitmap_isset b i = Ret r /\ negb (r =? 0) = bool_decide (i ∈ X).
Proof.
  intros ((Hn & Hl & Hb & Ho) & Hx & Hr) Hi. unfold bitmap_isset, bitmap_translate, BITS_PER_WORD.
  pose proof (nwords_bound (bm_nbits b)). pose proof (Z.div_mod i 8 ltac:(lia)).
  pose proof (Z.mod_pos_bound i 8 ltac:(lia)).
  destruct (lookup_lt_is_Some_2 (bm_v b) (Z.to_nat (i / 8))) as [w Hw].
  { apply Nat2Z.inj_lt. rewrite Hl, Z2Nat.id by (apply Z.div_pos; lia). lia. }
  rewrite (rd_lookup _ _ w) by (done || (apply Z.div_pos; lia)). cbn [rbind]. eexists. split; [done|].
  rewrite mask_pow2, land_pow2 by lia. assert (0 < 2 ^ (i mod 8)) by (apply Z.pow_pos_nonneg; lia).
  assert (E : Z.testbit w (i mod 8) = bit (bm_v b) i).
  { unfold bit. by rewrite (list_lookup_total_correct _ _ _ Hw). }
  rewrite E. specialize (Hx i Hi). destruct (bit (bm_v b) i).
  - rewrite bool_decide_true by tauto. destruct (Z.eqb_spec (2 ^ (i mod 8)) 0); [lia | done].
  - rewrite bool_decide_false by (intros ?%Hx; done). done.
Qed.

(** ** Transfers of one block *)

Section Blocks.
Context {D : Type} `{!BlockDev D, !DevSize D, !Disk D, !CarefulLaws D} `{!CurSpace} {rf : Prop}.
Implicit Types (d : D) (u : uio).

Lemma same_disk_refl d : dev_ok d -> same_disk d d.
Proof. done. Qed.

Lemma same_disk_trans d1 d2 d3 : same_disk d1 d2 -> same_disk d2 d3 -> same_disk d1 d3.
Proof.
  intros (Ho & Hb & Hs) (Ho' & Hb' & Hs'). split_and!; [done | congruence|].
  intros c Hc. rewrite Hs' by (rewrite Hb; done). by apply Hs.
Qed.

(** A read: up to eleven attempts, the last of which answers for all. *)
Lemma rwblock_loop_read (fuel : nat) tries u d b :
  (0 < fuel)%nat -> tries + Z.of_nat fuel = 11 ->
  dev_ok d -> uio_wf cur_space u -> uio_rw u = UIO_READ -> uio_resid u = SECTSIZE ->
  uio_access u SECTSIZE -> uio_offset u = SECTSIZE * b -> 0 <= b < d_blocks d ->
  wpx rf False (rwblock_loop fuel tries u) d (fun '(r, u') d' =>
    same_disk d d' /\ ((r = 0 /\ u' = uio_fill (sector d b) u) \/ (r = EIO /\ u' = u))).
Proof.
  revert tries d. induction fuel as [|f IH]; intros tries d Hf Ht Hd Hw Hrw Hr Ha Ho Hb; [lia|].
  cbn [rwblock_loop]. wp_step. eapply wp_mono; [eapply wp_calls; [by apply (careful_read_law cur_space u d b)|done]|].
  intros [r u'] d1 [(Hd1 & Hb1 & Hs1) [[-> ->]|[-> ->]]]; cbn [EIO EINVAL Z.eqb Pos.eqb].
  - wp_steps. split; [by split_and!|]. by left.
  - assert (Hretry : tries < 10 -> wpx rf False (rwblock_loop f (tries + 1) u) d1 (fun '(r, u') d' =>
      same_disk d d' /\ ((r = 0 /\ u' = uio_fill (sector d b) u) \/ (r = EIO /\ u' = u)))).
    { intros Hlt. eapply wp_mono; [apply IH; try done; [lia | lia | by rewrite Hb1]|].
      intros [r u'] d2 [Hs2 Hor]. rewrite Hs1 in Hor by done. split; [|done].
      eapply same_disk_trans; [|done]. by split_and!. }
    destruct (Z.eqb_spec tries 0); [apply Hretry; lia|].
    destruct (Z.ltb_spec tries 10); [by apply Hretry|].
    wp_steps. split; [by split_and!|]. by right.
Qed.

Lemma sfs_rwblock_read u d b :
  dev_ok d -> uio_wf cur_space u -> uio_rw u = UIO_READ -> uio_resid u = SECTSIZE ->
  uio_access u SECTSIZE -> uio_offset u = SECTSIZE * b -> 0 <= b < d_blocks d ->
  wpx rf False (sfs_rwblock u) d (fun '(r, u') d' =>
    same_disk d d' /\ ((r = 0 /\ u' = uio_fill (sector d b) u) \/ (r = EIO /\ u' = u))).
Proof. intros. apply rwblock_loop_read; try done. unfold RETRIES. lia. Qed.

Lemma sfs_rwblock_write `{!MayRefuse rf} u d b :
  dev_ok d -> uio_wf cur_space u -> uio_rw u = UIO_WRITE -> uio_resid u = SECTSIZE ->
  uio_access u SECTSIZE -> uio_offset u = SECTSIZE * b -> 0 <= b < d_blocks d ->
  wpx rf False (sfs_rwblock u) d (fun '(r, u') d' =>
    disk_set d b (uio_data u (Z.to_nat SECTSIZE)) d' /\ r = 0 /\ u' = advance SECTSIZE u).
Proof.
  intros Hd Hw Hrw Hr Ha Ho Hb. unfold sfs_rwblock, RETRIES. cbn [rwblock_loop]. wp_step.
  eapply wp_mono; [eapply wp_allowed; by apply (careful_write_law cur_space u d b)|].
  intros [r u'] d1 (-> & -> & Hd1 & Hb1 & Hs1). cbn [EIO EINVAL Z.eqb]. wp_steps. by split_and!.
Qed.

Lemma SFSUIO_wf data b d rw :
  dev_ok d -> sector_wf data -> 0 <= b < d_blocks d ->
  uio_wf cur_space (SFSUIO data b rw) /\ uio_offset (SFSUIO data b rw) = SECTSIZE * b.
Proof.
  intros Hd [Hl Hb] Hr. destruct (dev_bounds d Hd) as [Hbd _]. unfold MAXBLOCKS in Hbd.
  unfold SFSUIO, mk_kuio, uio_wf, SFS_BLOCKSIZE, SECTSIZE in *. simpl.
  rewrite (s32_small b), s32_small by lia. rewrite Hl. split_and!; try done; lia.
Qed.

Lemma sfs_rblock_wp data b d :
  dev_ok d -> sector_wf data -> 0 <= b < d_blocks d ->
  wpx rf False (sfs_rblock data b) d (fun '(r, bs) d' =>
    same_disk d d' /\ ((r = 0 /\ bs = sector d b) \/ (r = EIO /\ bs = data))).
Proof.
  intros Hd Hdat Hb. pose proof (SFSUIO_wf data b d UIO_READ Hd Hdat Hb) as [Hw Ho].
  unfold sfs_rblock. wp_step. eapply wp_mono; [by apply (sfs_rwblock_read _ d b)|].
  intros [r u'] d1 [Hs [[-> ->]|[-> ->]]]; wp_steps; (split; [done|]); [left|by right].
  split; [done|]. unfold uio_fill. simpl. apply splice_all.
  destruct Hdat as [-> _]. by apply sector_law.
Qed.

Lemma sfs_wblock_wp `{!MayRefuse rf} data b d :
  dev_ok d -> sector_wf data -> 0 <= b < d_blocks d ->
  wpx rf False (sfs_wblock data b) d (fun r d' => r = 0 /\ disk_set d b data d').
Proof.
  intros Hd Hdat Hb. pose proof (SFSUIO_wf data b d UIO_WRITE Hd Hdat Hb) as [Hw Ho].
  unfold sfs_wblock. wp_step. eapply wp_mono; [by apply (sfs_rwblock_write _ d b)|].
  intros [r u'] d1 (Hs & -> & ->). wp_steps. split; [done|].
  replace data with (uio_data (SFSUIO data b UIO_WRITE) (Z.to_nat SECTSIZE)) at 1; [done|].
  unfold uio_data. simpl. destruct Hdat as [Hl _]. rewrite <- Hl. apply slice_all.
Qed.
End Blocks.

Lemma zero_block_wf : sector_wf zero_block.
Proof. split; [apply length_replicate | apply zeros_bytes]. Qed.

(** ** Allocation *)

Section Alloc.
Context {H D : Type} `{!Allocator H} `{!BlockDev D, !DevSize D, !Disk D, !CarefulLaws D} `{!CurSpace} {rf : Prop}.
Implicit Types (s : sfs H D) (X : gset Z) (d : D).

Lemma wp_on_dev {A r p} (m : M D A) s (Q : A -> sfs H D -> Prop) :
  wpx r p m (sx_dev s) (fun a d => Q a (mkSfs (sx_heap s) d (sx_fs s) (sx_vn s))) -> wpx r p (on_dev m) s Q.
Proof. unfold wpx, on_dev. by destruct (m (sx_dev s)) as [[]|]. Qed.

Lemma wp_sfs_heap {A r p} (m : M H A) s (Q : A -> sfs H D -> Prop) :
  wpx r p m (sx_heap s) (fun a h => Q a (mkSfs h (sx_dev s) (sx_fs s) (sx_vn s))) -> wpx r p (on_heap m) s Q.
Proof. unfold wpx, on_heap. by destruct (m (sx_heap s)) as [[]|]. Qed.

Lemma wp_get_sv {r p} q sv s (Q : sfs_vnode -> sfs H D -> Prop) :
  sx_vn s !! q = Some sv -> Q sv s -> wpx r p (get_sv q) s Q.
Proof. unfold wpx, get_sv. by intros ->. Qed.

Lemma wp_modify_sv {r p} q f sv s (Q : unit -> sfs H D -> Prop) :
  sx_vn s !! q = Some sv -> Q tt (set_vn (<[q := f sv]> (sx_vn s)) s) -> wpx r p (modify_sv q f) s Q.
Proof. unfold wpx, modify_sv, bind, get_sv. by intros ->. Qed.

Lemma wp_modify_fs {r p} f s (Q : unit -> sfs H D -> Prop) :
  Q tt (set_fs (f (sx_fs s)) s) -> wpx r p (modify_fs f) s Q.
Proof. done. Qed.

(** The free map says which blocks of the volume are in use, and marks those
    past its end; block 0 is the superblock's. *)
Definition fs_ok s X : Prop :=
  dev_ok (sx_dev s) /\ bitmap_rep (fs_freemap (sx_fs s)) X /\
  0 < sp_nblocks (fs_super (sx_fs s)) <= d_blocks (sx_dev s) /\
  sp_nblocks (fs_super (sx_fs s)) <= bm_nbits (fs_freemap (sx_fs s)) /\
  (forall b, sp_nblocks (fs_super (sx_fs s)) <= b < bm_nbits (fs_freemap (sx_fs s)) -> b ∈ X) /\ 0 ∈ X.

(** What the block layer leaves alone. *)
Definition fs_rest (f f' : sfs_fs) : Prop :=
  fs_addr f' = fs_addr f /\ fs_super f' = fs_super f /\ fs_superdirty f' = fs_superdirty f /\
  fs_vnodes f' = fs_vnodes f /\ bm_addr (fs_freemap f') = bm_addr (fs_freemap f) /\
  bm_vaddr (fs_freemap f') = bm_vaddr (fs_freemap f) /\
  bm_nbits (fs_freemap f') = bm_nbits (fs_freemap f).

Lemma fs_rest_refl f : fs_rest f f.
Proof. done. Qed.

Lemma fs_rest_trans f1 f2 f3 : fs_rest f1 f2 -> fs_rest f2 f3 -> fs_rest f1 f3.
Proof. unfold fs_rest. intros (? & ? & ? & ? & ? & ? & ?) (? & ? & ? & ? & ? & ? & ?). split_and!; congruence. Qed.

Definition nblocks s : Z := sp_nblocks (fs_super (sx_fs s)).

Lemma fs_ok_same_dev s X d' :
  fs_ok s X -> same_disk (sx_dev s) d' -> fs_ok (mkSfs (sx_heap s) d' (sx_fs s) (sx_vn s)) X.
Proof. intros (? & ? & ? & ? & ? & ?) (? & Hb & ?). unfold fs_ok; simpl. rewrite Hb. done. Qed.

Lemma fs_ok_set_dev s X b bs d' :
  fs_ok s X -> disk_set (sx_dev s) b bs d' -> fs_ok (mkSfs (sx_heap s) d' (sx_fs s) (sx_vn s)) X.
Proof. intros (? & ? & ? & ? & ? & ?) (? & Hb & ?). unfold fs_ok; simpl. rewrite Hb. done. Qed.

Lemma sfs_clearblock_wp `{!MayRefuse rf} b s :
  dev_ok (sx_dev s) -> 0 <= b < d_blocks (sx_dev s) ->
  wpx rf False (sfs_clearblock b) s (fun r s' => r = 0 /\
    exists d', s' = mkSfs (sx_heap s) d' (sx_fs s) (sx_vn s) /\ disk_set (sx_dev s) b zero_block d').
Proof.
  intros Hd Hb. unfold sfs_clearblock. apply wp_on_dev.
  eapply wp_mono; [apply sfs_wblock_wp; [done | apply zero_block_wf | done]|].
  intros r d' [-> Hs]. split; [done|]. by exists d'.
Qed.

(** A block that was free, now marked, zeroed; or the disk is full. *)
Lemma sfs_balloc_wp `{!MayRefuse rf} s X :
  fs_ok s X ->
  wpx rf False sfs_balloc s (fun '(r, b) s' =>
    (r = ENOSPC /\ s' = s /\ forall c, 0 <= c < nblocks s -> c ∈ X) \/
    (r = 0 /\ 0 < b < nblocks s /\ (b ∉ X) /\ fs_ok s' ({[ b ]} ∪ X) /\
     fs_rest (sx_fs s) (sx_fs s') /\ sx_heap s' = sx_heap s /\ sx_vn s' = sx_vn s /\
     fs_freemapdirty (sx_fs s') = true /\ disk_set (sx_dev s) b zero_block (sx_dev s'))).
Proof.
  intros Hok. pose proof Hok as (Hd & Hrep & Hn & Hm & Hover & H0X).
  unfold sfs_balloc. wp_step. wp_step.
  destruct (bitmap_alloc_spec _ X Hrep) as [(i & m & E & Hi & HiX & Hmin & Hrep' & Hnb & Ha & Hv)|(i & E & Hall)].
  - rewrite E. wp_step. wp_step. cbn [rwp]. wp_step. apply wp_modify_fs. cbn [negb Z.eqb].
    wp_step. apply wp_modify_fs. assert (i <> 0) by congruence.
    assert (Hin : i < nblocks s).
    { destruct (decide (i < nblocks s)); [done|]. exfalso. apply HiX, Hover. unfold nblocks in *. lia. }
    wp_step. rewrite Z.geb_leb. wp_step; [unfold nblocks in *; destruct (Z.leb_spec (sp_nblocks (fs_super (sx_fs s))) i); [lia | done]|].
    wp_step. eapply wp_mono; [apply sfs_clearblock_wp; [done | simpl; unfold nblocks in *; lia]|].
    intros r s' (-> & d' & -> & Hset). wp_steps. right. simpl in *.
    split_and!; try done; try lia.
    unfold fs_ok; simpl. pose proof Hset as (? & Hb & ?). rewrite Hb, Hnb. split_and!; try done; try lia.
    + intros b ?. apply elem_of_union_r, Hover. lia.
    + by apply elem_of_union_r.
  - rewrite E. wp_step. wp_step. cbn [rwp]. wp_step. apply wp_modify_fs. cbn [negb Z.eqb]. wp_steps. left.
    split_and!; [done | by destruct s as [? ? []] |]. intros c Hc. apply Hall. unfold nblocks in *. lia.
Qed.

Lemma sfs_bfree_wp b s X :
  fs_ok s X -> b ∈ X -> 0 < b < nblocks s ->
  wpx rf False (sfs_bfree b) s (fun _ s' =>
    fs_ok s' (X ∖ {[ b ]}) /\ fs_rest (sx_fs s) (sx_fs s') /\ fs_freemapdirty (sx_fs s') = true /\
    sx_heap s' = sx_heap s /\ sx_vn s' = sx_vn s /\ sx_dev s' = sx_dev s).
Proof.
  intros (Hd & Hrep & Hn & Hm & Hover & H0X) HbX Hb. unfold nblocks in *. unfold sfs_bfree. wp_step. wp_step.
  pose proof (bitmap_unmark_spec _ X b Hrep ltac:(lia) ltac:(lia)) as E. rewrite decide_True in E by done.
  destruct E as (m & -> & Hrep' & Hnb & Ha & Hv). wp_step. wp_step. cbn [rwp]. wp_step. apply wp_modify_fs.
  apply wp_modify_fs. simpl. split_and!; try done. unfold fs_ok; simpl. rewrite Hnb. split_and!; try done; try lia.
  - intros c Hc. apply elem_of_difference. split; [by apply Hover|]. rewrite elem_of_singleton. lia.
  - apply elem_of_difference. split; [done|]. rewrite elem_of_singleton. lia.
Qed.

Lemma sfs_bused_wp b s X :
  fs_ok s X -> 0 <= b < nblocks s -> wpx rf False (sfs_bused b) s (fun r s' => s' = s /\ r = bool_decide (b ∈ X)).
Proof.
  intros (Hd & Hrep & Hn & Hm & _) Hb. unfold nblocks in *. unfold sfs_bused. wp_step. wp_step. wp_step.
  rewrite Z.geb_leb. wp_step.
  destruct (bitmap_isset_spec _ X b Hrep ltac:(lia)) as (r & -> & Hr). wp_step. wp_step. cbn [rwp]. by wp_steps.
Qed.
End Alloc.
