(* ===== verification/SfsFile.v ===== *)
(** * SFS: files

    The contents of a file are a function of its inode and the disk: the blocks
    its fifteen direct and one indirect block name, a block number 0 standing
    for a block of zeros.  [file_ok] is the invariant of one file: it names
    each of its blocks once, and only blocks that are marked in use.  The
    theorems relate reading and writing through [sfs_io] to that array of
    bytes, and show that nothing else on the disk changes. *)

From S2P Require Import Prelude.
From S2P Require Import Array.
From S2P Require Import Bitmap.
From S2P Require Import Bytes.
From S2P Require Import Copyinout.
From S2P Require Import Uio.
From S2P Require Import Blockdev.
From S2P Require Import Vnode.
From S2P Require Import Sfs.
From S2P Require Import SfsBlock.

(** ** Lists of equally long pieces *)

Section Pieces.
Context {A : Type} (n : nat).
Implicit Types (ls : list (list A)).

Lemma length_join ls : Forall (fun l => length l = n) ls -> length (mjoin ls) = (n * length ls)%nat.
Proof.
  induction 1 as [|l ls Hl _ IH]; [simpl; lia|]. change (mjoin (l :: ls)) with (l ++ mjoin ls).
  rewrite length_app, IH. simpl. lia.
Qed.

Lemma slice_join ls (k : nat) l :
  Forall (fun l => length l = n) ls -> ls !! k = Some l -> slice (mjoin ls) (n * k) n = l.
Proof.
  intros Hf. revert k. induction Hf as [|l' ls Hl Hf IH]; intros k Hk; [done|].
  change (mjoin (l' :: ls)) with (l' ++ mjoin ls). destruct k as [|k].
  - injection Hk as ->. rewrite Nat.mul_0_r. unfold slice. rewrite drop_0, take_app_length'; done.
  - simpl in Hk. rewrite <- (IH k) by done. unfold slice. rewrite drop_app_ge by nia.
    do 2 f_equal. nia.
Qed.

Lemma join_insert ls (k : nat) l :
  Forall (fun l => length l = n) ls -> (k < length ls)%nat -> length l = n ->
  mjoin (<[k := l]> ls) = splice (mjoin ls) (n * k) l.
Proof.
  intros Hf. revert k. induction Hf as [|l' ls Hl Hf IH]; intros k Hk Hll; [simpl in Hk; lia|].
  change (mjoin (l' :: ls)) with (l' ++ mjoin ls). destruct k as [|k].
  - change (<[0%nat := l]> (l' :: ls)) with (l :: ls). change (mjoin (l :: ls)) with (l ++ mjoin ls).
    rewrite Nat.mul_0_r. unfold splice. simpl. rewrite drop_app_length' by congruence. done.
  - change (<[S k := l]> (l' :: ls)) with (l' :: <[k := l]> ls).
    change (mjoin (l' :: ?x)) with (l' ++ mjoin x). rewrite IH by (simpl in Hk; lia || done).
    unfold splice. rewrite take_app_ge, drop_app_ge by nia. rewrite <- app_assoc.
    replace (n * S k - length l')%nat with (n * k)%nat by nia.
    replace (n * S k + length l - length l')%nat with (n * k + length l)%nat by nia. done.
Qed.
End Pieces.

Lemma filter_insert_zero (l : list Z) (j : nat) b :
  l !! j = Some 0 -> b <> 0 ->
  filter (fun x => x <> 0) (<[j := b]> l) ≡ₚ b :: filter (fun x => x <> 0) l.
Proof.
  intros Hj Hb. pose proof (lookup_lt_Some _ _ _ Hj) as Hlt.
  rewrite insert_take_drop by done. rewrite <- (take_drop_middle l j 0 Hj) at 3.
  rewrite !filter_app, !filter_cons. rewrite decide_True by done. rewrite decide_False by tauto.
  by rewrite Permutation_middle.
Qed.

#[global] Instance sfs_inode_eq_dec : EqDecision sfs_inode.
Proof. solve_decision. Defined.

(** ** The file an inode describes *)

Section View.
Context {D : Type} `{!DevSize D, !Disk D}.
Implicit Types (d : D) (i : sfs_inode).

Definition id_words d i : list Z :=
  if sfi_indirect i =? 0 then replicate (Z.to_nat SFS_DBPERIDB) 0
  else bytes_words (Z.to_nat SFS_DBPERIDB) (sector d (sfi_indirect i)).

(** The block numbers of the file, by file block. *)
Definition fblocks d i : list Z := sfi_direct i ++ id_words d i.

(** All block numbers it holds, and the blocks they name. *)
Definition refs d i : list Z := sfi_direct i ++ sfi_indirect i :: id_words d i.
Definition file_blocks d i : list Z := filter (fun b => b <> 0) (refs d i).

Definition block_data d (b : Z) : list Z := if b =? 0 then zero_block else sector d b.
Definition fdata d i : list (list Z) := block_data d <$> fblocks d i.
Definition content d i : list Z := mjoin (fdata d i).

(** The largest file: 143 blocks. *)
Definition MAXFBLOCKS : Z := SFS_NDIRECT + SFS_DBPERIDB.
Definition MAXFILE : Z := SFS_BLOCKSIZE * MAXFBLOCKS.

Lemma length_id_words d i : length (id_words d i) = Z.to_nat SFS_DBPERIDB.
Proof.
  unfold id_words. destruct (_ =? _); [apply length_replicate | apply length_bytes_words].
Qed.

Lemma length_fblocks d i :
  length (sfi_direct i) = Z.to_nat SFS_NDIRECT -> length (fblocks d i) = Z.to_nat MAXFBLOCKS.
Proof. intros Hl. unfold fblocks. rewrite length_app, Hl, length_id_words. done. Qed.

Lemma fblocks_lookup d i (k : nat) b :
  length (sfi_direct i) = Z.to_nat SFS_NDIRECT -> fblocks d i !! k = Some b ->
  refs d i !! (if decide (k < 15)%nat then k else S k) = Some b.
Proof.
  intros Hl Hk. unfold refs, fblocks in *. rewrite lookup_app in *. change (Z.to_nat SFS_NDIRECT) with 15%nat in Hl.
  destruct (decide (k < 15)%nat).
  - destruct (sfi_direct i !! k) eqn:E; [done|]. apply lookup_ge_None in E. lia.
  - rewrite lookup_ge_None_2 in Hk |- * by lia. rewrite Hl in *.
    replace (S k - 15)%nat with (S (k - 15)) by lia. done.
Qed.

Lemma block_in_file d i (k : nat) b :
  length (sfi_direct i) = Z.to_nat SFS_NDIRECT -> fblocks d i !! k = Some b -> b <> 0 -> b ∈ file_blocks d i.
Proof.
  intros Hl Hk Hb. apply list_elem_of_filter. split; [done|].
  eapply list_elem_of_lookup_2, fblocks_lookup; done.
Qed.

Lemma indirect_in_file d i : sfi_indirect i <> 0 -> sfi_indirect i ∈ file_blocks d i.
Proof.
  intros Hn. apply list_elem_of_filter. split; [done|]. unfold refs. set_solver.
Qed.
End View.

Lemma fdata_ext {D} `{!DevSize D, !Disk D} (d d' : D) i i' (k : nat) b :
  fblocks d' i' = <[k := b]> (fblocks d i) ->
  (fblocks d i !! k = Some b \/ (fblocks d i !! k = Some 0 /\ b <> 0 /\ sector d' b = zero_block)) ->
  (forall j c, j <> k -> fblocks d i !! j = Some c -> c <> 0 -> sector d' c = sector d c) ->
  (fblocks d i !! k = Some b -> b <> 0 -> sector d' b = sector d b) ->
  fdata d' i' = fdata d i.
Proof.
  intros E Hk Hc Hb. unfold fdata. rewrite E. apply list_eq. intros j.
  rewrite !list_lookup_fmap. destruct (decide (j = k)) as [->|Hj].
  - assert (k < length (fblocks d i))%nat by (destruct Hk as [Hk|[Hk _]]; by eapply lookup_lt_Some).
    rewrite list_lookup_insert_eq by done. destruct Hk as [Hk|(Hk & Hn & Hz)]; rewrite Hk; simpl; f_equal;
      unfold block_data.
    + destruct (Z.eqb_spec b 0); [done|]. auto.
    + by destruct (Z.eqb_spec b 0).
  - rewrite list_lookup_insert_ne by done. destruct (fblocks d i !! j) as [c|] eqn:Ec; [|done].
    simpl. f_equal. unfold block_data. destruct (Z.eqb_spec c 0); [done|]. by apply (Hc j).
Qed.

Section Step.
Context {H D : Type} `{!Allocator H} `{!BlockDev D, !DevSize D, !Disk D, !CarefulLaws D} `{!CurSpace} {rf : Prop}.
Implicit Types (s : sfs H D) (X : gset Z) (d : D) (i : sfs_inode) (sv : sfs_vnode).

Definition file_ok s X i : Prop :=
  length (sfi_direct i) = Z.to_nat SFS_NDIRECT /\ NoDup (file_blocks (sx_dev s) i) /\
  forall b, b ∈ file_blocks (sx_dev s) i -> b ∈ X /\ 0 < b < nblocks s.

(** The indirect block is not also a data block. *)
Lemma indirect_distinct d i (k : nat) c :
  length (sfi_direct i) = Z.to_nat SFS_NDIRECT -> NoDup (file_blocks d i) ->
  fblocks d i !! k = Some c -> c <> 0 -> c <> sfi_indirect i.
Proof.
  intros Hl Hn Hk Hc ->. unfold file_blocks, refs in Hn.
  rewrite filter_app, filter_cons, decide_True in Hn by done.
  apply NoDup_app in Hn as (_ & Hd & Hn). apply NoDup_cons in Hn as [Hn _].
  apply list_elem_of_lookup_2 in Hk. unfold fblocks in Hk. apply elem_of_app in Hk as [Hk|Hk].
  - apply (Hd (sfi_indirect i)); [by apply list_elem_of_filter | left].
  - apply Hn. by apply list_elem_of_filter.
Qed.

(** The file takes a free block [b] for one of the numbers it holds. *)
Lemma file_grow s s' X i i' (j : nat) b :
  file_ok s X i -> nblocks s' = nblocks s -> 0 < b < nblocks s -> b ∉ X ->
  length (sfi_direct i') = Z.to_nat SFS_NDIRECT ->
  refs (sx_dev s') i' = <[j := b]> (refs (sx_dev s) i) -> refs (sx_dev s) i !! j = Some 0 ->
  file_ok s' ({[ b ]} ∪ X) i' /\ file_blocks (sx_dev s') i' ≡ₚ b :: file_blocks (sx_dev s) i.
Proof.
  intros (Hl & Hn & Hb) Hnb Hbn HbX Hl' Er Hj.
  assert (P : file_blocks (sx_dev s') i' ≡ₚ b :: file_blocks (sx_dev s) i).
  { unfold file_blocks. rewrite Er. apply filter_insert_zero; [done | lia]. }
  split; [|done]. split_and!; [done| |].
  - rewrite P. apply NoDup_cons. split; [|done]. intros [? _]%Hb. done.
  - intros c Hc. rewrite P in Hc. apply elem_of_cons in Hc as [->|Hc]; rewrite Hnb.
    + split; [set_solver | lia].
    + destruct (Hb c Hc). split; [set_solver | lia].
Qed.

(** What an operation on the file [p] may change: its inode's block numbers and
    the disk blocks they name, which it may take from the free ones. *)
Record file_step s X (p : Z) sv s' X' sv' : Prop := {
  step_ok : fs_ok s' X';
  step_file : file_ok s' X' (sv_i sv');
  step_rest : fs_rest (sx_fs s) (sx_fs s');
  step_heap : sx_heap s' = sx_heap s;
  step_vn : sx_vn s' = <[p := sv']> (sx_vn s);
  step_v : sv_v sv' = sv_v sv /\ sv_ino sv' = sv_ino sv;
  step_meta : sfi_type (sv_i sv') = sfi_type (sv_i sv) /\
              sfi_linkcount (sv_i sv') = sfi_linkcount (sv_i sv) /\
              sfi_waste (sv_i sv') = sfi_waste (sv_i sv);
  step_dirty : (sv_dirty sv = true -> sv_dirty sv' = true) /\
               (sv_i sv' <> sv_i sv -> sv_dirty sv' = true);
  step_freedirty : (fs_freemapdirty (sx_fs s) = true -> fs_freemapdirty (sx_fs s') = true) /\
                   (X' <> X -> fs_freemapdirty (sx_fs s') = true);
  step_X : X' = X ∪ list_to_set (file_blocks (sx_dev s') (sv_i sv'));
  step_mono : forall b, b ∈ file_blocks (sx_dev s) (sv_i sv) -> b ∈ file_blocks (sx_dev s') (sv_i sv');
  step_new : forall b, b ∈ file_blocks (sx_dev s') (sv_i sv') ->
               b ∈ file_blocks (sx_dev s) (sv_i sv) \/ b ∉ X;
  step_blocks : d_blocks (sx_dev s') = d_blocks (sx_dev s);
  step_frame : forall b, b ∈ X -> b ∉ file_blocks (sx_dev s) (sv_i sv) -> 0 <= b < d_blocks (sx_dev s) ->
                 sector (sx_dev s') b = sector (sx_dev s) b;
}.

Lemma step_nblocks s X p sv s' X' sv' : file_step s X p sv s' X' sv' -> nblocks s' = nblocks s.
Proof. intros F. destruct (step_rest _ _ _ _ _ _ _ F) as (_ & E & _). unfold nblocks. by rewrite E. Qed.

Lemma file_step_refl s X p sv d' :
  fs_ok s X -> sx_vn s !! p = Some sv -> file_ok s X (sv_i sv) -> same_disk (sx_dev s) d' ->
  file_step s X p sv (mkSfs (sx_heap s) d' (sx_fs s) (sx_vn s)) X sv /\
  fblocks d' (sv_i sv) = fblocks (sx_dev s) (sv_i sv) /\
  content d' (sv_i sv) = content (sx_dev s) (sv_i sv).
Proof.
  intros Hok Hsv (Hl & Hn & Hb) Hs. pose proof Hs as (Hd & Hbl & Hsec).
  pose proof Hok as (_ & _ & Hnb & _).
  assert (Hin : forall b, b ∈ file_blocks (sx_dev s) (sv_i sv) -> 0 <= b < d_blocks (sx_dev s)).
  { intros b Hbb. destruct (Hb b Hbb). unfold nblocks in *. lia. }
  assert (Ei : id_words d' (sv_i sv) = id_words (sx_dev s) (sv_i sv)).
  { unfold id_words. destruct (Z.eqb_spec (sfi_indirect (sv_i sv)) 0); [done|].
    rewrite Hsec; [done|]. by apply Hin, indirect_in_file. }
  assert (Ef : fblocks d' (sv_i sv) = fblocks (sx_dev s) (sv_i sv)) by (unfold fblocks; by rewrite Ei).
  assert (Eb : file_blocks d' (sv_i sv) = file_blocks (sx_dev s) (sv_i sv)).
  { unfold file_blocks, refs. by rewrite Ei. }
  split; [|split; [done|]].
  - split; cbn [sx_dev sx_heap sx_fs sx_vn]; rewrite ?Eb.
    + by apply fs_ok_same_dev.
    + unfold file_ok. simpl. rewrite Eb. by split_and!.
    + apply fs_rest_refl.
    + done.
    + by rewrite insert_id.
    + done.
    + done.
    + done.
    + done.
    + apply leibniz_equiv. intros b. rewrite elem_of_union, elem_of_list_to_set.
      split; [by left|]. intros [?|?]; [done|]. by apply Hb.
    + done.
    + intros b ?. by left.
    + done.
    + intros b ? ? ?. by apply Hsec.
  - unfold content, fdata. rewrite Ef. f_equal. apply list_fmap_ext. intros k c Hk. unfold block_data.
    destruct (Z.eqb_spec c 0); [done|]. apply Hsec, Hin. by eapply block_in_file.
Qed.

Lemma file_step_trans s X p sv s1 X1 sv1 s2 X2 sv2 :
  file_step s X p sv s1 X1 sv1 -> file_step s1 X1 p sv1 s2 X2 sv2 -> file_step s X p sv s2 X2 sv2.
Proof.
  intros A B. destruct A as [Aok Af Ar Ah Av [Av1 Av2] (Am1 & Am2 & Am3) [Ad1 Ad2] [Ae1 Ae2] AX Amo An Ab Afr].
  destruct B as [Bok Bf Br Bh Bv [Bv1 Bv2] (Bm1 & Bm2 & Bm3) [Bd1 Bd2] [Be1 Be2] BX Bmo Bn Bb Bfr].
  assert (Hsub : forall b, b ∈ X -> b ∈ X1) by (intros b ?; rewrite AX; by apply elem_of_union_l).
  split; try done; try congruence.
  - by eapply fs_rest_trans.
  - rewrite Bv, Av. by rewrite insert_insert_eq.
  - split; congruence.
  - split_and!; congruence.
  - split; [tauto|]. intros Hne. destruct (decide (sv_dirty sv2 = true)); [done|]. exfalso.
    destruct (decide (sv_dirty sv1 = true)); [tauto|].
    apply Hne. assert (K : forall b c : sfs_inode, ~ b <> c -> b = c) by (intros; by apply dec_stable).
    transitivity (sv_i sv1); apply K; tauto.
  - split; [tauto|]. intros Hne. destruct (decide (X1 = X)) as [<-|]; auto.
  - rewrite BX, AX. apply leibniz_equiv. intros b.
    rewrite !elem_of_union, !elem_of_list_to_set. specialize (Bmo b). clear -Bmo. tauto.
  - auto.
  - intros b [Hb|Hb]%Bn; [auto|]. right. auto.
  - intros b HbX Hbf Hr. rewrite Bfr; [auto | auto | | by rewrite Ab].
    intros [?|?]%An; done.
Qed.

(** One block more. *)
Lemma file_step_grow s X p sv s' sv' (j : nat) b :
  fs_ok s' ({[ b ]} ∪ X) -> file_ok s X (sv_i sv) -> fs_rest (sx_fs s) (sx_fs s') ->
  sx_heap s' = sx_heap s -> sx_vn s' = <[p := sv']> (sx_vn s) ->
  sv_v sv' = sv_v sv /\ sv_ino sv' = sv_ino sv ->
  sfi_type (sv_i sv') = sfi_type (sv_i sv) /\ sfi_linkcount (sv_i sv') = sfi_linkcount (sv_i sv) /\
    sfi_waste (sv_i sv') = sfi_waste (sv_i sv) ->
  sv' = sv \/ sv_dirty sv' = true -> fs_freemapdirty (sx_fs s') = true ->
  d_blocks (sx_dev s') = d_blocks (sx_dev s) -> 0 < b < nblocks s -> b ∉ X ->
  length (sfi_direct (sv_i sv')) = Z.to_nat SFS_NDIRECT ->
  refs (sx_dev s') (sv_i sv') = <[j := b]> (refs (sx_dev s) (sv_i sv)) ->
  refs (sx_dev s) (sv_i sv) !! j = Some 0 ->
  (forall c, c ∈ X -> c ∉ file_blocks (sx_dev s) (sv_i sv) -> 0 <= c < d_blocks (sx_dev s) ->
     sector (sx_dev s') c = sector (sx_dev s) c) ->
  file_step s X p sv s' ({[ b ]} ∪ X) sv'.
Proof.
  intros Hok Hf Hr Hh Hv Hv' Hm Hd He Hb Hbn HbX Hl Er Hj Hfr.
  assert (nblocks s' = nblocks s) as Hnb by (unfold nblocks; destruct Hr as (_ & -> & _); done).
  destruct (file_grow s s' X (sv_i sv) (sv_i sv') j b) as [Hf' P]; [done..|].
  split; try done.
  - split; destruct Hd as [->| ->]; done.
  - apply leibniz_equiv. intros c. rewrite !elem_of_union, elem_of_singleton, elem_of_list_to_set.
    rewrite P, elem_of_cons. destruct Hf as (_ & _ & Hf). specialize (Hf c). tauto.
  - intros c Hc. rewrite P. by right.
  - intros c Hc. rewrite P in Hc. apply elem_of_cons in Hc as [->|Hc]; [by right | by left].
Qed.
End Step.

(** ** [sfs_bmap] *)

Section Bmap.
Context {H D : Type} `{!Allocator H} `{!BlockDev D, !DevSize D, !Disk D, !CarefulLaws D} `{!CurSpace} {rf : Prop}.
Implicit Types (s : sfs H D) (X : gset Z) (d : D) (i : sfs_inode) (sv : sfs_vnode).

Lemma id_words_ok s X i :
  fs_ok s X -> file_ok s X i -> Forall word_ok (id_words (sx_dev s) i).
Proof.
  intros (Hd & _ & Hn & _) (_ & _ & Hb). unfold id_words. destruct (Z.eqb_spec (sfi_indirect i) 0).
  - apply Forall_replicate. unfold word_ok. lia.
  - apply bytes_words_ok. apply sector_law; [done|].
    destruct (Hb (sfi_indirect i)) as [_ ?]; [by apply indirect_in_file|]. unfold nblocks in *. lia.
Qed.

Lemma words_sector ws :
  length ws = Z.to_nat SFS_DBPERIDB -> Forall word_ok ws ->
  sector_wf (words_bytes ws) /\ bytes_words (Z.to_nat SFS_DBPERIDB) (words_bytes ws) = ws.
Proof.
  intros Hl Hw. split.
  - split; [by rewrite length_words_bytes, Hl | apply words_bytes_ok].
  - rewrite <- (app_nil_r (words_bytes ws)), <- Hl. by apply bytes_words_words_bytes.
Qed.

Lemma bmap_done_wp b s X :
  fs_ok s X -> b = 0 \/ (b ∈ X /\ 0 < b < nblocks s) ->
  wpx rf False (bmap_done b) s (fun '(r, b') s' => r = 0 /\ b' = b /\ s' = s).
Proof.
  intros Hok Hb. unfold bmap_done. destruct (Z.eqb_spec b 0) as [->|]; cbn [negb]; [by wp_steps|].
  destruct Hb as [?|[HbX Hr]]; [done|]. wp_step. eapply wp_mono; [apply sfs_bused_wp; [done | lia]|].
  intros r s' [-> ->]. wp_step. wp_step; [by apply bool_decide_eq_true|]. by wp_steps.
Qed.

(** Another file, none of whose blocks is shared, keeps its blocks and its
    contents. *)
Lemma file_step_other s X p sv s' X' sv' i :
  fs_ok s X -> file_step s X p sv s' X' sv' -> file_ok s X i ->
  (forall b, b ∈ file_blocks (sx_dev s) i -> b ∉ file_blocks (sx_dev s) (sv_i sv)) ->
  file_ok s' X' i /\ content (sx_dev s') i = content (sx_dev s) i /\
  (forall b, b ∈ file_blocks (sx_dev s') i -> b ∉ file_blocks (sx_dev s') (sv_i sv')).
Proof.
  intros (_ & _ & Hnb & _) F (Hl & Hn & Hb) Hdisj.
  assert (Hsec : forall b, b ∈ file_blocks (sx_dev s) i -> sector (sx_dev s') b = sector (sx_dev s) b).
  { intros b Hin. destruct (Hb b Hin) as [? ?]. apply (step_frame _ _ _ _ _ _ _ F); [done | by apply Hdisj |].
    unfold nblocks in *. lia. }
  assert (Ew : id_words (sx_dev s') i = id_words (sx_dev s) i).
  { unfold id_words. destruct (Z.eqb_spec (sfi_indirect i) 0); [done|].
    by rewrite Hsec by (by apply indirect_in_file). }
  assert (Ef : file_blocks (sx_dev s') i = file_blocks (sx_dev s) i) by (unfold file_blocks, refs; by rewrite Ew).
  split_and!.
  - split_and!; [done | by rewrite Ef |]. rewrite Ef, (step_nblocks _ _ _ _ _ _ _ F). intros b Hin.
    destruct (Hb b Hin) as [? ?]. split; [|done]. rewrite (step_X _ _ _ _ _ _ _ F). by apply elem_of_union_l.
  - unfold content, fdata. assert (Efb : fblocks (sx_dev s') i = fblocks (sx_dev s) i) by (unfold fblocks; by rewrite Ew).
    rewrite Efb. f_equal. apply list_fmap_ext. intros j c Hj. unfold block_data.
    destruct (Z.eqb_spec c 0); [done|]. apply Hsec. by eapply block_in_file.
  - rewrite Ef. intros b Hin Hin'. destruct (step_new _ _ _ _ _ _ _ F b Hin') as [?|?].
    + by apply (Hdisj b).
    + by destruct (Hb b Hin).
Qed.

Definition vol_full s X : Prop := forall c, 0 <= c < nblocks s -> c ∈ X.

(** The number of the block, and the file is as it was, but for the blocks it
    took; or the device or the volume refused. *)
Definition bmap_post s X p sv (k : nat) (doalloc : bool) (r b : Z) s' : Prop :=
  exists X' sv', file_step s X p sv s' X' sv' /\ sfi_size (sv_i sv') = sfi_size (sv_i sv) /\
    content (sx_dev s') (sv_i sv') = content (sx_dev s) (sv_i sv) /\
    (doalloc = false -> sv' = sv /\ X' = X /\ same_disk (sx_dev s) (sx_dev s') /\ sx_fs s' = sx_fs s) /\
    ((r = 0 /\ fblocks (sx_dev s') (sv_i sv') !! k = Some b /\ (doalloc = true -> b <> 0)) \/
     r = EIO \/ (r = ENOSPC /\ doalloc = true /\ vol_full s X')).

Lemma same_state s : mkSfs (sx_heap s) (sx_dev s) (sx_fs s) (sx_vn s) = s.
Proof. by destruct s. Qed.

Lemma bmap_found s X p sv (k : nat) doalloc b :
  fs_ok s X -> sx_vn s !! p = Some sv -> file_ok s X (sv_i sv) ->
  fblocks (sx_dev s) (sv_i sv) !! k = Some b -> (doalloc = true -> b <> 0) ->
  wpx rf False (bmap_done b) s (fun '(r, b') s' => bmap_post s X p sv k doalloc r b' s').
Proof.
  intros Hok Hsv Hf Hk Hda. pose proof Hf as (Hl & _ & Hb). eapply wp_mono.
  - apply (bmap_done_wp b s X Hok). destruct (decide (b = 0)); [by left|right].
    by eapply Hb, block_in_file.
  - intros [r b'] s' (-> & -> & ->). pose proof Hok as (Hd & _).
    destruct (file_step_refl s X p sv (sx_dev s) Hok Hsv Hf (same_disk_refl _ Hd)) as (F & _ & _).
    rewrite same_state in F. exists X, sv. split_and!; try done. by left.
Qed.

Lemma bmap_indirect_wp s X p sv (idoff : nat) doalloc :
  fs_ok s X -> sx_vn s !! p = Some sv -> file_ok s X (sv_i sv) -> sfi_indirect (sv_i sv) <> 0 ->
  (idoff < 128)%nat -> (doalloc = true -> MayRefuse rf) ->
  wpx rf False (bmap_indirect (sfi_indirect (sv_i sv)) (Z.of_nat idoff) doalloc (id_words (sx_dev s) (sv_i sv))) s
    (fun '(r, b) s' => bmap_post s X p sv (15 + idoff) doalloc r b s').
Proof.
  intros Hok Hsv Hf Hi Hoff Hrf. pose proof Hf as (Hl & Hn & Hb). set (i := sv_i sv) in *.
  pose proof (id_words_ok s X i Hok Hf) as Hwo. pose proof (length_id_words (sx_dev s) i) as Hlw.
  destruct (lookup_lt_is_Some_2 (id_words (sx_dev s) i) idoff) as [b Hidb]; [rewrite Hlw; exact Hoff|].
  assert (Hk : fblocks (sx_dev s) i !! (15 + idoff)%nat = Some b).
  { unfold fblocks. rewrite lookup_app_r; rewrite Hl; change (Z.to_nat SFS_NDIRECT) with 15%nat; [|lia].
    by replace (15 + idoff - 15)%nat with idoff by lia. }
  unfold bmap_indirect. wp_step. rewrite (rd_nat _ _ _ Hidb). wp_step. cbn [rwp].
  destruct (Z.eqb_spec b 0) as [->|Hb0]; [destruct doalloc|]; cbn [andb].
  2,3: apply bmap_found; done.
  specialize (Hrf eq_refl).
  destruct (Hb (sfi_indirect i)) as [HidX Hidr]; [by apply indirect_in_file|].
  pose proof Hok as (_ & _ & Hnb & _).
  wp_step. eapply wp_mono; [by apply sfs_balloc_wp|].
  intros [r b] s1 [(-> & -> & Hfull)|(-> & Hbr & HbX & Hok1 & Hr1 & Hh1 & Hv1 & He1 & Hset1)]; cbn [negb Z.eqb].
  - wp_steps. pose proof Hok as (Hd & _).
    destruct (file_step_refl s X p sv (sx_dev s) Hok Hsv Hf (same_disk_refl _ Hd)) as (F & _ & _).
    rewrite same_state in F. exists X, sv. split_and!; try done. right. by right.
  - wp_step. rewrite wr_nat by (rewrite Hlw; exact Hoff). wp_step. cbn [rwp]. wp_step. apply wp_on_dev.
    set (ws := <[idoff := b]> (id_words (sx_dev s) i)).
    assert (word_ok b) as Hbw.
    { destruct (dev_bounds (sx_dev s)) as [? _]; [apply Hok|]. unfold word_ok, MAXBLOCKS, nblocks in *. lia. }
    destruct (words_sector ws) as [Hws Hwr]; [by unfold ws; rewrite length_insert | by apply Forall_insert|].
    pose proof Hset1 as (Hd1 & Hbl1 & Hsec1).
    eapply wp_mono; [apply sfs_wblock_wp; [done | done | unfold nblocks in *; lia]|].
    intros r2 d2 [-> Hset2]. cbn [negb Z.eqb]. pose proof Hset2 as (Hd2 & Hbl2 & Hsec2).
    set (s2 := mkSfs (sx_heap s1) d2 (sx_fs s1) (sx_vn s1)).
    assert (Hok2 : fs_ok s2 ({[b]} ∪ X)) by (by eapply fs_ok_set_dev).
    assert (Hbid : b <> sfi_indirect i) by congruence.
    assert (Hsd2 : forall c, 0 <= c < d_blocks (sx_dev s) -> c <> b -> c <> sfi_indirect i ->
                     sector d2 c = sector (sx_dev s) c).
    { intros c Hc ? ?. rewrite Hsec2 by (rewrite Hbl1; done). rewrite decide_False by done.
      rewrite Hsec1 by done. by rewrite decide_False. }
    assert (Hw2 : id_words d2 i = ws).
    { unfold id_words. destruct (Z.eqb_spec (sfi_indirect i) 0); [done|].
      rewrite Hsec2 by (unfold nblocks in *; lia). by rewrite decide_True. }
    assert (F : file_step s X p sv s2 ({[b]} ∪ X) sv).
    { apply (file_step_grow s X p sv s2 sv (16 + idoff) b); simpl; try done; try congruence.
      - rewrite Hv1. by rewrite insert_id.
      - by left.
      - unfold refs. fold i. rewrite Hw2. unfold ws.
        rewrite insert_app_r_alt; rewrite Hl; change (Z.to_nat SFS_NDIRECT) with 15%nat; [|lia].
        by replace (16 + idoff - 15)%nat with (S idoff) by lia.
      - unfold refs. fold i. rewrite lookup_app_r; rewrite Hl; change (Z.to_nat SFS_NDIRECT) with 15%nat; [|lia].
        by replace (16 + idoff - 15)%nat with (S idoff) by lia.
      - intros c HcX Hcf Hcr. apply Hsd2; [done | congruence |]. intros ->. by apply Hcf, indirect_in_file. }
    assert (Ef : fblocks d2 i = <[(15 + idoff)%nat := b]> (fblocks (sx_dev s) i)).
    { unfold fblocks. rewrite Hw2. unfold ws. rewrite insert_app_r_alt; rewrite Hl;
        change (Z.to_nat SFS_NDIRECT) with 15%nat; [|lia]. by replace (15 + idoff - 15)%nat with idoff by lia. }
    assert (Hk2 : fblocks d2 i !! (15 + idoff)%nat = Some b).
    { rewrite Ef. apply list_lookup_insert_eq. by eapply lookup_lt_Some. }
    eapply wp_mono.
    + apply (bmap_done_wp b s2 _ Hok2). right. split; [by apply elem_of_union_l, elem_of_singleton|]. rewrite (step_nblocks _ _ _ _ _ _ _ F). done.
    + intros [r b'] s' (-> & -> & ->). exists ({[b]} ∪ X), sv. split_and!; try done; [|left; split_and!; try done; lia].
      unfold content. f_equal. apply (fdata_ext _ _ _ _ (15 + idoff) b); try done.
      * right. split_and!; [done | lia |]. rewrite Hsec2 by (unfold nblocks in *; lia).
        rewrite decide_False by done. rewrite Hsec1 by (unfold nblocks in *; lia). by rewrite decide_True.
      * intros j c _ Hj Hc. destruct (Hb c) as [HcX Hcr]; [by eapply block_in_file|].
        apply Hsd2; [unfold nblocks in *; lia | congruence |]. by eapply indirect_distinct.
      * fold i. rewrite Hk. intros [= <-]. done.
Qed.

Lemma bmap_post_trans s X p sv s1 X1 sv1 k r b s' :
  file_step s X p sv s1 X1 sv1 -> sfi_size (sv_i sv1) = sfi_size (sv_i sv) ->
  content (sx_dev s1) (sv_i sv1) = content (sx_dev s) (sv_i sv) ->
  bmap_post s1 X1 p sv1 k true r b s' -> bmap_post s X p sv k true r b s'.
Proof.
  intros F Hz Hc (X2 & sv2 & F2 & Hz2 & Hc2 & _ & Hr). exists X2, sv2. split_and!; try done; try congruence.
  - by eapply file_step_trans.
  - destruct Hr as [?|[?|(? & ? & Hfull)]]; [by left | right; by left | right; right]. split_and!; try done.
    unfold vol_full in *. by rewrite (step_nblocks _ _ _ _ _ _ _ F) in Hfull.
Qed.

(** A direct block is taken. *)
Lemma bmap_direct_alloc s X p sv (k : nat) b s1 :
  fs_ok s X -> sx_vn s !! p = Some sv -> file_ok s X (sv_i sv) -> (k < 15)%nat ->
  fblocks (sx_dev s) (sv_i sv) !! k = Some 0 ->
  0 < b < nblocks s -> b ∉ X -> fs_ok s1 ({[ b ]} ∪ X) -> fs_rest (sx_fs s) (sx_fs s1) ->
  sx_heap s1 = sx_heap s -> sx_vn s1 = sx_vn s -> fs_freemapdirty (sx_fs s1) = true ->
  disk_set (sx_dev s) b zero_block (sx_dev s1) ->
  let sv' := dirty_inode (set_direct (<[k := b]> (sfi_direct (sv_i sv)))) sv in
  let s2 := set_vn (<[p := sv']> (sx_vn s1)) s1 in
  file_step s X p sv s2 ({[ b ]} ∪ X) sv' /\
  content (sx_dev s2) (sv_i sv') = content (sx_dev s) (sv_i sv) /\
  fblocks (sx_dev s2) (sv_i sv') !! k = Some b.
Proof.
  intros Hok Hsv Hf Hk15 Hk Hbr HbX Hok1 Hr1 Hh1 Hv1 He1 (Hd1 & Hbl1 & Hsec1) sv' s2.
  pose proof Hf as (Hl & Hn & Hb). pose proof Hok as (_ & _ & Hnb & _). unfold nblocks in Hbr, Hb.
  change (Z.to_nat SFS_NDIRECT) with 15%nat in Hl.
  assert (Hother : forall c, c ∈ X -> 0 <= c < d_blocks (sx_dev s) -> sector (sx_dev s1) c = sector (sx_dev s) c).
  { intros c HcX Hc. rewrite Hsec1 by done. rewrite decide_False by congruence. done. }
  assert (Ew : id_words (sx_dev s1) (sv_i sv') = id_words (sx_dev s) (sv_i sv)).
  { unfold id_words, sv'. cbn [sv_i dirty_inode set_direct set_indirect sfi_indirect]. destruct (Z.eqb_spec (sfi_indirect (sv_i sv)) 0); [done|].
    destruct (Hb (sfi_indirect (sv_i sv))) as [? ?]; [by apply indirect_in_file|].
    rewrite Hother; [done | done | lia]. }
  assert (Ef : fblocks (sx_dev s1) (sv_i sv') = <[k := b]> (fblocks (sx_dev s) (sv_i sv))).
  { unfold fblocks. rewrite Ew. simpl. by rewrite insert_app_l by lia. }
  assert (Er : refs (sx_dev s1) (sv_i sv') = <[k := b]> (refs (sx_dev s) (sv_i sv))).
  { unfold refs. rewrite Ew. simpl. by rewrite insert_app_l by lia. }
  split_and!.
  - apply (file_step_grow s X p sv s2 sv' k b); try done; simpl.
    + by rewrite Hv1.
    + by right.
    + by rewrite length_insert.
    + pose proof (fblocks_lookup _ _ _ _ Hl Hk) as Hl2. by rewrite decide_True in Hl2 by done.
    + intros c HcX _ Hc. by apply Hother.
  - unfold content. f_equal. apply (fdata_ext _ _ _ _ k b); try done.
    + right. split_and!; [done | lia |]. simpl. rewrite Hsec1 by lia. by rewrite decide_True.
    + intros j c _ Hj Hc. destruct (Hb c) as [? ?]; [by eapply block_in_file|]. apply Hother; [done | lia].
    + rewrite Hk. intros [= <-]. done.
  - change (sx_dev s2) with (sx_dev s1). rewrite Ef. apply list_lookup_insert_eq. by eapply lookup_lt_Some.
Qed.

Lemma zero_words : bytes_words (Z.to_nat SFS_DBPERIDB) zero_block = replicate (Z.to_nat SFS_DBPERIDB) 0.
Proof. vm_compute. reflexivity. Qed.

(** An indirect block is taken. *)
Lemma bmap_indirect_alloc s X p sv b s1 :
  fs_ok s X -> sx_vn s !! p = Some sv -> file_ok s X (sv_i sv) -> sfi_indirect (sv_i sv) = 0 ->
  0 < b < nblocks s -> b ∉ X -> fs_ok s1 ({[ b ]} ∪ X) -> fs_rest (sx_fs s) (sx_fs s1) ->
  sx_heap s1 = sx_heap s -> sx_vn s1 = sx_vn s -> fs_freemapdirty (sx_fs s1) = true ->
  disk_set (sx_dev s) b zero_block (sx_dev s1) ->
  let sv' := dirty_inode (set_indirect b) sv in
  let s2 := set_vn (<[p := sv']> (sx_vn s1)) s1 in
  file_step s X p sv s2 ({[ b ]} ∪ X) sv' /\
  content (sx_dev s2) (sv_i sv') = content (sx_dev s) (sv_i sv) /\
  id_words (sx_dev s2) (sv_i sv') = replicate (Z.to_nat SFS_DBPERIDB) 0.
Proof.
  intros Hok Hsv Hf Hi0 Hbr HbX Hok1 Hr1 Hh1 Hv1 He1 (Hd1 & Hbl1 & Hsec1) sv' s2.
  pose proof Hf as (Hl & Hn & Hb). pose proof Hok as (_ & _ & Hnb & _). unfold nblocks in Hbr, Hb.
  assert (Hother : forall c, c ∈ X -> 0 <= c < d_blocks (sx_dev s) -> sector (sx_dev s1) c = sector (sx_dev s) c).
  { intros c HcX Hc. rewrite Hsec1 by done. rewrite decide_False by congruence. done. }
  assert (Ew : id_words (sx_dev s1) (sv_i sv') = replicate (Z.to_nat SFS_DBPERIDB) 0).
  { unfold id_words, sv'. cbn [sv_i dirty_inode set_direct set_indirect sfi_indirect]. destruct (Z.eqb_spec b 0); [done|].
    rewrite Hsec1 by lia. rewrite decide_True by done. apply zero_words. }
  assert (Ew0 : id_words (sx_dev s) (sv_i sv) = replicate (Z.to_nat SFS_DBPERIDB) 0)
    by (unfold id_words; by rewrite Hi0).
  assert (Hl15 : length (sfi_direct (sv_i sv)) = 15%nat) by exact Hl.
  assert (Er : refs (sx_dev s1) (sv_i sv') = <[15%nat := b]> (refs (sx_dev s) (sv_i sv))).
  { unfold refs. rewrite Ew, Ew0. simpl. rewrite insert_app_r_alt by lia. by rewrite Hl15. }
  split_and!; [| |done].
  - apply (file_step_grow s X p sv s2 sv' 15 b); try done; simpl.
    + by rewrite Hv1.
    + by right.
    + unfold refs. rewrite lookup_app_r by lia. rewrite Hl15. simpl. by rewrite Hi0.
    + intros c HcX _ Hc. by apply Hother.
  - change (sx_dev s2) with (sx_dev s1). unfold content, fdata, fblocks. rewrite Ew, Ew0. f_equal.
    apply list_fmap_ext. intros j c Hj. unfold block_data. destruct (Z.eqb_spec c 0); [done|].
    destruct (Hb c) as [? ?]; [eapply (block_in_file _ _ j); try done; unfold fblocks; by rewrite Ew0|].
    apply Hother; [done | lia].
Qed.

Lemma sfs_bmap_wp s X p sv (k : nat) doalloc :
  fs_ok s X -> sx_vn s !! p = Some sv -> file_ok s X (sv_i sv) -> (doalloc = true -> MayRefuse rf) ->
  wpx rf False (sfs_bmap p (Z.of_nat k) doalloc) s (fun '(r, b) s' =>
    if decide (Z.of_nat k < MAXFBLOCKS) then bmap_post s X p sv k doalloc r b s'
    else r = EINVAL /\ s' = s).
Proof.
  intros Hok Hsv Hf Hrf. pose proof Hf as (Hl & Hn & Hb). pose proof Hok as (Hd & _ & Hnb & _).
  assert (Hl15 : length (sfi_direct (sv_i sv)) = 15%nat) by exact Hl.
  assert (Hnospc : vol_full s X -> bmap_post s X p sv k true ENOSPC 0 s).
  { intros Hfull. destruct (file_step_refl s X p sv (sx_dev s) Hok Hsv Hf (same_disk_refl _ Hd)) as (F & _ & _).
    rewrite same_state in F. exists X, sv. split_and!; try done. right. by right. }
  destruct (decide (Z.of_nat k < MAXFBLOCKS)) as [Hlt|Hge]; unfold MAXFBLOCKS, SFS_NDIRECT, SFS_DBPERIDB in *;
    unfold sfs_bmap, SFS_NDIRECT, SFS_DBPERIDB; wp_step; (eapply wp_get_sv; [done|]);
    (destruct (Z.ltb_spec (Z.of_nat k) 15) as [Hk|Hk]; [try lia|]);
    try (destruct (Z.gtb_spec ((Z.of_nat k - 15) / 128) 0) as [Hbig|Hsmall];
         [try (exfalso; Z.to_euclidean_division_equations; lia)
         |try (exfalso; Z.to_euclidean_division_equations; lia)]).
  3: by wp_steps.
  - destruct (lookup_lt_is_Some_2 (sfi_direct (sv_i sv)) k) as [b Hkb]; [lia|].
    assert (Hfb : fblocks (sx_dev s) (sv_i sv) !! k = Some b) by (unfold fblocks; rewrite lookup_app_l by lia; done).
    wp_step. rewrite (rd_nat _ _ _ Hkb). wp_step. cbn [rwp].
    destruct (Z.eqb_spec b 0) as [->|Hb0]; [destruct doalloc|]; cbn [andb].
    2,3: apply bmap_found; done.
    specialize (Hrf eq_refl).
    wp_step. eapply wp_mono; [by apply sfs_balloc_wp|].
    intros [r b] s1 [(-> & -> & Hfull)|(-> & Hbr & HbX & Hok1 & Hr1 & Hh1 & Hv1 & He1 & Hset1)]; cbn [negb Z.eqb].
    { wp_steps. by apply Hnospc. }
    wp_step. rewrite wr_nat by lia. wp_step. cbn [rwp]. wp_step.
    destruct (bmap_direct_alloc s X p sv k b s1) as (F & Hc & Hk2); try done; [lia|].
    eapply wp_modify_sv; [rewrite Hv1; exact Hsv|].
    eapply wp_mono; [apply (bmap_found _ ({[b]} ∪ X) p
      (dirty_inode (set_direct (<[k := b]> (sfi_direct (sv_i sv)))) sv) k true b);
      [apply F | | apply F | exact Hk2 | lia]|].
    { simpl. rewrite Hv1. apply lookup_insert_eq. }
    intros [r b'] s' Hp. by eapply bmap_post_trans.
  - rewrite Z.mod_small by lia.
    set (off := (k - 15)%nat). replace (Z.of_nat k - 15) with (Z.of_nat off) by lia.
    replace k with (15 + off)%nat in * by lia.
    destruct (Z.eqb_spec (sfi_indirect (sv_i sv)) 0) as [Hi0|Hi]; [destruct doalloc|]; cbn [andb negb].
    + specialize (Hrf eq_refl). wp_step. eapply wp_mono; [by apply sfs_balloc_wp|].
      intros [r b] s1 [(-> & -> & Hfull)|(-> & Hbr & HbX & Hok1 & Hr1 & Hh1 & Hv1 & He1 & Hset1)]; cbn [negb Z.eqb].
      { wp_steps. by apply Hnospc. }
      destruct (bmap_indirect_alloc s X p sv b s1) as (F & Hc & Hw); try done.
      wp_step. eapply wp_modify_sv; [rewrite Hv1; exact Hsv|].
      change (replicate (Z.to_nat 128) 0) with (replicate (Z.to_nat SFS_DBPERIDB) 0). rewrite <- Hw.
      eapply wp_mono; [apply (bmap_indirect_wp _ ({[b]} ∪ X) p (dirty_inode (set_indirect b) sv) off true);
        [apply F | | apply F | simpl; lia | lia | done]|].
      { simpl. rewrite Hv1. apply lookup_insert_eq. }
      intros [r b'] s' Hp. by eapply bmap_post_trans.
    + wp_steps. destruct (file_step_refl s X p sv (sx_dev s) Hok Hsv Hf (same_disk_refl _ Hd)) as (F & _ & _).
      rewrite same_state in F. exists X, sv. split_and!; try done. left. split_and!; try done.
      unfold fblocks. rewrite lookup_app_r by lia. rewrite Hl15. unfold id_words. rewrite Hi0. simpl Z.eqb. cbv iota.
      apply lookup_replicate_2. unfold SFS_DBPERIDB. lia.
    + wp_step. apply wp_on_dev. destruct (Hb (sfi_indirect (sv_i sv))) as [? ?]; [by apply indirect_in_file|].
      eapply wp_mono; [apply sfs_rblock_wp; [done | apply zero_block_wf | unfold nblocks in *; lia]|].
      intros [r bs] d1 [Hs1 Hor].
      destruct (file_step_refl s X p sv d1 Hok Hsv Hf Hs1) as (F & Ef & Ec).
      destruct Hor as [[-> ->]|[-> ->]]; cbn [negb Z.eqb].
      * assert (Ew : bytes_words (Z.to_nat SFS_DBPERIDB) (sector (sx_dev s) (sfi_indirect (sv_i sv))) =
                     id_words d1 (sv_i sv)).
        { unfold fblocks in Ef. apply app_inv_head in Ef. rewrite Ef. unfold id_words.
          by destruct (Z.eqb_spec (sfi_indirect (sv_i sv)) 0). }
        unfold SFS_DBPERIDB in Ew. rewrite Ew.
        set (s1 := mkSfs (sx_heap s) d1 (sx_fs s) (sx_vn s)) in *. change d1 with (sx_dev s1).
        eapply wp_mono; [apply (bmap_indirect_wp s1 X p sv off doalloc); [apply F | exact Hsv | apply F | done | lia | done]|].
        intros [r b'] s' (X2 & sv2 & F2 & Hz2 & Hc2 & Hda & Hr). exists X2, sv2.
        split_and!; [by eapply file_step_trans | done | exact (eq_trans Hc2 Ec) | | done].
        intros Hfa. destruct (Hda Hfa) as (? & ? & ? & ?). split_and!; try done. by eapply same_disk_trans.
      * wp_steps. exists X, sv. split_and!; try done. right. by left.
Qed.
End Bmap.
