(* ===== verification/SfsIo.v ===== *)
(** * SFS: reading and writing files

    [sfs_io] and the functions under it move bytes between the caller's memory
    and the contents of the file; [xfer_uio] and [xfer_content] are what [m]
    bytes make of the two, in either direction. *)

From S2P Require Import Prelude.
From S2P Require Import Array.
From S2P Require Import Bitmap.
From S2P Require Import Bytes.
From S2P Require Import Copyinout.
From S2P Require Import Uio.
From S2P Require Import Blockdev.
From S2P Require Import Vnode.
From S2P Require Import Sfs.
From S2P Require Import SfsBlock.
From S2P Require Import SfsFile.

Definition xfer_uio (c : list Z) (m : nat) (u : uio) : uio :=
  match uio_rw u with
  | UIO_READ => uio_fill (slice c (Z.to_nat (uio_offset u)) m) u
  | UIO_WRITE => advance (Z.of_nat m) u
  end.

Definition xfer_content (c : list Z) (m : nat) (u : uio) : list Z :=
  match uio_rw u with
  | UIO_READ => c
  | UIO_WRITE => splice c (Z.to_nat (uio_offset u)) (uio_data u m)
  end.

Section Xfer.
Context {cur : Z}.
Implicit Types (u : uio) (c : list Z).

Lemma xfer_0 u c : uio_wf cur u -> xfer_uio c 0 u = u /\ xfer_content c 0 u = c.
Proof.
  intros Hw. unfold xfer_uio, xfer_content. unfold slice, uio_data, slice. rewrite !take_0.
  destruct (uio_rw u).
  - by rewrite (uio_fill_nil cur).
  - rewrite splice_nil. change (Z.of_nat 0) with 0. by rewrite (advance_0 cur).
Qed.

Lemma xfer_wf u c (m : nat) :
  uio_wf cur u -> Z.of_nat m <= uio_resid u -> Forall byte_ok c ->
  uio_offset u + Z.of_nat m <= Z.of_nat (length c) ->
  uio_wf cur (xfer_uio c m u) /\
  uio_offset (xfer_uio c m u) = uio_offset u + Z.of_nat m /\
  uio_resid (xfer_uio c m u) = uio_resid u - Z.of_nat m /\ uio_rw (xfer_uio c m u) = uio_rw u.
Proof.
  intros Hw Hm Hc Ho. pose proof Hw as (? & ? & ? & ? & ? & ? & _). unfold xfer_uio.
  destruct (uio_rw u) eqn:E.
  - assert (L : length (slice c (Z.to_nat (uio_offset u)) m) = m) by (apply length_slice; lia).
    pose proof (uio_fill_fields cur u (slice c (Z.to_nat (uio_offset u)) m) Hw) as F. rewrite L in F.
    destruct F as (-> & -> & _ & _ & ->); [lia|]. split; [|done].
    apply uio_fill_wf; [done | lia | by apply Forall_slice].
  - split; [apply advance_wf; [done | lia]|]. rewrite (advance_small cur) by (done || lia). done.
Qed.

Lemma xfer_access u c (m : nat) n :
  uio_wf cur u -> uio_access u (Z.of_nat m + n) -> Z.of_nat m <= uio_resid u ->
  uio_offset u + Z.of_nat m <= Z.of_nat (length c) -> uio_access (xfer_uio c m u) n.
Proof.
  intros Hw Ha Hm Ho. pose proof Hw as (? & ? & ? & ? & ? & ? & _). unfold xfer_uio. destruct (uio_rw u).
  - assert (L : length (slice c (Z.to_nat (uio_offset u)) m) = m) by (apply length_slice; lia).
    apply (uio_access_fill cur); rewrite ?L; done.
  - apply uio_access_advance; [done | lia].
Qed.

Lemma length_xfer_content u c (m : nat) :
  uio_wf cur u -> Z.of_nat m <= uio_resid u -> uio_offset u + Z.of_nat m <= Z.of_nat (length c) ->
  length (xfer_content c m u) = length c.
Proof.
  intros Hw Hm Ho. pose proof Hw as (? & ? & ? & ? & ? & ? & _). unfold xfer_content.
  destruct (uio_rw u); [done|]. apply length_splice. rewrite (length_uio_data cur) by done. lia.
Qed.

(** Two transfers in a row are one. *)
Lemma xfer_trans u c (m k : nat) :
  uio_wf cur u -> Z.of_nat m + Z.of_nat k <= uio_resid u -> Forall byte_ok c ->
  uio_offset u + Z.of_nat m + Z.of_nat k <= Z.of_nat (length c) ->
  xfer_uio (xfer_content c m u) k (xfer_uio c m u) = xfer_uio c (m + k) u /\
  xfer_content (xfer_content c m u) k (xfer_uio c m u) = xfer_content c (m + k) u.
Proof.
  intros Hw Hm Hc Ho. pose proof Hw as (? & ? & ? & ? & ? & ? & _).
  destruct (xfer_wf u c m) as (Hw1 & Eo & Er & Erw); [done | lia | done | lia |].
  unfold xfer_uio at 1, xfer_content at 2. rewrite Erw, Eo. unfold xfer_content, xfer_uio.
  replace (Z.to_nat (uio_offset u + Z.of_nat m)) with (Z.to_nat (uio_offset u) + m)%nat by lia.
  destruct (uio_rw u) eqn:E.
  - split; [|done]. rewrite slice_app. apply (uio_fill_app cur); [done| |by apply Forall_slice].
    rewrite !length_slice by lia. lia.
  - split.
    + rewrite (advance_advance cur) by (done || lia). f_equal. lia.
    + assert (L : length (uio_data u m) = m) by (apply (length_uio_data cur); [done | lia]).
      rewrite uio_data_app by lia. rewrite <- L at 2. rewrite splice_app; [done|]. rewrite L.
      assert (L2 : length (uio_data (advance (Z.of_nat m) u) k) = k).
      { apply (length_uio_data cur); [by apply advance_wf; [|lia]|]. rewrite (advance_small cur) by (done || lia).
        simpl. lia. }
      rewrite L2. lia.
Qed.
End Xfer.

Lemma filter_NoDup_inj {A} (P : A -> Prop) `{!forall x, Decision (P x)} (l : list A) (i j : nat) x :
  NoDup (filter P l) -> l !! i = Some x -> l !! j = Some x -> P x -> i = j.
Proof.
  revert i j. induction l as [|y l IH]; intros i j Hn Hi Hj HP; [done|].
  rewrite filter_cons in Hn.
  assert (Hin : forall k, l !! k = Some x -> x ∈ filter P l).
  { intros k Hk. apply list_elem_of_filter. split; [done|]. by eapply list_elem_of_lookup_2. }
  destruct i as [|i], j as [|j]; simpl in *; [done|..].
  - injection Hi as ->. rewrite decide_True in Hn by done. apply NoDup_cons in Hn as [Hn _]. naive_solver.
  - injection Hj as ->. rewrite decide_True in Hn by done. apply NoDup_cons in Hn as [Hn _]. naive_solver.
  - f_equal. apply IH; try done. destruct (decide (P y)); [by apply NoDup_cons in Hn as [_ ?] | done].
Qed.

Section Io.
Context {H D : Type} `{!Allocator H} `{!BlockDev D, !DevSize D, !Disk D, !CarefulLaws D} `{!CurSpace} {rf : Prop}.
Implicit Types (s : sfs H D) (X : gset Z) (d : D) (i : sfs_inode) (sv : sfs_vnode) (u : uio).

Lemma fblocks_inj d i (j k : nat) b :
  length (sfi_direct i) = Z.to_nat SFS_NDIRECT -> NoDup (file_blocks d i) ->
  fblocks d i !! j = Some b -> fblocks d i !! k = Some b -> b <> 0 -> j = k.
Proof.
  intros Hl Hn Hj Hk Hb. pose proof (fblocks_lookup d i j b Hl Hj) as Rj.
  pose proof (fblocks_lookup d i k b Hl Hk) as Rk.
  pose proof (filter_NoDup_inj (fun b => b <> 0) _ _ _ _ Hn Rj Rk Hb) as E.
  destruct (decide (j < 15)%nat), (decide (k < 15)%nat); lia.
Qed.

Lemma block_data_wf s X i (k : nat) b :
  fs_ok s X -> file_ok s X i -> fblocks (sx_dev s) i !! k = Some b -> sector_wf (block_data (sx_dev s) b).
Proof.
  intros (Hd & _ & Hn & _) (Hl & _ & Hb) Hk. unfold block_data. destruct (Z.eqb_spec b 0); [apply zero_block_wf|].
  apply sector_law; [done|]. destruct (Hb b) as [_ ?]; [by eapply block_in_file|]. unfold nblocks in *. lia.
Qed.

Lemma fdata_wf s X i : fs_ok s X -> file_ok s X i -> Forall sector_wf (fdata (sx_dev s) i).
Proof.
  intros Hok Hf. apply Forall_fmap, Forall_lookup_2. intros k b Hk. simpl. by eapply block_data_wf.
Qed.

Lemma fdata_len s X i :
  fs_ok s X -> file_ok s X i -> Forall (fun l => length l = 512%nat) (fdata (sx_dev s) i).
Proof. intros Hok Hf. eapply Forall_impl; [by eapply fdata_wf|]. intros l [Hl _]. exact Hl. Qed.

Lemma content_wf s X i :
  fs_ok s X -> file_ok s X i ->
  length (content (sx_dev s) i) = Z.to_nat MAXFILE /\ Forall byte_ok (content (sx_dev s) i).
Proof.
  intros Hok Hf. pose proof (fdata_len s X i Hok Hf) as Hl. split.
  - unfold content. rewrite (length_join 512) by done. unfold fdata. rewrite length_fmap.
    rewrite length_fblocks by apply Hf. reflexivity.
  - apply Forall_lookup_2. intros k x Hx. pose proof (fdata_wf s X i Hok Hf) as Hw.
    apply list_elem_of_lookup_2 in Hx. apply list_elem_of_join in Hx as (l & Hxl & Hl').
    eapply (Forall_forall byte_ok l); [|done]. eapply (Forall_forall sector_wf _) in Hw; [by apply Hw | done].
Qed.

Lemma content_block s X i (k : nat) b :
  fs_ok s X -> file_ok s X i -> fblocks (sx_dev s) i !! k = Some b ->
  slice (content (sx_dev s) i) (512 * k) 512 = block_data (sx_dev s) b.
Proof.
  intros Hok Hf Hk. apply slice_join; [by eapply fdata_len|]. unfold fdata.
  by rewrite list_lookup_fmap, Hk.
Qed.

(** Overwriting a data block of the file. *)
Lemma file_step_write s X p sv (k : nat) b bs d' :
  fs_ok s X -> sx_vn s !! p = Some sv -> file_ok s X (sv_i sv) ->
  fblocks (sx_dev s) (sv_i sv) !! k = Some b -> b <> 0 -> length bs = 512%nat ->
  disk_set (sx_dev s) b bs d' ->
  file_step s X p sv (mkSfs (sx_heap s) d' (sx_fs s) (sx_vn s)) X sv /\
  content d' (sv_i sv) = splice (content (sx_dev s) (sv_i sv)) (512 * k) bs.
Proof.
  intros Hok Hsv Hf Hk Hb0 Hlb Hset. pose proof Hset as (Hd' & Hbl & Hsec). pose proof Hf as (Hl & Hn & Hb).
  pose proof Hok as (_ & _ & Hnb & _).
  assert (Hin : forall c, c ∈ file_blocks (sx_dev s) (sv_i sv) -> 0 <= c < d_blocks (sx_dev s)).
  { intros c Hc. destruct (Hb c Hc). unfold nblocks in *. lia. }
  assert (Hbf : b ∈ file_blocks (sx_dev s) (sv_i sv)) by (by eapply block_in_file).
  assert (Ei : id_words d' (sv_i sv) = id_words (sx_dev s) (sv_i sv)).
  { unfold id_words. destruct (Z.eqb_spec (sfi_indirect (sv_i sv)) 0); [done|].
    rewrite Hsec by (by apply Hin, indirect_in_file). rewrite decide_False; [done|].
    intros E. symmetry in E. by apply (indirect_distinct _ _ _ _ Hl Hn Hk Hb0). }
  assert (Ef : fblocks d' (sv_i sv) = fblocks (sx_dev s) (sv_i sv)) by (unfold fblocks; by rewrite Ei).
  assert (Eb : file_blocks d' (sv_i sv) = file_blocks (sx_dev s) (sv_i sv)).
  { unfold file_blocks, refs. by rewrite Ei. }
  split.
  - split; cbn [sx_dev sx_heap sx_fs sx_vn]; rewrite ?Eb.
    + by eapply fs_ok_set_dev.
    + unfold file_ok. simpl. rewrite Eb. by split_and!.
    + apply fs_rest_refl.
    + done.
    + by rewrite insert_id.
    + done.
    + done.
    + done.
    + done.
    + apply leibniz_equiv. intros c. rewrite elem_of_union, elem_of_list_to_set.
      split; [by left|]. intros [?|?]; [done|]. by apply Hb.
    + done.
    + intros c ?. by left.
    + done.
    + intros c ? Hc ?. rewrite Hsec by done. rewrite decide_False; [done|]. by intros ->.
  - pose proof (lookup_lt_Some _ _ _ Hk) as Hlt.
    unfold content. rewrite <- join_insert; [|by eapply fdata_len | unfold fdata; by rewrite length_fmap | done].
    f_equal. unfold fdata. rewrite Ef. apply list_eq. intros j. rewrite list_lookup_fmap.
    destruct (decide (j = k)) as [->|Hj].
    + rewrite list_lookup_insert_eq by (by rewrite length_fmap). rewrite Hk. simpl. f_equal. unfold block_data.
      destruct (Z.eqb_spec b 0); [done|]. rewrite Hsec by (by apply Hin). by rewrite decide_True.
    + rewrite list_lookup_insert_ne by done. rewrite list_lookup_fmap.
      destruct (fblocks (sx_dev s) (sv_i sv) !! j) as [c|] eqn:Ec; [|done]. simpl. f_equal. unfold block_data.
      destruct (Z.eqb_spec c 0); [done|]. rewrite Hsec by (by eapply Hin, block_in_file).
      rewrite decide_False; [done|]. intros ->. apply Hj. by eapply fblocks_inj.
Qed.

(** [m] bytes went through. *)
Record io_step s X (p : Z) sv u (m : nat) s' X' sv' u' : Prop := {
  io_file : file_step s X p sv s' X' sv';
  io_size : sfi_size (sv_i sv') = sfi_size (sv_i sv);
  io_uio : u' = xfer_uio (content (sx_dev s) (sv_i sv)) m u;
  io_content : content (sx_dev s') (sv_i sv') = xfer_content (content (sx_dev s) (sv_i sv)) m u;
  io_read : uio_rw u = UIO_READ ->
    sv' = sv /\ X' = X /\ same_disk (sx_dev s) (sx_dev s') /\ sx_fs s' = sx_fs s;
}.

(** Why a transfer stops, at the end of a block if it moved anything: the device, a full volume, the end of the last block
    a file can have. *)
Definition io_error s X u (r : Z) : Prop :=
  r = EIO \/ (r = ENOSPC /\ uio_rw u = UIO_WRITE /\ vol_full s X) \/
  (r = EINVAL /\ MAXFILE < uio_offset u + uio_resid u).

Lemma io_error_from s s1 X u u1 r :
  nblocks s1 = nblocks s -> uio_rw u1 = uio_rw u -> uio_offset u1 + uio_resid u1 = uio_offset u + uio_resid u ->
  io_error s1 X u1 r -> io_error s X u r.
Proof. unfold io_error, vol_full. by intros -> -> ->. Qed.

Definition io_post s X p sv u (n : nat) (r : Z) u' s' : Prop :=
  exists X' sv' m, io_step s X p sv u m s' X' sv' u' /\ (m <= n)%nat /\
    uio_offset u + Z.of_nat m <= MAXFILE /\
    ((r = 0 /\ m = n) \/
     (io_error s X' u r /\ (m = 0%nat \/ ((uio_offset u + Z.of_nat m) mod SFS_BLOCKSIZE = 0 /\ (m < n)%nat)))).

Definition io_ready s X p sv u : Prop :=
  fs_ok s X /\ sx_vn s !! p = Some sv /\ file_ok s X (sv_i sv) /\
  uio_wf cur_space u /\ uio_access u (uio_resid u) /\ uio_offset u <= MAXFILE /\
  (is_write u = true -> MayRefuse rf).

Lemma io_step_ready s X p sv u (m : nat) s' X' sv' u' :
  io_ready s X p sv u -> io_step s X p sv u m s' X' sv' u' ->
  Z.of_nat m <= uio_resid u -> uio_offset u + Z.of_nat m <= MAXFILE ->
  io_ready s' X' p sv' u' /\ uio_offset u' = uio_offset u + Z.of_nat m /\
  uio_resid u' = uio_resid u - Z.of_nat m /\ uio_rw u' = uio_rw u.
Proof.
  intros (Hok & Hsv & Hf & Hw & Ha & Ho & Hrf) S Hm HM. destruct S as [F _ -> _ _].
  destruct (content_wf s X (sv_i sv) Hok Hf) as [Hl Hb].
  assert (HMl : Z.of_nat (length (content (sx_dev s) (sv_i sv))) = MAXFILE)
    by (rewrite Hl; unfold MAXFILE, MAXFBLOCKS, SFS_BLOCKSIZE, SFS_NDIRECT, SFS_DBPERIDB; lia).
  destruct (@xfer_wf cur_space u (content (sx_dev s) (sv_i sv)) m) as (Hw' & Eo & Er & Erw); [done..|lia|].
  split; [|done]. split_and!; [apply F| |apply F|done| |lia| ].
  - rewrite (step_vn _ _ _ _ _ _ _ F). apply lookup_insert_eq.
  - rewrite Er. apply (@xfer_access cur_space); [done| |done | lia].
    by replace (Z.of_nat m + (uio_resid u - Z.of_nat m)) with (uio_resid u) by lia.
  - unfold is_write. by rewrite Erw.
Qed.

Lemma io_step_trans s X p sv u (m k : nat) s1 X1 sv1 u1 s2 X2 sv2 u2 :
  io_ready s X p sv u -> Z.of_nat m + Z.of_nat k <= uio_resid u ->
  uio_offset u + Z.of_nat m + Z.of_nat k <= MAXFILE ->
  io_step s X p sv u m s1 X1 sv1 u1 -> io_step s1 X1 p sv1 u1 k s2 X2 sv2 u2 ->
  io_step s X p sv u (m + k) s2 X2 sv2 u2.
Proof.
  intros Hr Hm HM A B.
  destruct (io_step_ready _ _ _ _ _ _ _ _ _ _ Hr A) as (_ & _ & _ & Erw); [lia..|].
  pose proof Hr as (Hok & Hsv & Hf & Hw & _ & _).
  destruct (content_wf s X (sv_i sv) Hok Hf) as [Hl Hb].
  assert (HMl : Z.of_nat (length (content (sx_dev s) (sv_i sv))) = MAXFILE)
    by (rewrite Hl; unfold MAXFILE, MAXFBLOCKS, SFS_BLOCKSIZE, SFS_NDIRECT, SFS_DBPERIDB; lia).
  destruct A as [AF As Au Ac Ar], B as [BF Bs Bu Bc Br]. subst u1 u2.
  destruct (@xfer_trans cur_space u (content (sx_dev s) (sv_i sv)) m k Hw) as [T1 T2]; [lia | done | lia|].
  split.
  - by eapply file_step_trans.
  - congruence.
  - by rewrite Ac, T1.
  - by rewrite Bc, Ac, T2.
  - intros Hrd. destruct (Ar Hrd) as (-> & -> & ? & ?). destruct Br as (-> & -> & ? & ?); [congruence|].
    split_and!; try done; [by eapply same_disk_trans | congruence].
Qed.

Lemma bmap_io_step s X p sv u k r b s' :
  io_ready s X p sv u -> bmap_post s X p sv k (is_write u) r b s' ->
  exists X' sv', io_step s X p sv u 0 s' X' sv' u /\
    ((r = 0 /\ fblocks (sx_dev s') (sv_i sv') !! k = Some b /\ (is_write u = true -> b <> 0)) \/
     r = EIO \/ (r = ENOSPC /\ uio_rw u = UIO_WRITE /\ vol_full s X')).
Proof.
  intros (_ & _ & _ & Hw & _) (X' & sv' & F & Hz & Hc & Hda & Hr). exists X', sv'.
  destruct (@xfer_0 cur_space u (content (sx_dev s) (sv_i sv)) Hw) as [E1 E2]. split.
  - split; [done | done | by rewrite E1 | by rewrite E2 |]. intros Hrd. apply Hda.
    unfold is_write. by rewrite Hrd.
  - destruct Hr as [?|[?|(? & Hd & ?)]]; [by left | right; by left | right; right].
    split_and!; [done | | done]. unfold is_write in Hd. by apply bool_decide_eq_true in Hd.
Qed.

(** The file block an offset lies in. *)
Lemma offset_block u :
  uio_wf cur_space u ->
  let k := Z.to_nat (uio_offset u / SFS_BLOCKSIZE) in
  u32 (Z.quot (uio_offset u) SFS_BLOCKSIZE) = Z.of_nat k /\
  u32 (Z.rem (uio_offset u) SFS_BLOCKSIZE) = uio_offset u mod SFS_BLOCKSIZE /\
  Z.rem (uio_offset u) SFS_BLOCKSIZE = uio_offset u mod SFS_BLOCKSIZE /\
  Z.to_nat (uio_offset u) = (512 * k + Z.to_nat (uio_offset u mod SFS_BLOCKSIZE))%nat /\
  0 <= uio_offset u mod SFS_BLOCKSIZE < 512.
Proof.
  intros (_ & ? & _ & _ & ? & ? & _) k. subst k. unfold SFS_BLOCKSIZE.
  rewrite Z.quot_div_nonneg, Z.rem_mod_nonneg by lia.
  rewrite (u32_small (uio_offset u / 512)), (u32_small (uio_offset u mod 512))
    by (Z.to_euclidean_division_equations; lia).
  split_and!; try done; Z.to_euclidean_division_equations; lia.
Qed.

(** An error leaves the transfer where it was. *)
Lemma io_post_error s X p sv u n r s' X' sv' :
  io_step s X p sv u 0 s' X' sv' u -> uio_offset u <= MAXFILE -> io_error s X' u r ->
  io_post s X p sv u n r u s'.
Proof. intros S Ho He. exists X', sv', 0%nat. split_and!; [done | lia | lia | right; auto]. Qed.

Lemma io_step_refl s X p sv u : io_ready s X p sv u -> io_step s X p sv u 0 s X sv u.
Proof.
  intros (Hok & Hsv & Hf & Hw & _). pose proof Hok as (Hd & _).
  destruct (@xfer_0 cur_space u (content (sx_dev s) (sv_i sv)) Hw) as [E1 E2].
  destruct (file_step_refl s X p sv (sx_dev s) Hok Hsv Hf (same_disk_refl _ Hd)) as (F & _ & _).
  rewrite same_state in F. split; [done | done | by rewrite E1 | by rewrite E2 | done].
Qed.

(** [sfs_bmap] at the file block of the offset. *)
Lemma bmap_at s X p sv u (k : nat) (Q : Z * Z -> sfs H D -> Prop) n :
  io_ready s X p sv u -> k = Z.to_nat (uio_offset u / SFS_BLOCKSIZE) ->
  (uio_offset u = MAXFILE -> 0 < uio_resid u) ->
  (forall r b s', r <> 0 -> io_post s X p sv u n r u s' -> Q (r, b) s') ->
  (forall b s1 X1 sv1, io_step s X p sv u 0 s1 X1 sv1 u -> io_ready s1 X1 p sv1 u ->
     content (sx_dev s1) (sv_i sv1) = content (sx_dev s) (sv_i sv) ->
     fblocks (sx_dev s1) (sv_i sv1) !! k = Some b -> (is_write u = true -> b <> 0) -> (k < 143)%nat -> Q (0, b) s1) ->
  wpx rf False (sfs_bmap p (Z.of_nat k) (is_write u)) s Q.
Proof.
  intros Hr Hk Hres He2 Hk0. pose proof Hr as (Hok & Hsv & Hf & Hw & Ha & Ho & Hrf).
  eapply wp_mono; [by apply sfs_bmap_wp|]. intros [r b] s1 Hpost.
  destruct (decide (Z.of_nat k < MAXFBLOCKS)) as [Hlt|Hge].
  - destruct (bmap_io_step _ _ _ _ _ _ _ _ _ Hr Hpost) as (X1 & sv1 & S & Hor).
    destruct (io_step_ready _ _ _ _ _ _ _ _ _ _ Hr S) as (Hr1 & _); [destruct Hw; lia | lia |].
    destruct Hor as [(-> & Hb & Hn)|Hor].
    + apply (Hk0 b s1 X1 sv1); try done; [|unfold MAXFBLOCKS, SFS_NDIRECT, SFS_DBPERIDB in Hlt; lia].
      destruct (@xfer_0 cur_space u (content (sx_dev s) (sv_i sv)) Hw) as [_ E2].
      by rewrite (io_content _ _ _ _ _ _ _ _ _ _ S), E2.
    + apply He2; [by destruct Hor as [->|[-> _]]|]. eapply io_post_error; [done..|].
      destruct Hor as [?|?]; [by left | right; by left].
  - destruct Hpost as [-> ->]. apply He2; [done|]. eapply io_post_error; [by apply io_step_refl | done |].
    right. right. split; [done|]. unfold MAXFILE. unfold SFS_BLOCKSIZE in *.
    destruct Hw as (_ & ? & _ & _ & ? & _). pose proof (Z.mul_div_le (uio_offset u) 512 ltac:(lia)).
    pose proof (Z.div_pos (uio_offset u) 512). unfold MAXFILE, SFS_BLOCKSIZE in *. lia.
Qed.

(** The rest of a read of part of a block, once it is in the buffer. *)
Lemma partial_move s X p sv u (k len : nat) b :
  io_ready s X p sv u -> k = Z.to_nat (uio_offset u / SFS_BLOCKSIZE) -> (k < 143)%nat ->
  fblocks (sx_dev s) (sv_i sv) !! k = Some b -> Z.of_nat len <= uio_resid u ->
  uio_offset u mod SFS_BLOCKSIZE + Z.of_nat len <= 512 ->
  let buf := block_data (sx_dev s) b in
  uiomove cur_space buf (uio_offset u mod SFS_BLOCKSIZE) (Z.of_nat len) u =
    Ret (0, match uio_rw u with
            | UIO_READ => buf
            | UIO_WRITE => splice buf (Z.to_nat (uio_offset u mod SFS_BLOCKSIZE)) (uio_data u len)
            end, xfer_uio (content (sx_dev s) (sv_i sv)) len u) /\
  uio_offset u + Z.of_nat len <= MAXFILE.
Proof.
  intros (Hok & Hsv & Hf & Hw & Ha & Ho & Hrf) Hk Hk143 Hb Hlen Hskip buf.
  destruct (offset_block u Hw) as (_ & _ & _ & Eo & Hmod). rewrite <- Hk in Eo.
  pose proof (block_data_wf s X (sv_i sv) k b Hok Hf Hb) as [Hbl _].
  pose proof Hw as (_ & ? & _ & _ & ? & _). unfold SECTSIZE in Hbl. change (Z.to_nat 512) with 512%nat in Hbl.
  split.
  - rewrite uiomove_spec; [|done | lia | by eapply uio_access_le; [exact Ha | lia] | lia | unfold buf; lia].
    rewrite Nat2Z.id. unfold xfer_uio. destruct (uio_rw u); [|done].
    assert (slice buf (Z.to_nat (uio_offset u mod SFS_BLOCKSIZE)) len =
            slice (content (sx_dev s) (sv_i sv)) (Z.to_nat (uio_offset u)) len) as ->; [|done].
    unfold buf. rewrite <- (content_block s X (sv_i sv) k b) by done. rewrite slice_slice by lia. by rewrite Eo.
  - unfold MAXFILE, MAXFBLOCKS, SFS_NDIRECT, SFS_DBPERIDB. unfold SFS_BLOCKSIZE in *. lia.
Qed.

(** Loading the block into the buffer, or the zeros that stand for it. *)
Lemma load_block_wp s X p sv u (k : nat) b :
  io_ready s X p sv u -> fblocks (sx_dev s) (sv_i sv) !! k = Some b -> (is_write u = true -> b <> 0) ->
  wpx rf False (if b =? 0 then let* _ := kassert (is_read u) in ret (0, zero_block)
      else on_dev (sfs_rblock zero_block b)) s (fun '(r, buf) s' =>
    io_step s X p sv u 0 s' X sv u /\ fblocks (sx_dev s') (sv_i sv) = fblocks (sx_dev s) (sv_i sv) /\
    ((r = 0 /\ buf = block_data (sx_dev s') b) \/ r = EIO)).
Proof.
  intros Hr Hb Hbw. pose proof Hr as (Hok & Hsv & Hf & Hw & _). destruct (Z.eqb_spec b 0) as [->|Hb0].
  - assert (Hrd : is_read u = true).
    { unfold is_read, is_write in *. destruct (uio_rw u); [done|]. by destruct Hbw. }
    rewrite Hrd. wp_step. wp_step. wp_steps. split_and!; [by apply io_step_refl | done | by left].
  - apply wp_on_dev. pose proof Hf as (Hl & _ & Hb1). pose proof Hok as (Hd & _ & Hn & _).
    destruct (Hb1 b) as [_ Hbr]; [by eapply block_in_file|]. unfold nblocks in Hbr.
    eapply wp_mono; [apply sfs_rblock_wp; [done | apply zero_block_wf | lia]|].
    intros [r bs] d' [Hs Hor]. destruct (file_step_refl s X p sv d' Hok Hsv Hf Hs) as (F & Ef & Ec).
    destruct (@xfer_0 cur_space u (content (sx_dev s) (sv_i sv)) Hw) as [E1 E2].
    split; [|split; [done|]].
    + split; [done | done | by rewrite E1 | by rewrite E2 | done].
    + destruct Hor as [[-> ->]|[-> ->]]; [left | by right]. split; [done|]. unfold block_data. simpl.
      destruct (Z.eqb_spec b 0); [done|]. destruct Hs as (_ & _ & Hs). rewrite Hs by lia. done.
Qed.

(** A read changes nothing but the caller's memory. *)
Lemma io_step_read s X p sv u (m : nat) :
  io_ready s X p sv u -> uio_rw u = UIO_READ ->
  io_step s X p sv u m s X sv (xfer_uio (content (sx_dev s) (sv_i sv)) m u).
Proof.
  intros Hr Hrw. destruct (io_step_refl _ _ _ _ _ Hr) as [F Hz _ _ Hrd].
  split; try done. unfold xfer_content. by rewrite Hrw.
Qed.

(** A write replaces part of a block of the file. *)
Lemma io_step_write s X p sv u (k len : nat) b d' :
  io_ready s X p sv u -> uio_rw u = UIO_WRITE -> fblocks (sx_dev s) (sv_i sv) !! k = Some b -> b <> 0 ->
  Z.of_nat len <= uio_resid u ->
  (512 * k <= Z.to_nat (uio_offset u))%nat -> (Z.to_nat (uio_offset u) + len <= 512 * k + 512)%nat ->
  disk_set (sx_dev s) b
    (splice (block_data (sx_dev s) b) (Z.to_nat (uio_offset u) - 512 * k) (uio_data u len)) d' ->
  io_step s X p sv u len (mkSfs (sx_heap s) d' (sx_fs s) (sx_vn s)) X sv (advance (Z.of_nat len) u).
Proof.
  intros (Hok & Hsv & Hf & Hw & _ & _) Hrw Hb Hb0 Hlen Hlo Hhi Hset.
  pose proof (block_data_wf s X (sv_i sv) k b Hok Hf Hb) as [Hbl _].
  change (Z.to_nat SECTSIZE) with 512%nat in Hbl.
  pose proof (length_uio_data cur_space u len Hw Hlen) as Hdl.
  eapply (file_step_write s X p sv k b) in Hset as [F Ec]; try done; [|rewrite length_splice; lia].
  split; [done | done | | | by rewrite Hrw].
  - unfold xfer_uio. by rewrite Hrw.
  - simpl. rewrite Ec. unfold xfer_content. rewrite Hrw.
    rewrite <- (content_block s X (sv_i sv) k b) by done.
    pose proof (lookup_lt_Some _ _ _ Hb) as Hlt. rewrite length_fblocks in Hlt by apply Hf.
    destruct (content_wf s X (sv_i sv) Hok Hf) as [Hcl _].
    change (Z.to_nat MAXFILE) with (512 * 143)%nat in Hcl. change (Z.to_nat MAXFBLOCKS) with 143%nat in Hlt.
    rewrite splice_splice_slice by lia. f_equal. lia.
Qed.

(** A failed step after steps that moved nothing. *)
Lemma io_post_after s X p sv u n s1 X1 sv1 r u' s' :
  io_ready s X p sv u -> io_step s X p sv u 0 s1 X1 sv1 u -> Z.of_nat n <= uio_resid u ->
  io_post s1 X1 p sv1 u n r u' s' -> io_post s X p sv u n r u' s'.
Proof.
  intros Hr S1 Hn (X2 & sv2 & m & S2 & Hm & HM & Hor). exists X2, sv2, m. split_and!; try done.
  - apply (io_step_trans s X p sv u 0 m s1 X1 sv1 u); done || lia.
  - destruct Hor as [?|[He ?]]; [by left | right]. split; [|done].
    eapply io_error_from; [|done..|exact He]. apply (step_nblocks _ _ _ _ _ _ _ (io_file _ _ _ _ _ _ _ _ _ _ S1)).
Qed.

Lemma sfs_partialio_wp s X p sv u (len : nat) :
  io_ready s X p sv u -> (uio_offset u = MAXFILE -> 0 < uio_resid u) -> Z.of_nat len <= uio_resid u ->
  uio_offset u mod SFS_BLOCKSIZE + Z.of_nat len <= 512 ->
  wpx rf False (sfs_partialio p u (uio_offset u mod SFS_BLOCKSIZE) (Z.of_nat len)) s (fun '(r, u') s' =>
    io_post s X p sv u len r u' s').
Proof.
  intros Hr HM Hlen Hskip. pose proof Hr as (Hok & Hsv & Hf & Hw & Ha & Ho & Hrf).
  destruct (offset_block u Hw) as (Ek & _ & _ & Eo & Hmod).
  unfold sfs_partialio. rewrite Ek. wp_step. wp_step.
  { rewrite u32_small by lia. unfold SFS_BLOCKSIZE in *. lia. }
  wp_step. apply (bmap_at s X p sv u _ _ len); try done.
  { intros r b s1 Hr0 Hp. destruct (Z.eqb_spec r 0); [done|]. cbn [negb]. by wp_steps. }
  set (k := Z.to_nat (uio_offset u / SFS_BLOCKSIZE)) in *.
  intros b s1 X1 sv1 S1 Hr1 _ Hb Hbw Hk143. cbn [negb Z.eqb]. wp_step.
  eapply wp_mono; [by apply (load_block_wp s1 X1 p sv1 u k b)|].
  intros [r buf] s2 (S2 & Ef2 & Hor). rewrite <- Ef2 in Hb.
  assert (S02 : io_step s X p sv u 0 s2 X1 sv1 u) by (apply (io_step_trans s X p sv u 0 0 s1 X1 sv1 u); done || lia).
  destruct (io_step_ready _ _ _ _ _ _ _ _ _ _ Hr S02) as (Hr2 & _); [lia | lia |].
  destruct (decide (r = 0)) as [->|Hr0]; [destruct Hor as [[_ ->]|]; [|done] | destruct Hor as [[-> _]| ->]; [done|]];
    cbn [negb Z.eqb EIO Pos.eqb].
  2: { wp_steps. eapply io_post_error; [done | done | by left]. }
  destruct (partial_move s2 X1 p sv1 u k len b) as [Emove HMl]; try done.
  wp_step. rewrite Emove. wp_step. cbn [rwp negb Z.eqb].
  assert (Ew : is_write (xfer_uio (content (sx_dev s2) (sv_i sv1)) len u) = is_write u).
  { unfold is_write, xfer_uio. destruct (uio_rw u) eqn:E; simpl; by rewrite E. }
  rewrite Ew. unfold is_write. destruct (uio_rw u) eqn:Erw.
  - wp_steps. apply (io_post_after s X p sv u len s2 X1 sv1); try done.
    exists X1, sv1, len. split_and!; [by apply io_step_read | lia | done | by left].
  - assert (Hwr : is_write u = true) by (by apply bool_decide_eq_true).
    specialize (Hrf Hwr). pose proof (Hbw Hwr) as Hb0.
    rewrite bool_decide_true by done. wp_step. apply wp_on_dev.
    pose proof Hr2 as (Hok2 & Hsv2 & Hf2 & _). pose proof Hf2 as (Hl2 & _ & Hb2). pose proof Hok2 as (Hd2 & _ & Hn2 & _).
    destruct (Hb2 b) as [_ Hbr]; [by eapply block_in_file|]. unfold nblocks in Hbr.
    pose proof (block_data_wf s2 X1 (sv_i sv1) k b Hok2 Hf2 Hb) as [Hbl Hbb].
    change (Z.to_nat SECTSIZE) with 512%nat in Hbl.
    pose proof (length_uio_data cur_space u len Hw Hlen) as Hdl.
    eapply wp_mono; [apply sfs_wblock_wp; [done | | lia]|].
    { split; [rewrite length_splice; [exact Hbl | lia]|]. apply Forall_splice; [done | by eapply uio_data_ok]. }
    intros r d3 [-> Hset]. cbn [negb Z.eqb]. wp_steps. apply (io_post_after s X p sv u len s2 X1 sv1); try done.
    eexists X1, sv1, len. split_and!; [| lia | done | by left]. unfold xfer_uio. rewrite Erw.
    apply (io_step_write s2 X1 p sv1 u k len b d3); try done; try lia.
    by replace (Z.to_nat (uio_offset u) - 512 * k)%nat with (Z.to_nat (uio_offset u mod SFS_BLOCKSIZE)) by lia.
Qed.

(** The uio that [sfs_blockio] gives to the device, and what it makes of it
    afterwards. *)
Definition dev_uio (diskblock : Z) u : uio :=
  set_resid SFS_BLOCKSIZE (set_offset (SFS_BLOCKSIZE * diskblock) u).

Definition restore_uio (diskblock : Z) u u1 : uio :=
  let u2 := set_offset (s32 (s32 (uio_offset u1 - SFS_BLOCKSIZE * diskblock) + uio_offset u)) u1 in
  set_resid (u32 (u32 (uio_resid u2 - SFS_BLOCKSIZE) + s32 (uio_resid u))) u2.

Lemma dev_uio_wf b u :
  uio_wf cur_space u -> 512 <= uio_resid u -> 0 <= b < MAXBLOCKS -> uio_wf cur_space (dev_uio b u).
Proof.
  unfold MAXBLOCKS, uio_wf, dev_uio, SFS_BLOCKSIZE. simpl. intros (? & ? & ? & ? & ? & ? & ?) ? ?.
  split_and!; try done; lia.
Qed.

Lemma restore_fields b u u1 :
  uio_wf cur_space u -> 0 <= b < MAXBLOCKS ->
  (uio_offset u1 = SFS_BLOCKSIZE * b /\ uio_resid u1 = SFS_BLOCKSIZE ->
     restore_uio b u u1 = set_resid (uio_resid u) (set_offset (uio_offset u) u1)) /\
  (uio_offset u1 = SFS_BLOCKSIZE * b + SFS_BLOCKSIZE /\ uio_resid u1 = 0 -> 512 <= uio_resid u ->
     restore_uio b u u1 = set_resid (uio_resid u - 512) (set_offset (uio_offset u + 512) u1)).
Proof.
  unfold MAXBLOCKS. intros (_ & ? & ? & ? & ? & ? & _) Hb. unfold restore_uio, SFS_BLOCKSIZE. simpl.
  split; intros [-> ->]; intros.
  - rewrite !Z.sub_diag, (s32_small 0), (u32_small 0), !Z.add_0_l by lia.
    rewrite (s32_small (uio_offset u)), (s32_small (uio_resid u)), u32_small by lia. done.
  - replace (512 * b + 512 - 512 * b) with 512 by lia.
    rewrite (s32_small 512), (s32_small (512 + uio_offset u)), (s32_small (uio_resid u)) by lia.
    replace (u32 (0 - 512)) with (2 ^ 32 - 512) by reflexivity.
    replace (u32 (2 ^ 32 - 512 + uio_resid u)) with (uio_resid u - 512); [f_equal; f_equal; lia|].
    unfold u32. replace (2 ^ 32 - 512 + uio_resid u) with (uio_resid u - 512 + 1 * 2 ^ 32) by lia.
    rewrite Z_mod_plus_full, Z.mod_small by lia. done.
Qed.

Lemma restore_fill b u bs :
  uio_wf cur_space u -> 0 <= b < MAXBLOCKS -> length bs = 512%nat -> 512 <= uio_resid u ->
  restore_uio b u (uio_fill bs (dev_uio b u)) = uio_fill bs u.
Proof.
  intros Hw Hb Hl Hr. destruct (restore_fields b u (uio_fill bs (dev_uio b u)) Hw Hb) as [_ E].
  pose proof (dev_uio_wf b u Hw Hr Hb) as Hw1.
  destruct (uio_fill_fields cur_space (dev_uio b u) bs Hw1) as (Eo & Er & Eb & El & _).
  { rewrite Hl. simpl. unfold SFS_BLOCKSIZE. lia. }
  rewrite E; [|rewrite Eo, Er, Hl; simpl; unfold SFS_BLOCKSIZE; lia | done].
  destruct (uio_fill_fields cur_space u bs Hw) as (Eo' & Er' & _); [rewrite Hl; lia|].
  rewrite Hl in Eo', Er'. change (Z.of_nat 512) with 512 in Eo', Er'. rewrite <- Eo', <- Er'.
  unfold uio_fill, dev_uio, advance. simpl. done.
Qed.

Lemma restore_advance b u :
  uio_wf cur_space u -> 0 <= b < MAXBLOCKS -> 512 <= uio_resid u ->
  restore_uio b u (advance SECTSIZE (dev_uio b u)) = advance (Z.of_nat 512) u.
Proof.
  intros Hw Hb Hr. pose proof (dev_uio_wf b u Hw Hr Hb) as Hw1.
  destruct (restore_fields b u (advance SECTSIZE (dev_uio b u)) Hw Hb) as [_ E].
  rewrite E; [|rewrite (advance_small cur_space); simpl; unfold SECTSIZE, SFS_BLOCKSIZE; try done; lia | done].
  rewrite (advance_small cur_space u) by (done || lia).
  rewrite (advance_small cur_space (dev_uio b u)) by (done || (simpl; unfold SECTSIZE, SFS_BLOCKSIZE; lia)).
  done.
Qed.

Lemma restore_id b u :
  uio_wf cur_space u -> 0 <= b < MAXBLOCKS -> restore_uio b u (dev_uio b u) = u.
Proof.
  intros Hw Hb. destruct (restore_fields b u (dev_uio b u) Hw Hb) as [E _].
  rewrite E by done. by destruct u.
Qed.

Lemma block_bounds s X i (k : nat) b :
  fs_ok s X -> file_ok s X i -> fblocks (sx_dev s) i !! k = Some b -> b <> 0 ->
  0 <= b < d_blocks (sx_dev s) /\ 0 <= b < MAXBLOCKS /\ s32 (b * SFS_BLOCKSIZE) = SFS_BLOCKSIZE * b.
Proof.
  intros (Hd & _ & Hn & _) (Hl & _ & Hb) Hk Hb0. destruct (Hb b) as [_ ?]; [by eapply block_in_file|].
  destruct (dev_bounds (sx_dev s) Hd) as [Hbd _]. unfold nblocks, MAXBLOCKS, SFS_BLOCKSIZE in *.
  rewrite s32_small by lia. lia.
Qed.

(** The device transfer of a block the file has. *)
Lemma blockio_dev s X p sv u (k : nat) b :
  io_ready s X p sv u -> k = Z.to_nat (uio_offset u / SFS_BLOCKSIZE) -> (k < 143)%nat ->
  uio_offset u mod SFS_BLOCKSIZE = 0 -> 512 <= uio_resid u ->
  fblocks (sx_dev s) (sv_i sv) !! k = Some b -> b <> 0 ->
  wpx rf False (let* (result, u1) := on_dev (sfs_rwblock (dev_uio b u)) in ret (result, restore_uio b u u1)) s
    (fun '(r, u') s' => io_post s X p sv u 512 r u' s').
Proof.
  intros Hr Hk Hk143 Hmod Hres Hb Hb0. pose proof Hr as (Hok & Hsv & Hf & Hw & Ha & Ho & Hrf).
  destruct (offset_block u Hw) as (_ & _ & _ & Eo & _). rewrite <- Hk, Hmod in Eo. change (Z.to_nat 0) with 0%nat in Eo.
  destruct (block_bounds s X _ k b Hok Hf Hb Hb0) as (Hbd & HbM & _). pose proof Hok as (Hd & _).
  pose proof (dev_uio_wf b u Hw Hres HbM) as Hwd.
  assert (Hacc : uio_access (dev_uio b u) SECTSIZE).
  { change (uio_access u 512). eapply uio_access_le; [exact Ha | lia]. }
  assert (HMl : uio_offset u + Z.of_nat 512 <= MAXFILE).
  { pose proof Hw as (_ & _ & _ & _ & ? & _). unfold MAXFILE, MAXFBLOCKS, SFS_BLOCKSIZE, SFS_NDIRECT, SFS_DBPERIDB. lia. }
  wp_step. apply wp_on_dev. destruct (uio_rw u) eqn:Erw.
  - eapply wp_mono; [by apply (sfs_rwblock_read (dev_uio b u) (sx_dev s) b)|].
    intros [r u1] d' [Hs Hor]. wp_steps.
    destruct (file_step_refl s X p sv d' Hok Hsv Hf Hs) as (F & Ef & Ec).
    assert (Hcb : slice (content (sx_dev s) (sv_i sv)) (Z.to_nat (uio_offset u)) 512 = sector (sx_dev s) b).
    { rewrite Eo, Nat.add_0_r, (content_block s X _ k b) by done. unfold block_data. by destruct (Z.eqb_spec b 0). }
    destruct Hor as [[-> ->]|[-> ->]].
    + exists X, sv, 512%nat. split_and!; [|lia | done | by left].
      rewrite restore_fill by (done || (apply sector_law; done)).
      split; [done | done | unfold xfer_uio; by rewrite Erw, Hcb | unfold xfer_content; rewrite Erw; done | done].
    + rewrite restore_id by done. eapply (io_post_error s X p sv u 512 EIO _ X sv); [|done | by left].
      destruct (@xfer_0 cur_space u (content (sx_dev s) (sv_i sv)) Hw) as [E1 E2].
      split; [done | done | by rewrite E1 | by rewrite E2 | done].
  - assert (MayRefuse rf) by (by apply Hrf, bool_decide_eq_true).
    eapply wp_mono; [by apply (sfs_rwblock_write (dev_uio b u) (sx_dev s) b)|].
    intros [r u1] d' (Hset & -> & ->). wp_steps. rewrite restore_advance by done.
    exists X, sv, 512%nat. split_and!; [|lia | done | by left].
    apply (io_step_write s X p sv u k 512 b d'); try done; try lia.
    replace (Z.to_nat (uio_offset u) - 512 * k)%nat with 0%nat by lia.
    pose proof (block_data_wf s X (sv_i sv) k b Hok Hf Hb) as [Hbl _].
    rewrite splice_all; [exact Hset|]. rewrite Hbl. change (Z.to_nat SECTSIZE) with 512%nat.
    apply (length_uio_data cur_space); [done | lia].
Qed.

Lemma sfs_blockio_wp s X p sv u :
  io_ready s X p sv u -> uio_offset u mod SFS_BLOCKSIZE = 0 -> 512 <= uio_resid u ->
  wpx rf False (sfs_blockio p u) s (fun '(r, u') s' => io_post s X p sv u 512 r u' s').
Proof.
  intros Hr Hmod Hres. pose proof Hr as (Hok & Hsv & Hf & Hw & Ha & Ho & Hrf).
  destruct (offset_block u Hw) as (Ek & _ & _ & Eo & _).
  unfold sfs_blockio. rewrite Ek. wp_step. apply (bmap_at s X p sv u _ _ 512); [done | done | lia | |].
  { intros r b s1 Hr0 Hp. destruct (Z.eqb_spec r 0); [done|]. cbn [negb]. by wp_steps. }
  set (k := Z.to_nat (uio_offset u / SFS_BLOCKSIZE)) in *.
  intros b s1 X1 sv1 S1 Hr1 _ Hb Hbw Hk143. cbn [negb Z.eqb].
  pose proof Hr1 as (Hok1 & Hsv1 & Hf1 & _). destruct (Z.eqb_spec b 0) as [->|Hb0].
  - assert (Hrd : uio_rw u = UIO_READ).
    { unfold is_write in Hbw. destruct (uio_rw u); [done|]. by destruct Hbw. }
    unfold is_read. rewrite Hrd. wp_step. wp_step; [by apply bool_decide_eq_true|]. wp_step. change SFS_BLOCKSIZE with 512.
    rewrite uiomovezeros_spec; [|done | done | lia | by eapply uio_access_le; [exact Ha | lia]].
    cbn [rwp]. apply (io_post_after s X p sv u 512 s1 X1 sv1); [done | done | lia |].
    assert (HMl : uio_offset u + Z.of_nat 512 <= MAXFILE).
    { destruct Hw as (_ & _ & _ & _ & ? & _). unfold MAXFILE, MAXFBLOCKS, SFS_BLOCKSIZE, SFS_NDIRECT, SFS_DBPERIDB in *. lia. }
    exists X1, sv1, 512%nat. split_and!; [|lia | done | by left].
    pose proof (io_step_read s1 X1 p sv1 u 512 Hr1 Hrd) as S. unfold xfer_uio in S. rewrite Hrd in S.
    rewrite Eo, Hmod, Nat.add_0_r, (content_block s1 X1 _ k 0) in S by done. exact S.
  - destruct (block_bounds s1 X1 _ k b Hok1 Hf1 Hb Hb0) as (_ & _ & ->).
    wp_step. wp_step; [simpl uio_resid; unfold SFS_BLOCKSIZE; rewrite Z.geb_leb; lia|].
    eapply wp_mono; [by apply (blockio_dev s1 X1 p sv1 u k b)|].
    intros [r u'] s2 Hp. apply (io_post_after s X p sv u 512 s1 X1 sv1); [done | done | lia | done].
Qed.

(** A transfer followed by another. *)
Lemma io_post_trans s X p sv u (m n : nat) s1 X1 sv1 u1 r u' s' :
  io_ready s X p sv u -> io_step s X p sv u m s1 X1 sv1 u1 -> Z.of_nat m + Z.of_nat n <= uio_resid u ->
  uio_offset u + Z.of_nat m <= MAXFILE -> (uio_offset u + Z.of_nat m) mod SFS_BLOCKSIZE = 0 ->
  (n = 0%nat -> r = 0) -> io_post s1 X1 p sv1 u1 n r u' s' -> io_post s X p sv u (m + n) r u' s'.
Proof.
  intros Hr S1 Hn HM Hal Hn0 (X2 & sv2 & k & S2 & Hk & HM2 & Hor).
  destruct (io_step_ready _ _ _ _ _ _ _ _ _ _ Hr S1) as (_ & Eo & Er & Erw); [lia..|].
  rewrite Eo in HM2. exists X2, sv2, (m + k)%nat. split_and!; [| lia | lia |].
  - apply (io_step_trans s X p sv u m k s1 X1 sv1 u1); done || lia.
  - destruct Hor as [[-> ->]|[He Hk0]]; [by left | right]. split.
    + apply (io_error_from s s1 X2 u u1 r); [|done | lia | exact He].
      apply (step_nblocks _ _ _ _ _ _ _ (io_file _ _ _ _ _ _ _ _ _ _ S1)).
    + right. destruct Hk0 as [->|[Hk0 Hlt]].
      * split; [by rewrite Nat.add_0_r|]. destruct n; [|lia].
        rewrite Hn0 in He by done. by destruct He as [?|[[? _]|[? _]]].
      * rewrite Eo in Hk0. split; [by rewrite Nat2Z.inj_add, Z.add_assoc | lia].
Qed.

Lemma io_blocks_wp (n : nat) s X p sv u :
  io_ready s X p sv u -> uio_offset u mod SFS_BLOCKSIZE = 0 -> 512 * Z.of_nat n <= uio_resid u ->
  wpx rf False (io_blocks n p u) s (fun '(r, u') s' =>
    (n = 0%nat -> r = 0) /\ io_post s X p sv u (512 * n) r u' s').
Proof.
  revert s X sv u. induction n as [|n IH]; intros s X sv u Hr Hmod Hres; cbn [io_blocks].
  - wp_steps. split; [done|]. exists X, sv, 0%nat. pose proof Hr as (_ & _ & _ & _ & _ & Ho).
    split_and!; [by apply io_step_refl | lia | lia | by left].
  - wp_step. eapply wp_mono; [apply sfs_blockio_wp; [exact Hr | done | lia]|].
    intros [r u1] s1 (X1 & sv1 & m & S1 & Hm & HM1 & Hor). destruct (Z.eqb_spec r 0) as [->|Hr0]; cbn [negb].
    + assert (m = 512)%nat as -> by (destruct Hor as [[_ ?]|[[?|[[? _]|[? _]]] _]]; done).
      destruct (io_step_ready _ _ _ _ _ _ _ _ _ _ Hr S1) as (Hr1 & Eo & Er & _); [lia | lia |].
      assert (Hal : (uio_offset u + Z.of_nat 512) mod SFS_BLOCKSIZE = 0).
      { unfold SFS_BLOCKSIZE in *. Z.to_euclidean_division_equations. lia. }
      eapply wp_mono; [apply (IH s1 X1 sv1 u1); [exact Hr1 | by rewrite Eo | lia]|].
      intros [r u'] s' [Hn0 Hp]. split; [done|]. replace (512 * S n)%nat with (512 + 512 * n)%nat by lia.
      apply (io_post_trans s X p sv u 512 (512 * n) s1 X1 sv1 u1); try done; [lia|]. intros. apply Hn0. lia.
    + wp_steps. split; [done|]. exists X1, sv1, m. split_and!; [done | lia | done |].
      destruct Hor as [[? _]|[? Hm0]]; [done | right]. split; [done|]. destruct Hm0 as [?|[? ?]]; [by left | right].
      split; [done | lia].
Qed.

Lemma io_post_done s X p sv u u' s' r n :
  io_post s X p sv u n r u' s' -> r = 0 ->
  exists X' sv', io_step s X p sv u n s' X' sv' u' /\ uio_offset u + Z.of_nat n <= MAXFILE.
Proof.
  intros (X' & sv' & m & S & Hm & HM & Hor) ->.
  assert (m = n) as <- by (destruct Hor as [[_ ?]|[[?|[[? _]|[? _]]] _]]; done).
  by exists X', sv'.
Qed.

Lemma io_post_le s X p sv u u' s' r (m n : nat) :
  io_post s X p sv u m r u' s' -> r <> 0 -> (m <= n)%nat -> io_post s X p sv u n r u' s'.
Proof.
  intros (X' & sv' & k & S & Hm & HM & Hor) Hr Hn. exists X', sv', k. split_and!; [done | lia | done |].
  destruct Hor as [[? _]|[? Hm0]]; [done | right]. split; [done|]. destruct Hm0 as [?|[? ?]]; [by left | right].
  split; [done | lia].
Qed.

Lemma io_aligned_wp s X p sv u :
  io_ready s X p sv u -> uio_offset u mod SFS_BLOCKSIZE = 0 ->
  wpx rf False (io_aligned p u) s (fun '(r, u') s' => io_post s X p sv u (Z.to_nat (uio_resid u)) r u' s').
Proof.
  intros Hr Hmod. pose proof Hr as (_ & _ & _ & Hw & _ & Ho).
  destruct (offset_block u Hw) as (_ & _ & Erem & _). pose proof Hw as (_ & Hres & _).
  unfold io_aligned. rewrite Erem, Hmod. wp_step. wp_step. wp_step.
  set (n := Z.to_nat (uio_resid u / SFS_BLOCKSIZE)).
  assert (Hn : 512 * Z.of_nat n <= uio_resid u < 512 * Z.of_nat n + 512).
  { unfold n, SFS_BLOCKSIZE. Z.to_euclidean_division_equations. lia. }
  eapply wp_mono; [apply (io_blocks_wp n s X p sv u); [done | done | lia]|].
  intros [r u1] s1 [_ Hp]. destruct (Z.eqb_spec r 0) as [->|Hr0]; cbn [negb].
  2: { wp_steps. eapply io_post_le; [done | done | lia]. }
  destruct (io_post_done _ _ _ _ _ _ _ _ _ Hp eq_refl) as (X1 & sv1 & S1 & HM).
  destruct (io_step_ready _ _ _ _ _ _ _ _ _ _ Hr S1) as (Hr1 & Eo & Er & _); [lia | lia |].
  wp_step. wp_step; [unfold SFS_BLOCKSIZE; lia|].
  destruct (Z.gtb_spec (uio_resid u1) 0) as [Hpos|Hz].
  - assert (Hmod1 : uio_offset u1 mod SFS_BLOCKSIZE = 0).
    { rewrite Eo. unfold SFS_BLOCKSIZE in *. Z.to_euclidean_division_equations. lia. }
    pose proof (sfs_partialio_wp s1 X1 p sv1 u1 (Z.to_nat (uio_resid u1)) Hr1) as P. rewrite Hmod1, Z2Nat.id in P by lia.
    eapply wp_mono; [apply P; lia|]. intros [r u'] s' Hp2.
    replace (Z.to_nat (uio_resid u)) with (512 * n + Z.to_nat (uio_resid u1))%nat by lia.
    eapply io_post_trans; [done | exact S1 | lia | lia | by rewrite <- Eo | lia | done].
  - wp_steps. replace (Z.to_nat (uio_resid u)) with (512 * n)%nat by lia.
    exists X1, sv1, (512 * n)%nat. split_and!; [done | lia | lia | by left].
Qed.

Lemma block_end a l : a mod SFS_BLOCKSIZE + l = 512 -> (a + l) mod SFS_BLOCKSIZE = 0.
Proof.
  unfold SFS_BLOCKSIZE. intros E. pose proof (Z.div_mod a 512 ltac:(lia)) as K.
  replace (a + l) with ((a / 512 + 1) * 512) by lia. apply Z.mod_mul. lia.
Qed.

Lemma io_body_wp s X p sv u :
  io_ready s X p sv u ->
  wpx rf False (io_body p u) s (fun '(r, u') s' => io_post s X p sv u (Z.to_nat (uio_resid u)) r u' s').
Proof.
  intros Hr. pose proof Hr as (_ & _ & _ & Hw & _ & Ho).
  destruct (offset_block u Hw) as (_ & Eu & _ & _ & Hmod). pose proof Hw as (_ & Hres & _).
  unfold io_body. rewrite Eu. destruct (Z.eqb_spec (uio_offset u mod SFS_BLOCKSIZE) 0) as [Hz|Hnz]; cbn [negb].
  - wp_step. wp_steps. cbn [negb Z.eqb]. destruct (Z.eqb_spec (uio_resid u) 0) as [E0|_]; [|by apply io_aligned_wp].
    wp_steps. rewrite E0. exists X, sv, 0%nat. split_and!; [by apply io_step_refl | lia | lia | by left].
  - set (len := if u32 (SFS_BLOCKSIZE - uio_offset u mod SFS_BLOCKSIZE) >? uio_resid u then uio_resid u
                else u32 (SFS_BLOCKSIZE - uio_offset u mod SFS_BLOCKSIZE)).
    assert (Hlen : 0 <= len <= uio_resid u /\ uio_offset u mod SFS_BLOCKSIZE + len <= 512 /\
                   (len = uio_resid u \/ uio_offset u mod SFS_BLOCKSIZE + len = 512)).
    { unfold len. rewrite u32_small by (unfold SFS_BLOCKSIZE in *; lia).
      destruct (Z.gtb_spec (SFS_BLOCKSIZE - uio_offset u mod SFS_BLOCKSIZE) (uio_resid u));
        unfold SFS_BLOCKSIZE in *; lia. }
    clearbody len. wp_step.
    pose proof (sfs_partialio_wp s X p sv u (Z.to_nat len) Hr) as P. rewrite Z2Nat.id in P by lia.
    eapply wp_mono; [apply P; [|lia | lia]|].
    { intros E. exfalso. apply Hnz. rewrite E. reflexivity. }
    intros [r u1] s1 Hp. destruct (Z.eqb_spec r 0) as [->|Hr0]; cbn [negb].
    2: { wp_steps. eapply io_post_le; [done | done | lia]. }
    destruct (io_post_done _ _ _ _ _ _ _ _ _ Hp eq_refl) as (X1 & sv1 & S1 & HM).
    destruct (io_step_ready _ _ _ _ _ _ _ _ _ _ Hr S1) as (Hr1 & Eo & Er & _); [lia | lia |].
    destruct (Z.eqb_spec (uio_resid u1) 0) as [E0|Hn0].
    + wp_steps. replace (uio_resid u) with len by lia. done.
    + assert (Hmod1 : uio_offset u1 mod SFS_BLOCKSIZE = 0) by (rewrite Eo; apply block_end; lia).
      eapply wp_mono; [apply (io_aligned_wp s1 X1 p sv1 u1 Hr1 Hmod1)|].
      intros [r u'] s' Hp2.
      replace (Z.to_nat (uio_resid u)) with (Z.to_nat len + Z.to_nat (uio_resid u1))%nat by lia.
      eapply io_post_trans; [done | exact S1 | lia | lia | by rewrite <- Eo | lia | done].
Qed.

(** ** [sfs_io] *)

(** A file of the size a file can have. *)
Definition size_ok (i : sfs_inode) : Prop := 0 <= sfi_size i <= MAXFILE.

Lemma set_resid_fields cur u n :
  uio_wf cur u -> 0 <= n <= uio_resid u -> uio_wf cur (set_resid n u).
Proof. intros (? & ? & ? & ? & ? & ? & ?) ?. unfold uio_wf. simpl. split_and!; try done; lia. Qed.

Lemma fill_set_resid cur u bs n :
  uio_wf cur u -> Z.of_nat (length bs) <= n <= uio_resid u ->
  set_resid (u32 (uio_resid (uio_fill bs (set_resid n u)) + (uio_resid u - n))) (uio_fill bs (set_resid n u)) =
  uio_fill bs u.
Proof.
  intros Hw Hn. pose proof Hw as (? & ? & ? & ? & ? & ? & _). unfold uio_fill, advance, set_resid. simpl.
  f_equal. rewrite (u32_small (n - _)), (u32_small (uio_resid u - _)) by lia.
  rewrite u32_small by lia. lia.
Qed.

(** What is left of the file after the offset. *)
Definition read_amount (i : sfs_inode) u : Z :=
  Z.max 0 (Z.min (uio_resid u) (sfi_size i - uio_offset u)).

Lemma sfs_io_read_wp s X p sv u :
  io_ready s X p sv u -> uio_rw u = UIO_READ -> size_ok (sv_i sv) ->
  wpx rf False (sfs_io p u) s (fun '(r, u') s' => exists d' (m : nat),
    s' = mkSfs (sx_heap s) d' (sx_fs s) (sx_vn s) /\ same_disk (sx_dev s) d' /\
    u' = uio_fill (slice (content (sx_dev s) (sv_i sv)) (Z.to_nat (uio_offset u)) m) u /\
    Z.of_nat m <= read_amount (sv_i sv) u /\ ((r = 0 /\ Z.of_nat m = read_amount (sv_i sv) u) \/ r = EIO)).
Proof.
  intros Hr Hrw [Hsz HszM]. pose proof Hr as (Hok & Hsv & Hf & Hw & Ha & Ho & Hrf).
  pose proof Hw as (? & Hres & ? & ? & Hoff & Hend & _).
  assert (HMv : MAXFILE = 73216) by reflexivity.
  unfold sfs_io. wp_step. eapply wp_get_sv; [done|].
  assert (Hrd : is_read u = true) by (by apply bool_decide_eq_true). rewrite Hrd. cbn [andb].
  rewrite (s32_small (sfi_size (sv_i sv))), (s32_small (uio_offset u + uio_resid u)) by lia.
  rewrite Z.geb_leb. destruct (Z.leb_spec (sfi_size (sv_i sv)) (uio_offset u)) as [Heof|Hlt].
  { wp_steps. exists (sx_dev s), 0%nat. unfold slice, read_amount. rewrite take_0, (uio_fill_nil cur_space) by done.
    split_and!; [by rewrite same_state | apply same_disk_refl, Hok | done | lia | left; split; [done | lia]]. }
  set (n := Z.min (uio_resid u) (sfi_size (sv_i sv) - uio_offset u)).
  assert (Hextra : exists extra, (if uio_offset u + uio_resid u >? sfi_size (sv_i sv)
     then u32 (uio_offset u + uio_resid u - sfi_size (sv_i sv)) else 0) = extra /\ extra = uio_resid u - n).
  { eexists. split; [done|]. unfold n. destruct (Z.gtb_spec (uio_offset u + uio_resid u) (sfi_size (sv_i sv))).
    - rewrite u32_small by lia. lia.
    - lia. }
  destruct Hextra as (extra & -> & Hex). wp_step.
  assert (Hn0 : 0 <= n <= uio_resid u) by (unfold n; lia).
  apply (wp_mono _ _ (fun _ s' => s' = s)).
  { destruct (Z.gtb_spec (uio_offset u + uio_resid u) (sfi_size (sv_i sv))); [|by wp_steps].
    apply wp_kassert; [|done]. apply Z.gtb_lt. unfold n in *. lia. }
  intros [] ? ->. replace (u32 (uio_resid u - extra)) with n by (rewrite u32_small; lia).
  assert (Hr1 : io_ready s X p sv (set_resid n u)).
  { split_and!; try done; [by apply set_resid_fields|]. change (uio_access u n). by eapply uio_access_le. }
  wp_step. eapply wp_mono; [by apply (io_body_wp s X p sv (set_resid n u))|].
  intros [r u2] s2 (X2 & sv2 & m & [F _ Eu _ Hrd2] & Hm & _ & Hor). simpl uio_resid in Hm, Hor.
  destruct (Hrd2 Hrw) as (-> & -> & Hs & Efs). pose proof (step_vn _ _ _ _ _ _ _ F) as Evn.
  rewrite insert_id in Evn by done. unfold xfer_uio in Eu. simpl in Eu. rewrite Hrw in Eu.
  unfold io_out. wp_step. eapply wp_get_sv; [by rewrite Evn|].
  assert (Hnw : is_write u2 = false) by (unfold is_write; rewrite Eu; simpl; rewrite Hrw; done).
  rewrite Hnw. cbn [andb]. wp_steps. exists (sx_dev s2), m.
  assert (Era : read_amount (sv_i sv) u = n) by (unfold read_amount; lia).
  destruct (content_wf s X (sv_i sv) Hok Hf) as [Hcl _].
  split_and!; [| done | | lia |].
  - rewrite <- (same_state s2). by rewrite Efs, Evn, (step_heap _ _ _ _ _ _ _ F).
  - rewrite Hex, Eu. apply (fill_set_resid cur_space); [done|]. rewrite length_slice by (unfold n in *; lia). lia.
  - rewrite Era. destruct Hor as [[-> ->]|[[->|[(_ & E & _)|[_ E]]] _]]; [left; split; [done | lia] | by right | |].
    + simpl in E. congruence.
    + simpl in E. unfold n in E. lia.
Qed.

Lemma sfs_io_write_wp s X p sv u :
  io_ready s X p sv u -> uio_rw u = UIO_WRITE -> size_ok (sv_i sv) ->
  wpx rf False (sfs_io p u) s (fun '(r, u') s' => exists X' sv' (m : nat),
    file_step s X p sv s' X' sv' /\ u' = advance (Z.of_nat m) u /\
    content (sx_dev s') (sv_i sv') =
      splice (content (sx_dev s) (sv_i sv)) (Z.to_nat (uio_offset u)) (uio_data u m) /\
    sfi_size (sv_i sv') = Z.max (sfi_size (sv_i sv)) (uio_offset u + Z.of_nat m) /\
    uio_offset u + Z.of_nat m <= MAXFILE /\ Z.of_nat m <= uio_resid u /\
    ((r = 0 /\ Z.of_nat m = uio_resid u) \/
     (io_error s X' u r /\ (m = 0%nat \/ ((uio_offset u + Z.of_nat m) mod SFS_BLOCKSIZE = 0 /\
                                     Z.of_nat m < uio_resid u))))).
Proof.
  intros Hr Hrw [Hsz HszM]. pose proof Hr as (Hok & Hsv & Hf & Hw & Ha & Ho & Hrf).
  pose proof Hw as (? & Hres & ? & ? & Hoff & Hend & _). assert (HMv : MAXFILE = 73216) by reflexivity.
  unfold sfs_io. wp_step. eapply wp_get_sv; [done|].
  assert (Hnr : is_read u = false) by (unfold is_read; by rewrite Hrw). rewrite Hnr. cbn [andb].
  wp_step. wp_step. rewrite Z.sub_0_r, u32_small by lia.
  replace (set_resid (uio_resid u) u) with u by (by destruct u).
  wp_step. eapply wp_mono; [by apply (io_body_wp s X p sv u)|].
  intros [r u2] s2 (X2 & sv2 & m & [F Hz Eu Ec _] & Hm & HM & Hor).
  unfold xfer_uio in Eu. unfold xfer_content in Ec. rewrite Hrw in Eu, Ec.
  pose proof (step_vn _ _ _ _ _ _ _ F) as Evn.
  unfold io_out. wp_step. eapply wp_get_sv; [rewrite Evn; apply lookup_insert_eq|].
  rewrite (advance_small cur_space) in Eu by (done || lia).
  assert (Hw2 : is_write u2 = true) by (unfold is_write; rewrite Eu; simpl; by rewrite Hrw). rewrite Hw2. cbn [andb].
  assert (Eo2 : uio_offset u2 = uio_offset u + Z.of_nat m) by (by rewrite Eu).
  rewrite Hz, s32_small by lia.
  assert (Eres : set_resid (u32 (uio_resid u2 + 0)) u2 = advance (Z.of_nat m) u).
  { rewrite (advance_small cur_space) by (done || lia). rewrite Eu. unfold set_resid. simpl.
    rewrite u32_small by lia. f_equal. lia. }
  destruct (Z.gtb_spec (uio_offset u2) (sfi_size (sv_i sv))) as [Hgt|Hle].
  - wp_step. eapply wp_modify_sv; [rewrite Evn; apply lookup_insert_eq|]. wp_steps. rewrite Eres.
    exists X2, (dirty_inode (set_size (u32 (uio_offset u2))) sv2), m.
    split_and!; try done; try lia.
    + destruct F as [F1 F2 F3 F4 F5 F6 F7 F8 F9 F10 F11 F12 F13 F14].
      split; try done; simpl.
      * by rewrite F5, insert_insert_eq.
    + simpl. rewrite u32_small by lia. lia.
    + destruct Hor as [[-> ->]|[He Hm0]]; [left; split; [done | lia] | right]. split; [done|].
      destruct Hm0 as [?|[? ?]]; [by left | right]. split; [done | lia].
  - wp_steps. rewrite Eres. exists X2, sv2, m. split_and!; try done; try lia.
    destruct Hor as [[-> ->]|[He Hm0]]; [left; split; [done | lia] | right]. split; [done|].
    destruct Hm0 as [?|[? ?]]; [by left | right]. split; [done | lia].
Qed.
End Io.
