(* ===== verification/SfsDir.v ===== *)
(** * SFS: directories

    A directory is a file of 64-byte entries.  [dents] is the list of its
    entries; looking up, linking and unlinking are related to that list. *)

From S2P Require Import Prelude.
From S2P Require Import Array.
From S2P Require Import Bitmap.
From S2P Require Import Bytes.
From S2P Require Import Cstring.
From S2P Require Import Copyinout.
From S2P Require Import Uio.
From S2P Require Import Blockdev.
From S2P Require Import Vnode.
From S2P Require Import Sfs.
From S2P Require Import SfsBlock.
From S2P Require Import SfsFile.
From S2P Require Import SfsIo.

(** The string at the start of a buffer. *)
Fixpoint cstr (l : list Z) : list Z :=
  match l with
  | [] => []
  | c :: l' => if c =? 0 then [] else c :: cstr l'
  end.

Lemma is_cstr_cstr l : 0 ∈ l -> is_cstr l (cstr l).
Proof.
  induction l as [|c l IH]; intros Hin; [by apply not_elem_of_nil in Hin|]. simpl.
  destruct (Z.eqb_spec c 0) as [->|Hc]; [by exists l|].
  apply elem_of_cons in Hin as [?|Hin]; [done|]. destruct (IH Hin) as (rest & E & Hf).
  exists rest. split; [by rewrite E at 1 | by constructor].
Qed.

Lemma cstr_app str rest : Forall (fun c => c <> 0) str -> cstr (str ++ 0 :: rest) = str.
Proof.
  induction 1 as [|c str Hc _ IH]; [done|]. simpl. destruct (Z.eqb_spec c 0); [done|]. by rewrite IH.
Qed.

(** ** Entries *)

Definition dir_wf (e : sfs_dir) : Prop :=
  word_ok (sfd_ino e) /\ length (sfd_name e) = 60%nat /\ Forall byte_ok (sfd_name e).

Lemma dir_roundtrip e : dir_wf e -> bytes_dir (dir_bytes e) = e.
Proof.
  intros (Hi & Hl & _). unfold bytes_dir, dir_bytes, slice. destruct e as [ino name]; simpl in *.
  f_equal.
  - by apply un32_be32.
  - rewrite ?drop_0. apply take_ge. rewrite ?length_drop. lia.
Qed.

Lemma dir_bytes_wf e : dir_wf e -> length (dir_bytes e) = 64%nat /\ Forall byte_ok (dir_bytes e).
Proof.
  intros (Hi & Hl & Hb). unfold dir_bytes. rewrite length_app, Hl. split; [done|].
  apply Forall_app. split; [apply be32_bytes | done].
Qed.

Lemma bytes_dir_wf bs : length bs = 64%nat -> Forall byte_ok bs -> dir_wf (bytes_dir bs).
Proof.
  intros Hl Hb. unfold dir_wf, bytes_dir. simpl. split_and!.
  - by apply un32_bound, Forall_slice.
  - apply length_slice. lia.
  - by apply Forall_slice.
Qed.

(** The name of an entry, terminated at the last byte at the latest. *)
Definition dname (e : sfs_dir) : list Z := cstr (<[59%nat := 0]> (sfd_name e)).

Definition entry (c : list Z) (j : nat) : sfs_dir := bytes_dir (slice c (64 * j) 64).
Definition entries (c : list Z) (n : nat) : list sfs_dir := entry c <$> seq 0 n.

Lemma entries_lookup c n j : (j < n)%nat -> entries c n !! j = Some (entry c j).
Proof. intros Hj. unfold entries. by rewrite list_lookup_fmap, lookup_seq_lt. Qed.

Lemma length_entries c n : length (entries c n) = n.
Proof. unfold entries. by rewrite length_fmap, length_seq. Qed.

Lemma entry_wf c j :
  (64 * j + 64 <= length c)%nat -> Forall byte_ok c -> dir_wf (entry c j).
Proof. intros Hl Hb. apply bytes_dir_wf; [by apply length_slice | by apply Forall_slice]. Qed.

(** An entry in use with this name. *)
Definition matches (str : list Z) (e : sfs_dir) : Prop := sfd_ino e <> SFS_NOINO /\ dname e = str.

#[global] Instance matches_dec str e : Decision (matches str e).
Proof. unfold matches. apply _. Defined.

Definition names_unique (ents : list sfs_dir) : Prop :=
  forall j k e f, ents !! j = Some e -> ents !! k = Some f ->
    sfd_ino e <> SFS_NOINO -> matches (dname e) f -> j = k.

Lemma entry_splice c (k j : nat) e :
  dir_wf e -> (64 * k + 64 <= length c)%nat -> (64 * j + 64 <= length c)%nat ->
  entry (splice c (64 * k) (dir_bytes e)) j = if decide (j = k) then e else entry c j.
Proof.
  intros He Hk Hj. destruct (dir_bytes_wf e He) as [Hl _]. unfold entry.
  destruct (decide (j = k)) as [->|Hne].
  - pose proof (slice_splice_same c (64 * k) (dir_bytes e)) as E. rewrite Hl in E.
    rewrite E by lia. by apply dir_roundtrip.
  - rewrite slice_splice_other by lia. done.
Qed.

Section Dir.
Context {H D : Type} `{!Allocator H} `{!BlockDev D, !DevSize D, !Disk D, !CarefulLaws D} `{!CurSpace} {rf : Prop}.
Implicit Types (s : sfs H D) (X : gset Z) (d : D) (sv : sfs_vnode).

Definition dir_ok s X p sv : Prop :=
  fs_ok s X /\ sx_vn s !! p = Some sv /\ file_ok s X (sv_i sv) /\ size_ok (sv_i sv) /\
  sfi_type (sv_i sv) = SFS_TYPE_DIR /\ sfi_size (sv_i sv) mod SIZEOF_SFS_DIR = 0.

Definition nslots sv : nat := Z.to_nat (sfi_size (sv_i sv) / SIZEOF_SFS_DIR).
Definition dents s sv : list sfs_dir := entries (content (sx_dev s) (sv_i sv)) (nslots sv).

Lemma nslots_size s X p sv :
  dir_ok s X p sv -> sfi_size (sv_i sv) = 64 * Z.of_nat (nslots sv) /\ (nslots sv <= 1144)%nat.
Proof.
  intros (_ & _ & _ & [? HM] & _ & Hm). unfold nslots. unfold MAXFILE, MAXFBLOCKS, SFS_BLOCKSIZE, SFS_NDIRECT, SFS_DBPERIDB, SIZEOF_SFS_DIR in *.
  Z.to_euclidean_division_equations. lia.
Qed.

Lemma content_length s X p sv :
  dir_ok s X p sv -> length (content (sx_dev s) (sv_i sv)) = (64 * 1144)%nat /\
  Forall byte_ok (content (sx_dev s) (sv_i sv)).
Proof. intros (Hok & _ & Hf & _). apply (content_wf s X); done. Qed.

(** Reading does not change a directory. *)
Lemma dir_ok_read s X p sv d' :
  dir_ok s X p sv -> same_disk (sx_dev s) d' ->
  dir_ok (mkSfs (sx_heap s) d' (sx_fs s) (sx_vn s)) X p sv /\
  dents (mkSfs (sx_heap s) d' (sx_fs s) (sx_vn s)) sv = dents s sv.
Proof.
  intros (Hok & Hsv & Hf & Hz & Ht & Hm) Hs.
  destruct (file_step_refl s X p sv d' Hok Hsv Hf Hs) as (F & _ & Ec). split.
  - split_and!; try done; apply F.
  - unfold dents. simpl. by rewrite Ec.
Qed.

Lemma kuio_wf buf (len pos : Z) rw :
  Z.of_nat (length buf) = len -> Forall byte_ok buf -> len < 1000 -> 0 <= pos <= MAXFILE ->
  uio_wf cur_space (mk_kuio buf len pos rw).
Proof.
  assert (MAXFILE = 73216) as -> by reflexivity. intros. unfold uio_wf, mk_kuio. simpl.
  split_and!; try done; lia.
Qed.

Lemma sfs_readdir_wp s X p sv (j : nat) :
  dir_ok s X p sv -> (j < nslots sv)%nat ->
  wpx rf False (sfs_readdir p (Z.of_nat j)) s (fun '(r, e) s' => exists d',
    s' = mkSfs (sx_heap s) d' (sx_fs s) (sx_vn s) /\ same_disk (sx_dev s) d' /\
    ((r = 0 /\ dents s sv !! j = Some e) \/ r = EIO)).
Proof.
  intros Hd Hj. destruct (nslots_size s X p sv Hd) as [Esz Hmax].
  destruct (content_length s X p sv Hd) as [Hcl Hcb]. pose proof Hd as (Hok & Hsv & Hf & Hz & _).
  assert (HMv : MAXFILE = 73216) by reflexivity.
  unfold sfs_readdir, SIZEOF_SFS_DIR. rewrite s32_small by lia.
  set (u := mk_kuio (replicate (Z.to_nat 64) 0) 64 (Z.of_nat j * 64) UIO_READ).
  assert (Hr : io_ready (rf := rf) s X p sv u).
  { split_and!; try done; [apply kuio_wf; [done | apply zeros_bytes | lia | lia] | simpl; lia]. }
  wp_step. eapply wp_mono; [by apply (sfs_io_read_wp s X p sv u)|].
  intros [r u'] s' (d' & m & -> & Hs & -> & _ & Hor).
  assert (Ha : read_amount (sv_i sv) u = 64) by (unfold read_amount; simpl; lia).
  destruct Hor as [[-> Hm]| ->]; cbn [negb Z.eqb EIO].
  - assert (m = 64)%nat as -> by lia. wp_step.
    set (bs := slice (content (sx_dev s) (sv_i sv)) (Z.to_nat (uio_offset u)) 64).
    assert (Hlen : length bs = 64%nat) by (apply length_slice; simpl; lia).
    destruct Hr as (_ & _ & _ & Hw & _).
    destruct (uio_fill_fields cur_space u bs Hw) as (_ & Er & _); [rewrite Hlen; simpl; lia|].
    rewrite Er, Hlen. wp_step; [done|]. wp_steps. exists d'. split_and!; [done | done |]. left. split; [done|].
    unfold dents. rewrite entries_lookup by done. unfold uio_fill. simpl.
    rewrite splice_all by (by rewrite Hlen). unfold entry, bs. do 3 f_equal. simpl. lia.
  - wp_steps. exists d'. split_and!; try done. by right.
Qed.

Lemma dents_wf s X p sv (j : nat) e : dir_ok s X p sv -> dents s sv !! j = Some e -> dir_wf e.
Proof.
  intros Hd Hj. destruct (nslots_size s X p sv Hd) as [_ Hmax].
  destruct (content_length s X p sv Hd) as [Hcl Hcb]. pose proof (lookup_lt_Some _ _ _ Hj) as Hlt.
  unfold dents in *. rewrite length_entries in Hlt. rewrite entries_lookup in Hj by done.
  injection Hj as <-. apply entry_wf; [lia | done].
Qed.

(** ** Looking up a name *)

(** What [sfs_dir_findname] knows after [i] slots. *)
Definition scanned (str : list Z) (ents : list sfs_dir) (i : nat) (found : bool) (fn : findname) : Prop :=
  (if found then exists (j : nat) e, (j < i)%nat /\ ents !! j = Some e /\ matches str e /\
                   fn_ino fn = Some (sfd_ino e) /\ fn_slot fn = Some (Z.of_nat j)
   else forall (j : nat) e, (j < i)%nat -> ents !! j = Some e -> ~ matches str e) /\
  match fn_emptyslot fn with
  | Some z => exists (j : nat) e, z = Z.of_nat j /\ (j < i)%nat /\ ents !! j = Some e /\ sfd_ino e = SFS_NOINO
  | None => forall (j : nat) e, (j < i)%nat -> ents !! j = Some e -> sfd_ino e <> SFS_NOINO
  end.

Lemma scanned_empty str ents (i : nat) found fn e :
  scanned str ents i found fn -> ents !! i = Some e -> sfd_ino e = SFS_NOINO ->
  scanned str ents (S i) found (mkFind (fn_ino fn) (fn_slot fn) (Some (Z.of_nat i))).
Proof.
  intros [Hf He] Hi Hz. split; simpl.
  - destruct found.
    + destruct Hf as (j & f & ? & ? & ? & ? & ?). exists j, f. split_and!; try done. lia.
    + intros j f Hj Hf'. destruct (decide (j = i)) as [->|]; [|apply (Hf j); [lia | done]].
      assert (f = e) as -> by congruence. by intros [? _].
  - exists i, e. split_and!; try done. lia.
Qed.

Lemma scanned_match str ents (i : nat) fn e :
  scanned str ents i false fn -> ents !! i = Some e -> matches str e ->
  scanned str ents (S i) true (mkFind (Some (sfd_ino e)) (Some (Z.of_nat i)) (fn_emptyslot fn)).
Proof.
  intros [_ He] Hi Hm. split; simpl.
  - exists i, e. split_and!; try done. lia.
  - destruct (fn_emptyslot fn) as [z|].
    + destruct He as (j & f & ? & ? & ? & ?). exists j, f. split_and!; try done. lia.
    + intros j f Hj Hf. destruct (decide (j = i)) as [->|]; [|apply (He j); [lia | done]].
      assert (f = e) as -> by congruence. apply Hm.
Qed.

Lemma scanned_other str ents (i : nat) found fn e :
  scanned str ents i found fn -> ents !! i = Some e -> sfd_ino e <> SFS_NOINO -> ~ matches str e ->
  scanned str ents (S i) found fn.
Proof.
  intros [Hf He] Hi Hz Hm. split.
  - destruct found.
    + destruct Hf as (j & f & ? & ? & ? & ? & ?). exists j, f. split_and!; try done. lia.
    + intros j f Hj Hf'. destruct (decide (j = i)) as [->|]; [congruence | apply (Hf j); [lia | done]].
  - destruct (fn_emptyslot fn) as [z|].
    + destruct He as (j & f & ? & ? & ? & ?). exists j, f. split_and!; try done. lia.
    + intros j f Hj Hf'. destruct (decide (j = i)) as [->|]; [congruence | apply (He j); [lia | done]].
Qed.

Lemma findname_loop_wp (n i : nat) s X p sv name str found fn :
  dir_ok s X p sv -> is_cstr name str -> names_unique (dents s sv) ->
  (i + n = nslots sv)%nat -> scanned str (dents s sv) i found fn ->
  wpx rf False (findname_loop n p name (Z.of_nat i) found fn) s (fun '(r, fn') s' => exists d',
    s' = mkSfs (sx_heap s) d' (sx_fs s) (sx_vn s) /\ same_disk (sx_dev s) d' /\
    (r = EIO \/ (r = 0 /\ scanned str (dents s sv) (nslots sv) true fn') \/
     (r = ENOENT /\ scanned str (dents s sv) (nslots sv) false fn'))).
Proof.
  revert i s found fn. induction n as [|n IH]; intros i s found fn Hd Hname Hu Hin Hsc; cbn [findname_loop].
  - wp_steps. exists (sx_dev s). rewrite same_state. replace i with (nslots sv) in Hsc by lia.
    split_and!; [done | apply same_disk_refl, Hd |]. right. destruct found; [left | right]; done.
  - wp_step. eapply wp_mono; [apply (sfs_readdir_wp s X p sv i Hd); lia|].
    intros [r e] s1 (d1 & -> & Hs1 & Hor).
    assert (Hnext : forall found' fn', scanned str (dents s sv) (S i) found' fn' ->
      wpx rf False (findname_loop n p name (Z.of_nat i + 1) found' fn') (mkSfs (sx_heap s) d1 (sx_fs s) (sx_vn s))
        (fun '(r, fn') s' => exists d',
           s' = mkSfs (sx_heap s) d' (sx_fs s) (sx_vn s) /\ same_disk (sx_dev s) d' /\
           (r = EIO \/ (r = 0 /\ scanned str (dents s sv) (nslots sv) true fn') \/
            (r = ENOENT /\ scanned str (dents s sv) (nslots sv) false fn')))).
    { intros found' fn' Hsc'. destruct (dir_ok_read s X p sv d1 Hd Hs1) as [Hd1 Ed1].
      replace (Z.of_nat i + 1) with (Z.of_nat (S i)) by lia.
      eapply wp_mono; [apply IH; rewrite ?Ed1; done || lia|].
      intros [r' fn''] s2 (d2 & -> & Hs2 & Hr2). rewrite Ed1 in Hr2. exists d2.
      split_and!; [done | by eapply same_disk_trans | done]. }
    destruct Hor as [[-> He]| ->]; cbn [negb Z.eqb EIO].
    2: { wp_steps. exists d1. split_and!; [done | done | by left]. }
    pose proof (dents_wf s X p sv i e Hd He) as (_ & Hnl & _).
    destruct (Z.eqb_spec (sfd_ino e) SFS_NOINO) as [Hz|Hz].
    { apply Hnext. by eapply scanned_empty. }
    wp_step. change (SFS_NAMELEN - 1) with (Z.of_nat 59). rewrite wr_nat by lia. wp_step. cbn [rwp]. wp_step.
    rewrite (strcmp_spec _ _ (dname e) str); [|apply is_cstr_cstr | done].
    2: { apply list_elem_of_lookup. exists 59%nat. apply list_lookup_insert_eq. lia. }
    wp_step. cbn [rwp]. destruct (Z.eqb_spec (lex (dname e) str) 0) as [Hl|Hl].
    + apply lex_eq in Hl. assert (Hm : matches str e) by done. wp_step.
      assert (found = false) as ->.
      { destruct found; [|done]. exfalso. destruct Hsc as [(j & f & Hj & Hf & Hmf & _) _].
        assert (j = i); [|lia]. eapply (Hu j i f e); try done; [apply Hmf|]. destruct Hmf as [_ ->]. done. }
      wp_step. apply Hnext. by eapply scanned_match.
    + apply Hnext. eapply scanned_other; try done. intros [_ Hn]. by apply Hl, lex_eq.
Qed.

Lemma sfs_dir_nentries_wp s X p sv :
  dir_ok s X p sv -> wpx rf False (sfs_dir_nentries p) s (fun n s' => s' = s /\ n = Z.of_nat (nslots sv)).
Proof.
  intros Hd. destruct (nslots_size s X p sv Hd) as [Esz Hmax]. pose proof Hd as (_ & Hsv & _ & _ & Ht & Hm).
  unfold sfs_dir_nentries. wp_step. eapply wp_get_sv; [done|]. wp_step. rewrite Ht. wp_step. wp_step.
  rewrite Hm. wp_step. wp_steps. split; [done|].
  replace (sfi_size (sv_i sv) / SIZEOF_SFS_DIR) with (Z.of_nat (nslots sv)).
  - by rewrite s32_small by lia.
  - unfold SIZEOF_SFS_DIR. rewrite Esz, (Z.mul_comm 64), Z.div_mul by lia. done.
Qed.

Lemma sfs_dir_findname_wp s X p sv name str :
  dir_ok s X p sv -> is_cstr name str -> names_unique (dents s sv) ->
  wpx rf False (sfs_dir_findname p name) s (fun '(r, fn) s' => exists d',
    s' = mkSfs (sx_heap s) d' (sx_fs s) (sx_vn s) /\ same_disk (sx_dev s) d' /\
    (r = EIO \/ (r = 0 /\ scanned str (dents s sv) (nslots sv) true fn) \/
     (r = ENOENT /\ scanned str (dents s sv) (nslots sv) false fn))).
Proof.
  intros Hd Hname Hu. unfold sfs_dir_findname. wp_step.
  eapply wp_mono; [by apply (sfs_dir_nentries_wp s X p sv)|]. intros n s' [-> ->]. rewrite Nat2Z.id.
  apply (findname_loop_wp (nslots sv) 0 s X p sv name str); try done.
  split; simpl; intros; lia.
Qed.

(** ** Writing an entry *)

(** An entry put in a slot, or in the one after the last. *)
Definition put_entry (j : nat) e (ents : list sfs_dir) : list sfs_dir :=
  if decide (j < length ents)%nat then <[j := e]> ents else ents ++ [e].

Lemma entries_splice c (k n : nat) e :
  dir_wf e -> (64 * n <= length c)%nat -> (64 * k + 64 <= length c)%nat -> (k <= n)%nat ->
  entries (splice c (64 * k) (dir_bytes e)) (Nat.max n (S k)) = put_entry k e (entries c n).
Proof.
  intros He Hn Hk Hkn. apply list_eq. intros j. unfold put_entry. rewrite length_entries.
  destruct (decide (j < Nat.max n (S k))%nat) as [Hj|Hj].
  2: { rewrite !lookup_ge_None_2; [done| |rewrite length_entries; lia].
       destruct (decide (k < n)%nat); [rewrite length_insert | rewrite length_app; simpl]; rewrite length_entries; lia. }
  rewrite entries_lookup by done. rewrite entry_splice by (done || lia).
  destruct (decide (k < n)%nat), (decide (j = k)) as [->|Hne].
  - rewrite list_lookup_insert_eq; [done | by rewrite length_entries].
  - rewrite list_lookup_insert_ne by done. rewrite entries_lookup by lia. done.
  - assert (k = n) as -> by lia. rewrite lookup_app_r by (rewrite length_entries; lia).
    rewrite length_entries, Nat.sub_diag. done.
  - rewrite lookup_app_l by (rewrite length_entries; lia). rewrite entries_lookup by lia. done.
Qed.

Definition dir_step s X p sv s' X' sv' : Prop := file_step s X p sv s' X' sv' /\ dir_ok s' X' p sv'.

(** A directory is rewritten by a whole entry or not at all. *)
Lemma dir_write_ok s X p sv s' X' sv' (j : nat) e bs :
  dir_ok s X p sv -> dir_wf e -> (j <= nslots sv)%nat -> file_step s X p sv s' X' sv' ->
  64 * Z.of_nat j + Z.of_nat (length bs) <= MAXFILE ->
  content (sx_dev s') (sv_i sv') = splice (content (sx_dev s) (sv_i sv)) (64 * j) bs ->
  sfi_size (sv_i sv') = Z.max (sfi_size (sv_i sv)) (64 * Z.of_nat j + Z.of_nat (length bs)) ->
  (bs = [] -> dir_step s X p sv s' X' sv' /\ dents s' sv' = dents s sv) /\
  (bs = dir_bytes e -> dir_step s X p sv s' X' sv' /\ dents s' sv' = put_entry j e (dents s sv)).
Proof.
  intros Hd He Hj F HM Ec Esz. destruct (nslots_size s X p sv Hd) as [Es Hmax].
  destruct (content_length s X p sv Hd) as [Hcl _]. pose proof Hd as (_ & _ & _ & [Hz HzM] & Ht & Hm).
  assert (HMv : MAXFILE = 73216) by reflexivity.
  destruct (dir_bytes_wf e He) as [Hel _].
  assert (Hbs : bs = [] \/ bs = dir_bytes e -> dir_step s X p sv s' X' sv' /\
                nslots sv' = if decide (bs = []) then nslots sv else Nat.max (nslots sv) (S j)).
  { intros Hor.
    assert (E : sfi_size (sv_i sv') = 64 * Z.of_nat (if decide (bs = []) then nslots sv else Nat.max (nslots sv) (S j))).
    { destruct Hor as [->|Hb]; rewrite Esz, Es; [rewrite decide_True by done; simpl; lia|].
      rewrite decide_False by (intros ->; rewrite <- Hb in Hel; done). rewrite Hb, Hel. lia. }
    split.
    - split; [done|]. split_and!.
      + apply F.
      + rewrite (step_vn _ _ _ _ _ _ _ F). apply lookup_insert_eq.
      + apply F.
      + split; lia.
      + rewrite <- Ht. apply F.
      + rewrite E. unfold SIZEOF_SFS_DIR. rewrite Z.mul_comm. apply Z.mod_mul. lia.
    - unfold nslots at 1. rewrite E. unfold SIZEOF_SFS_DIR. rewrite Z.mul_comm, Z.div_mul by lia. apply Nat2Z.id. }
  split; intros Eb.
  - destruct (Hbs (or_introl Eb)) as [Hst En]. split; [done|]. unfold dents. rewrite En, decide_True by done.
    rewrite Ec, Eb, splice_nil. done.
  - destruct (Hbs (or_intror Eb)) as [Hst En]. split; [done|]. unfold dents.
    rewrite En, decide_False by (rewrite Eb; intros E; by rewrite E in Hel).
    rewrite Ec, Eb. apply entries_splice; [done | lia | | done]. rewrite Eb, Hel in HM. lia.
Qed.

(** Why a directory is left as it was: the device, a full volume ([X'] are its
    blocks in use), a full directory. *)
Definition dir_full_error s X' sv (r : Z) : Prop :=
  r = EIO \/ (r = ENOSPC /\ vol_full s X') \/ (r = EINVAL /\ nslots sv = 1144%nat).

Lemma dir_full_error_from s s1 X' sv r :
  nblocks s1 = nblocks s -> dir_full_error s1 X' sv r -> dir_full_error s X' sv r.
Proof. unfold dir_full_error, vol_full. by intros ->. Qed.

Lemma sfs_writedir_wp `{!MayRefuse rf} s X p sv (j : nat) e :
  dir_ok s X p sv -> dir_wf e -> (j <= nslots sv)%nat ->
  wpx rf False (sfs_writedir p e (Z.of_nat j)) s (fun r s' => exists X' sv',
    dir_step s X p sv s' X' sv' /\
    ((r = 0 /\ dents s' sv' = put_entry j e (dents s sv)) \/
     (dir_full_error s X' sv r /\ dents s' sv' = dents s sv))).
Proof.
  intros Hd He Hj. destruct (nslots_size s X p sv Hd) as [Esz Hmax].
  destruct (dir_bytes_wf e He) as [Hel Heb]. pose proof Hd as (Hok & Hsv & Hf & Hz & _).
  assert (HMv : MAXFILE = 73216) by reflexivity.
  unfold sfs_writedir, SIZEOF_SFS_DIR. wp_step. wp_step. rewrite s32_small by lia.
  set (u := mk_kuio (dir_bytes e) 64 (Z.of_nat j * 64) UIO_WRITE).
  assert (Hr : io_ready (rf := rf) s X p sv u).
  { split_and!; try done; [apply kuio_wf; [lia | done | lia | lia] | simpl; lia]. }
  wp_step. eapply wp_mono; [by apply (sfs_io_write_wp s X p sv u)|].
  intros [r u'] s' (X' & sv' & m & F & -> & Ec & Es & HM & Hm & Hor).
  replace (uio_offset u) with (64 * Z.of_nat j) in * by (change (uio_offset u) with (Z.of_nat j * 64); lia).
  change (uio_resid u) with 64 in *.
  assert (Hlen : length (uio_data u m) = m) by (apply length_slice; change (0 + m <= length (dir_bytes e))%nat; lia).
  destruct (dir_write_ok s X p sv s' X' sv' j e (uio_data u m) Hd He Hj F) as [Hnil Hall];
    [by rewrite Hlen | rewrite Ec; f_equal; lia | by rewrite Es, Hlen |].
  destruct Hor as [[-> Hm64]|[Her Hm0]].
  - assert (m = 64)%nat as -> by lia. cbn [negb Z.eqb]. wp_step.
    destruct Hr as (_ & _ & _ & Hw & _).
    rewrite (advance_small cur_space) by (done || simpl; lia). wp_step; [done|]. wp_steps.
    destruct Hall as [Hst Hde].
    { change (take 64 (drop 0 (dir_bytes e)) = dir_bytes e). rewrite drop_0. apply take_ge. lia. }
    exists X', sv'. split; [done | by left].
  - assert (Hr0 : r <> 0) by (destruct Her as [?|[[? _]|[? _]]]; by subst).
    destruct (Z.eqb_spec r 0) as [?|_]; [done|]. cbn [negb].
    assert (m = 0)%nat as ->.
    { destruct Hm0 as [?|[Hmod Hlt]]; [done|]. unfold SFS_BLOCKSIZE in Hmod.
      rewrite Z.mod_divide in Hmod by lia. destruct Hmod as [q Hq]. lia. }
    destruct Hnil as [Hst Hde]; [done|]. wp_steps. exists X', sv'. split; [done | right]. split; [|done].
    destruct Her as [?|[(? & _ & ?)|[? Hbig]]]; [by left | by right; left | right; right].
    split; [done|]. change (uio_offset u) with (Z.of_nat j * 64) in Hbig. change (uio_resid u) with 64 in Hbig. lia.
Qed.

(** ** Directories as finite maps *)

(** The entries in use are the pairs of the map, each name once. *)
Definition dir_repr (ents : list sfs_dir) (m : gmap (list Z) Z) : Prop :=
  names_unique ents /\
  forall str ino, m !! str = Some ino <->
    exists (j : nat) e, ents !! j = Some e /\ matches str e /\ sfd_ino e = ino.

Lemma put_entry_lookup (j k : nat) e ents :
  (j <= length ents)%nat -> put_entry j e ents !! k = if decide (k = j) then Some e else ents !! k.
Proof.
  intros Hj. unfold put_entry. destruct (decide (j < length ents)%nat) as [Hlt|Hge].
  - destruct (decide (k = j)) as [->|]; [by apply list_lookup_insert_eq | by apply list_lookup_insert_ne].
  - destruct (decide (k = j)) as [->|].
    + assert (j = length ents) as -> by lia. by apply list_lookup_middle.
    + destruct (decide (k < length ents)%nat); [by apply lookup_app_l|].
      rewrite !lookup_ge_None_2; [done | lia | rewrite length_app; simpl; lia].
Qed.

(** An entry written over a slot that holds no name, or no other name. *)
Lemma dir_repr_put ents m (j : nat) e :
  dir_repr ents m -> (j <= length ents)%nat ->
  (forall f, ents !! j = Some f -> sfd_ino f = SFS_NOINO) ->
  sfd_ino e <> SFS_NOINO -> m !! dname e = None ->
  dir_repr (put_entry j e ents) (<[dname e := sfd_ino e]> m).
Proof.
  intros [Hu Hm] Hj Hfree He Hnone.
  assert (Hno : forall k f, ents !! k = Some f -> ~ matches (dname e) f).
  { intros k f Hk Hf. assert (Hs : m !! dname e = Some (sfd_ino f)) by (apply Hm; by exists k, f). congruence. }
  split.
  - intros k l f g. rewrite !put_entry_lookup by done. intros Hk Hl Hf Hg.
    destruct (decide (k = j)) as [->|], (decide (l = j)) as [->|]; simplify_eq; [done | | |by eapply (Hu k l)].
    + by edestruct Hno.
    + exfalso. apply (Hno k f Hk). split; [done|]. by destruct Hg.
  - intros str ino. destruct (decide (str = dname e)) as [->|Hne].
    + rewrite lookup_insert_eq. split.
      * intros [= <-]. exists j, e. rewrite put_entry_lookup, decide_True by done. done.
      * intros (k & f & Hk & Hf & <-). rewrite put_entry_lookup in Hk by done.
        destruct (decide (k = j)); simplify_eq; [done|]. by edestruct Hno.
    + rewrite lookup_insert_ne by done. rewrite Hm. split; intros (k & f & Hk & Hf & <-); exists k, f.
      * rewrite put_entry_lookup by done. destruct (decide (k = j)) as [->|]; [|done].
        destruct Hf as [Hf _]. by rewrite (Hfree f Hk) in Hf.
      * rewrite put_entry_lookup in Hk by done. destruct (decide (k = j)); [|done].
        destruct Hf as [_ Hf]. congruence.
Qed.

Lemma dir_repr_clear ents m (j : nat) e f :
  dir_repr ents m -> ents !! j = Some f -> sfd_ino f <> SFS_NOINO -> sfd_ino e = SFS_NOINO ->
  dir_repr (put_entry j e ents) (delete (dname f) m).
Proof.
  intros [Hu Hm] Hf Hi He. assert (Hj : (j <= length ents)%nat) by (apply lookup_lt_Some in Hf; lia).
  split.
  - intros k l g h. rewrite !put_entry_lookup by done. intros Hk Hl Hg Hh.
    destruct (decide (k = j)) as [->|]; [injection Hk as <-; done|].
    destruct (decide (l = j)) as [->|]; [injection Hl as <-; by destruct Hh|]. by eapply (Hu k l).
  - intros str ino. destruct (decide (str = dname f)) as [->|Hne].
    + rewrite lookup_delete_eq. split; [done|]. intros (k & g & Hk & Hg & _). exfalso.
      rewrite put_entry_lookup in Hk by done. destruct (decide (k = j)) as [->|Hkj].
      * injection Hk as <-. by destruct Hg.
      * apply Hkj. symmetry. by eapply (Hu j k).
    + rewrite lookup_delete_ne by done. rewrite Hm. split; intros (k & g & Hk & Hg & <-); exists k, g.
      * rewrite put_entry_lookup by done. destruct (decide (k = j)) as [->|]; [|done].
        destruct Hg as [_ Hg]. congruence.
      * rewrite put_entry_lookup in Hk by done. destruct (decide (k = j)); [|done].
        injection Hk as <-. by destruct Hg.
Qed.

Lemma scanned_repr str ents m fn found :
  dir_repr ents m -> scanned str ents (length ents) found fn ->
  if found then m !! str = fn_ino fn /\ is_Some (fn_ino fn) else m !! str = None.
Proof.
  intros [_ Hm] [Hf _]. destruct found.
  - destruct Hf as (j & e & _ & He & Hmt & Ei & _). rewrite Ei. split; [|by eexists]. apply Hm. by exists j, e.
  - destruct (m !! str) as [ino|] eqn:E; [|done]. apply Hm in E as (j & e & He & Hmt & _).
    by edestruct (Hf j e (lookup_lt_Some _ _ _ He)).
Qed.

Lemma length_dents s sv : length (dents s sv) = nslots sv.
Proof. apply length_entries. Qed.

(** A new entry: the name, its terminator and zeros. *)
Lemma new_entry_wf name str ino :
  is_cstr name str -> Forall byte_ok str -> word_ok ino -> (length str < 60)%nat ->
  strcpy (replicate (Z.to_nat SFS_NAMELEN) 0) name = Ret (splice (replicate 60 0) 0 (str ++ [0])) /\
  dir_wf (mkDir ino (splice (replicate 60 0) 0 (str ++ [0]))) /\
  dname (mkDir ino (splice (replicate 60 0) 0 (str ++ [0]))) = str.
Proof.
  intros Hn Hb Hi Hl. pose proof Hn as (rest & _ & Hz). change (Z.to_nat SFS_NAMELEN) with 60%nat.
  assert (E : splice (replicate 60 0) 0 (str ++ [0]) = str ++ 0 :: replicate (59 - length str) 0).
  { unfold splice. rewrite take_0, length_app, drop_replicate. simpl.
    rewrite <- app_assoc. replace (60 - (length str + 1))%nat with (59 - length str)%nat by lia. done. }
  split_and!.
  - apply strcpy_spec; [done|]. by rewrite length_replicate.
  - rewrite E. split_and!; [done | |]; cbn [sfd_name].
    + rewrite length_app. simpl. rewrite length_replicate. lia.
    + apply Forall_app. split; [done|]. constructor; [done | apply Forall_replicate; done].
  - unfold dname. rewrite E. cbn [sfd_name]. destruct (decide (length str = 59%nat)) as [H59|].
    + rewrite insert_app_r_alt, H59, Nat.sub_diag by lia. simpl. by apply cstr_app.
    + rewrite insert_app_r_alt by lia. replace (59 - length str)%nat with (S (58 - length str)) by lia.
      simpl. by apply cstr_app.
Qed.

Lemma dir_step_read s X p sv d' :
  dir_ok s X p sv -> same_disk (sx_dev s) d' ->
  dir_step s X p sv (mkSfs (sx_heap s) d' (sx_fs s) (sx_vn s)) X sv /\
  dents (mkSfs (sx_heap s) d' (sx_fs s) (sx_vn s)) sv = dents s sv.
Proof.
  intros Hd Hs. destruct (dir_ok_read s X p sv d' Hd Hs) as [Hd' E]. split; [split|]; try done.
  destruct Hd as (Hok & Hsv & Hf & _). apply (file_step_refl s X p sv d' Hok Hsv Hf Hs).
Qed.

(** What a link may answer, with what it makes of the map. *)
Definition link_post s X' sv (m : gmap (list Z) Z) (str : list Z) (ino r slot : Z) (m' : gmap (list Z) Z) : Prop :=
  (r = 0 /\ m !! str = None /\ (length str < 60)%nat /\ 0 <= slot <= Z.of_nat (nslots sv) /\
     m' = <[str := ino]> m) \/
  (m' = m /\ ((r = EEXIST /\ is_Some (m !! str)) \/
              (r = ENAMETOOLONG /\ m !! str = None /\ (60 <= length str)%nat) \/
              dir_full_error s X' sv r)).

Lemma link_slot s X p sv str fn :
  dir_ok s X p sv -> scanned str (dents s sv) (nslots sv) false fn ->
  wpx rf False (if default (-1) (fn_emptyslot fn) <? 0 then sfs_dir_nentries p else ret (default (-1) (fn_emptyslot fn))) s
     (fun slot s' => s' = s /\ exists j : nat, slot = Z.of_nat j /\ (j <= nslots sv)%nat /\
        forall f, dents s sv !! j = Some f -> sfd_ino f = SFS_NOINO).
Proof.
  intros Hd [_ He]. destruct (fn_emptyslot fn) as [z|]; simpl.
  - destruct He as (j & f & -> & Hj & Hf & Hz). destruct (Z.ltb_spec (Z.of_nat j) 0); [lia|]. wp_steps.
    split; [done|]. exists j. split_and!; [done | lia |]. intros g Hg. congruence.
  - eapply wp_mono; [by apply (sfs_dir_nentries_wp s X p sv)|]. intros n s' [-> ->].
    split; [done|]. exists (nslots sv). split_and!; [done | done |]. intros f Hf.
    apply lookup_lt_Some in Hf. rewrite length_dents in Hf. lia.
Qed.

Lemma sfs_dir_link_wp `{!MayRefuse rf} s X p sv name str ino m :
  dir_ok s X p sv -> dir_repr (dents s sv) m -> is_cstr name str -> Forall byte_ok str ->
  word_ok ino -> ino <> SFS_NOINO ->
  wpx rf False (sfs_dir_link p name ino) s (fun '(r, slot) s' => exists X' sv' m',
    dir_step s X p sv s' X' sv' /\ dir_repr (dents s' sv') m' /\ link_post s X' sv m str ino r slot m').
Proof.
  intros Hd Hrep Hn Hb Hi Hi0. unfold sfs_dir_link. wp_step.
  eapply wp_mono; [by apply (sfs_dir_findname_wp s X p sv name str Hd Hn), Hrep|].
  intros [r fn] s1 (d1 & -> & Hs1 & Hor). destruct (dir_step_read s X p sv d1 Hd Hs1) as [[F1 Hd1] E1].
  set (s1 := mkSfs (sx_heap s) d1 (sx_fs s) (sx_vn s)) in *.
  assert (Hsame : forall r slot, (r = EEXIST /\ is_Some (m !! str)) \/
              (r = ENAMETOOLONG /\ m !! str = None /\ (60 <= length str)%nat) \/ dir_full_error s X sv r ->
    exists X' sv' m', dir_step s X p sv s1 X' sv' /\ dir_repr (dents s1 sv') m' /\ link_post s X' sv m str ino r slot m').
  { intros. exists X, sv, m. split_and!; [by split | by rewrite E1 | by right]. }
  rewrite <- length_dents with (s := s) in Hor.
  destruct Hor as [->|[[-> Hsc]|[-> Hsc]]]; cbn [negb andb Z.eqb EIO ENOENT Pos.eqb]; pose proof Hrep as Hrep'.
  - wp_steps. apply Hsame. right. right. by left.
  - wp_steps. apply Hsame. left. split; [done|]. by destruct (scanned_repr _ _ _ _ _ Hrep Hsc) as [-> ?].
  - pose proof (scanned_repr _ _ _ _ _ Hrep Hsc) as Hnone. simpl in Hnone.
    rewrite (strlen_spec _ _ Hn). wp_step. wp_step. cbn [rwp]. change SFS_NAMELEN with 60 at 1.
    destruct (Z.gtb_spec (Z.of_nat (length str) + 1) 60) as [Hlong|Hshort].
    { wp_steps. apply Hsame. right. left. split_and!; [done | done | lia]. }
    rewrite length_dents, <- E1 in Hsc. wp_step.
    eapply wp_mono; [by apply (link_slot s1 X p sv str)|]. intros slot s2 (-> & j & -> & Hj & Hfree).
    rewrite E1 in Hfree.
    destruct (new_entry_wf name str ino Hn Hb Hi) as (Ecp & Hwf & Hdn); [lia|]. rewrite Ecp. wp_step. wp_step. cbn [rwp].
    wp_step. eapply wp_mono; [by apply (sfs_writedir_wp s1 X p sv j)|].
    intros r s' (X' & sv' & [F2 Hd2] & Hr). wp_steps.
    pose proof (file_step_trans _ _ _ _ _ _ _ _ _ _ F1 F2) as F. rewrite E1 in Hr.
    destruct Hr as [[-> E2]|[He E2]].
    + exists X', sv', (<[str := ino]> m). split_and!; [by split | |left; split_and!; done || lia].
      rewrite E2. rewrite <- Hdn at 2. apply dir_repr_put; try done; [by rewrite length_dents | by rewrite Hdn].
    + exists X', sv', m. split_and!; [by split | by rewrite E2 |]. right. split; [done|]. right. right.
      by apply (dir_full_error_from s s1); [apply (step_nblocks _ _ _ _ _ _ _ F1)|].
Qed.

Lemma sfs_dir_unlink_wp `{!MayRefuse rf} s X p sv m (j : nat) f :
  dir_ok s X p sv -> dir_repr (dents s sv) m -> dents s sv !! j = Some f -> sfd_ino f <> SFS_NOINO ->
  wpx rf False (sfs_dir_unlink p (Z.of_nat j)) s (fun r s' => exists X' sv' m',
    dir_step s X p sv s' X' sv' /\ dir_repr (dents s' sv') m' /\ nslots sv' = nslots sv /\
    ((r = 0 /\ m' = delete (dname f) m) \/ (dir_full_error s X' sv r /\ m' = m))).
Proof.
  intros Hd Hrep Hf Hi. pose proof (lookup_lt_Some _ _ _ Hf) as Hj. rewrite length_dents in Hj.
  unfold sfs_dir_unlink. eapply wp_mono; [apply (sfs_writedir_wp s X p sv j); [done | | lia]|].
  - split_and!; [done | done | by apply Forall_replicate].
  - intros r s' (X' & sv' & Hst & Hr). exists X', sv'. destruct Hr as [[-> E]|[He E]].
    + exists (delete (dname f) m). split_and!; [done | rewrite E; by apply dir_repr_clear | | by left].
      rewrite <- (length_dents s' sv'), E. unfold put_entry. rewrite decide_True by (rewrite length_dents; lia).
      by rewrite length_insert, length_dents.
    + exists m. split_and!; [done | by rewrite E | | by right].
      by rewrite <- (length_dents s' sv'), E, length_dents.
Qed.
End Dir.
