(* ===== verification/SfsTrunc.v ===== *)
(** * SFS: cutting a file

    [sfs_truncate] clears block numbers and gives the blocks back.  [cut c l] is
    the list of block numbers with those that [c] chooses cleared, [dead c l]
    the blocks they named. *)

From S2P Require Import Prelude.
From S2P Require Import Bytes.
From S2P Require Import Cstring.
From S2P Require Import Copyinout.
From S2P Require Import Uio.
From S2P Require Import Blockdev.
From S2P Require Import Array.
From S2P Require Import Bitmap.
From S2P Require Import Vnode.
From S2P Require Import Sfs.
From S2P Require Import SfsOps.
From S2P Require Import SfsBlock.
From S2P Require Import SfsFile.
From S2P Require Import SfsIo.

Abbreviation nonzero := (filter (fun b : Z => b <> 0)).

Definition cut (c : nat -> bool) (l : list Z) : list Z := imap (fun j b => if c j then 0 else b) l.
Definition dead (c : nat -> bool) (l : list Z) : list Z := nonzero (imap (fun j b => if c j then b else 0) l).

Lemma length_cut c l : length (cut c l) = length l.
Proof. apply length_imap. Qed.

Lemma cut_lookup (c : nat -> bool) (l : list Z) (j : nat) b : l !! j = Some b -> cut c l !! j = Some (if c j then 0 else b).
Proof. intros E. unfold cut. by rewrite list_lookup_imap, E. Qed.

Lemma dead_snoc c l b : dead c (l ++ [b]) = dead c l ++ (if c (length l) then nonzero [b] else []).
Proof.
  unfold dead. rewrite imap_app, filter_app. f_equal. simpl. rewrite Nat.add_0_r. by destruct (c (length l)).
Qed.

(** Every block is kept or given back. *)
Lemma cut_dead c l : nonzero l ≡ₚ nonzero (cut c l) ++ dead c l.
Proof.
  revert c. induction l as [|b l IH]; intros c; [done|].
  unfold cut, dead in *. rewrite !imap_cons. specialize (IH (c ∘ S)). unfold compose in *.
  destruct (c 0%nat).
  - rewrite (filter_cons_False _ 0) by (intros Hx; by apply Hx). destruct (decide (b <> 0)).
    + rewrite !filter_cons_True by done. rewrite IH. apply Permutation_middle.
    + rewrite !filter_cons_False by done. apply IH.
  - rewrite (filter_cons_False _ 0) by (intros Hx; by apply Hx). destruct (decide (b <> 0)).
    + rewrite !filter_cons_True by done. rewrite IH. done.
    + rewrite !filter_cons_False by done. apply IH.
Qed.

Lemma dead_take_not_in c (l : list Z) (i : nat) b :
  NoDup (nonzero l) -> l !! i = Some b -> b <> 0 -> b ∉ dead c (take i l).
Proof.
  intros Hn Hi Hb Hin. rewrite <- (take_drop_middle l i b Hi) in Hn.
  rewrite filter_app, filter_cons_True in Hn by done. apply NoDup_app in Hn as (_ & Hd & _).
  apply (Hd b); [|by left]. rewrite (cut_dead c). apply elem_of_app. by right.
Qed.

(** The list while the first [i] of it are done. *)
Definition partly c (i : nat) (l : list Z) : list Z := take i (cut c l) ++ drop i l.

Lemma partly_lookup (c : nat -> bool) (i : nat) (l : list Z) b : l !! i = Some b -> partly c i l !! i = Some b.
Proof.
  intros E. pose proof (lookup_lt_Some _ _ _ E) as Hi. unfold partly.
  rewrite lookup_app_r by (rewrite length_take, length_cut; lia).
  rewrite length_take, length_cut, lookup_drop. rewrite <- E. f_equal. lia.
Qed.

Lemma partly_insert (c : nat -> bool) (i : nat) (l : list Z) b :
  l !! i = Some b -> <[i := if c i then 0 else b]> (partly c i l) = partly c (S i) l.
Proof.
  intros E. pose proof (lookup_lt_Some _ _ _ E) as Hi. pose proof (cut_lookup c _ _ _ E) as Ec. unfold partly.
  rewrite (drop_S _ _ _ E), (take_S_r _ _ _ Ec), <- app_assoc.
  replace i with (length (take i (cut c l)) + 0)%nat at 1 by (rewrite length_take, length_cut; lia).
  by rewrite insert_app_r.
Qed.

Lemma partly_keep (c : nat -> bool) (i : nat) (l : list Z) b : l !! i = Some b -> (c i = false \/ b = 0) -> partly c i l = partly c (S i) l.
Proof.
  intros E Hc. rewrite <- (partly_insert c i l b E). symmetry. apply list_insert_id.
  rewrite (partly_lookup c i l b E). by destruct (c i); [destruct Hc as [?| ->]|].
Qed.

Lemma partly_0 (c : nat -> bool) l : partly c 0 l = l.
Proof. done. Qed.
Lemma partly_all (c : nat -> bool) l : partly c (length l) l = cut c l.
Proof. unfold partly. rewrite drop_all, app_nil_r. apply take_ge. by rewrite length_cut. Qed.

Lemma dead_step (c : nat -> bool) (i : nat) (l : list Z) b :
  l !! i = Some b -> dead c (take (S i) l) = dead c (take i l) ++ (if c i && negb (b =? 0) then [b] else []).
Proof.
  intros E. pose proof (lookup_lt_Some _ _ _ E) as Hi. rewrite (take_S_r _ _ _ E), dead_snoc, length_take.
  rewrite Nat.min_l by lia. f_equal. destruct (c i); [|done]. simpl. destruct (Z.eqb_spec b 0) as [->|].
  - by rewrite filter_cons_False by (intros Hx; by apply Hx).
  - by rewrite filter_cons_True.
Qed.

Section Truncate.
Context {H D : Type} `{!Allocator H} `{!BlockDev D, !DevSize D, !Disk D, !CarefulLaws D} `{!CurSpace}.
Implicit Types (s : sfs H D) (X : gset Z) (d : D) (sv : sfs_vnode) (i : sfs_inode).

(** Blocks of the volume given back: the disk and the vnodes are untouched. *)
Definition freed s X s' X' (bs : list Z) : Prop :=
  fs_ok s' X' /\ X' = X ∖ list_to_set bs /\ fs_rest (sx_fs s) (sx_fs s') /\ sx_heap s' = sx_heap s /\
  sx_dev s' = sx_dev s /\ (fs_freemapdirty (sx_fs s) = true \/ bs <> [] -> fs_freemapdirty (sx_fs s') = true).

Lemma freed_nil s X : fs_ok s X -> freed s X s X [].
Proof.
  intros Hok. split_and!; try done.
  - simpl. by rewrite difference_empty_L.
  - by intros [?|?].
Qed.

Lemma freed_snoc s X s1 X1 s2 (bs : list Z) b :
  freed s X s1 X1 bs -> fs_ok s2 (X1 ∖ {[ b ]}) -> fs_rest (sx_fs s1) (sx_fs s2) ->
  fs_freemapdirty (sx_fs s2) = true -> sx_heap s2 = sx_heap s1 -> sx_dev s2 = sx_dev s1 ->
  freed s X s2 (X1 ∖ {[ b ]}) (bs ++ [b]).
Proof.
  intros (_ & -> & Hr & Hh & Hd & _) Hok Hr2 Hf Hh2 Hd2. split_and!; try done; try congruence.
  - rewrite list_to_set_app_L. simpl. rewrite union_empty_r_L. by rewrite difference_difference_l_L.
  - by eapply fs_rest_trans.
Qed.

(** A block of the list that is still there. *)
Lemma still_marked X (l : list Z) c (i : nat) b :
  NoDup (nonzero l) -> (forall b, b ∈ nonzero l -> b ∈ X) -> l !! i = Some b -> b <> 0 ->
  b ∈ X ∖ list_to_set (dead c (take i l)).
Proof.
  intros Hn HX Hi Hb. apply elem_of_difference. split.
  - apply HX, list_elem_of_filter. split; [done | by eapply list_elem_of_lookup_2].
  - rewrite elem_of_list_to_set. by eapply dead_take_not_in.
Qed.

Definition direct_cut (k : Z) (j : nat) : bool := Z.of_nat j >=? k.

Lemma truncate_direct_wp (n j : nat) s X p sv s1 X1 (k : Z) :
  let l := sfi_direct (sv_i sv) in
  fs_ok s X -> NoDup (nonzero l) -> (forall b, b ∈ nonzero l -> b ∈ X /\ 0 < b < nblocks s) ->
  (j + n = length l)%nat ->
  freed s X s1 X1 (dead (direct_cut k) (take j l)) ->
  (exists dirty, sx_vn s1 = <[p := mkSv (sv_v sv) (set_direct (partly (direct_cut k) j l) (sv_i sv)) (sv_ino sv) dirty]>
                              (sx_vn s) /\
     (dirty = sv_dirty sv \/ dirty = true)) ->
  wpr (truncate_direct n p (Z.of_nat j) k) s1 (fun _ s' => exists X' dirty,
    freed s X s' X' (dead (direct_cut k) l) /\
    sx_vn s' = <[p := mkSv (sv_v sv) (set_direct (cut (direct_cut k) l) (sv_i sv)) (sv_ino sv) dirty]> (sx_vn s) /\
    (dirty = sv_dirty sv \/ dirty = true)).
Proof.
  intros l Hok Hn Hb. revert j s1 X1. induction n as [|n IH]; intros j s1 X1 Hj Hfr (dirty & Evn & Hdirty); cbn [truncate_direct].
  - wp_steps. exists X1, dirty. replace j with (length l) in * by lia.
    rewrite firstn_all in Hfr. rewrite partly_all in Evn. done.
  - destruct (lookup_lt_is_Some_2 l j) as [b Hjb]; [lia|].
    wp_step. eapply wp_get_sv; [rewrite Evn; apply lookup_insert_eq|]. wp_step.
    cbn [sv_i sfi_direct set_direct]. rewrite (rd_nat _ _ _ (partly_lookup _ _ _ _ Hjb)). wp_step. cbn [rwp].
    pose proof (dead_step (direct_cut k) j l b Hjb) as Ed.
    change (Z.of_nat j >=? k) with (direct_cut k j). wp_step.
    destruct (direct_cut k j && negb (b =? 0)) eqn:Ec.
    + apply andb_true_iff in Ec as [Ec Eb]. apply negb_true_iff, Z.eqb_neq in Eb.
      pose proof Hfr as (Hok1 & EX & Hrest & _).
      assert (HbX : b ∈ X1) by (rewrite EX; apply still_marked; try done; intros; by apply Hb).
      destruct (Hb b) as [_ Hbr]; [apply list_elem_of_filter; split; [done | by eapply list_elem_of_lookup_2]|].
      assert (Enb : nblocks s1 = nblocks s) by (destruct Hrest as (_ & E & _); unfold nblocks; by rewrite E).
      wp_step. eapply wp_mono; [apply (sfs_bfree_wp b s1 X1 Hok1 HbX); by rewrite Enb|].
      intros _ s2 (Hok2 & Hr2 & Hf2 & Hh2 & Ev2 & Ed2).
      wp_step. rewrite wr_nat by (pose proof (lookup_lt_Some _ _ _ (partly_lookup (direct_cut k) _ _ _ Hjb)); done).
      wp_step. cbn [rwp]. eapply wp_modify_sv; [rewrite Ev2, Evn; apply lookup_insert_eq|].
      replace (Z.of_nat j + 1) with (Z.of_nat (S j)) by lia.
      apply (IH (S j) _ (X1 ∖ {[ b ]})); [lia | |].
      * rewrite Ed. by apply (freed_snoc s X s1 X1 (mkSfs _ _ _ _)).
      * exists true. split; [|by right]. simpl. rewrite Ev2, Evn, insert_insert_eq. f_equal. unfold dirty_inode. simpl.
        f_equal. unfold set_direct; simpl. f_equal. rewrite <- (partly_insert _ _ _ _ Hjb), Ec. done.
    + wp_steps. replace (Z.of_nat j + 1) with (Z.of_nat (S j)) by lia.
      apply (IH (S j) s1 X1); [lia | by rewrite Ed, app_nil_r |].
      exists dirty. split; [|done]. rewrite <- (partly_keep _ _ _ b Hjb); [done|].
      apply andb_false_iff in Ec as [?|Ez]; [by left | right]. by apply negb_false_iff, Z.eqb_eq in Ez.
Qed.

Definition indirect_cut (k : Z) (j : nat) : bool := k <? 15 + Z.of_nat j.

Definition nonempty (l : list Z) : bool := match l with [] => false | _ => true end.

Lemma nonzero_step c (j : nat) ws b :
  ws !! j = Some b ->
  nonempty (nonzero (take (S j) (cut c ws))) =
  nonempty (nonzero (take j (cut c ws))) || negb ((if c j then 0 else b) =? 0).
Proof.
  intros Hj. rewrite (take_S_r _ _ _ (cut_lookup c _ _ _ Hj)), filter_app.
  destruct (nonzero (take j (cut c ws))); [|done]. simpl.
  destruct (Z.eqb_spec (if c j then 0 else b) 0) as [->|Hne].
  - by rewrite filter_cons_False by (intros Hx; by apply Hx).
  - by rewrite filter_cons_True.
Qed.

Lemma truncate_indirect_wp (n j : nat) s X s1 X1 (k : Z) (ws : list Z) hasnonzero iddirty :
  fs_ok s X -> NoDup (nonzero ws) -> (forall b, b ∈ nonzero ws -> b ∈ X /\ 0 < b < nblocks s) ->
  (j + n = length ws)%nat ->
  freed s X s1 X1 (dead (indirect_cut k) (take j ws)) -> sx_vn s1 = sx_vn s ->
  hasnonzero = nonempty (nonzero (take j (cut (indirect_cut k) ws))) ->
  iddirty = nonempty (dead (indirect_cut k) (take j ws)) ->
  wpr (truncate_indirect n (Z.of_nat j) k (partly (indirect_cut k) j ws) hasnonzero iddirty) s1
    (fun '(ws', hasnonzero', iddirty') s' => exists X',
       freed s X s' X' (dead (indirect_cut k) ws) /\ sx_vn s' = sx_vn s /\
       ws' = cut (indirect_cut k) ws /\ hasnonzero' = nonempty (nonzero ws') /\
       iddirty' = nonempty (dead (indirect_cut k) ws)).
Proof.
  intros Hok Hn Hb. revert j s1 X1 hasnonzero iddirty.
  induction n as [|n IH]; intros j s1 X1 hasnonzero iddirty Hj Hfr Evn Ehn Eid; cbn [truncate_indirect].
  - wp_steps. exists X1. replace j with (length ws) in * by lia.
    rewrite firstn_all in Hfr, Eid. rewrite partly_all. rewrite take_ge in Ehn by (rewrite length_cut; lia). done.
  - destruct (lookup_lt_is_Some_2 ws j) as [b Hjb]; [lia|]. set (c := indirect_cut k) in *.
    wp_step. rewrite (rd_nat _ _ _ (partly_lookup c _ _ _ Hjb)). wp_step. cbn [rwp].
    pose proof (dead_step c j ws b Hjb) as Ed. pose proof (nonzero_step c j ws b Hjb) as En.
    change (k <? SFS_NDIRECT + Z.of_nat j) with (c j).
    replace (Z.of_nat j + 1) with (Z.of_nat (S j)) by lia. wp_step.
    assert (Hpl : (j < length (partly c j ws))%nat) by (eapply lookup_lt_Some; by apply partly_lookup).
    destruct (c j && negb (b =? 0)) eqn:Ec.
    + apply andb_true_iff in Ec as [Ec Eb]. apply negb_true_iff, Z.eqb_neq in Eb.
      pose proof Hfr as (Hok1 & EX & Hrest & _).
      assert (HbX : b ∈ X1) by (rewrite EX; apply still_marked; try done; intros; by apply Hb).
      destruct (Hb b) as [_ Hbr]; [apply list_elem_of_filter; split; [done | by eapply list_elem_of_lookup_2]|].
      assert (Enb : nblocks s1 = nblocks s) by (destruct Hrest as (_ & E & _); unfold nblocks; by rewrite E).
      wp_step. eapply wp_mono; [apply (sfs_bfree_wp b s1 X1 Hok1 HbX); by rewrite Enb|].
      intros _ s2 (Hok2 & Hr2 & Hf2 & Hh2 & Ev2 & Ed2).
      wp_step. rewrite wr_nat by done. wp_step. cbn [rwp]. wp_step. wp_step.
      assert (Ep : <[j := 0]> (partly c j ws) = partly c (S j) ws) by (rewrite <- (partly_insert c j ws b Hjb), Ec; done).
      rewrite (rd_nat _ _ 0) by (by apply list_lookup_insert_eq). wp_step. cbn [rwp]. rewrite Ep.
      apply (IH (S j) s2 (X1 ∖ {[ b ]})); [lia | | congruence | | ].
      * rewrite Ed. by apply (freed_snoc s X s1 X1).
      * rewrite En, Ec, Ehn. done.
      * rewrite Ed. by destruct (dead c (take j ws)).
    + wp_step. wp_step. rewrite (rd_nat _ _ _ (partly_lookup c _ _ _ Hjb)). wp_step. cbn [rwp].
      assert (Hc : c j = false \/ b = 0).
      { apply andb_false_iff in Ec as [?|Ez]; [by left | right]. by apply negb_false_iff, Z.eqb_eq in Ez. }
      rewrite (partly_keep c j ws b Hjb Hc).
      apply (IH (S j) s1 X1); [lia | by rewrite Ed, app_nil_r | done | | by rewrite Ed, app_nil_r].
      rewrite En, Ehn. by destruct (c j); [destruct Hc as [?| ->]|].
Qed.

(** ** The file that is left *)

Lemma file_blocks_split d i :
  file_blocks d i = nonzero (sfi_direct i) ++ nonzero [sfi_indirect i] ++ nonzero (id_words d i).
Proof.
  unfold file_blocks, refs. change (sfi_indirect i :: id_words d i) with ([sfi_indirect i] ++ id_words d i).
  by rewrite !filter_app.
Qed.

Lemma trim_file_ok s X i s' X' i' (fr : list Z) :
  file_ok s X i -> X' = X ∖ list_to_set fr -> nblocks s' = nblocks s -> length (sfi_direct i') = 15%nat ->
  file_blocks (sx_dev s) i ≡ₚ file_blocks (sx_dev s') i' ++ fr -> file_ok s' X' i'.
Proof.
  intros (_ & Hn & Hb) -> Enb Hl Hp. rewrite Hp in Hn. apply NoDup_app in Hn as (Hn & Hd & _).
  split_and!; [done | done |]. rewrite Enb. intros b Hin.
  destruct (Hb b) as [? ?]; [rewrite Hp; apply elem_of_app; by left|]. split; [|done].
  apply elem_of_difference. split; [done|]. rewrite elem_of_list_to_set. by apply Hd.
Qed.

(** [L] are the block numbers of the file afterwards. *)
Record trimmed s X (p : Z) sv s' X' sv' (L : list Z) : Prop := {
  trim_ok : fs_ok s' X';
  trim_file : file_ok s' X' (sv_i sv');
  trim_rest : fs_rest (sx_fs s) (sx_fs s');
  trim_heap : sx_heap s' = sx_heap s;
  trim_vn : sx_vn s' = <[p := sv']> (sx_vn s);
  trim_v : sv_v sv' = sv_v sv /\ sv_ino sv' = sv_ino sv;
  trim_meta : sfi_type (sv_i sv') = sfi_type (sv_i sv) /\ sfi_linkcount (sv_i sv') = sfi_linkcount (sv_i sv);
  trim_blocks : fblocks (sx_dev s') (sv_i sv') = L;
  trim_freed : exists fr, X' = X ∖ list_to_set fr /\
    file_blocks (sx_dev s) (sv_i sv) ≡ₚ file_blocks (sx_dev s') (sv_i sv') ++ fr;
  trim_dev : d_blocks (sx_dev s') = d_blocks (sx_dev s);
  trim_frame : forall c, 0 <= c < d_blocks (sx_dev s) -> c <> sfi_indirect (sv_i sv) ->
                 sector (sx_dev s') c = sector (sx_dev s) c;
}.

Lemma dead_nil_cut c l : dead c l = [] -> cut c l = l.
Proof.
  revert c. induction l as [|b l IH]; intros c Hd; [done|]. unfold cut, dead in *. rewrite !imap_cons in *.
  specialize (IH (c ∘ S)). unfold compose in *. destruct (c 0%nat).
  - destruct (decide (b <> 0)) as [Hb|Hb]; [by rewrite filter_cons_True in Hd|].
    rewrite filter_cons_False in Hd by done. rewrite IH by done. f_equal. lia.
  - rewrite filter_cons_False in Hd by (intros Hx; by apply Hx). by rewrite IH.
Qed.

Lemma cut_none c l : (forall j, (j < length l)%nat -> c j = false) -> cut c l = l.
Proof.
  intros Hc. apply list_eq. intros j. unfold cut. rewrite list_lookup_imap.
  destruct (l !! j) as [b|] eqn:E; [|done]. simpl. by rewrite Hc by (by eapply lookup_lt_Some).
Qed.

Lemma nonzero_nil (l : list Z) : nonzero l = [] -> l = replicate (length l) 0.
Proof.
  induction l as [|b l IH]; [done|]. destruct (decide (b <> 0)); [by rewrite filter_cons_True|].
  rewrite filter_cons_False by done. intros E. simpl. rewrite <- IH by done. f_equal. lia.
Qed.

Lemma nonzero_zeros n : nonzero (replicate n 0) = [].
Proof. induction n; [done|]. simpl. by rewrite filter_cons_False by (intros Hx; by apply Hx). Qed.

Lemma cut_zeros c n : cut c (replicate n 0) = replicate n 0.
Proof.
  apply list_eq. intros j. unfold cut. rewrite list_lookup_imap.
  destruct (decide (j < n)%nat).
  - rewrite lookup_replicate_2 by done. simpl. by destruct (c j).
  - by rewrite (lookup_ge_None_2 (replicate n 0) j) by (rewrite length_replicate; lia).
Qed.

(** The block numbers after the first stage and after both. *)
Definition cut_direct (k : Z) d i : list Z := cut (direct_cut k) (sfi_direct i) ++ id_words d i.
Definition cut_all (k : Z) d i : list Z :=
  cut (direct_cut k) (sfi_direct i) ++ cut (indirect_cut k) (id_words d i).

(** Put together a trimmed file from what was freed and what was written. *)
Lemma trimmed_intro s X p sv s' X' sv' (fr : list Z) :
  file_ok s X (sv_i sv) -> fs_ok s' X' -> fs_rest (sx_fs s) (sx_fs s') -> sx_heap s' = sx_heap s ->
  sx_vn s' = <[p := sv']> (sx_vn s) -> sv_v sv' = sv_v sv -> sv_ino sv' = sv_ino sv ->
  sfi_type (sv_i sv') = sfi_type (sv_i sv) -> sfi_linkcount (sv_i sv') = sfi_linkcount (sv_i sv) ->
  length (sfi_direct (sv_i sv')) = 15%nat ->
  X' = X ∖ list_to_set fr -> file_blocks (sx_dev s) (sv_i sv) ≡ₚ file_blocks (sx_dev s') (sv_i sv') ++ fr ->
  d_blocks (sx_dev s') = d_blocks (sx_dev s) ->
  (forall c, 0 <= c < d_blocks (sx_dev s) -> c <> sfi_indirect (sv_i sv) ->
     sector (sx_dev s') c = sector (sx_dev s) c) ->
  trimmed s X p sv s' X' sv' (fblocks (sx_dev s') (sv_i sv')).
Proof.
  intros Hf Hok Hr Hh Hvn Hv Hino Ht Hk Hl HX Hp Hdb Hfr. split; try done.
  - apply (trim_file_ok s X (sv_i sv) s' X' (sv_i sv') fr); try done.
    destruct Hr as (_ & E & _). unfold nblocks. by rewrite E.
  - by exists fr.
Qed.

Lemma freed_trans s X s1 X1 s2 X2 (b1 b2 : list Z) :
  freed s X s1 X1 b1 -> freed s1 X1 s2 X2 b2 -> freed s X s2 X2 (b1 ++ b2).
Proof.
  intros (_ & -> & Hr & Hh & Hd & Hf) (Hok & -> & Hr2 & Hh2 & Hd2 & Hf2). split_and!; try congruence.
  - by rewrite list_to_set_app_L, difference_difference_l_L.
  - by eapply fs_rest_trans.
  - intros Hor. apply Hf2. destruct (decide (b2 = [])) as [->|]; [left | by right].
    apply Hf. rewrite app_nil_r in Hor. done.
Qed.

(** What the second stage may still free. *)
Lemma rest_marked s X i s1 X1 (k : Z) :
  file_ok s X i -> freed s X s1 X1 (dead (direct_cut k) (sfi_direct i)) ->
  forall b, b ∈ nonzero [sfi_indirect i] ++ nonzero (id_words (sx_dev s) i) -> b ∈ X1 /\ 0 < b < nblocks s1.
Proof.
  intros (_ & Hn & Hb) (_ & -> & (_ & E & _) & _) b Hin. rewrite file_blocks_split in Hn, Hb.
  apply NoDup_app in Hn as (_ & Hd & _).
  destruct (Hb b) as [HbX Hbr]; [apply elem_of_app; by right|]. split.
  - apply elem_of_difference. split; [done|]. rewrite elem_of_list_to_set. intros Hdead.
    apply (Hd b); [|done]. rewrite (cut_dead (direct_cut k)). apply elem_of_app. by right.
  - unfold nblocks in *. by rewrite E.
Qed.

(** The vnode after the direct blocks. *)
Definition direct_done (k : Z) sv (dirty : bool) : sfs_vnode :=
  mkSv (sv_v sv) (set_direct (cut (direct_cut k) (sfi_direct (sv_i sv))) (sv_i sv)) (sv_ino sv) dirty.

(** Only direct blocks went. *)
Lemma trimmed_direct s X p sv s1 X1 d' (k : Z) dirty :
  fs_ok s X -> file_ok s X (sv_i sv) -> freed s X s1 X1 (dead (direct_cut k) (sfi_direct (sv_i sv))) ->
  sx_vn s1 = <[p := direct_done k sv dirty]> (sx_vn s) -> same_disk (sx_dev s) d' ->
  trimmed s X p sv (mkSfs (sx_heap s1) d' (sx_fs s1) (sx_vn s1)) X1 (direct_done k sv dirty)
    (cut_direct k (sx_dev s) (sv_i sv)).
Proof.
  intros Hok Hf (Hok1 & EX & Hr & Hh & Hd & _) Evn Hs. pose proof Hf as (Hl & Hn & Hb). pose proof Hs as (Hd' & Hbl & Hsec).
  pose proof Hok as (_ & _ & Hnb & _).
  assert (Ew : id_words d' (sv_i (direct_done k sv dirty)) = id_words (sx_dev s) (sv_i sv)).
  { unfold id_words. cbn [direct_done sv_i set_direct sfi_indirect].
    destruct (Z.eqb_spec (sfi_indirect (sv_i sv)) 0) as [|Hi]; [reflexivity|].
    rewrite Hsec; [reflexivity|]. destruct (Hb _ (indirect_in_file (sx_dev s) _ Hi)). unfold nblocks in *. lia. }
  assert (Ef : fblocks d' (sv_i (direct_done k sv dirty)) = cut_direct k (sx_dev s) (sv_i sv))
    by (unfold fblocks; by rewrite Ew).
  rewrite <- Ef.
  apply (trimmed_intro s X p sv (mkSfs (sx_heap s1) d' (sx_fs s1) (sx_vn s1)) X1 (direct_done k sv dirty)
           (dead (direct_cut k) (sfi_direct (sv_i sv)))); try assumption; try reflexivity.
  - apply (fs_ok_same_dev s1 X1 d' Hok1). by rewrite Hd.
  - cbn [direct_done sv_i set_direct sfi_direct]. rewrite length_cut. exact Hl.
  - cbn [sx_dev]. rewrite !file_blocks_split, Ew. cbn [direct_done sv_i set_direct sfi_direct sfi_indirect].
    rewrite (cut_dead (direct_cut k) (sfi_direct (sv_i sv))) at 1. rewrite <- !app_assoc.
    apply Permutation_app_head. rewrite (app_assoc (nonzero [_])). apply Permutation_app_comm.
  - intros c Hc _. by apply Hsec.
Qed.

Lemma cut_words c l : Forall word_ok l -> Forall word_ok (cut c l).
Proof.
  intros Hl. apply Forall_lookup. intros j b Hj. unfold cut in Hj. rewrite list_lookup_imap in Hj.
  destruct (l !! j) as [b'|] eqn:E; [|done]. simpl in Hj. injection Hj as <-.
  destruct (c j); [done | by eapply Forall_lookup_1].
Qed.

Lemma perm_shuffle (a b c d e : list Z) : (a ++ b) ++ c ++ d ++ e ≡ₚ (a ++ c ++ d) ++ b ++ e.
Proof.
  rewrite <- !app_assoc. apply Permutation_app_head. rewrite !app_assoc. apply Permutation_app_tail.
  rewrite <- app_assoc. apply Permutation_app_comm.
Qed.

Lemma freed_dev s X s1 X1 bs d' : freed s X s1 X1 bs -> same_disk (sx_dev s) d' ->
  freed (mkSfs (sx_heap s) d' (sx_fs s) (sx_vn s)) X (mkSfs (sx_heap s1) d' (sx_fs s1) (sx_vn s1)) X1 bs.
Proof.
  intros (Hok & EX & Hr & Hh & Hd & Hf) Hs. split_and!; try done. apply fs_ok_same_dev; [done|]. by rewrite Hd.
Qed.

(** The last part: the indirect block goes, or is written back. *)
Lemma truncate_idblock_end s X p sv s1 X1 (k : Z) dirty d1 s3 X3 :
  let ws := id_words (sx_dev s) (sv_i sv) in
  let s2 := mkSfs (sx_heap s1) d1 (sx_fs s1) (sx_vn s1) in
  fs_ok s X -> file_ok s X (sv_i sv) -> freed s X s1 X1 (dead (direct_cut k) (sfi_direct (sv_i sv))) ->
  sx_vn s1 = <[p := direct_done k sv dirty]> (sx_vn s) -> same_disk (sx_dev s) d1 ->
  sfi_indirect (sv_i sv) <> 0 -> Forall word_ok (cut (indirect_cut k) ws) ->
  freed s2 X1 s3 X3 (dead (indirect_cut k) ws) -> sx_vn s3 = sx_vn s2 ->
  wpr (if negb (nonempty (nonzero (cut (indirect_cut k) ws))) then
        let* _ := sfs_bfree (sfi_indirect (sv_i sv)) in
        let* _ := modify_sv p (dirty_inode (set_indirect 0)) in
        ret 0
      else if nonempty (dead (indirect_cut k) ws) then
        on_dev (sfs_wblock (words_bytes (cut (indirect_cut k) ws)) (sfi_indirect (sv_i sv)))
      else ret 0) s3 (fun r s' => exists X' sv' L,
    trimmed s X p sv s' X' sv' L /\ sfi_size (sv_i sv') = sfi_size (sv_i sv) /\
    ((r = 0 /\ L = cut_all k (sx_dev s) (sv_i sv)) \/ (r = EIO /\ L = cut_direct k (sx_dev s) (sv_i sv)))).
Proof.
  intros ws s2 Hok Hf Hfr Evn Hs Hi Hw Hfr3 Evn3. pose proof Hf as (Hl & Hn & Hb).
  pose proof Hok as (_ & _ & Hnb & _). pose proof Hs as (Hd1 & Hbl1 & Hsec1).
  destruct (Hb _ (indirect_in_file (sx_dev s) _ Hi)) as [HiX Hir].
  pose proof Hfr as (_ & EX1 & Hr1 & Hh1 & Ed1 & _).
  pose proof Hfr3 as (Hok3 & EX3 & Hr3 & Hh3 & Ed3 & _). cbn [s2 sx_dev sx_fs sx_heap sx_vn] in *.
  assert (EX : X3 = X ∖ list_to_set (dead (direct_cut k) (sfi_direct (sv_i sv)) ++ dead (indirect_cut k) ws))
    by (rewrite EX3, EX1; by rewrite list_to_set_app_L, difference_difference_l_L).
  assert (Hp : file_blocks (sx_dev s) (sv_i sv) ≡ₚ
     (nonzero (cut (direct_cut k) (sfi_direct (sv_i sv))) ++ nonzero [sfi_indirect (sv_i sv)] ++
      nonzero (cut (indirect_cut k) ws)) ++ dead (direct_cut k) (sfi_direct (sv_i sv)) ++ dead (indirect_cut k) ws).
  { rewrite file_blocks_split. fold ws. rewrite (cut_dead (direct_cut k) (sfi_direct _)) at 1.
    rewrite (cut_dead (indirect_cut k) ws) at 1. apply perm_shuffle. }
  assert (Hrest : fs_rest (sx_fs s) (sx_fs s3)) by (by eapply fs_rest_trans).
  assert (Enb : nblocks s3 = nblocks s) by (destruct Hrest as (_ & E & _); unfold nblocks; by rewrite E).
  rewrite Hp in Hn. apply NoDup_app in Hn as (_ & Hdisj & _).
  assert (HiX3 : sfi_indirect (sv_i sv) ∈ X3).
  { rewrite EX. apply elem_of_difference. split; [done|]. rewrite elem_of_list_to_set. apply Hdisj.
    apply elem_of_app. right. apply elem_of_app. left. apply list_elem_of_filter. split; [done | by left]. }
  assert (Evn3' : sx_vn s3 !! p = Some (direct_done k sv dirty)) by (rewrite Evn3, Evn; apply lookup_insert_eq).
  destruct (nonzero (cut (indirect_cut k) ws)) as [|b0 nz] eqn:Enz; cbn [nonempty negb].
  - wp_step. eapply wp_mono; [apply (sfs_bfree_wp _ s3 X3 Hok3 HiX3); by rewrite Enb|].
    intros _ s4 (Hok4 & Hr4 & _ & Hh4 & Ev4 & Ed4). wp_step. eapply wp_modify_sv; [by rewrite Ev4|]. wp_steps.
    set (sv' := dirty_inode (set_indirect 0) (direct_done k sv dirty)).
    exists (X3 ∖ {[sfi_indirect (sv_i sv)]}), sv', (fblocks (sx_dev s4) (sv_i sv')).
    split_and!; [|reflexivity|left; split; [reflexivity|]].
    + apply (trimmed_intro s X p sv (mkSfs (sx_heap s4) (sx_dev s4) (sx_fs s4) (<[p := sv']> (sx_vn s4)))
        _ sv' ((dead (direct_cut k) (sfi_direct (sv_i sv)) ++ dead (indirect_cut k) ws) ++ [sfi_indirect (sv_i sv)]));
        try assumption; try reflexivity; cbn [sx_heap sx_dev sx_fs sx_vn].
      * by eapply fs_rest_trans.
      * congruence.
      * by rewrite Ev4, Evn3, Evn, insert_insert_eq.
      * cbn [sv' dirty_inode direct_done sv_i set_indirect set_direct sfi_direct]. rewrite length_cut. exact Hl.
      * rewrite EX, (list_to_set_app_L _ [_]). cbn [list_to_set]. rewrite union_empty_r_L, difference_difference_l_L.
        reflexivity.
      * rewrite Hp, file_blocks_split. unfold id_words. cbn [sv' dirty_inode direct_done sv_i set_indirect set_direct sfi_direct sfi_indirect Z.eqb].
        rewrite (nonzero_zeros 1 : nonzero [0] = []), nonzero_zeros, !app_nil_r. rewrite (filter_cons_True _ (sfi_indirect _)) by done.
        rewrite filter_nil, <- !app_assoc. apply Permutation_app_head. rewrite (app_assoc _ _ [_]).
        apply Permutation_app_comm.
      * rewrite Ed4, Ed3. exact Hbl1.
      * intros c Hc _. rewrite Ed4, Ed3. by apply Hsec1.
    + unfold fblocks, cut_all. fold ws. change (id_words (sx_dev s4) (sv_i sv')) with (replicate (Z.to_nat SFS_DBPERIDB) 0).
      apply nonzero_nil in Enz. rewrite Enz, length_cut. unfold ws. by rewrite length_id_words.
  - assert (Hw' : forall d', (if sfi_indirect (sv_i sv) =? 0 then replicate (Z.to_nat SFS_DBPERIDB) 0
        else bytes_words (Z.to_nat SFS_DBPERIDB) (sector d' (sfi_indirect (sv_i sv)))) = cut (indirect_cut k) ws ->
        file_blocks (sx_dev s) (sv_i sv) ≡ₚ file_blocks d' (sv_i (direct_done k sv dirty)) ++
          dead (direct_cut k) (sfi_direct (sv_i sv)) ++ dead (indirect_cut k) ws /\
        fblocks d' (sv_i (direct_done k sv dirty)) = cut_all k (sx_dev s) (sv_i sv)).
    { intros d' E. split; [|unfold fblocks, id_words; cbn [direct_done sv_i set_direct sfi_direct sfi_indirect]; by rewrite E].
      rewrite Hp, file_blocks_split. unfold id_words at 1. cbn [direct_done sv_i set_direct sfi_direct sfi_indirect].
      by rewrite E, Enz. }
    destruct (dead (indirect_cut k) ws) as [|b1 dd] eqn:Ede; cbn [nonempty].
    + wp_steps. destruct (Hw' d1) as [Hp' Ef].
      { rewrite dead_nil_cut by done. unfold ws, id_words. destruct (Z.eqb_spec (sfi_indirect (sv_i sv)) 0); [done|].
        by rewrite Hsec1 by (unfold nblocks in *; lia). }
      exists X3, (direct_done k sv dirty), (cut_all k (sx_dev s) (sv_i sv)).
      split_and!; [|reflexivity | by left]. rewrite <- Ef, <- Ed3.
      eapply (trimmed_intro s X p sv s3 X3 (direct_done k sv dirty)); try eassumption; try reflexivity.
      * congruence.
      * congruence.
      * cbn [direct_done sv_i set_direct sfi_direct]. rewrite length_cut. exact Hl.
      * by rewrite Ed3.
      * by rewrite Ed3.
      * intros c Hc _. rewrite Ed3. by apply Hsec1.
    + destruct (words_sector (cut (indirect_cut k) ws)) as [Hws Hwr];
        [rewrite length_cut; apply length_id_words | done |].
      apply wp_on_dev. eapply wp_mono; [apply sfs_wblock_wp; [apply Hok3 | done | rewrite Ed3, Hbl1; unfold nblocks in *; lia]|].
      intros r d' [-> Hset]. pose proof Hset as (Hd' & Hbl' & Hsec'). rewrite Ed3 in Hbl', Hsec'.
      destruct (Hw' d') as [Hp' Ef].
      { destruct (Z.eqb_spec (sfi_indirect (sv_i sv)) 0); [done|].
        rewrite Hsec' by (rewrite Hbl1; unfold nblocks in *; lia). by rewrite decide_True. }
      exists X3, (direct_done k sv dirty), (cut_all k (sx_dev s) (sv_i sv)).
      split_and!; [|reflexivity | by left]. rewrite <- Ef.
      eapply (trimmed_intro s X p sv (mkSfs (sx_heap s3) d' (sx_fs s3) (sx_vn s3)) X3 (direct_done k sv dirty));
        try eassumption; try reflexivity; cbn [sx_heap sx_dev sx_fs sx_vn].
      * by eapply fs_ok_set_dev.
      * congruence.
      * congruence.
      * cbn [direct_done sv_i set_direct sfi_direct]. rewrite length_cut. exact Hl.
      * congruence.
      * intros c Hc Hne. rewrite Hsec' by (by rewrite Hbl1). rewrite decide_False by done. by apply Hsec1.
Qed.

Lemma truncate_idblock_wp s X p sv s1 X1 (k : Z) dirty :
  fs_ok s X -> file_ok s X (sv_i sv) -> freed s X s1 X1 (dead (direct_cut k) (sfi_direct (sv_i sv))) ->
  sx_vn s1 = <[p := direct_done k sv dirty]> (sx_vn s) ->
  wpr (truncate_idblock p k) s1 (fun r s' => exists X' sv' L,
    trimmed s X p sv s' X' sv' L /\ sfi_size (sv_i sv') = sfi_size (sv_i sv) /\
    ((r = 0 /\ L = cut_all k (sx_dev s) (sv_i sv)) \/ (r = EIO /\ L = cut_direct k (sx_dev s) (sv_i sv)))).
Proof.
  intros Hok Hf Hfr Evn. pose proof Hfr as (Hok1 & EX & Hr & Hh & Hd & _).
  pose proof Hok as (Hdev & _ & Hnb & _). pose proof Hf as (Hl & Hn & Hb).
  unfold truncate_idblock. wp_step. eapply wp_get_sv; [rewrite Evn; apply lookup_insert_eq|].
  cbn [direct_done sv_i set_direct sfi_indirect]. change (SFS_NDIRECT + SFS_DBPERIDB - 1) with 142.
  destruct (Z.eqb_spec (sfi_indirect (sv_i sv)) 0) as [Hi0|Hi].
  { rewrite andb_false_r. wp_steps.
    pose proof (trimmed_direct s X p sv s1 X1 (sx_dev s) k dirty Hok Hf Hfr Evn (same_disk_refl _ Hdev)) as T.
    rewrite <- Hd, same_state in T. exists X1, (direct_done k sv dirty), (cut_direct k (sx_dev s1) (sv_i sv)).
    split_and!; [done | done |]. left. split; [done|]. unfold cut_direct, cut_all. f_equal. rewrite Hd.
    unfold id_words. rewrite Hi0. cbn [Z.eqb]. by rewrite cut_zeros. }
  destruct (Z.ltb_spec k 142) as [Hk|Hk]; cbn [andb negb].
  2: { wp_steps.
    pose proof (trimmed_direct s X p sv s1 X1 (sx_dev s) k dirty Hok Hf Hfr Evn (same_disk_refl _ Hdev)) as T.
    rewrite <- Hd, same_state in T. exists X1, (direct_done k sv dirty), (cut_direct k (sx_dev s1) (sv_i sv)).
    split_and!; [done | done |]. left. split; [done|]. unfold cut_direct, cut_all. f_equal. rewrite Hd.
    symmetry. apply cut_none. intros j Hj. rewrite length_id_words in Hj. unfold indirect_cut, SFS_DBPERIDB in *. lia. }
  destruct (Hb _ (indirect_in_file (sx_dev s) _ Hi)) as [HiX Hir].
  wp_step. apply wp_on_dev.
  eapply wp_mono; [apply sfs_rblock_wp; [apply Hok1 | apply zero_block_wf | rewrite Hd; unfold nblocks in *; lia]|].
  rewrite Hd. intros [r bs] d1 [Hs1 Hor].
  pose proof (trimmed_direct s X p sv s1 X1 d1 k dirty Hok Hf Hfr Evn Hs1) as T.
  destruct Hor as [[-> ->]|[-> ->]]; cbn [negb Z.eqb EIO].
  2: { wp_steps. eexists X1, _, _. split_and!; [exact T | reflexivity | by right]. }
  clear T. set (ws := id_words (sx_dev s) (sv_i sv)).
  assert (Ews : bytes_words (Z.to_nat SFS_DBPERIDB) (sector (sx_dev s) (sfi_indirect (sv_i sv))) = ws).
  { unfold ws, id_words. by destruct (Z.eqb_spec (sfi_indirect (sv_i sv)) 0). }
  rewrite Ews. set (s2 := mkSfs (sx_heap s1) d1 (sx_fs s1) (sx_vn s1)).
  pose proof (rest_marked s X (sv_i sv) s1 X1 k Hf Hfr) as Hrest.
  assert (Hok2 : fs_ok s2 X1) by (apply fs_ok_same_dev; [done | by rewrite Hd]).
  rewrite file_blocks_split in Hn. apply NoDup_app in Hn as (Hnd & _ & Hnw). apply NoDup_app in Hnw as (_ & Hiw & Hnw).
  wp_step. rewrite <- (partly_0 (indirect_cut k) ws). change 0 with (Z.of_nat 0) at 1.
  eapply wp_mono; [apply (truncate_indirect_wp (Z.to_nat SFS_DBPERIDB) 0 s2 X1 s2 X1 k ws false false Hok2 Hnw);
    [| |by apply freed_nil | done..]|].
  { intros b Hin. apply Hrest, elem_of_app. by right. }
  { unfold ws. by rewrite length_id_words. }
  intros [[ws' hasnz] iddirty] s3 (X3 & Hfr3 & Evn3 & -> & -> & ->).
  assert (Hw3 : Forall word_ok (cut (indirect_cut k) ws)) by (by apply cut_words, id_words_ok with X).
  apply (truncate_idblock_end s X p sv s1 X1 k dirty d1 s3 X3); try done.
Qed.

(** ** The whole *)

(** The file blocks that stay when the file is cut to [k] blocks. *)
Definition kept (k : Z) (j : nat) : bool := (Z.of_nat j <? k) || ((15 <=? Z.of_nat j) && (Z.of_nat j =? k)).

Lemma cut_all_lookup k d i (j : nat) b :
  length (sfi_direct i) = 15%nat -> fblocks d i !! j = Some b ->
  cut_all k d i !! j = Some (if kept k j then b else 0).
Proof.
  intros Hl Hj. unfold fblocks, cut_all in *. destruct (decide (j < 15)%nat) as [Hlt|Hge].
  - rewrite lookup_app_l in * by (rewrite ?length_cut; lia). rewrite (cut_lookup _ _ _ _ Hj). f_equal.
    unfold direct_cut, kept. destruct (Z.geb_spec (Z.of_nat j) k), (Z.ltb_spec (Z.of_nat j) k), (Z.leb_spec 15 (Z.of_nat j));
      simpl; lia || done.
  - rewrite lookup_app_r in * by (rewrite ?length_cut; lia). rewrite ?length_cut, Hl in *.
    rewrite (cut_lookup _ _ _ _ Hj). f_equal. unfold indirect_cut, kept.
    replace (15 + Z.of_nat (j - 15)) with (Z.of_nat j) by lia.
    destruct (Z.ltb_spec k (Z.of_nat j)), (Z.ltb_spec (Z.of_nat j) k), (Z.leb_spec 15 (Z.of_nat j)),
      (Z.eqb_spec (Z.of_nat j) k); simpl; lia || done.
Qed.

(** The data of a block that stays. *)
Lemma trimmed_data s X p sv s' X' sv' L (j : nat) b :
  fs_ok s X -> file_ok s X (sv_i sv) -> trimmed s X p sv s' X' sv' L ->
  fblocks (sx_dev s) (sv_i sv) !! j = Some b -> L !! j = Some b ->
  fdata (sx_dev s') (sv_i sv') !! j = fdata (sx_dev s) (sv_i sv) !! j.
Proof.
  intros (_ & _ & Hnb & _) (Hl & Hn & Hb) T Hj HL. unfold fdata. rewrite !list_lookup_fmap, Hj.
  rewrite (trim_blocks _ _ _ _ _ _ _ _ T), HL. simpl. f_equal. unfold block_data.
  destruct (Z.eqb_spec b 0); [done|]. destruct (Hb b) as [? ?]; [by eapply block_in_file|].
  apply (trim_frame _ _ _ _ _ _ _ _ T); [unfold nblocks in *; lia | by eapply indirect_distinct].
Qed.

Lemma join_take (ls : list (list Z)) (n k : nat) :
  Forall (fun l => length l = n) ls -> take (n * k) (mjoin ls) = mjoin (take k ls).
Proof.
  intros Hls. revert k. induction Hls as [|l ls Hl _ IH]; intros k.
  { rewrite take_nil. cbn. apply take_nil. }
  destruct k as [|k]; [by rewrite Nat.mul_0_r|].
  change (mjoin (l :: ls)) with (l ++ mjoin ls). change (mjoin (take (S k) (l :: ls))) with (l ++ mjoin (take k ls)).
  rewrite take_app_ge by lia. rewrite Hl. replace (n * S k - n)%nat with (n * k)%nat by lia. by rewrite IH.
Qed.

Lemma trimmed_content s X p sv s' X' sv' (k : nat) :
  fs_ok s X -> file_ok s X (sv_i sv) -> (k <= 143)%nat ->
  trimmed s X p sv s' X' sv' (cut_all (Z.of_nat k) (sx_dev s) (sv_i sv)) ->
  take (512 * k) (content (sx_dev s') (sv_i sv')) = take (512 * k) (content (sx_dev s) (sv_i sv)).
Proof.
  intros Hok Hf Hk T. pose proof Hf as (Hl & _). unfold content.
  rewrite !join_take by (eapply fdata_len; done || apply T). f_equal.
  apply list_eq. intros j. destruct (decide (j < k)%nat) as [Hj|Hj].
  2: { rewrite !lookup_take_ge by lia. done. }
  rewrite !lookup_take_lt by done.
  destruct (lookup_lt_is_Some_2 (fblocks (sx_dev s) (sv_i sv)) j) as [b Hjb].
  { rewrite length_fblocks by done. unfold MAXFBLOCKS, SFS_NDIRECT, SFS_DBPERIDB. lia. }
  eapply (trimmed_data s X p sv s' X' sv' _ j b Hok Hf T Hjb).
  rewrite (cut_all_lookup _ _ _ _ _ Hl Hjb). unfold kept.
  destruct (Z.ltb_spec (Z.of_nat j) (Z.of_nat k)); [done | lia].
Qed.

(** Another file. *)
Lemma trimmed_other s X p sv s' X' sv' L i :
  fs_ok s X -> trimmed s X p sv s' X' sv' L -> file_ok s X i ->
  (forall b, b ∈ file_blocks (sx_dev s) i -> b ∉ file_blocks (sx_dev s) (sv_i sv)) ->
  file_ok s' X' i /\ content (sx_dev s') i = content (sx_dev s) i.
Proof.
  intros (_ & _ & Hnb & _) T (Hl & Hn & Hb) Hdisj.
  destruct (trim_freed _ _ _ _ _ _ _ _ T) as (fr & -> & Hp).
  assert (Enb : nblocks s' = nblocks s) by (destruct (trim_rest _ _ _ _ _ _ _ _ T) as (_ & E & _); unfold nblocks; by rewrite E).
  assert (Hsec : forall b, b ∈ file_blocks (sx_dev s) i -> sector (sx_dev s') b = sector (sx_dev s) b).
  { intros b Hin. destruct (Hb b Hin) as [? ?]. apply (trim_frame _ _ _ _ _ _ _ _ T); [unfold nblocks in *; lia|].
    intros ->. apply (Hdisj _ Hin), indirect_in_file. lia. }
  assert (Ew : id_words (sx_dev s') i = id_words (sx_dev s) i).
  { unfold id_words. destruct (Z.eqb_spec (sfi_indirect i) 0); [done|]. by rewrite Hsec by (by apply indirect_in_file). }
  assert (Ef : file_blocks (sx_dev s') i = file_blocks (sx_dev s) i) by (unfold file_blocks, refs; by rewrite Ew).
  split.
  - split_and!; [done | by rewrite Ef |]. rewrite Ef, Enb. intros b Hin. destruct (Hb b Hin) as [? ?]. split; [|done].
    apply elem_of_difference. split; [done|]. rewrite elem_of_list_to_set. intros Hfr.
    apply (Hdisj _ Hin). rewrite Hp. apply elem_of_app. by right.
  - unfold content, fdata. assert (Efb : fblocks (sx_dev s') i = fblocks (sx_dev s) i) by (unfold fblocks; by rewrite Ew).
    rewrite Efb. f_equal. apply list_fmap_ext. intros j c Hj. unfold block_data.
    destruct (Z.eqb_spec c 0); [done|]. apply Hsec. by eapply block_in_file.
Qed.

(** The length in blocks, rounded up. *)
Definition blocks_of (len : Z) : Z := (len + 511) / 512.

Lemma blocklen_of len :
  0 <= len <= MAXFILE ->
  u32 (Z.quot (s32 (s32 (len + SFS_BLOCKSIZE) - 1)) SFS_BLOCKSIZE) = blocks_of len /\ 0 <= blocks_of len <= 143.
Proof.
  assert (MAXFILE = 73216) as -> by reflexivity. unfold SFS_BLOCKSIZE, blocks_of. intros Hlen.
  rewrite (s32_small (len + 512)), s32_small by lia. rewrite Z.quot_div_nonneg by lia.
  replace (len + 512 - 1) with (len + 511) by lia.
  assert (0 <= (len + 511) / 512 <= 143) by (Z.to_euclidean_division_equations; lia).
  by rewrite u32_small by lia.
Qed.

Lemma sfs_truncate_wp s X p sv len :
  fs_ok s X -> sx_vn s !! p = Some sv -> file_ok s X (sv_i sv) -> 0 <= len <= MAXFILE ->
  wpr (sfs_truncate p len) s (fun r s' => exists X' sv' L, trimmed s X p sv s' X' sv' L /\
    ((r = 0 /\ L = cut_all (blocks_of len) (sx_dev s) (sv_i sv) /\ sfi_size (sv_i sv') = len /\ sv_dirty sv' = true) \/
     (r = EIO /\ L = cut_direct (blocks_of len) (sx_dev s) (sv_i sv) /\ sfi_size (sv_i sv') = sfi_size (sv_i sv)))).
Proof.
  intros Hok Hsv Hf Hlen. pose proof Hf as (Hl & Hn & Hb). destruct (blocklen_of len Hlen) as [Ek Hk].
  unfold sfs_truncate. rewrite Ek. set (k := blocks_of len) in *. wp_step.
  rewrite file_blocks_split in Hn. apply NoDup_app in Hn as (Hnd & _ & _).
  eapply wp_mono; [apply (truncate_direct_wp (Z.to_nat SFS_NDIRECT) 0 s X p sv s X k Hok Hnd)|].
  - intros b Hin. apply Hb. rewrite file_blocks_split. apply elem_of_app. by left.
  - by rewrite Hl.
  - by apply freed_nil.
  - exists (sv_dirty sv). split; [|by left]. rewrite partly_0. rewrite insert_id; [done|]. rewrite Hsv. f_equal.
    destruct sv as [v i ino dirty]. simpl. f_equal. by destruct i.
  - intros _ s1 (X1 & dirty & Hfr & Evn & _). wp_step.
    eapply wp_mono; [by apply (truncate_idblock_wp s X p sv s1 X1 k dirty)|].
    intros r s2 (X2 & sv2 & L & T & Hz & Hor). destruct Hor as [[-> ->]|[-> ->]]; cbn [negb Z.eqb EIO].
    + pose proof (trim_vn _ _ _ _ _ _ _ _ T) as Evn2. wp_step.
      eapply wp_modify_sv; [rewrite Evn2; apply lookup_insert_eq|]. wp_steps.
      exists X2, (dirty_inode (set_size (u32 len)) sv2), (cut_all k (sx_dev s) (sv_i sv)).
      split.
      * destruct T as [T1 T2 T3 T4 T5 T6 T7 T8 T9 T10 T11]. split; try done. simpl. by rewrite T5, insert_insert_eq.
      * left. split_and!; [done | done | | done]. simpl. apply u32_small. assert (MAXFILE = 73216) by reflexivity. lia.
    + wp_steps. exists X2, sv2, (cut_direct k (sx_dev s) (sv_i sv)). split; [done|]. right. done.
Qed.
End Truncate.
