(* ===== verification/SfsWorld.v ===== *)
(** * SFS: a mounted volume

    A small formatted volume on a simulated disk, mounted by [sfs_domount] and
    opened by [sfs_getroot] and [sfs_creat], all by evaluation; the states the
    concrete instances of the file system's theorems start from. *)

From S2P Require Import Prelude.
From S2P Require Import Ram.
From S2P Require Import Kheap.
From S2P Require Import KheapProof.
From S2P Require Import Dumbvm.
From S2P Require Import Array.
From S2P Require Import Bitmap.
From S2P Require Import Bytes.
From S2P Require Import Cstring.
From S2P Require Import Copyinout.
From S2P Require Import Uio.
From S2P Require Import Blockdev.
From S2P Require Import Lhd.
From S2P Require Import Vnode.
From S2P Require Import Sfs.
From S2P Require Import SfsOps.
From S2P Require Import SfsBlock.
From S2P Require Import SfsFile.
From S2P Require Import SfsIo.
From S2P Require Import SfsDir.

(** Sixteen blocks, as mksfs leaves them: the superblock, an empty root
    directory and the free map, with the bits past the volume set. *)
Definition vol_blocks : Z := 16.
Definition vol_super : sfs_super :=
  mkSuper SFS_MAGIC vol_blocks (replicate 32 0) (replicate 118 0).
Definition vol_root : sfs_inode :=
  mkInode 0 SFS_TYPE_DIR 1 (replicate 15 0) 0 (replicate 110 0).
Definition vol_map : list Z := [7; 0] ++ replicate 510 255.
Definition vol_sectors : list (list Z) :=
  [super_bytes vol_super; inode_bytes vol_root; vol_map] ++ replicate 13 (replicate 512 0).
Definition vol_disk : lhd simcard := config_lhd (mkCard vol_sectors [] []) (replicate 512 0).

#[global] Instance kernel_space : CurSpace := 0.

(** Mounted, with the root directory loaded. *)
Definition mount_root : option (Z * sfs (kheap ram) (lhd simcard)) :=
  match sfs_domount (boot_heap, vol_disk) with
  | Ret (_, Some fs, (h, d)) =>
      match sfs_getroot (mkSfs h d fs ∅) with
      | Ret (p, s) => Some (p, s)
      | Stop _ => None
      end
  | _ => None
  end.

Definition world : Type := sfs (kheap ram) (lhd simcard).

(** And with a file [f] made in it. *)
Definition name_f : list Z := [102; 0].

Definition make_file : option (Z * Z * world) :=
  match mount_root with
  | Some (root, s) =>
      match sfs_creat root name_f false s with
      | Ret (_, f, s') => Some (root, f, s')
      | Stop _ => None
      end
  | None => None
  end.

(** ** Deciding the invariants on a state *)

Definition byteb (b : Z) : bool := (0 <=? b) && (b <? 256).

Lemma byteb_ok l : forallb byteb l = true -> Forall byte_ok l.
Proof.
  intros E. apply Forall_forall. intros b Hb. rewrite forallb_forall in E.
  specialize (E b (proj1 (list_elem_of_In _ _) Hb)). unfold byteb in E. apply andb_true_iff in E as [? ?].
  unfold byte_ok. lia.
Qed.

Definition sectorb (l : list Z) : bool := (length l =? 512)%nat && forallb byteb l.

Lemma sectorb_ok l : sectorb l = true -> sector_wf l.
Proof. unfold sectorb. intros [E1%Nat.eqb_eq E2]%andb_true_iff. split; [done | by apply byteb_ok]. Qed.

Definition cardb (l : lhd simcard) : bool :=
  (Z.of_nat (length (sc_sectors (lh_hw l))) <=? MAXBLOCKS) && forallb sectorb (sc_sectors (lh_hw l)) &&
  (lh_blocks l =? Z.of_nat (length (sc_sectors (lh_hw l)))) && (lh_blocksize l =? LHD_SECTSIZE) &&
  (lh_clear l =? 1) && (lh_done l =? 0) && sectorb (lh_buf l).

Lemma cardb_ok l : cardb l = true -> dev_ok l.
Proof.
  unfold cardb. rewrite !andb_true_iff. intros ((((((Hm & Hs) & Hb) & Hz) & Hc) & Hd) & Hbuf).
  split_and!; try (by apply Z.eqb_eq).
  - split_and!; [lia|]. apply Forall_forall. intros x Hx.
    rewrite forallb_forall in Hs. apply sectorb_ok, Hs. by apply list_elem_of_In.
  - by apply sectorb_ok.
Qed.

(** The blocks a bitmap marks. *)
Definition bits (b : bitmap) : gset Z :=
  list_to_set (filter (fun i => bit (bm_v b) i = true) (seqZ 0 (bm_nbits b))).

Definition bitmapb (b : bitmap) : bool :=
  (0 <=? bm_nbits b) && (bm_nbits b <=? MAXBITS) &&
  (Z.of_nat (length (bm_v b)) =? nwords (bm_nbits b)) && forallb byteb (bm_v b) && (bm_nbits b mod 8 =? 0).

Lemma elem_of_bits b i : i ∈ bits b <-> 0 <= i < bm_nbits b /\ bit (bm_v b) i = true.
Proof. unfold bits. rewrite elem_of_list_to_set, list_elem_of_filter, elem_of_seqZ. split; intros; split; try tauto; lia. Qed.

Lemma bitmapb_ok b : bitmapb b = true -> bitmap_rep b (bits b).
Proof.
  unfold bitmapb. rewrite !andb_true_iff. intros ((((H0 & H1) & H2) & H3) & H4). split_and!.
  - split_and!; [lia | lia | by apply Z.eqb_eq | by apply byteb_ok |].
    intros i Hi. unfold nwords in Hi. apply Z.eqb_eq in H4. exfalso. Z.to_euclidean_division_equations. lia.
  - intros i Hi. rewrite elem_of_bits. tauto.
  - intros i Hi. apply elem_of_bits in Hi. tauto.
Qed.

Definition fsb (s : world) : bool :=
  let f := sx_fs s in let n := sp_nblocks (fs_super f) in let m := fs_freemap f in
  cardb (sx_dev s) && bitmapb m && (0 <? n) && (n <=? d_blocks (sx_dev s)) && (n <=? bm_nbits m) &&
  (n mod 8 =? 0) && forallb (Z.eqb 255) (drop (Z.to_nat (n / 8)) (bm_v m)) && bit (bm_v m) 0.

Definition marked (s : world) : gset Z := bits (fs_freemap (sx_fs s)).

Lemma bit_full v k b :
  forallb (Z.eqb 255) (drop (Z.to_nat k) v) = true -> 0 <= 8 * k <= b -> b < 8 * Z.of_nat (length v) ->
  bit v b = true.
Proof.
  intros Hf Hk Hb. unfold bit. assert (Hi : 0 <= b mod 8 < 8) by (apply Z.mod_pos_bound; lia).
  assert (Hd : k <= b / 8 /\ b / 8 < Z.of_nat (length v)) by (Z.to_euclidean_division_equations; lia).
  destruct (lookup_lt_is_Some_2 v (Z.to_nat (b / 8))) as [x Hx]; [lia|].
  rewrite (list_lookup_total_correct _ _ _ Hx).
  assert (255 = x) as <-.
  { rewrite forallb_forall in Hf. apply Z.eqb_eq, Hf, list_elem_of_In, list_elem_of_lookup.
    exists (Z.to_nat (b / 8) - Z.to_nat k)%nat. rewrite lookup_drop. rewrite <- Hx. f_equal. lia. }
  change 255 with (Z.ones 8). by apply Z.ones_spec_low.
Qed.

Lemma fsb_ok s : fsb s = true -> fs_ok s (marked s).
Proof.
  unfold fsb. rewrite !andb_true_iff. intros (((((((Hd & Hb) & H0) & H1) & H2) & H8) & H3) & H4).
  pose proof (bitmapb_ok _ Hb) as Hrep. pose proof Hrep as ((_ & Hlen & _) & _).
  split_and!; [by apply cardb_ok | done | lia | lia | lia | |].
  - intros b Hr. apply elem_of_bits. split; [lia|]. unfold nwords in Hlen.
    eapply bit_full; [exact H3 | |]; Z.to_euclidean_division_equations; lia.
  - apply elem_of_bits. split; [lia | done].
Qed.

Definition fileb (s : world) (i : sfs_inode) : bool :=
  (length (sfi_direct i) =? 15)%nat && bool_decide (NoDup (file_blocks (sx_dev s) i)) &&
  forallb (fun b => (0 <? b) && (b <? nblocks s) && (b <? bm_nbits (fs_freemap (sx_fs s))) &&
                    bit (bm_v (fs_freemap (sx_fs s))) b) (file_blocks (sx_dev s) i).

Lemma fileb_ok s i : fileb s i = true -> file_ok s (marked s) i.
Proof.
  unfold fileb. rewrite !andb_true_iff. intros ((Hl & Hn) & Hb). split_and!.
  - by apply Nat.eqb_eq.
  - by apply bool_decide_eq_true in Hn.
  - intros b Hin. rewrite forallb_forall in Hb. specialize (Hb b (proj1 (list_elem_of_In _ _) Hin)).
    rewrite !andb_true_iff in Hb. destruct Hb as (((? & ?) & ?) & ?). split; [|lia].
    apply elem_of_bits. split; [lia | done].
Qed.

(** ** The states *)

Definition unmounted : world :=
  mkSfs boot_heap vol_disk (mkSfsFs 0 vol_super false (mkArray 0 0 0 None) (mkBitmap 0 0 0 []) false) ∅.

Definition w : world :=
  Eval vm_compute in match make_file with Some (_, _, s) => s | None => unmounted end.
Definition w_root : Z := 0x80014000.
Definition w_file : Z := 0x80018000.
Definition w_vnode (p : Z) : sfs_vnode :=
  default (mkSv (mkVnode 0 0 None 0 0 None) vol_root 0 false) (sx_vn w !! p).

Lemma w_made : make_file = Some (w_root, w_file, w).
Proof. vm_compute. reflexivity. Qed.

Lemma w_fs : fs_ok w (marked w).
Proof. apply fsb_ok. vm_compute. reflexivity. Qed.

Lemma w_loaded : sx_vn w !! w_root = Some (w_vnode w_root) /\ sx_vn w !! w_file = Some (w_vnode w_file).
Proof. split; vm_compute; reflexivity. Qed.

Lemma w_root_file : file_ok w (marked w) (sv_i (w_vnode w_root)).
Proof. apply fileb_ok. vm_compute. reflexivity. Qed.

Lemma w_file_file : file_ok w (marked w) (sv_i (w_vnode w_file)).
Proof. apply fileb_ok. vm_compute. reflexivity. Qed.

(** Kernel buffers to write from and to read into. *)
Definition hello : list Z := [104; 101; 108; 108; 111].
Definition put_hello (off : Z) : uio := mk_kuio hello 5 off UIO_WRITE.
Definition get_five (off : Z) : uio := mk_kuio (replicate 5 0) 5 off UIO_READ.

(** The file with a byte of its sixteenth block written. *)
Definition w_sparse : world :=
  Eval vm_compute in match sfs_write w_file (put_hello 7680) w with Ret (_, _, s) => s | Stop _ => unmounted end.
Definition w_sparse_file : sfs_vnode := default (w_vnode w_file) (sx_vn w_sparse !! w_file).

Lemma w_sparse_fs : fs_ok w_sparse (marked w_sparse).
Proof. apply fsb_ok. vm_compute. reflexivity. Qed.

Lemma w_sparse_loaded : sx_vn w_sparse !! w_file = Some w_sparse_file.
Proof. vm_compute. reflexivity. Qed.

Lemma w_sparse_ok : file_ok w_sparse (marked w_sparse) (sv_i w_sparse_file).
Proof. apply fileb_ok. vm_compute. reflexivity. Qed.
