(* ===== verification/SfsSpec.v ===== *)
(** * SFS: what the file system promises

    The properties of files and directories, from the lemmas on the block
    layer, the block map, the transfers and the directories; each with an
    instance on the volume of [SfsWorld]. *)

From S2P Require Import Prelude.
From S2P Require Import Ram.
From S2P Require Import Kheap.
From S2P Require Import Dumbvm.
From S2P Require Import Array.
From S2P Require Import Bitmap.
From S2P Require Import Bytes.
From S2P Require Import Cstring.
From S2P Require Import Copyinout.
From S2P Require Import Uio.
From S2P Require Import Blockdev.
From S2P Require Import Lhd.
From S2P Require Import Vnode.
From S2P Require Import Sfs.
From S2P Require Import SfsOps.
From S2P Require Import SfsCareful.
From S2P Require Import SfsBlock.
From S2P Require Import SfsFile.
From S2P Require Import SfsIo.
From S2P Require Import SfsDir.
From S2P Require Import SfsTrunc.
From S2P Require Import SfsWorld.

(** ** Over a device that gives up at a refused write *)

Section Contracts.
Context {H D : Type} `{!Allocator H} {dev : BlockDev D} `{!DevSize D, !Disk D, !CarefulLaws D} `{!CurSpace}.
Implicit Types (s : sfs H D) (X : gset Z) (sv : sfs_vnode) (u v : uio).

(** A vnode with a well-formed file, on a volume whose blocks in use are [X]. *)
Definition file_at s X p sv : Prop :=
  fs_ok s X /\ sx_vn s !! p = Some sv /\ file_ok s X (sv_i sv) /\ size_ok (sv_i sv).

(** A request a caller may make. *)
Definition request_ok u : Prop :=
  uio_wf cur_space u /\ uio_access u (uio_resid u) /\ uio_offset u <= MAXFILE.

Lemma io_ready_of {rf : Prop} s X p sv u :
  file_at s X p sv -> request_ok u -> (is_write u = true -> MayRefuse rf) -> io_ready (rf := rf) s X p sv u.
Proof. intros (? & ? & ? & _) (? & ? & ?) ?. by split_and!. Qed.

(** Two files that share no block. *)
Definition apart s (i j : sfs_inode) : Prop :=
  forall b, b ∈ file_blocks (sx_dev s) i -> b ∉ file_blocks (sx_dev s) j.

Lemma sfs_write_wp s X p sv u :
  file_at s X p sv -> request_ok u -> uio_rw u = UIO_WRITE ->
  wpr (sfs_write p u) s (fun '(r, u') s' => exists X' sv' (m : nat),
    file_at s' X' p sv' /\ file_step s X p sv s' X' sv' /\ u' = advance (Z.of_nat m) u /\
    Z.of_nat m <= uio_resid u /\ uio_offset u + Z.of_nat m <= MAXFILE /\
    content (sx_dev s') (sv_i sv') =
      splice (content (sx_dev s) (sv_i sv)) (Z.to_nat (uio_offset u)) (uio_data u m) /\
    sfi_size (sv_i sv') = Z.max (sfi_size (sv_i sv)) (uio_offset u + Z.of_nat m) /\
    ((r = 0 /\ Z.of_nat m = uio_resid u) \/ (io_error s X' u r /\ (m = 0%nat \/ Z.of_nat m < uio_resid u)))).
Proof.
  intros Hf Hu Hrw. pose proof Hf as (_ & _ & _ & [Hz HzM]). unfold sfs_write. wp_step.
  wp_step; [unfold is_write; by rewrite Hrw|].
  eapply wp_mono; [apply (sfs_io_write_wp s X p sv u); [by apply io_ready_of | done | apply Hf]|].
  intros [r u'] s' (X' & sv' & m & F & -> & Ec & Es & HM & Hm & Hor). exists X', sv', m.
  split_and!; try done.
  - split_and!; [apply F | | apply F |].
    + rewrite (step_vn _ _ _ _ _ _ _ F). apply lookup_insert_eq.
    + unfold size_ok. destruct Hu as ((_ & _ & _ & _ & ? & _) & _). lia.
  - destruct Hor as [?|[? Hm0]]; [by left | right]. split; [done|]. destruct Hm0 as [?|[_ ?]]; auto.
Qed.

Lemma sfs_read_wp s X p sv u :
  file_at s X p sv -> request_ok u -> uio_rw u = UIO_READ ->
  wp (sfs_read p u) s (fun '(r, u') s' => exists d' (m : nat),
    s' = mkSfs (sx_heap s) d' (sx_fs s) (sx_vn s) /\ same_disk (sx_dev s) d' /\ file_at s' X p sv /\
    u' = uio_fill (slice (content (sx_dev s) (sv_i sv)) (Z.to_nat (uio_offset u)) m) u /\
    Z.of_nat m <= read_amount (sv_i sv) u /\
    ((r = 0 /\ Z.of_nat m = read_amount (sv_i sv) u) \/ r = EIO)).
Proof.
  intros Hf Hu Hrw. pose proof Hf as (Hok & Hsv & Hfo & Hz). unfold sfs_read. wp_step.
  wp_step; [unfold is_read; by rewrite Hrw|].
  eapply wp_mono; [apply (sfs_io_read_wp s X p sv u); [apply io_ready_of; [done..|] | done | done]|].
  { unfold is_write. by rewrite Hrw. }
  intros [r u'] s' (d' & m & -> & Hs & -> & Hm & Hor). exists d', m.
  assert (Hf' : file_at (mkSfs (sx_heap s) d' (sx_fs s) (sx_vn s)) X p sv).
  { split_and!; [by apply fs_ok_same_dev | done | | apply Hz..].
    apply (file_step_refl s X p sv d' Hok Hsv Hfo Hs). }
  split_and!; done.
Qed.

Lemma sfs_write_read_wp s X p sv u v :
  file_at s X p sv -> request_ok u -> uio_rw u = UIO_WRITE ->
  request_ok v -> uio_rw v = UIO_READ -> uio_offset v = uio_offset u -> uio_resid v = uio_resid u ->
  wpr (let* (r1, _) := sfs_write p u in
       let* (r2, v') := sfs_read p v in
       ret (r1, r2, v')) s
    (fun '(r1, r2, v') _ => r1 = 0 -> r2 = 0 -> v' = uio_fill (uio_data u (Z.to_nat (uio_resid u))) v).
Proof.
  intros Hf Hu Hrw Hv Hrv Eo Er. wp_step. eapply wp_mono; [by apply (sfs_write_wp s X p sv u)|].
  intros [r1 u'] s1 (X1 & sv1 & m & Hf1 & _ & _ & Hm & HM & Ec & Es & Hor). wp_step.
  eapply wp_mono; [eapply wp_calls; [by apply (sfs_read_wp s1 X1 p sv1 v) | done]|].
  intros [r2 v'] s2 (d2 & n & _ & _ & _ & -> & Hn & Hor2). wp_steps. intros -> ->.
  assert (Em : Z.of_nat m = uio_resid u).
  { destruct Hor as [[_ ?]|[[?|[[? _]|[? _]]] _]]; [done | discriminate..]. }
  assert (En : Z.of_nat n = uio_resid u).
  { destruct Hor2 as [[_ E]|?]; [|discriminate]. rewrite E. unfold read_amount. rewrite Eo, Er, Es. lia. }
  destruct Hu as (Hw & _). pose proof Hw as (? & ? & ? & _ & ? & _).
  assert (Hl : length (uio_data u m) = m) by (apply length_slice; lia).
  assert (n = m) as -> by lia. f_equal. rewrite Ec, Eo.
  pose proof (slice_splice_same (content (sx_dev s) (sv_i sv)) (Z.to_nat (uio_offset u)) (uio_data u m)) as E.
  rewrite Hl in E. rewrite E; [f_equal; lia|].
  destruct Hf as (Hok & _ & Hfo & _). destruct (content_wf s X (sv_i sv) Hok Hfo) as [-> _]. lia.
Qed.

(** A directory whose names are the map [m]. *)
Definition dir_at s X (p : Z) sv (m : gmap (list Z) Z) : Prop := dir_ok s X p sv /\ dir_repr (dents s sv) m.

Lemma link_post_0 s X' sv m str ino slot m' : link_post s X' sv m str ino 0 slot m' -> m' = <[str := ino]> m.
Proof. by intros [(_ & _ & _ & _ & ->)|[_ [[? _]|[[? _]|[?|[[? _]|[? _]]]]]]]. Qed.

Lemma trimmed_file_at s X p sv s' X' sv' L :
  trimmed s X p sv s' X' sv' L -> size_ok (sv_i sv') -> file_at s' X' p sv'.
Proof.
  intros T Hz. split_and!; [apply T | | apply T | apply Hz..].
  rewrite (trim_vn _ _ _ _ _ _ _ _ T). apply lookup_insert_eq.
Qed.

Lemma trimmed_marked s X p sv s' X' sv' L :
  file_ok s X (sv_i sv) -> trimmed s X p sv s' X' sv' L -> forall b, b ∈ X' <-> b ∈ X /\
    (b ∈ file_blocks (sx_dev s) (sv_i sv) -> b ∈ file_blocks (sx_dev s') (sv_i sv')).
Proof.
  intros (_ & Hn & _) T b. destruct (trim_freed _ _ _ _ _ _ _ _ T) as (fr & -> & Hp).
  rewrite Hp in Hn. apply NoDup_app in Hn as (_ & Hd & _).
  rewrite elem_of_difference, elem_of_list_to_set, Hp, elem_of_app. split.
  - intros [? Hfr]. split; [done|]. by intros [?|?].
  - intros [? Himp]. split; [done|]. intros Hfr. apply (Hd b); auto.
Qed.

End Contracts.

(** ** Over a disk that may refuse a write

    Each property of a call that writes holds unless the disk refuses a write
    on the way ([refuses]). *)

Section Spec.
Context {H D : Type} `{!Allocator H} {dev : BlockDev D} `{!DevSize D, !Disk D, !BlockDevLaws D} `{!CurSpace}.
Implicit Types (s : sfs H D) (X : gset Z) (sv : sfs_vnode) (u v : uio).
#[local] Existing Instance careful_laws.

(** C8: unless the disk refuses a write of a sector on the way, [sfs_write] puts
    the bytes of the caller in the file at the offset, or a part of them that
    ends before the first block it could not map or read; the rest of the file
    is as it was, the size grows to the end of what was written, and no other
    file changes or comes to share a block.  It answers 0 when everything is
    written, and otherwise EIO, ENOSPC when every block of the volume is in
    use, or EINVAL past the largest file. *)
Theorem sfs_write_correct s X p sv u :
  file_at s X p sv -> request_ok u -> uio_rw u = UIO_WRITE ->
  refuses (fun dev => sfs_write (dev := dev) p u) s \/
  wp (sfs_write p u) s (fun '(r, u') s' => exists X' sv' (m : nat),
    file_at s' X' p sv' /\ u' = advance (Z.of_nat m) u /\ Z.of_nat m <= uio_resid u /\
    content (sx_dev s') (sv_i sv') =
      splice (content (sx_dev s) (sv_i sv)) (Z.to_nat (uio_offset u)) (uio_data u m) /\
    sfi_size (sv_i sv') = Z.max (sfi_size (sv_i sv)) (uio_offset u + Z.of_nat m) /\
    ((r = 0 /\ Z.of_nat m = uio_resid u) \/
     (io_error s X' u r /\ (m = 0%nat \/ Z.of_nat m < uio_resid u))) /\
    (forall i, file_ok s X i -> apart s i (sv_i sv) ->
       file_ok s' X' i /\ content (sx_dev s') i = content (sx_dev s) i /\ apart s' i (sv_i sv'))).
Proof.
  intros Hf Hu Hrw. apply (tracks_wpr (fun dev => sfs_write (dev := dev) p u)); [apply sfs_write_tracks|].
  eapply wp_mono; [by apply (sfs_write_wp s X p sv u)|].
  intros [r u'] s' (X' & sv' & m & Hf' & F & -> & Hm & _ & Ec & Es & Hor). exists X', sv', m. split_and!; try done.
  intros i Hi Ha. by apply (file_step_other s X p sv s' X' sv'); [apply Hf | | |].
Qed.

(** C9: [sfs_read] fills the memory of the caller with the bytes of the file from
    the offset up to its end, or answers EIO after a part of them; neither the
    file system nor the disk changes. *)
Theorem sfs_read_correct s X p sv u :
  file_at s X p sv -> request_ok u -> uio_rw u = UIO_READ ->
  wp (sfs_read p u) s (fun '(r, u') s' => exists (m : nat),
    sx_heap s' = sx_heap s /\ sx_fs s' = sx_fs s /\ sx_vn s' = sx_vn s /\ same_disk (sx_dev s) (sx_dev s') /\
    file_at s' X p sv /\
    u' = uio_fill (slice (content (sx_dev s) (sv_i sv)) (Z.to_nat (uio_offset u)) m) u /\
    Z.of_nat m <= read_amount (sv_i sv) u /\
    ((r = 0 /\ Z.of_nat m = read_amount (sv_i sv) u) \/ r = EIO)).
Proof.
  intros Hf Hu Hrw. eapply tracks_wp; [apply sfs_read_tracks|]. eapply wp_mono; [by apply (sfs_read_wp s X p sv u)|].
  intros [r u'] s' (d' & m & -> & ?). exists m. split_and!; try done; naive_solver.
Qed.

(** C12: what is written to a file is what is read from it: unless the disk
    refuses a write of a sector on the way, a write of a buffer that succeeds,
    followed by a read of as many bytes at the same offset, brings back that
    buffer. *)
Theorem sfs_write_read s X p sv u v :
  file_at s X p sv -> request_ok u -> uio_rw u = UIO_WRITE ->
  request_ok v -> uio_rw v = UIO_READ -> uio_offset v = uio_offset u -> uio_resid v = uio_resid u ->
  refuses (fun dev =>
    let* (r1, _) := sfs_write (dev := dev) p u in
    let* (r2, v') := sfs_read (dev := dev) p v in
    ret (r1, r2, v')) s \/
  wp (let* (r1, _) := sfs_write p u in
      let* (r2, v') := sfs_read p v in
      ret (r1, r2, v')) s
     (fun '(r1, r2, v') _ => r1 = 0 -> r2 = 0 -> v' = uio_fill (uio_data u (Z.to_nat (uio_resid u))) v).
Proof.
  intros. eapply (tracks_wpr (fun dev =>
    let* (r1, _) := sfs_write (dev := dev) p u in
    let* (r2, v') := sfs_read (dev := dev) p v in
    ret (r1, r2, v'))); [|by apply (sfs_write_read_wp s X p sv u v)].
  apply tracks_bind; [apply sfs_write_tracks|]. intros []. apply tracks_bind; [apply sfs_read_tracks|].
  intros []. apply tracks_refl.
Qed.

(** C10: a directory is a finite map from names to inode numbers.  Looking a name
    up answers its number or ENOENT, or EIO, and changes nothing.  Unless the
    disk refuses a write of a sector on the way, linking adds a name that is
    not there and fits in an entry, and answers EEXIST or ENAMETOOLONG
    otherwise; unlinking the slot of a name takes out that name; and when a
    block cannot be read or the volume is full, the map is as it was.  The
    directory stays a directory, and no other file is touched. *)
Theorem directory_refines_map s X (p : Z) sv (m : gmap (list Z) Z) name str (ino : Z) :
  dir_at s X p sv m -> is_cstr name str -> Forall byte_ok str -> word_ok ino -> ino <> SFS_NOINO ->
  wp (sfs_dir_findname p name) s (fun '(r, fn) s' =>
    dir_at s' X p sv m /\ sx_fs s' = sx_fs s /\ sx_vn s' = sx_vn s /\
    (r = EIO \/ (r = ENOENT /\ m !! str = None) \/
     (r = 0 /\ is_Some (m !! str) /\ fn_ino fn = m !! str /\
      exists (j : nat) e, fn_slot fn = Some (Z.of_nat j) /\ dents s sv !! j = Some e /\ matches str e))) /\
  (refuses (fun dev => sfs_dir_link (dev := dev) p name ino) s \/
   wp (sfs_dir_link p name ino) s (fun '(r, slot) s' => exists X' sv' m',
     dir_at s' X' p sv' m' /\ file_step s X p sv s' X' sv' /\ link_post s X' sv m str ino r slot m')) /\
  (forall (j : nat) e, dents s sv !! j = Some e -> matches str e ->
   refuses (fun dev => sfs_dir_unlink (dev := dev) p (Z.of_nat j)) s \/
   wp (sfs_dir_unlink p (Z.of_nat j)) s (fun r s' => exists X' sv' m',
     dir_at s' X' p sv' m' /\ file_step s X p sv s' X' sv' /\
     ((r = 0 /\ m' = delete str m) \/ (dir_full_error s X' sv r /\ m' = m)))).
Proof.
  intros [Hd Hrep] Hn Hb Hi Hi0. split_and!.
  - eapply tracks_wp; [apply sfs_dir_findname_tracks|].
    eapply wp_mono; [by apply (sfs_dir_findname_wp s X p sv name str Hd Hn), Hrep|].
    intros [r fn] s' (d' & -> & Hs & Hor). destruct (dir_ok_read s X p sv d' Hd Hs) as [Hd' Ed].
    split_and!; [split; [done | by rewrite Ed] | done | done |]. rewrite <- (length_dents s sv) in Hor.
    destruct Hor as [?|[[-> Hsc]|[-> Hsc]]]; [by left | right; right | right; left].
    + destruct (scanned_repr _ _ _ _ _ Hrep Hsc) as [-> ?]. destruct Hsc as [(j & e & _ & ? & ? & _ & ?) _].
      split_and!; try done. by exists j, e.
    + by pose proof (scanned_repr _ _ _ _ _ Hrep Hsc).
  - apply (tracks_wpr (fun dev => sfs_dir_link (dev := dev) p name ino)); [apply sfs_dir_link_tracks|].
    eapply wp_mono; [by apply (sfs_dir_link_wp s X p sv name str ino m)|].
    intros [r slot] s' (X' & sv' & m' & [F Hd'] & Hrep' & Hp). by exists X', sv', m'.
  - intros j e He [Hei Hen].
    apply (tracks_wpr (fun dev => sfs_dir_unlink (dev := dev) p (Z.of_nat j))); [apply sfs_dir_unlink_tracks|].
    eapply wp_mono; [by apply (sfs_dir_unlink_wp s X p sv m j e)|].
    intros r s' (X' & sv' & m' & [F Hd'] & Hrep' & _ & Hp). rewrite Hen in Hp. by exists X', sv', m'.
Qed.

(** C11: unless the disk refuses a write of a sector on the way, [sfs_truncate]
    cuts the file to the length: what is below the length stays, every block
    past the last one is given back to the volume (but one past the end of a
    file that reaches the indirect block), exactly the blocks given back become
    free, and no other file changes.  When the indirect block cannot be read it
    answers EIO and the size stays. *)
Theorem sfs_truncate_correct s X p sv len :
  file_at s X p sv -> 0 <= len <= MAXFILE ->
  refuses (fun dev => sfs_truncate (dev := dev) p len) s \/
  wp (sfs_truncate p len) s (fun r s' => exists X' sv', file_at s' X' p sv' /\
    (forall b, b ∈ X' <-> b ∈ X /\
       (b ∈ file_blocks (sx_dev s) (sv_i sv) -> b ∈ file_blocks (sx_dev s') (sv_i sv'))) /\
    (forall i, file_ok s X i -> apart s i (sv_i sv) ->
       file_ok s' X' i /\ content (sx_dev s') i = content (sx_dev s) i) /\
    ((r = 0 /\ sfi_size (sv_i sv') = len /\
      take (Z.to_nat len) (content (sx_dev s') (sv_i sv')) = take (Z.to_nat len) (content (sx_dev s) (sv_i sv)) /\
      forall (j : nat) b, fblocks (sx_dev s) (sv_i sv) !! j = Some b ->
        fblocks (sx_dev s') (sv_i sv') !! j = Some (if kept (blocks_of len) j then b else 0)) \/
     (r = EIO /\ sfi_size (sv_i sv') = sfi_size (sv_i sv)))).
Proof.
  intros (Hok & Hsv & Hf & Hz) Hlen.
  apply (tracks_wpr (fun dev => sfs_truncate (dev := dev) p len)); [apply sfs_truncate_tracks|].
  eapply wp_mono; [by apply (sfs_truncate_wp s X p sv len)|].
  intros r s' (X' & sv' & L & T & Hor). exists X', sv'.
  split_and!.
  - eapply trimmed_file_at; [exact T|]. unfold size_ok in *. destruct Hor as [(_ & _ & -> & _)|(_ & _ & ->)]; done.
  - by apply (trimmed_marked s X p sv s' X' sv' L).
  - intros i Hi Ha. by apply (trimmed_other s X p sv s' X' sv' L).
  - destruct Hor as [(-> & -> & Hs & _)|(-> & _ & Hs)]; [left | by right]. split_and!; [done | done | |].
    + destruct (blocklen_of len Hlen) as [_ Hk].
      assert (Hle : len <= 512 * blocks_of len) by (unfold blocks_of; Z.to_euclidean_division_equations; lia).
      pose proof (trimmed_content s X p sv s' X' sv' (Z.to_nat (blocks_of len)) Hok Hf ltac:(lia)) as Ec.
      rewrite Z2Nat.id in Ec by lia. specialize (Ec T).
      replace (Z.to_nat len) with (Nat.min (Z.to_nat len) (512 * Z.to_nat (blocks_of len))) by lia.
      by rewrite <- !take_take, Ec.
    + intros j b Hj. rewrite (trim_blocks _ _ _ _ _ _ _ _ T). apply cut_all_lookup; [apply Hf | done].
Qed.

(** The block after the new end of a file that reaches into the indirect block
    is not given back: the file keeps it, and it stays marked in the free map,
    although every byte of it lies past the length. *)
Theorem sfs_truncate_keeps_one s X p sv len b :
  file_at s X p sv -> 0 <= len <= MAXFILE -> 15 <= blocks_of len ->
  fblocks (sx_dev s) (sv_i sv) !! Z.to_nat (blocks_of len) = Some b -> b <> 0 ->
  len <= 512 * blocks_of len /\
  (refuses (fun dev => sfs_truncate (dev := dev) p len) s \/
   wp (sfs_truncate p len) s (fun r s' => r = 0 -> exists X' sv', file_at s' X' p sv' /\
     sfi_size (sv_i sv') = len /\ b ∈ file_blocks (sx_dev s') (sv_i sv') /\ b ∈ X')).
Proof.
  intros (Hok & Hsv & Hf & Hz) Hlen Hk Hb Hb0. split.
  { unfold blocks_of. Z.to_euclidean_division_equations. lia. }
  apply (tracks_wpr (fun dev => sfs_truncate (dev := dev) p len)); [apply sfs_truncate_tracks|].
  eapply wp_mono; [by apply (sfs_truncate_wp s X p sv len)|].
  intros r s' (X' & sv' & L & T & Hor) ->. destruct Hor as [(_ & -> & Hs & _)|(? & _)]; [|done].
  assert (Hin : b ∈ file_blocks (sx_dev s') (sv_i sv')).
  { eapply (block_in_file _ _ (Z.to_nat (blocks_of len))); [apply (trim_file _ _ _ _ _ _ _ _ T) | | done].
    rewrite (trim_blocks _ _ _ _ _ _ _ _ T), (cut_all_lookup _ _ _ _ b) by (apply Hf || done).
    unfold kept. rewrite Z2Nat.id by lia. rewrite (proj2 (Z.leb_le 15 _) Hk), Z.eqb_refl, orb_true_r. done. }
  exists X', sv'. split_and!; [| done | done |].
  - eapply trimmed_file_at; [exact T|]. unfold size_ok. by rewrite Hs.
  - by apply (trim_file _ _ _ _ _ _ _ _ T).
Qed.
End Spec.

(** ** On the volume of [SfsWorld] *)

Lemma w_file_at : file_at w (marked w) w_file (w_vnode w_file).
Proof. split_and!; [apply w_fs | apply w_loaded | apply w_file_file | vm_compute..]; done. Qed.

Lemma w_root_at : file_at w (marked w) w_root (w_vnode w_root).
Proof. split_and!; [apply w_fs | apply w_loaded | apply w_root_file | vm_compute..]; done. Qed.

Lemma w_content : (510 + length hello <= length (content (sx_dev w) (sv_i (w_vnode w_file))))%nat.
Proof.
  destruct w_file_at as (Hok & _ & Hfo & _). destruct (content_wf w _ _ Hok Hfo) as [-> _].
  change (length hello) with 5%nat. change MAXFILE with 73216. lia.
Qed.

Lemma put_hello_ok (off : Z) : 0 <= off <= 1000 -> request_ok (put_hello off).
Proof.
  intros Ho. assert (HM : MAXFILE = 73216) by reflexivity. split_and!; [|done | simpl; lia].
  apply kuio_wf; [done | by repeat constructor | lia | lia].
Qed.

Lemma get_five_ok (off : Z) : 0 <= off <= 1000 -> request_ok (get_five off).
Proof.
  intros Ho. assert (HM : MAXFILE = 73216) by reflexivity. split_and!; [|done | simpl; lia].
  apply kuio_wf; [done | by repeat constructor | lia | lia].
Qed.

(** The run ended otherwise than by a refused write. *)
Definition went_on {A} (r : res A) : bool := match r with Stop Refused => false | _ => true end.

Lemma went_on_refuses {A} (m : BlockDev (lhd simcard) -> M world A) (s : world) :
  went_on (m careful s) = true -> ~ refuses m s.
Proof. unfold refuses. by intros E1 E2; rewrite E2 in E1. Qed.

Ltac disk_agrees P :=
  destruct P as [P|P]; [exfalso; revert P; apply went_on_refuses; vm_compute; reflexivity|].

(** The code answered, if anything. *)
Definition answered {A} (r : res (Z * A * world)) : option Z :=
  match r with Ret (e, _, _) => Some e | Stop _ => None end.

Lemma sfs_write_correct_witness :
  answered (sfs_write w_file (put_hello 510) w) = Some 0 /\
  exists X' sv' (s' : world), file_at s' X' w_file sv' /\ sfi_size (sv_i sv') = 515 /\
    slice (content (sx_dev s') (sv_i sv')) 510 5 = hello.
Proof.
  assert (E : answered (sfs_write w_file (put_hello 510) w) = Some 0) by (vm_compute; reflexivity).
  split; [exact E|].
  pose proof (sfs_write_correct w (marked w) w_file (w_vnode w_file) (put_hello 510)
                w_file_at (put_hello_ok 510 ltac:(lia)) eq_refl) as P.
  disk_agrees P. destruct (proj1 (wp_elim _ _ _) P) as ([r u'] & s' & Er & P'). rewrite Er in E.
  injection E as ->. destruct P' as (X' & sv' & m & Hf & _ & _ & Ec & Es & Hor & _).
  change (uio_resid (put_hello 510)) with 5 in Hor.
  assert (m = 5%nat) as -> by (clear -Hor; destruct Hor as [[_ ?]|[[?|[[? _]|[? _]]] _]]; [lia | done..]).
  exists X', sv', s'. split; [exact Hf|]. split; [rewrite Es; vm_compute; reflexivity|].
  change (uio_data (put_hello 510) 5) with hello in Ec.
  change (Z.to_nat (uio_offset (put_hello 510))) with 510%nat in Ec.
  rewrite Ec. change 5%nat with (length hello). apply slice_splice_same. apply w_content.
Defined.

(** The root directory, read as a file: the entry of [f]. *)
Lemma sfs_read_correct_witness :
  exists v' (s' : world), sfs_read w_root (get_five 0) w = Ret (0, v', s') /\
    rg_bytes (iov_region v') = [0; 0; 0; 3; 102] /\ file_at s' (marked w) w_root (w_vnode w_root).
Proof.
  assert (E : answered (sfs_read w_root (get_five 0) w) = Some 0) by (vm_compute; reflexivity).
  pose proof (sfs_read_correct w (marked w) w_root (w_vnode w_root) (get_five 0)
                w_root_at (get_five_ok 0 ltac:(lia)) eq_refl) as P.
  destruct (proj1 (wp_elim _ _ _) P) as ([r u'] & s' & Er & P'). rewrite Er in E |- *.
  injection E as ->. destruct P' as (m & _ & _ & _ & _ & Hf & -> & _ & Hor).
  exists (uio_fill (slice (content (sx_dev w) (sv_i (w_vnode w_root))) 0 m) (get_five 0)), s'.
  assert (m = 5%nat) as -> by (destruct Hor as [[_ E]|?]; [|done]; change (Z.of_nat m = 5) in E; lia).
  split; [done|]. split; [vm_compute; reflexivity | exact Hf].
Defined.

Lemma sfs_write_read_witness :
  exists v' s', (let* (r1, _) := sfs_write w_file (put_hello 510) in
      let* (r2, v') := sfs_read w_file (get_five 510) in
      ret (r1, r2, v')) w = Ret (0, 0, v', s') /\ rg_bytes (iov_region v') = hello.
Proof.
  pose proof (sfs_write_read w (marked w) w_file (w_vnode w_file) (put_hello 510) (get_five 510)
                w_file_at (put_hello_ok 510 ltac:(lia)) eq_refl (get_five_ok 510 ltac:(lia)) eq_refl eq_refl eq_refl) as P.
  disk_agrees P. destruct (proj1 (wp_elim _ _ _) P) as ([[r1 r2] v'] & s' & Er & P').
  assert (E : match (let* (r1, _) := sfs_write w_file (put_hello 510) in
      let* (r2, v') := sfs_read w_file (get_five 510) in
      ret (r1, r2, v')) w with Ret (r1, r2, _, _) => Some (r1, r2) | Stop _ => None end = Some (0, 0))
    by (vm_compute; reflexivity).
  rewrite Er in E |- *. injection E as -> ->.
  exists v', s'. split; [done|]. rewrite (P' eq_refl eq_refl). vm_compute. reflexivity.
Defined.

Lemma w_sparse_at : file_at w_sparse (marked w_sparse) w_file w_sparse_file.
Proof. split_and!; [apply w_sparse_fs | apply w_sparse_loaded | apply w_sparse_ok | vm_compute..]; done. Qed.

Lemma sfs_truncate_correct_witness :
  exists X' sv' (s' : world), sfs_truncate w_file 100 w_sparse = Ret (0, s') /\
    file_at s' X' w_file sv' /\ sfi_size (sv_i sv') = 100.
Proof.
  assert (E : match sfs_truncate w_file 100 w_sparse with Ret (r, _) => Some r | Stop _ => None end = Some 0)
    by (vm_compute; reflexivity).
  pose proof (sfs_truncate_correct w_sparse (marked w_sparse) w_file w_sparse_file 100 w_sparse_at
                ltac:(change MAXFILE with 73216; lia)) as P.
  disk_agrees P. destruct (proj1 (wp_elim _ _ _) P) as (r & s' & Er & P'). rewrite Er in E |- *. injection E as ->.
  destruct P' as (X' & sv' & Hf & _ & _ & [(_ & Hs & _)|[He _]]); [|discriminate He].
  exists X', sv', s'. split; [reflexivity|]. split; assumption.
Defined.

(** The sixteenth block of the file is block 6 of the volume. *)
Lemma sfs_truncate_keeps_one_witness :
  exists X' sv' (s' : world), sfs_truncate w_file 7680 w_sparse = Ret (0, s') /\
    file_at s' X' w_file sv' /\ sfi_size (sv_i sv') = 7680 /\ 6 ∈ X'.
Proof.
  assert (E : match sfs_truncate w_file 7680 w_sparse with Ret (r, _) => Some r | Stop _ => None end = Some 0)
    by (vm_compute; reflexivity).
  destruct (sfs_truncate_keeps_one w_sparse (marked w_sparse) w_file w_sparse_file 7680 6 w_sparse_at) as [_ P].
  - change MAXFILE with 73216. lia.
  - vm_compute. discriminate.
  - vm_compute. reflexivity.
  - discriminate.
  - disk_agrees P. destruct (proj1 (wp_elim _ _ _) P) as (r & s' & Er & P'). rewrite Er in E |- *. injection E as ->.
    destruct (P' eq_refl) as (X' & sv' & Hf & Hs & _ & HX).
    exists X', sv', s'. split; [reflexivity|]. split; [exact Hf|]. split; assumption.
Defined.

Definition w_names : gmap (list Z) Z := {[ [102] := 3 ]}.

Lemma dir_repr_nil : dir_repr [] ∅.
Proof.
  split; [intros j k e f Hj; by rewrite lookup_nil in Hj|].
  intros str ino. rewrite lookup_empty. split; [done|]. intros (j & e & Hj & _). by rewrite lookup_nil in Hj.
Qed.

Lemma w_root_dir : dir_at w (marked w) w_root (w_vnode w_root) w_names.
Proof.
  split.
  - destruct w_root_at as (? & ? & ? & ?). split_and!; try done; vm_compute; reflexivity.
  - assert (E : dents w (w_vnode w_root) = put_entry 0 (mkDir 3 (102 :: replicate 59 0)) [])
      by (vm_compute; reflexivity).
    rewrite E. apply (dir_repr_put [] ∅ 0 (mkDir 3 (102 :: replicate 59 0))); try done. apply dir_repr_nil.
Qed.

Lemma directory_refines_map_witness :
  exists X' sv' (s' : world) slot, sfs_dir_link w_root [103; 0] 7 w = Ret (0, slot, s') /\
    dir_at s' X' w_root sv' (<[ [103] := 7 ]> w_names).
Proof.
  assert (E : answered (sfs_dir_link w_root [103; 0] 7 w) = Some 0) by (vm_compute; reflexivity).
  destruct (directory_refines_map w (marked w) w_root (w_vnode w_root) w_names [103; 0] [103] 7) as (_ & P & _).
  - exact w_root_dir.
  - exists []. split; [done | by repeat constructor].
  - by repeat constructor.
  - done.
  - done.
  - disk_agrees P. destruct (proj1 (wp_elim _ _ _) P) as ([r slot] & s' & Er & P'). rewrite Er in E |- *.
    injection E as ->. destruct P' as (X' & sv' & m' & Hd & _ & Hor). exists X', sv', s', slot. split; [reflexivity|].
    rewrite (link_post_0 _ _ _ _ _ _ _ _ Hor) in Hd. exact Hd.
Defined.
