(* ===== verification/SfsFault.v ===== *)
(** * SFS: when the disk reports errors

    [sfs_rwblock] tries a block again when the device answers EIO.  Here: that
    it stops, over any device, and what its second try does to a write on the
    disk driver. *)

From S2P Require Import Prelude.
From S2P Require Import Bytes.
From S2P Require Import Copyinout.
From S2P Require Import Uio.
From S2P Require Import Blockdev.
From S2P Require Import Lhd.
From S2P Require Import Array.
From S2P Require Import Bitmap.
From S2P Require Import Vnode.
From S2P Require Import Sfs.
From S2P Require Import SfsBlock.
From S2P Require Import SfsWorld.

Section Retry.
Context {D : Type} `{!BlockDev D} `{!CurSpace}.
Implicit Types (u : uio) (d : D).

(** [n] requests, each but the last answered with EIO. *)
Inductive requests : nat -> uio -> D -> Z -> uio -> D -> Prop :=
  | request_last u d r u' d' : d_io cur_space u d = Ret (r, u', d') -> requests 1 u d r u' d'
  | request_again n u d u1 d1 r u' d' :
      d_io cur_space u d = Ret (EIO, u1, d1) -> requests n u1 d1 r u' d' -> requests (S n) u d r u' d'.

(** The device answers every request. *)
Definition answers : Prop := forall u d, exists r u' d', d_io cur_space u d = Ret (r, u', d').

Lemma rwblock_loop_stops (f : nat) u d :
  answers -> (f < 11)%nat ->
  exists n r u' d', (1 <= n <= S f)%nat /\ requests n u d r u' d' /\ (r = EIO -> n = S f) /\
    rwblock_loop (S f) (Z.of_nat (10 - f)) u d = if r =? EINVAL then Stop Panic else Ret (r, u', d').
Proof.
  intros Ha. revert u d. induction f as [|f IH]; intros u d Hf.
  - destruct (Ha u d) as (r & u' & d' & E). exists 1%nat, r, u', d'. split_and!; [lia | lia | by constructor | done |].
    cbn [rwblock_loop]. unfold bind. rewrite E. destruct (Z.eqb_spec r EINVAL); [done|].
    destruct (Z.eqb_spec r EIO); done.
  - destruct (Ha u d) as (r & u1 & d1 & E).
    destruct (Z.eqb_spec r EIO) as [->|Hne].
    + destruct (IH u1 d1) as (n & r & u' & d' & Hn & Hreq & He & Er); [lia|].
      exists (S n), r, u', d'. split_and!; [lia | lia | by eapply request_again | intros ?; rewrite He; done |].
      rewrite <- Er. replace (Z.of_nat (10 - f)) with (Z.of_nat (10 - S f) + 1) by lia.
      cbn [rwblock_loop]. unfold bind at 1. rewrite E. cbn [Z.eqb EINVAL EIO Pos.eqb].
      destruct (Z.of_nat (10 - S f) =? 0); [done|].
      destruct (Z.ltb_spec (Z.of_nat (10 - S f)) 10); [done | lia].
    + exists 1%nat, r, u1, d1. split_and!; [lia | lia | by constructor | done |].
      cbn [rwblock_loop]. unfold bind. rewrite E. destruct (Z.eqb_spec r EINVAL); [done|].
      destruct (Z.eqb_spec r EIO); done.
Qed.

(** C38: over any device that answers its requests, [sfs_rwblock] makes between one
    and eleven of them and returns the answer of the last, which is the first
    that is not EIO; it gives up with EIO only after eleven, and panics exactly
    when the answer is EINVAL. *)
Theorem sfs_rwblock_terminates u d :
  answers ->
  exists n r u' d', (1 <= n <= 11)%nat /\ requests n u d r u' d' /\ (r = EIO -> n = 11%nat) /\
    sfs_rwblock u d = if r =? EINVAL then Stop Panic else Ret (r, u', d').
Proof. intros Ha. apply (rwblock_loop_stops 10 u d Ha). lia. Qed.
End Retry.

(** A device that answers from a list, and 0 when it is at its end. *)
#[local] Instance scripted : BlockDev (list Z) :=
  fun _ u l => match l with [] => Ret (0, u, []) | r :: l' => Ret (r, u, l') end.

Lemma sfs_rwblock_terminates_witness :
  exists (n : nat) u', requests n (put_hello 0) [EIO; EIO; 0; EIO] 0 u' [EIO] /\
    sfs_rwblock (put_hello 0) [EIO; EIO; 0; EIO] = Ret (0, u', [EIO]).
Proof.
  destruct (sfs_rwblock_terminates (put_hello 0) [EIO; EIO; 0; EIO]) as (n & r & u' & d' & _ & Hr & _ & E).
  - intros u [|r l]; simpl; eauto.
  - assert (E' : sfs_rwblock (put_hello 0) [EIO; EIO; 0; EIO] = Ret (0, put_hello 0, [EIO])) by reflexivity.
    rewrite E' in E. destruct (r =? EINVAL); [discriminate|]. injection E as <- <- <-.
    exists n, (put_hello 0). split; [exact Hr | exact E'].
Defined.

Section Lost.
Context {HW : Type} `{!LhdCard HW} `{!CurSpace}.
Implicit Types (l : lhd HW).

(** The request that is left after a sector is consumed asks for nothing. *)
Lemma lhd_io_nothing l cur u b :
  uio_resid u = 0 -> uio_offset u = SECTSIZE * b -> 0 <= b <= lh_blocks l -> lh_blocks l <= MAXBLOCKS ->
  lhd_io cur u l = Ret (0, u, l).
Proof.
  intros Hr Ho Hb Hm. unfold lhd_io. rewrite Hr, Ho. unfold SECTSIZE, LHD_SECTSIZE, MAXBLOCKS in *.
  rewrite (Z.mul_comm 512 b), Z.quot_mul, Z.rem_mul by lia.
  change (u32 0) with 0. change (0 mod 512) with 0. change (0 / 512) with 0. cbn [Z.eqb negb orb].
  unfold bind, gets. rewrite (u32_small b), Z.add_0_r, (u32_small b) by lia.
  destruct (Z.gtb_spec b (lh_blocks l)); [lia | done].
Qed.

(** C39: a write the disk refuses is lost without a word.  When the card reports a
    media error for the block, [lhd_io] has already consumed the descriptor,
    so that the retry of [sfs_rwblock] asks the driver for no sector at all
    and is answered 0: [sfs_wblock] reports success, and the failed operation
    is the only one the card has seen. *)
Theorem sfs_wblock_loses_error l data b st buf hw :
  lh_clear l = 1 -> lh_done l = 0 -> sector_wf (lh_buf l) -> lh_blocks l <= MAXBLOCKS ->
  sector_wf data -> 0 <= b < lh_blocks l ->
  hw_op true b data (lh_hw l) = (st, buf, hw) -> Z.land st LHD_STATEMASK = LHD_MEDIA ->
  exists l', sfs_wblock data b l = Ret (0, l') /\ lh_hw l' = hw.
Proof.
  intros Hcl Hdn Hbuf Hm [Hl Hdata] Hb Hop Hst. unfold sfs_wblock, SFSUIO, SFS_BLOCKSIZE.
  unfold MAXBLOCKS in Hm. rewrite (s32_small b), (s32_small (b * 512)) by lia.
  set (u := mk_kuio data 512 (b * 512) UIO_WRITE).
  assert (Hw : uio_wf cur_space u).
  { unfold uio_wf, u, mk_kuio; simpl. split_and!; try done; try lia. rewrite Hl. unfold SECTSIZE. lia. }
  assert (Hud : uio_data u (Z.to_nat SECTSIZE) = data).
  { unfold uio_data, slice, u, mk_kuio; simpl. rewrite drop_0. apply take_ge. by rewrite Hl. }
  destruct (proj1 (wp_elim _ _ _) (lhd_write_op l cur_space u b st buf hw Hcl Hdn Hbuf Hm Hw eq_refl eq_refl I
    ltac:(unfold u, mk_kuio, SECTSIZE; simpl; lia) Hb ltac:(by rewrite Hud) ltac:(by right)))
    as ([r u'] & l' & Er & -> & -> & ->).
  rewrite Hst in *. eexists. split.
  - unfold sfs_rwblock, RETRIES. cbn [rwblock_loop]. unfold bind, d_io, lhd_blockdev.
    rewrite Er. cbn [Z.eqb LHD_MEDIA LHD_OK Pos.eqb EIO EINVAL].
    rewrite (lhd_io_nothing _ _ _ (b + 1)); [done | | | |done].
    all: try (rewrite (advance_small cur_space) by (done || (unfold u, mk_kuio, SECTSIZE; simpl; lia)));
      unfold u, mk_kuio, SECTSIZE; simpl; lia.
  - done.
Qed.
End Lost.

(** The volume of [SfsWorld] on a disk whose next write fails. *)
Definition bad_disk : lhd simcard := config_lhd (mkCard vol_sectors [] [true]) (replicate 512 0).

Lemma sfs_wblock_loses_error_witness :
  exists l', sfs_wblock (replicate 512 1) 5 bad_disk = Ret (0, l') /\
    lh_hw l' = mkCard vol_sectors [] [] /\ vol_sectors !! 5%nat = Some (replicate 512 0).
Proof.
  assert (Hz : sector_wf (replicate 512 0)) by (apply sectorb_ok; vm_compute; reflexivity).
  assert (H1 : sector_wf (replicate 512 1)) by (apply sectorb_ok; vm_compute; reflexivity).
  destruct (sfs_wblock_loses_error bad_disk (replicate 512 1) 5 (Z.lor LHD_MEDIA LHD_ISWRITE) (replicate 512 1)
              (mkCard vol_sectors [] []) eq_refl eq_refl Hz ltac:(by vm_compute) H1 ltac:(by vm_compute)
              ltac:(vm_compute; reflexivity) eq_refl) as (l' & E & Eh).
  exists l'. split; [exact E|]. split; [exact Eh | reflexivity].
Defined.
