(* ===== verification/Vfs.v ===== *)
(** * The VFS layer ([kern/fs/vfs])

    Path names, the current directory, the table of named devices and mounted
    file systems ([vfslookup.c], [vfscwd.c], [vfspath.c], [vfslist.c]), and
    vnodes for devices ([device.c], [devnull.c]).

    What lies below is the state [W]: memory, the vnodes and the file systems.
    The class [FsWorld] is what a file system answers to the calls through its
    function tables and [struct fs]; the counts of a vnode are those of
    [Vnode.v].  The pointer to a file system is a number, 0 if it is null.  A
    string is the buffer that holds it, from the first character to the end of
    the buffer; a name is found up to its zero byte. *)

From S2P Require Import Prelude.
From S2P Require Import Array.
From S2P Require Import Cstring.
From S2P Require Import Uio.
From S2P Require Import Thread.
From S2P Require Import Vnode.
From S2P Require Import Sfs.
From S2P Require Import SfsOps.

(** ** Data *)

Record device (W : Type) := mkDevice {
  d_open : Z -> M W Z;
  d_close : M W Z;
  d_io : uio -> M W (Z * uio);
  d_ioctl : Z -> Z -> M W Z;
  d_blocks : Z;
  d_blocksize : Z;
}.
Arguments mkDevice {W}.
Arguments d_open {W}.
Arguments d_close {W}.
Arguments d_io {W}.
Arguments d_ioctl {W}.
Arguments d_blocks {W}.
Arguments d_blocksize {W}.

Record knowndev := mkKd {
  kd_name : Z * list Z;         (* address and characters *)
  kd_rawname : option (Z * list Z);
  kd_device : Z;
  kd_vnode : Z;
  kd_fs : Z;
}.

Record vfssys (W : Type) := mkVfs {
  knowndevs : option (array Z);
  knowndevs_lock : option lock;
  kdtab : gmap Z knowndev;
  devtab : gmap Z (device W);
  bootfs_vnode : Z;
  bootfs_lock : option lock;
  t_cwd : Z;                    (* of the current thread *)
  vw : W;
}.
Arguments mkVfs {W}.
Arguments knowndevs {W}.
Arguments knowndevs_lock {W}.
Arguments kdtab {W}.
Arguments devtab {W}.
Arguments bootfs_vnode {W}.
Arguments bootfs_lock {W}.
Arguments t_cwd {W}.
Arguments vw {W}.

Class FsWorld (W VO : Type) := {
  dev_vnode_ops : VO;
  is_dev : VO -> bool;
  fs_call : Z -> request -> M W answer;         (* an entry of its function tables *)
  fsop_sync : Z -> M W Z;
  fsop_getvolname : Z -> M W (option (list Z));
  fsop_getroot : Z -> M W Z;
  fsop_unmount : Z -> M W Z;
}.

Definition O_WRONLY : Z := 1.
Definition O_RDWR : Z := 2.
Definition O_CREAT : Z := 4.
Definition O_EXCL : Z := 8.
Definition O_TRUNC : Z := 16.
Definition NAME_MAX : Z := 255.
Definition S_IFMT : Z := 0x7000.         (* 070000 *)
Definition S_IFCHR : Z := 0x4000.        (* 040000 *)
Definition S_IFBLK : Z := 0x5000.        (* 050000 *)
Definition S_ISDIR (mode : Z) : bool := Z.land mode S_IFMT =? S_IFDIR.
Definition SIZEOF_DEVICE : Z := 28.
Definition SIZEOF_VNODE : Z := 24.
Definition SIZEOF_KNOWNDEV : Z := 20.

Section Vfs.
Context {W VO : Type} `{!Allocator W, !VnodeStore W VO, !VnodeOps W, !FsWorld W VO} `{!CurSpace}.
Abbreviation V := (vfssys W).
Implicit Types s : V.

Definition set_vw (w : W) s : V :=
  mkVfs (knowndevs s) (knowndevs_lock s) (kdtab s) (devtab s) (bootfs_vnode s) (bootfs_lock s) (t_cwd s) w.
Definition set_knowndevs (a : array Z) s : V :=
  mkVfs (Some a) (knowndevs_lock s) (kdtab s) (devtab s) (bootfs_vnode s) (bootfs_lock s) (t_cwd s) (vw s).
Definition set_knowndevs_lock (l : option lock) s : V :=
  mkVfs (knowndevs s) l (kdtab s) (devtab s) (bootfs_vnode s) (bootfs_lock s) (t_cwd s) (vw s).
Definition set_kdtab (m : gmap Z knowndev) s : V :=
  mkVfs (knowndevs s) (knowndevs_lock s) m (devtab s) (bootfs_vnode s) (bootfs_lock s) (t_cwd s) (vw s).
Definition set_devtab (m : gmap Z (device W)) s : V :=
  mkVfs (knowndevs s) (knowndevs_lock s) (kdtab s) m (bootfs_vnode s) (bootfs_lock s) (t_cwd s) (vw s).
Definition set_bootfs (v : Z) s : V :=
  mkVfs (knowndevs s) (knowndevs_lock s) (kdtab s) (devtab s) v (bootfs_lock s) (t_cwd s) (vw s).
Definition set_bootfs_lock (l : option lock) s : V :=
  mkVfs (knowndevs s) (knowndevs_lock s) (kdtab s) (devtab s) (bootfs_vnode s) l (t_cwd s) (vw s).
Definition set_cwd (v : Z) s : V :=
  mkVfs (knowndevs s) (knowndevs_lock s) (kdtab s) (devtab s) (bootfs_vnode s) (bootfs_lock s) v (vw s).

Definition on_w {A} (m : M W A) : M V A := fun s =>
  match m (vw s) with
  | Ret (a, w) => Ret (a, set_vw w s)
  | Stop e => Stop e
  end.

#[global] Instance vfs_store : VnodeStore V VO := {
  get_vnode p := on_w (get_vnode p);
  put_vnode p v := on_w (put_vnode p v);
  vop_magic := vop_magic;
}.

(** ** Device vnodes ([device.c]) *)

(** [v->vn_data] as a device. *)
Definition dev_of (p : Z) : M V (device W) :=
  let* v := get_vnode p in
  let* s := get in
  match devtab s !! vn_data v with
  | Some d => ret d
  | None => halt Fault
  end.

Definition dev_open (p flags : Z) : M V Z :=
  let* d := dev_of p in
  if negb (Z.land flags (Z.lor (Z.lor (Z.lor O_CREAT O_TRUNC) O_EXCL) O_APPEND) =? 0) then ret EINVAL
  else on_w (d_open d flags).

Definition dev_close (p : Z) : M V Z :=
  let* d := dev_of p in
  on_w (d_close d).

Definition dev_reclaim (p : Z) : M V Z := ret 0.

Definition dev_read (p : Z) (u : uio) : M V (Z * uio) :=
  let* d := dev_of p in
  let* _ := kassert (is_read u) in
  on_w (d_io d u).

Definition null_io : Z := EINVAL.

Definition dev_write (p : Z) (u : uio) : M V (Z * uio) :=
  let* d := dev_of p in
  let* _ := kassert (is_write u) in
  on_w (d_io d u).

Definition dev_ioctl (p op data : Z) : M V Z :=
  let* d := dev_of p in
  on_w (d_ioctl d op data).

Definition dev_gettype (p : Z) : M V (Z * Z) :=
  let* d := dev_of p in
  if d_blocks d >? 0 then ret (0, S_IFBLK) else ret (0, S_IFCHR).

(** The [VOP_GETTYPE] of a vnode of this table is [dev_gettype]. *)
Definition dev_stat (p : Z) : M V (Z * stat) :=
  let* d := dev_of p in
  let* _ := vnode_check p VopGettype in
  let* (result, mode) := dev_gettype p in
  if negb (result =? 0) then ret (result, mkStat mode 0 0 0)
  else
    let size := if d_blocks d >? 0 then s32 (u32 (d_blocks d * d_blocksize d)) else 0 in
    ret (0, mkStat mode 1 size (d_blocks d)).

(** [pos] is converted to the unsigned type of [d_blocksize]. *)
Definition dev_tryseek (p pos : Z) : M V Z :=
  let* d := dev_of p in
  if d_blocks d >? 0 then
    if d_blocksize d =? 0 then halt Fault
    else if negb (u32 pos mod d_blocksize d =? 0) then ret EINVAL
    else if pos <? 0 then ret EINVAL
    else if u32 pos / d_blocksize d >=? d_blocks d then ret EINVAL
    else ret 0
  else ret ESPIPE.

Definition null_fsync : Z := 0.
Definition dev_mmap : Z := EUNIMP.

Definition dev_truncate (p len : Z) : M V Z :=
  let* d := dev_of p in
  if (d_blocks d >? 0) && (s32 (u32 (d_blocks d * d_blocksize d)) =? len) then ret 0 else ret EINVAL.

Definition dev_namefile (u : uio) : Z * uio := (0, u).

(** The calls on names: [null_creat], [null_symlink], [null_nameop],
    [null_link], [null_rename] and [dev_lookparent]. *)
Definition null_nameop : Z := ENOTDIR.

Definition dev_lookup (p : Z) (pathname : list Z) : M V (Z * Z) :=
  let* len := lift (strlen pathname) in
  if len >? 0 then ret (ENOENT, 0)
  else
    let* _ := vnode_incref p in
    ret (0, p).

(** [dev_vnode_ops] *)
Definition dev_table (p : Z) (q : request) : M V answer :=
  match q with
  | ReqOpen fl => let* r := dev_open p fl in ret (AnsCode r)
  | ReqRead u => let* (r, u) := dev_read p u in ret (AnsUio r u)
  | ReqReadlink _ | ReqGetdirentry _ => ret (AnsCode null_io)
  | ReqWrite u => let* (r, u) := dev_write p u in ret (AnsUio r u)
  | ReqIoctl op data => let* r := dev_ioctl p op data in ret (AnsCode r)
  | ReqStat => let* (r, st) := dev_stat p in ret (AnsStat r st)
  | ReqGettype => let* (r, m) := dev_gettype p in ret (AnsMode r m)
  | ReqTryseek pos => let* r := dev_tryseek p pos in ret (AnsCode r)
  | ReqFsync => ret (AnsCode null_fsync)
  | ReqMmap => ret (AnsCode dev_mmap)
  | ReqTruncate len => let* r := dev_truncate p len in ret (AnsCode r)
  | ReqNamefile u => let (r, u) := dev_namefile u in ret (AnsUio r u)
  | ReqLookup path => let* (r, q) := dev_lookup p path in ret (AnsVnode r q)
  | _ => ret (AnsCode null_nameop)
  end.

(** ** Calls through a vnode *)

(** The entry of the vnode's table, of devices or of a file system. *)
Definition dispatch_vop {A} (p : Z) (dev fs : M V A) : M V A :=
  let* v := get_vnode p in
  match vn_ops v with
  | Some o => if is_dev o then dev else fs
  | None => halt Fault
  end.

#[global] Instance vfs_ops : VnodeOps V := {
  vop_reclaim p := dispatch_vop p (dev_reclaim p) (on_w (vop_reclaim p));
  vop_close p := dispatch_vop p (dev_close p) (on_w (vop_close p));
}.

Definition VOP (p : Z) (op : vop) (q : request) : M V answer :=
  let* _ := vnode_check p op in
  dispatch_vop p (dev_table p q) (on_w (fs_call p q)).

Definition VOP_INCREF (p : Z) : M V unit := vnode_incref p.
Definition VOP_DECREF (p : Z) : M V unit := vnode_decref p.
Definition VOP_INCOPEN (p : Z) : M V unit := vnode_incopen p.
Definition VOP_DECOPEN (p : Z) : M V unit := vnode_decopen p.

(** A call that hands back nothing but its error code. *)
Definition vop_code (p : Z) (op : vop) (q : request) : M V Z :=
  let* a := VOP p op q in
  match a with
  | AnsCode r | AnsUio r _ | AnsVnode r _ | AnsStat r _ | AnsMode r _ | AnsName r _ _ => ret r
  end.

(** A call that hands back a vnode, or one with a name. *)
Definition vop_vnode (p : Z) (op : vop) (q : request) : M V (Z * Z) :=
  let* a := VOP p op q in
  match a with
  | AnsVnode r v | AnsName r v _ => ret (r, v)
  | AnsCode r | AnsUio r _ | AnsStat r _ | AnsMode r _ => ret (r, 0)
  end.

Definition VOP_LOOKUP (p : Z) (path : list Z) : M V (Z * Z) := vop_vnode p VopLookup (ReqLookup path).
Definition VOP_CREAT (p : Z) (name : list Z) (excl : bool) : M V (Z * Z) :=
  vop_vnode p VopCreat (ReqCreat name excl).
Definition VOP_LOOKPARENT (p : Z) (path buf : list Z) (buflen : Z) : M V (Z * Z * list Z) :=
  let* a := VOP p VopLookparent (ReqLookparent path buf buflen) in
  match a with
  | AnsName r v buf => ret (r, v, buf)
  | AnsCode r | AnsUio r _ | AnsVnode r _ | AnsStat r _ | AnsMode r _ => ret (r, 0, buf)
  end.
Definition VOP_GETTYPE (p : Z) : M V (Z * Z) :=
  let* a := VOP p VopGettype ReqGettype in
  match a with
  | AnsMode r m => ret (r, m)
  | AnsCode r | AnsUio r _ | AnsVnode r _ | AnsStat r _ | AnsName r _ _ => ret (r, 0)
  end.
Definition VOP_UIO (p : Z) (op : vop) (q : request) (u : uio) : M V (Z * uio) :=
  let* a := VOP p op q in
  match a with
  | AnsUio r u => ret (r, u)
  | AnsCode r | AnsVnode r _ | AnsStat r _ | AnsMode r _ | AnsName r _ _ => ret (r, u)
  end.

(** ** The table of devices ([vfslist.c]) *)

Definition the_knowndevs : M V (array Z) :=
  let* s := get in
  match knowndevs s with
  | Some a => ret a
  | None => halt Fault
  end.

(** [array_getguy(knowndevs, i)], and what it points to. *)
Definition kd_at (i : Z) : M V (Z * knowndev) :=
  let* a := the_knowndevs in
  let* g := lift (array_getguy a i) in
  match g with
  | Some p =>
      let* s := get in
      match kdtab s !! p with
      | Some kd => ret (p, kd)
      | None => halt Fault
      end
  | None => halt Fault
  end.

Definition num_knowndevs : M V Z := let* a := the_knowndevs in ret (array_getnum a).

(** [!strcmp(a, b)] *)
Definition streq (a b : list Z) : M V bool :=
  let* r := lift (strcmp a b) in
  ret (r =? 0).

Definition with_lock {A} (m : M V A) : M V A :=
  let* s := get in
  let* _ := lock_acquire (knowndevs_lock s) in
  let* a := m in
  let* _ := lock_release (knowndevs_lock s) in
  ret a.

Fixpoint sync_loop (n : nat) (i : Z) : M V unit :=
  match n with
  | O => ret tt
  | S n =>
      let* (_, kd) := kd_at i in
      let* _ := if negb (kd_fs kd =? 0) then on_w (fsop_sync (kd_fs kd)) else ret 0 in
      sync_loop n (i + 1)
  end.

Definition vfs_sync : M V Z :=
  with_lock (let* num := num_knowndevs in
             let* _ := sync_loop (Z.to_nat num) 0 in
             ret 0).

(** The device itself. *)
Definition getroot_device (kd : knowndev) : M V (Z * Z) :=
  let* _ := kassert (negb (kd_device kd =? 0)) in
  let* _ := VOP_INCREF (kd_vnode kd) in
  ret (0, kd_vnode kd).

(** What one entry of the table makes of the name: [None] goes on. *)
Definition getroot_entry (kd : knowndev) (devname : list Z) : M V (option (Z * Z)) :=
  let* found :=
    if negb (kd_fs kd =? 0) then
      let* volname := on_w (fsop_getvolname (kd_fs kd)) in
      let* named := streq (kd_name kd).2 devname in
      let* named := if (named : bool) then ret true
                    else match volname with
                         | Some vol => streq vol devname
                         | None => ret false
                         end in
      if named then let* v := on_w (fsop_getroot (kd_fs kd)) in ret (Some (0, v)) else ret None
    else
      match kd_rawname kd with
      | Some _ => let* named := streq (kd_name kd).2 devname in
                  if named then ret (Some (ENXIO, 0)) else ret None
      | None => ret None
      end in
  match found with
  | Some r => ret (Some r)
  | None =>
      let* named := streq (kd_name kd).2 devname in
      if named then
        let* _ := kassert (kd_fs kd =? 0) in
        let* _ := kassert (bool_decide (kd_rawname kd = None)) in
        let* r := getroot_device kd in ret (Some r)
      else
        match kd_rawname kd with
        | Some (_, raw) =>
            let* named := streq raw devname in
            if named then let* r := getroot_device kd in ret (Some r) else ret None
        | None => ret None
        end
  end.

Fixpoint getroot_loop (n : nat) (i : Z) (devname : list Z) : M V (Z * Z) :=
  match n with
  | O => ret (ENODEV, 0)
  | S n =>
      let* (_, kd) := kd_at i in
      let* r := getroot_entry kd devname in
      match r with
      | Some r => ret r
      | None => getroot_loop n (i + 1) devname
      end
  end.

(** The error code and the vnode. *)
Definition vfs_getroot (devname : list Z) : M V (Z * Z) :=
  with_lock (let* num := num_knowndevs in getroot_loop (Z.to_nat num) 0 devname).

Fixpoint getdevname_loop (n : nat) (i fs : Z) : M V (option (list Z)) :=
  match n with
  | O => ret None
  | S n =>
      let* (_, kd) := kd_at i in
      if kd_fs kd =? fs then ret (Some (kd_name kd).2) else getdevname_loop n (i + 1) fs
  end.

Definition vfs_getdevname (fs : Z) : M V (option (list Z)) :=
  let* _ := kassert (negb (fs =? 0)) in
  with_lock (let* num := num_knowndevs in getdevname_loop (Z.to_nat num) 0 fs).

(** "raw" *)
Definition raw_suffix : list Z := [114; 97; 119; 0].

(** The new block and the string; the address is 0 if there is no memory. *)
Definition mkrawname (name : list Z) : M V (Z * list Z) :=
  let* len := lift (strlen name) in
  let* p := on_w (kmalloc (u32 (len + 3 + 1))) in
  if p =? 0 then ret (0, [])
  else
    let* str := lift (strcpy (replicate (Z.to_nat (len + 3 + 1)) 0) name) in
    let* str := lift (strcat str raw_suffix) in
    ret (p, str).

Definition samestring (a b : option (list Z)) : M V bool :=
  match a, b with
  | Some a, Some b => streq a b
  | _, _ => ret false
  end.

Definition samestring3 (a b c d : option (list Z)) : M V bool :=
  let* r := samestring a b in
  if (r : bool) then ret true
  else
    let* r := samestring a c in
    if (r : bool) then ret true else samestring a d.

Fixpoint badnames_loop (n : nat) (i : Z) (n1 n2 n3 : option (list Z)) : M V bool :=
  match n with
  | O => ret false
  | S n =>
      let* (_, kd) := kd_at i in
      let* bad :=
        if negb (kd_fs kd =? 0) then
          let* volname := on_w (fsop_getvolname (kd_fs kd)) in
          samestring3 volname n1 n2 n3
        else ret false in
      if (bad : bool) then ret true
      else
        let* bad := samestring3 (snd <$> kd_rawname kd) n1 n2 n3 in
        let* bad := if (bad : bool) then ret true else samestring3 (Some (kd_name kd).2) n1 n2 n3 in
        if bad then ret true else badnames_loop n (i + 1) n1 n2 n3
  end.

Definition badnames (n1 n2 n3 : option (list Z)) : M V bool :=
  let* s := get in
  let* _ := kassert (negb (lock_do_i_hold (knowndevs_lock s) =? 0)) in
  let* num := num_knowndevs in
  badnames_loop (Z.to_nat num) 0 n1 n2 n3.

(** The vnode, 0 if there is no memory. *)
Definition dev_create_vnode (dev : Z) : M V Z :=
  let* p := on_w (kmalloc SIZEOF_VNODE) in
  if p =? 0 then ret 0
  else
    let* (result, v) := on_w (vnode_init dev_vnode_ops 0 dev) in
    if negb (result =? 0) then halt Panic
    else
      let* _ := put_vnode p v in
      ret p.

(** [kfree] of a pointer that may be null. *)
Definition kfree_if (p : Z) : M V unit := if p =? 0 then ret tt else on_w (kfree p).

(** [puke] *)
Definition doadd_fail (name rawname vnode : Z) : M V Z :=
  let* _ := kfree_if name in
  let* _ := kfree_if rawname in
  let* _ := kfree_if vnode in
  ret ENOMEM.

(** [dname] is the string without its zero byte. *)
Definition vfs_doadd (dname : list Z) (mountable : bool) (dev fs : Z) : M V Z :=
  let* (name, str) := on_w (kstrdup dname) in
  let str := str ++ [0] in
  if name =? 0 then doadd_fail 0 0 0
  else
    let* (rawname, rawstr) := if mountable then mkrawname str else ret (0, []) in
    if mountable && (rawname =? 0) then doadd_fail name 0 0
    else
      let* vnode := dev_create_vnode dev in
      if vnode =? 0 then doadd_fail name rawname 0
      else
        let* kd := on_w (kmalloc SIZEOF_KNOWNDEV) in
        if kd =? 0 then doadd_fail name rawname vnode
        else
          let raw := if mountable then Some (rawname, rawstr) else None in
          let* _ := modify (fun s => set_kdtab (<[kd := mkKd (name, str) raw dev vnode fs]> (kdtab s)) s) in
          let* volname := if negb (fs =? 0) then on_w (fsop_getvolname fs) else ret None in
          with_lock (let* bad := badnames (Some str) (snd <$> raw) volname in
                     if (bad : bool) then ret EEXIST
                     else
                       let* a := the_knowndevs in
                       let* (err, a) := on_w (array_add a kd) in
                       let* _ := modify (set_knowndevs a) in
                       ret err).

Definition vfs_adddev (devname : list Z) (dev : Z) (mountable : bool) : M V Z :=
  vfs_doadd devname mountable dev 0.
Definition vfs_addfs (devname : list Z) (fs : Z) : M V Z := vfs_doadd devname false 0 fs.

(** The entry, by the pointer to it. *)
Fixpoint findmount_loop (n : nat) (i : Z) (devname : list Z) : M V (option Z) :=
  match n with
  | O => ret None
  | S n =>
      let* (p, kd) := kd_at i in
      match kd_rawname kd with
      | None => findmount_loop n (i + 1) devname
      | Some _ =>
          let* same := streq devname (kd_name kd).2 in
          if (same : bool) then ret (Some p) else findmount_loop n (i + 1) devname
      end
  end.

Definition findmount (devname : list Z) : M V (option Z) :=
  let* s := get in
  let* _ := kassert (negb (lock_do_i_hold (knowndevs_lock s) =? 0)) in
  let* num := num_knowndevs in
  findmount_loop (Z.to_nat num) 0 devname.

Definition the_kd (p : Z) : M V knowndev :=
  let* s := get in
  match kdtab s !! p with
  | Some kd => ret kd
  | None => halt Fault
  end.

Definition set_kd_fs (p fs : Z) : M V unit :=
  let* kd := the_kd p in
  modify (fun s =>
    set_kdtab (<[p := mkKd (kd_name kd) (kd_rawname kd) (kd_device kd) (kd_vnode kd) fs]> (kdtab s)) s).

(** [mountfunc] takes the device; it answers an error code and the new file
    system. *)
Definition vfs_mount (devname : list Z) (mountfunc : Z -> M W (Z * Z)) : M V Z :=
  with_lock
    (let* r := findmount devname in
     match r with
     | None => ret ENODEV
     | Some p =>
         let* kd := the_kd p in
         if negb (kd_fs kd =? 0) then ret EBUSY
         else
           let* _ := kassert (bool_decide (kd_rawname kd <> None)) in
           let* _ := kassert (negb (kd_device kd =? 0)) in
           let* (result, fs) := on_w (mountfunc (kd_device kd)) in
           if negb (result =? 0) then ret result
           else
             let* _ := kassert (negb (fs =? 0)) in
             let* _ := set_kd_fs p fs in
             let* _ := on_w (fsop_getvolname fs) in
             ret 0
     end).

Definition vfs_unmount (devname : list Z) : M V Z :=
  with_lock
    (let* r := findmount devname in
     match r with
     | None => ret ENODEV
     | Some p =>
         let* kd := the_kd p in
         if kd_fs kd =? 0 then ret EINVAL
         else
           let* _ := kassert (bool_decide (kd_rawname kd <> None)) in
           let* _ := kassert (negb (kd_device kd =? 0)) in
           let* result := on_w (fsop_sync (kd_fs kd)) in
           if negb (result =? 0) then ret result
           else
             let* result := on_w (fsop_unmount (kd_fs kd)) in
             if negb (result =? 0) then ret result
             else
               let* _ := set_kd_fs p 0 in
               ret 0
     end).

(** One entry of [vfs_unmountall]: a sync that fails is tried once more. *)
Definition unmount_entry (p : Z) (kd : knowndev) : M V unit :=
  if bool_decide (kd_rawname kd = None) then ret tt
  else if kd_fs kd =? 0 then ret tt
  else
    let* result := on_w (fsop_sync (kd_fs kd)) in
    let* result := if negb (result =? 0) then on_w (fsop_sync (kd_fs kd)) else ret 0 in
    if negb (result =? 0) then ret tt
    else
      let* result := on_w (fsop_unmount (kd_fs kd)) in
      if result =? EBUSY then ret tt
      else if negb (result =? 0) then ret tt
      else set_kd_fs p 0.

Fixpoint unmountall_loop (n : nat) (i : Z) : M V unit :=
  match n with
  | O => ret tt
  | S n =>
      let* (p, kd) := kd_at i in
      let* _ := unmount_entry p kd in
      unmountall_loop n (i + 1)
  end.

Definition vfs_unmountall : M V Z :=
  with_lock (let* num := num_knowndevs in
             let* _ := unmountall_loop (Z.to_nat num) 0 in
             ret 0).

(** ** The null device ([devnull.c]) *)

Definition nullopen (flags : Z) : M W Z := ret 0.
Definition nullclose : M W Z := ret 0.
Definition nullio (u : uio) : M W (Z * uio) := ret (0, if is_write u then set_resid 0 u else u).
Definition nullioctl (op data : Z) : M W Z := ret EINVAL.
Definition null_device : device W := mkDevice nullopen nullclose nullio nullioctl 0 1.

(** "null" *)
Definition null_name : list Z := [110; 117; 108; 108].

Definition devnull_create : M V unit :=
  let* dev := on_w (kmalloc SIZEOF_DEVICE) in
  if dev =? 0 then halt Panic
  else
    let* _ := modify (fun s => set_devtab (<[dev := null_device]> (devtab s)) s) in
    let* result := vfs_adddev null_name dev false in
    if negb (result =? 0) then halt Panic else ret tt.

(** ** The current directory ([vfscwd.c]) *)

Definition vfs_getcurdir : M V (Z * Z) :=
  let* s := get in
  if negb (t_cwd s =? 0) then
    let* _ := VOP_INCREF (t_cwd s) in
    ret (0, t_cwd s)
  else ret (ENOENT, 0).

Definition vfs_setcurdir (dir : Z) : M V Z :=
  let* (result, vtype) := VOP_GETTYPE dir in
  if negb (result =? 0) then ret result
  else if negb (S_ISDIR vtype) then ret ENOTDIR
  else
    let* _ := VOP_INCREF dir in
    let* s := get in
    let old := t_cwd s in
    let* _ := modify (set_cwd dir) in
    let* _ := if negb (old =? 0) then VOP_DECREF old else ret tt in
    ret 0.

Definition vfs_clearcurdir : M V Z :=
  let* s := get in
  let old := t_cwd s in
  let* _ := modify (set_cwd 0) in
  let* _ := if negb (old =? 0) then VOP_DECREF old else ret tt in
  ret 0.

(** ** Path names ([vfslookup.c]) *)

Definition COLON : Z := 58.
Definition SLASH : Z := 47.

(** "bootfs_lock" *)
Definition bootfs_lock_name : list Z := [98; 111; 111; 116; 102; 115; 95; 108; 111; 99; 107].

Definition vfs_initbootfs : M V unit :=
  let* lk := on_w (lock_create bootfs_lock_name) in
  match lk with
  | None => halt Panic
  | Some _ => modify (set_bootfs_lock lk)
  end.

Definition change_bootfs (newguy : Z) : M V unit :=
  let* s := get in
  let* _ := lock_acquire (bootfs_lock s) in
  let oldguy := bootfs_vnode s in
  let* _ := modify (set_bootfs newguy) in
  let* _ := lock_release (bootfs_lock s) in
  if negb (oldguy =? 0) then VOP_DECREF oldguy else ret tt.

Definition vfs_clearbootfs : M V unit := change_bootfs 0.

(** The first loop of [getdevice]: [colon] and [slash]. *)
Fixpoint find_sep (fuel : nat) (path : list Z) (i : Z) : res (Z * Z) :=
  match fuel with
  | O => Stop OutOfFuel
  | S n =>
      let? c := rd path i in
      if c =? 0 then Ret (-1, -1)
      else if c =? COLON then Ret (i, -1)
      else if c =? SLASH then Ret (-1, i)
      else find_sep n path (i + 1)
  end.

(** [while (path[i+1]=='/') i++], and the last [i]. *)
Fixpoint skip_slashes (fuel : nat) (path : list Z) (i : Z) : res Z :=
  match fuel with
  | O => Stop OutOfFuel
  | S n =>
      let? c := rd path (i + 1) in
      if c =? SLASH then skip_slashes n path (i + 1) else Ret i
  end.

(** The error code, the buffer, [*subpath] as an index into it, and [*startvn]. *)
Definition getdevice (path : list Z) : M V (Z * list Z * Z * Z) :=
  let fuel := S (length path) in
  let* (colon, slash) := lift (find_sep fuel path 0) in
  if (colon <? 0) && negb (slash =? 0) then
    let* (result, vn) := vfs_getcurdir in
    ret (result, path, 0, vn)
  else if colon >? 0 then
    let* path := lift (wr path colon 0) in
    let* colon := lift (skip_slashes fuel path colon) in
    let* (result, vn) := vfs_getroot path in
    ret (result, path, colon + 1, vn)
  else
    let* _ := kassert ((colon =? 0) || (slash =? 0)) in
    let* c := lift (rd path 0) in
    let* (result, vn) :=
      if c =? SLASH then
        let* s := get in
        let* _ := lock_acquire (bootfs_lock s) in
        if bootfs_vnode s =? 0 then
          let* _ := lock_release (bootfs_lock s) in
          ret (ENOENT, 0)
        else
          let* _ := VOP_INCREF (bootfs_vnode s) in
          let* _ := lock_release (bootfs_lock s) in
          ret (0, bootfs_vnode s)
      else
        let* _ := kassert (c =? COLON) in
        let* (result, vn) := vfs_getcurdir in
        if negb (result =? 0) then ret (result, 0)
        else
          let* v := get_vnode vn in
          let* _ := kassert (negb (vn_fs v =? 0)) in
          let* root := on_w (fsop_getroot (vn_fs v)) in
          let* _ := VOP_DECREF vn in
          ret (0, root) in
    if negb (result =? 0) then ret (result, path, 0, vn)
    else
      let* i := lift (skip_slashes fuel path 0) in
      ret (0, path, i + 1, vn).

(** The error code, the vnode and the buffer for the last name. *)
Definition vfs_lookparent (path buf : list Z) (buflen : Z) : M V (Z * Z * list Z) :=
  let* (result, path, sub, startvn) := getdevice path in
  if negb (result =? 0) then ret (result, 0, buf)
  else
    let path := drop (Z.to_nat sub) path in
    let* len := lift (strlen path) in
    let* (result, v, buf) :=
      if len =? 0 then ret (EINVAL, 0, buf)
      else VOP_LOOKPARENT startvn path buf buflen in
    let* _ := VOP_DECREF startvn in
    ret (result, v, buf).

Definition vfs_lookup (path : list Z) : M V (Z * Z) :=
  let* (result, path, sub, startvn) := getdevice path in
  if negb (result =? 0) then ret (result, 0)
  else
    let path := drop (Z.to_nat sub) path in
    let* len := lift (strlen path) in
    if len =? 0 then ret (0, startvn)
    else
      let* (result, v) := VOP_LOOKUP startvn path in
      let* _ := VOP_DECREF startvn in
      ret (result, v).

Definition vfs_chdir (path : list Z) : M V Z :=
  let* (result, vn) := vfs_lookup path in
  if negb (result =? 0) then ret result
  else
    let* result := vfs_setcurdir vn in
    let* _ := VOP_DECREF vn in
    ret result.

(** [snprintf(tmp, sizeof(tmp)-1, "%s", fsname)]: the string, cut to what the
    buffer of [NAME_MAX+1] bytes takes, and what is left of the buffer. *)
Definition copy_fsname (junk fsname : list Z) : list Z :=
  let str := take (Z.to_nat (NAME_MAX - 1)) fsname in
  str ++ [0] ++ drop (length str + 1) junk.

(** [fsname] is the string without its zero byte, [junk] the buffer before. *)
Definition vfs_setbootfs (junk fsname : list Z) : M V Z :=
  let tmp := copy_fsname junk fsname in
  let* colon := lift (strchr tmp COLON) in
  let chdir tmp :=
    let* result := vfs_chdir tmp in
    if negb (result =? 0) then ret result
    else
      let* (result, newguy) := vfs_getcurdir in
      if negb (result =? 0) then ret result
      else
        let* _ := change_bootfs newguy in
        ret 0 in
  match colon with
  | Some i =>
      let* len := lift (strlen (drop (Z.to_nat i) tmp)) in
      if len >? 0 then ret EINVAL else chdir tmp
  | None =>
      let* tmp := lift (strcat tmp [COLON; 0]) in
      chdir tmp
  end.

(** The name of the current directory is written to the [uio]. *)
Definition vfs_getcwd (u : uio) : M V (Z * uio) :=
  let* _ := kassert (is_read u) in
  let* (result, cwd) := vfs_getcurdir in
  if negb (result =? 0) then ret (result, u)
  else
    let* v := get_vnode cwd in
    let* _ := kassert (negb (vn_fs v =? 0)) in
    let* vol := on_w (fsop_getvolname (vn_fs v)) in
    let* name := match vol with Some name => ret (Some name) | None => vfs_getdevname (vn_fs v) end in
    match name with
    | None => halt Panic
    | Some name =>
        let* len := lift (strlen name) in
        let* (result, _, u) := lift (uiomove cur_space name 0 len u) in
        let* (result, u) :=
          if negb (result =? 0) then ret (result, u)
          else
            let* (result, _, u) := lift (uiomove cur_space [COLON] 0 1 u) in
            if negb (result =? 0) then ret (result, u)
            else VOP_UIO cwd VopNamefile (ReqNamefile u) u in
        let* _ := VOP_DECREF cwd in
        ret (result, u)
    end.

(** ** Operations on paths ([vfspath.c])

    [name] is the buffer of [NAME_MAX+1] bytes on the stack. *)

Definition NAME_SIZE : Z := NAME_MAX + 1.

Definition open_trunc (vn : Z) (canwrite : bool) : M V (Z * Z) :=
  let* result := if canwrite then vop_code vn VopTruncate (ReqTruncate 0) else ret EINVAL in
  if negb (result =? 0) then
    let* _ := VOP_DECOPEN vn in
    let* _ := VOP_DECREF vn in
    ret (result, 0)
  else ret (0, vn).

(** The error code and the vnode. *)
Definition vfs_open (name path : list Z) (openflags : Z) : M V (Z * Z) :=
  let how := Z.land openflags O_ACCMODE in
  if negb ((how =? O_RDONLY) || (how =? O_WRONLY) || (how =? O_RDWR)) then ret (EINVAL, 0)
  else
    let canwrite := negb (how =? O_RDONLY) in
    let* (result, vn) :=
      if negb (Z.land openflags O_CREAT =? 0) then
        let excl := negb (Z.land openflags O_EXCL =? 0) in
        let* (result, dir, name) := vfs_lookparent path name NAME_SIZE in
        if negb (result =? 0) then ret (result, 0)
        else
          let* (result, vn) := VOP_CREAT dir name excl in
          let* _ := VOP_DECREF dir in
          ret (result, vn)
      else vfs_lookup path in
    if negb (result =? 0) then ret (result, 0)
    else
      let* _ := kassert (negb (vn =? 0)) in
      let* result := vop_code vn VopOpen (ReqOpen openflags) in
      if negb (result =? 0) then
        let* _ := VOP_DECREF vn in
        ret (result, 0)
      else
        let* _ := VOP_INCOPEN vn in
        if negb (Z.land openflags O_TRUNC =? 0) then open_trunc vn canwrite else ret (0, vn).

Definition vfs_close (vn : Z) : M V unit :=
  let* _ := VOP_DECOPEN vn in
  VOP_DECREF vn.

(** The common frame of [vfs_remove], [vfs_symlink], [vfs_mkdir] and
    [vfs_rmdir]: a call on the directory and the last name of a path. *)
Definition on_parent (name path : list Z) (call : Z -> list Z -> M V Z) : M V Z :=
  let* (result, dir, name) := vfs_lookparent path name NAME_SIZE in
  if negb (result =? 0) then ret result
  else
    let* result := call dir name in
    let* _ := VOP_DECREF dir in
    ret result.

Definition vfs_remove (name path : list Z) : M V Z :=
  on_parent name path (fun dir name => vop_code dir VopRemove (ReqRemove name)).
Definition vfs_symlink (name contents path : list Z) : M V Z :=
  on_parent name path (fun dir name => vop_code dir VopSymlink (ReqSymlink name contents)).
Definition vfs_mkdir (name path : list Z) : M V Z :=
  on_parent name path (fun dir name => vop_code dir VopMkdir (ReqMkdir name)).
Definition vfs_rmdir (name path : list Z) : M V Z :=
  on_parent name path (fun dir name => vop_code dir VopRmdir (ReqRmdir name)).

(** The end of [vfs_rename] and [vfs_link]: a call on two vnodes that must be
    on the same file system. *)
Definition same_fs (old new : Z) (call : M V Z) : M V Z :=
  let* vo := get_vnode old in
  let* vn := get_vnode new in
  let* result :=
    if (vn_fs vo =? 0) || (vn_fs vn =? 0) || negb (vn_fs vo =? vn_fs vn) then ret EXDEV else call in
  let* _ := VOP_DECREF new in
  let* _ := VOP_DECREF old in
  ret result.

Definition vfs_rename (oldname newname oldpath newpath : list Z) : M V Z :=
  let* (result, olddir, oldname) := vfs_lookparent oldpath oldname NAME_SIZE in
  if negb (result =? 0) then ret result
  else
    let* (result, newdir, newname) := vfs_lookparent newpath newname NAME_SIZE in
    if negb (result =? 0) then
      let* _ := VOP_DECREF olddir in
      ret result
    else same_fs olddir newdir (vop_code olddir VopRename (ReqRename oldname newdir newname)).

Definition vfs_link (newname oldpath newpath : list Z) : M V Z :=
  let* (result, oldfile) := vfs_lookup oldpath in
  if negb (result =? 0) then ret result
  else
    let* (result, newdir, newname) := vfs_lookparent newpath newname NAME_SIZE in
    if negb (result =? 0) then
      let* _ := VOP_DECREF oldfile in
      ret result
    else same_fs oldfile newdir (vop_code newdir VopLink (ReqLink newname oldfile)).

Definition vfs_readlink (path : list Z) (u : uio) : M V (Z * uio) :=
  let* (result, vn) := vfs_lookup path in
  if negb (result =? 0) then ret (result, u)
  else
    let* (result, u) := VOP_UIO vn VopReadlink (ReqReadlink u) u in
    let* _ := VOP_DECREF vn in
    ret (result, u).

(** "knowndevs" *)
Definition knowndevs_lock_name : list Z := [107; 110; 111; 119; 110; 100; 101; 118; 115].

Definition vfs_bootstrap : M V unit :=
  let* a := on_w array_create in
  match a with
  | None => halt Panic
  | Some a =>
      let* _ := modify (set_knowndevs a) in
      let* lk := on_w (lock_create knowndevs_lock_name) in
      match lk with
      | None => halt Panic
      | Some _ =>
          let* _ := modify (set_knowndevs_lock lk) in
          let* _ := vfs_initbootfs in
          devnull_create
      end
  end.
End Vfs.
