(* ===== verification/VfsRefs.v ===== *)
(** * References to vnodes in the VFS layer

    [vnode.h] and [fs.h] say which operations hand back a vnode with a
    reference the caller must give up.  The class [FsLaws] states that contract
    for the file systems below; the lemmas show that the path operations of
    [vfslookup.c] and [vfspath.c] give up every reference they take, on every
    branch, and hand on exactly those they promise.

    [grants n w w' ps os]: between [w] and [w'] every vnode that was in use
    gained as many references as it occurs in [ps] and was opened as often as
    it occurs in [os], and no count rose by more than [n].  [took] is the same between states of the VFS layer. *)

From S2P Require Import Prelude.
From S2P Require Import Array.
From S2P Require Import Cstring.
From S2P Require Import Uio.
From S2P Require Import Thread.
From S2P Require Import Vnode.
From S2P Require Import Sfs.
From S2P Require Import SfsOps.
From S2P Require Import Vfs.

(** ** Counting *)

Fixpoint cnt (q : Z) (ps : list Z) : Z :=
  match ps with
  | [] => 0
  | p :: ps => (if p =? q then 1 else 0) + cnt q ps
  end.

Lemma cnt_app q ps qs : cnt q (ps ++ qs) = cnt q ps + cnt q qs.
Proof. induction ps as [|p ps IH]; simpl; lia. Qed.

Lemma cnt_nonneg q ps : 0 <= cnt q ps.
Proof. induction ps as [|p ps IH]; simpl; [done|]. destruct (p =? q); lia. Qed.

Lemma cnt_elem q ps : q ∈ ps -> 1 <= cnt q ps.
Proof.
  pose proof (cnt_nonneg q) as Hn.
  induction ps as [|p ps IH]; [by rewrite elem_of_nil|]. rewrite elem_of_cons. simpl.
  specialize (Hn ps). destruct (Z.eqb_spec p q); intros [->|?]; auto; lia.
Qed.

(** ** What a file system keeps *)

Class FsView (W VO : Type) := {
  fs_panics : Prop;                     (* whether an operation may panic *)
  fs_ok : W -> Prop;
  vnode_of : W -> Z -> option (vnode VO);
  mounted : W -> Z -> Prop;
  fs_vol : W -> Z -> option (list Z);   (* the name of the volume *)
  kept : W -> Z -> Z;                   (* references a file system has to its own vnodes *)
}.

Section Grants.
Context {W VO : Type} `{!FsWorld W VO, !FsView W VO}.
Implicit Types w : W.

Definition refs w (p : Z) : Z := match vnode_of w p with Some v => vn_refcount v | None => 0 end.

Definition opens w (p : Z) : Z := match vnode_of w p with Some v => vn_opencount v | None => 0 end.

(** What a vnode is, without its counts. *)
Definition kind w (p : Z) : option (option VO * Z * Z) :=
  (fun v => (vn_ops v, vn_fs v, vn_data v)) <$> vnode_of w p.

Definition devnode w (p d : Z) : Prop :=
  exists o fs, kind w p = Some (Some o, fs, d) /\ is_dev o = true.

(** A device vnode without a device, as [vfs_addfs] makes them, cannot be used. *)
Definition usable w (p : Z) : Prop := ~ devnode w p 0.

Record grants (n : Z) (w w' : W) (ps os : list Z) : Prop := {
  g_ok : fs_ok w';
  g_kind : forall q, 0 < refs w q -> kind w' q = kind w q;
  g_dev : forall q d, devnode w' q d -> devnode w q d;
  g_mounted : forall fs, mounted w fs -> mounted w' fs;
  g_live : forall q, 0 < refs w q -> refs w' q = refs w q + cnt q ps;
  g_new : forall q, cnt q ps <= refs w' q;
  g_top : forall q, refs w' q <= refs w q + n;
  g_opens : forall q, opens w' q = opens w q + cnt q os;
  g_use : forall q, 0 < cnt q ps -> usable w' q;
  g_kept : forall q, kept w' q = kept w q;
}.

Definition within (os ps : list Z) : Prop := forall q, cnt q os <= cnt q ps.

Lemma grants_trans n m w w1 w2 ps os qs us :
  grants n w w1 ps os -> grants m w1 w2 qs us -> grants (n + m) w w2 (qs ++ ps) (us ++ os).
Proof.
  intros [_ K D M L N T P U Kp] [O' K' D' M' L' N' T' P' U' Kp'].
  assert (Lv : forall q, 0 < refs w q -> 0 < refs w1 q).
  { intros q Hq. rewrite (L q Hq). pose proof (cnt_nonneg q ps). lia. }
  constructor; auto.
  - intros q Hq. rewrite K', K; auto.
  - intros q Hq. rewrite cnt_app, (L' q (Lv q Hq)), (L q Hq). lia.
  - intros q. rewrite cnt_app. specialize (N q). specialize (N' q).
    destruct (decide (0 < refs w1 q)) as [Hq|]; [rewrite (L' q Hq)|]; lia.
  - intros q. specialize (T q). specialize (T' q). lia.
  - intros q. rewrite cnt_app, P', P. lia.
  - intros q. rewrite cnt_app. intros Hc. destruct (decide (0 < cnt q qs)) as [Hq|Hq]; [auto|].
    intros Hd. apply (U q); [lia|]. auto.
  - intros q. by rewrite Kp', Kp.
Qed.

Lemma grants_cnt n m w w' ps os qs :
  grants n w w' ps os -> n <= m -> (forall q, cnt q ps = cnt q qs) -> grants m w w' qs os.
Proof.
  intros [] Hn Hc. constructor; try done; intros q; rewrite <- ?Hc; auto.
  specialize (g_top0 q). lia.
Qed.

(** There is room for another reference to any vnode. *)
Definition roomy w : Prop := forall q, refs w q < 2 ^ 31 - 1.

(** The names and vnodes an operation is asked about are valid ([vnode.h]). *)
Definition a_string (s : list Z) : Prop := exists str, is_cstr s str.

Definition req_ok w (p : Z) (q : request) : Prop :=
  match q with
  | ReqOpen _ | ReqTruncate _ | ReqGettype | ReqReadlink _ => True
  | ReqCreat name _ | ReqRemove name | ReqMkdir name | ReqRmdir name | ReqLookup name => a_string name
  | ReqSymlink name contents => a_string name /\ a_string contents
  | ReqLink name f => a_string name /\ 0 < refs w f
  | ReqRename n1 d2 n2 => a_string n1 /\ a_string n2 /\ 0 < refs w d2
  | ReqLookparent path buf n => a_string path /\ Z.of_nat (length buf) = n
  | _ => False
  end.

(** The vnode the caller gets with a reference. *)
Definition handed (a : answer) : list Z :=
  match a with
  | AnsVnode r v | AnsName r v _ => if r =? 0 then [v] else []
  | _ => []
  end.

(** An operation that promises a vnode hands one back or fails;
    [vop_lookparent] leaves the last name in the buffer, and only a file
    system has directories. *)
Definition ans_ok w (p : Z) (q : request) (a : answer) : Prop :=
  match q, a with
  | ReqLookparent _ buf _, AnsName r _ buf' => length buf' = length buf /\ (r = 0 -> a_string buf')
  | ReqLookup _, AnsVnode _ _ | ReqCreat _ _, AnsVnode _ _ => True
  | ReqLookparent _ _ _, AnsCode r | ReqLookup _, AnsCode r | ReqCreat _ _, AnsCode r => r <> 0
  | ReqLookparent _ _ _, _ | ReqLookup _, _ | ReqCreat _ _, _ => False
  | ReqGettype, AnsMode r m =>
      r = 0 -> S_ISDIR m = true -> exists o fs d, kind w p = Some (o, fs, d) /\ fs <> 0
  | _, _ => handed a = []
  end.
End Grants.

(** ** The contract of the file systems *)

Class FsLaws (W VO : Type) `{!VnodeStore W VO, !VnodeOps W, !FsWorld W VO, !FsView W VO} := {
  fs_get (w : W) p v : vnode_of w p = Some v -> get_vnode p w = Ret (v, w);
  fs_wf (w : W) p v : fs_ok w -> vnode_of w p = Some v -> 0 < vn_refcount v ->
    p <> 0 /\ p <> DEADBEEF /\ vn_fs v <> DEADBEEF /\
    (vn_fs v <> 0 -> mounted w (vn_fs v)) /\
    exists o, vn_ops v = Some o /\ vop_magic o = VOP_MAGIC;
  fs_nonneg (w : W) p : fs_ok w -> 0 <= refs w p /\ 0 <= opens w p;
  fs_keeps (w : W) p : fs_ok w -> 0 <= kept w p <= refs w p;
  fs_counts (w : W) p v r o : fs_ok w -> vnode_of w p = Some v -> 0 < vn_refcount v -> 0 < r -> 0 <= o -> kept w p <= r ->
    exists w', put_vnode p (set_opencount o (set_refcount r v)) w = Ret (tt, w') /\ fs_ok w' /\
      (forall q, vnode_of w' q = if decide (q = p) then Some (set_opencount o (set_refcount r v)) else vnode_of w q) /\
      (forall fs, mounted w fs -> mounted w' fs) /\ (forall q, kept w' q = kept w q);
  fs_reclaim (w : W) p : fs_ok w -> refs w p = 1 -> opens w p = 0 -> kept w p = 0 -> (forall d, ~ devnode w p d) ->
    wpo fs_panics (vop_reclaim p) w (fun _ w' =>
      fs_ok w' /\ (forall q, q <> p -> vnode_of w' q = vnode_of w q) /\
      refs w' p <= 1 /\ opens w' p = 0 /\ (forall d, ~ devnode w' p d) /\
      (forall fs, mounted w fs -> mounted w' fs) /\ (forall q, kept w' q = kept w q));
  fs_close (w : W) p : fs_ok w -> 0 < refs w p -> (forall d, ~ devnode w p d) ->
    wpo fs_panics (vop_close p) w (fun _ w' => grants 0 w w' [] []);
  fs_calls (w : W) p q : fs_ok w -> roomy w -> 0 < refs w p -> (forall d, ~ devnode w p d) -> req_ok w p q ->
    wpo fs_panics (fs_call p q) w (fun a w' => grants 1 w w' (handed a) [] /\ ans_ok w p q a);
  fs_root (w : W) fs : fs_ok w -> roomy w -> mounted w fs ->
    wpo fs_panics (fsop_getroot fs) w (fun v w' => grants 1 w w' [v] []);
  fs_volname (w : W) fs : fs_ok w -> mounted w fs ->
    fsop_getvolname fs w = Ret (fs_vol w fs, w) /\ forall vol, fs_vol w fs = Some vol -> a_string vol;
}.

(** ** The VFS layer *)

Section Refs.
Context {W VO : Type} `{!Allocator W, !VnodeStore W VO, !VnodeOps W, !FsWorld W VO, !FsView W VO, !FsLaws W VO}.
Context `{!CurSpace}.
Implicit Types (s : vfssys W) (w : W).

(** A device keeps no references. *)
Definition dev_ok (d : device W) : Prop :=
  forall w, fs_ok w ->
    (forall fl, wpo fs_panics (d_open d fl) w (fun _ w' => grants 0 w w' [] [])) /\
    wpo fs_panics (d_close d) w (fun _ w' => grants 0 w w' [] []).

Definition kd_ok w (kd : knowndev) : Prop :=
  a_string (kd_name kd).2 /\
  match kd_rawname kd with Some (_, raw) => a_string raw /\ kd_device kd <> 0 | None => True end /\
  (kd_device kd <> 0 -> usable w (kd_vnode kd)) /\
  if decide (kd_fs kd = 0) then kd_device kd <> 0 else mounted w (kd_fs kd).

(** The references the layer holds. *)
Definition entries s : list (option knowndev) :=
  match knowndevs s with
  | Some a => (fun g => g ≫= fun p => kdtab s !! p) <$> contents a
  | None => []
  end.
Definition roots s : list Z :=
  t_cwd s :: bootfs_vnode s :: omap (fmap kd_vnode) (entries s).

Record vfs_ok s : Prop := {
  vo_fs : fs_ok (vw s);
  vo_list : exists a, knowndevs s = Some a /\ array_wf a;
  vo_kds : Forall (fun e => exists kd, e = Some kd /\ kd_ok (vw s) kd /\ kd_vnode kd <> 0) (entries s);
  vo_dev : forall q d, devnode (vw s) q d -> d <> 0 -> exists dv, devtab s !! d = Some dv /\ dev_ok dv;
  vo_cwd : t_cwd s <> 0 -> exists o fs d, kind (vw s) (t_cwd s) = Some (o, fs, d) /\ fs <> 0;
  vo_use : (t_cwd s <> 0 -> usable (vw s) (t_cwd s)) /\ (bootfs_vnode s <> 0 -> usable (vw s) (bootfs_vnode s));
  vo_refs : forall q, q <> 0 -> cnt q (roots s) + opens (vw s) q + kept (vw s) q <= refs (vw s) q;
}.

Definition small s : Prop := forall q, refs (vw s) q < 2 ^ 31 - 16.

Definition took s (n : Z) (ps os : list Z) (s' : vfssys W) : Prop :=
  exists w', s' = set_vw w' s /\ grants n (vw s) w' ps os.

Definition fits (n : Z) : Prop := 0 <= n < 15.

Lemma took_small n ps os s s' : took s n ps os s' -> small s -> fits n -> roomy (vw s').
Proof.
  intros (w & -> & G) Hs Hn q. pose proof (Hs q). pose proof (g_top _ _ _ _ _ G q). unfold fits in Hn. simpl. lia.
Qed.

Lemma wp_calm {T A} p (m : M T A) (t : T) (Q : A -> T -> Prop) : wp m t Q -> wpo p m t Q.
Proof. intros Hm. eapply wp_weaken; [exact Hm|done]. Qed.

Lemma wp_on_w {A} p (m : M W A) s (Q : A -> vfssys W -> Prop) :
  wpo p m (vw s) (fun a w' => Q a (set_vw w' s)) -> wpo p (on_w m) s Q.
Proof. unfold wpx, on_w. by destruct (m (vw s)) as [[]|[]]. Qed.

Lemma grants_refl w : fs_ok w -> grants 0 w w [] [].
Proof.
  intros Hw. constructor; try done; intros q; pose proof (fs_nonneg w q Hw); simpl; lia.
Qed.

Lemma took_refl s : fs_ok (vw s) -> took s 0 [] [] s.
Proof. intros Hw. exists (vw s). split; [by destruct s|]. by apply grants_refl. Qed.

Lemma took_trans n m ps os qs us s s1 s2 :
  took s n ps os s1 -> took s1 m qs us s2 -> took s (n + m) (qs ++ ps) (us ++ os) s2.
Proof.
  intros (w1 & -> & G) (w2 & -> & G2). exists w2. split; [done|]. by eapply grants_trans.
Qed.

Lemma took_cnt n m ps qs os s s' :
  took s n ps os s' -> n <= m -> (forall q, cnt q ps = cnt q qs) -> took s m qs os s'.
Proof. intros (w & -> & G) ??. exists w. split; [done|]. by eapply grants_cnt. Qed.

Lemma took_live n ps os s s' q :
  took s n ps os s' -> 0 < refs (vw s) q \/ q ∈ ps -> 0 < refs (vw s') q.
Proof.
  intros (w & -> & G) [Hq|Hq]; simpl.
  - rewrite (g_live _ _ _ _ _ G q Hq). pose proof (cnt_nonneg q ps). lia.
  - pose proof (cnt_elem _ _ Hq). pose proof (g_new _ _ _ _ _ G q). lia.
Qed.

Lemma took_use n ps os s s' q : took s n ps os s' -> q ∈ ps -> usable (vw s') q.
Proof. intros (w & -> & G) Hq. apply (g_use _ _ _ _ _ G). pose proof (cnt_elem _ _ Hq). lia. Qed.

Lemma entries_set_vw w s : entries (set_vw w s) = entries s.
Proof. done. Qed.

Lemma took_ok n ps os s s' : vfs_ok s -> took s n ps os s' -> within os ps -> vfs_ok s'.
Proof.
  intros [] (w & -> & G) Hw. constructor.
  - apply G.
  - done.
  - rewrite entries_set_vw. eapply Forall_impl; [exact vo_kds0|]. intros e (kd & -> & (Hn & Hr & Hu & Hf) & Hv).
    exists kd. split_and!; [done| |done]. split_and!; [done|done| |]; simpl.
    { intros Hd0 Hd. by apply Hu, (g_dev _ _ _ _ _ G). }
    destruct (decide _); [done|]. by apply (g_mounted _ _ _ _ _ G).
  - intros q d Hd. apply (vo_dev0 q). by apply (g_dev _ _ _ _ _ G).
  - intros Hc. simpl in Hc |- *. destruct (vo_cwd0 Hc) as (o & fs & d & K & ?). exists o, fs, d.
    rewrite (g_kind _ _ _ _ _ G); [done|]. specialize (vo_refs0 _ Hc). revert vo_refs0. unfold roots. simpl.
    rewrite Z.eqb_refl. intros ?. pose proof (cnt_nonneg (t_cwd s) (bootfs_vnode s :: omap (fmap kd_vnode) (entries s))).
    destruct (fs_nonneg _ (t_cwd s) vo_fs0). pose proof (fs_keeps _ (t_cwd s) vo_fs0). simpl in *. lia.
  - destruct vo_use0 as [Hc Hb]. split; intros H0 Hd; [apply Hc|apply Hb]; try done; by apply (g_dev _ _ _ _ _ G).
  - intros q Hq. change (roots (set_vw w s)) with (roots s). change (vw (set_vw w s)) with w. specialize (vo_refs0 q Hq).
    rewrite (g_opens _ _ _ _ _ G q), (g_kept _ _ _ _ _ G q). specialize (Hw q). pose proof (fs_keeps _ q vo_fs0). pose proof (g_new _ _ _ _ _ G q).
    destruct (fs_nonneg _ q vo_fs0). pose proof (cnt_nonneg q (roots s)).
    destruct (decide (0 < refs (vw s) q)) as [Hp|]; [rewrite (g_live _ _ _ _ _ G q Hp)|]; lia.
Qed.

(** ** The counts *)

Lemma refs_Some w p : 0 < refs w p -> exists v, vnode_of w p = Some v /\ refs w p = vn_refcount v /\ opens w p = vn_opencount v.
Proof. unfold refs, opens. destruct (vnode_of w p) as [v|]; [by exists v|lia]. Qed.

(** Setting the counts of a vnode in use, against what is accounted for. *)
Lemma put_counts n m w0 s p v r o ps os ps' os' :
  grants n w0 (vw s) ps os -> vnode_of (vw s) p = Some v -> 0 < vn_refcount v -> 0 < r -> 0 <= o -> n <= m ->
  r <= refs w0 p + m -> kept (vw s) p <= r ->
  r = vn_refcount v + (cnt p ps' - cnt p ps) -> o = vn_opencount v + (cnt p os' - cnt p os) ->
  (forall q, q <> p -> cnt q ps' = cnt q ps /\ cnt q os' = cnt q os) -> (cnt p ps < cnt p ps' -> usable (vw s) p) ->
  wp (put_vnode p (set_opencount o (set_refcount r v))) s (fun _ s' =>
    exists w', s' = set_vw w' s /\ grants m w0 w' ps' os').
Proof.
  intros [Go K D M L N T P U Kp] Hv Hl Hr Ho Hn Tr Hke Er Eo Hq Hu'. apply wp_on_w.
  destruct (fs_counts (vw s) p v r o Go Hv Hl Hr Ho Hke) as (w' & E & Ho' & Hu & Hm & Hkp).
  eapply wp_Ret; [exact E|]. exists w'. split; [done|].
  assert (Ek : forall q, kind w' q = kind (vw s) q).
  { intros q. unfold kind. rewrite Hu. destruct (decide (q = p)) as [->|]; [by rewrite Hv|done]. }
  assert (Ed : forall q d, devnode w' q d -> devnode (vw s) q d).
  { intros q d (o' & fs & Hk & ?). exists o', fs. by rewrite <- Ek. }
  assert (Er' : forall q, refs w' q = if decide (q = p) then r else refs (vw s) q).
  { intros q. unfold refs. rewrite Hu. by destruct (decide (q = p)). }
  assert (Eo' : forall q, opens w' q = if decide (q = p) then o else opens (vw s) q).
  { intros q. unfold opens. rewrite Hu. by destruct (decide (q = p)). }
  assert (Rp : refs (vw s) p = vn_refcount v /\ opens (vw s) p = vn_opencount v).
  { unfold refs, opens. by rewrite Hv. }
  constructor; auto.
  - intros q ?. rewrite Ek. auto.
  - intros q Hp. specialize (L q Hp). rewrite Er'. destruct (decide (q = p)) as [->|Hne]; [lia|].
    destruct (Hq q Hne). lia.
  - intros q. specialize (N q). rewrite Er'. destruct (decide (q = p)) as [->|Hne]; [lia|].
    destruct (Hq q Hne). lia.
  - intros q. specialize (T q). rewrite Er'. destruct (decide (q = p)) as [->|Hne]; lia.
  - intros q. specialize (P q). rewrite Eo'. destruct (decide (q = p)) as [->|Hne]; [lia|].
    destruct (Hq q Hne). lia.
  - intros q Hc Hd%Ed. specialize (U q). destruct (decide (q = p)) as [->|Hne].
    + destruct (decide (cnt p ps < cnt p ps')); [by apply Hu'|]. by apply U; [lia|].
    + destruct (Hq q Hne) as [E1 _]. by apply U; [lia|].
  - intros q. by rewrite Hkp, Kp.
Qed.

Lemma cnt_cons_ne q p ps : q <> p -> cnt q (p :: ps) = cnt q ps.
Proof. intros. simpl. by destruct (Z.eqb_spec p q). Qed.

Lemma cnt_cons_eq p ps : cnt p (p :: ps) = 1 + cnt p ps.
Proof. simpl. by rewrite Z.eqb_refl. Qed.

Lemma get_vnode_wp s p v : vnode_of (vw s) p = Some v -> get_vnode p s = Ret (v, s).
Proof. intros Hv. simpl. unfold on_w. rewrite (fs_get _ _ _ Hv). by destruct s. Qed.

Lemma vnode_check_wp s p op : fs_ok (vw s) -> 0 < refs (vw s) p -> wp (vnode_check p op) s (fun _ s' => s' = s).
Proof.
  intros Hok Hl. destruct (refs_Some _ _ Hl) as (v & Hv & Er & Eo). rewrite Er in Hl.
  destruct (fs_wf _ _ _ Hok Hv Hl) as (? & ? & ? & _ & o & Ho & Hm).
  pose proof (fs_nonneg _ p Hok). unfold vnode_check, lock_acquire, lock_release. wp_step. wp_step. wp_step. wp_step.
  wp_step. eapply wp_Ret; [by apply get_vnode_wp|]. rewrite Ho. wp_step. wp_step; [by apply Z.eqb_eq|].
  by wp_steps.
Qed.

Lemma incref_took n ps os s0 s p :
  took s0 n ps os s -> usable (vw s) p -> 0 < refs (vw s) p < 2 ^ 31 - 1 ->
  wp (VOP_INCREF p) s (fun _ s' => took s0 (n + 1) (p :: ps) os s').
Proof.
  intros (w & -> & G) Hu [Hl Hb]. simpl in Hl, Hb. destruct (refs_Some _ _ Hl) as (v & Hv & Er & Eo).
  destruct (fs_wf _ _ _ (g_ok _ _ _ _ _ G) Hv) as (Hp & _); [lia|].
  pose proof (g_top _ _ _ _ _ G p). pose proof (fs_keeps _ p (g_ok _ _ _ _ _ G)).
  destruct (fs_nonneg _ p (g_ok _ _ _ _ _ G)).
  unfold VOP_INCREF, vnode_incref, lock_acquire, lock_release. wp_step. wp_step. wp_step.
  eapply wp_Ret; [by apply get_vnode_wp|]. wp_steps.
  rewrite s32_small by lia.
  eapply wp_mono; [eapply (put_counts n (n + 1) (vw s0) (set_vw w s0) p v (vn_refcount v + 1)
    (vn_opencount v) ps os (p :: ps) os);
    [exact G|exact Hv|rewrite ?cnt_cons_eq; simpl vw in *; lia..| |done]|].
  { intros q Hq. by rewrite cnt_cons_ne. }
  intros [] s' (w' & -> & G'). wp_step. by exists w'.
Qed.

Lemma vop_dispatch_wp {A} pn s p (dev fs : M (vfssys W) A) Q :
  fs_ok (vw s) -> 0 < refs (vw s) p ->
  (forall d, devnode (vw s) p d -> wpo pn dev s Q) ->
  ((forall d, ~ devnode (vw s) p d) -> wpo pn fs s Q) -> wpo pn (dispatch_vop p dev fs) s Q.
Proof.
  intros Hok Hl Hd Hf. destruct (refs_Some _ _ Hl) as (v & Hv & Er & _).
  destruct (fs_wf _ _ _ Hok Hv) as (_ & _ & _ & _ & o & Ho & _); [lia|].
  unfold dispatch_vop. wp_step. eapply wp_Ret; [by apply get_vnode_wp|]. rewrite Ho.
  assert (K : kind (vw s) p = Some (Some o, vn_fs v, vn_data v)) by (unfold kind; rewrite Hv; simpl; by rewrite Ho).
  destruct (is_dev o) eqn:E; [eapply Hd; by exists o, (vn_fs v)|].
  apply Hf. intros d (o' & fs' & K' & E'). congruence.
Qed.

(** One reference to [p] less; the last one may take the vnode with it. *)
Record drops w (w' : W) (p : Z) : Prop := {
  d_ok : fs_ok w';
  d_other : forall q, q <> p -> vnode_of w' q = vnode_of w q;
  d_more : 1 < refs w p -> refs w' p = refs w p - 1 /\ opens w' p = opens w p /\ kind w' p = kind w p;
  d_last : refs w p = 1 -> refs w' p <= 1 /\ opens w' p = 0;
  d_dev : forall d, devnode w' p d -> devnode w p d;
  d_mounted : forall fs, mounted w fs -> mounted w' fs;
  d_kept : forall q, kept w' q = kept w q;
}.

Lemma drops_other w w' p q : drops w w' p -> q <> p ->
  refs w' q = refs w q /\ opens w' q = opens w q /\ kind w' q = kind w q.
Proof. intros [_ Hq _ _ _ _ _] Hne. unfold refs, opens, kind. by rewrite Hq. Qed.

Lemma decref_drops s p :
  fs_ok (vw s) -> kept (vw s) p < refs (vw s) p -> (refs (vw s) p = 1 -> opens (vw s) p = 0) ->
  wpo fs_panics (VOP_DECREF p) s (fun _ s' => exists w', s' = set_vw w' s /\ drops (vw s) w' p).
Proof.
  intros Hok Hk Hlast. pose proof (fs_keeps _ p Hok). assert (Hl : 0 < refs (vw s) p) by lia.
  destruct (refs_Some _ _ Hl) as (v & Hv & Er & Eo).
  destruct (fs_wf _ _ _ Hok Hv) as (Hp & _); [lia|]. destruct (fs_nonneg _ p Hok).
  unfold VOP_DECREF, vnode_decref, lock_acquire, lock_release. wp_step. wp_step. wp_step.
  eapply wp_Ret; [by apply get_vnode_wp|]. wp_step. wp_step. wp_step. wp_step. wp_step.
  destruct (Z.gtb_spec (vn_refcount v) 1).
  - destruct (fs_counts (vw s) p v (vn_refcount v - 1) (vn_opencount v)) as (w' & E & Ho' & Hu & Hm & Hkp); [done|done|lia..|].
    wp_step. apply wp_on_w. eapply wp_Ret; [exact E|]. wp_steps. exists w'. split; [done|].
    assert (Hk' : kind w' p = kind (vw s) p) by (unfold kind; rewrite Hu, decide_True, Hv by done; done).
    constructor; try done; [intros q Hq; rewrite Hu; by rewrite decide_False| |lia|].
    + intros _. split_and!; [| |done]; unfold refs, opens; rewrite Hu, decide_True, Hv by done; simpl; lia.
    + intros d (o & fs & ? & ?). exists o, fs. by rewrite <- Hk'.
  - wp_steps. eapply wp_mono; [by apply wp_calm, vnode_check_wp|]. intros [] s' ->. wp_step.
    apply vop_dispatch_wp; [done|done|intros d Hd|intros Hd].
    + unfold dev_reclaim. wp_steps. exists (vw s). split; [by destruct s|]. constructor; try done; [lia|]. split; [lia|auto].
    + apply wp_on_w. eapply wp_mono; [apply fs_reclaim; [done|lia|apply Hlast; lia|lia|done]|].
      intros _ w' (Ho' & Hq & Hr & Hop & Hd' & Hm & Hkp). wp_step. exists w'. split; [done|].
      constructor; try done; [lia|]. intros d Hd2. by apply Hd' in Hd2.
Qed.

Lemma grants_drops n w0 w w' p ps os :
  grants n w0 w (p :: ps) os -> (refs w p = 1 -> opens w p = 0) -> drops w w' p -> grants n w0 w' ps os.
Proof.
  intros [_ K D M L N T P U Kp] Hlast Hd. pose proof (d_ok _ _ _ Hd) as Hok. pose proof (d_more _ _ _ Hd) as Hm.
  pose proof (d_last _ _ _ Hd) as H1. destruct (fs_nonneg w' p Hok).
  assert (Hp : (1 < refs w p /\ refs w' p = refs w p - 1 /\ opens w' p = opens w p /\ kind w' p = kind w p) \/
    (refs w p = 1 /\ ~ 0 < refs w0 p /\ cnt p ps = 0 /\ opens w p = 0)).
  { specialize (N p). rewrite cnt_cons_eq in N. pose proof (cnt_nonneg p ps).
    destruct (decide (1 < refs w p)); [left; auto|]. right. specialize (L p). rewrite cnt_cons_eq in L.
    split_and!; lia. }
  pose proof (fun q => drops_other w w' p q Hd) as E.
  assert (Hdev : forall q d, devnode w' q d -> devnode w q d).
  { intros q d Hq. destruct (decide (q = p)) as [->|Hne]; [by apply (d_dev _ _ _ Hd)|].
    destruct Hq as (o & fs & Hk & ?). exists o, fs. by destruct (E q Hne) as (_ & _ & <-). }
  constructor; [done| |by intros q d ?%Hdev%D|by intros fs ?%M%(d_mounted _ _ _ Hd)| | | | | |by intros q; rewrite (d_kept _ _ _ Hd)]; intros q; specialize (N q); specialize (T q);
    specialize (L q); specialize (P q); (destruct (decide (q = p)) as [->|Hne];
    [rewrite ?cnt_cons_eq in *|rewrite ?cnt_cons_ne in * by done; destruct (E q Hne) as (E1 & E2 & E3); rewrite ?E1, ?E2]).
  - intros Hq. destruct Hp as [(_ & _ & _ & ->)|(_ & ? & _)]; [auto|done].
  - intros Hq. rewrite E3. auto.
  - intros Hq. specialize (L Hq). lia.
  - auto.
  - lia.
  - auto.
  - lia.
  - auto.
  - lia.
  - auto.
  - intros Hc Hd'%Hdev. apply (U p); [rewrite cnt_cons_eq; lia|done].
  - intros Hc Hd'%Hdev. apply (U q); [by rewrite cnt_cons_ne|done].
Qed.

(** A vnode nobody used before is not open when its last reference goes. *)
Lemma last_closed n w0 w p ps os :
  grants n w0 w (p :: ps) os -> within os ps -> opens w0 p <= refs w0 p -> refs w p = 1 -> opens w p = 0.
Proof.
  intros G Hw Ho H1. rewrite (g_opens _ _ _ _ _ G p). pose proof (g_new _ _ _ _ _ G p) as N.
  rewrite cnt_cons_eq in N. specialize (Hw p). pose proof (cnt_nonneg p os). pose proof (cnt_nonneg p ps).
  pose proof (fs_nonneg _ p (g_ok _ _ _ _ _ G)) as [_ Hn]. rewrite (g_opens _ _ _ _ _ G p) in Hn.
  destruct (decide (0 < refs w0 p)) as [Hp|]; [|lia].
  pose proof (g_live _ _ _ _ _ G p Hp) as L. rewrite cnt_cons_eq in L. lia.
Qed.

Lemma decref_took n ps os s0 s p :
  vfs_ok s0 -> took s0 n (p :: ps) os s -> within os ps ->
  wpo fs_panics (VOP_DECREF p) s (fun _ s' => took s0 n ps os s').
Proof.
  intros Hv0 Ht Hw. assert (Hl : 0 < refs (vw s) p) by (eapply took_live; [exact Ht|right; left]).
  destruct Ht as (w & -> & G).
  assert (Hk : kept w p < refs w p).
  { rewrite (g_kept _ _ _ _ _ G). pose proof (fs_keeps _ p (vo_fs _ Hv0)). simpl in Hl. pose proof (cnt_nonneg p ps).
    destruct (decide (0 < refs (vw s0) p)) as [Hp|]; [|lia]. rewrite (g_live _ _ _ _ _ G p Hp), cnt_cons_eq. lia. }
  assert (Hlast : refs w p = 1 -> opens w p = 0).
  { apply (last_closed _ _ _ _ _ _ G Hw). destruct (refs_Some _ _ Hl) as (v & Hv & Er & _). simpl in Hv, Hl.
    destruct (fs_wf _ _ _ (g_ok _ _ _ _ _ G) Hv) as (Hp & _); [simpl in Er; lia|].
    pose proof (vo_refs _ Hv0 p Hp). pose proof (fs_keeps _ p (vo_fs _ Hv0)). pose proof (cnt_nonneg p (roots s0)). lia. }
  eapply wp_mono; [apply decref_drops; [apply G|done|done]|].
  intros [] s' (w' & -> & Hd). exists w'. split; [done|]. by eapply grants_drops.
Qed.

Lemma incopen_took n ps os s0 s p :
  took s0 n ps os s -> 0 < refs (vw s) p -> opens (vw s) p < 2 ^ 31 - 1 ->
  wp (VOP_INCOPEN p) s (fun _ s' => took s0 (n + 1) ps (p :: os) s').
Proof.
  intros (w & -> & G) Hl Hb. simpl in Hl, Hb. destruct (refs_Some _ _ Hl) as (v & Hv & Er & Eo).
  destruct (fs_wf _ _ _ (g_ok _ _ _ _ _ G) Hv) as (Hp & _); [lia|].
  pose proof (g_top _ _ _ _ _ G p). pose proof (fs_keeps _ p (g_ok _ _ _ _ _ G)).
  destruct (fs_nonneg _ p (g_ok _ _ _ _ _ G)).
  unfold VOP_INCOPEN, vnode_incopen, lock_acquire, lock_release. wp_step. wp_step. wp_step.
  eapply wp_Ret; [by apply get_vnode_wp|]. wp_steps.
  rewrite s32_small by lia.
  eapply wp_mono; [eapply (put_counts n (n + 1) (vw s0) (set_vw w s0) p v (vn_refcount v)
    (vn_opencount v + 1) ps os ps (p :: os)); [exact G|exact Hv|rewrite ?cnt_cons_eq; simpl vw in *; lia..| |lia]|].
  { intros q Hq. by rewrite cnt_cons_ne. }
  intros [] s' (w' & -> & G'). wp_step. by exists w'.
Qed.

Lemma dev_of_wp s p d :
  vfs_ok s -> 0 < refs (vw s) p -> usable (vw s) p -> devnode (vw s) p d ->
  exists dv, dev_of p s = Ret (dv, s) /\ dev_ok dv.
Proof.
  intros Hs Hl Hu Hd. destruct (vo_dev s Hs p d Hd) as (dv & E & Hok); [by intros ->|]. exists dv. split; [|done].
  destruct (refs_Some _ _ Hl) as (v & Hv & _). destruct Hd as (o & fs & K & _). unfold kind in K.
  rewrite Hv in K. simpl in K. simplify_eq. unfold dev_of.
  rewrite (bind_Ret _ _ _ _ _ (get_vnode_wp s p v Hv)). unfold bind, get. by rewrite E.
Qed.

(** A step of another component, after what is already accounted for. *)
Lemma took_then {A} pn n k ps os s0 s (m : M (vfssys W) A) (f : A -> list Z) (R : A -> vfssys W -> Prop) :
  took s0 n ps os s ->
  wpo pn m s (fun a s' => took s k (f a) [] s' /\ R a s') ->
  wpo pn m s (fun a s' => took s0 (n + k) (f a ++ ps) os s' /\ R a s').
Proof.
  intros Ht Hm. eapply wp_mono; [exact Hm|]. intros a s' [Ht' HR]. split; [|done].
  exact (took_trans _ _ _ _ _ _ _ _ _ Ht Ht').
Qed.

Lemma took_grants s n ps os w' : grants n (vw s) w' ps os -> took s n ps os (set_vw w' s).
Proof. by exists w'. Qed.

Lemma decopen_took n ps os s0 s p :
  vfs_ok s0 -> took s0 n ps (p :: os) s -> p ∈ ps -> within os ps ->
  wpo fs_panics (VOP_DECOPEN p) s (fun _ s' => took s0 n ps os s').
Proof.
  intros Hv0 Ht Hin Hw. assert (Hl : 0 < refs (vw s) p) by (eapply took_live; [exact Ht|by right]).
  destruct Ht as (w & -> & G). simpl in Hl. pose proof (g_ok _ _ _ _ _ G) as Hok.
  destruct (refs_Some _ _ Hl) as (v & Hv & Er & Eo).
  destruct (fs_wf _ _ _ Hok Hv) as (Hp & _); [lia|]. destruct (fs_nonneg _ p Hok), (fs_nonneg _ p (vo_fs _ Hv0)).
  pose proof (fs_keeps _ p Hok).
  pose proof (g_top _ _ _ _ _ G p). pose proof (g_opens _ _ _ _ _ G p) as Hc. rewrite cnt_cons_eq in Hc.
  pose proof (cnt_nonneg p os).
  unfold VOP_DECOPEN, vnode_decopen, lock_acquire, lock_release. wp_step. wp_step. wp_step.
  eapply wp_Ret; [by apply get_vnode_wp|]. wp_step. wp_step. wp_step. wp_step. wp_step.
  eapply wp_mono; [apply wp_calm, (put_counts n n (vw s0) (set_vw w s0) p v (vn_refcount v)
      (vn_opencount v - 1) ps (p :: os) ps os); [exact G|exact Hv|rewrite ?cnt_cons_eq; simpl vw in *; lia..| |lia]|].
  { intros q Hq. by rewrite cnt_cons_ne. }
  intros [] s1 (w1 & -> & G1). wp_steps. destruct (vn_opencount v - 1 >? 0); [wp_step; by exists w1|].
  change (set_vw w1 (set_vw w s0)) with (set_vw w1 s0) in *.
  assert (Ht1 : took s0 n ps os (set_vw w1 s0)) by (by exists w1).
  assert (Hl1 : 0 < refs (vw (set_vw w1 s0)) p) by (eapply took_live; [exact Ht1|by right]).
  wp_step. eapply wp_mono; [apply wp_calm, vnode_check_wp; [apply G1|done]|]. intros [] s' ->. wp_step.
  eapply (wp_mono _ _ (fun _ s' => took s0 (n + 0) ([] ++ ps) os s' /\ True)).
  { eapply took_then; [exact Ht1|].
    apply vop_dispatch_wp; [apply G1|done|intros d Hd|intros Hd].
    - destruct (dev_of_wp _ _ _ (took_ok _ _ _ _ _ Hv0 Ht1 Hw) Hl1 (took_use _ _ _ _ _ _ Ht1 Hin) Hd) as (dv & Edv & Hdv).
      unfold dev_close. wp_step. eapply wp_Ret; [exact Edv|]. apply wp_on_w.
      eapply wp_mono; [apply Hdv, G1|]. intros r w2 G2. split; [|done]. by apply took_grants.
    - apply wp_on_w. eapply wp_mono; [by apply fs_close; [apply G1| |]|]. intros r w2 G2. split; [|done].
      by apply took_grants. }
  intros r s' [Ht' _]. wp_step. by rewrite Z.add_0_r in Ht'.
Qed.

(** ** Calls through a vnode *)

Lemma grants_le n m w w' ps os : grants n w w' ps os -> n <= m -> grants m w w' ps os.
Proof. intros G Hn. by eapply grants_cnt. Qed.

Lemma dev_table_wp s p d q :
  vfs_ok s -> refs (vw s) p < 2 ^ 31 - 1 -> 0 < refs (vw s) p -> usable (vw s) p -> devnode (vw s) p d ->
  req_ok (vw s) p q ->
  wpo fs_panics (dev_table p q) s (fun a s' => took s 1 (handed a) [] s' /\ ans_ok (vw s) p q a).
Proof.
  intros Hs Hb Hl Hu Hd Hq. pose proof (vo_fs _ Hs) as Hok.
  assert (H1 : took s 1 [] [] s).
  { destruct (took_refl s Hok) as (w & E & G). exists w. split; [done|]. by apply (grants_le 0). }
  destruct (dev_of_wp _ _ _ Hs Hl Hu Hd) as (dv & Edv & Hdv).
  destruct q; simpl in Hq; try done; cbn [dev_table]; try (wp_step; by split).
  - wp_step. unfold dev_open. wp_step. eapply wp_Ret; [exact Edv|].
    destruct (negb _); [wp_steps; by split|]. apply wp_on_w.
    eapply wp_mono; [by apply Hdv|]. intros r w' G. wp_step. split; [|done].
    apply took_grants. by apply (grants_le 0).
  - unfold dev_gettype. wp_step. wp_step. eapply wp_Ret; [exact Edv|].
    destruct (d_blocks dv >? 0); wp_steps; (split; [done|]); by intros _ ?.
  - unfold dev_truncate. wp_step. wp_step. eapply wp_Ret; [exact Edv|].
    destruct (_ && _); wp_steps; by split.
  - destruct Hq as [str Hstr]. unfold dev_lookup. wp_step. wp_step.
    eapply wp_lift_Ret; [by apply strlen_spec|]. destruct (_ >? 0); [wp_steps; by split|].
    wp_step. eapply wp_mono; [apply wp_calm, incref_took; [by apply took_refl|done|done]|].
    intros [] s' Ht. wp_steps. by split.
Qed.

Lemma took_kind n ps os s s' q : took s n ps os s' -> 0 < refs (vw s) q -> kind (vw s') q = kind (vw s) q.
Proof. intros (w & -> & G) Hq. by apply (g_kind _ _ _ _ _ G). Qed.

(** A call through a vnode in use hands on what it promises and nothing else. *)
Lemma VOP_took n ps os s0 s p op q :
  vfs_ok s0 -> small s0 -> took s0 n ps os s -> within os ps -> fits n -> 0 < refs (vw s) p -> usable (vw s) p ->
  req_ok (vw s) p q ->
  wpo fs_panics (VOP p op q) s (fun a s' =>
    took s0 (n + 1) (handed a ++ ps) os s' /\ ans_ok (vw s) p q a /\ kind (vw s') p = kind (vw s) p).
Proof.
  intros Hv0 Hs0 Ht Hw Hn Hl Hu Hq. pose proof (took_ok _ _ _ _ _ Hv0 Ht Hw) as Hv. pose proof (vo_fs _ Hv) as Hok.
  unfold VOP. wp_step. eapply wp_mono; [by apply wp_calm, vnode_check_wp|]. intros [] s' ->.
  apply (took_then _ _ _ _ _ _ _ _ handed (fun a s' => ans_ok (vw s) p q a /\ kind (vw s') p = kind (vw s) p) Ht).
  eapply (wp_mono _ _ (fun a s' => took s 1 (handed a) [] s' /\ ans_ok (vw s) p q a)).
  - apply vop_dispatch_wp; [done|done|intros d Hd|intros Hd].
    + eapply dev_table_wp; try done. exact (took_small _ _ _ _ _ Ht Hs0 Hn p).
    + apply wp_on_w. eapply wp_mono; [apply fs_calls; try done; by eapply took_small|]. intros a w' [G Ha]. split; [by apply took_grants|done].
  - intros a s' [Ht' Ha]. split_and!; [done|done|]. by eapply took_kind.
Qed.

(** What is accounted for since [s0]. *)
Definition acct s0 (n : Z) (ps os : list Z) s : Prop :=
  vfs_ok s0 /\ small s0 /\ took s0 n ps os s /\ within os ps /\ 0 <= n.

Lemma acct_refl s : vfs_ok s -> small s -> acct s 0 [] [] s.
Proof. intros Hv Hs. split_and!; try done. by apply took_refl, vo_fs. Qed.

Lemma acct_ok s0 n ps os s : acct s0 n ps os s -> vfs_ok s.
Proof. intros (? & ? & ? & ? & ?). by eapply took_ok. Qed.

Lemma within_mono os ps qs : within os ps -> (forall q, cnt q ps <= cnt q qs) -> within os qs.
Proof. intros Hw Hc q. specialize (Hw q). specialize (Hc q). lia. Qed.

Lemma within_app os ps qs : within os ps -> within os (qs ++ ps).
Proof.
  intros Hw. eapply within_mono; [exact Hw|]. intros q. rewrite cnt_app. pose proof (cnt_nonneg q qs). lia.
Qed.

Lemma acct_incref s0 n ps os s p :
  acct s0 n ps os s -> n < 15 -> 0 < refs (vw s) p -> usable (vw s) p ->
  wpo fs_panics (VOP_INCREF p) s (fun _ s' => acct s0 (n + 1) (p :: ps) os s').
Proof.
  intros (Hv & Hs & Ht & Hw & Hn) Hb Hl Hu. pose proof (took_small _ _ _ _ _ Ht Hs (conj Hn Hb) p).
  eapply wp_mono; [by apply wp_calm, incref_took|]. intros [] s' Ht'. split_and!; try done; [|lia].
  by apply (within_app _ _ [p]).
Qed.

Lemma acct_decref s0 n ps os s p :
  acct s0 n (p :: ps) os s -> within os ps ->
  wpo fs_panics (VOP_DECREF p) s (fun _ s' => acct s0 n ps os s').
Proof.
  intros (Hv & Hs & Ht & _ & Hn) Hw. eapply wp_mono; [by apply decref_took|]. intros [] s' Ht'. by split_and!.
Qed.

Lemma acct_VOP s0 n ps os s p op q :
  acct s0 n ps os s -> n < 15 -> 0 < refs (vw s) p -> usable (vw s) p -> req_ok (vw s) p q ->
  wpo fs_panics (VOP p op q) s (fun a s' =>
    acct s0 (n + 1) (handed a ++ ps) os s' /\ ans_ok (vw s) p q a /\ kind (vw s') p = kind (vw s) p).
Proof.
  intros (Hv & Hs & Ht & Hw & Hn) Hb Hl Hu Hq. eapply wp_mono; [by apply (VOP_took n ps os s0)|].
  intros a s' [Ht' Ha]. split; [|done]. split_and!; try done; [|lia]. by apply within_app.
Qed.

Lemma acct_root s0 n ps os s fs :
  acct s0 n ps os s -> n < 15 -> mounted (vw s) fs ->
  wpo fs_panics (on_w (fsop_getroot fs)) s (fun v s' =>
    fsop_getroot fs (vw s) = Ret (v, vw s') /\ acct s0 (n + 1) (v :: ps) os s').
Proof.
  intros Ha Hb Hm. pose proof (vo_fs _ (acct_ok _ _ _ _ _ Ha)) as Hok. destruct Ha as (Hv & Hs & Ht & Hw & Hn).
  pose proof (fs_root _ _ Hok (took_small _ _ _ _ _ Ht Hs (conj Hn Hb)) Hm) as Hr. apply wp_on_w. unfold wpx in *.
  destruct (fsop_getroot fs (vw s)) as [[v w']|[]]; try done. split; [done|].
  split_and!; try done; [|by apply (within_app _ _ [v])|lia].
  refine (took_trans _ _ _ _ [v] [] _ _ _ Ht _). by exists w'.
Qed.

(** ** The table of devices *)

Lemma root_live s q : vfs_ok s -> q ∈ roots s -> q <> 0 -> 0 < refs (vw s) q.
Proof.
  intros Hs Hq H0. pose proof (vo_refs _ Hs q H0). pose proof (cnt_elem _ _ Hq). pose proof (fs_keeps _ q (vo_fs _ Hs)). destruct (fs_nonneg _ q (vo_fs _ Hs)). lia.
Qed.

Lemma kd_at_wp s i e :
  vfs_ok s -> entries s !! i = Some e ->
  exists p kd, e = Some kd /\ kd_at (Z.of_nat i) s = Ret ((p, kd), s) /\ kd_ok (vw s) kd /\ 0 < refs (vw s) (kd_vnode kd).
Proof.
  intros Hs Hi. pose proof (vo_kds _ Hs) as Hk. rewrite Forall_lookup in Hk.
  destruct (Hk i e Hi) as (kd & -> & Hok & H0).
  assert (Hl : 0 < refs (vw s) (kd_vnode kd)).
  { apply root_live; [done| |done]. unfold roots. do 2 right. apply list_elem_of_omap.
    exists (Some kd). split; [by eapply list_elem_of_lookup_2|done]. }
  destruct (vo_list _ Hs) as (a & Ea & Hwf). unfold entries in Hi. rewrite Ea, list_lookup_fmap in Hi.
  destruct (contents a !! i) as [g|] eqn:Eg; [|done]. simpl in Hi. simplify_eq.
  destruct g as [p|]; [|done]. simpl in *. exists p, kd. split_and!; try done.
  unfold kd_at, the_knowndevs, bind, get. rewrite Ea. unfold ret at 1, lift.
  rewrite array_getguy_spec by done. destruct (Z.ltb_spec (Z.of_nat i) 0); [lia|]. rewrite Nat2Z.id, Eg.
  simpl. by rewrite Hi.
Qed.
End Refs.
