(* ===== verification/VfsPaths.v ===== *)
(** * Names of devices and volumes

    What [vfs_getroot] makes of a name, against the table of devices as a list
    of entries ([entry_target], [first_target]), and what the two kinds of
    path, with a device or without, start from. *)

From S2P Require Import Prelude.
From S2P Require Import Array.
From S2P Require Import Cstring.
From S2P Require Import Uio.
From S2P Require Import Thread.
From S2P Require Import Vnode.
From S2P Require Import Sfs.
From S2P Require Import SfsOps.
From S2P Require Import Vfs.
From S2P Require Import VfsRefs.

(** The characters of the string a buffer holds. *)
Fixpoint chars (s : list Z) : list Z :=
  match s with
  | [] => []
  | c :: s => if c =? 0 then [] else c :: chars s
  end.

Lemma chars_spec s str : is_cstr s str -> chars s = str.
Proof.
  intros (rest & -> & Hz). induction Hz as [|c str Hc _ IH]; [done|]. simpl.
  destruct (Z.eqb_spec c 0); [done|]. by rewrite IH.
Qed.

(** Where a name leads. *)
Inductive target :=
| ToRoot (fs : Z)               (* the root directory of a file system *)
| ToDevice (v : Z)              (* a device itself *)
| NotMounted.                   (* a device for file systems that has none *)

(** ** Paths as strings *)

(** The first [:] or [/]. *)
Fixpoint first_sep (str : list Z) : option (nat * Z) :=
  match str with
  | [] => None
  | c :: str => if (c =? COLON) || (c =? SLASH) then Some (0%nat, c)
                else prod_map S id <$> first_sep str
  end.

Fixpoint slashes (str : list Z) : nat :=
  match str with
  | c :: str => if c =? SLASH then S (slashes str) else 0%nat
  | [] => 0%nat
  end.

(** Where a path starts: [dir/file], [/dir/file], [:dir/file], [dev:file]. *)
Inductive start := AtCwd | AtBoot | AtCwdRoot | AtDevice (dev : list Z).

Definition start_of (str : list Z) : start :=
  match first_sep str with
  | None => AtCwd
  | Some (i, c) =>
      if c =? COLON then (if decide (i = 0%nat) then AtCwdRoot else AtDevice (take i str))
      else (if decide (i = 0%nat) then AtBoot else AtCwd)
  end.

(** What is left of it: the slashes after the start go. *)
Definition subpath_of (str : list Z) : list Z :=
  let after i := drop (slashes (drop (S i) str)) (drop (S i) str) in
  match first_sep str with
  | None => str
  | Some (i, c) => if (c =? COLON) || bool_decide (i = 0%nat) then after i else str
  end.

Lemma rd_middle (pre l : list Z) c : rd (pre ++ c :: l) (Z.of_nat (length pre)) = Ret c.
Proof. apply rd_nat. by apply list_lookup_middle. Qed.

Lemma find_sep_spec path str :
  is_cstr path str ->
  find_sep (S (length path)) path 0 =
    Ret (match first_sep str with
         | None => (-1, -1)
         | Some (i, c) => if c =? COLON then (Z.of_nat i, -1) else (-1, Z.of_nat i)
         end).
Proof.
  intros (rest & -> & Hz).
  enough (G : forall fuel pre, (length str < fuel)%nat ->
    find_sep fuel (pre ++ str ++ 0 :: rest) (Z.of_nat (length pre)) =
    Ret (match first_sep str with
         | None => (-1, -1)
         | Some (i, c) => if c =? COLON then (Z.of_nat (length pre + i), -1) else (-1, Z.of_nat (length pre + i))
         end)).
  { apply (G _ []). rewrite length_app. simpl. lia. }
  induction Hz as [|c str Hc _ IH]; intros fuel pre Hf; (destruct fuel as [|f]; [simpl in Hf; lia|]);
    cbn [find_sep app]; rewrite rd_middle; cbn [rbind first_sep]; [done|].
  destruct (Z.eqb_spec c 0); [done|]. destruct (Z.eqb_spec c COLON) as [->|].
  { simpl. by rewrite Nat.add_0_r. }
  destruct (Z.eqb_spec c SLASH) as [->|]. { simpl. by rewrite Nat.add_0_r. }
  specialize (IH f (pre ++ [c])). rewrite length_app, <- app_assoc in IH. simpl in IH.
  replace (Z.of_nat (length pre) + 1) with (Z.of_nat (length pre + 1)) by lia. rewrite IH by (simpl in Hf; lia).
  simpl. destruct (first_sep str) as [[k d]|]; [|done]. simpl.
  by rewrite <- !Nat.add_assoc.
Qed.

Lemma skip_slashes_spec fuel pre str rest :
  Forall (fun c => c <> 0) str -> (length str < fuel)%nat ->
  skip_slashes fuel (pre ++ str ++ 0 :: rest) (Z.of_nat (length pre) - 1) =
    Ret (Z.of_nat (length pre) - 1 + Z.of_nat (slashes str)).
Proof.
  intros Hz. revert fuel pre. induction Hz as [|c str Hc _ IH]; intros fuel pre Hf;
    (destruct fuel as [|f]; [simpl in Hf; lia|]); cbn [skip_slashes app];
    rewrite Z.sub_add, rd_middle; cbn [rbind slashes].
  - simpl. f_equal. lia.
  - destruct (Z.eqb_spec c SLASH) as [->|]; [|f_equal; lia].
    specialize (IH f (pre ++ [SLASH])). rewrite length_app, <- app_assoc in IH. simpl in IH.
    replace (Z.of_nat (length pre + 1) - 1) with (Z.of_nat (length pre)) in IH by lia.
    rewrite IH by (simpl in Hf; lia). f_equal. lia.
Qed.

Lemma slashes_le str : (slashes str <= length str)%nat.
Proof. induction str as [|c str IH]; simpl; [done|]. destruct (c =? SLASH); lia. Qed.

Lemma first_sep_split str i c :
  first_sep str = Some (i, c) -> str = take i str ++ c :: drop (S i) str /\ (c = COLON \/ c = SLASH).
Proof.
  revert i. induction str as [|d str IH]; intros i; simpl; [done|].
  destruct (_ || _) eqn:Ed.
  - intros. simplify_eq. split; [done|]. apply orb_true_iff in Ed as [?%Z.eqb_eq|?%Z.eqb_eq]; auto.
  - destruct (first_sep str) as [[k u]|]; intros [=]; subst. simpl.
    destruct (IH k eq_refl) as [E Hc]. split; [|done]. by f_equal.
Qed.

(** The slashes after the first [k + 1] characters. *)
Lemma skip_after path pre str rest (k : nat) :
  path = pre ++ str ++ 0 :: rest -> length pre = S k -> Forall (fun c => c <> 0) str ->
  skip_slashes (S (length path)) path (Z.of_nat k) = Ret (Z.of_nat k + Z.of_nat (slashes str)) /\
  is_cstr (drop (Z.to_nat (Z.of_nat k + Z.of_nat (slashes str) + 1)) path) (drop (slashes str) str).
Proof.
  intros -> Hk Hz. pose proof (slashes_le str) as Hs.
  replace (Z.of_nat k) with (Z.of_nat (length pre) - 1) by lia. split.
  - apply skip_slashes_spec; [done|]. rewrite !length_app. simpl. lia.
  - exists rest. split; [|by apply Forall_drop].
    replace (Z.to_nat _) with (length pre + slashes str)%nat by lia.
    rewrite drop_app_add, drop_app_le by done. done.
Qed.

Lemma cut_device path str (i : nat) :
  is_cstr path str -> first_sep str = Some (i, COLON) ->
  exists path', wr path (Z.of_nat i) 0 = Ret path' /\ length path' = length path /\ is_cstr path' (take i str) /\
    skip_slashes (S (length path')) path' (Z.of_nat i) = Ret (Z.of_nat i + Z.of_nat (slashes (drop (S i) str))) /\
    is_cstr (drop (Z.to_nat (Z.of_nat i + Z.of_nat (slashes (drop (S i) str)) + 1)) path') (subpath_of str).
Proof.
  intros (rest & -> & Hz) Hs. unfold subpath_of. rewrite Hs. simpl.
  destruct (first_sep_split _ _ _ Hs) as [E _].
  assert (Hi : (i < length str)%nat).
  { apply (f_equal length) in E. rewrite length_app, length_take in E. simpl in E. lia. }
  exists (take i str ++ 0 :: drop (S i) str ++ 0 :: rest).
  assert (Ew : <[i:=0]> (str ++ 0 :: rest) = take i str ++ 0 :: drop (S i) str ++ 0 :: rest).
  { rewrite insert_app_l by done. rewrite (insert_take_drop str i 0) by done. by rewrite <- app_assoc. }
  split_and!.
  - rewrite wr_nat by (rewrite length_app; simpl; lia). by rewrite Ew.
  - rewrite <- Ew, length_insert. done.
  - exists (drop (S i) str ++ 0 :: rest). split; [done|]. by apply Forall_take.
  - eapply (skip_after _ (take i str ++ [0]) (drop (S i) str) rest i);
      [by rewrite <- app_assoc|rewrite length_app, length_take; simpl; lia|by apply Forall_drop].
  - eapply (skip_after _ (take i str ++ [0]) (drop (S i) str) rest i);
      [by rewrite <- app_assoc|rewrite length_app, length_take; simpl; lia|by apply Forall_drop].
Qed.

Lemma skip_first path str c :
  is_cstr path str -> first_sep str = Some (0%nat, c) ->
  rd path 0 = Ret c /\
  skip_slashes (S (length path)) path 0 = Ret (Z.of_nat (slashes (drop 1 str))) /\
  is_cstr (drop (Z.to_nat (Z.of_nat (slashes (drop 1 str)) + 1)) path) (subpath_of str).
Proof.
  intros (rest & -> & Hz) Hs. unfold subpath_of. rewrite Hs, bool_decide_true, orb_true_r by done.
  destruct (first_sep_split _ _ _ Hs) as [E _]. simpl in E.
  assert (Ep : str ++ 0 :: rest = [c] ++ drop 1 str ++ 0 :: rest) by (by rewrite E at 1).
  split; [by rewrite Ep|]. by apply (skip_after _ _ _ _ 0 Ep eq_refl), Forall_drop.
Qed.

Section Paths.
Context {W VO : Type} `{!Allocator W, !VnodeStore W VO, !VnodeOps W, !FsWorld W VO, !FsView W VO, !FsLaws W VO}.
Context `{!CurSpace}.
Implicit Types (s : vfssys W) (w : W).

Definition entry_target w (str : list Z) (kd : knowndev) : option target :=
  let same n := bool_decide (chars n = str) in
  let vol := match fs_vol w (kd_fs kd) with Some n => same n | None => false end in
  if negb (kd_fs kd =? 0) && (same (kd_name kd).2 || vol) then Some (ToRoot (kd_fs kd))
  else
    match kd_rawname kd with
    | Some (_, raw) =>
        if same (kd_name kd).2 then Some NotMounted
        else if same raw then Some (ToDevice (kd_vnode kd)) else None
    | None => if same (kd_name kd).2 then Some (ToDevice (kd_vnode kd)) else None
    end.

Definition first_target w (str : list Z) (es : list (option knowndev)) : option target :=
  head (omap (fun e => e ≫= entry_target w str) es).

(** The error code and vnode that reach a target. *)
Definition reaches s0 n ps os s (t : option target) (r : Z * Z) (s' : vfssys W) : Prop :=
  match t with
  | None => r = (ENODEV, 0) /\ s' = s
  | Some NotMounted => r = (ENXIO, 0) /\ s' = s
  | Some (ToDevice v) => r = (0, v) /\ acct s0 (n + 1) (v :: ps) os s'
  | Some (ToRoot fs) => r.1 = 0 /\ fsop_getroot fs (vw s) = Ret (r.2, vw s') /\ acct s0 (n + 1) (r.2 :: ps) os s'
  end.

Lemma streq_wp s a b str :
  a_string a -> is_cstr b str -> streq a b s = Ret (bool_decide (chars a = str), s).
Proof.
  intros [x Ha] Hb. unfold streq, bind, lift. rewrite (strcmp_spec _ _ _ _ Ha Hb). unfold ret.
  rewrite (chars_spec _ _ Ha). do 2 f_equal. pose proof (lex_eq x str).
  destruct (Z.eqb_spec (lex x str) 0); symmetry; [apply bool_decide_true|apply bool_decide_false]; tauto.
Qed.

Lemma getroot_device_wp s0 n ps os s kd :
  acct s0 n ps os s -> n < 15 -> 0 < refs (vw s) (kd_vnode kd) -> kd_ok (vw s) kd -> kd_device kd <> 0 ->
  wpo fs_panics (getroot_device kd) s (fun r s' => r = (0, kd_vnode kd) /\ acct s0 (n + 1) (kd_vnode kd :: ps) os s').
Proof.
  intros Ha Hn Hl (_ & _ & Hu & _) Hd. unfold getroot_device. wp_step. wp_step. wp_step.
  eapply wp_mono; [by apply acct_incref; auto|]. intros [] s' Ha'. by wp_step.
Qed.

Lemma getroot_entry_wp s0 n ps os s kd devname str :
  acct s0 n ps os s -> n < 15 -> kd_ok (vw s) kd -> 0 < refs (vw s) (kd_vnode kd) -> is_cstr devname str ->
  wpo fs_panics (getroot_entry kd devname) s (fun r s' =>
    match entry_target (vw s) str kd with
    | None => r = None /\ s' = s
    | Some t => exists a, r = Some a /\ reaches s0 n ps os s (Some t) a s'
    end).
Proof.
  intros Ha Hn Hkd Hl Hs. pose proof Hkd as (Hname & Hraw & _ & Hfs). unfold getroot_entry, entry_target.
  pose proof (streq_wp s _ _ _ Hname Hs) as En.
  pose proof (vo_fs _ (acct_ok _ _ _ _ _ Ha)) as Hok.
  destruct (Z.eqb_spec (kd_fs kd) 0) as [E0|E0]; cbn [negb andb].
  - rewrite decide_True in Hfs by done. destruct (kd_rawname kd) as [[z raw]|] eqn:Er.
    + destruct Hraw as [Hr _]. wp_step. wp_step. eapply wp_Ret; [exact En|].
      destruct (bool_decide _) eqn:Eb; wp_steps; [by eexists|].
      eapply wp_Ret; [exact En|]. wp_steps. eapply wp_Ret; [by apply streq_wp|].
      destruct (bool_decide (chars raw = str)); [|by wp_step]. wp_step.
      eapply wp_mono; [by eapply getroot_device_wp|]. intros r s' [-> ?]. wp_step. by eexists.
    + wp_steps. eapply wp_Ret; [exact En|]. destruct (bool_decide _) eqn:Eb; [|by wp_step].
      wp_step. wp_step. wp_step. wp_step; [by apply bool_decide_true|]. wp_step.
      eapply wp_mono; [by eapply getroot_device_wp|]. intros r s' [-> ?]. wp_step. by eexists.
  - rewrite decide_False in Hfs by done. destruct (fs_volname _ _ Hok Hfs) as [Ev Hvol].
    pose proof (fun vol Hv => streq_wp s _ _ _ (Hvol vol Hv) Hs) as Evol.
    wp_step. wp_step. apply wp_on_w. eapply wp_Ret; [exact Ev|].
    replace (set_vw (vw s) s) with s by (by destruct s). wp_step. eapply wp_Ret; [exact En|]. wp_step.
    assert (Ed : forall b : bool, wpo fs_panics (if b then ret true else match fs_vol (vw s) (kd_fs kd) with
        Some vol => streq vol devname | None => ret false end) s (fun r s' => s' = s /\
          r = b || match fs_vol (vw s) (kd_fs kd) with Some n => bool_decide (chars n = str) | None => false end)).
    { intros []; [by wp_step|]. destruct (fs_vol _ _) as [vol|]; [|by wp_step].
      eapply wp_Ret; [by apply Evol|]. done. }
    eapply wp_mono; [apply Ed|]. intros b s' [-> ->].
    destruct (_ || _) eqn:Eb.
    + wp_step. eapply wp_mono; [by apply acct_root|]. intros v s' [Hr Ha']. wp_steps. by eexists.
    + apply orb_false_iff in Eb as [Eb _]. rewrite Eb in *. wp_steps. eapply wp_Ret; [exact En|].
      destruct (kd_rawname kd) as [[z raw]|]; [|by wp_step]. destruct Hraw as [Hr Hd]. wp_step.
      eapply wp_Ret; [by apply streq_wp|]. destruct (bool_decide (chars raw = str)); [|by wp_step].
      wp_step. eapply wp_mono; [by eapply getroot_device_wp|]. intros r s' [-> ?]. wp_step. by eexists.
Qed.

Lemma num_knowndevs_wp s : vfs_ok s -> num_knowndevs s = Ret (Z.of_nat (length (entries s)), s).
Proof.
  intros Hs. destruct (vo_list _ Hs) as (a & Ea & Hwf). unfold num_knowndevs, the_knowndevs, bind, get, entries.
  rewrite Ea. unfold ret, array_getnum. by rewrite length_fmap, contents_length.
Qed.

Lemma getroot_loop_wp s0 n ps os s devname str (m i : nat) :
  acct s0 n ps os s -> n < 15 -> is_cstr devname str -> length (entries s) = (i + m)%nat ->
  wpo fs_panics (getroot_loop m (Z.of_nat i) devname) s
    (reaches s0 n ps os s (first_target (vw s) str (drop i (entries s)))).
Proof.
  intros Ha Hn Hstr. revert i. induction m as [|m IH]; intros i Hl; cbn [getroot_loop].
  - rewrite drop_ge by lia. by wp_step.
  - destruct (lookup_lt_is_Some_2 (entries s) i) as [e He]; [lia|].
    destruct (kd_at_wp s i e (acct_ok _ _ _ _ _ Ha) He) as (p & kd & -> & Ek & Hk & Hv).
    rewrite (drop_S _ _ _ He). unfold first_target. simpl.
    wp_step. eapply wp_Ret; [exact Ek|]. wp_step. eapply wp_mono; [by apply getroot_entry_wp|].
    intros r s'. destruct (entry_target (vw s) str kd) as [t|].
    + intros (a & -> & Hr). by wp_step.
    + intros [-> ->]. replace (Z.of_nat i + 1) with (Z.of_nat (S i)) by lia. apply IH. lia.
Qed.

Lemma vfs_getroot_wp s0 n ps os s devname str :
  acct s0 n ps os s -> n < 15 -> is_cstr devname str ->
  wpo fs_panics (vfs_getroot devname) s (reaches s0 n ps os s (first_target (vw s) str (entries s))).
Proof.
  intros Ha Hn Hstr. unfold vfs_getroot, with_lock, lock_acquire, lock_release. wp_steps.
  eapply wp_Ret; [by eapply num_knowndevs_wp, acct_ok|]. rewrite Nat2Z.id.
  eapply wp_mono; [by apply (getroot_loop_wp s0 n ps os s devname str _ 0)|]. intros r s' Hr. by wp_steps.
Qed.

(** ** The start of a path *)

(** The error code and the vnode to start from. *)
Definition starts s (st : start) (r v : Z) : Prop :=
  match st with
  | AtCwd => if decide (t_cwd s = 0) then r = ENOENT else r = 0 /\ v = t_cwd s
  | AtBoot => if decide (bootfs_vnode s = 0) then r = ENOENT else r = 0 /\ v = bootfs_vnode s
  | AtCwdRoot =>
      if decide (t_cwd s = 0) then r = ENOENT
      else r = 0 /\ exists o fs d w1 w2, kind (vw s) (t_cwd s) = Some (o, fs, d) /\ fsop_getroot fs w1 = Ret (v, w2)
  | AtDevice dev =>
      match first_target (vw s) dev (entries s) with
      | None => r = ENODEV
      | Some NotMounted => r = ENXIO
      | Some (ToDevice v') => r = 0 /\ v = v'
      | Some (ToRoot fs) => r = 0 /\ exists w2, fsop_getroot fs (vw s) = Ret (v, w2)
      end
  end.

(** The vnode a call hands back when it succeeds. *)
Definition got (r v : Z) : list Z := if r =? 0 then [v] else [].

Lemma acct_le s0 n m ps os s : acct s0 n ps os s -> n <= m -> acct s0 m ps os s.
Proof. intros (? & ? & Ht & ? & ?) Hm. split_and!; try done; [|lia]. by eapply took_cnt. Qed.

Lemma getcurdir_wp s0 n ps os s :
  acct s0 n ps os s -> n < 15 ->
  wpo fs_panics vfs_getcurdir s (fun '(r, v) s' =>
    starts s AtCwd r v /\ (t_cwd s = 0 -> s' = s) /\ acct s0 (n + 1) (got r v ++ ps) os s').
Proof.
  intros Ha Hn. pose proof (acct_ok _ _ _ _ _ Ha) as Hv. unfold vfs_getcurdir, starts. wp_step. wp_step.
  destruct (Z.eqb_spec (t_cwd s) 0) as [E|E]; cbn [negb].
  - wp_step. rewrite decide_True by done. split_and!; try done. eapply acct_le; [exact Ha|lia].
  - wp_step. eapply wp_mono; [apply acct_incref; [done|done| |by apply (vo_use _ Hv)]|].
    { apply root_live; [done| |done]. left. }
    intros [] s' Ha'. wp_step. by rewrite decide_False.
Qed.

Lemma getboot_wp s0 n ps os s :
  acct s0 n ps os s -> n < 15 -> bootfs_vnode s <> 0 ->
  wpo fs_panics (VOP_INCREF (bootfs_vnode s)) s (fun _ s' => acct s0 (n + 1) (bootfs_vnode s :: ps) os s').
Proof.
  intros Ha Hn Hb. pose proof (acct_ok _ _ _ _ _ Ha) as Hv.
  apply acct_incref; [done|done| |by apply (vo_use _ Hv)]. apply root_live; [done| |done]. right. left.
Qed.

Lemma acct_cwd s0 n ps os s :
  acct s0 n ps os s -> t_cwd s0 <> 0 ->
  t_cwd s = t_cwd s0 /\ exists v, vnode_of (vw s) (t_cwd s0) = Some v /\ vn_fs v <> 0 /\ mounted (vw s) (vn_fs v) /\
    kind (vw s0) (t_cwd s0) = Some (vn_ops v, vn_fs v, vn_data v).
Proof.
  intros (Hv & Hs & Ht & _) Hc. assert (Hl : 0 < refs (vw s0) (t_cwd s0)) by (apply root_live; [done|left|done]).
  pose proof (took_live _ _ _ _ _ (t_cwd s0) Ht (or_introl Hl)) as Hl'.
  destruct (vo_cwd _ Hv Hc) as (o & fs & d & K & Hfs). destruct Ht as (w & -> & G). simpl in Hl' |- *. split; [done|].
  destruct (refs_Some _ _ Hl') as (v & Hvn & Er & _). exists v.
  pose proof (g_kind _ _ _ _ _ G _ Hl) as K'. rewrite K in K'. unfold kind in K' at 1. rewrite Hvn in K'. simpl in K'.
  simplify_eq. split_and!; try done. by apply (fs_wf _ _ _ (g_ok _ _ _ _ _ G) Hvn); [lia|].
Qed.

(** [:path] *)
Lemma getcwdroot_wp s0 n ps os s :
  acct s0 n ps os s -> n < 14 ->
  wpo fs_panics (let* (result, vn) := vfs_getcurdir in
        if negb (result =? 0) then ret (result, 0)
        else
          let* v := get_vnode vn in
          let* _ := kassert (negb (vn_fs v =? 0)) in
          let* root := on_w (fsop_getroot (vn_fs v)) in
          let* _ := VOP_DECREF vn in
          ret (0, root)) s (fun '(r, v) s' =>
    starts s AtCwdRoot r v /\ acct s0 (n + 2) (got r v ++ ps) os s').
Proof.
  intros Ha Hn. wp_step. eapply wp_mono; [apply getcurdir_wp; [exact Ha|lia]|]. intros [r v] s1. unfold starts.
  destruct (decide (t_cwd s = 0)) as [E|E].
  { intros (-> & Es & Ha1). change (ENOENT =? 0) with false. cbn [negb]. wp_step. split; [done|]. eapply acct_le; [exact Ha1|lia]. }
  intros ([-> ->] & _ & Ha1). cbn [Z.eqb negb].
  assert (E0 : t_cwd s0 = t_cwd s) by (destruct Ha as (_ & _ & (w & -> & _) & _); done).
  destruct (acct_cwd _ _ _ _ _ Ha1) as (_ & v & Hv & Hf & Hm & K); [congruence|].
  destruct (acct_cwd _ _ _ _ _ Ha) as (_ & v' & Hv' & _ & _ & K'); [congruence|].
  rewrite E0 in *. wp_step. eapply wp_Ret; [by apply get_vnode_wp|]. wp_step. wp_step. wp_step.
  eapply wp_mono; [apply acct_root; [exact Ha1|lia|done]|]. intros root s2 [Er Ha2]. wp_step.
  assert (Hw : within os ps) by (by destruct Ha as (_ & _ & _ & ? & _)).
  eapply wp_mono.
  { apply (acct_decref s0 (n + 2) (root :: ps) os); [|by apply (within_app _ _ [root])].
    destruct Ha2 as (? & ? & Ht & Hw2 & ?). split_and!; try done.
    - eapply took_cnt; [exact Ht|lia|]. intros q. simpl. lia.
    - eapply within_mono; [exact Hw2|]. intros q. simpl. lia.
    - lia. }
  intros [] s3 Ha3. wp_step. split; [|done]. split; [done|]. exists (vn_ops v'), (vn_fs v'), (vn_data v').
  exists (vw s1), (vw s2). split; [unfold kind; by rewrite Hv'|]. congruence.
Qed.

Lemma reaches_starts s0 n ps os s dev r v s' :
  acct s0 n ps os s -> reaches s0 n ps os s (first_target (vw s) dev (entries s)) (r, v) s' ->
  starts s (AtDevice dev) r v /\ acct s0 (n + 1) (got r v ++ ps) os s'.
Proof.
  intros Ha. unfold reaches, starts. destruct (first_target _ _ _) as [[]|]; simpl.
  - intros (-> & E & Ha'). by eauto.
  - intros ([= -> ->] & Ha'). by eauto.
  - intros ([= -> ->] & ->). split; [done|]. eapply acct_le; [exact Ha|lia].
  - intros ([= -> ->] & ->). split; [done|]. eapply acct_le; [exact Ha|lia].
Qed.

(** [getdevice] finds the start of the path and what is left of it; the caller
    has a reference to the vnode if there is no error. *)
Lemma getdevice_wp s0 n ps os s path str :
  acct s0 n ps os s -> n < 14 -> is_cstr path str ->
  wpo fs_panics (getdevice path) s (fun '(r, path', sub, v) s' =>
    starts s (start_of str) r v /\ acct s0 (n + 2) (got r v ++ ps) os s' /\
    (r = 0 -> is_cstr (drop (Z.to_nat sub) path') (subpath_of str))).
Proof.
  intros Ha Hn Hstr. unfold getdevice, start_of. wp_step. eapply wp_lift_Ret; [by apply find_sep_spec|].
  assert (Hcur : subpath_of str = str ->
    wpo fs_panics (let* (result, vn) := vfs_getcurdir in ret (result, path, 0, vn)) s (fun '(r, path', sub, v) s' =>
      starts s AtCwd r v /\ acct s0 (n + 2) (got r v ++ ps) os s' /\
      (r = 0 -> is_cstr (drop (Z.to_nat sub) path') (subpath_of str)))).
  { intros ->. wp_step. eapply wp_mono; [apply getcurdir_wp; [exact Ha|lia]|].
    intros [r v] s' (Hst & _ & Ha'). wp_step. split_and!; [done|eapply acct_le; [exact Ha'|lia]|done]. }
  destruct (first_sep str) as [[i c]|] eqn:Es.
  2: { apply Hcur. unfold subpath_of. by rewrite Es. }
  destruct (first_sep_split _ _ _ Es) as [_ Hc].
  destruct (decide (i = 0%nat)) as [->|Hi].
  - destruct (skip_first _ _ _ Hstr Es) as (Er & Esk & Hsub).
    assert (Hfin : forall t r v s', starts s t r v -> acct s0 (n + 2) (got r v ++ ps) os s' ->
      wpo fs_panics (if negb (r =? 0) then ret (r, path, 0, v)
                     else let* i := lift (skip_slashes (S (length path)) path 0) in ret (0, path, i + 1, v)) s'
        (fun '(r, path', sub, v) s' => starts s t r v /\ acct s0 (n + 2) (got r v ++ ps) os s' /\
          (r = 0 -> is_cstr (drop (Z.to_nat sub) path') (subpath_of str)))).
    { intros t r v s' Hst Ha'. destruct (Z.eqb_spec r 0) as [->|]; cbn [negb]; [|by wp_step].
      wp_step. eapply wp_lift_Ret; [exact Esk|]. wp_step. by split_and!. }
    destruct Hc as [->| ->].
    + change (COLON =? COLON) with true. cbv iota. change (Z.of_nat 0) with 0. cbn [Z.ltb Z.gtb Z.compare andb].
      wp_step. wp_step. wp_step. eapply wp_lift_Ret; [exact Er|]. change (COLON =? SLASH) with false. cbv iota.
      wp_step. wp_step. wp_step.
      eapply wp_mono; [by apply getcwdroot_wp|]. intros [r v] s' [Hst Ha']. by apply Hfin.
    + change (SLASH =? COLON) with false. cbv iota. change (Z.of_nat 0) with 0.
      cbn [Z.ltb Z.gtb Z.eqb Z.compare negb andb].
      wp_step. wp_step. wp_step. eapply wp_lift_Ret; [exact Er|]. change (SLASH =? SLASH) with true. cbv iota.
      unfold lock_acquire, lock_release. wp_steps.
      destruct (Z.eqb_spec (bootfs_vnode s) 0) as [E|E].
      * wp_steps. apply (Hfin AtBoot); [unfold starts; by rewrite decide_True|]. eapply acct_le; [exact Ha|lia].
      * wp_step. eapply wp_mono; [apply getboot_wp; [exact Ha|lia|done]|]. intros [] s' Ha'. wp_steps.
        apply (Hfin AtBoot); [unfold starts; by rewrite decide_False|]. eapply acct_le; [exact Ha'|lia].
  - destruct Hc as [->| ->].
    + change (COLON =? COLON) with true. cbv iota. destruct (Z.ltb_spec (Z.of_nat i) 0); [lia|]. cbn [andb].
      destruct (Z.gtb_spec (Z.of_nat i) 0); [|lia].
      destruct (cut_device _ _ _ Hstr Es) as (path' & Ew & El & Hd & Esk & Hsub).
      wp_step. eapply wp_lift_Ret; [exact Ew|]. wp_step. rewrite El in Esk. eapply wp_lift_Ret; [exact Esk|].
      wp_step. eapply wp_mono; [apply vfs_getroot_wp; [exact Ha|lia|exact Hd]|]. intros [r v] s' Hr. wp_step.
      destruct (reaches_starts _ _ _ _ _ _ _ _ _ Ha Hr) as [Hst Ha'].
      split_and!; [done|eapply acct_le; [exact Ha'|lia]|done].
    + change (SLASH =? COLON) with false. cbv iota. change (-1 <? 0) with true.
      destruct (Z.eqb_spec (Z.of_nat i) 0); [lia|]. apply Hcur. unfold subpath_of. rewrite Es.
      by rewrite bool_decide_false.
Qed.

(** ** Names in use *)

(** One of the three strings passed to [badnames] is such that [P]. *)
Definition among (P : list Z -> Prop) (ns : list (option (list Z))) : Prop :=
  exists b, Some b ∈ ns /\ P (chars b).

Definition strings (ns : list (option (list Z))) : Prop := forall b, Some b ∈ ns -> a_string b.

Lemma samestring_wp s a b :
  strings [a] -> strings [b] ->
  exists r, samestring a b s = Ret (r, s) /\
    (r = true <-> exists x y, a = Some x /\ b = Some y /\ chars y = chars x).
Proof.
  intros Ha Hb. destruct a as [x|], b as [y|]; try (exists false; split; [done|]; naive_solver).
  destruct (Hb y) as [str Hy]; [left|]. exists (bool_decide (chars x = str)). split.
  - apply streq_wp; [apply Ha; left|done].
  - rewrite bool_decide_eq_true. rewrite <- (chars_spec _ _ Hy). naive_solver.
Qed.

Lemma samestring3_wp s a n1 n2 n3 :
  strings [a] -> strings [n1; n2; n3] ->
  exists r, samestring3 a n1 n2 n3 s = Ret (r, s) /\
    (r = true <-> exists x, a = Some x /\ among (fun y => y = chars x) [n1; n2; n3]).
Proof.
  intros Ha Hn. unfold samestring3, among, bind.
  assert (H1 : strings [n1]) by (intros b Hb; apply Hn; set_solver).
  assert (H2 : strings [n2]) by (intros b Hb; apply Hn; set_solver).
  assert (H3 : strings [n3]) by (intros b Hb; apply Hn; set_solver).
  destruct (samestring_wp s a n1 Ha H1) as ([] & -> & E1).
  { exists true. split; [done|]. split; [intros _|done]. destruct E1 as [E1 _].
    destruct E1 as (x & y & -> & -> & E); [done|]. exists x. split; [done|]. exists y. split; [set_solver|done]. }
  destruct (samestring_wp s a n2 Ha H2) as ([] & -> & E2).
  { exists true. split; [done|]. split; [intros _|done]. destruct E2 as [E2 _].
    destruct E2 as (x & y & -> & -> & E); [done|]. exists x. split; [done|]. exists y. split; [set_solver|done]. }
  destruct (samestring_wp s a n3 Ha H3) as (r & -> & E3). exists r. split; [done|]. rewrite E3. split.
  - intros (x & y & -> & -> & E). exists x. split; [done|]. exists y. split; [set_solver|done].
  - intros (x & -> & b & Hb & E). rewrite !elem_of_cons, elem_of_nil in Hb.
    destruct Hb as [<-|[<-|[<-|[]]]]; [destruct E1 as [_ E1]|destruct E2 as [_ E2]|by eauto 6].
    + by discriminate E1; eauto 6.
    + by discriminate E2; eauto 6.
Qed.

Lemma entry_target_names w str kd :
  entry_target w str kd <> None <->
  (kd_fs kd <> 0 /\ exists vol, fs_vol w (kd_fs kd) = Some vol /\ str = chars vol) \/
  (exists raw, snd <$> kd_rawname kd = Some raw /\ str = chars raw) \/ str = chars (kd_name kd).2.
Proof.
  unfold entry_target.
  destruct (Z.eqb_spec (kd_fs kd) 0), (fs_vol w (kd_fs kd)) as [vol|], (kd_rawname kd) as [[z raw]|]; simpl;
    repeat case_bool_decide; naive_solver.
Qed.

Lemma first_target_cons w str e es :
  first_target w str (Some e :: es) <> None <-> entry_target w str e <> None \/ first_target w str es <> None.
Proof. unfold first_target. simpl. destruct (entry_target w str e); naive_solver. Qed.

(** What one entry says of the three names. *)
Lemma badnames_entry s kd n1 n2 n3 :
  vfs_ok s -> kd_ok (vw s) kd -> strings [n1; n2; n3] ->
  exists r1 r2, (if negb (kd_fs kd =? 0) then
       let* volname := on_w (fsop_getvolname (kd_fs kd)) in samestring3 volname n1 n2 n3
     else ret false) s = Ret (r1, s) /\
    (let* bad := samestring3 (snd <$> kd_rawname kd) n1 n2 n3 in
     if (bad : bool) then ret true else samestring3 (Some (kd_name kd).2) n1 n2 n3) s = Ret (r2, s) /\
    (r1 || r2 = true <-> among (fun y => entry_target (vw s) y kd <> None) [n1; n2; n3]).
Proof.
  intros Hs (Hname & Hraw & _ & Hfs) Hn.
  assert (Hr : strings [snd <$> kd_rawname kd]).
  { intros b Hb%list_elem_of_singleton. destruct (kd_rawname kd) as [[z raw]|]; [|done]. simpl in Hb. simplify_eq. apply Hraw. }
  assert (Hm : strings [Some (kd_name kd).2]) by (intros b Hb%list_elem_of_singleton; by simplify_eq).
  destruct (samestring3_wp s _ n1 n2 n3 Hr Hn) as (b2 & E2 & I2).
  destruct (samestring3_wp s _ n1 n2 n3 Hm Hn) as (b3 & E3 & I3).
  assert (H1 : exists r1, (if negb (kd_fs kd =? 0) then
       let* volname := on_w (fsop_getvolname (kd_fs kd)) in samestring3 volname n1 n2 n3
     else ret false) s = Ret (r1, s) /\ (r1 = true <-> kd_fs kd <> 0 /\ exists vol, fs_vol (vw s) (kd_fs kd) = Some vol /\
       among (fun y => y = chars vol) [n1; n2; n3])).
  { destruct (Z.eqb_spec (kd_fs kd) 0) as [E|E]; cbn [negb]; [exists false; split; [done|]; naive_solver|].
    rewrite decide_False in Hfs by done. destruct (fs_volname _ _ (vo_fs _ Hs) Hfs) as [Ev Hv].
    destruct (samestring3_wp s (fs_vol (vw s) (kd_fs kd)) n1 n2 n3) as (b1 & E1 & I1); [|done|].
    { intros b Hb%list_elem_of_singleton. by apply Hv. }
    exists b1. split; [|naive_solver]. unfold bind, on_w. rewrite Ev.
    replace (set_vw (vw s) s) with s by (by destruct s). done. }
  destruct H1 as (b1 & E1 & I1). exists b1, (b2 || b3). split; [done|]. split.
  { unfold bind. rewrite E2. destruct b2; [done|]. by rewrite E3. }
  rewrite !orb_true_iff, I1, I2, I3. unfold among. setoid_rewrite entry_target_names. naive_solver.
Qed.

Lemma badnames_loop_wp s n1 n2 n3 (m i : nat) :
  vfs_ok s -> strings [n1; n2; n3] -> length (entries s) = (i + m)%nat ->
  exists r, badnames_loop m (Z.of_nat i) n1 n2 n3 s = Ret (r, s) /\
    (r = true <-> among (fun y => first_target (vw s) y (drop i (entries s)) <> None) [n1; n2; n3]).
Proof.
  intros Hs Hn. revert i. induction m as [|m IH]; intros i Hl; cbn [badnames_loop].
  - exists false. split; [done|]. rewrite drop_ge by lia. unfold among. naive_solver.
  - destruct (lookup_lt_is_Some_2 (entries s) i) as [e He]; [lia|].
    destruct (kd_at_wp s i e Hs He) as (p & kd & -> & Ek & Hk & Hv).
    destruct (badnames_entry s kd n1 n2 n3 Hs Hk Hn) as (r1 & r2 & E1 & E2 & I).
    destruct (IH (S i)) as (r & E & Ir); [lia|]. exists (r1 || r2 || r). split.
    + rewrite (bind_Ret _ _ _ _ _ Ek), (bind_Ret _ _ _ _ _ E1). destruct r1; [done|].
      unfold bind in E2 |- *. destruct (samestring3 (snd <$> kd_rawname kd) n1 n2 n3 s) as [[b s']|]; [|done].
      rewrite E2. destruct r2; [done|]. by replace (Z.of_nat i + 1) with (Z.of_nat (S i)) by lia.
    + rewrite (drop_S _ _ _ He), orb_true_iff, I, Ir. unfold among. setoid_rewrite first_target_cons. naive_solver.
Qed.

Lemma badnames_wp s n1 n2 n3 :
  vfs_ok s -> strings [n1; n2; n3] ->
  exists r, badnames n1 n2 n3 s = Ret (r, s) /\
    (r = true <-> among (fun y => first_target (vw s) y (entries s) <> None) [n1; n2; n3]).
Proof.
  intros Hs Hn. destruct (badnames_loop_wp s n1 n2 n3 (length (entries s)) 0 Hs Hn eq_refl) as (r & E & I).
  exists r. split; [|done].
  change (badnames n1 n2 n3 s) with ((let* num := num_knowndevs in badnames_loop (Z.to_nat num) 0 n1 n2 n3) s).
  rewrite (bind_Ret _ _ _ _ _ (num_knowndevs_wp s Hs)). by rewrite Nat2Z.id.
Qed.
End Paths.
