(* ===== verification/VfsCalls.v ===== *)
(** * What the path operations do with references

    [vfslookup.c], [vfspath.c] and [vfscwd.c] against the contract of
    [VfsRefs.v]: whatever branch is taken, a path operation gives up the
    references it took on the way; what it hands back has one reference for
    the caller. *)

From S2P Require Import Prelude.
From S2P Require Import Array.
From S2P Require Import Cstring.
From S2P Require Import Uio.
From S2P Require Import Thread.
From S2P Require Import Vnode.
From S2P Require Import Sfs.
From S2P Require Import SfsOps.
From S2P Require Import Vfs.
From S2P Require Import VfsRefs.
From S2P Require Import VfsPaths.

Section Calls.
Context {W VO : Type} `{!Allocator W, !VnodeStore W VO, !VnodeOps W, !FsWorld W VO, !FsView W VO, !FsLaws W VO}.
Context `{!CurSpace}.
Implicit Types (s : vfssys W) (w : W).

Lemma acct_perm s0 n ps qs os s : acct s0 n ps os s -> (forall q, cnt q ps = cnt q qs) -> acct s0 n qs os s.
Proof.
  intros (? & ? & Ht & Hw & ?) Hc. split_and!; try done; [by eapply took_cnt|].
  eapply within_mono; [exact Hw|]. intros q. by rewrite Hc.
Qed.

Lemma acct_within s0 n ps os s : acct s0 n ps os s -> within os ps.
Proof. by intros (_ & _ & _ & ? & _). Qed.

Lemma acct_live s0 n ps os s q : acct s0 n ps os s -> q ∈ ps -> 0 < refs (vw s) q.
Proof. intros (_ & _ & Ht & _) Hq. eapply took_live; [exact Ht|by right]. Qed.

Lemma acct_use s0 n ps os s q : acct s0 n ps os s -> q ∈ ps -> usable (vw s) q.
Proof. intros (_ & _ & Ht & _) Hq. by eapply took_use. Qed.

Lemma held_VOP s0 n ps os s p op q :
  acct s0 n ps os s -> n < 15 -> p ∈ ps -> req_ok (vw s) p q ->
  wpo fs_panics (VOP p op q) s (fun a s' =>
    acct s0 (n + 1) (handed a ++ ps) os s' /\ ans_ok (vw s) p q a /\ kind (vw s') p = kind (vw s) p).
Proof. intros Ha Hn Hp Hq. apply acct_VOP; try done; [by eapply acct_live|by eapply acct_use]. Qed.

(** Giving up a reference taken before those of [qs]. *)
Lemma acct_drop s0 n ps qs os s p :
  acct s0 n (qs ++ p :: ps) os s -> within os ps ->
  wpo fs_panics (VOP_DECREF p) s (fun _ s' => acct s0 n (qs ++ ps) os s').
Proof.
  intros Ha Hw. apply acct_decref; [|by apply within_app].
  eapply acct_perm; [exact Ha|]. intros q. rewrite (cnt_app q qs (p :: ps)). simpl. rewrite cnt_app. lia.
Qed.

(** ** Calls through a vnode *)

Lemma vop_vnode_wp s0 n ps os s p op q :
  acct s0 n ps os s -> n < 15 -> p ∈ ps -> req_ok (vw s) p q ->
  (forall a, ans_ok (vw s) p q a -> (exists r v, a = AnsVnode r v) \/ (exists r, a = AnsCode r /\ r <> 0)) ->
  wpo fs_panics (vop_vnode p op q) s (fun '(r, v) s' => acct s0 (n + 1) (got r v ++ ps) os s').
Proof.
  intros Ha Hn Hl Hq Hk. unfold vop_vnode. wp_step. eapply wp_mono; [by apply held_VOP|].
  intros a s' (Ha' & Hok & Hk'). destruct (Hk a Hok) as [(r & v & ->)|(r & -> & Hr)]; wp_step; [done|].
  unfold got. by destruct (Z.eqb_spec r 0).
Qed.

Lemma VOP_LOOKUP_wp s0 n ps os s p path :
  acct s0 n ps os s -> n < 15 -> p ∈ ps -> a_string path ->
  wpo fs_panics (VOP_LOOKUP p path) s (fun '(r, v) s' => acct s0 (n + 1) (got r v ++ ps) os s').
Proof. intros. apply vop_vnode_wp; try done. intros [] Ha; simpl in Ha; eauto; done. Qed.

Lemma VOP_CREAT_wp s0 n ps os s p name excl :
  acct s0 n ps os s -> n < 15 -> p ∈ ps -> a_string name ->
  wpo fs_panics (VOP_CREAT p name excl) s (fun '(r, v) s' => acct s0 (n + 1) (got r v ++ ps) os s').
Proof. intros. apply vop_vnode_wp; try done. intros [] Ha; simpl in Ha; eauto; done. Qed.

Lemma VOP_LOOKPARENT_wp s0 n ps os s p path buf buflen :
  acct s0 n ps os s -> n < 15 -> p ∈ ps -> a_string path -> Z.of_nat (length buf) = buflen ->
  wpo fs_panics (VOP_LOOKPARENT p path buf buflen) s (fun '(r, v, buf') s' =>
    acct s0 (n + 1) (got r v ++ ps) os s' /\ length buf' = length buf /\ (r = 0 -> a_string buf')).
Proof.
  intros Ha Hn Hl Hp Hb. unfold VOP_LOOKPARENT. wp_step. eapply wp_mono; [by apply held_VOP|].
  intros [r|r u|r v|r st|r m|r v buf'] s' (Ha' & Hok & _); simpl in Hok; try done; wp_step.
  unfold got. destruct (Z.eqb_spec r 0); [done|]. by split_and!.
Qed.

(** An operation that hands back no vnode. *)
Definition plain (q : request) : Prop :=
  match q with
  | ReqLookup _ | ReqCreat _ _ | ReqLookparent _ _ _ => False
  | _ => True
  end.

Lemma plain_handed w p q a : plain q -> ans_ok w p q a -> handed a = [].
Proof. by destruct q, a. Qed.

Lemma vop_code_wp s0 n ps os s p op q :
  acct s0 n ps os s -> n < 15 -> p ∈ ps -> req_ok (vw s) p q -> plain q ->
  wpo fs_panics (vop_code p op q) s (fun _ s' => acct s0 (n + 1) ps os s').
Proof.
  intros Ha Hn Hl Hq Hp. unfold vop_code. wp_step. eapply wp_mono; [by apply held_VOP|].
  intros a s' (Ha' & Hok & Hk'). rewrite (plain_handed _ _ _ _ Hp Hok) in Ha'. by destruct a; wp_step.
Qed.

Lemma VOP_UIO_wp s0 n ps os s p op q u :
  acct s0 n ps os s -> n < 15 -> p ∈ ps -> req_ok (vw s) p q -> plain q ->
  wpo fs_panics (VOP_UIO p op q u) s (fun _ s' => acct s0 (n + 1) ps os s').
Proof.
  intros Ha Hn Hl Hq Hp. unfold VOP_UIO. wp_step. eapply wp_mono; [by apply held_VOP|].
  intros a s' (Ha' & Hok & Hk'). rewrite (plain_handed _ _ _ _ Hp Hok) in Ha'. by destruct a; wp_step.
Qed.

(** ** Looking up a path *)

Lemma lookparent_wp s0 n ps os s path str buf buflen :
  acct s0 n ps os s -> n < 12 -> is_cstr path str -> Z.of_nat (length buf) = buflen ->
  wpo fs_panics (vfs_lookparent path buf buflen) s (fun '(r, v, buf') s' =>
    acct s0 (n + 3) (got r v ++ ps) os s' /\ length buf' = length buf /\ (r = 0 -> a_string buf')).
Proof.
  intros Ha Hn Hp Hb. pose proof (acct_within _ _ _ _ _ Ha) as Hw. unfold vfs_lookparent. wp_step.
  eapply wp_mono; [apply getdevice_wp; [exact Ha|lia|exact Hp]|]. intros [[[r path'] sub] v] s1 (_ & Ha1 & Hsub).
  unfold got in Ha1 |- *. destruct (Z.eqb_spec r 0) as [->|Hr]; cbn [negb].
  2: { wp_step. split_and!; [|done|done]. destruct (Z.eqb_spec r 0); [done|]. eapply acct_le; [exact Ha1|lia]. }
  specialize (Hsub eq_refl). simpl in Ha1. wp_step. eapply wp_lift_Ret; [by apply strlen_spec|]. wp_step.
  assert (Hfin : forall r2 v2 buf2 s2, acct s0 (n + 3) (got r2 v2 ++ v :: ps) os s2 ->
    length buf2 = length buf -> (r2 = 0 -> a_string buf2) ->
    wpo fs_panics (let* _ := VOP_DECREF v in ret (r2, v2, buf2)) s2 (fun '(r, v, buf') s' =>
      acct s0 (n + 3) (got r v ++ ps) os s' /\ length buf' = length buf /\ (r = 0 -> a_string buf'))).
  { intros r2 v2 buf2 s2 Ha2 Hl2 Hs2. wp_step. eapply wp_mono; [by apply acct_drop|]. intros [] s3 Ha3. by wp_step. }
  destruct (_ =? 0) eqn:E0.
  - wp_step. apply (Hfin EINVAL); [|done|done]. eapply acct_le; [exact Ha1|lia].
  - eapply wp_mono; [eapply VOP_LOOKPARENT_wp; [exact Ha1|lia|left|by eexists|done]|].
    intros [[r2 v2] buf2] s2 (Ha2 & ? & ?). apply Hfin; try done. eapply acct_le; [exact Ha2|lia].
Qed.

Lemma starts_err s st r v v' : starts s st r v -> r <> 0 -> starts s st r v'.
Proof.
  intros Hs Hr. destruct st as [| | |dev]; simpl in *; [by destruct (decide _) as [|]; [|destruct Hs]..|].
  destruct (first_target _ _ _) as [[]|]; try done; by destruct Hs.
Qed.

Lemma wp_ran {T A} pn (m : M T A) (t : T) (Q : A -> T -> Prop) :
  wpo pn m t Q -> wpo pn m t (fun a t' => Q a t' /\ m t = Ret (a, t')).
Proof. unfold wpx. destruct (m t) as [[a t']|[]]; auto. Qed.

(** What a path names: the vnode it starts from, or what that vnode finds under
    the rest of the path. *)
Definition resolves s (str : list Z) (r v : Z) : Prop :=
  (r <> 0 /\ starts s (start_of str) r v) \/
  exists startvn, starts s (start_of str) 0 startvn /\
    if decide (subpath_of str = []) then r = 0 /\ v = startvn
    else exists path s1 s2, is_cstr path (subpath_of str) /\ VOP_LOOKUP startvn path s1 = Ret ((r, v), s2).

Lemma lookup_wp s0 n ps os s path str :
  acct s0 n ps os s -> n < 12 -> is_cstr path str ->
  wpo fs_panics (vfs_lookup path) s (fun '(r, v) s' =>
    acct s0 (n + 3) (got r v ++ ps) os s' /\ resolves s str r v).
Proof.
  intros Ha Hn Hp. pose proof (acct_within _ _ _ _ _ Ha) as Hw. unfold vfs_lookup, resolves. wp_step.
  eapply wp_mono; [apply getdevice_wp; [exact Ha|lia|exact Hp]|]. intros [[[r path'] sub] v] s1 (Hst & Ha1 & Hsub).
  destruct (Z.eqb_spec r 0) as [->|Hr]; cbn [negb].
  2: { wp_step. split; [|left; split; [done|by eapply starts_err]]. unfold got in *.
       destruct (Z.eqb_spec r 0); [done|]. eapply acct_le; [exact Ha1|lia]. }
  specialize (Hsub eq_refl). unfold got in Ha1. simpl in Ha1. wp_step. eapply wp_lift_Ret; [by apply strlen_spec|].
  destruct (Z.eqb_spec (Z.of_nat (length (subpath_of str))) 0) as [E0|E0].
  - wp_step. split; [eapply acct_le; [exact Ha1|lia]|]. right. exists v. split; [done|].
    rewrite decide_True; [done|]. destruct (subpath_of str); [done|]. simpl in E0. lia.
  - wp_step. eapply wp_mono.
    { apply wp_ran. eapply VOP_LOOKUP_wp; [exact Ha1|lia|left|by eexists]. }
    intros [r2 v2] s2 [Ha2 Er]. wp_step. eapply wp_mono; [by apply acct_drop|]. intros [] s3 Ha3. wp_step. split.
    + eapply acct_le; [exact Ha3|lia].
    + right. exists v. split; [done|]. rewrite decide_False; [|intros E; by rewrite E in E0]. eauto 6.
Qed.

(** ** The operations of [vfspath.c] *)

Lemma on_parent_wp s0 n ps os s name path str (call : Z -> list Z -> M (vfssys W) Z) :
  acct s0 n ps os s -> n < 11 -> is_cstr path str -> Z.of_nat (length name) = NAME_SIZE ->
  (forall s1 dir name', acct s0 (n + 3) (dir :: ps) os s1 -> a_string name' ->
     wpo fs_panics (call dir name') s1 (fun _ s2 => acct s0 (n + 4) (dir :: ps) os s2)) ->
  wpo fs_panics (on_parent name path call) s (fun _ s' => acct s0 (n + 4) ps os s').
Proof.
  intros Ha Hn Hp Hl Hcall. pose proof (acct_within _ _ _ _ _ Ha) as Hw. unfold on_parent. wp_step.
  eapply wp_mono; [eapply lookparent_wp; [exact Ha|lia|exact Hp|exact Hl]|].
  intros [[r dir] name'] s1 (Ha1 & _ & Hname). unfold got in Ha1. destruct (Z.eqb_spec r 0) as [->|]; cbn [negb].
  - wp_step. eapply wp_mono; [by apply Hcall; [|apply Hname]|]. intros r s2 Ha2. wp_step.
    eapply wp_mono; [eapply acct_decref; [exact Ha2|exact Hw]|]. intros [] s3 Ha3. by wp_step.
  - wp_step. eapply acct_le; [exact Ha1|lia].
Qed.

(** A call on the directory a path operation holds. *)
Lemma held_code_wp s0 n ps os s dir op q :
  acct s0 n (dir :: ps) os s -> n < 15 -> req_ok (vw s) dir q -> plain q ->
  wpo fs_panics (vop_code dir op q) s (fun _ s' => acct s0 (n + 1) (dir :: ps) os s').
Proof. intros Ha Hn Hq Hp. apply vop_code_wp; try done. left. Qed.

Lemma same_fs_wp s0 n ps os s old new call :
  acct s0 n (new :: old :: ps) os s -> within os ps ->
  wpo fs_panics call s (fun _ s' => acct s0 (n + 1) (new :: old :: ps) os s') ->
  wpo fs_panics (same_fs old new call) s (fun _ s' => acct s0 (n + 1) ps os s').
Proof.
  intros Ha Hw Hcall. unfold same_fs.
  destruct (refs_Some _ old (acct_live _ _ _ _ _ old Ha ltac:(right; left))) as (vo & Ho & _).
  destruct (refs_Some _ new (acct_live _ _ _ _ _ new Ha ltac:(left))) as (vn & Hv & _).
  wp_step. eapply wp_Ret; [by apply get_vnode_wp|]. wp_step. eapply wp_Ret; [by apply get_vnode_wp|]. wp_step.
  eapply (wp_mono _ _ (fun _ s' => acct s0 (n + 1) (new :: old :: ps) os s')).
  { destruct (_ || _); [|done]. wp_step. eapply acct_le; [exact Ha|lia]. }
  intros r s1 Ha1. wp_step. eapply wp_mono; [by eapply acct_decref; [exact Ha1|apply (within_app _ _ [old])]|].
  intros [] s2 Ha2. wp_step. eapply wp_mono; [eapply acct_decref; [exact Ha2|exact Hw]|]. intros [] s3 Ha3. by wp_step.
Qed.

Lemma rename_wp s0 n ps os s oldname newname oldpath newpath old new :
  acct s0 n ps os s -> n < 8 -> is_cstr oldpath old -> is_cstr newpath new ->
  Z.of_nat (length oldname) = NAME_SIZE -> Z.of_nat (length newname) = NAME_SIZE ->
  wpo fs_panics (vfs_rename oldname newname oldpath newpath) s (fun _ s' => acct s0 (n + 7) ps os s').
Proof.
  intros Ha Hn Ho Hp Hlo Hlp. pose proof (acct_within _ _ _ _ _ Ha) as Hw. unfold vfs_rename. wp_step.
  eapply wp_mono; [eapply lookparent_wp; [exact Ha|lia|exact Ho|exact Hlo]|].
  intros [[r dir] name'] s1 (Ha1 & _ & Hname). unfold got in Ha1. destruct (Z.eqb_spec r 0) as [->|]; cbn [negb].
  2: { wp_step. eapply acct_le; [exact Ha1|lia]. }
  wp_step. eapply wp_mono; [eapply lookparent_wp; [exact Ha1|lia|exact Hp|exact Hlp]|].
  intros [[r dir2] name2] s2 (Ha2 & _ & Hname2). unfold got in Ha2. destruct (Z.eqb_spec r 0) as [->|]; cbn [negb].
  2: { wp_step. eapply wp_mono; [eapply acct_decref; [exact Ha2|exact Hw]|]. intros [] s3 Ha3. wp_step.
       eapply acct_le; [exact Ha3|lia]. }
  simpl in Ha2. replace (n + 7) with (n + 3 + 3 + 1) by lia. apply same_fs_wp; [done|done|].
  apply vop_code_wp; [done|lia|right; left| |done].
  split_and!; [auto|auto|eapply acct_live; [exact Ha2|left]].
Qed.

Lemma link_wp s0 n ps os s newname oldpath newpath old new :
  acct s0 n ps os s -> n < 8 -> is_cstr oldpath old -> is_cstr newpath new ->
  Z.of_nat (length newname) = NAME_SIZE ->
  wpo fs_panics (vfs_link newname oldpath newpath) s (fun _ s' => acct s0 (n + 7) ps os s').
Proof.
  intros Ha Hn Ho Hp Hlp. pose proof (acct_within _ _ _ _ _ Ha) as Hw. unfold vfs_link. wp_step.
  eapply wp_mono; [eapply lookup_wp; [exact Ha|lia|exact Ho]|].
  intros [r f] s1 (Ha1 & _). unfold got in Ha1. destruct (Z.eqb_spec r 0) as [->|]; cbn [negb].
  2: { wp_step. eapply acct_le; [exact Ha1|lia]. }
  wp_step. eapply wp_mono; [eapply lookparent_wp; [exact Ha1|lia|exact Hp|exact Hlp]|].
  intros [[r dir2] name2] s2 (Ha2 & _ & Hname2). unfold got in Ha2. destruct (Z.eqb_spec r 0) as [->|]; cbn [negb].
  2: { wp_step. eapply wp_mono; [eapply acct_decref; [exact Ha2|exact Hw]|]. intros [] s3 Ha3. wp_step.
       eapply acct_le; [exact Ha3|lia]. }
  simpl in Ha2. replace (n + 7) with (n + 3 + 3 + 1) by lia. apply same_fs_wp; [done|done|].
  apply vop_code_wp; [done|lia|left| |done].
  split; [auto|eapply acct_live; [exact Ha2|right; left]].
Qed.

Lemma within_cons p os ps : within os ps -> within (p :: os) (p :: ps).
Proof. intros Hw q. specialize (Hw q). simpl. lia. Qed.

Lemma live_nonzero w q : fs_ok w -> 0 < refs w q -> q <> 0.
Proof. intros Hok Hl. destruct (refs_Some _ _ Hl) as (v & Hv & Er & _). apply (fs_wf _ _ _ Hok Hv). lia. Qed.

Lemma opens_le s q : vfs_ok s -> 0 < refs (vw s) q -> opens (vw s) q <= refs (vw s) q.
Proof.
  intros Hv Hl. pose proof (vo_refs _ Hv q (live_nonzero _ _ (vo_fs _ Hv) Hl)). pose proof (fs_keeps _ q (vo_fs _ Hv)). pose proof (cnt_nonneg q (roots s)). lia.
Qed.

Lemma acct_incopen s0 n ps os s p :
  acct s0 n (p :: ps) os s -> n < 15 -> within os ps ->
  wpo fs_panics (VOP_INCOPEN p) s (fun _ s' => acct s0 (n + 1) (p :: ps) (p :: os) s').
Proof.
  intros Ha Hn Hw. assert (Hl : 0 < refs (vw s) p) by (eapply acct_live; [exact Ha|left]).
  pose proof (opens_le _ _ (acct_ok _ _ _ _ _ Ha) Hl). destruct Ha as (Hv & Hs & Ht & _ & Hn0).
  pose proof (took_small _ _ _ _ _ Ht Hs (conj Hn0 Hn) p).
  eapply wp_mono; [apply wp_calm, incopen_took; [exact Ht|done|lia]|].
  intros [] s' Ht'. split_and!; try done; [by apply within_cons|lia].
Qed.

Lemma acct_decopen s0 n ps os s p :
  acct s0 n (p :: ps) (p :: os) s -> within os ps ->
  wpo fs_panics (VOP_DECOPEN p) s (fun _ s' => acct s0 n (p :: ps) os s').
Proof.
  intros (Hv & Hs & Ht & _ & Hn) Hw.
  assert (Hw' : within os (p :: ps)) by (by apply (within_app _ _ [p])).
  eapply wp_mono; [apply decopen_took; [done|exact Ht|left|done]|]. intros [] s' Ht'. by split_and!.
Qed.

Lemma close_wp s0 n ps os s p :
  acct s0 n (p :: ps) (p :: os) s -> within os ps ->
  wpo fs_panics (vfs_close p) s (fun _ s' => acct s0 n ps os s').
Proof.
  intros Ha Hw. unfold vfs_close. wp_step. eapply wp_mono; [by eapply acct_decopen|].
  intros [] s1 Ha1. eapply acct_decref; [exact Ha1|exact Hw].
Qed.

(** The second half of [vfs_open], on a vnode it holds. *)
Lemma opened_wp s0 n ps os s vn openflags canwrite :
  acct s0 n (vn :: ps) os s -> n < 12 -> within os ps ->
  wpo fs_panics (let* _ := kassert (negb (vn =? 0)) in
      let* result := vop_code vn VopOpen (ReqOpen openflags) in
      if negb (result =? 0) then
        let* _ := VOP_DECREF vn in
        ret (result, 0)
      else
        let* _ := VOP_INCOPEN vn in
        if negb (Z.land openflags O_TRUNC =? 0) then open_trunc vn canwrite else ret (0, vn)) s
    (fun '(r, v) s' => acct s0 (n + 3) (got r v ++ ps) (got r v ++ os) s').
Proof.
  intros Ha Hn Hw.
  destruct (refs_Some _ vn (acct_live _ _ _ _ _ vn Ha ltac:(left))) as (v & Hv & Er & _).
  destruct (fs_wf _ _ _ (vo_fs _ (acct_ok _ _ _ _ _ Ha)) Hv) as (H0 & _).
  { rewrite <- Er. eapply acct_live; [exact Ha|left]. }
  wp_step. wp_step. wp_step. eapply wp_mono; [apply held_code_wp; [exact Ha|lia|done|done]|]. intros r s1 Ha1.
  assert (Hfail : forall m r s2, acct s0 m (vn :: ps) os s2 -> m <= n + 3 -> r <> 0 ->
    wpo fs_panics (let* _ := VOP_DECREF vn in ret (r, 0)) s2
      (fun '(r, v) s' => acct s0 (n + 3) (got r v ++ ps) (got r v ++ os) s')).
  { intros m r' s2 Ha2 Hm Hr. wp_step. eapply wp_mono; [eapply acct_decref; [exact Ha2|exact Hw]|].
    intros [] s3 Ha3. wp_step. unfold got. destruct (Z.eqb_spec r' 0); [done|]. by eapply acct_le. }
  destruct (Z.eqb_spec r 0) as [->|Hr]; cbn [negb]; [|by eapply Hfail; [exact Ha1|lia|]].
  wp_step. eapply wp_mono; [apply acct_incopen; [exact Ha1|lia|done]|]. intros [] s2 Ha2.
  destruct (negb _). 2: { wp_step. unfold got. simpl. eapply acct_le; [exact Ha2|lia]. }
  unfold open_trunc. wp_step.
  eapply (wp_mono _ _ (fun _ s' => acct s0 (n + 3) (vn :: ps) (vn :: os) s')).
  { destruct canwrite.
    - replace (n + 3) with (n + 1 + 1 + 1) by lia. apply held_code_wp; [exact Ha2|lia|done|done].
    - wp_step. eapply acct_le; [exact Ha2|lia]. }
  intros r s3 Ha3. destruct (Z.eqb_spec r 0) as [->|Hr]; cbn [negb]; [by wp_step|].
  wp_step. eapply wp_mono; [eapply acct_decopen; [exact Ha3|exact Hw]|]. intros [] s4 Ha4.
  by eapply Hfail; [exact Ha4|lia|].
Qed.

Lemma open_wp s0 n ps os s name path str openflags :
  acct s0 n ps os s -> n < 8 -> is_cstr path str -> Z.of_nat (length name) = NAME_SIZE ->
  wpo fs_panics (vfs_open name path openflags) s (fun '(r, v) s' =>
    acct s0 (n + 7) (got r v ++ ps) (got r v ++ os) s').
Proof.
  intros Ha Hn Hp Hl. pose proof (acct_within _ _ _ _ _ Ha) as Hw. unfold vfs_open.
  destruct (negb _); [wp_step; eapply acct_le; [exact Ha|lia]|]. wp_step.
  eapply (wp_mono _ _ (fun '(r, v) s' => acct s0 (n + 4) (got r v ++ ps) os s')).
  - destruct (negb (Z.land openflags O_CREAT =? 0)).
    + wp_step. eapply wp_mono; [eapply lookparent_wp; [exact Ha|lia|exact Hp|exact Hl]|].
      intros [[r dir] name'] s1 (Ha1 & _ & Hname). unfold got in Ha1. destruct (Z.eqb_spec r 0) as [->|Hr]; cbn [negb].
      2: { wp_step. unfold got. destruct (Z.eqb_spec r 0); [done|]. eapply acct_le; [exact Ha1|lia]. }
      wp_step. eapply wp_mono; [apply VOP_CREAT_wp; [exact Ha1|lia|left|auto]|].
      intros [r vn] s2 Ha2. wp_step. eapply wp_mono; [eapply acct_drop; [exact Ha2|done]|]. intros [] s3 Ha3. wp_step.
      eapply acct_le; [exact Ha3|lia].
    + eapply wp_mono; [eapply lookup_wp; [exact Ha|lia|exact Hp]|]. intros [r v] s1 [Ha1 _].
      eapply acct_le; [exact Ha1|lia].
  - intros [r vn] s1 Ha1. unfold got in Ha1. destruct (Z.eqb_spec r 0) as [->|Hr]; cbn [negb].
    + replace (n + 7) with (n + 4 + 3) by lia. apply opened_wp; [done|lia|done].
    + wp_step. unfold got. destruct (Z.eqb_spec r 0); [done|]. eapply acct_le; [exact Ha1|lia].
Qed.

Lemma readlink_wp s0 n ps os s path str u :
  acct s0 n ps os s -> n < 8 -> is_cstr path str ->
  wpo fs_panics (vfs_readlink path u) s (fun _ s' => acct s0 (n + 4) ps os s').
Proof.
  intros Ha Hn Hp. pose proof (acct_within _ _ _ _ _ Ha) as Hw. unfold vfs_readlink. wp_step.
  eapply wp_mono; [eapply lookup_wp; [exact Ha|lia|exact Hp]|].
  intros [r v] s1 [Ha1 _]. unfold got in Ha1. destruct (Z.eqb_spec r 0) as [->|]; cbn [negb].
  2: { wp_step. eapply acct_le; [exact Ha1|lia]. }
  wp_step. eapply wp_mono; [apply VOP_UIO_wp; [exact Ha1|lia|left|done|done]|].
  intros [r u'] s2 Ha2. wp_step. eapply wp_mono; [eapply acct_decref; [exact Ha2|exact Hw]|]. intros [] s3 Ha3. wp_step.
  eapply acct_le; [exact Ha3|lia].
Qed.

(** ** The current directory *)

Lemma VOP_GETTYPE_wp s0 n ps os s p :
  acct s0 n ps os s -> n < 15 -> p ∈ ps ->
  wpo fs_panics (VOP_GETTYPE p) s (fun '(r, m) s' => acct s0 (n + 1) ps os s' /\
    (r = 0 -> S_ISDIR m = true -> exists o fs d, kind (vw s') p = Some (o, fs, d) /\ fs <> 0)).
Proof.
  intros Ha Hn Hl. unfold VOP_GETTYPE. wp_step. eapply wp_mono; [by apply held_VOP|].
  intros a s' (Ha' & Hok & Hk'). rewrite (plain_handed (vw s) p ReqGettype a) in Ha' by done.
  destruct a; wp_step; (split; [done|]); rewrite ?Hk'; try done; by intros _ ?.
Qed.

(** One reference moves from the old directory to the new one. *)
Definition moves_cwd s (v : Z) (s' : vfssys W) : Prop :=
  vfs_ok s' /\ t_cwd s' = v /\ knowndevs s' = knowndevs s /\ kdtab s' = kdtab s /\ bootfs_vnode s' = bootfs_vnode s /\
  forall q, 0 < refs (vw s) q -> q <> t_cwd s \/ 1 < refs (vw s) q \/ q = v ->
    refs (vw s') q = refs (vw s) q + cnt q [v] - cnt q [t_cwd s].

(** The references other than those of the current directory. *)
Definition rest s : list Z := bootfs_vnode s :: omap (fmap kd_vnode) (entries s).

Lemma cnt_1 p : cnt p [p] = 1.
Proof. by rewrite cnt_cons_eq. Qed.

Lemma cnt_0 q p : q <> p -> cnt q [p] = 0.
Proof. intros. by rewrite cnt_cons_ne. Qed.

Lemma vv v q : cnt q [v; v] = 2 * cnt q [v].
Proof. simpl. lia. Qed.

(** After two references to the new directory have been taken. *)
Lemma cwd_taken n s v w1 :
  vfs_ok s -> grants n (vw s) w1 [v; v] [] ->
  2 <= refs w1 v /\
  (forall q, q <> 0 -> cnt q [t_cwd s] + cnt q (rest s) + 2 * cnt q [v] + opens w1 q + kept w1 q <= refs w1 q) /\
  (forall q, 0 < refs (vw s) q -> q <> 0 /\ refs w1 q = refs (vw s) q + 2 * cnt q [v]).
Proof.
  intros Hs G. split_and!.
  - pose proof (g_new _ _ _ _ _ G v) as Hv. revert Hv. simpl. rewrite Z.eqb_refl. lia.
  - intros q Hq. pose proof (vo_refs _ Hs q Hq) as Hr. unfold roots in Hr. fold (rest s) in Hr.
    change (t_cwd s :: rest s) with ([t_cwd s] ++ rest s) in Hr. rewrite cnt_app in Hr.
    pose proof (cnt_nonneg q [t_cwd s]). pose proof (cnt_nonneg q (rest s)). rewrite <- vv.
    rewrite (g_opens _ _ _ _ _ G q), (g_kept _ _ _ _ _ G q). simpl (cnt q []). pose proof (fs_keeps _ q (vo_fs _ Hs)). destruct (fs_nonneg _ q (vo_fs _ Hs)).
    destruct (decide (0 < refs (vw s) q)) as [Hl|]; [rewrite (g_live _ _ _ _ _ G q Hl); lia|].
    pose proof (g_new _ _ _ _ _ G q). lia.
  - intros q Hl. rewrite <- vv. split; [|by apply (g_live _ _ _ _ _ G)].
    exact (live_nonzero _ _ (vo_fs _ Hs) Hl).
Qed.

(** The old directory is given up. *)
Lemma cwd_leaves n s v w1 w2 :
  vfs_ok s -> grants n (vw s) w1 [v; v] [] ->
  (if decide (t_cwd s = 0) then w2 = w1 else drops w1 w2 (t_cwd s)) ->
  fs_ok w2 /\ 2 <= refs w2 v /\ kind w2 v = kind w1 v /\
  (forall q d, devnode w2 q d -> devnode w1 q d) /\ (forall fs, mounted w1 fs -> mounted w2 fs) /\
  (forall q, q <> 0 -> cnt q (rest s) + 2 * cnt q [v] + opens w2 q + kept w2 q <= refs w2 q) /\
  (forall q, 0 < refs (vw s) q -> q <> t_cwd s \/ 1 < refs (vw s) q \/ q = v ->
     refs w2 q = refs (vw s) q + 2 * cnt q [v] - cnt q [t_cwd s]).
Proof.
  intros Hs G H2. pose proof (g_ok _ _ _ _ _ G) as Hok. destruct (cwd_taken _ _ _ _ Hs G) as (Hv & Hq1 & Hl1).
  destruct (decide (t_cwd s = 0)) as [E|E].
  - subst w2. split_and!; try done.
    + intros q Hq. specialize (Hq1 q Hq). pose proof (cnt_nonneg q [t_cwd s]). lia.
    + intros q Hl _. destruct (Hl1 q Hl) as [Hq ->]. rewrite (cnt_0 q (t_cwd s)) by congruence. lia.
  - destruct (fs_nonneg w2 (t_cwd s) (d_ok _ _ _ H2)) as [Hn _]. destruct (fs_nonneg w1 (t_cwd s) Hok) as [_ Hn1].
    pose proof (d_last _ _ _ H2) as Hlast. pose proof (fs_keeps w2 (t_cwd s) (d_ok _ _ _ H2)) as Hkp.
    pose proof (d_kept _ _ _ H2) as Ekp. rewrite Ekp in Hkp.
    pose proof (Hq1 _ E) as Hc. rewrite cnt_1 in Hc.
    pose proof (cnt_nonneg (t_cwd s) (rest s)). pose proof (cnt_nonneg (t_cwd s) [v]).
    assert (Hm : 1 < refs w1 (t_cwd s) -> refs w2 (t_cwd s) = refs w1 (t_cwd s) - 1 /\
      opens w2 (t_cwd s) = opens w1 (t_cwd s) /\ kind w2 (t_cwd s) = kind w1 (t_cwd s)) by apply (d_more _ _ _ H2).
    assert (Hk : 2 <= refs w2 v /\ kind w2 v = kind w1 v).
    { destruct (decide (v = t_cwd s)) as [->|Hne].
      - rewrite cnt_1 in *. destruct Hm as (? & _ & ?); [lia|]. split; [lia|done].
      - by destruct (drops_other _ _ _ _ H2 Hne) as (-> & _ & ->). }
    destruct Hk. split_and!; try done; [by apply (d_ok _ _ _ H2)|..].
    + intros q d Hd. destruct (decide (q = t_cwd s)) as [->|Hne]; [by apply (d_dev _ _ _ H2)|].
      destruct Hd as (o & fs & Hk & ?). exists o, fs. by destruct (drops_other _ _ _ _ H2 Hne) as (_ & _ & <-).
    + apply (d_mounted _ _ _ H2).
    + intros q Hq. rewrite Ekp. destruct (decide (q = t_cwd s)) as [->|Hne].
      * destruct (decide (1 < refs w1 (t_cwd s))); [destruct Hm as (? & ? & _); [done|]; lia|]. destruct Hlast; lia.
      * destruct (drops_other _ _ _ _ H2 Hne) as (-> & -> & _). specialize (Hq1 q Hq). rewrite cnt_0 in Hq1 by done. lia.
    + intros q Hl Hor. destruct (Hl1 q Hl) as [_ E1]. destruct (decide (q = t_cwd s)) as [->|Hne].
      * rewrite (cnt_1 (t_cwd s)). destruct Hm as (? & _); [|lia].
        destruct Hor as [?|[?|Ev]]; [done|lia|]. rewrite <- Ev, cnt_1 in E1. lia.
      * destruct (drops_other _ _ _ _ H2 Hne) as (-> & _). rewrite E1, (cnt_0 q (t_cwd s)) by done. lia.
Qed.

Lemma cwd_moves n s v w1 w2 w3 :
  vfs_ok s -> grants n (vw s) w1 [v; v] [] -> (exists o fs d, kind w1 v = Some (o, fs, d) /\ fs <> 0) ->
  (if decide (t_cwd s = 0) then w2 = w1 else drops w1 w2 (t_cwd s)) -> drops w2 w3 v ->
  moves_cwd s v (set_cwd v (set_vw w3 s)).
Proof.
  intros Hs G Hfs H2 H3. destruct (cwd_leaves _ _ _ _ _ Hs G H2) as (Hok & Hv & Hk & Hd & Hm & Hq & He).
  destruct (d_more _ _ _ H3) as (Er & Eo & Ek); [lia|].
  assert (Hr : forall q, refs w3 q = refs w2 q - cnt q [v]).
  { intros q. destruct (decide (q = v)) as [->|Hne]; [rewrite cnt_1; lia|].
    destruct (drops_other _ _ _ _ H3 Hne) as (-> & _). rewrite cnt_0 by done. lia. }
  assert (Hd2 : forall q d, devnode w3 q d -> devnode w2 q d).
  { intros q d Hd3. destruct (decide (q = v)) as [->|Hne]; [by apply H3|].
    destruct Hd3 as (o & fs & K & ?). exists o, fs. by destruct (drops_other _ _ _ _ H3 Hne) as (_ & _ & <-). }
  assert (Hdev : forall q d, devnode w3 q d -> devnode (vw s) q d).
  { intros q d Hd3. by apply (g_dev _ _ _ _ _ G), Hd, Hd2. }
  split_and!; try done.
  2: { intros q Hl Hor. simpl vw. rewrite Hr, (He q Hl Hor). lia. }
  constructor.
  - apply H3.
  - apply Hs.
  - change (entries (set_cwd v (set_vw w3 s))) with (entries s).
    eapply Forall_impl; [exact (vo_kds _ Hs)|]. intros e (kd & -> & (Hn & Hraw & Hu & Hf) & Hv0).
    exists kd. split; [done|]. split; [|exact Hv0]. split; [exact Hn|]. split; [exact Hraw|].
    split; [by intros ? ?%Hdev; apply Hu|].
    destruct (decide (kd_fs kd = 0)); [done|]. by apply (d_mounted _ _ _ H3), Hm, (g_mounted _ _ _ _ _ G).
  - intros q d Hd3. by apply (vo_dev _ Hs q), Hdev.
  - intros _. simpl. by rewrite Ek, Hk.
  - destruct (vo_use _ Hs) as [_ Hb]. split.
    + intros _ Hd3%Hd2%Hd. apply (g_use _ _ _ _ _ G v); [simpl; rewrite Z.eqb_refl; lia|done].
    + intros H0 Hd3%Hdev. by apply Hb.
  - intros q H0. specialize (Hq q H0). change (cnt q ([v] ++ rest s) + opens w3 q + kept w3 q <= refs w3 q).
    rewrite Hr, cnt_app, (d_kept _ _ _ H3).
    destruct (decide (q = v)) as [->|Hne]; [lia|]. destruct (drops_other _ _ _ _ H3 Hne) as (_ & -> & _). lia.
Qed.

Lemma wp_both {T A} pn (m : M T A) (t : T) (Q R : A -> T -> Prop) :
  wpo pn m t Q -> wpo pn m t R -> wpo pn m t (fun a t' => Q a t' /\ R a t').
Proof. unfold wpx. destruct (m t) as [[a t']|[]]; auto. Qed.

Lemma acct_incref_kind s0 n ps os s p :
  acct s0 n ps os s -> n < 15 -> p ∈ ps ->
  wpo fs_panics (VOP_INCREF p) s (fun _ s' => acct s0 (n + 1) (p :: ps) os s' /\ kind (vw s') p = kind (vw s) p).
Proof.
  intros Ha Hn Hp. pose proof (acct_live _ _ _ _ _ _ Ha Hp) as Hl. pose proof (acct_use _ _ _ _ _ _ Ha Hp) as Hu.
  apply wp_both; [by apply acct_incref|]. pose proof (acct_ok _ _ _ _ _ Ha) as Hv.
  destruct Ha as (_ & Hs & Ht & _ & Hn0). pose proof (took_small _ _ _ _ _ Ht Hs (conj Hn0 Hn) p).
  eapply wp_mono; [apply wp_calm, incref_took; [apply took_refl, Hv|done|done]|]. intros [] s' Ht'. by eapply took_kind.
Qed.

(** [vfs_setcurdir] on a vnode the caller holds, and the caller giving it up. *)
Lemma setcurdir_wp s n v s1 :
  acct s n [v] [] s1 -> n < 12 ->
  wpo fs_panics (let* result := vfs_setcurdir v in
                 let* _ := VOP_DECREF v in
                 ret result) s1 (fun r s' =>
    if decide (r = 0) then moves_cwd s v s' else acct s (n + 2) [] [] s').
Proof.
  intros Ha Hn. unfold vfs_setcurdir. wp_step. wp_step.
  eapply wp_mono; [apply VOP_GETTYPE_wp; [exact Ha|lia|left]|].
  intros [r m] s2 [Ha2 Hdir].
  assert (Hfail : forall r, r <> 0 -> wpo fs_panics (let* _ := VOP_DECREF v in ret r) s2 (fun r s' =>
    if decide (r = 0) then moves_cwd s v s' else acct s (n + 2) [] [] s')).
  { intros r' Hr. wp_step. eapply wp_mono; [eapply acct_decref; [exact Ha2|by intros ?]|]. intros [] s3 Ha3. wp_step.
    rewrite decide_False by done. eapply acct_le; [exact Ha3|lia]. }
  destruct (Z.eqb_spec r 0) as [->|Hr]; cbn [negb]; [|wp_step; by apply Hfail].
  destruct (S_ISDIR m) eqn:Ed; cbn [negb]; [|wp_step; by apply Hfail].
  wp_step. eapply wp_mono; [apply acct_incref_kind; [exact Ha2|lia|left]|].
  intros [] s3 [Ha3 Hk]. destruct (Hdir eq_refl eq_refl) as (o & fs & d & K & Hfs).
  pose proof Ha3 as (Hv & _ & (w1 & -> & G) & _ & _). simpl in Hk. wp_steps.
  assert (Hv2 : 2 <= refs w1 v) by (by apply (cwd_taken _ _ _ _ Hv G)).
  eapply (wp_mono _ _ (fun _ s' => exists w2, s' = set_cwd v (set_vw w2 s) /\
    if decide (t_cwd s = 0) then w2 = w1 else drops w1 w2 (t_cwd s))).
  { simpl. destruct (Z.eqb_spec (t_cwd s) 0) as [E|E]; cbn [negb].
    - wp_step. exists w1. by rewrite decide_True.
    - destruct (cwd_taken _ _ _ _ Hv G) as (_ & Hq & _). specialize (Hq _ E). rewrite cnt_1 in Hq.
      destruct (fs_nonneg _ (t_cwd s) (g_ok _ _ _ _ _ G)). pose proof (fs_keeps _ (t_cwd s) (g_ok _ _ _ _ _ G)).
      pose proof (cnt_nonneg (t_cwd s) (rest s)). pose proof (cnt_nonneg (t_cwd s) [v]).
      eapply wp_mono; [apply decref_drops; [apply G|simpl; lia|simpl; lia]|].
      intros [] s' (w2 & -> & Hd). exists w2. by rewrite decide_False. }
  intros [] s4 (w2 & -> & Hd). destruct (cwd_leaves _ _ _ _ _ Hv G Hd) as (Hok & Hv3 & _ & _ & _ & Hq3 & _).
  assert (Hk3 : kept w2 v < refs w2 v).
  { specialize (Hq3 v). rewrite cnt_1 in Hq3. pose proof (cnt_nonneg v (rest s)). destruct (fs_nonneg _ v Hok).
    assert (v <> 0) by (apply (live_nonzero _ _ Hok); lia). lia. }
  wp_steps.
  eapply wp_mono; [apply decref_drops; [done|simpl; lia|simpl; lia]|]. intros [] s5 (w3 & -> & Hd3). wp_step.
  rewrite decide_True by done. eapply (cwd_moves _ s v w1 w2 w3); try done. exists o, fs, d. by rewrite Hk.
Qed.

Lemma chdir_wp s path str :
  vfs_ok s -> small s -> is_cstr path str ->
  wpo fs_panics (vfs_chdir path) s (fun r s' =>
    if decide (r = 0) then exists v, resolves s str 0 v /\ moves_cwd s v s' else took s 5 [] [] s').
Proof.
  intros Hv Hs Hp. unfold vfs_chdir. wp_step.
  eapply wp_mono; [eapply lookup_wp; [by apply acct_refl|done|exact Hp]|].
  intros [r v] s1 [Ha Hr]. unfold got in Ha. destruct (Z.eqb_spec r 0) as [->|Hr0]; cbn [negb].
  - eapply wp_mono; [by apply (setcurdir_wp s)|]. intros r s'. cbv beta. destruct (decide (r = 0)); [intros; by exists v|].
    by intros (_ & _ & ? & _).
  - wp_step. rewrite decide_False by done. destruct Ha as (_ & _ & Ht & _). by eapply took_cnt.
Qed.
End Calls.
