(* ===== verification/VfsSpec.v ===== *)
(** * What the VFS layer promises

    The theorems on paths and references, and a small file system on which
    they can be seen at work. *)

From S2P Require Import Prelude.
From S2P Require Import Array.
From S2P Require Import Bytes.
From S2P Require Import Cstring.
From S2P Require Import Uio.
From S2P Require Import Thread.
From S2P Require Import Vnode.
From S2P Require Import Sfs.
From S2P Require Import SfsOps.
From S2P Require Import Vfs.
From S2P Require Import VfsRefs.
From S2P Require Import VfsPaths.
From S2P Require Import VfsCalls.

Section Spec.
Context {W VO : Type} `{!VnodeStore W VO, !VnodeOps W, !FsWorld W VO, !FsView W VO, !FsLaws W VO}.
Implicit Types (s : vfssys W).

(** Every reference and every open taken is given up. *)
Definition gives_back {A} s (m : M (vfssys W) A) : Prop :=
  wpo fs_panics m s (fun _ s' => vfs_ok s' /\ took s 7 [] [] s').

Lemma acct_done {A} s n (m : M (vfssys W) A) :
  n <= 7 -> wpo fs_panics m s (fun _ s' => acct s n [] [] s') -> gives_back s m.
Proof.
  intros Hn Hm. eapply wp_mono; [exact Hm|]. intros a s' Ha. split; [exact (acct_ok _ _ _ _ _ Ha)|].
  destruct Ha as (_ & _ & Ht & _). by eapply took_cnt.
Qed.

Lemma remove_like_wp s name path str op (q : list Z -> request) :
  vfs_ok s -> small s -> is_cstr path str -> Z.of_nat (length name) = NAME_SIZE ->
  (forall w dir n, a_string n -> req_ok w dir (q n) /\ plain (q n)) ->
  gives_back s (on_parent name path (fun dir name => vop_code dir op (q name))).
Proof.
  intros Hv Hs Hp Hl Hq. apply (acct_done s 4); [done|].
  eapply wp_mono; [eapply (on_parent_wp s 0); [by apply acct_refl|done|exact Hp|exact Hl|]|].
  - intros s1 dir name' Ha Hn. destruct (Hq (vw s1) dir name' Hn). by apply (held_code_wp s 3).
  - done.
Qed.

(** C18: [vfs_lookup] starts a path where its form says, in the current directory,
    at the root of the file system of [/] or of the current directory, or at
    the device or volume of that name in the table, and hands the rest of the
    path, without its leading slashes, to the vnode it starts from.  Whatever
    the outcome, the only reference taken is the one to the vnode handed back. *)
Theorem vfs_lookup_resolves s path str :
  vfs_ok s -> small s -> is_cstr path str ->
  wpo fs_panics (vfs_lookup path) s (fun '(r, v) s' =>
    vfs_ok s' /\ resolves s str r v /\ took s 3 (got r v) [] s').
Proof.
  intros Hv Hs Hp. eapply wp_mono; [eapply lookup_wp; [by apply acct_refl|done|exact Hp]|].
  intros [r v] s' [Ha Hr]. split; [by eapply acct_ok|]. split; [done|].
  destruct Ha as (_ & _ & Ht & _). by rewrite app_nil_r in Ht.
Qed.

(** C17: opening a path and closing what was opened leaves every reference and
    open count of a vnode in use as it was; an open that fails, at whatever
    point, leaves nothing behind either, and one that succeeds holds exactly
    one reference and one open of its vnode. *)
Theorem vfs_open_close s name path str openflags :
  vfs_ok s -> small s -> is_cstr path str -> Z.of_nat (length name) = NAME_SIZE ->
  wpo fs_panics (vfs_open name path openflags) s (fun '(r, v) s' =>
    vfs_ok s' /\ took s 7 (got r v) (got r v) s') /\
  gives_back s (let* (r, v) := vfs_open name path openflags in
                if r =? 0 then vfs_close v else ret tt).
Proof.
  intros Hv Hs Hp Hl. pose proof (open_wp s 0 [] [] s name path str openflags (acct_refl s Hv Hs) eq_refl Hp Hl) as Ho.
  split.
  - eapply wp_mono; [exact Ho|]. intros [r v] s' Ha. rewrite !app_nil_r in Ha. split; [by eapply acct_ok|].
    by destruct Ha as (_ & _ & Ht & _).
  - apply (acct_done s 7); [done|]. wp_step. eapply wp_mono; [exact Ho|]. intros [r v] s' Ha.
    rewrite !app_nil_r in Ha. unfold got in Ha. destruct (r =? 0); [by apply close_wp|by wp_step].
Qed.

(** C19: [vfs_remove], [vfs_mkdir], [vfs_rmdir], [vfs_symlink], [vfs_rename],
    [vfs_link] and [vfs_readlink] give up every reference they take, on every
    branch: after a path that does not resolve, two names on different file
    systems, an error of the file system, or success. *)
Theorem path_operations_give_back s n1 n2 path1 path2 contents str1 str2 strc u :
  vfs_ok s -> small s -> is_cstr path1 str1 -> is_cstr path2 str2 -> is_cstr contents strc ->
  Z.of_nat (length n1) = NAME_SIZE -> Z.of_nat (length n2) = NAME_SIZE ->
  gives_back s (vfs_remove n1 path1) /\ gives_back s (vfs_mkdir n1 path1) /\ gives_back s (vfs_rmdir n1 path1) /\
  gives_back s (vfs_symlink n1 contents path1) /\ gives_back s (vfs_rename n1 n2 path1 path2) /\
  gives_back s (vfs_link n2 path1 path2) /\ gives_back s (vfs_readlink path1 u).
Proof.
  intros Hv Hs H1 H2 Hc Hl1 Hl2. pose proof (acct_refl s Hv Hs) as Ha.
  split_and!; try (by eapply remove_like_wp).
  - eapply (remove_like_wp _ _ _ _ VopSymlink (fun n => ReqSymlink n contents)); try done.
    intros w dir n Hn. split; [|done]. split; [done|by eexists].
  - apply (acct_done s 7); [done|]. by eapply (rename_wp s 0).
  - apply (acct_done s 7); [done|]. by eapply (link_wp s 0).
  - apply (acct_done s 4); [done|]. by eapply (readlink_wp s 0).
Qed.

(** C20: [vfs_chdir] moves one reference, from the old current directory to the
    vnode the path names, and keeps the layer's invariant: what it holds is
    counted.  If it fails nothing changed. *)
Theorem vfs_chdir_moves s path str :
  vfs_ok s -> small s -> is_cstr path str ->
  wpo fs_panics (vfs_chdir path) s (fun r s' =>
    if decide (r = 0) then exists v, resolves s str 0 v /\ moves_cwd s v s' else took s 5 [] [] s').
Proof. apply chdir_wp. Qed.

(** C21: a name is refused for a new device exactly when it already leads
    somewhere: if [badnames] says no, [vfs_getroot] knows none of the names,
    and if it says yes, one of them reaches a device, a volume or a device
    without a file system. *)
Theorem badnames_exact s n1 n2 n3 :
  vfs_ok s -> small s -> strings [n1; n2; n3] ->
  exists r, badnames n1 n2 n3 s = Ret (r, s) /\
    if r then exists b, Some b ∈ [n1; n2; n3] /\ wpo fs_panics (vfs_getroot b) s (fun '(e, _) _ => e <> ENODEV)
    else forall b, Some b ∈ [n1; n2; n3] ->
           wpo fs_panics (vfs_getroot b) s (fun a s' => a = (ENODEV, 0) /\ s' = s).
Proof.
  intros Hv Hs Hn. destruct (badnames_wp s n1 n2 n3 Hv Hn) as (r & E & I). exists r. split; [done|].
  assert (G : forall b, Some b ∈ [n1; n2; n3] -> wpo fs_panics (vfs_getroot b) s
    (reaches s 0 [] [] s (first_target (vw s) (chars b) (entries s)))).
  { intros b Hb. destruct (Hn b Hb) as [str Hstr]. rewrite (chars_spec _ _ Hstr).
    apply vfs_getroot_wp; [by apply acct_refl|done|done]. }
  destruct r.
  - destruct I as [I _]. destruct (I eq_refl) as (b & Hb & Ht). exists b. split; [done|].
    eapply wp_mono; [by apply G|]. intros [e v] s' Hr.
    destruct (first_target _ _ _) as [[]|]; simpl in Hr; [by destruct Hr as [-> _]| | |done];
      destruct Hr as [[= -> ->] _]; done.
  - intros b Hb. eapply wp_mono; [by apply G|]. intros [e v] s'.
    destruct (first_target _ _ _) as [t|] eqn:Et; [|done]. destruct I as [_ I].
    exfalso. discriminate I. exists b. by rewrite Et.
Qed.
End Spec.

(** ** The root of absolute paths *)

(** [vfs_setbootfs] refuses every name with a colon among the characters it
    copies, at the end of the name as well: the colon itself counts in the
    length of what is to follow it. *)
Theorem vfs_setbootfs_no_colon {W VO} `{!VnodeStore W VO, !VnodeOps W, !FsWorld W VO}
    junk fsname (s : vfssys W) :
  Forall (fun c => c <> 0) fsname -> COLON ∈ take (Z.to_nat (NAME_MAX - 1)) fsname ->
  vfs_setbootfs junk fsname s = Ret (EINVAL, s).
Proof.
  intros Hz Hc. unfold vfs_setbootfs, copy_fsname. set (str := take _ fsname) in *.
  set (tail := drop (length str + 1) junk).
  assert (Hz' : Forall (fun c => c <> 0) str) by (by apply Forall_take).
  assert (Hs : is_cstr (str ++ [0] ++ tail) str) by (by exists tail).
  unfold bind, lift. rewrite (strchr_spec _ _ COLON Hs).
  destruct (list_find (fun c => schar c = COLON) (str ++ [0])) as [[i c]|] eqn:E.
  2: { apply list_find_None in E. rewrite Forall_forall in E. exfalso. apply (E COLON); [set_solver|done]. }
  apply list_find_Some in E as (Hi & Hch & _).
  assert (Hlt : (i < length str)%nat).
  { apply lookup_lt_Some in Hi as Hl. rewrite length_app in Hl. simpl in Hl.
    destruct (decide (i = length str)) as [->|]; [|lia]. rewrite list_lookup_middle in Hi by done. by simplify_eq. }
  change (_ <$> Some (i, c)) with (Some (Z.of_nat i)). cbv iota beta. rewrite Nat2Z.id.
  assert (Hd : is_cstr (drop i (str ++ [0] ++ tail)) (drop i str)).
  { exists tail. rewrite drop_app_le by lia. split; [done|by apply Forall_drop]. }
  rewrite (strlen_spec _ _ Hd), length_drop. destruct (Z.gtb_spec (Z.of_nat (length str - i)) 0); [done|lia].
Qed.

(** ** A small file system

    One directory, in which every name is the same file; both stay in memory.
    A function table is [true] for devices. *)

Module Small.
Abbreviation world := (gmap Z (vnode bool)).
Definition DIR : Z := 100.
Definition FILE : Z := 200.
Definition FS : Z := 7.

Definition bump (p : Z) : M world unit := fun w =>
  match w !! p with
  | Some v => Ret (tt, <[p := set_refcount (vn_refcount v + 1) v]> w)
  | None => Stop Fault
  end.

#[global] Instance store : VnodeStore world bool := {
  get_vnode p w := match w !! p with Some v => Ret (v, w) | None => Stop Fault end;
  put_vnode p v w := Ret (tt, <[p := v]> w);
  vop_magic _ := VOP_MAGIC;
}.

#[global] Instance ops : VnodeOps world := {
  vop_reclaim _ := ret EBUSY;
  vop_close _ := ret 0;
}.

Definition call (p : Z) (q : request) : M world answer :=
  match q with
  | ReqOpen _ | ReqTruncate _ | ReqRemove _ => ret (AnsCode 0)
  | ReqGettype => ret (AnsMode 0 (if p =? DIR then S_IFDIR else S_IFREG))
  | ReqLookup _ | ReqCreat _ _ =>
      if p =? DIR then let* _ := bump FILE in ret (AnsVnode 0 FILE) else ret (AnsCode ENOTDIR)
  | ReqLookparent path buf n =>
      match strlen path with
      | Ret len =>
          if (p =? DIR) && (len + 1 <=? n) then
            let* buf := lift (strcpy buf path) in
            let* _ := bump DIR in
            ret (AnsName 0 DIR buf)
          else ret (AnsCode EINVAL)
      | Stop e => halt e
      end
  | _ => ret (AnsCode EUNIMP)
  end.

#[global] Instance fsworld : FsWorld world bool := {
  dev_vnode_ops := true;
  is_dev o := o;
  fs_call := call;
  fsop_sync _ := ret 0;
  fsop_getvolname _ := ret None;
  fsop_getroot _ := let* _ := bump DIR in ret DIR;
  fsop_unmount _ := ret EBUSY;
}.

(** Both are there, and counted. *)
Definition resident (w : world) (p : Z) : Prop :=
  exists v, w !! p = Some v /\ 0 < vn_refcount v /\ vn_ops v = Some false.

Definition sane (p : Z) (v : vnode bool) : Prop :=
  p <> 0 /\ p <> DEADBEEF /\ 0 <= vn_refcount v /\ 0 <= vn_opencount v /\
  vn_fs v = (if bool_decide (vn_ops v = Some true) then 0 else FS) /\ vn_ops v <> None.

#[global] Instance view : FsView world bool := {
  fs_panics := False;
  fs_ok w := resident w DIR /\ resident w FILE /\ map_Forall sane w;
  vnode_of w p := w !! p;
  mounted _ fs := fs = FS;
  fs_vol _ _ := None;
  kept _ _ := 0;
}.

Lemma put_ok (w : world) p v v' :
  fs_ok w -> w !! p = Some v -> 0 < vn_refcount v' -> 0 <= vn_opencount v' ->
  vn_fs v' = vn_fs v -> vn_ops v' = vn_ops v -> fs_ok (<[p := v']> w).
Proof.
  intros (Hd & Hf & Ha) Hv Hr Ho Ef Eo.
  assert (Hres : forall q, resident w q -> resident (<[p := v']> w) q).
  { intros q (u & Hu & ? & Hop). unfold resident. destruct (decide (p = q)) as [->|].
    - exists v'. rewrite lookup_insert_eq. rewrite Hv in Hu. simplify_eq. by rewrite Eo.
    - exists u. by rewrite lookup_insert_ne. }
  split_and!; auto. apply map_Forall_insert_2; [|done].
  destruct (Ha _ _ Hv) as (? & ? & ? & ? & E & ?). unfold sane. rewrite Ef, Eo. split_and!; try done. lia.
Qed.

Lemma bump_grants (w : world) p :
  fs_ok w -> resident w p -> wp (bump p) w (fun _ w' => grants 1 w w' [p] []).
Proof.
  intros Hok (v & Hv & Hr & Hop). unfold bump, wpx. rewrite Hv. destruct Hok as (Hd & Hf & Ha).
  pose proof (Ha _ _ Hv) as (_ & _ & _ & Ho & _).
  assert (Hok' : fs_ok (<[p:=set_refcount (vn_refcount v + 1) v]> w)) by (eapply put_ok; try done; simpl; lia).
  assert (Hk : forall q, kind (<[p:=set_refcount (vn_refcount v + 1) v]> w) q = kind w q).
  { intros q. unfold kind. simpl. destruct (decide (p = q)) as [->|]; [by rewrite lookup_insert_eq, Hv|].
    by rewrite lookup_insert_ne. }
  assert (Hc : forall q, refs (<[p:=set_refcount (vn_refcount v + 1) v]> w) q = refs w q + cnt q [p] /\
    opens (<[p:=set_refcount (vn_refcount v + 1) v]> w) q = opens w q).
  { intros q. unfold refs, opens. simpl. destruct (Z.eqb_spec p q) as [->|].
    - rewrite lookup_insert_eq, Hv. simpl. lia.
    - rewrite lookup_insert_ne by done. lia. }
  assert (Hn : forall q, 0 <= refs w q /\ 0 <= opens w q).
  { intros q. unfold refs, opens. simpl. destruct (w !! q) eqn:E; [|lia]. destruct (Ha _ _ E) as (_ & _ & ? & ? & _). done. }
  constructor; try done.
  - intros q d (o & fs & E & ?). rewrite Hk in E. by exists o, fs.
  - intros q _. destruct (Hc q) as [-> _]. simpl. lia.
  - intros q. destruct (Hc q) as [-> _], (Hn q). simpl. lia.
  - intros q. destruct (Hc q) as [-> _], (Hn q). simpl. destruct (p =? q); lia.
  - intros q. destruct (Hc q) as [_ ->]. simpl. lia.
  - intros q Hq (o & fs & E & ?). rewrite Hk in E. simpl in Hq. destruct (Z.eqb_spec p q) as [->|]; [|lia].
    unfold kind in E. simpl in E. rewrite Hv in E. simpl in E. simplify_eq.
Qed.

Lemma quiet_grants (w : world) n : fs_ok w -> 0 <= n -> grants n w w [] [].
Proof.
  intros (Hd & Hf & Ha) Hn. assert (Hq : forall q, 0 <= refs w q /\ 0 <= opens w q).
  { intros q. unfold refs, opens. simpl. destruct (w !! q) eqn:E; [|lia]. destruct (Ha _ _ E) as (_ & _ & ? & ? & _). done. }
  constructor; try done; intros q; destruct (Hq q); simpl; lia.
Qed.

Lemma named (w : world) p q :
  fs_ok w -> (forall a, ans_ok w p q a <-> match a with AnsVnode _ _ => True | AnsCode r => r <> 0 | _ => False end) ->
  wp (if p =? DIR then let* _ := bump FILE in ret (AnsVnode 0 FILE) else ret (AnsCode ENOTDIR)) w
    (fun a w' => grants 1 w w' (handed a) [] /\ ans_ok w p q a).
Proof.
  intros Hok Hq. destruct (p =? DIR); [|wp_step; split; [by apply quiet_grants|by apply Hq]].
  wp_step. eapply wp_mono; [apply bump_grants; [done|apply Hok]|]. intros [] w' G. wp_step. split; [done|]. by apply Hq.
Qed.

#[global] Instance laws : FsLaws world bool.
Proof.
  split.
  - intros w p v Hv. simpl in *. by rewrite Hv.
  - intros w p v (_ & _ & Ha) Hv Hr. simpl in Hv. destruct (Ha _ _ Hv) as (? & ? & _ & _ & Ef & Ho).
    destruct (vn_ops v) as [o|]; [|done]. split_and!; try done; [| |by exists o].
    + rewrite Ef. by destruct o.
    + rewrite Ef. simpl. by destruct o.
  - intros w p (_ & _ & Ha). unfold refs, opens. simpl. destruct (w !! p) eqn:E; [|done].
    by destruct (Ha _ _ E) as (_ & _ & ? & ? & _).
  - intros w p Hok. assert (Hg : grants 0 w w [] []) by (by apply quiet_grants). pose proof (g_new _ _ _ _ _ Hg p) as Hn. by simpl in *.
  - intros w p v r o Hok Hv Hl Hr Ho _. eexists. split; [done|]. split; [by eapply put_ok|]. split; [|done].
    intros q. simpl. destruct (decide (q = p)) as [->|]; [by rewrite lookup_insert_eq|by rewrite lookup_insert_ne].
  - intros w p Hok Hr Ho _ Hd. change (vop_reclaim p) with (ret EBUSY : M world Z). wp_step. split; [done|].
    split; [done|]. split; [lia|]. done.
  - intros w p Hok Hl Hd. change (vop_close p) with (ret 0 : M world Z). wp_step. by apply quiet_grants.
  - intros w p q Hok _ Hl Hd Hq. simpl fs_panics. simpl fs_call. unfold call.
    assert (Hg : grants 1 w w [] []) by (by apply quiet_grants).
    pose proof Hok as (Hdir & Hfile & _).
    destruct q; simpl in Hq; try done; try (wp_step; by split).
    + destruct (Z.eqb_spec p DIR) as [->|]; wp_step; (split; [done|]); [|by intros _ ?].
      intros _ _. destruct Hdir as (v & Hv & _ & Hop). destruct Hok as (_ & _ & Ha).
      destruct (Ha _ _ Hv) as (_ & _ & _ & _ & Ef & _). rewrite Hop in Ef. unfold kind. simpl. rewrite Hv. simpl.
      do 3 eexists. split; [done|]. by rewrite Ef.
    + by apply named.
    + by apply named.
    + destruct Hq as [[str Hstr] Hn]. rewrite (strlen_spec _ _ Hstr).
      destruct (Z.eqb_spec p DIR); simpl; [|by wp_step].
      destruct (Z.leb_spec (Z.of_nat (length str) + 1) buflen); [|by wp_step].
      wp_step. eapply wp_lift_Ret; [apply strcpy_spec; [exact Hstr|lia]|]. wp_step.
      eapply wp_mono; [by apply bump_grants|]. intros [] w' G. wp_step. split; [done|]. simpl. split.
      * apply length_splice. rewrite length_app. simpl. lia.
      * intros _. exists str. unfold splice. simpl. rewrite <- app_assoc. eexists. split; [done|].
        by destruct Hstr as (? & _ & ?).
  - intros w fs Hok _ ->. simpl. wp_step. eapply wp_mono; [apply bump_grants; [done|apply Hok]|]. intros [] w' G. by wp_step.
  - intros w fs Hok ->. by split.
Qed.

(** A device [d] that holds the file system, and the current directory its
    root. *)
Definition booted : vfssys world :=
  mkVfs (Some (mkArray 500 1 1 (Some (mkBlock 510 [Some 600])))) None
    {[600 := mkKd (610, [100; 0]) (Some (620, [100; 114; 97; 119; 0])) 300 400 FS]}
    {[300 := null_device]} 0 None DIR
    (<[DIR := mkVnode 2 0 None FS 0 (Some false)]> (<[FILE := mkVnode 1 0 None FS 0 (Some false)]>
       {[400 := mkVnode 1 0 None 0 300 (Some true)]})).

Lemma booted_cases q v :
  vnode_of (vw booted) q = Some v ->
  (q = DIR /\ v = mkVnode 2 0 None FS 0 (Some false)) \/ (q = FILE /\ v = mkVnode 1 0 None FS 0 (Some false)) \/
  (q = 400 /\ v = mkVnode 1 0 None 0 300 (Some true)).
Proof.
  intros H. cbn [vw booted vnode_of view] in H. apply lookup_insert_Some in H as [[? ?]|[_ H]]; [by left|].
  apply lookup_insert_Some in H as [[? ?]|[_ H]]; [by right; left|].
  apply lookup_singleton_Some in H as [? ?]. by right; right.
Qed.

Lemma booted_ok : vfs_ok booted.
Proof.
  constructor.
  - split_and!; [eexists; split; [reflexivity|by split]..|]. intros q v H.
    destruct (booted_cases q v H) as [[-> ->]|[[-> ->]|[-> ->]]]; by split_and!.
  - eexists. by split.
  - repeat constructor. eexists. split_and!; [done| |done]. split_and!; [|split; [|done]| |done].
    + exists [100], []. split; [done|by repeat constructor].
    + exists [100; 114; 97; 119], []. split; [done|by repeat constructor].
    + intros _ (o & fs & H & _). by vm_compute in H.
  - intros q d (o & fs & H & Hd) H0. unfold kind in H. destruct (vnode_of (vw booted) q) as [v|] eqn:E; [|done].
    destruct (booted_cases q v E) as [[-> ->]|[[-> ->]|[-> ->]]]; simpl in H; simplify_eq.
    exists null_device. split; [done|]. intros w Hw. split; intros; by apply quiet_grants.
  - intros _. by do 3 eexists.
  - split; [|done]. intros _ (o & fs & H & Hd). vm_compute in H. simplify_eq.
  - intros q Hq. change (roots booted) with [DIR; 0; 400].
    destruct (decide (q = DIR)) as [->|]; [done|]. destruct (decide (q = 400)) as [->|]; [done|].
    rewrite !cnt_cons_ne by done. unfold refs, opens. destruct (vnode_of (vw booted) q) as [v|] eqn:E; [|done].
    by destruct (booted_cases q v E) as [[-> ->]|[[-> ->]|[-> ->]]].
Qed.

Lemma booted_small : small booted.
Proof.
  intros q. unfold refs. destruct (vnode_of (vw booted) q) as [v|] eqn:E; [|lia].
  destruct (booted_cases q v E) as [[-> ->]|[[-> ->]|[-> ->]]]; simpl; lia.
Qed.

(** "d:/f" and "g". *)
Definition far : list Z := [100; 58; 47; 102; 0].
Definition near : list Z := [103; 0].
Definition buffer : list Z := replicate (Z.to_nat NAME_SIZE) 0.

Lemma far_string : is_cstr far [100; 58; 47; 102].
Proof. exists []. split; [done|by repeat constructor]. Qed.

Lemma near_string : is_cstr near [103].
Proof. exists []. split; [done|by repeat constructor]. Qed.

Definition code {A} (r : res (A * vfssys world)) : option A :=
  match r with Ret (a, _) => Some a | Stop _ => None end.
End Small.

Lemma vfs_lookup_resolves_witness :
  Small.code (vfs_lookup Small.far Small.booted) = Some (0, Small.FILE) /\
  wp (vfs_lookup Small.far) Small.booted (fun '(r, v) s' =>
    vfs_ok s' /\ resolves Small.booted [100; 58; 47; 102] r v /\ took Small.booted 3 (got r v) [] s').
Proof.
  split; [vm_compute; reflexivity|].
  exact (vfs_lookup_resolves _ _ _ Small.booted_ok Small.booted_small Small.far_string).
Defined.

Lemma vfs_open_close_witness :
  Small.code (vfs_open Small.buffer Small.far (Z.lor O_RDWR O_CREAT) Small.booted) = Some (0, Small.FILE) /\
  gives_back Small.booted (let* (r, v) := vfs_open Small.buffer Small.far (Z.lor O_RDWR O_CREAT) in
                           if r =? 0 then vfs_close v else ret tt).
Proof.
  split; [vm_compute; reflexivity|].
  destruct (vfs_open_close _ Small.buffer _ _ (Z.lor O_RDWR O_CREAT) Small.booted_ok Small.booted_small Small.far_string)
    as [_ H]; [reflexivity|exact H].
Defined.

Lemma path_operations_give_back_witness :
  Small.code (vfs_remove Small.buffer Small.near Small.booted) = Some 0 /\
  gives_back Small.booted (vfs_remove Small.buffer Small.near) /\
  gives_back Small.booted (vfs_rename Small.buffer Small.buffer Small.near Small.far).
Proof.
  split; [vm_compute; reflexivity|].
  destruct (path_operations_give_back _ Small.buffer Small.buffer _ _ Small.near _ _ _
    (mk_kuio [0] 1 0 UIO_READ) Small.booted_ok Small.booted_small Small.near_string Small.far_string
    Small.near_string) as (H1 & _ & _ & _ & H2 & _); [reflexivity|reflexivity|exact (conj H1 H2)].
Defined.

Lemma badnames_exact_witness :
  exists r, badnames (Some Small.far) (Some [100; 0]) None Small.booted = Ret (r, Small.booted) /\ r = true.
Proof.
  destruct (badnames_exact Small.booted (Some Small.far) (Some [100; 0]) None Small.booted_ok Small.booted_small)
    as (r & E & _).
  - intros b Hb. apply elem_of_cons in Hb as [[= ->]|Hb]; [eexists; exact Small.far_string|].
    apply elem_of_cons in Hb as [[= ->]|Hb]; [|by apply list_elem_of_singleton in Hb].
    exists [100], []. split; [done|by repeat constructor].
  - exists r. split; [exact E|]. vm_compute in E. by simplify_eq.
Defined.

(** "lhd0:" *)
Lemma vfs_setbootfs_no_colon_witness :
  vfs_setbootfs [] [108; 104; 100; 48; 58] Small.booted = Ret (EINVAL, Small.booted).
Proof. apply vfs_setbootfs_no_colon; [by repeat constructor|set_solver]. Defined.

Lemma vfs_chdir_moves_witness :
  Small.code (vfs_chdir Small.far Small.booted) = Some ENOTDIR /\ Small.code (vfs_chdir [100; 58; 0] Small.booted) = Some 0 /\
  wp (vfs_chdir Small.far) Small.booted (fun r s' =>
    if decide (r = 0) then exists v, resolves Small.booted [100; 58; 47; 102] 0 v /\ moves_cwd Small.booted v s'
    else took Small.booted 5 [] [] s').
Proof.
  split; [vm_compute; reflexivity|]. split; [vm_compute; reflexivity|].
  exact (vfs_chdir_moves _ _ _ Small.booted_ok Small.booted_small Small.far_string).
Defined.
