(* ===== verification/Emu.v ===== *)
(** * The emulator's file system ([kern/dev/lamebus/emu.c])

    A file system of the machine the simulator runs on, reached through the
    registers and the buffer of a card.  The card is a parameter: [card_op] is
    what an operation started through [REG_OPER] does, the result code it
    leaves and the other registers and the buffer after it.  As in [Lhd.v], the
    interrupt at the end of the operation is taken where the driver waits for
    it.

    [emu_softc] is the driver's state with the card behind it, [emuw] what is
    below the VFS layer on a machine with this card: the driver, the file
    system, its vnodes by address, those of devices, and the heap. *)

From S2P Require Import Prelude.
From S2P Require Import Array.
From S2P Require Import Cstring.
From S2P Require Import Uio.
From S2P Require Import Thread.
From S2P Require Import Vnode.
From S2P Require Import Sfs.
From S2P Require Import SfsOps.
From S2P Require Import Vfs.

Definition ENFILE : Z := 22.

Definition EMU_OP_OPEN : Z := 1.
Definition EMU_OP_CREATE : Z := 2.
Definition EMU_OP_EXCLCREATE : Z := 3.
Definition EMU_OP_CLOSE : Z := 4.
Definition EMU_OP_READ : Z := 5.
Definition EMU_OP_READDIR : Z := 6.
Definition EMU_OP_WRITE : Z := 7.
Definition EMU_OP_GETSIZE : Z := 8.
Definition EMU_OP_TRUNC : Z := 9.

Definition EMU_RES_SUCCESS : Z := 1.
Definition EMU_RES_BADHANDLE : Z := 2.
Definition EMU_RES_BADOP : Z := 3.
Definition EMU_RES_BADPATH : Z := 4.
Definition EMU_RES_BADSIZE : Z := 5.
Definition EMU_RES_EXISTS : Z := 6.
Definition EMU_RES_ISDIR : Z := 7.
Definition EMU_RES_MEDIA : Z := 8.
Definition EMU_RES_NOHANDLES : Z := 9.
Definition EMU_RES_NOSPACE : Z := 10.
Definition EMU_RES_NOTDIR : Z := 11.
Definition EMU_RES_UNKNOWN : Z := 12.
Definition EMU_RES_UNSUPP : Z := 13.

Definition EMU_MAXIO : Z := 16384.
Definition EMU_ROOTHANDLE : Z := 0.
Definition SIZEOF_EMUFS_VNODE : Z := 32.
Definition SIZEOF_EMUFS_FS : Z := 32.

(** The registers an operation works on. *)
Record emu_regs := mkRegs {
  reg_handle : Z;
  reg_offset : Z;
  reg_iolen : Z;
}.

Class EmuCard (C : Type) := {
  card_op : Z -> emu_regs -> list Z -> C -> Z * emu_regs * list Z * C;
}.

Record emu_softc (C : Type) := mkSc {
  e_card : C;
  e_regs : emu_regs;
  e_oper : Z;                   (* register REG_OPER *)
  e_regresult : Z;              (* register REG_RESULT *)
  e_iobuf : list Z;
  e_sem : Z;                    (* count of the semaphore *)
  e_result : Z;
}.
Arguments mkSc {C}.
Arguments e_card {C}.
Arguments e_regs {C}.
Arguments e_oper {C}.
Arguments e_regresult {C}.
Arguments e_iobuf {C}.
Arguments e_sem {C}.
Arguments e_result {C}.

(** ** The hardware *)

Section Driver.
Context {C : Type} `{!EmuCard C}.
Abbreviation D := (emu_softc C).
Implicit Types sc : D.

Definition set_regs (r : emu_regs) sc : D :=
  mkSc (e_card sc) r (e_oper sc) (e_regresult sc) (e_iobuf sc) (e_sem sc) (e_result sc).
Definition wr_handle (z : Z) sc : D := set_regs (mkRegs z (reg_offset (e_regs sc)) (reg_iolen (e_regs sc))) sc.
Definition wr_offset (z : Z) sc : D := set_regs (mkRegs (reg_handle (e_regs sc)) z (reg_iolen (e_regs sc))) sc.
Definition wr_iolen (z : Z) sc : D := set_regs (mkRegs (reg_handle (e_regs sc)) (reg_offset (e_regs sc)) z) sc.
Definition wr_oper (z : Z) sc : D :=
  mkSc (e_card sc) (e_regs sc) z (e_regresult sc) (e_iobuf sc) (e_sem sc) (e_result sc).
Definition set_iobuf (b : list Z) sc : D :=
  mkSc (e_card sc) (e_regs sc) (e_oper sc) (e_regresult sc) b (e_sem sc) (e_result sc).
Definition set_esem (z : Z) sc : D :=
  mkSc (e_card sc) (e_regs sc) (e_oper sc) (e_regresult sc) (e_iobuf sc) z (e_result sc).

Definition emu_irq : M D unit :=
  let* _ := modify (fun sc =>
    mkSc (e_card sc) (e_regs sc) (e_oper sc) 0 (e_iobuf sc) (e_sem sc) (e_regresult sc)) in
  modify (fun sc => set_esem (e_sem sc + 1) sc).

Definition translate_err (code : Z) : M D Z :=
  if code =? EMU_RES_SUCCESS then ret 0
  else if (code =? EMU_RES_BADHANDLE) || (code =? EMU_RES_BADOP) || (code =? EMU_RES_BADSIZE) then halt Panic
  else if code =? EMU_RES_BADPATH then ret ENOENT
  else if code =? EMU_RES_EXISTS then ret EEXIST
  else if code =? EMU_RES_ISDIR then ret EISDIR
  else if code =? EMU_RES_MEDIA then ret EIO
  else if code =? EMU_RES_NOHANDLES then ret ENFILE
  else if code =? EMU_RES_NOSPACE then ret ENOSPC
  else if code =? EMU_RES_NOTDIR then ret ENOTDIR
  else if code =? EMU_RES_UNKNOWN then ret EIO
  else if code =? EMU_RES_UNSUPP then ret EUNIMP
  else ret EAGAIN.

(** The card ends the operation and leaves its code. *)
Definition card_done sc : D :=
  let '(code, regs, buf, card) := card_op (e_oper sc) (e_regs sc) (e_iobuf sc) (e_card sc) in
  mkSc card regs (e_oper sc) code buf (e_sem sc) (e_result sc).

(** [P(sc->e_sem)] *)
Definition P_sem : M D unit :=
  let* n := gets e_sem in
  let* _ := (if n =? 0 then
               let* _ := modify card_done in
               emu_irq
             else ret tt) in
  let* n := gets e_sem in
  if n =? 0 then halt OutOfFuel else modify (set_esem (n - 1)).

Definition emu_waitdone : M D Z :=
  let* _ := P_sem in
  let* code := gets e_result in
  translate_err code.

(** The error code, the handle and whether it is a directory. *)
Definition emu_open (handle : Z) (name : list Z) (create excl : bool) : M D (Z * Z * bool) :=
  let* len := lift (strlen name) in
  if len + 1 >? EMU_MAXIO then ret (ENAMETOOLONG, 0, false)
  else
    let op := if create && excl then EMU_OP_EXCLCREATE else if create then EMU_OP_CREATE else EMU_OP_OPEN in
    let* buf := gets e_iobuf in
    let* buf := lift (strcpy buf name) in
    let* _ := modify (set_iobuf buf) in
    let* _ := modify (wr_iolen len) in
    let* _ := modify (wr_handle handle) in
    let* _ := modify (wr_oper op) in
    let* result := emu_waitdone in
    if result =? 0 then
      let* r := gets e_regs in
      ret (0, reg_handle r, reg_iolen r >? 0)
    else ret (result, 0, false).

(** An I/O error is retried up to ten times: [n] attempts are left. *)
Fixpoint close_loop (n : nat) (handle : Z) : M D Z :=
  let* _ := modify (wr_handle handle) in
  let* _ := modify (wr_oper EMU_OP_CLOSE) in
  let* result := emu_waitdone in
  match n with
  | O => ret result
  | S n => if result =? EIO then close_loop n handle else ret result
  end.

Definition emu_close (handle : Z) : M D Z := close_loop 10 handle.

Definition emu_doread (cur handle len op : Z) (u : uio) : M D (Z * uio) :=
  let* _ := kassert (is_read u) in
  let* _ := modify (wr_handle handle) in
  let* _ := modify (wr_iolen len) in
  let* _ := modify (wr_offset (u32 (uio_offset u))) in
  let* _ := modify (wr_oper op) in
  let* result := emu_waitdone in
  if negb (result =? 0) then ret (result, u)
  else
    let* sc := get in
    let* (result, buf, u) := lift (uiomove cur (e_iobuf sc) 0 (reg_iolen (e_regs sc)) u) in
    let* _ := modify (set_iobuf buf) in
    ret (result, set_offset (s32 (reg_offset (e_regs sc))) u).

Definition emu_read (cur handle len : Z) (u : uio) : M D (Z * uio) := emu_doread cur handle len EMU_OP_READ u.
Definition emu_readdir (cur handle len : Z) (u : uio) : M D (Z * uio) := emu_doread cur handle len EMU_OP_READDIR u.

Definition emu_write (cur handle len : Z) (u : uio) : M D (Z * uio) :=
  let* _ := kassert (is_write u) in
  let* _ := modify (wr_handle handle) in
  let* _ := modify (wr_iolen len) in
  let* _ := modify (wr_offset (u32 (uio_offset u))) in
  let* buf := gets e_iobuf in
  let* (result, buf, u) := lift (uiomove cur buf 0 len u) in
  let* _ := modify (set_iobuf buf) in
  if negb (result =? 0) then ret (result, u)
  else
    let* _ := modify (wr_oper EMU_OP_WRITE) in
    let* result := emu_waitdone in
    ret (result, u).

(** The error code and the size. *)
Definition emu_getsize (handle : Z) : M D (Z * Z) :=
  let* _ := modify (wr_handle handle) in
  let* _ := modify (wr_oper EMU_OP_GETSIZE) in
  let* result := emu_waitdone in
  let* r := gets e_regs in
  ret (result, if result =? 0 then s32 (reg_iolen r) else 0).

Definition emu_trunc (handle len : Z) : M D Z :=
  let* _ := modify (wr_handle handle) in
  let* _ := modify (wr_iolen (u32 len)) in
  let* _ := modify (wr_oper EMU_OP_TRUNC) in
  emu_waitdone.

(** The loops of [emufs_read] and [emufs_write]: what is left gets smaller on
    every pass but the last. *)
Fixpoint read_loop (fuel : nat) (cur handle : Z) (u : uio) : M D (Z * uio) :=
  match fuel with
  | O => halt OutOfFuel
  | S n =>
      if uio_resid u >? 0 then
        let amt := if uio_resid u >? EMU_MAXIO then EMU_MAXIO else uio_resid u in
        let oldresid := uio_resid u in
        let* (result, u) := emu_read cur handle amt u in
        if negb (result =? 0) then ret (result, u)
        else if uio_resid u =? oldresid then ret (0, u)
        else read_loop n cur handle u
      else ret (0, u)
  end.

Fixpoint write_loop (fuel : nat) (cur handle : Z) (u : uio) : M D (Z * uio) :=
  match fuel with
  | O => halt OutOfFuel
  | S n =>
      if uio_resid u >? 0 then
        let amt := if uio_resid u >? EMU_MAXIO then EMU_MAXIO else uio_resid u in
        let oldresid := uio_resid u in
        let* (result, u) := emu_write cur handle amt u in
        if negb (result =? 0) then ret (result, u)
        else if uio_resid u =? oldresid then ret (0, u)
        else write_loop n cur handle u
      else ret (0, u)
  end.
End Driver.

(** ** The file system *)

(** The tables of [emu.c], and that of devices. *)
Inductive emu_vops := emufs_fileops | emufs_dirops | emu_devops.

#[global] Instance emu_vops_eq_dec : EqDecision emu_vops.
Proof. solve_decision. Defined.

Record emufs_vnode := mkEv {
  ev_v : vnode emu_vops;
  ev_handle : Z;
}.

Record emufs_fs := mkEf {
  ef_addr : Z;
  ef_root : Z;
  ef_vnodes : array Z;
}.

Record emuw (H C : Type) := mkEmuw {
  em_sc : emu_softc C;
  em_fs : option emufs_fs;
  em_vn : gmap Z emufs_vnode;
  em_dev : gmap Z (vnode emu_vops);     (* vnodes of devices *)
  em_heap : H;
}.
Arguments mkEmuw {H C}.
Arguments em_sc {H C}.
Arguments em_fs {H C}.
Arguments em_vn {H C}.
Arguments em_dev {H C}.
Arguments em_heap {H C}.

Section Emufs.
Context {H C : Type} `{!Allocator H} `{!EmuCard C} `{!CurSpace}.
Abbreviation W := (emuw H C).
Implicit Types w : W.

Definition set_em_sc (sc : emu_softc C) w : W := mkEmuw sc (em_fs w) (em_vn w) (em_dev w) (em_heap w).
Definition set_em_fs (f : option emufs_fs) w : W := mkEmuw (em_sc w) f (em_vn w) (em_dev w) (em_heap w).
Definition set_em_vn (m : gmap Z emufs_vnode) w : W := mkEmuw (em_sc w) (em_fs w) m (em_dev w) (em_heap w).
Definition set_em_dev (m : gmap Z (vnode emu_vops)) w : W := mkEmuw (em_sc w) (em_fs w) (em_vn w) m (em_heap w).
Definition set_em_heap (h : H) w : W := mkEmuw (em_sc w) (em_fs w) (em_vn w) (em_dev w) h.

Definition on_sc {A} (m : M (emu_softc C) A) : M W A := fun w =>
  match m (em_sc w) with
  | Ret (a, sc) => Ret (a, set_em_sc sc w)
  | Stop e => Stop e
  end.

Definition on_eheap {A} (m : M H A) : M W A := fun w =>
  match m (em_heap w) with
  | Ret (a, h) => Ret (a, set_em_heap h w)
  | Stop e => Stop e
  end.

#[global] Instance emu_alloc : Allocator W := {
  kmalloc n := on_eheap (kmalloc n);
  kfree p := on_eheap (kfree p);
}.

Definition get_ev (p : Z) : M W emufs_vnode :=
  let* w := get in
  match em_vn w !! p with
  | Some ev => ret ev
  | None => halt Fault
  end.

Definition get_ef : M W emufs_fs :=
  let* w := get in
  match em_fs w with
  | Some f => ret f
  | None => halt Fault
  end.

Definition set_ef_vnodes (a : array Z) : M W unit :=
  let* f := get_ef in
  modify (set_em_fs (Some (mkEf (ef_addr f) (ef_root f) a))).

#[global] Instance emu_store : VnodeStore W emu_vops := {
  get_vnode p := fun w =>
    match em_vn w !! p, em_dev w !! p with
    | Some ev, _ => Ret (ev_v ev, w)
    | None, Some v => Ret (v, w)
    | None, None => Stop Fault
    end;
  put_vnode p v := fun w =>
    match em_vn w !! p with
    | Some ev => Ret (tt, set_em_vn (<[p := mkEv v (ev_handle ev)]> (em_vn w)) w)
    | None => Ret (tt, set_em_dev (<[p := v]> (em_dev w)) w)
    end;
  vop_magic _ := VOP_MAGIC;
}.

Definition emufs_open (openflags : Z) : Z := if negb (Z.land openflags O_APPEND =? 0) then EUNIMP else 0.

Definition emufs_opendir (openflags : Z) : Z :=
  if negb (Z.land openflags O_ACCMODE =? O_RDONLY) then EISDIR
  else if negb (Z.land openflags O_APPEND =? 0) then EISDIR
  else 0.

Definition emufs_close (p : Z) : M W Z := ret 0.

(** Where a vnode is in the table, -1 if it is not there. *)
Fixpoint reclaim_find (n : nat) (a : array Z) (p i : Z) : M W Z :=
  match n with
  | O => ret (-1)
  | S n =>
      let* g := lift (array_getguy a i) in
      if bool_decide (g = Some p) then ret i else reclaim_find n a p (i + 1)
  end.

Definition emufs_reclaim (p : Z) : M W Z :=
  let* ev := get_ev p in
  if negb (vn_refcount (ev_v ev) =? 1) then ret EBUSY
  else
    let* result := on_sc (emu_close (ev_handle ev)) in
    if negb (result =? 0) then ret result
    else
      let* f := get_ef in
      let* ix := reclaim_find (Z.to_nat (array_getnum (ef_vnodes f))) (ef_vnodes f) p 0 in
      if ix <? 0 then halt Panic
      else
        let* a := lift (array_remove (ef_vnodes f) ix) in
        let* _ := set_ef_vnodes a in
        let* _ := on_eheap (vnode_kill (ev_v ev)) in
        let* _ := on_eheap (kfree p) in
        let* _ := modify (fun w => set_em_vn (delete p (em_vn w)) w) in
        ret 0.

#[global] Instance emu_vnodeops : VnodeOps W := {
  vop_reclaim := emufs_reclaim;
  vop_close := emufs_close;
}.

Definition emufs_read (p : Z) (u : uio) : M W (Z * uio) :=
  let* ev := get_ev p in
  let* _ := kassert (is_read u) in
  on_sc (read_loop (S (Z.to_nat (uio_resid u))) cur_space (ev_handle ev) u).

Definition emufs_getdirentry (p : Z) (u : uio) : M W (Z * uio) :=
  let* ev := get_ev p in
  let* _ := kassert (is_read u) in
  let amt := if uio_resid u >? EMU_MAXIO then EMU_MAXIO else uio_resid u in
  on_sc (emu_readdir cur_space (ev_handle ev) amt u).

Definition emufs_write (p : Z) (u : uio) : M W (Z * uio) :=
  let* ev := get_ev p in
  let* _ := kassert (is_write u) in
  on_sc (write_loop (S (Z.to_nat (uio_resid u))) cur_space (ev_handle ev) u).

Definition emufs_ioctl : Z := EINVAL.
Definition emufs_file_gettype : Z * Z := (0, S_IFREG).
Definition emufs_dir_gettype : Z * Z := (0, S_IFDIR).

(** [gettype] is the entry of the vnode's table. *)
Definition emufs_stat (p : Z) (gettype : Z * Z) : M W (Z * stat) :=
  let* ev := get_ev p in
  let* _ := vnode_check p VopGettype in
  let (result, mode) := gettype in
  if negb (result =? 0) then ret (result, mkStat mode 0 0 0)
  else
    let* (result, size) := on_sc (emu_getsize (ev_handle ev)) in
    ret (result, mkStat mode 1 size 0).

Definition emufs_tryseek (pos : Z) : Z := if pos <? 0 then EINVAL else 0.
Definition emufs_fsync : Z := 0.

Definition emufs_truncate (p len : Z) : M W Z :=
  let* ev := get_ev p in
  on_sc (emu_trunc (ev_handle ev) len).

(** A vnode for a handle, found in the table. *)
Fixpoint load_find (n : nat) (a : array Z) (handle i : Z) : M W (option Z) :=
  match n with
  | O => ret None
  | S n =>
      let* g := lift (array_getguy a i) in
      match g with
      | None => halt Fault
      | Some p =>
          let* ev := get_ev p in
          if ev_handle ev =? handle then ret (Some p) else load_find n a handle (i + 1)
      end
  end.

(** "Didn't have one; create it" *)
Definition load_ev (f : emufs_fs) (handle : Z) (isdir : bool) : M W (Z * Z) :=
  let* p := on_eheap (kmalloc SIZEOF_EMUFS_VNODE) in
  if p =? 0 then ret (ENOMEM, 0)
  else
    let ops := if isdir then emufs_dirops else emufs_fileops in
    let* (result, v) := on_eheap (vnode_init ops (ef_addr f) p) in
    if negb (result =? 0) then
      let* _ := on_eheap (kfree p) in
      ret (result, 0)
    else
      let* (result, a) := on_eheap (array_add (ef_vnodes f) p) in
      let* _ := set_ef_vnodes a in
      if negb (result =? 0) then
        let* _ := on_eheap (vnode_kill v) in
        let* _ := on_eheap (kfree p) in
        ret (result, 0)
      else
        let* _ := modify (fun w => set_em_vn (<[p := mkEv v handle]> (em_vn w)) w) in
        ret (0, p).

(** The error code and the vnode. *)
Definition emufs_loadvnode (handle : Z) (isdir : bool) : M W (Z * Z) :=
  let* f := get_ef in
  let* found := load_find (Z.to_nat (array_getnum (ef_vnodes f))) (ef_vnodes f) handle 0 in
  match found with
  | Some p =>
      let* _ := vnode_incref p in
      ret (0, p)
  | None => load_ev f handle isdir
  end.

(** [emufs_creat] and [emufs_lookup] differ in the arguments of [emu_open]. *)
Definition open_load (p : Z) (name : list Z) (create excl : bool) : M W (Z * Z) :=
  let* ev := get_ev p in
  let* (result, handle, isdir) := on_sc (emu_open (ev_handle ev) name create excl) in
  if negb (result =? 0) then ret (result, 0)
  else
    let* (result, newguy) := emufs_loadvnode handle isdir in
    if negb (result =? 0) then
      let* _ := on_sc (emu_close handle) in
      ret (result, 0)
    else ret (0, newguy).

Definition emufs_creat (dir : Z) (name : list Z) (excl : bool) : M W (Z * Z) := open_load dir name true excl.
Definition emufs_lookup (dir : Z) (pathname : list Z) : M W (Z * Z) := open_load dir pathname false false.

(** The error code, the directory and the buffer. *)
Definition emufs_lookparent (dir : Z) (pathname buf : list Z) (len : Z) : M W (Z * Z * list Z) :=
  let* s := lift (strrchr pathname SLASH) in
  match s with
  | None =>
      let* n := lift (strlen pathname) in
      if n + 1 >? len then ret (ENAMETOOLONG, 0, buf)
      else
        let* _ := vnode_incref dir in
        let* buf := lift (strcpy buf pathname) in
        ret (0, dir, buf)
  | Some i =>
      let* path := lift (wr pathname i 0) in
      let name := drop (Z.to_nat (i + 1)) path in
      let* n := lift (strlen name) in
      if n + 1 >? len then ret (ENAMETOOLONG, 0, buf)
      else
        let* buf := lift (strcpy buf name) in
        let* (result, v) := emufs_lookup dir path in
        ret (result, v, buf)
  end.

Definition emufs_namefile (p : Z) (u : uio) : M W (Z * uio) :=
  let* f := get_ef in
  ret (if p =? ef_root f then 0 else EUNIMP, u).

Definition emufs_notdir : Z := ENOTDIR.
Definition emufs_isdir : Z := EISDIR.
Definition emufs_unimp : Z := EUNIMP.

Definition answers {A} (f : A -> answer) (m : M W A) : M W answer := let* a := m in ret (f a).

(** [emufs_fileops] *)
Definition emufs_file_table (p : Z) (q : request) : M W answer :=
  match q with
  | ReqOpen fl => ret (AnsCode (emufs_open fl))
  | ReqRead u => answers (fun '(r, u) => AnsUio r u) (emufs_read p u)
  | ReqWrite u => answers (fun '(r, u) => AnsUio r u) (emufs_write p u)
  | ReqIoctl _ _ => ret (AnsCode emufs_ioctl)
  | ReqStat => answers (fun '(r, st) => AnsStat r st) (emufs_stat p emufs_file_gettype)
  | ReqGettype => let (r, m) := emufs_file_gettype in ret (AnsMode r m)
  | ReqTryseek pos => ret (AnsCode (emufs_tryseek pos))
  | ReqFsync => ret (AnsCode emufs_fsync)
  | ReqMmap => ret (AnsCode emufs_unimp)
  | ReqTruncate len => answers AnsCode (emufs_truncate p len)
  | ReqReadlink _ | ReqGetdirentry _ | ReqNamefile _ | ReqCreat _ _ | ReqSymlink _ _ | ReqMkdir _ | ReqLink _ _
  | ReqRemove _ | ReqRmdir _ | ReqRename _ _ _ | ReqLookup _ | ReqLookparent _ _ _ => ret (AnsCode emufs_notdir)
  end.

(** [emufs_dirops] *)
Definition emufs_dir_table (p : Z) (q : request) : M W answer :=
  match q with
  | ReqOpen fl => ret (AnsCode (emufs_opendir fl))
  | ReqGetdirentry u => answers (fun '(r, u) => AnsUio r u) (emufs_getdirentry p u)
  | ReqIoctl _ _ => ret (AnsCode emufs_ioctl)
  | ReqStat => answers (fun '(r, st) => AnsStat r st) (emufs_stat p emufs_dir_gettype)
  | ReqGettype => let (r, m) := emufs_dir_gettype in ret (AnsMode r m)
  | ReqNamefile u => answers (fun '(r, u) => AnsUio r u) (emufs_namefile p u)
  | ReqCreat name excl => answers (fun '(r, q) => AnsVnode r q) (emufs_creat p name excl)
  | ReqLookup path => answers (fun '(r, q) => AnsVnode r q) (emufs_lookup p path)
  | ReqLookparent path buf len =>
      answers (fun '(r, q, buf) => AnsName r q buf) (emufs_lookparent p path buf len)
  | ReqTryseek _ | ReqSymlink _ _ | ReqMkdir _ | ReqLink _ _ | ReqRemove _ | ReqRmdir _
  | ReqRename _ _ _ => ret (AnsCode emufs_unimp)
  | ReqRead _ | ReqReadlink _ | ReqWrite _ | ReqFsync | ReqMmap | ReqTruncate _ => ret (AnsCode emufs_isdir)
  end.

Definition emufs_call (p : Z) (q : request) : M W answer :=
  let* v := get_vnode p in
  match vn_ops v with
  | Some emufs_fileops => emufs_file_table p q
  | Some emufs_dirops => emufs_dir_table p q
  | _ => halt Fault
  end.

Definition emufs_sync : Z := 0.
Definition emufs_getvolname : option (list Z) := None.
Definition emufs_unmount : Z := EBUSY.

Definition emufs_getroot (fs : Z) : M W Z :=
  let* _ := kassert (negb (fs =? 0)) in
  let* f := get_ef in
  let* _ := kassert (negb (ef_root f =? 0)) in
  let* _ := vnode_incref (ef_root f) in
  ret (ef_root f).

#[global] Instance emu_fsworld : FsWorld W emu_vops := {
  dev_vnode_ops := emu_devops;
  is_dev o := bool_decide (o = emu_devops);
  fs_call := emufs_call;
  fsop_sync _ := ret emufs_sync;
  fsop_getvolname _ := ret emufs_getvolname;
  fsop_getroot := emufs_getroot;
  fsop_unmount _ := ret emufs_unmount;
}.

(** [kfree(ef)] *)
Definition free_ef (ef : Z) : M W unit :=
  let* _ := on_eheap (kfree ef) in
  modify (set_em_fs None).

(** The root vnode is loaded while [ef_root] is null. *)
Definition emufs_addtovfs (devname : list Z) : M (vfssys W) Z :=
  let* ef := on_w (kmalloc SIZEOF_EMUFS_FS) in
  if ef =? 0 then ret ENOMEM
  else
    let* a := on_w array_create in
    match a with
    | None =>
        let* _ := on_w (kfree ef) in
        ret ENOMEM
    | Some a =>
        let* _ := on_w (modify (set_em_fs (Some (mkEf ef 0 a)))) in
        let* (result, root) := on_w (emufs_loadvnode EMU_ROOTHANDLE true) in
        if negb (result =? 0) then
          let* _ := on_w (free_ef ef) in
          ret result
        else
          let* f := on_w get_ef in
          let* _ := on_w (modify (set_em_fs (Some (mkEf ef root (ef_vnodes f))))) in
          let* _ := kassert (negb (root =? 0)) in
          let* result := vfs_addfs devname ef in
          if negb (result =? 0) then
            let* _ := VOP_DECREF root in
            let* _ := on_w (free_ef ef) in
            ret result
          else ret 0
    end.
End Emufs.
