(* ===== verification/EmuRefs.v ===== *)
(** * The emulator's file system keeps the contract of the VFS layer

    [CardLaws] is what the driver may assume of the card: the result codes it
    panics on mean a mistake of its own ([emu.c]), an operation on a handle
    that is not open, or a length beyond the buffer; a handle is open from the
    operation that hands it out to the one that closes it.  Under these laws no
    operation of the driver panics; the handle of every vnode in memory stays
    open on the card, and no two vnodes share one.

    With it [emu.c] is an instance of [FsLaws], so every theorem about the
    VFS layer holds on a machine with this card.  The file system keeps a
    reference to its root. *)

From S2P Require Import Prelude.
From S2P Require Import Array.
From S2P Require Import Own.
From S2P Require Import Bytes.
From S2P Require Import Cstring.
From S2P Require Import Uio.
From S2P Require Import Thread.
From S2P Require Import Vnode.
From S2P Require Import Sfs.
From S2P Require Import SfsOps.
From S2P Require Import Vfs.
From S2P Require Import VfsRefs.
From S2P Require Import Emu.

(** ** The card *)

Definition fatal (code : Z) : bool :=
  (code =? EMU_RES_BADHANDLE) || (code =? EMU_RES_BADOP) || (code =? EMU_RES_BADSIZE).

Definition opening (op : Z) : Prop := EMU_OP_OPEN <= op <= EMU_OP_EXCLCREATE.

(** The length is that of something in the buffer, or not used. *)
Definition sized (op len : Z) : Prop :=
  op = EMU_OP_CLOSE \/ op = EMU_OP_GETSIZE \/ op = EMU_OP_TRUNC \/ 0 <= len <= EMU_MAXIO.

Class CardLaws (C : Type) `{!EmuCard C} := {
  card_open : C -> Z -> Prop;           (* the handles in use *)
  card_law c op r buf code r' buf' c' :
    card_op op r buf c = (code, r', buf', c') ->
    EMU_OP_OPEN <= op <= EMU_OP_TRUNC -> card_open c (reg_handle r) -> sized op (reg_iolen r) ->
    Z.of_nat (length buf) = EMU_MAXIO ->
    fatal code = false /\ length buf' = length buf /\
    (forall h, card_open c h ->
       card_open c' h \/ (op = EMU_OP_CLOSE /\ code = EMU_RES_SUCCESS /\ h = reg_handle r)) /\
    (opening op -> code = EMU_RES_SUCCESS -> card_open c' (reg_handle r')) /\
    (op = EMU_OP_CLOSE -> code = EMU_RES_SUCCESS -> ~ card_open c' (reg_handle r));
}.

(** ** The driver *)

Section Driver.
Context {C : Type} `{CardLaws C}.
Implicit Types sc : emu_softc C.

Definition sc_ok sc : Prop := e_sem sc = 0 /\ Z.of_nat (length (e_iobuf sc)) = EMU_MAXIO.

(** Handles that were open still are. *)
Definition stays sc sc' : Prop := forall h, card_open (e_card sc) h -> card_open (e_card sc') h.

Lemma translate_err_wp code sc :
  fatal code = false ->
  wp (translate_err code) sc (fun r sc' => sc' = sc /\ (r = 0 <-> code = EMU_RES_SUCCESS)).
Proof.
  unfold fatal, translate_err. intros ->. destruct (Z.eqb_spec code EMU_RES_SUCCESS); [by wp_steps|].
  repeat (destruct (code =? _); [by wp_steps|]). by wp_steps.
Qed.

Lemma P_sem_waits sc code r buf c :
  e_sem sc = 0 -> card_op (e_oper sc) (e_regs sc) (e_iobuf sc) (e_card sc) = (code, r, buf, c) ->
  P_sem sc = Ret (tt, mkSc c r (e_oper sc) 0 buf 0 code).
Proof.
  intros Hs E. unfold P_sem, emu_irq, bind, gets, modify, ret. rewrite Hs. cbn [Z.eqb].
  unfold card_done. rewrite E. simpl. by rewrite Hs.
Qed.

(** An operation that was started ends, and its code is not one of those the
    driver panics on. *)
Lemma waitdone_run sc :
  sc_ok sc -> EMU_OP_OPEN <= e_oper sc <= EMU_OP_TRUNC -> card_open (e_card sc) (reg_handle (e_regs sc)) ->
  sized (e_oper sc) (reg_iolen (e_regs sc)) ->
  wp emu_waitdone sc (fun r sc' => sc_ok sc' /\ exists code,
    card_op (e_oper sc) (e_regs sc) (e_iobuf sc) (e_card sc) = (code, e_regs sc', e_iobuf sc', e_card sc') /\
    (r = 0 <-> code = EMU_RES_SUCCESS)).
Proof.
  intros [Hs Hb] Hop Hh Hz. unfold emu_waitdone.
  destruct (card_op (e_oper sc) (e_regs sc) (e_iobuf sc) (e_card sc)) as [[[code r'] buf'] c'] eqn:E.
  wp_step. eapply wp_Ret; [by apply (P_sem_waits _ _ _ _ _ Hs E)|]. wp_steps.
  destruct (card_law _ _ _ _ _ _ _ _ E Hop Hh Hz Hb) as (Hf & Hl & _).
  eapply wp_mono; [by apply translate_err_wp|]. intros r sc' [-> Hc]. simpl in *. split; [|by exists code].
  split; [done|]. simpl. by rewrite Hl.
Qed.

Lemma waitdone_wp sc :
  sc_ok sc -> EMU_OP_OPEN <= e_oper sc <= EMU_OP_TRUNC -> card_open (e_card sc) (reg_handle (e_regs sc)) ->
  sized (e_oper sc) (reg_iolen (e_regs sc)) ->
  wp emu_waitdone sc (fun r sc' => sc_ok sc' /\
    (forall h, card_open (e_card sc) h ->
       card_open (e_card sc') h \/ (e_oper sc = EMU_OP_CLOSE /\ r = 0 /\ h = reg_handle (e_regs sc))) /\
    (opening (e_oper sc) -> r = 0 -> card_open (e_card sc') (reg_handle (e_regs sc'))) /\
    (e_oper sc = EMU_OP_CLOSE -> r = 0 -> ~ card_open (e_card sc') (reg_handle (e_regs sc)))).
Proof.
  intros [Hs Hb] Hop Hh Hz. eapply wp_mono; [by apply waitdone_run|]. intros r sc' (Hok & code & E & Hc).
  destruct (card_law _ _ _ _ _ _ _ _ E Hop Hh Hz Hb) as (_ & _ & Hk & Ho & Hcl). split_and!; [done| | |].
  - intros h [?|(? & ? & ?)]%Hk; [by left|right]. tauto.
  - intros ? ?%Hc. by apply Ho.
  - intros ? ?%Hc. by apply Hcl.
Qed.

Lemma emu_open_wp sc handle name create excl :
  sc_ok sc -> card_open (e_card sc) handle -> a_string name ->
  wp (emu_open handle name create excl) sc (fun '(r, h, _) sc' => sc_ok sc' /\ stays sc sc' /\
    (r = 0 -> card_open (e_card sc') h)).
Proof.
  intros [Hs Hb] Hh [str Hn]. unfold emu_open. wp_step. eapply wp_lift_Ret; [by apply strlen_spec|].
  destruct (Z.gtb_spec (Z.of_nat (length str) + 1) EMU_MAXIO); [wp_steps; split_and!; [done|by intros h|done]|]. wp_step. wp_step. wp_step.
  set (op := if create && excl then _ else _). assert (Hop : opening op).
  { unfold op, opening, EMU_OP_OPEN, EMU_OP_EXCLCREATE, EMU_OP_CREATE. destruct create, excl; simpl; lia. }
  assert (Hne : op <> EMU_OP_CLOSE) by (unfold opening, EMU_OP_EXCLCREATE, EMU_OP_CLOSE in *; lia).
  eapply wp_lift_Ret; [apply strcpy_spec; [exact Hn|lia]|]. wp_steps.
  eapply wp_mono; [apply waitdone_wp; simpl; try done|].
  - split; simpl; [done|]. rewrite length_splice; [done|]. rewrite length_app. simpl. lia.
  - unfold opening, EMU_OP_OPEN, EMU_OP_TRUNC, EMU_OP_EXCLCREATE in *. lia.
  - right. right. right. lia.
  - intros r sc' (Hok & Hk & Ho & _). simpl in *.
    assert (stays sc sc') by (intros h [?|(? & _)]%Hk; done).
    destruct (Z.eqb_spec r 0); wp_steps; split_and!; auto; done.
Qed.

Lemma close_loop_wp n sc handle :
  sc_ok sc -> card_open (e_card sc) handle ->
  wp (close_loop n handle) sc (fun r sc' => sc_ok sc' /\
    (forall h, card_open (e_card sc) h -> card_open (e_card sc') h \/ (r = 0 /\ h = handle)) /\
    (r = 0 -> ~ card_open (e_card sc') handle)).
Proof.
  revert sc. induction n as [|n IH]; intros sc [Hs Hb] Hh; cbn [close_loop]; wp_steps;
    (eapply wp_mono; [apply waitdone_wp; simpl; [done|done|done|by left]|]); simpl; intros r sc' (Hok & Hk & _ & Hcl).
  - wp_step. split; [done|]. split; [|auto]. intros h [?|(_ & ? & ?)]%Hk; auto.
  - destruct (Z.eqb_spec r EIO) as [->|].
    + eapply wp_mono; [apply IH; [done|]; by destruct (Hk _ Hh) as [?|(_ & ? & _)]|].
      intros r' sc2 (Hok2 & Hk2 & Hc2). split; [done|]. split; [|done]. intros h [?|(_ & ? & _)]%Hk; auto. done.
    + wp_step. split; [done|]. split; [|auto]. intros h [?|(_ & ? & ?)]%Hk; auto.
Qed.

Lemma emu_close_wp sc handle :
  sc_ok sc -> card_open (e_card sc) handle ->
  wp (emu_close handle) sc (fun r sc' => sc_ok sc' /\
    (forall h, card_open (e_card sc) h -> card_open (e_card sc') h \/ (r = 0 /\ h = handle)) /\
    (r = 0 -> ~ card_open (e_card sc') handle)).
Proof. apply close_loop_wp. Qed.

Lemma emu_trunc_wp sc handle len :
  sc_ok sc -> card_open (e_card sc) handle ->
  wp (emu_trunc handle len) sc (fun _ sc' => sc_ok sc' /\ stays sc sc').
Proof.
  intros [Hs Hb] Hh. unfold emu_trunc. wp_steps. eapply wp_mono; [apply waitdone_wp; simpl; try done|].
  - right. by right; left.
  - intros r sc' (Hok & Hk & _). split; [done|]. intros h [?|(? & _)]%Hk; done.
Qed.
End Driver.

(** ** The vnodes in memory *)

Definition ev_own (p : Z) (ev : emufs_vnode) : list Z := p :: lock_blocks (vn_countlock (ev_v ev)).

(** Distinct blocks of a 32-bit machine, two for each vnode at least: the table
    of vnodes never outgrows an array. *)
Lemma aligned_bound (l : list Z) :
  NoDup l -> (forall x, x ∈ l -> 0 < x < 2 ^ 32 /\ x mod 8 = 0) -> Z.of_nat (length l) < 2 ^ 29.
Proof.
  intros Hn Hl. assert (Hs : l ⊆+ (Z.mul 8 <$> seqZ 1 (2 ^ 29 - 1))).
  { apply NoDup_submseteq; [done|]. intros x [Hx Hm]%Hl. apply list_elem_of_fmap. exists (x / 8).
    rewrite elem_of_seqZ. Z.to_euclidean_division_equations. lia. }
  apply submseteq_length in Hs. rewrite length_fmap, length_seqZ in Hs. lia.
Qed.

Lemma table_length {B} (own : Z -> B -> list Z) (m : gmap Z B) :
  map_Forall (fun p b => 2 <= length (own p b))%nat m -> (2 * size m <= length (table_blocks own m))%nat.
Proof.
  induction m as [|p b m Hp IH] using map_ind; intros Hm; [rewrite map_size_empty; lia|].
  apply map_Forall_insert in Hm as [Hb Hm]; [|done]. specialize (IH Hm).
  rewrite table_blocks_insert, length_app, map_size_insert_None by done. lia.
Qed.

Definition dev_node (p : Z) (v : vnode emu_vops) : Prop :=
  vn_fs v = 0 /\ vn_ops v = Some emu_devops /\ 0 <= vn_refcount v /\ 0 <= vn_opencount v.

Section Invariant.
Context {H C : Type} `{AlignedAlloc H} `{CardLaws C} `{!CurSpace}.
Abbreviation W := (emuw H C).
Implicit Types w : W.

Definition ev_ok (f : emufs_fs) (c : C) (p : Z) (ev : emufs_vnode) : Prop :=
  vn_fs (ev_v ev) = ef_addr f /\ vn_data (ev_v ev) = p /\
  (vn_ops (ev_v ev) = Some emufs_fileops \/ vn_ops (ev_v ev) = Some emufs_dirops) /\
  vn_countlock (ev_v ev) <> None /\ 0 < vn_refcount (ev_v ev) /\ 0 <= vn_opencount (ev_v ev) /\
  card_open c (ev_handle ev).

Record emu_inv (f : emufs_fs) (R : gset Z) w : Prop := {
  i_fs : em_fs w = Some f;
  i_sc : sc_ok (em_sc w);
  i_own : owns (em_heap w) (array_blocks (ef_vnodes f) ++ table_blocks ev_own (em_vn w)) R;
  i_arr : array_wf (ef_vnodes f);
  i_tab : Permutation (contents (ef_vnodes f)) (Some <$> elements (dom (em_vn w)));
  i_ev : map_Forall (ev_ok f (e_card (em_sc w))) (em_vn w);
  i_inj : forall p q ev eq, em_vn w !! p = Some ev -> em_vn w !! q = Some eq -> ev_handle ev = ev_handle eq -> p = q;
  i_root : exists ev, em_vn w !! ef_root f = Some ev /\ vn_ops (ev_v ev) = Some emufs_dirops;
  i_dev : map_Forall dev_node (em_dev w);
  i_rest : dom (em_dev w) ∪ {[ef_addr f]} ⊆ R;
}.

#[global] Instance emu_view : FsView W emu_vops := {
  fs_panics := oom_panics;
  fs_ok w := exists f R, emu_inv f R w;
  vnode_of w p := match em_vn w !! p with Some ev => Some (ev_v ev) | None => em_dev w !! p end;
  mounted w fs := exists f, em_fs w = Some f /\ ef_addr f = fs;
  fs_vol _ _ := None;
  kept w p := match em_fs w with Some f => if ef_root f =? p then 1 else 0 | None => 0 end;
}.

Lemma block_aligned f R w p :
  emu_inv f R w -> p ∈ table_blocks ev_own (em_vn w) \/ p ∈ R -> 0 < p < 2 ^ 32 /\ p mod 8 = 0.
Proof.
  intros Hi Hp. destruct (i_own _ _ _ Hi) as (Hh & _ & _). apply (aligned _ _ _ Hh).
  rewrite elem_of_union, elem_of_list_to_set, elem_of_app. tauto.
Qed.

Lemma ev_block m p ev : m !! p = Some ev -> p ∈ table_blocks ev_own m.
Proof. intros Hp. rewrite (table_blocks_delete ev_own m p ev Hp). left. Qed.

Lemma not_dev f R w p ev : emu_inv f R w -> em_vn w !! p = Some ev -> em_dev w !! p = None.
Proof.
  intros Hi Hp. destruct (i_own _ _ _ Hi) as (_ & _ & Hd). apply not_elem_of_dom. intros Hin.
  apply (Hd p); [apply elem_of_app; right; by eapply ev_block|]. apply (i_rest _ _ _ Hi). set_solver.
Qed.

Lemma node_bounds f R w p : emu_inv f R w -> p ∈ dom (em_vn w) \/ p ∈ dom (em_dev w) \/ p = ef_addr f ->
  p <> 0 /\ p <> DEADBEEF.
Proof.
  intros Hi Hp. assert (Ha : 0 < p < 2 ^ 32 /\ p mod 8 = 0).
  { apply (block_aligned f R w p Hi). destruct Hp as [[ev Hp]%elem_of_dom|Hp]; [left; by eapply ev_block|right].
    apply (i_rest _ _ _ Hi). set_solver. }
  split; [lia|]. intros ->. by destruct Ha as [_ Ha].
Qed.

(** There is always room in the array of vnodes. *)
Lemma room f R w : emu_inv f R w -> arr_num (ef_vnodes f) < MAXGUYS.
Proof.
  intros Hi. rewrite <- (contents_length _ (i_arr _ _ _ Hi)), (i_tab _ _ _ Hi), length_fmap.
  change (length (elements (dom (em_vn w)))) with (size (dom (em_vn w))). rewrite size_dom.
  destruct (i_own _ _ _ Hi) as (_ & Hn & _). apply NoDup_app in Hn as (_ & _ & Hn).
  pose proof (aligned_bound _ Hn (fun x Hx => block_aligned f R w x Hi (or_introl Hx))).
  assert (2 * size (em_vn w) <= length (table_blocks ev_own (em_vn w)))%nat; [|unfold MAXGUYS; lia].
  apply table_length. intros p ev Hp. destruct (i_ev _ _ _ Hi p ev Hp) as (_ & _ & _ & Hl & _).
  unfold ev_own. destruct (vn_countlock (ev_v ev)); [simpl; lia|done].
Qed.

Lemma wp_on_sc {A} pn (m : M (emu_softc C) A) w (Q : A -> W -> Prop) :
  wpo pn m (em_sc w) (fun a sc => Q a (set_em_sc sc w)) -> wpo pn (on_sc m) w Q.
Proof. unfold wpx, on_sc. by destruct (m (em_sc w)) as [[]|[]]. Qed.

Lemma wp_on_eheap {A} pn (m : M H A) w (Q : A -> W -> Prop) :
  wpo pn m (em_heap w) (fun a h => Q a (set_em_heap h w)) -> wpo pn (on_eheap m) w Q.
Proof. unfold wpx, on_eheap. by destruct (m (em_heap w)) as [[]|[]]. Qed.

(** After an operation of the card, the handles of the vnodes still open. *)
Lemma inv_sc f R w sc :
  emu_inv f R w -> sc_ok sc ->
  (forall p ev, em_vn w !! p = Some ev -> card_open (e_card (em_sc w)) (ev_handle ev) -> card_open (e_card sc) (ev_handle ev)) ->
  emu_inv f R (set_em_sc sc w).
Proof.
  intros [] Hs Hk. constructor; try done. intros p ev Hp. destruct (i_ev0 p ev Hp) as (? & ? & ? & ? & ? & ? & ?).
  split_and!; try done. by apply (Hk p).
Qed.

Lemma inv_heap f R w h :
  emu_inv f R w -> owns h (array_blocks (ef_vnodes f) ++ table_blocks ev_own (em_vn w)) R ->
  emu_inv f R (set_em_heap h w).
Proof. by intros [] Ho. Qed.

(** Counts of a vnode may change. *)
Lemma inv_counts f R w p ev r o :
  emu_inv f R w -> em_vn w !! p = Some ev -> 0 < r -> 0 <= o ->
  emu_inv f R (set_em_vn (<[p := mkEv (set_opencount o (set_refcount r (ev_v ev))) (ev_handle ev)]> (em_vn w)) w).
Proof.
  intros [] Hp Hr Ho. assert (Hlk : forall q eq, <[p := mkEv (set_opencount o (set_refcount r (ev_v ev))) (ev_handle ev)]> (em_vn w) !! q = Some eq ->
    exists e0, em_vn w !! q = Some e0 /\ ev_handle eq = ev_handle e0 /\ vn_ops (ev_v eq) = vn_ops (ev_v e0)).
  { intros q eq [[<- <-]|[_ Hq]]%lookup_insert_Some; eauto. }
  constructor; try done; simpl.
  - by rewrite (table_blocks_update ev_own _ p ev) by done.
  - by rewrite dom_insert_lookup_L by done.
  - apply map_Forall_insert_2; [|done]. by destruct (i_ev0 p ev Hp) as (? & ? & ? & ? & _ & _ & ?).
  - intros a b ea eb (ea' & Ha & -> & _)%Hlk (eb' & Hb & -> & _)%Hlk. by apply i_inj0.
  - destruct i_root0 as (er & Hroot & Hd). destruct (decide (p = ef_root f)) as [->|].
    + rewrite lookup_insert_eq. eexists. split; [done|]. by simplify_eq.
    + rewrite lookup_insert_ne by done. by exists er.
Qed.

(** A device's vnode may change its counts. *)
Lemma inv_dev_counts f R w p v r o :
  emu_inv f R w -> em_vn w !! p = None -> em_dev w !! p = Some v -> 0 < r -> 0 <= o ->
  emu_inv f R (set_em_dev (<[p := set_opencount o (set_refcount r v)]> (em_dev w)) w).
Proof.
  intros [] Hp Hv Hr Ho. constructor; try done; simpl.
  - apply map_Forall_insert_2; [|done]. destruct (i_dev0 p v Hv) as (? & ? & _ & _). split_and!; try done. simpl. lia.
  - by rewrite dom_insert_lookup_L by done.
Qed.

(** ** References *)

Lemma refs_nonneg f R w p : emu_inv f R w -> 0 <= refs w p /\ 0 <= opens w p.
Proof.
  intros Hi. unfold refs, opens. simpl. destruct (em_vn w !! p) as [ev|] eqn:E.
  - destruct (i_ev _ _ _ Hi p ev E) as (_ & _ & _ & _ & ? & ? & _). lia.
  - destruct (em_dev w !! p) as [v|] eqn:Ev; [|done]. by destruct (i_dev _ _ _ Hi p v Ev) as (_ & _ & ? & ?).
Qed.

Definition fs_stays w w' : Prop := exists f f', em_fs w = Some f /\ em_fs w' = Some f' /\
  ef_addr f' = ef_addr f /\ ef_root f' = ef_root f.

Lemma fs_stays_view w w' : fs_stays w w' ->
  (forall fs, mounted w fs -> mounted w' fs) /\ forall q, kept w' q = kept w q.
Proof.
  intros (f & f' & E & E' & Ea & Er). simpl. rewrite E, E', Er. split; [|done]. intros fs (g & Eg & <-).
  simplify_eq. by exists f'.
Qed.

(** No vnode changed. *)
Lemma grants_none f R w w' n :
  emu_inv f R w -> fs_ok w' -> fs_stays w w' -> (forall q, vnode_of w' q = vnode_of w q) -> 0 <= n -> grants n w w' [] [].
Proof.
  intros Hi Hok Hf Hq Hn. destruct (fs_stays_view _ _ Hf) as [Hm Hk].
  assert (Er : forall q, refs w' q = refs w q) by (intros q; unfold refs; by rewrite Hq).
  assert (Eo : forall q, opens w' q = opens w q) by (intros q; unfold opens; by rewrite Hq).
  assert (Ek : forall q, kind w' q = kind w q) by (intros q; unfold kind; by rewrite Hq).
  constructor; try done; try (intros q; rewrite ?Er, ?Eo; destruct (refs_nonneg f R w q Hi); simpl; lia).
  intros q d (o & fs & E & ?). rewrite Ek in E. by exists o, fs.
Qed.

(** One vnode gained a reference. *)
Lemma grants_one f R w w' p v :
  emu_inv f R w -> fs_ok w' -> fs_stays w w' ->
  (forall q, vnode_of w' q = if decide (q = p) then Some v else vnode_of w q) ->
  vn_refcount v = refs w p + 1 -> vn_opencount v = opens w p -> vn_ops v <> Some emu_devops ->
  (0 < refs w p -> kind w p = Some (vn_ops v, vn_fs v, vn_data v)) ->
  grants 1 w w' [p] [].
Proof.
  intros Hi Hok Hf Hq Hr Ho Hd Hk. destruct (fs_stays_view _ _ Hf) as [Hm Hkp].
  assert (Er : forall q, refs w' q = refs w q + cnt q [p]).
  { intros q. unfold refs at 1. rewrite Hq. simpl cnt. destruct (decide (q = p)) as [->|Hne].
    - rewrite Z.eqb_refl. lia.
    - destruct (Z.eqb_spec p q); [done|]. fold (refs w q). lia. }
  assert (Eo : forall q, opens w' q = opens w q).
  { intros q. unfold opens at 1. rewrite Hq. by destruct (decide (q = p)) as [->|Hne]. }
  assert (Ed : forall q d, devnode w' q d -> q <> p /\ devnode w q d).
  { intros q d (o & fs & E & Hb). unfold kind in E. rewrite Hq in E. destruct (decide (q = p)); [|split; [done|by exists o, fs]].
    exfalso. simpl in E, Hb. simplify_eq. apply bool_decide_eq_true in Hb. congruence. }
  constructor; try done; try (intros q; rewrite ?Er, ?Eo; pose proof (cnt_nonneg q [p]); destruct (refs_nonneg f R w q Hi); simpl; lia).
  - intros q Hl. unfold kind at 1. rewrite Hq. destruct (decide (q = p)) as [->|]; [|done]. simpl. by rewrite Hk.
  - intros q d Hdv. by apply Ed.
  - intros q. rewrite Er. pose proof (cnt_nonneg q [p]). destruct (refs_nonneg f R w q Hi). simpl. destruct (p =? q); lia.
  - intros q Hc [Hne _]%Ed. by rewrite cnt_cons_ne in Hc.
Qed.

(** ** Loading a vnode *)

Lemma get_ev_wp pn w p ev (Q : emufs_vnode -> W -> Prop) : em_vn w !! p = Some ev -> Q ev w -> wpo pn (get_ev p) w Q.
Proof. intros E HQ. unfold get_ev. wp_step. wp_step. rewrite E. by wp_step. Qed.

Lemma get_ef_wp pn w f (Q : emufs_fs -> W -> Prop) : em_fs w = Some f -> Q f w -> wpo pn get_ef w Q.
Proof. intros E HQ. unfold get_ef. wp_step. wp_step. rewrite E. by wp_step. Qed.

Lemma get_ev_vnode w p ev : em_vn w !! p = Some ev -> get_vnode p w = Ret (ev_v ev, w).
Proof. intros E. simpl. by rewrite E. Qed.

Lemma incref_wp f R w p ev :
  emu_inv f R w -> roomy w -> em_vn w !! p = Some ev ->
  wp (vnode_incref p) w (fun _ w' => grants 1 w w' [p] [] /\ exists v, em_vn w' !! p = Some (mkEv v (ev_handle ev))).
Proof.
  intros Hi Hrm Hp. destruct (node_bounds f R w p Hi) as [Hnz _]; [left; by eapply elem_of_dom_2|].
  destruct (i_ev _ _ _ Hi p ev Hp) as (Ef & Ed & Hops & _ & Hr & Ho & _).
  assert (Er : refs w p = vn_refcount (ev_v ev)) by (unfold refs; simpl; by rewrite Hp).
  assert (Eo : opens w p = vn_opencount (ev_v ev)) by (unfold opens; simpl; by rewrite Hp).
  specialize (Hrm p). unfold vnode_incref, lock_acquire, lock_release. wp_step. wp_step. wp_step.
  eapply wp_Ret; [by apply get_ev_vnode|]. wp_steps. simpl put_vnode.
  rewrite s32_small by lia. eapply wp_Ret; [by rewrite Hp|]. wp_step. split; [|eexists; simpl; by rewrite lookup_insert_eq].
  eapply (grants_one f R w _ p (set_refcount (vn_refcount (ev_v ev) + 1) (ev_v ev)) Hi).
  - exists f, R. pose proof (inv_counts f R w p ev (vn_refcount (ev_v ev) + 1) (vn_opencount (ev_v ev)) Hi Hp) as X.
    destruct (ev_v ev). apply X; simpl in *; lia.
  - exists f, f. split; [|split; [|done]]; apply Hi.
  - intros q. simpl. destruct (decide (q = p)) as [->|]; [by rewrite lookup_insert_eq|by rewrite lookup_insert_ne].
  - simpl. lia.
  - simpl. lia.
  - simpl. by destruct Hops as [->| ->].
  - intros _. unfold kind. simpl. by rewrite Hp.
Qed.

(** The cells of the table name vnodes in memory. *)
Lemma cell_at f R w (i : nat) : emu_inv f R w -> (i < length (contents (ef_vnodes f)))%nat ->
  exists p ev, contents (ef_vnodes f) !! i = Some (Some p) /\ em_vn w !! p = Some ev /\
    array_getguy (ef_vnodes f) (Z.of_nat i) = Ret (Some p).
Proof.
  intros Hi [c Hc]%lookup_lt_is_Some. assert (Hin : c ∈ (Some <$> elements (dom (em_vn w)))).
  { rewrite <- (i_tab _ _ _ Hi). by eapply list_elem_of_lookup_2. }
  apply list_elem_of_fmap in Hin as (p & -> & [ev Hp]%elem_of_elements%elem_of_dom). exists p, ev. split_and!; try done.
  rewrite array_getguy_spec by apply Hi. destruct (Z.ltb_spec (Z.of_nat i) 0); [lia|]. by rewrite Nat2Z.id, Hc.
Qed.

Lemma load_find_wp f R w handle n : emu_inv f R w -> forall i,
  (i + n = length (contents (ef_vnodes f)))%nat ->
  wp (load_find n (ef_vnodes f) handle (Z.of_nat i)) w (fun o w' => w' = w /\
    match o with
    | Some p => exists ev, em_vn w !! p = Some ev /\ ev_handle ev = handle
    | None => forall j p ev, (i <= j)%nat -> contents (ef_vnodes f) !! j = Some (Some p) -> em_vn w !! p = Some ev ->
        ev_handle ev <> handle
    end).
Proof.
  intros Hi. induction n as [|n IH]; intros i Hn; cbn [load_find].
  - wp_step. split; [done|]. intros j p ev Hj Hc%lookup_lt_Some. lia.
  - destruct (cell_at f R w i Hi) as (p & ev & Hc & Hp & Hg); [lia|]. wp_step. eapply wp_lift_Ret; [exact Hg|].
    wp_step. eapply get_ev_wp; [exact Hp|]. destruct (Z.eqb_spec (ev_handle ev) handle); [wp_step; eauto|].
    replace (Z.of_nat i + 1) with (Z.of_nat (S i)) by lia. eapply wp_mono; [apply IH; lia|].
    intros [q|] w' [-> Ho]; (split; [done|]); [done|]. intros j q eq Hj Hq Hv.
    destruct (decide (j = i)) as [->|]; [congruence|]. apply (Ho j q); [lia|done..].
Qed.

Definition unloaded (handle : Z) w : Prop := forall p ev, em_vn w !! p = Some ev -> ev_handle ev <> handle.

Lemma load_find_all f R w handle :
  emu_inv f R w ->
  wp (load_find (Z.to_nat (array_getnum (ef_vnodes f))) (ef_vnodes f) handle 0) w (fun o w' => w' = w /\
    match o with Some p => exists ev, em_vn w !! p = Some ev /\ ev_handle ev = handle | None => unloaded handle w end).
Proof.
  intros Hi. pose proof (contents_length _ (i_arr _ _ _ Hi)) as Hl.
  eapply wp_mono; [apply (load_find_wp f R w handle _ Hi 0); unfold array_getnum; lia|].
  intros [p|] w' [-> Ho]; (split; [done|]); [done|]. intros p ev Hp.
  assert (Hin : Some p ∈ contents (ef_vnodes f)).
  { rewrite (i_tab _ _ _ Hi). apply list_elem_of_fmap_2, elem_of_elements. by eapply elem_of_dom_2. }
  apply list_elem_of_lookup_1 in Hin as [j Hj]. apply (Ho j p ev); [lia|done..].
Qed.

(** A vnode on its way into the table. *)
Lemma inv_add f R w p v handle a h :
  emu_inv f R w -> card_open (e_card (em_sc w)) handle -> unloaded handle w ->
  v = mkVnode 1 0 (vn_countlock v) (ef_addr f) p (vn_ops v) -> vn_countlock v <> None ->
  (vn_ops v = Some emufs_fileops \/ vn_ops v = Some emufs_dirops) ->
  array_wf a -> contents a = contents (ef_vnodes f) ++ [Some p] ->
  owns h (array_blocks a ++ (p :: lock_blocks (vn_countlock v)) ++ table_blocks ev_own (em_vn w)) R ->
  em_vn w !! p = None -> 
  emu_inv (mkEf (ef_addr f) (ef_root f) a) R
    (mkEmuw (em_sc w) (Some (mkEf (ef_addr f) (ef_root f) a)) (<[p := mkEv v handle]> (em_vn w)) (em_dev w) h).
Proof.
  intros Hi Ho Hu Ev Hl Hops Ha Hc Hw Hp. constructor; simpl; try apply Hi; try done.
  - by rewrite table_blocks_insert by done.
  - rewrite Hc, dom_insert_L, elements_union_singleton by (by apply not_elem_of_dom). rewrite (i_tab _ _ _ Hi).
    simpl. by rewrite Permutation_app_comm.
  - apply map_Forall_insert_2.
    + rewrite Ev. split_and!; try done; simpl; lia.
    + intros q eq Hq. by destruct (i_ev _ _ _ Hi q eq Hq) as (? & ? & ? & ? & ? & ? & ?).
  - intros q1 q2 e1 e2 [[<- <-]|[_ Hq1]]%lookup_insert_Some [[<- <-]|[_ Hq2]]%lookup_insert_Some E; simpl in E.
    + done.
    + by destruct (Hu q2 e2).
    + by destruct (Hu q1 e1).
    + by apply (i_inj _ _ _ Hi q1 q2 e1 e2).
  - destruct (i_root _ _ _ Hi) as (er & Hr & Hd). exists er. split; [|done]. rewrite lookup_insert_ne; [done|congruence].
Qed.

(** Nothing changed but the heap and the card. *)
Definition quiet R w w' : Prop :=
  (exists f, emu_inv f R w') /\ fs_stays w w' /\ em_vn w' = em_vn w /\ em_dev w' = em_dev w.

Lemma still_grants f R w w' n : emu_inv f R w -> quiet R w w' -> 0 <= n -> grants n w w' [] [].
Proof.
  intros Hi ((f' & Hi') & Hf & Ev & Ed) Hn. eapply grants_none; [exact Hi|by exists f', R|done| |done].
  intros q. simpl. by rewrite Ev, Ed.
Qed.

Lemma quiet_heap f R w h :
  emu_inv f R w -> owns h (array_blocks (ef_vnodes f) ++ table_blocks ev_own (em_vn w)) R ->
  quiet R w (set_em_heap h w).
Proof.
  intros Hi Ho. split; [exists f; by apply inv_heap|]. split; [|done]. exists f, f. split_and!; try done; apply Hi.
Qed.

Lemma quiet_sc f R w sc :
  emu_inv f R w -> sc_ok sc -> stays (em_sc w) sc -> quiet R w (set_em_sc sc w).
Proof.
  intros Hi Hs Hk. split; [exists f; apply inv_sc; auto|]. split; [|done]. exists f, f. split_and!; try done; apply Hi.
Qed.

(** A new vnode is in the table, with one reference. *)
Lemma fresh_grants f R w p v handle a h :
  emu_inv f R w -> card_open (e_card (em_sc w)) handle -> unloaded handle w ->
  v = mkVnode 1 0 (vn_countlock v) (ef_addr f) p (vn_ops v) -> vn_countlock v <> None ->
  (vn_ops v = Some emufs_fileops \/ vn_ops v = Some emufs_dirops) ->
  array_wf a -> contents a = contents (ef_vnodes f) ++ [Some p] ->
  owns h (array_blocks a ++ (p :: lock_blocks (vn_countlock v)) ++ table_blocks ev_own (em_vn w)) R ->
  grants 1 w (mkEmuw (em_sc w) (Some (mkEf (ef_addr f) (ef_root f) a)) (<[p := mkEv v handle]> (em_vn w)) (em_dev w) h) [p] [].
Proof.
  intros Hi Ho Hu Ev Hl Hops Ha Hc Hw. assert (Hw2 := Hw).
  rewrite Permutation_app_comm, <- !app_assoc, <- app_comm_cons in Hw2. destruct Hw2 as (_ & [Hn _]%NoDup_cons & Hdr).
  assert (Hp : em_vn w !! p = None).
  { destruct (em_vn w !! p) as [ev|] eqn:E; [|done]. destruct Hn. apply ev_block in E. rewrite !elem_of_app. tauto. }
  assert (Hd : em_dev w !! p = None).
  { apply not_elem_of_dom. intros Hin. apply (Hdr p); [left|]. apply (i_rest _ _ _ Hi). set_solver. }
  eapply (grants_one f R w _ p v Hi).
  - eexists _, R. by apply (inv_add f R w p v handle a h).
  - exists f, (mkEf (ef_addr f) (ef_root f) a). split_and!; try done. apply Hi.
  - intros q. simpl. destruct (decide (q = p)) as [->|]; [by rewrite lookup_insert_eq|by rewrite lookup_insert_ne].
  - unfold refs. simpl. rewrite Hp, Hd. by rewrite Ev.
  - unfold opens. simpl. rewrite Hp, Hd. by rewrite Ev.
  - by destruct Hops as [->| ->].
  - unfold refs. simpl. rewrite Hp, Hd. lia.
Qed.

(** The vnode that is made, and the table it is put in. *)
Definition made (f : emufs_fs) (isdir : bool) (p : Z) (v : vnode emu_vops) (a : array Z) : Prop :=
  v = mkVnode 1 0 (vn_countlock v) (ef_addr f) p (Some (if isdir then emufs_dirops else emufs_fileops)) /\
  vn_countlock v <> None /\ array_wf a /\ contents a = contents (ef_vnodes f) ++ [Some p].

Lemma load_ev_wp f R w handle isdir l :
  em_fs w = Some f -> owns (em_heap w) (array_blocks (ef_vnodes f) ++ l) R -> array_wf (ef_vnodes f) ->
  arr_num (ef_vnodes f) < MAXGUYS ->
  wpo oom_panics (load_ev f handle isdir) w (fun '(r, p) w' =>
    if decide (r = 0) then exists v a h, made f isdir p v a /\
      w' = mkEmuw (em_sc w) (Some (mkEf (ef_addr f) (ef_root f) a)) (<[p := mkEv v handle]> (em_vn w)) (em_dev w) h /\
      owns h (array_blocks a ++ (p :: lock_blocks (vn_countlock v)) ++ l) R
    else exists h, w' = set_em_heap h w /\ owns h (array_blocks (ef_vnodes f) ++ l) R).
Proof.
  intros Hf Ho Ha Hn. unfold load_ev. wp_step. apply wp_on_eheap.
  eapply wp_mono; [apply wp_kmalloc_own; [exact Ho|unfold SIZEOF_EMUFS_VNODE, MAXALLOC; lia]|].
  intros p h1 [(-> & _ & Ho1)|(Hp0 & Ho1)]; [cbn [Z.eqb]; wp_step; by exists h1|].
  destruct (Z.eqb_spec p 0); [done|]. wp_step. apply wp_on_eheap.
  eapply wp_mono; [by apply vnode_init_own|]. intros [r v] h2 [Ho2 Hr]. cbn [em_heap set_em_heap] in Ho2.
  destruct Hr as [(-> & Ev & Hl)|(-> & _ & Hl)]; cbn [Z.eqb negb].
  2: { simpl negb. cbv iota. wp_step. apply wp_on_eheap. rewrite Hl in Ho2. simpl in Ho2.
       eapply wp_mono; [by apply wp_kfree_own|]. intros [] h3 Ho3. wp_step. by exists h3. }
  wp_step. apply wp_on_eheap. eapply wp_mono.
  { apply (array_add_own (ef_vnodes f) p h2 ((p :: lock_blocks (vn_countlock v)) ++ l) R); [|done|done].
    eapply owns_move; [exact Ho2|]. solve_blocks. }
  intros [r a] h3 (Ha' & Ho3 & Hr). wp_step. unfold set_ef_vnodes. wp_step. eapply get_ef_wp; [exact Hf|]. wp_step.
  destruct Hr as [(-> & Hc & _)|(-> & _ & ->)]; cbn [Z.eqb negb].
  - wp_steps. exists v, a, h3. by split_and!.
  - simpl negb. cbv iota. wp_step. apply wp_on_eheap. simpl.
    eapply wp_mono; [apply (vnode_kill_own v h3 (p :: array_blocks (ef_vnodes f) ++ l) R)|].
    { eapply owns_move; [exact Ho3|]. solve_blocks. }
    1-2: by rewrite Ev.
    { done. }
    intros v0 h4 Ho4. wp_step. apply wp_on_eheap. eapply wp_mono; [exact (wp_kfree_own _ _ _ _ Ho4)|]. intros [] h5 Ho5. wp_step. simpl.
    exists h5. split; [|done]. unfold set_em_heap, set_em_fs. simpl. rewrite Hf. by destruct f.
Qed.

Lemma loadvnode_wp f R w handle isdir :
  emu_inv f R w -> roomy w -> card_open (e_card (em_sc w)) handle ->
  wpo oom_panics (emufs_loadvnode handle isdir) w (fun '(r, p) w' =>
    if decide (r = 0) then grants 1 w w' [p] []
    else quiet R w w' /\ em_sc w' = em_sc w /\ unloaded handle w').
Proof.
  intros Hi Hrm Ho. unfold emufs_loadvnode. wp_step. eapply get_ef_wp; [apply Hi|]. wp_step.
  eapply wp_mono; [by apply wp_calm, (load_find_all f R)|]. intros [p|] w' [-> Hu].
  { destruct Hu as (ev & Hp & _). wp_step. eapply wp_mono; [by apply wp_calm, (incref_wp f R w p ev)|].
    intros [] w' [G _]. wp_step. by rewrite decide_True. }
  eapply wp_mono; [apply (load_ev_wp f R w handle isdir _ (i_fs _ _ _ Hi) (i_own _ _ _ Hi) (i_arr _ _ _ Hi) (room f R w Hi))|].
  intros [r p] w' Hn. destruct (decide (r = 0)).
  - destruct Hn as (v & a & h & (Ev & Hl & Ha & Hc) & -> & Hw).
    assert (Eo : vn_ops v = Some (if isdir then emufs_dirops else emufs_fileops)) by (by rewrite Ev).
    apply (fresh_grants f R w p v handle a h); try done; [by rewrite Eo|rewrite Eo; destruct isdir; auto].
  - destruct Hn as (h & -> & Hw). split_and!; [by apply (quiet_heap f)|done|done].
Qed.

Lemma quiet_roomy R w w' : quiet R w w' -> roomy w -> roomy w'.
Proof. intros (_ & _ & Ev & Ed) Hr q. specialize (Hr q). unfold refs in *. simpl in *. by rewrite Ev, Ed. Qed.

Lemma quiet_trans R w w1 w2 : quiet R w w1 -> quiet R w1 w2 -> quiet R w w2.
Proof.
  intros (_ & (f & f1 & E & E1 & ? & ?) & Ev & Ed) (Hi & (g & g1 & E' & E1' & ? & ?) & Ev' & Ed').
  split; [done|]. split; [|split; congruence]. exists f, g1. simplify_eq. split_and!; congruence.
Qed.

Lemma open_load_wp f R w p ev name create excl :
  emu_inv f R w -> roomy w -> em_vn w !! p = Some ev -> a_string name ->
  wpo oom_panics (open_load p name create excl) w (fun '(r, q) w' => grants 1 w w' (if r =? 0 then [q] else []) []).
Proof.
  intros Hi Hrm Hp Hn. destruct (i_ev _ _ _ Hi p ev Hp) as (_ & _ & _ & _ & _ & _ & Hh).
  unfold open_load. wp_step. eapply get_ev_wp; [exact Hp|]. wp_step. apply wp_on_sc.
  eapply wp_mono; [apply wp_calm, emu_open_wp; [apply Hi|done|done]|]. intros [[r handle] isdir] sc (Hs & Hk & Ho).
  pose proof (quiet_sc f R w sc Hi Hs Hk) as Hq. cbn [fst snd]. destruct (Z.eqb_spec r 0) as [->|Hr]; cbn [negb].
  2: { wp_step. rewrite (proj2 (Z.eqb_neq r 0) Hr). by eapply still_grants. }
  destruct Hq as [(f1 & Hi1) Hq]. pose proof (conj (ex_intro _ f1 Hi1) Hq : quiet R _ _) as Hq1.
  wp_step. eapply wp_mono; [apply (loadvnode_wp f1 R); [done|by eapply quiet_roomy|by apply Ho]|].
  intros [r q] w2 Hw2. destruct (decide (r = 0)) as [->|Hr]; simpl; cbn [negb].
  - wp_step. exact (grants_trans _ _ _ _ _ _ _ _ _ (still_grants f R w _ 0 Hi Hq1 (Z.le_refl 0)) Hw2).
  - destruct Hw2 as (Hq2 & Esc & Hun). rewrite (proj2 (Z.eqb_neq r 0) Hr). cbn [negb]. wp_step. apply wp_on_sc.
    pose proof Hq2 as ((f2 & Hi2) & _). rewrite Esc.
    eapply wp_mono; [apply wp_calm, emu_close_wp; [done|by apply Ho]|]. intros rc sc3 (Hs3 & Hk3 & _). wp_step.
    rewrite (proj2 (Z.eqb_neq r 0) Hr). eapply still_grants; [exact Hi| |lia].
    eapply quiet_trans; [exact Hq1|]. eapply quiet_trans; [exact Hq2|]. split_and!; try done.
    + exists f2. apply inv_sc; [done|done|]. intros q0 e0 Hq0 Ho0. rewrite Esc in Ho0.
      destruct (Hk3 _ Ho0) as [?|[_ Eh]]; [done|]. by destruct (Hun q0 e0 Hq0).
    + exists f2, f2. split_and!; try done; apply Hi2.
Qed.

(** ** Paths *)

Lemma a_string_app str s : Forall (fun c => c <> 0) str -> a_string (str ++ 0 :: s).
Proof. intros Hs. by exists str, s. Qed.

Lemma find_last_lt l ch i : find_last l ch = Some i -> (i < length l)%nat.
Proof.
  revert i. induction l as [|c l IH]; intros i; simpl; [done|]. destruct (find_last l ch) as [j|] eqn:E.
  - intros ?. simplify_eq. specialize (IH j eq_refl). lia.
  - destruct (schar c =? ch); intros ?; simplify_eq. lia.
Qed.

Lemma copied buf str : (length str < length buf)%nat -> Forall (fun c => c <> 0) str ->
  length (splice buf 0 (str ++ [0])) = length buf /\ a_string (splice buf 0 (str ++ [0])).
Proof.
  intros Hl Hs. split; [apply length_splice; rewrite length_app; simpl; lia|].
  unfold splice. simpl. rewrite <- app_assoc. simpl. by apply a_string_app.
Qed.

Lemma emufs_lookparent_wp f R w p ev path buf len :
  emu_inv f R w -> roomy w -> em_vn w !! p = Some ev -> a_string path -> Z.of_nat (length buf) = len ->
  wpo oom_panics (emufs_lookparent p path buf len) w (fun '(r, q, buf') w' =>
    grants 1 w w' (if r =? 0 then [q] else []) [] /\ length buf' = length buf /\ (r = 0 -> a_string buf')).
Proof.
  intros Hi Hrm Hp [str Hs] Hl. unfold emufs_lookparent. wp_step.
  eapply wp_lift_Ret; [by apply strrchr_spec|]. rewrite find_last_snoc. change (schar 0 =? SLASH) with false. cbv iota.
  assert (Hz : quiet R w w).
  { split; [by exists f|]. split; [|done]. exists f, f. split_and!; try done; apply Hi. }
  assert (Hno : forall r, r <> 0 -> grants 1 w w (if r =? 0 then [0] else []) [] /\ length buf = length buf /\ (r = 0 -> a_string buf)).
  { intros r Hr. rewrite (proj2 (Z.eqb_neq r 0) Hr). split_and!; [by eapply still_grants|done|done]. }
  destruct (find_last str SLASH) as [i|] eqn:Ei; simpl fmap; cbv iota.
  - pose proof (find_last_lt _ _ _ Ei) as Hlt. destruct Hs as (rest & -> & Hnz). wp_step.
    eapply wp_lift_Ret; [apply wr_nat; rewrite length_app; lia|].
    rewrite (insert_app_l str) by done. rewrite (insert_take_drop str) by done. rewrite <- app_assoc. cbn [app].
    replace (Z.to_nat (Z.of_nat i + 1)) with (length (take i str) + 1)%nat by (rewrite length_take; lia).
    rewrite drop_app_add. cbn [drop].
    assert (Ht : Forall (fun c => c <> 0) (take i str)) by (by apply Forall_take).
    assert (Hd : Forall (fun c => c <> 0) (drop (S i) str)) by (by apply Forall_drop).
    assert (Hcs : is_cstr (drop (S i) str ++ 0 :: rest) (drop (S i) str)) by (by exists rest).
    wp_step. eapply wp_lift_Ret; [by apply strlen_spec|]. destruct (Z.gtb_spec (Z.of_nat (length (drop (S i) str)) + 1) len); [by wp_step; apply Hno|].
    wp_step. eapply wp_lift_Ret; [apply strcpy_spec; [exact Hcs|lia]|]. wp_step.
    eapply wp_mono; [eapply (open_load_wp f R); [done|done|exact Hp|by apply a_string_app]|].
    intros [r q] w' G. wp_step. split; [done|]. destruct (copied buf (drop (S i) str)); [lia|done|]. auto.
  - wp_step. eapply wp_lift_Ret; [by apply strlen_spec|]. destruct (Z.gtb_spec (Z.of_nat (length str) + 1) len); [by wp_step; apply Hno|].
    wp_step. eapply wp_mono; [by apply wp_calm, (incref_wp f R w p ev)|]. intros [] w' [G _]. wp_step.
    eapply wp_lift_Ret; [apply strcpy_spec; [exact Hs|lia]|]. wp_step. split; [done|].
    destruct Hs as (rest & _ & Hnz). destruct (copied buf str); [lia|done|]. auto.
Qed.

(** ** Giving a vnode up *)

Lemma reclaim_find_wp (a : array Z) p w n : array_wf a -> forall i j,
  (i + n = length (contents a))%nat -> (i <= j)%nat -> contents a !! j = Some (Some p) ->
  wp (reclaim_find n a p (Z.of_nat i)) w (fun ix w' => w' = w /\
    exists k, ix = Z.of_nat k /\ contents a !! k = Some (Some p)).
Proof.
  intros Ha. induction n as [|n IH]; intros i j Hn Hj Hp; cbn [reclaim_find].
  - apply lookup_lt_Some in Hp. lia.
  - destruct (lookup_lt_is_Some_2 (contents a) i) as [c Hc]; [lia|]. wp_step. eapply wp_lift_Ret.
    { rewrite array_getguy_spec by done. destruct (Z.ltb_spec (Z.of_nat i) 0); [lia|]. by rewrite Nat2Z.id, Hc. }
    case_bool_decide as E; [wp_step; simplify_eq; eauto|].
    replace (Z.of_nat i + 1) with (Z.of_nat (S i)) by lia. apply (IH (S i) j); [lia| |done].
    destruct (decide (j = i)) as [->|]; [congruence|lia].
Qed.

Lemma inv_del f R w p ev (k : nat) a sc h :
  emu_inv f R w -> em_vn w !! p = Some ev -> p <> ef_root f -> sc_ok sc ->
  (forall hd, card_open (e_card (em_sc w)) hd -> card_open (e_card sc) hd \/ hd = ev_handle ev) ->
  array_wf a -> contents (ef_vnodes f) !! k = Some (Some p) -> contents a = delete k (contents (ef_vnodes f)) ->
  owns h (array_blocks a ++ table_blocks ev_own (delete p (em_vn w))) R ->
  emu_inv (mkEf (ef_addr f) (ef_root f) a) R
    (mkEmuw sc (Some (mkEf (ef_addr f) (ef_root f) a)) (delete p (em_vn w)) (em_dev w) h).
Proof.
  intros Hi Hp Hr Hs Hk Ha Hc Hd Ho. constructor; simpl; try apply Hi; try done.
  - rewrite Hd. apply (Permutation_cons_inv (a := Some p)). rewrite <- delete_Permutation by done.
    rewrite (i_tab _ _ _ Hi), <- (insert_delete_id (em_vn w) p ev Hp) at 1.
    by rewrite dom_insert_L, elements_union_singleton by (rewrite dom_delete_L; set_solver).
  - intros q eq [Hne Hq]%lookup_delete_Some. destruct (i_ev _ _ _ Hi q eq Hq) as (? & ? & ? & ? & ? & ? & Hop).
    split_and!; try done. destruct (Hk _ Hop) as [?|E]; [done|]. by destruct Hne; apply (i_inj _ _ _ Hi p q ev eq).
  - intros q1 q2 e1 e2 [_ Hq1]%lookup_delete_Some [_ Hq2]%lookup_delete_Some. by apply (i_inj _ _ _ Hi).
  - destruct (i_root _ _ _ Hi) as (er & He & ?). exists er. by rewrite lookup_delete_ne.
Qed.

Lemma live_ev f R w p : emu_inv f R w -> 0 < refs w p -> (forall d, ~ devnode w p d) -> exists ev, em_vn w !! p = Some ev.
Proof.
  intros Hi Hr Hd. unfold refs in Hr. simpl in Hr. destruct (em_vn w !! p) as [ev|] eqn:E; [eauto|].
  destruct (em_dev w !! p) as [v|] eqn:Ev; [|lia]. destruct (i_dev _ _ _ Hi p v Ev) as (Ef & Eo & _).
  destruct (Hd (vn_data v)). exists emu_devops, 0. unfold kind. simpl. rewrite E, Ev. simpl. by rewrite Eo, Ef.
Qed.

(** What [emufs_reclaim] leaves behind.  With success the vnode is in the table
    no more, the array lost its cell and the card its handle; by the invariant
    [emu_inv], for the same blocks [R] of others, the heap has the blocks of the
    vnodes that are left and no more.  With an error no vnode changed, and the
    handle is still open. *)
Definition reclaimed f R w p (r : Z) w' : Prop :=
  if decide (r = 0) then
    exists ev a (k : nat), em_vn w !! p = Some ev /\ em_vn w' = delete p (em_vn w) /\
      em_dev w' = em_dev w /\ em_fs w' = Some (mkEf (ef_addr f) (ef_root f) a) /\
      contents (ef_vnodes f) !! k = Some (Some p) /\ contents a = delete k (contents (ef_vnodes f)) /\
      emu_inv (mkEf (ef_addr f) (ef_root f) a) R w' /\ ~ card_open (e_card (em_sc w')) (ev_handle ev)
  else quiet R w w' /\ em_fs w' = em_fs w /\ em_heap w' = em_heap w.

(** It is what the VFS layer asks for. *)
Lemma reclaimed_view f R w p r w' :
  emu_inv f R w -> refs w p = 1 -> opens w p = 0 -> (forall d, ~ devnode w p d) -> reclaimed f R w p r w' ->
  fs_ok w' /\ (forall q, q <> p -> vnode_of w' q = vnode_of w q) /\
  refs w' p <= 1 /\ opens w' p = 0 /\ (forall d, ~ devnode w' p d) /\
  (forall fs, mounted w fs -> mounted w' fs) /\ (forall q, kept w' q = kept w q).
Proof.
  unfold reclaimed. intros Hi Hr Ho Hd. destruct (decide (r = 0)).
  - intros (ev & a & k & Hp & Ev & Ed & Ef & _ & _ & Hi' & _). destruct (fs_stays_view w w') as [Hm Hkp].
    { exists f. eexists. split; [apply Hi|]. by split; [exact Ef|]. }
    assert (E : vnode_of w' p = None) by (simpl; by rewrite Ev, Ed, lookup_delete_eq, (not_dev f R w p ev)).
    split_and!; try done.
    + by eexists _, R.
    + intros q Hne. simpl. by rewrite Ev, Ed, lookup_delete_ne.
    + unfold refs. rewrite E. lia.
    + unfold opens. by rewrite E.
    + intros d (o & fs & Hkd & _). unfold kind in Hkd. by rewrite E in Hkd.
  - intros [Hq _]. pose proof (still_grants f R w w' 0 Hi Hq (Z.le_refl 0)) as G.
    pose proof Hq as ((f' & Hi') & Hf & Ev & Ed). destruct (fs_stays_view _ _ Hf). split_and!; try done.
    + by exists f', R.
    + intros q _. simpl. by rewrite Ev, Ed.
    + pose proof (g_top _ _ _ _ _ G p). lia.
    + rewrite (g_opens _ _ _ _ _ G p), Ho. done.
    + intros d Hd'. by apply (Hd d), (g_dev _ _ _ _ _ G).
Qed.

Lemma emufs_reclaim_busy w p ev : em_vn w !! p = Some ev -> refs w p <> 1 -> emufs_reclaim p w = Ret (EBUSY, w).
Proof.
  intros Hp Hr. unfold refs in Hr. simpl in Hr. rewrite Hp in Hr. unfold emufs_reclaim, get_ev, bind, get, ret. rewrite Hp.
  by rewrite (proj2 (Z.eqb_neq _ _) Hr).
Qed.

Lemma emufs_reclaim_wp f R w p :
  emu_inv f R w -> refs w p = 1 -> opens w p = 0 -> kept w p = 0 -> (forall d, ~ devnode w p d) ->
  wpo oom_panics (emufs_reclaim p) w (reclaimed f R w p).
Proof.
  intros Hi Hr Hop Hk Hd. destruct (live_ev f R w p Hi) as [ev Hp]; [lia|done|].
  destruct (i_ev _ _ _ Hi p ev Hp) as (_ & _ & _ & Hl & _ & _ & Hh).
  assert (Er : vn_refcount (ev_v ev) = 1) by (unfold refs in Hr; simpl in Hr; by rewrite Hp in Hr).
  assert (Eo : vn_opencount (ev_v ev) = 0) by (unfold opens in Hop; simpl in Hop; by rewrite Hp in Hop).
  assert (Hnr : p <> ef_root f).
  { intros ->. simpl in Hk. by rewrite (i_fs _ _ _ Hi), Z.eqb_refl in Hk. }
  unfold emufs_reclaim. wp_step. eapply get_ev_wp; [exact Hp|]. rewrite Er. simpl negb. cbv iota.
  wp_step. apply wp_on_sc. eapply wp_mono; [apply wp_calm, emu_close_wp; [apply Hi|done]|]. intros r sc (Hs & Hc & Hcl).
  destruct (Z.eqb_spec r 0) as [->|Hr0]; cbn [negb].
  2: { wp_step. unfold reclaimed. rewrite decide_False by done. split; [|done]. apply (quiet_sc f R w sc Hi Hs).
       intros hd Ho. by destruct (Hc _ Ho) as [?|[? _]]. }
  wp_step. eapply get_ef_wp; [apply Hi|]. wp_step.
  assert (Hin : Some p ∈ contents (ef_vnodes f)).
  { rewrite (i_tab _ _ _ Hi). apply list_elem_of_fmap_2, elem_of_elements. by eapply elem_of_dom_2. }
  apply list_elem_of_lookup_1 in Hin as [j Hj]. pose proof (contents_length _ (i_arr _ _ _ Hi)).
  eapply wp_mono; [apply wp_calm, (reclaim_find_wp (ef_vnodes f) p _ _ (i_arr _ _ _ Hi) 0 j); [unfold array_getnum; lia|lia|done]|].
  intros ix w1 (-> & k & -> & Hck). destruct (Z.ltb_spec (Z.of_nat k) 0); [lia|].
  pose proof (i_own _ _ _ Hi) as Hown. rewrite (table_blocks_delete ev_own _ _ _ Hp) in Hown.
  destruct (array_remove_own _ (Z.of_nat k) _ _ _ Hown (i_arr _ _ _ Hi)) as (a & Ea & Ha & Ho1 & _ & Ec).
  { apply lookup_lt_Some in Hck. lia. }
  rewrite Nat2Z.id in Ec. wp_step. eapply wp_lift_Ret; [exact Ea|]. wp_step. unfold set_ef_vnodes. wp_step.
  eapply get_ef_wp; [apply Hi|]. wp_step. wp_step. apply wp_on_eheap.
  eapply wp_mono; [apply (vnode_kill_own (ev_v ev) _ (p :: array_blocks a ++ table_blocks ev_own (delete p (em_vn w))) R)|].
  { eapply owns_move; [exact Ho1|]. unfold ev_own. solve_blocks. }
  1-3: done.
  intros v0 h2 Ho2. wp_step. apply wp_on_eheap. eapply wp_mono; [exact (wp_kfree_own _ _ _ _ Ho2)|].
  intros [] h3 Ho3. wp_steps. cbn [set_em_heap set_em_fs set_em_vn set_em_sc em_sc em_fs em_vn em_dev em_heap].
  exists ev, a, k. split_and!; try done; [|by apply Hcl].
  apply (inv_del f R w p ev k a sc h3); try done. intros hd Ho. destruct (Hc _ Ho) as [?|[_ ?]]; auto.
Qed.

(** ** The function tables *)

Lemma truncate_wp f R w p ev len :
  emu_inv f R w -> em_vn w !! p = Some ev -> wp (emufs_truncate p len) w (fun _ w' => quiet R w w').
Proof.
  intros Hi Hp. destruct (i_ev _ _ _ Hi p ev Hp) as (_ & _ & _ & _ & _ & _ & Hh). unfold emufs_truncate.
  wp_step. eapply get_ev_wp; [exact Hp|]. apply wp_on_sc.
  eapply wp_mono; [apply emu_trunc_wp; [apply Hi|done]|]. intros r sc [Hs Hk]. by apply (quiet_sc f).
Qed.

Definition keeps_contract w p q (a : answer) w' : Prop := grants 1 w w' (handed a) [] /\ ans_ok w p q a.

Lemma file_table_wp f R w p ev q :
  emu_inv f R w -> em_vn w !! p = Some ev -> req_ok w p q ->
  wpo oom_panics (emufs_file_table p q) w (keeps_contract w p q).
Proof.
  intros Hi Hp Hq. assert (G : forall w', quiet R w w' -> grants 1 w w' [] []) by (intros w' ?; by apply (still_grants f R)).
  assert (Hz : quiet R w w).
  { split; [by exists f|]. split; [|done]. exists f, f. split_and!; try done; apply Hi. }
  unfold keeps_contract. destruct q; simpl in Hq; try done; cbn [emufs_file_table emufs_file_gettype];
    try (wp_step; split; [by apply G|done]).
  unfold answers. wp_step. eapply wp_mono; [by apply wp_calm, (truncate_wp f R w p ev)|]. intros r w' Hqt. wp_step. split; [by apply G|done].
Qed.

Lemma dir_table_wp f R w p ev q :
  emu_inv f R w -> roomy w -> em_vn w !! p = Some ev -> req_ok w p q ->
  wpo oom_panics (emufs_dir_table p q) w (keeps_contract w p q).
Proof.
  intros Hi Hrm Hp Hq. assert (G : grants 1 w w [] []).
  { eapply (still_grants f R); [done| |done]. split; [by exists f|]. split; [|done]. exists f, f. split_and!; try done; apply Hi. }
  assert (Hol : forall name create excl, a_string name ->
    (forall r v, ans_ok w p q (AnsVnode r v)) ->
    wpo oom_panics (answers (fun '(r, q) => AnsVnode r q) (open_load p name create excl)) w (keeps_contract w p q)).
  { intros name create excl Hn Ha. unfold answers. wp_step. eapply wp_mono; [by apply (open_load_wp f R w p ev)|].
    intros [r v] w' Gr. wp_step. split; [done|apply Ha]. }
  destruct q; simpl in Hq; try done; cbn [emufs_dir_table emufs_dir_gettype]; try (wp_step; split; done).
  - wp_step. split; [done|]. intros _ _. destruct (i_ev _ _ _ Hi p ev Hp) as (Ef & Ed & _).
    exists (vn_ops (ev_v ev)), (ef_addr f), p. unfold kind. simpl. rewrite Hp. simpl. rewrite Ef, Ed. split; [done|].
    by destruct (node_bounds f R w (ef_addr f) Hi); [auto|].
  - by apply Hol.
  - by apply Hol.
  - destruct Hq as [Hs Hl]. unfold answers. wp_step.
    eapply wp_mono; [by apply (emufs_lookparent_wp f R w p ev)|]. intros [[r v] b] w' (Gr & Hb & Hst). wp_step. by split.
Qed.

Lemma emufs_call_wp f R w p q :
  emu_inv f R w -> roomy w -> 0 < refs w p -> (forall d, ~ devnode w p d) -> req_ok w p q ->
  wpo oom_panics (emufs_call p q) w (keeps_contract w p q).
Proof.
  intros Hi Hrm Hr Hd Hq. destruct (live_ev f R w p Hi Hr Hd) as [ev Hp].
  unfold emufs_call. wp_step. eapply wp_Ret; [by apply get_ev_vnode|].
  destruct (i_ev _ _ _ Hi p ev Hp) as (_ & _ & [->| ->] & _); [by eapply file_table_wp|by eapply dir_table_wp].
Qed.

Lemma emufs_getroot_wp f R w fs :
  emu_inv f R w -> roomy w -> ef_addr f = fs -> wp (emufs_getroot fs) w (fun v w' => grants 1 w w' [v] []).
Proof.
  intros Hi Hrm <-. destruct (i_root _ _ _ Hi) as (ev & Hp & _).
  destruct (node_bounds f R w (ef_addr f) Hi) as [? _]; [auto|].
  destruct (node_bounds f R w (ef_root f) Hi) as [? _]; [left; by eapply elem_of_dom_2|].
  unfold emufs_getroot. wp_step. wp_step. wp_step. eapply get_ef_wp; [apply Hi|]. wp_step. wp_step. wp_step.
  eapply wp_mono; [by apply (incref_wp f R)|]. intros [] w' [G _]. by wp_step.
Qed.

#[global] Instance emufs_laws : FsLaws W emu_vops.
Proof.
  split.
  - intros w p v Hv. simpl in *. destruct (em_vn w !! p) as [ev|]; [by simplify_eq|]. by rewrite Hv.
  - intros w p v (f & R & Hi) Hv Hr. simpl in Hv. destruct (em_vn w !! p) as [ev|] eqn:E.
    + simplify_eq. destruct (i_ev _ _ _ Hi p ev E) as (Ef & _ & Hops & _).
      destruct (node_bounds f R w p Hi) as [? ?]; [left; by eapply elem_of_dom_2|].
      destruct (node_bounds f R w (ef_addr f) Hi) as [? ?]; [auto|]. rewrite Ef. split_and!; try done.
      * intros _. exists f. split; [apply Hi|done].
      * destruct Hops as [->| ->]; eauto.
    + destruct (i_dev _ _ _ Hi p v Hv) as (Ef & Eo & _).
      destruct (node_bounds f R w p Hi) as [? ?]; [right; left; by eapply elem_of_dom_2|]. rewrite Ef, Eo. split_and!; eauto; done.
  - intros w p (f & R & Hi). by apply (refs_nonneg f R).
  - intros w p (f & R & Hi). pose proof (refs_nonneg f R w p Hi) as [? _]. simpl. rewrite (i_fs _ _ _ Hi).
    destruct (Z.eqb_spec (ef_root f) p) as [<-|]; [|lia]. destruct (i_root _ _ _ Hi) as (ev & Hp & _).
    unfold refs. simpl. rewrite Hp. destruct (i_ev _ _ _ Hi _ _ Hp) as (_ & _ & _ & _ & ? & _). lia.
  - intros w p v r o (f & R & Hi) Hv Hl Hr Ho _. simpl in Hv |- *. destruct (em_vn w !! p) as [ev|] eqn:E.
    + simplify_eq. eexists. split; [done|]. split; [eexists f, R; by apply inv_counts|]. split; [|done].
      intros q. simpl. destruct (decide (q = p)) as [->|]; [by rewrite lookup_insert_eq|by rewrite lookup_insert_ne].
    + eexists. split; [done|]. split; [eexists f, R; by apply inv_dev_counts|]. split; [|done].
      intros q. simpl. destruct (decide (q = p)) as [->|]; [by rewrite E, lookup_insert_eq|by rewrite lookup_insert_ne].
  - intros w p (f & R & Hi) Hr Ho Hk Hd. eapply wp_mono; [by apply (emufs_reclaim_wp f R)|].
    intros r w' Hc. by apply (reclaimed_view f R w p r w').
  - intros w p (f & R & Hi) _ _. change (vop_close p) with (ret 0 : M W Z). wp_step.
    eapply (grants_none f R); [done|by exists f, R| |done|done]. exists f, f. split_and!; try done; apply Hi.
  - intros w p q (f & R & Hi) Hrm Hr Hd Hq. by apply (emufs_call_wp f R).
  - intros w fs (f & R & Hi) Hrm (f' & E & Ea). rewrite (i_fs _ _ _ Hi) in E. simplify_eq.
    by apply wp_calm, (emufs_getroot_wp f' R).
  - intros w fs _ _. by split.
Qed.
End Invariant.
