(* ===== verification/EmuIo.v ===== *)
(** * Reading and writing through the emulator's file system

    [HostCard] adds to the laws of the card what its transfers mean: the
    handle stands for a file of the host, and an operation that reports
    success moved the bytes between it and the buffer.  The driver cuts a
    request into pieces of the size of the buffer; the theorems show that the
    pieces make up the whole, and that the loops end.  With them the contract of
    the function tables holds for every request. *)

From S2P Require Import Prelude.
From S2P Require Import Array.
From S2P Require Import Bytes.
From S2P Require Import Copyinout.
From S2P Require Import Uio.
From S2P Require Import Thread.
From S2P Require Import Vnode.
From S2P Require Import Sfs.
From S2P Require Import SfsOps.
From S2P Require Import Vfs.
From S2P Require Import VfsRefs.
From S2P Require Import Emu.
From S2P Require Import EmuRefs.

(** ** Files of the host *)

Definition read_at (f : list Z) (off n : nat) : list Z := slice f off n.

(** A write past the end leaves a hole of zeros. *)
Definition write_at (f : list Z) (off : nat) (bs : list Z) : list Z :=
  take off (f ++ replicate (off - length f) 0) ++ bs ++ drop (off + length bs) f.

Lemma read_at_short f off n : read_at f off (length (read_at f off n)) = read_at f off n.
Proof. unfold read_at, slice. rewrite length_take. destruct (decide (n <= length (drop off f))%nat).
  - by rewrite Nat.min_l.
  - rewrite Nat.min_r by lia. rewrite !take_ge by lia. done.
Qed.

Lemma read_at_app f off n k :
  read_at f off n ++ read_at f (off + length (read_at f off n)) k = read_at f off (length (read_at f off n) + k).
Proof.
  transitivity (read_at f off (length (read_at f off n)) ++ read_at f (off + length (read_at f off n)) k).
  - by rewrite read_at_short.
  - symmetry. apply slice_app.
Qed.

Lemma read_at_end f off n k : (0 < n)%nat -> read_at f off n = [] -> read_at f off k = [].
Proof.
  unfold read_at, slice. intros Hn E. destruct (drop off f); [by rewrite take_nil|]. destruct n; [lia|done].
Qed.

Lemma read_at_length f off n : (length (read_at f off n) <= n)%nat.
Proof. unfold read_at, slice. rewrite length_take. lia. Qed.

Lemma write_at_nil f off : (off <= length f)%nat -> write_at f off [] = f.
Proof.
  intros Ho. unfold write_at. replace (off - length f)%nat with 0%nat by lia.
  rewrite app_nil_r, Nat.add_0_r. apply take_drop.
Qed.

Lemma length_write_prefix f off : length (take off (f ++ replicate (off - length f) 0)) = off.
Proof. rewrite length_take, length_app, length_replicate. lia. Qed.

Lemma write_at_app f off bs cs : write_at (write_at f off bs) (off + length bs) cs = write_at f off (bs ++ cs).
Proof.
  unfold write_at at 1. set (pre := take off (f ++ replicate (off - length f) 0)).
  assert (Hp : length pre = off) by apply length_write_prefix.
  unfold write_at. fold pre. rewrite !length_app, Hp.
  replace (off + length bs - (off + (length bs + length (drop (off + length bs) f))))%nat with 0%nat by lia.
  rewrite app_nil_r, (app_assoc pre bs), take_app_length' by (rewrite length_app; lia). rewrite <- !app_assoc. do 3 f_equal.
  rewrite (app_assoc pre bs). rewrite drop_app_ge by (rewrite length_app; lia). rewrite length_app, Hp, drop_drop. f_equal. lia.
Qed.

Lemma read_write f off bs : read_at (write_at f off bs) off (length bs) = bs.
Proof.
  unfold read_at, slice, write_at. rewrite drop_app_length' by (by rewrite length_write_prefix). by rewrite take_app_length.
Qed.

Class HostCard (C : Type) `{CardLaws C} := {
  host : C -> Z -> list Z;              (* the file of a handle *)
  host_bytes c h : Forall byte_ok (host c h);
  host_read c r buf code r' buf' c' :
    card_op EMU_OP_READ r buf c = (code, r', buf', c') -> card_open c (reg_handle r) ->
    0 <= reg_offset r -> 0 <= reg_iolen r <= EMU_MAXIO -> Z.of_nat (length buf) = EMU_MAXIO ->
    (forall h, host c' h = host c h) /\
    (code = EMU_RES_SUCCESS ->
     let bs := read_at (host c (reg_handle r)) (Z.to_nat (reg_offset r)) (Z.to_nat (reg_iolen r)) in
     r' = mkRegs (reg_handle r) (reg_offset r + Z.of_nat (length bs)) (Z.of_nat (length bs)) /\
     slice buf' 0 (length bs) = bs);
  host_write c r buf code r' buf' c' :
    card_op EMU_OP_WRITE r buf c = (code, r', buf', c') -> card_open c (reg_handle r) ->
    0 <= reg_offset r -> 0 <= reg_iolen r <= EMU_MAXIO -> Z.of_nat (length buf) = EMU_MAXIO ->
    Forall byte_ok (slice buf 0 (Z.to_nat (reg_iolen r))) -> code = EMU_RES_SUCCESS ->
    host c' (reg_handle r) =
      write_at (host c (reg_handle r)) (Z.to_nat (reg_offset r)) (slice buf 0 (Z.to_nat (reg_iolen r)));
  host_readdir c r buf code r' buf' c' :
    card_op EMU_OP_READDIR r buf c = (code, r', buf', c') -> card_open c (reg_handle r) ->
    0 <= reg_iolen r <= EMU_MAXIO -> Z.of_nat (length buf) = EMU_MAXIO -> code = EMU_RES_SUCCESS ->
    0 <= reg_iolen r' <= reg_iolen r;
}.

Section Io.
Context {C : Type} `{HostCard C}.
Implicit Types sc : emu_softc C.

Definition same_host sc sc' : Prop := forall h, host (e_card sc') h = host (e_card sc) h.

Lemma stays_op sc sc' op code r buf :
  card_op op r buf (e_card sc) = (code, e_regs sc', e_iobuf sc', e_card sc') ->
  EMU_OP_OPEN <= op <= EMU_OP_TRUNC -> op <> EMU_OP_CLOSE -> card_open (e_card sc) (reg_handle r) ->
  sized op (reg_iolen r) -> Z.of_nat (length buf) = EMU_MAXIO -> stays sc sc'.
Proof.
  intros E Hop Hne Ho Hs Hb h Hh. destruct (card_law _ _ _ _ _ _ _ _ E Hop Ho Hs Hb) as (_ & _ & Hk & _).
  by destruct (Hk h Hh) as [?|(? & _)].
Qed.

(** The bytes of the file from the offset of the uio. *)
Definition next_bytes (f : list Z) (u : uio) (n : Z) : list Z := read_at f (Z.to_nat (uio_offset u)) (Z.to_nat n).

Lemma next_bytes_length f u n : 0 <= n -> Z.of_nat (length (next_bytes f u n)) <= n.
Proof. intros Hn. pose proof (read_at_length f (Z.to_nat (uio_offset u)) (Z.to_nat n)). unfold next_bytes. lia. Qed.

Lemma next_bytes_ok c h u n : Forall byte_ok (next_bytes (host c h) u n).
Proof. unfold next_bytes, read_at, slice. apply Forall_take, Forall_drop, host_bytes. Qed.

(** One piece. *)
Lemma emu_read_wp sc cur h u amt :
  sc_ok sc -> card_open (e_card sc) h -> uio_wf cur u -> uio_rw u = UIO_READ ->
  0 < amt <= uio_resid u -> amt <= EMU_MAXIO -> uio_access u amt ->
  wp (emu_read cur h amt u) sc (fun '(r, u') sc' => sc_ok sc' /\ stays sc sc' /\ same_host sc sc' /\
    u' = if decide (r = 0) then uio_fill (next_bytes (host (e_card sc) h) u amt) u else u).
Proof.
  intros [Hs Hb] Hh Hw Hrw Ha Hm Hac. unfold emu_read, emu_doread. wp_step. wp_step; [by apply bool_decide_eq_true|]. wp_steps.
  pose proof Hw as (_ & Hres & _ & _ & Hoff & Hoff2 & _).
  eapply wp_mono; [apply waitdone_run; simpl; try done|]; [right; right; right; lia|].
  intros r sc' (Hok & code & E & Hc). simpl in E. rewrite u32_small in E by lia.
  assert (Hst : stays sc sc').
  { eapply (stays_op sc sc' EMU_OP_READ); [exact E|done|done|done|right; right; right; simpl; lia|done]. }
  destruct (host_read _ _ _ _ _ _ _ E) as [Hsame Hdone]; [done|simpl; lia..|done|]. simpl in Hdone.
  destruct (Z.eqb_spec r 0) as [->|Hr]; cbn [negb].
  2: { wp_step. rewrite decide_False by done. by split_and!. }
  destruct Hdone as [Er Ebuf]; [by apply Hc|]. fold (next_bytes (host (e_card sc) h) u amt) in Er, Ebuf.
  set (bs := next_bytes _ u amt) in *. assert (Hbl : Z.of_nat (length bs) <= amt) by (apply next_bytes_length; lia).
  destruct Hok as [Hs' Hb']. wp_step. wp_step. rewrite Er. simpl reg_iolen. simpl reg_offset.
  assert (Hmv : uiomove cur (e_iobuf sc') 0 (Z.of_nat (length bs)) u = Ret (0, e_iobuf sc', uio_fill bs u)).
  { rewrite (uiomove_spec cur); [|done|lia|eapply uio_access_le; [exact Hac|lia]|lia|lia].
    rewrite Hrw. change (Z.to_nat 0) with 0%nat. by rewrite Nat2Z.id, Ebuf. }
  wp_step. eapply wp_lift_Ret; [exact Hmv|]. wp_steps.
  assert (Hfo : uio_offset (uio_fill bs u) = uio_offset u + Z.of_nat (length bs)) by (apply (uio_fill_fields cur); [done|lia]).
  split; [by destruct sc'|]. split; [done|]. split; [done|]. rewrite decide_True by done. rewrite s32_small by lia. rewrite <- Hfo.
  by destruct (uio_fill bs u).
Qed.

(** The pieces follow each other. *)
Lemma read_loop_wp fuel sc cur h u :
  sc_ok sc -> card_open (e_card sc) h -> uio_wf cur u -> uio_rw u = UIO_READ -> uio_access u (uio_resid u) ->
  (Z.to_nat (uio_resid u) < fuel)%nat ->
  wp (read_loop fuel cur h u) sc (fun '(r, u') sc' => sc_ok sc' /\ stays sc sc' /\ same_host sc sc' /\
    exists n, 0 <= n <= uio_resid u /\ (r = 0 -> n = uio_resid u) /\
      u' = uio_fill (next_bytes (host (e_card sc) h) u n) u).
Proof.
  revert sc u. induction fuel as [|fuel IH]; intros sc u Hs Hh Hw Hrw Hac Hf; [lia|]. cbn [read_loop].
  set (f := host (e_card sc) h). pose proof Hw as (_ & Hres & _ & _ & Hoff & _).
  assert (Hnil : u = uio_fill (next_bytes f u 0) u) by (unfold next_bytes, read_at, slice; simpl; by rewrite (uio_fill_nil cur)).
  destruct (Z.gtb_spec (uio_resid u) 0) as [Hr|Hr].
  2: { wp_step. split; [done|]. split; [by intros ?|]. split; [done|]. exists 0. split; [lia|]. split; [lia|done]. }
  set (amt := if uio_resid u >? EMU_MAXIO then EMU_MAXIO else uio_resid u).
  assert (Hamt : 0 < amt <= uio_resid u /\ amt <= EMU_MAXIO).
  { unfold amt, EMU_MAXIO. destruct (Z.gtb_spec (uio_resid u) 16384); lia. }
  wp_step. eapply wp_mono; [apply emu_read_wp; [done|done|done|done|lia|lia|eapply uio_access_le; [exact Hac|lia]]|].
  intros [r u1] sc1 (Hs1 & Hst1 & Hsm1 & ->). fold f. destruct (decide (r = 0)) as [->|Hr0]; cbn [Z.eqb negb].
  2: { rewrite (proj2 (Z.eqb_neq r 0) Hr0). cbn [negb]. wp_step. split_and!; try done. exists 0. split; [lia|]. by split. }
  set (bs := next_bytes f u amt). assert (Hbl : Z.of_nat (length bs) <= amt) by (apply next_bytes_length; lia).
  assert (Hbok : Forall byte_ok bs) by apply next_bytes_ok.
  destruct (uio_fill_fields cur u bs Hw) as (Eo & Er & _ & _ & Erw); [lia|].
  destruct (Z.eqb_spec (uio_resid (uio_fill bs u)) (uio_resid u)) as [E0|E0].
  - wp_step. split_and!; try done. exists (uio_resid u). split; [lia|]. split; [done|].
    assert (Hz : bs = []) by (destruct bs; [done|simpl in *; lia]). rewrite Hz. f_equal. symmetry.
    apply (read_at_end f _ (Z.to_nat amt)); [lia|exact Hz].
  - eapply wp_mono; [apply IH|].
    + done.
    + by apply Hst1.
    + apply uio_fill_wf; [done|lia|done].
    + by rewrite Erw.
    + rewrite Er. apply (uio_access_fill cur); [done| |lia].
      by replace (Z.of_nat (length bs) + (uio_resid u - Z.of_nat (length bs))) with (uio_resid u) by lia.
    + lia.
    + intros [r u'] sc' (Hs' & Hst' & Hsm' & n & Hn & Hn0 & ->). split; [done|].
      split; [by intros x ?%Hst1%Hst'|]. split; [intros x; by rewrite Hsm', Hsm1|].
      exists (Z.of_nat (length bs) + n). split; [lia|]. split; [intros ?%Hn0; lia|]. rewrite Hsm1. fold f.
      set (cs := next_bytes f (uio_fill bs u) n). assert (Z.of_nat (length cs) <= n) by (apply next_bytes_length; lia).
      rewrite (uio_fill_app cur) by (done || lia). f_equal. unfold cs, next_bytes. rewrite Eo.
      rewrite !Z2Nat.inj_add, !Nat2Z.id by lia. unfold bs, next_bytes. by rewrite read_at_app.
Qed.

(** A piece that is written; the uio moves on whatever the card says. *)
Lemma emu_write_wp sc cur h u amt :
  sc_ok sc -> card_open (e_card sc) h -> uio_wf cur u -> uio_rw u = UIO_WRITE ->
  0 < amt <= uio_resid u -> amt <= EMU_MAXIO -> uio_access u amt ->
  wp (emu_write cur h amt u) sc (fun '(r, u') sc' => sc_ok sc' /\ stays sc sc' /\ u' = advance amt u /\
    (r = 0 -> host (e_card sc') h =
       write_at (host (e_card sc) h) (Z.to_nat (uio_offset u)) (uio_data u (Z.to_nat amt)))).
Proof.
  intros [Hs Hb] Hh Hw Hrw Ha Hm Hac. pose proof Hw as (_ & Hres & _ & _ & Hoff & Hoff2 & _).
  assert (Hdl : length (uio_data u (Z.to_nat amt)) = Z.to_nat amt) by (apply (length_uio_data cur); [done|lia]).
  set (buf := splice (e_iobuf sc) 0 (uio_data u (Z.to_nat amt))).
  assert (Hbl : length buf = length (e_iobuf sc)) by (apply length_splice; lia).
  assert (Hmv : uiomove cur (e_iobuf sc) 0 amt u = Ret (0, buf, advance amt u)).
  { rewrite (uiomove_spec cur) by (done || lia). by rewrite Hrw. }
  unfold emu_write. wp_step. wp_step; [by apply bool_decide_eq_true|]. do 9 wp_step.
  eapply wp_lift_Ret; [exact Hmv|]. wp_steps. change (negb (0 =? 0)) with false. cbv iota. wp_steps.
  eapply wp_mono; [apply waitdone_run; simpl; try done|].
  - split; simpl; [done|]. by rewrite Hbl.
  - right; right; right; lia.
  - intros r sc' (Hok & code & E & Hc). simpl in E. rewrite u32_small in E by lia. wp_step. split; [done|].
    assert (Hbz : Z.of_nat (length buf) = EMU_MAXIO) by lia.
    split; [eapply (stays_op sc sc' EMU_OP_WRITE); [exact E|done|done|done|right; right; right; simpl; lia|done]|].
    split; [done|]. intros Hr. assert (Es : slice buf 0 (Z.to_nat amt) = uio_data u (Z.to_nat amt)).
    { unfold buf, slice, splice. rewrite drop_0, take_0. cbn [app]. by rewrite take_app_length'. }
    rewrite (host_write _ _ _ _ _ _ _ E); simpl; rewrite ?Es; try done; try lia; first [by eapply uio_data_ok|by apply Hc].
Qed.

Lemma write_loop_wp fuel sc cur h u :
  sc_ok sc -> card_open (e_card sc) h -> uio_wf cur u -> uio_rw u = UIO_WRITE -> uio_access u (uio_resid u) ->
  (uio_resid u = 0 -> (Z.to_nat (uio_offset u) <= length (host (e_card sc) h))%nat) ->
  (Z.to_nat (uio_resid u) < fuel)%nat ->
  wp (write_loop fuel cur h u) sc (fun '(r, u') sc' => sc_ok sc' /\ stays sc sc' /\
    (r = 0 -> u' = advance (uio_resid u) u /\ host (e_card sc') h =
       write_at (host (e_card sc) h) (Z.to_nat (uio_offset u)) (uio_data u (Z.to_nat (uio_resid u))))).
Proof.
  revert sc u. induction fuel as [|fuel IH]; intros sc u Hs Hh Hw Hrw Hac Hz Hf; [lia|]. cbn [write_loop].
  pose proof Hw as (Hbase & Hres & _ & _ & Hoff & _). destruct (Z.gtb_spec (uio_resid u) 0) as [Hr|Hr].
  2: { assert (E0 : uio_resid u = 0) by lia. wp_step. split; [done|]. split; [by intros ?|]. intros _. rewrite E0.
       split; [by rewrite (advance_0 cur)|]. unfold uio_data, slice. simpl. by rewrite write_at_nil by auto. }
  set (amt := if uio_resid u >? EMU_MAXIO then EMU_MAXIO else uio_resid u).
  assert (Hamt : 0 < amt <= uio_resid u /\ amt <= EMU_MAXIO).
  { unfold amt, EMU_MAXIO. destruct (Z.gtb_spec (uio_resid u) 16384); lia. }
  wp_step. eapply wp_mono; [apply emu_write_wp; [done|done|done|done|lia|lia|eapply uio_access_le; [exact Hac|lia]]|].
  intros [r u1] sc1 (Hs1 & Hst1 & -> & Hh1). destruct (Z.eqb_spec r 0) as [->|Hr0]; cbn [negb].
  2: { wp_step. split; [done|]. by split. }
  specialize (Hh1 eq_refl).
  assert (Hdl : length (uio_data u (Z.to_nat amt)) = Z.to_nat amt) by (apply (length_uio_data cur); [done|lia]).
  rewrite (advance_small cur) by (done || lia). simpl uio_resid. destruct (Z.eqb_spec (uio_resid u - amt) (uio_resid u)); [lia|].
  rewrite <- (advance_small cur) by (done || lia). assert (Ea : uio_resid (advance amt u) = uio_resid u - amt /\ uio_offset (advance amt u) = uio_offset u + amt).
  { by rewrite (advance_small cur) by (done || lia). }
  destruct Ea as [Er Eo]. eapply wp_mono; [apply IH|].
  - done.
  - by apply Hst1.
  - apply advance_wf; [done|lia].
  - done.
  - rewrite Er. apply uio_access_advance; [|lia]. by replace (amt + (uio_resid u - amt)) with (uio_resid u) by lia.
  - intros _. rewrite Eo, Hh1. unfold write_at. rewrite !length_app, length_write_prefix, Hdl. lia.
  - lia.
  - intros [r u'] sc' (Hs' & Hst' & Hw'). split; [done|]. split; [by intros x ?%Hst1%Hst'|]. intros [-> ->]%Hw'.
    rewrite Er, Eo, Hh1. split; [rewrite (advance_advance cur) by (done || lia); f_equal; lia|].
    replace (Z.to_nat (uio_offset u + amt)) with (Z.to_nat (uio_offset u) + length (uio_data u (Z.to_nat amt)))%nat by lia.
    rewrite write_at_app. f_equal. replace (Z.to_nat (uio_resid u)) with (Z.to_nat amt + Z.to_nat (uio_resid u - amt))%nat by lia.
    rewrite uio_data_app by done. rewrite Z2Nat.id by lia. done.
Qed.

(** A name of a directory is not longer than what was asked for. *)
Lemma emu_readdir_wp sc cur h u amt :
  sc_ok sc -> card_open (e_card sc) h -> uio_wf cur u -> uio_rw u = UIO_READ ->
  0 <= amt <= uio_resid u -> amt <= EMU_MAXIO -> uio_access u amt ->
  wp (emu_readdir cur h amt u) sc (fun _ sc' => sc_ok sc' /\ stays sc sc').
Proof.
  intros [Hs Hb] Hh Hw Hrw Ha Hm Hac. unfold emu_readdir, emu_doread. wp_step. wp_step; [by apply bool_decide_eq_true|]. wp_steps.
  eapply wp_mono; [apply waitdone_run; simpl; try done|]; [right; right; right; lia|].
  intros r sc' (Hok & code & E & Hc). simpl in E.
  assert (Hst : stays sc sc').
  { eapply (stays_op sc sc' EMU_OP_READDIR); [exact E|done|done|done|right; right; right; simpl; lia|done]. }
  destruct (Z.eqb_spec r 0) as [->|Hr]; cbn [negb]; [|by wp_step].
  assert (Hn : 0 <= reg_iolen (e_regs sc') <= amt).
  { eapply (host_readdir _ _ _ _ _ _ _ E); [done|simpl; lia|done|by apply Hc]. }
  destruct Hok as [Hs' Hb']. wp_step. wp_step. wp_step. eapply wp_lift_Ret.
  { rewrite (uiomove_spec cur); [by rewrite Hrw|done|lia|eapply uio_access_le; [exact Hac|lia]|lia|lia]. }
  wp_steps. split; [by destruct sc'|done].
Qed.

Lemma emu_getsize_wp sc h :
  sc_ok sc -> card_open (e_card sc) h -> wp (emu_getsize h) sc (fun _ sc' => sc_ok sc' /\ stays sc sc').
Proof.
  intros [Hs Hb] Hh. unfold emu_getsize. wp_steps. eapply wp_mono; [apply waitdone_wp; simpl; try done|].
  - by right; left.
  - intros r sc' (Hok & Hk & _). wp_steps. split; [done|]. intros x [?|(? & _)]%Hk; done.
Qed.
End Io.

Section Files.
Context {H C : Type} `{AlignedAlloc H} `{HostCard C} `{!CurSpace}.
Implicit Types w : emuw H C.

Lemma emufs_write_wp f R w p ev u :
  emu_inv f R w -> em_vn w !! p = Some ev ->
  uio_wf cur_space u -> uio_rw u = UIO_WRITE -> uio_access u (uio_resid u) -> 0 < uio_resid u ->
  wp (emufs_write p u) w (fun '(r, u') w' => quiet R w w' /\
    (r = 0 -> u' = advance (uio_resid u) u /\
       host (e_card (em_sc w')) (ev_handle ev) =
         write_at (host (e_card (em_sc w)) (ev_handle ev)) (Z.to_nat (uio_offset u)) (uio_data u (Z.to_nat (uio_resid u))))).
Proof.
  intros Hi Hp Hw Hrw Hac Hpos. destruct (i_ev _ _ _ Hi p ev Hp) as (_ & _ & _ & _ & _ & _ & Hh).
  unfold emufs_write. wp_step. eapply get_ev_wp; [exact Hp|]. wp_step. wp_step; [by apply bool_decide_eq_true|].
  apply wp_on_sc. eapply wp_mono; [apply write_loop_wp; [apply Hi|done|done|done|done|lia|lia]|].
  intros [r u'] sc (Hs & Hst & Hd). split; [by apply (quiet_sc f)|]. exact Hd.
Qed.

(** ** Every request *)

(** What a caller of the function tables has to see to: a transfer needs memory
    that can be accessed, and has to be in the direction of the request. *)
Definition transfer_ok (rw : uio_dir) (u : uio) : Prop :=
  uio_wf cur_space u /\ uio_rw u = rw /\ uio_access u (uio_resid u).

Definition call_ok w (p : Z) (q : request) : Prop :=
  match q with
  | ReqRead u | ReqGetdirentry u => transfer_ok UIO_READ u
  | ReqWrite u => transfer_ok UIO_WRITE u
  | ReqIoctl _ _ | ReqStat | ReqTryseek _ | ReqFsync | ReqMmap | ReqNamefile _ => True
  | _ => req_ok w p q
  end.

(** The requests that find or make a vnode. *)
Definition finds (q : request) : bool :=
  match q with ReqCreat _ _ | ReqLookup _ | ReqLookparent _ _ _ => true | _ => false end.

Lemma quiet_refl f R w : emu_inv f R w -> quiet R w w.
Proof. intros Hi. split; [by exists f|]. split; [|done]. exists f, f. split_and!; try done; apply Hi. Qed.

Lemma emufs_read_quiet f R w p ev u :
  emu_inv f R w -> em_vn w !! p = Some ev -> transfer_ok UIO_READ u ->
  wp (emufs_read p u) w (fun _ w' => quiet R w w').
Proof.
  intros Hi Hp (Hw & Hrw & Hac). destruct (i_ev _ _ _ Hi p ev Hp) as (_ & _ & _ & _ & _ & _ & Hh).
  unfold emufs_read. wp_step. eapply get_ev_wp; [exact Hp|]. wp_step. wp_step; [by apply bool_decide_eq_true|].
  apply wp_on_sc. eapply wp_mono; [apply read_loop_wp; [apply Hi|done|done|done|done|lia]|].
  intros [r u'] sc (Hs & Hst & _). by apply (quiet_sc f).
Qed.

Lemma emufs_write_quiet f R w p ev u :
  emu_inv f R w -> em_vn w !! p = Some ev -> transfer_ok UIO_WRITE u ->
  wp (emufs_write p u) w (fun _ w' => quiet R w w').
Proof.
  intros Hi Hp (Hw & Hrw & Hac). pose proof Hw as (_ & Hres & _). destruct (decide (0 < uio_resid u)).
  - eapply wp_mono; [by apply (emufs_write_wp f R)|]. by intros [r u'] w' [? _].
  - unfold emufs_write. wp_step. eapply get_ev_wp; [exact Hp|]. wp_step. wp_step; [by apply bool_decide_eq_true|].
    apply wp_on_sc. cbn [write_loop]. destruct (Z.gtb_spec (uio_resid u) 0); [lia|]. wp_step.
    apply (quiet_sc f); [done|apply Hi|by intros ?].
Qed.

Lemma emufs_getdirentry_quiet f R w p ev u :
  emu_inv f R w -> em_vn w !! p = Some ev -> transfer_ok UIO_READ u ->
  wp (emufs_getdirentry p u) w (fun _ w' => quiet R w w').
Proof.
  intros Hi Hp (Hw & Hrw & Hac). pose proof Hw as (_ & Hres & _).
  destruct (i_ev _ _ _ Hi p ev Hp) as (_ & _ & _ & _ & _ & _ & Hh).
  unfold emufs_getdirentry. wp_step. eapply get_ev_wp; [exact Hp|]. wp_step. wp_step; [by apply bool_decide_eq_true|].
  set (amt := if uio_resid u >? EMU_MAXIO then EMU_MAXIO else uio_resid u).
  assert (Hamt : 0 <= amt <= uio_resid u /\ amt <= EMU_MAXIO).
  { unfold amt, EMU_MAXIO. destruct (Z.gtb_spec (uio_resid u) 16384); lia. }
  apply wp_on_sc. eapply wp_mono; [apply emu_readdir_wp; [apply Hi|done|done|done|lia|lia|eapply uio_access_le; [exact Hac|lia]]|].
  intros _ sc [Hs Hst]. by apply (quiet_sc f).
Qed.

Lemma emufs_stat_quiet f R w p ev m :
  emu_inv f R w -> em_vn w !! p = Some ev -> wp (emufs_stat p (0, m)) w (fun _ w' => quiet R w w').
Proof.
  intros Hi Hp. destruct (i_ev _ _ _ Hi p ev Hp) as (Ef & _ & Hops & _ & Hr & Ho & Hh).
  destruct (node_bounds f R w p Hi) as [? ?]; [left; by eapply elem_of_dom_2|].
  destruct (node_bounds f R w (ef_addr f) Hi) as [? ?]; [auto|].
  unfold emufs_stat. wp_step. eapply get_ev_wp; [exact Hp|]. wp_step.
  apply (wp_mono _ _ (fun _ w' => w' = w)).
  - unfold vnode_check, lock_acquire, lock_release. do 5 wp_step. eapply wp_Ret; [by apply get_ev_vnode|].
    rewrite Ef. destruct Hops as [->| ->]; repeat wp_step; done || lia.
  - intros [] w' ->. cbn [Z.eqb negb]. wp_step. apply wp_on_sc.
    eapply wp_mono; [apply emu_getsize_wp; [apply Hi|done]|]. intros [r n] sc [Hs Hst]. wp_step. by apply (quiet_sc f).
Qed.

(** Only the requests that find a vnode change the table of vnodes. *)
Lemma emufs_call_quiet f R w p ev q :
  emu_inv f R w -> em_vn w !! p = Some ev -> call_ok w p q -> finds q = false ->
  wp (emufs_call p q) w (fun a w' => quiet R w w' /\ handed a = []).
Proof.
  intros Hi Hp Hq Hf. pose proof (quiet_refl f R w Hi) as Hz.
  assert (Ha : forall A (g : A -> answer) (m : M (emuw H C) A), (forall x, handed (g x) = []) ->
    wp m w (fun _ w' => quiet R w w') -> wp (answers g m) w (fun a w' => quiet R w w' /\ handed a = [])).
  { intros A g m Hg Hm. unfold answers. wp_step. eapply wp_mono; [exact Hm|]. intros x w' Hx. wp_step. by split. }
  unfold emufs_call. wp_step. eapply wp_Ret; [by apply get_ev_vnode|].
  destruct (i_ev _ _ _ Hi p ev Hp) as (_ & _ & [->| ->] & _); destruct q; simpl in Hq; try done;
    cbn [emufs_file_table emufs_dir_table emufs_file_gettype emufs_dir_gettype]; try (wp_step; by split);
    apply Ha; try (by intros []); try done.
  - by apply (emufs_read_quiet f R w p ev).
  - by apply (emufs_write_quiet f R w p ev).
  - by apply (emufs_stat_quiet f R w p ev).
  - by apply (truncate_wp f R w p ev).
  - by apply (emufs_stat_quiet f R w p ev).
  - unfold emufs_namefile. wp_step. eapply get_ef_wp; [apply Hi|]. by wp_step.
  - by apply (emufs_getdirentry_quiet f R w p ev).
Qed.

Lemma emufs_call_contract f R w p q :
  emu_inv f R w -> roomy w -> 0 < refs w p -> (forall d, ~ devnode w p d) -> call_ok w p q ->
  wpo oom_panics (emufs_call p q) w (keeps_contract w p q).
Proof.
  intros Hi Hrm Hr Hd Hq. destruct (live_ev f R w p Hi Hr Hd) as [ev Hp].
  assert (Hs : finds q = false -> (forall a, handed a = [] -> ans_ok w p q a) ->
    wpo oom_panics (emufs_call p q) w (keeps_contract w p q)).
  { intros Hf Ha. eapply wp_mono; [by apply wp_calm, (emufs_call_quiet f R w p ev)|]. intros a w' [Hqt Eh]. split; [|by apply Ha].
    rewrite Eh. by apply (still_grants f R). }
  destruct q; simpl in Hq; try done; first [by apply (emufs_call_wp f R) | apply Hs; [done|]; by intros []].
Qed.
End Files.
