(* ===== verification/EmuSpec.v ===== *)
(** * What the emulator's file system promises

    The theorems on [emu.c], and a machine with a small card on which they can
    be seen at work. *)

From S2P Require Import Prelude.
From S2P Require Import Array.
From S2P Require Import Own.
From S2P Require Import Bump.
From S2P Require Import Bytes.
From S2P Require Import Cstring.
From S2P Require Import Copyinout.
From S2P Require Import Uio.
From S2P Require Import Thread.
From S2P Require Import Vnode.
From S2P Require Import Sfs.
From S2P Require Import SfsOps.
From S2P Require Import Vfs.
From S2P Require Import VfsRefs.
From S2P Require Import Emu.
From S2P Require Import EmuRefs.
From S2P Require Import EmuIo.

Section Spec.
Context {H C : Type} `{AlignedAlloc H} `{HostCard C} `{!CurSpace}.
Implicit Types w : emuw H C.

(** C22: [emu.c] keeps the contract the VFS layer relies on, whatever the request.
    - A request to a vnode in use, with valid names and, for a transfer, memory
      that can be accessed, hands back exactly the reference it promises, leaves
      every other count alone and answers in the form the layer expects; if it
      does not look for a vnode it changes nothing but the card.
    - [emufs_reclaim] answers EBUSY and does nothing if there are other
      references.  Otherwise, with success, the vnode is gone from the table of
      vnodes and from its array, its blocks are free and its handle is closed
      on the card; if the card cannot close the handle it is still open, and
      vnode, array and heap are as they were.
    - The root can always be had.
    The driver never provokes one of the result codes it panics on, as the
    handle of every vnode in memory is open on the card. *)
Theorem emufs_keeps_contract f R w p q :
  emu_inv f R w -> roomy w -> 0 < refs w p -> (forall d, ~ devnode w p d) -> call_ok w p q ->
  wpo oom_panics (emufs_call p q) w (fun a w' => grants 1 w w' (handed a) [] /\ ans_ok w p q a) /\
  (finds q = false -> wp (emufs_call p q) w (fun a w' => quiet R w w' /\ handed a = [])) /\
  (refs w p <> 1 -> emufs_reclaim p w = Ret (EBUSY, w)) /\
  (refs w p = 1 -> opens w p = 0 -> kept w p = 0 -> wpo oom_panics (emufs_reclaim p) w (reclaimed f R w p)) /\
  wp (emufs_getroot (ef_addr f)) w (fun v w' => grants 1 w w' [v] []).
Proof.
  intros Hi Hrm Hr Hd Hq. destruct (live_ev f R w p Hi Hr Hd) as [ev Hp]. split_and!.
  - by apply (emufs_call_contract f R).
  - intros Hf. by apply (emufs_call_quiet f R w p ev).
  - intros Hn. by apply (emufs_reclaim_busy w p ev).
  - intros. by apply (emufs_reclaim_wp f R).
  - by apply (emufs_getroot_wp f R).
Qed.

(** C23: [emufs_read] ends, and without an error it has put into the caller's
    buffer exactly the bytes of the host's file from the offset on, as many as
    were asked for or as the file has, however many pieces they came in.  An
    error leaves a prefix of them.  No vnode and no file changes. *)
Theorem emufs_read_bytes f R w p ev u :
  emu_inv f R w -> em_vn w !! p = Some ev ->
  uio_wf cur_space u -> uio_rw u = UIO_READ -> uio_access u (uio_resid u) ->
  wp (emufs_read p u) w (fun '(r, u') w' => quiet R w w' /\ same_host (em_sc w) (em_sc w') /\
    exists n, 0 <= n <= uio_resid u /\ (r = 0 -> n = uio_resid u) /\
      u' = uio_fill (next_bytes (host (e_card (em_sc w)) (ev_handle ev)) u n) u).
Proof.
  intros Hi Hp Hw Hrw Hac. destruct (i_ev _ _ _ Hi p ev Hp) as (_ & _ & _ & _ & _ & _ & Hh).
  unfold emufs_read. wp_step. eapply get_ev_wp; [exact Hp|]. wp_step. wp_step; [by apply bool_decide_eq_true|].
  apply wp_on_sc. eapply wp_mono; [apply read_loop_wp; [apply Hi|done|done|done|done|lia]|].
  intros [r u'] sc (Hs & Hst & Hsm & Hn). split; [by apply (quiet_sc f)|]. by split.
Qed.

(** C24: [emufs_write] ends, and without an error the host's file has the
    caller's bytes at the offset, whatever it had there before and however
    many pieces they went in; reading them back gives them again. *)
Theorem emufs_write_bytes f R w p ev u :
  emu_inv f R w -> em_vn w !! p = Some ev ->
  uio_wf cur_space u -> uio_rw u = UIO_WRITE -> uio_access u (uio_resid u) -> 0 < uio_resid u ->
  wp (emufs_write p u) w (fun '(r, u') w' => quiet R w w' /\
    (r = 0 -> u' = advance (uio_resid u) u /\
       let f0 := host (e_card (em_sc w)) (ev_handle ev) in
       let f1 := host (e_card (em_sc w')) (ev_handle ev) in
       let data := uio_data u (Z.to_nat (uio_resid u)) in
       f1 = write_at f0 (Z.to_nat (uio_offset u)) data /\ next_bytes f1 u (uio_resid u) = data)).
Proof.
  intros Hi Hp Hw Hrw Hac Hpos. eapply wp_mono; [by apply (emufs_write_wp f R)|].
  intros [r u'] w' [Hq Hd]. split; [done|]. intros [-> E]%Hd. split; [done|]. simpl. split; [done|]. rewrite E. unfold next_bytes.
  set (data := uio_data _ _). assert (Hl : length data = Z.to_nat (uio_resid u)) by (apply (length_uio_data cur_space); [done|lia]).
  rewrite <- Hl. apply read_write.
Qed.
End Spec.

(** ** A small machine

    The card's handles name byte sequences: all names are the same file, of
    handle 5. *)
Module Machine.
Abbreviation files := (gmap Z (list Z)).

Definition file_of (c : files) (h : Z) : list Z := (fun b => b mod 256) <$> default [] (c !! h).

#[global] Instance card : EmuCard files := {
  card_op op r buf c :=
    if op <=? EMU_OP_EXCLCREATE then
      (EMU_RES_SUCCESS, mkRegs 5 0 0, buf, if decide (is_Some (c !! 5)) then c else <[5 := []]> c)
    else if op =? EMU_OP_CLOSE then (EMU_RES_SUCCESS, r, buf, delete (reg_handle r) c)
    else if op =? EMU_OP_READ then
      let bs := read_at (file_of c (reg_handle r)) (Z.to_nat (reg_offset r)) (Z.to_nat (reg_iolen r)) in
      (EMU_RES_SUCCESS, mkRegs (reg_handle r) (reg_offset r + Z.of_nat (length bs)) (Z.of_nat (length bs)),
       splice buf 0 bs, c)
    else if op =? EMU_OP_WRITE then
      (EMU_RES_SUCCESS, r, buf,
       <[reg_handle r := write_at (file_of c (reg_handle r)) (Z.to_nat (reg_offset r))
                           (slice buf 0 (Z.to_nat (reg_iolen r)))]> c)
    else (EMU_RES_UNSUPP, r, buf, c);
}.

#[global] Instance card_laws : CardLaws files.
Proof.
  refine {| card_open := fun c h => is_Some (c !! h) |}.
  intros c op r buf code r' buf' c' E Hop Ho Hs Hb. unfold card_op, card in E.
  destruct (Z.leb_spec op EMU_OP_EXCLCREATE).
  { simplify_eq. split_and!; try done.
    - intros h Hh. left. destruct (decide _); [done|]. by apply lookup_insert_is_Some'; right.
    - intros _ _. simpl. destruct (decide _); [done|]. by rewrite lookup_insert_eq.
    - intros ->. done. }
  assert (Hno : ~ opening op) by (unfold opening; lia).
  destruct (Z.eqb_spec op EMU_OP_CLOSE).
  { simplify_eq. split_and!; try done.
    - intros h Hh. destruct (decide (h = reg_handle r')) as [->|]; [by right|]. left. by rewrite lookup_delete_ne.
    - intros _ _ [x Hx]. by rewrite lookup_delete_eq in Hx. }
  destruct (Z.eqb_spec op EMU_OP_READ) as [->|].
  { simplify_eq. split_and!; try done; [|by left]. apply length_splice.
    destruct Hs as [?|[?|[?|?]]]; try done. pose proof (read_at_length (file_of c' (reg_handle r)) (Z.to_nat (reg_offset r)) (Z.to_nat (reg_iolen r))).
    unfold EMU_MAXIO in *. lia. }
  destruct (Z.eqb_spec op EMU_OP_WRITE).
  { simplify_eq. split_and!; try done. intros h Hh. left. by apply lookup_insert_is_Some'; right. }
  simplify_eq. split_and!; try done. by left.
Defined.

Lemma mod_bytes l : Forall byte_ok l -> (fun b => b mod 256) <$> l = l.
Proof.
  intros Hl. induction Hl as [|b l Hb _ IH]; [done|]. rewrite fmap_cons, IH. f_equal.
  unfold byte_ok in Hb. rewrite Z.mod_small; [done|lia].
Qed.

Lemma file_of_bytes c h : Forall byte_ok (file_of c h).
Proof. apply Forall_fmap, Forall_true. intros b. unfold byte_ok. simpl. apply Z.mod_pos_bound. lia. Qed.

Lemma write_at_bytes f off bs : Forall byte_ok f -> Forall byte_ok bs -> Forall byte_ok (write_at f off bs).
Proof.
  intros Hf Hb. unfold write_at. rewrite !Forall_app. split_and!; [|done|by apply Forall_drop].
  apply Forall_take, Forall_app. split; [done|]. apply zeros_bytes.
Qed.

#[global] Instance host_card : HostCard files.
Proof.
  refine {| host := file_of |}; [apply file_of_bytes|..].
  - intros c r buf code r' buf' c' E _ _ _ Hb. cbn in E. simplify_eq. split; [done|]. intros _. split; [done|].
    unfold slice, splice. rewrite drop_0, take_0. cbn [app]. by rewrite take_app_length.
  - intros c r buf code r' buf' c' E _ _ _ _ Hs _. cbn in E. simplify_eq. unfold file_of at 1.
    rewrite lookup_insert_eq. simpl. apply mod_bytes, write_at_bytes; [apply file_of_bytes|done].
  - intros c r buf code r' buf' c' E _ _ _ Hc. cbn in E. by simplify_eq.
Defined.

#[global] Instance space : CurSpace := 1.

(** The root, at 824, and the file of handle 5, at 848; a device at 872. *)
Definition table : gmap Z emufs_vnode :=
  <[824 := mkEv (mkVnode 2 0 (Some (mkLock 832 840)) 800 824 (Some emufs_dirops)) 0]>
    {[848 := mkEv (mkVnode 1 0 (Some (mkLock 856 864)) 800 848 (Some emufs_fileops)) 5]}.
Definition fs : emufs_fs := mkEf 800 824 (mkArray 808 2 2 (Some (mkBlock 816 [Some 824; Some 848]))).
Definition mine : list Z := [808; 816; 824; 832; 840; 848; 856; 864].
Definition others : gset Z := {[800; 872]}.
Definition buffer : list Z := replicate (Z.to_nat EMU_MAXIO) 0.
Definition machine : emuw bump files :=
  mkEmuw (mkSc (<[0 := []]> {[5 := [10; 20; 30; 40]]}) (mkRegs 0 0 0) 0 0 buffer 0 0) (Some fs) table
    {[872 := mkVnode 1 0 None 0 400 (Some emu_devops)]} (4096, list_to_set mine ∪ others).

Lemma table_cases q ev :
  table !! q = Some ev ->
  (q = 824 /\ ev = mkEv (mkVnode 2 0 (Some (mkLock 832 840)) 800 824 (Some emufs_dirops)) 0) \/
  (q = 848 /\ ev = mkEv (mkVnode 1 0 (Some (mkLock 856 864)) 800 848 (Some emufs_fileops)) 5).
Proof.
  unfold table. intros [[<- <-]|[_ Hq]]%lookup_insert_Some; [by left|]. apply lookup_singleton_Some in Hq as [<- <-]. by right.
Qed.

Lemma table_blocks_mine : Permutation (array_blocks (ef_vnodes fs) ++ table_blocks ev_own table) mine.
Proof.
  unfold table. rewrite (table_blocks_insert ev_own) by done.
  rewrite <- insert_empty, (table_blocks_insert ev_own) by done. done.
Qed.

Lemma machine_ok : emu_inv fs others machine.
Proof.
  constructor.
  - done.
  - split; [done|]. change (Z.of_nat (length (replicate (Z.to_nat EMU_MAXIO) 0)) = EMU_MAXIO).
    rewrite length_replicate. by apply Z2Nat.id.
  - change (em_vn machine) with table. rewrite table_blocks_mine. split_and!.
    + split; [done|]. split; [done|]. split; [done|]. intros q Hq. change (q ∈ (list_to_set mine ∪ others : gset Z)) in Hq.
      unfold mine, others in Hq. simpl.
      repeat (apply elem_of_union in Hq as [Hq|Hq] || apply elem_of_list_to_set in Hq || apply elem_of_cons in Hq as [->|Hq] || apply elem_of_nil in Hq || apply elem_of_singleton in Hq as ->); done || lia.
    + unfold mine. repeat (apply NoDup_cons; split; [rewrite ?elem_of_cons, elem_of_nil; lia|]). apply NoDup_nil_2.
    + intros q Hq Hr. unfold mine, others in *. set_solver.
  - by vm_compute.
  - change (em_vn machine) with table. unfold table. rewrite dom_insert_L, dom_singleton_L.
    rewrite elements_union_singleton, elements_singleton by set_solver. done.
  - intros q ev [[-> ->]|[-> ->]]%table_cases; 
      (split_and!; [done|done|by auto|done|done|done|]); unfold card_open, card_laws; by eexists.
  - intros q1 q2 e1 e2 [[-> ->]|[-> ->]]%table_cases [[-> ->]|[-> ->]]%table_cases; done.
  - by eexists.
  - apply map_Forall_singleton. by split_and!.
  - change (dom (em_dev machine)) with (dom ({[872 := mkVnode 1 0 None 0 400 (Some emu_devops)]} : gmap Z (vnode emu_vops))).
    rewrite dom_singleton_L. unfold others. set_solver.
Qed.

Lemma machine_roomy : roomy machine.
Proof.
  intros q. unfold refs. cbn [vnode_of emu_view]. destruct (em_vn machine !! q) as [ev|] eqn:E.
  - destruct (table_cases q ev E) as [[-> ->]|[-> ->]]; simpl; lia.
  - destruct (em_dev machine !! q) as [v|] eqn:Ev; [|lia].
    change (({[872 := mkVnode 1 0 None 0 400 (Some emu_devops)]} : gmap Z (vnode emu_vops)) !! q = Some v) in Ev.
    apply lookup_singleton_Some in Ev as [<- <-]. simpl. lia.
Qed.

Lemma machine_nodes q ev : table !! q = Some ev -> forall d, ~ devnode machine q d.
Proof.
  intros Hq d (o & f & K & Hd). unfold kind in K. cbn [vnode_of emu_view] in K. change (em_vn machine) with table in K.
  rewrite Hq in K. destruct (table_cases q ev Hq) as [[-> ->]|[-> ->]]; simpl in K; by simplify_eq.
Qed.

(** A lookup in the root finds the file, which then has two references; with one
    it can be reclaimed, and leaves the card and the table. *)
Lemma emufs_keeps_contract_witness :
  (wpo False (emufs_call 824 (ReqLookup [102; 0])) machine (fun a w' =>
     grants 1 machine w' (handed a) [] /\ ans_ok machine 824 (ReqLookup [102; 0]) a) /\
   match emufs_call 824 (ReqLookup [102; 0]) machine with
   | Ret (a, w') => a = AnsVnode 0 848 /\ refs w' 848 = 2
   | Stop _ => False
   end) /\
  wpo False (emufs_reclaim 848) machine (reclaimed fs others machine 848) /\
  match emufs_reclaim 848 machine with
  | Ret (r, w') => r = 0 /\ em_vn w' !! 848 = None /\ e_card (em_sc w') !! 5 = None
  | Stop _ => False
  end.
Proof.
  split; split; [|by vm_compute| |by vm_compute].
  - refine (proj1 (emufs_keeps_contract fs others machine 824 (ReqLookup [102; 0]) machine_ok machine_roomy _ _ _)).
    + by vm_compute.
    + by eapply machine_nodes.
    + exists [102], []. split; [done|]. by repeat constructor.
  - refine (proj1 (proj2 (proj2 (proj2 (emufs_keeps_contract fs others machine 848 (ReqRead (mk_kuio [0; 0; 0] 3 1 UIO_READ))
      machine_ok machine_roomy _ _ _)))) _ _ _).
    + by vm_compute.
    + by eapply machine_nodes.
    + split_and!; [|done|done]. unfold uio_wf, mk_kuio. simpl. split_and!; try lia; try done. apply (zeros_bytes 3).
    + by vm_compute.
    + by vm_compute.
    + by vm_compute.
Defined.

(** Three bytes from the second on, of a file of four. *)
Lemma emufs_read_bytes_witness :
  wp (emufs_read 848 (mk_kuio [0; 0; 0] 3 1 UIO_READ)) machine (fun '(r, u') w' =>
    quiet others machine w' /\ same_host (em_sc machine) (em_sc w') /\
    exists n, 0 <= n <= 3 /\ (r = 0 -> n = 3) /\
      u' = uio_fill (next_bytes [10; 20; 30; 40] (mk_kuio [0; 0; 0] 3 1 UIO_READ) n) (mk_kuio [0; 0; 0] 3 1 UIO_READ)) /\
  match emufs_read 848 (mk_kuio [0; 0; 0] 3 1 UIO_READ) machine with
  | Ret (r, u', _) => r = 0 /\ rg_bytes (iov_region u') = [20; 30; 40]
  | Stop _ => False
  end.
Proof.
  split; [|by vm_compute].
  refine (emufs_read_bytes fs others machine 848 (mkEv (mkVnode 1 0 (Some (mkLock 856 864)) 800 848 (Some emufs_fileops)) 5)
    (mk_kuio [0; 0; 0] 3 1 UIO_READ) machine_ok _ _ _ _).
  - done.
  - unfold uio_wf, mk_kuio. simpl. split_and!; try lia; try done. apply (zeros_bytes 3).
  - done.
  - done.
Defined.

(** Two bytes past the end of the file. *)
Lemma emufs_write_bytes_witness :
  wp (emufs_write 848 (mk_kuio [7; 8] 2 6 UIO_WRITE)) machine (fun '(r, u') w' => quiet others machine w' /\
    (r = 0 -> u' = advance 2 (mk_kuio [7; 8] 2 6 UIO_WRITE) /\
      let f1 := host (e_card (em_sc w')) 5 in
      f1 = write_at [10; 20; 30; 40] 6 [7; 8] /\ next_bytes f1 (mk_kuio [7; 8] 2 6 UIO_WRITE) 2 = [7; 8])) /\
  write_at [10; 20; 30; 40] 6 [7; 8] = [10; 20; 30; 40; 0; 0; 7; 8].
Proof.
  split; [|done].
  refine (emufs_write_bytes fs others machine 848 (mkEv (mkVnode 1 0 (Some (mkLock 856 864)) 800 848 (Some emufs_fileops)) 5)
    (mk_kuio [7; 8] 2 6 UIO_WRITE) machine_ok _ _ _ _ _).
  - done.
  - unfold uio_wf, mk_kuio, byte_ok. simpl. split_and!; try lia; try done. repeat constructor; lia.
  - done.
  - done.
  - done.
Defined.
End Machine.
