(* ===== verification/Pids.v ===== *)
(** * Process ids ([kern/userprog/process_syscall.c])

    The ids that are in use, with what is still to happen before each can be
    given out again, and those that wait to be reused.  A linked list is the
    list of its nodes, each with its address.  The functions run with
    interrupts off. *)

From S2P Require Import Prelude.
From S2P Require Import Array.
From S2P Require Import Own.
From S2P Require Import Bump.
From S2P Require Import Thread.

Definition MIN_PID : Z := 100.
Definition PID_FREE : Z := 0.
Definition PID_PARENT : Z := 1.
Definition PID_EXITED : Z := 2.
Definition PID_NEW : Z := 3.
Definition SIZEOF_PID_CLIST : Z := 12.
Definition SIZEOF_PID_LIST : Z := 8.

Record pid_clist := mkPc {
  pc_addr : Z;
  pc_pid : Z;
  pc_status : Z;
}.

Record pid_list := mkPl {
  pl_addr : Z;
  pl_pid : Z;
}.

Record pidsys (H : Type) := mkPids {
  unused_pids : Z;
  recycled_pids : list pid_list;
  unavailable_pids : list pid_clist;
  pid_spl : Z;
  pid_heap : H;
}.
Arguments mkPids {H}.
Arguments unused_pids {H}.
Arguments recycled_pids {H}.
Arguments unavailable_pids {H}.
Arguments pid_spl {H}.
Arguments pid_heap {H}.

Section Pids.
Context {H : Type} `{!Allocator H}.
#[local] Abbreviation P := (pidsys H).
Implicit Types s : P.

Definition set_unused (n : Z) s : P := mkPids n (recycled_pids s) (unavailable_pids s) (pid_spl s) (pid_heap s).
Definition set_recycled (l : list pid_list) s : P := mkPids (unused_pids s) l (unavailable_pids s) (pid_spl s) (pid_heap s).
Definition set_unavailable (l : list pid_clist) s : P := mkPids (unused_pids s) (recycled_pids s) l (pid_spl s) (pid_heap s).
Definition set_pspl (x : Z) s : P := mkPids (unused_pids s) (recycled_pids s) (unavailable_pids s) x (pid_heap s).
Definition set_pheap (h : H) s : P := mkPids (unused_pids s) (recycled_pids s) (unavailable_pids s) (pid_spl s) h.

Definition on_pheap {A} (m : M H A) : M P A := fun s =>
  match m (pid_heap s) with
  | Ret (a, h) => Ret (a, set_pheap h s)
  | Stop e => Stop e
  end.

Definition pid_splhigh : M P Z :=
  let* s := get in
  let* _ := modify (set_pspl SPL_HIGH) in
  ret (pid_spl s).
Definition pid_splx (x : Z) : M P unit := modify (set_pspl x).

(** [kmalloc] whose result is used without a test. *)
Definition kmalloc_used (n : Z) : M P Z :=
  let* p := on_pheap (kmalloc n) in
  if p =? 0 then halt Fault else ret p.

(** The new entry for [pid], at the front. *)
Definition claim (pid : Z) : M P unit :=
  let* p := kmalloc_used SIZEOF_PID_CLIST in
  modify (fun s => set_unavailable (mkPc p pid PID_NEW :: unavailable_pids s) s).

Definition new_pid : M P Z :=
  let* spl := pid_splhigh in
  let* s := get in
  match recycled_pids s with
  | [] =>
      let* _ := kassert (unused_pids s <? 0x7FFFFFFF) in
      let* _ := claim (unused_pids s) in
      let* _ := modify (fun s => set_unused (u32 (unused_pids s + 1)) s) in
      let* _ := pid_splx spl in
      let* s := get in
      ret (s32 (unused_pids s - 1))
  | first :: rest =>
      let* _ := modify (set_recycled rest) in
      let* _ := claim (pl_pid first) in
      let* _ := on_pheap (kfree (pl_addr first)) in
      let* _ := pid_splx spl in
      ret (pl_pid first)
  end.

(** The entry at [c], which is taken out of its list, makes its id reusable. *)
Definition recycle (x : Z) (c : pid_clist) : M P unit :=
  let* p := kmalloc_used SIZEOF_PID_LIST in
  let* _ := modify (fun s => set_recycled (mkPl p x :: recycled_pids s) s) in
  on_pheap (kfree (pc_addr c)).

Definition mask_status (and_mask : Z) (c : pid_clist) : pid_clist :=
  mkPc (pc_addr c) (pc_pid c) (Z.land (pc_status c) and_mask).

(** [while (p->next != NULL)]: the argument is the list from [p->next] on, the
    result that list afterwards and [found].  After an entry has been taken
    out, [p = p->next] goes past the one that follows it. *)
Fixpoint change_scan (x and_mask : Z) (l : list pid_clist) : M P (list pid_clist * bool) :=
  match l with
  | [] => ret ([], false)
  | c :: rest =>
      if pc_pid c =? x then
        let c := mask_status and_mask c in
        if pc_status c =? PID_FREE then
          let* _ := recycle x c in
          match rest with
          | [] => halt Fault
          | c' :: rest' =>
              let* (l, _) := change_scan x and_mask rest' in
              ret (c' :: l, true)
          end
        else
          let* (l, _) := change_scan x and_mask rest in
          ret (c :: l, true)
      else
        let* (l, found) := change_scan x and_mask rest in
        ret (c :: l, found)
  end.

Definition pid_change_status (x and_mask : Z) : M P unit :=
  let* spl := pid_splhigh in
  let* s := get in
  let* _ :=
    match unavailable_pids s with
    | [] => halt Panic
    | c :: rest =>
        if pc_pid c =? x then
          let c := mask_status and_mask c in
          if pc_status c =? PID_FREE then
            let* _ := recycle x c in
            modify (set_unavailable rest)
          else modify (set_unavailable (c :: rest))
        else
          let* (l, found) := change_scan x and_mask rest in
          let* _ := modify (set_unavailable (c :: l)) in
          kassert found
    end in
  pid_splx spl.

Definition pid_parent_done (x : Z) : M P unit := pid_change_status x PID_PARENT.
Definition pid_process_exit (x : Z) : M P unit := pid_change_status x PID_EXITED.
Definition pid_free (x : Z) : M P unit := pid_change_status x PID_FREE.

Definition pid_claimed (x : Z) : M P Z :=
  let* spl := pid_splhigh in
  let* s := get in
  let* _ := pid_splx spl in
  ret (if existsb (fun c => pc_pid c =? x) (unavailable_pids s) then 1 else 0).
End Pids.

(** ** The ids in use *)

(** Every outcome counts: a fault happens only if [pf], a panic only if [pp]. *)
Definition ends {S A} (pf pp : Prop) (m : M S A) (s : S) (Q : A -> S -> Prop) : Prop :=
  match m s with
  | Ret (a, s') => Q a s'
  | Stop Fault => pf
  | Stop Panic => pp
  | Stop OutOfFuel | Stop Refused => False
  end.

Lemma outcome_bind {S A B} pf pp (m : M S A) (k : A -> M S B) s Q :
  ends pf pp m s (fun a s' => ends pf pp (k a) s' Q) -> ends pf pp (bind m k) s Q.
Proof. unfold ends, bind. by destruct (m s) as [[a s']|[]]. Qed.

Lemma outcome_Ret {S A} (pf pp : Prop) (m : M S A) s a s' (Q : A -> S -> Prop) :
  m s = Ret (a, s') -> Q a s' -> ends pf pp m s Q.
Proof. unfold ends. by intros ->. Qed.

(** A step that returns. *)
Lemma outcome_step {S A B} pf pp (m : M S A) (k : A -> M S B) s a s' Q :
  m s = Ret (a, s') -> ends pf pp (k a) s' Q -> ends pf pp (bind m k) s Q.
Proof. intros E Hk. apply outcome_bind. by eapply outcome_Ret. Qed.

Lemma outcome_mono {S A} (pf pp : Prop) (m : M S A) s (Q R : A -> S -> Prop) :
  ends pf pp m s Q -> (forall a s', Q a s' -> R a s') -> ends pf pp m s R.
Proof. unfold ends. destruct (m s) as [[a s']|[]]; auto. Qed.

Lemma outcome_wpo {S A} pf (p pp : Prop) (m : M S A) s Q : wpo p m s Q -> (p -> pp) -> ends pf pp m s Q.
Proof. unfold ends, wpx. intros Hm Hp. destruct (m s) as [[a s']|[]]; auto; done. Qed.

Section Laws.
Context {H : Type} `{AllocatorLaws H}.
Implicit Types (s : pidsys H) (R : gset Z).

Definition pid_blocks s : list Z := (pl_addr <$> recycled_pids s) ++ (pc_addr <$> unavailable_pids s).
Definition known_pids s : list Z := (pl_pid <$> recycled_pids s) ++ (pc_pid <$> unavailable_pids s).

(** What is still to happen to an id in use. *)
Definition statuses (l : list pid_clist) : gmap Z Z := list_to_map ((fun c => (pc_pid c, pc_status c)) <$> l).

Record pids_ok R s : Prop := {
  po_own : owns (pid_heap s) (pid_blocks s) R;
  po_nodup : NoDup (known_pids s);
  po_range : Forall (fun x => MIN_PID <= x < unused_pids s) (known_pids s);
  po_unused : MIN_PID <= unused_pids s <= 0x7FFFFFFF;
  po_status : Forall (fun c => PID_PARENT <= pc_status c <= PID_NEW) (unavailable_pids s);
}.

Definition panics s : Prop := oom_panics \/ (recycled_pids s = [] /\ unused_pids s = 0x7FFFFFFF).

Lemma kmalloc_used_wp (pp : Prop) n s l R :
  owns (pid_heap s) l R -> 0 < n <= MAXALLOC -> (oom_panics -> pp) ->
  ends alloc_fails pp (kmalloc_used n) s (fun p s' => exists h, s' = set_pheap h s /\ owns h (p :: l) R).
Proof.
  intros Ho Hn Hp. unfold kmalloc_used. apply outcome_bind. unfold ends, on_pheap.
  pose proof (wp_kmalloc_own n (pid_heap s) l R Ho Hn) as Hk. unfold wpx in Hk.
  destruct (kmalloc n (pid_heap s)) as [[p h]|[]]; try done; [|by apply Hp].
  destruct (Z.eqb_spec p 0) as [->|Hne]; destruct Hk as [(? & ? & ?)|(? & ?)]; try done. simpl. by exists h.
Qed.

Lemma pheap_kfree_wp (pf pp : Prop) p s l R :
  owns (pid_heap s) (p :: l) R -> (oom_panics -> pp) ->
  ends pf pp (on_pheap (kfree p)) s (fun _ s' => exists h, s' = set_pheap h s /\ owns h l R).
Proof.
  intros Ho Hp. unfold ends, on_pheap. pose proof (wp_kfree_own p (pid_heap s) l R Ho) as Hk. unfold wpx in Hk.
  destruct (kfree p (pid_heap s)) as [[[] h]|[]]; try done; [by exists h|by apply Hp].
Qed.

Lemma statuses_None l x : x ∉ (pc_pid <$> l) -> statuses l !! x = None.
Proof.
  intros Hx. apply not_elem_of_list_to_map_1. rewrite <- list_fmap_compose.
  by replace (fst ∘ (fun c => (pc_pid c, pc_status c))) with pc_pid.
Qed.

Lemma statuses_cons c l : statuses (c :: l) = <[pc_pid c := pc_status c]> (statuses l).
Proof. done. Qed.

Lemma claim_wp (pp : Prop) x s l R :
  owns (pid_heap s) (pid_blocks s ++ l) R -> (oom_panics -> pp) ->
  ends alloc_fails pp (claim x) s (fun _ s' => exists p h,
    s' = set_pheap h (set_unavailable (mkPc p x PID_NEW :: unavailable_pids s) s) /\
    owns h (pid_blocks s' ++ l) R).
Proof.
  intros Ho Hp. unfold claim. apply outcome_bind.
  eapply outcome_mono; [apply kmalloc_used_wp; [exact Ho|unfold SIZEOF_PID_CLIST, MAXALLOC; lia|done]|].
  intros p s' (h & -> & Ho'). exists p, h. split; [done|]. eapply owns_move; [exact Ho'|].
  unfold pid_blocks. simpl. solve_blocks.
Qed.

(** C27: [new_pid] gives out the id that was last made reusable, or, if there is
    none, the lowest one that has never been used; that id is not in use, it is
    entered as new, every other id is as it was, and interrupts are as before.
    It only faults if memory runs out, and only panics if the allocator does or
    if every id up to 2^31 - 2 has been used and none is reusable. *)
Theorem new_pid_fresh R s :
  pids_ok R s ->
  ends alloc_fails (panics s) new_pid s (fun x s' =>
    pids_ok R s' /\ statuses (unavailable_pids s) !! x = None /\
    statuses (unavailable_pids s') = <[x := PID_NEW]> (statuses (unavailable_pids s)) /\ pid_spl s' = pid_spl s /\
    match recycled_pids s with
    | [] => x = unused_pids s /\ unused_pids s' = unused_pids s + 1 /\ recycled_pids s' = []
    | first :: rest => x = pl_pid first /\ unused_pids s' = unused_pids s /\ recycled_pids s' = rest
    end).
Proof.
  intros [Ho Hn Hr Hu Hs]. assert (Hpan : oom_panics -> panics s) by (by left).
  unfold new_pid. eapply outcome_step; [done|]. eapply outcome_step; [done|]. cbn [recycled_pids set_pspl unused_pids].
  unfold known_pids, pid_blocks in *. destruct (recycled_pids s) as [|first rest] eqn:Er.
  - destruct (Z.ltb_spec (unused_pids s) 0x7FFFFFFF) as [Hlt|Hge].
    2: { unfold ends. cbn. right. split; [done|]. lia. }
    eapply outcome_step; [done|]. apply outcome_bind. simpl in Ho, Hn, Hr.
    eapply outcome_mono; [apply (claim_wp _ _ _ [] R); [|exact Hpan]|].
    { unfold pid_blocks. cbn. rewrite Er, app_nil_r. exact Ho. }
    intros [] s1 (p & h & -> & Ho1). rewrite app_nil_r in Ho1. unfold pid_blocks in Ho1. cbn in Ho1. rewrite Er in Ho1.
    unfold ends. cbn. rewrite u32_small by (unfold MIN_PID in *; lia). rewrite s32_small by (unfold MIN_PID in *; lia).
    replace (unused_pids s + 1 - 1) with (unused_pids s) by lia.
    assert (Hfresh : unused_pids s ∉ (pc_pid <$> unavailable_pids s)).
    { intros Hin. rewrite Forall_forall in Hr. specialize (Hr _ Hin). lia. }
    split_and!; [|by apply statuses_None|done..]. constructor; unfold known_pids, pid_blocks; cbn; rewrite ?Er.
    + exact Ho1.
    + by apply NoDup_cons.
    + apply Forall_cons. split; [unfold MIN_PID in *; lia|]. eapply Forall_impl; [exact Hr|]. cbn. lia.
    + unfold MIN_PID in *. lia.
    + apply Forall_cons. done.
  - eapply outcome_step; [done|]. apply outcome_bind. simpl in Ho, Hn, Hr.
    eapply outcome_mono; [apply (claim_wp _ _ _ [pl_addr first] R); [|exact Hpan]|].
    { unfold pid_blocks. cbn. eapply owns_move; [exact Ho|]. solve_blocks. }
    intros [] s1 (p & h & -> & Ho1). apply outcome_bind. unfold pid_blocks in Ho1. cbn in Ho1.
    eapply outcome_mono; [apply (pheap_kfree_wp _ _ (pl_addr first) _ ((pl_addr <$> rest) ++ p :: (pc_addr <$> unavailable_pids s)) R); [|exact Hpan]|].
    { cbn. eapply owns_move; [exact Ho1|]. solve_blocks. }
    intros [] s2 (h2 & -> & Ho2). unfold ends. cbn. apply NoDup_cons in Hn as [Hf Hn]. apply Forall_cons in Hr as [Hrf Hr].
    rewrite elem_of_app in Hf. split_and!; [|apply statuses_None; tauto|done..].
    constructor; unfold known_pids, pid_blocks; cbn.
    + exact Ho2.
    + rewrite <- Permutation_middle. apply NoDup_cons. rewrite elem_of_app. done.
    + rewrite <- Permutation_middle. by apply Forall_cons.
    + done.
    + apply Forall_cons. done.
Qed.

(** ** The end of an id *)

Lemma scan_absent x mask l s : x ∉ (pc_pid <$> l) -> change_scan x mask l s = Ret ((l, false), s).
Proof.
  induction l as [|c l IH]; intros Hx; [done|]. rewrite fmap_cons, not_elem_of_cons in Hx. destruct Hx as [Hc Hl].
  cbn [change_scan]. rewrite (proj2 (Z.eqb_neq (pc_pid c) x)) by congruence. unfold bind. by rewrite IH.
Qed.

Lemma recycle_wp (pp : Prop) x c s l R :
  owns (pid_heap s) (pc_addr c :: (pl_addr <$> recycled_pids s) ++ l) R -> (oom_panics -> pp) ->
  ends alloc_fails pp (recycle x c) s (fun _ s' => exists p h,
    s' = set_pheap h (set_recycled (mkPl p x :: recycled_pids s) s) /\
    owns h ((pl_addr <$> recycled_pids s') ++ l) R).
Proof.
  intros Ho Hp. unfold recycle. apply outcome_bind.
  eapply outcome_mono; [apply kmalloc_used_wp; [exact Ho|unfold SIZEOF_PID_LIST, MAXALLOC; lia|done]|].
  intros p s1 (h1 & -> & Ho1). eapply outcome_step; [done|].
  eapply outcome_mono; [apply (pheap_kfree_wp _ _ (pc_addr c) _ (p :: (pl_addr <$> recycled_pids s) ++ l) R); [|done]|].
  { eapply owns_move; [exact Ho1|]. solve_blocks. }
  intros [] s2 (h2 & -> & Ho2). by exists p, h2.
Qed.

(** A status that is not yet free. *)
Lemma scan_keeps x mask pre c post s :
  x ∉ (pc_pid <$> pre) -> pc_pid c = x -> x ∉ (pc_pid <$> post) -> Z.land (pc_status c) mask <> 0 ->
  change_scan x mask (pre ++ c :: post) s = Ret ((pre ++ mask_status mask c :: post, true), s).
Proof.
  intros Hpre Hc Hpost Hst. induction pre as [|d pre IH]; cbn [app change_scan].
  - rewrite Hc, Z.eqb_refl. cbn [mask_status pc_status]. unfold PID_FREE. rewrite (proj2 (Z.eqb_neq _ 0) Hst).
    unfold bind. by rewrite scan_absent.
  - rewrite fmap_cons, not_elem_of_cons in Hpre. destruct Hpre as [Hd Hpre].
    rewrite (proj2 (Z.eqb_neq (pc_pid d) x)) by congruence. unfold bind. by rewrite IH.
Qed.

(** The last entry of the list is not found again after it was taken out:
    [p] is null. *)
Definition at_end {A} (pre post : list A) : Prop := pre <> [] /\ post = [].

Lemma scan_frees (pp : Prop) x mask pre c post s l R :
  x ∉ (pc_pid <$> pre) -> pc_pid c = x -> x ∉ (pc_pid <$> post) -> Z.land (pc_status c) mask = 0 ->
  owns (pid_heap s) (pc_addr c :: (pl_addr <$> recycled_pids s) ++ l) R -> (oom_panics -> pp) ->
  ends (alloc_fails \/ post = []) pp (change_scan x mask (pre ++ c :: post)) s (fun '(l', found) s' =>
    post <> [] /\ l' = pre ++ post /\ found = true /\ exists p h,
    s' = set_pheap h (set_recycled (mkPl p x :: recycled_pids s) s) /\ owns h ((pl_addr <$> recycled_pids s') ++ l) R).
Proof.
  intros Hpre Hc Hpost Hst Ho Hp. induction pre as [|d pre IH]; cbn [app change_scan].
  - rewrite Hc, Z.eqb_refl. cbn [mask_status pc_status]. rewrite Hst. change (0 =? PID_FREE) with true. cbv iota.
    apply outcome_bind. pose proof (recycle_wp pp x (mask_status mask c) s l R Ho Hp) as Hr. unfold ends in Hr |- *.
    destruct (recycle x _ s) as [[[] s1]|[]]; auto. destruct Hr as (p & h & -> & Ho1).
    destruct post as [|c' post]; [by right|]. rewrite fmap_cons, not_elem_of_cons in Hpost. unfold bind.
    rewrite scan_absent by tauto. split_and!; [done..|]. by exists p, h.
  - rewrite fmap_cons, not_elem_of_cons in Hpre. destruct Hpre as [Hd Hpre].
    rewrite (proj2 (Z.eqb_neq (pc_pid d) x)) by congruence. apply outcome_bind.
    eapply outcome_mono; [by apply IH|]. intros [l' found] s' (Hne & -> & -> & E). unfold ends. simpl. by split_and!.
Qed.

Lemma statuses_middle pre c post :
  NoDup (pc_pid <$> (pre ++ c :: post)) ->
  statuses (pre ++ c :: post) = <[pc_pid c := pc_status c]> (statuses (pre ++ post)) /\
  statuses (pre ++ post) !! pc_pid c = None.
Proof.
  intros Hn. assert (Hp : Permutation (pre ++ c :: post) (c :: pre ++ post)) by (symmetry; apply Permutation_middle).
  split.
  - rewrite <- statuses_cons. apply list_to_map_proper; [|by rewrite Hp]. rewrite <- list_fmap_compose.
    by replace (fst ∘ (fun c => (pc_pid c, pc_status c))) with pc_pid.
  - apply statuses_None. rewrite Hp in Hn. by apply NoDup_cons in Hn as [? _].
Qed.

Lemma pid_in_middle R s pre c post :
  pids_ok R s -> unavailable_pids s = pre ++ c :: post ->
  NoDup (pc_pid <$> (pre ++ c :: post)) /\ (pc_pid c ∉ (pc_pid <$> pre)) /\ (pc_pid c ∉ (pc_pid <$> post)) /\
  (pc_pid c ∉ (pl_pid <$> recycled_pids s)).
Proof.
  intros [_ Hn _ _ _] E. unfold known_pids in Hn. rewrite E in Hn. apply NoDup_app in Hn as (_ & Hd & Hn). split; [done|].
  rewrite fmap_app, fmap_cons in Hn, Hd. pose proof Hn as Hn'. rewrite <- Permutation_middle in Hn'.
  apply NoDup_cons in Hn' as [Hx _]. rewrite elem_of_app in Hx. split_and!; [tauto|tauto|].
  intros Hin. apply (Hd _ Hin). rewrite elem_of_app, elem_of_cons. auto.
Qed.

(** The id [x] is reusable, and no longer in use. *)
Lemma pids_ok_freed R s pre c post p h :
  pids_ok R s -> unavailable_pids s = pre ++ c :: post ->
  owns h (p :: (pl_addr <$> recycled_pids s) ++ (pc_addr <$> (pre ++ post))) R ->
  pids_ok R (mkPids (unused_pids s) (mkPl p (pc_pid c) :: recycled_pids s) (pre ++ post) (pid_spl s) h).
Proof.
  intros Hok E Ho. destruct Hok as [_ Hn Hr Hu Hs]. rewrite E in Hs.
  assert (Hp : Permutation (known_pids s) (known_pids (mkPids (unused_pids s) (mkPl p (pc_pid c) :: recycled_pids s) (pre ++ post) (pid_spl s) h))).
  { unfold known_pids. cbn. rewrite E, !fmap_app, fmap_cons. solve_Permutation. }
  apply Forall_app in Hs as [Hs1 [_ Hs2]%Forall_cons].
  constructor; [done|by rewrite <- Hp| |done|by apply Forall_app]. cbn. by rewrite <- Hp.
Qed.

Lemma pids_ok_masked R s pre c post mask :
  pids_ok R s -> unavailable_pids s = pre ++ c :: post -> PID_PARENT <= Z.land (pc_status c) mask <= PID_NEW ->
  pids_ok R (mkPids (unused_pids s) (recycled_pids s) (pre ++ mask_status mask c :: post) (pid_spl s) (pid_heap s)).
Proof.
  intros [Ho Hn Hr Hu Hs] E Hm. unfold pid_blocks, known_pids in *. rewrite E in Ho, Hn, Hr, Hs.
  apply Forall_app in Hs as [Hs1 [_ Hs2]%Forall_cons].
  constructor; unfold pid_blocks, known_pids; cbn; rewrite ?fmap_app, ?fmap_cons in *; try done.
  apply Forall_app. split; [done|]. by apply Forall_cons.
Qed.

(** What a call does to an id in use: [st] is the status it leaves. *)
Definition changes R s x st (bad : Prop) (m : M (pidsys H) unit) : Prop :=
  ends (alloc_fails \/ bad) oom_panics m s (fun _ s' =>
    pids_ok R s' /\ pid_spl s' = pid_spl s /\ ~ bad /\ unused_pids s' = unused_pids s /\
    if decide (st = PID_FREE)
    then statuses (unavailable_pids s') = delete x (statuses (unavailable_pids s)) /\
         exists p, recycled_pids s' = mkPl p x :: recycled_pids s
    else statuses (unavailable_pids s') = <[x := st]> (statuses (unavailable_pids s)) /\
         recycled_pids s' = recycled_pids s).

Lemma change_frees R s pre c post mask :
  pids_ok R s -> unavailable_pids s = pre ++ c :: post -> Z.land (pc_status c) mask = 0 ->
  changes R s (pc_pid c) PID_FREE (at_end pre post) (pid_change_status (pc_pid c) mask).
Proof.
  intros Hok E Hst. destruct (pid_in_middle R s pre c post Hok E) as (Hn & Hpre & Hpost & _).
  destruct (statuses_middle pre c post Hn) as [Es En]. unfold changes.
  destruct (decide (PID_FREE = PID_FREE)) as [_|]; [|done]. rewrite E, Es, delete_insert_id by done.
  assert (Hown : owns (pid_heap s) (pc_addr c :: (pl_addr <$> recycled_pids s) ++ (pc_addr <$> (pre ++ post))) R).
  { eapply owns_move; [apply Hok|]. unfold pid_blocks. rewrite E, !fmap_app, fmap_cons. solve_Permutation. }
  unfold pid_change_status. eapply outcome_step; [done|]. eapply outcome_step; [done|]. apply outcome_bind.
  cbn [unavailable_pids set_pspl]. rewrite E. destruct pre as [|d pre]; cbn [app].
  - rewrite Z.eqb_refl. cbn [mask_status pc_status]. rewrite Hst. change (0 =? PID_FREE) with true. cbv iota. apply outcome_bind.
    pose proof (recycle_wp oom_panics (pc_pid c) (mask_status mask c) (set_pspl SPL_HIGH s) _ R Hown (fun p => p)) as Hr.
    unfold ends in Hr |- *. destruct (recycle _ _ _) as [[[] s1]|[]]; auto. destruct Hr as (p & h & -> & Ho).
    cbn. split_and!; [|done|by intros (? & _)|done..|by exists p]. exact (pids_ok_freed R s [] c post p h Hok E Ho).
  - rewrite fmap_cons, not_elem_of_cons in Hpre. destruct Hpre as [Hd Hpre].
    rewrite (proj2 (Z.eqb_neq (pc_pid d) (pc_pid c))) by congruence. apply outcome_bind.
    pose proof (scan_frees oom_panics (pc_pid c) mask pre c post (set_pspl SPL_HIGH s) _ R Hpre eq_refl Hpost Hst Hown (fun p => p)) as Hr.
    unfold ends in Hr |- *. destruct (change_scan _ _ _ _) as [[[l' found] s1]|[]]; try done.
    2: { destruct Hr as [?|?]; [by left|right]. by split. }
    destruct Hr as (Hne & -> & -> & p & h & -> & Ho). cbn. split_and!; [|done|by intros (_ & ?)|done..|by exists p].
    exact (pids_ok_freed R s (d :: pre) c post p h Hok E Ho).
Qed.

Lemma change_keeps R s pre c post mask :
  pids_ok R s -> unavailable_pids s = pre ++ c :: post -> PID_PARENT <= Z.land (pc_status c) mask <= PID_NEW ->
  changes R s (pc_pid c) (Z.land (pc_status c) mask) False (pid_change_status (pc_pid c) mask).
Proof.
  intros Hok E Hst'. assert (Hst : Z.land (pc_status c) mask <> 0) by (unfold PID_PARENT in Hst'; lia).
  destruct (pid_in_middle R s pre c post Hok E) as (Hn & Hpre & Hpost & _).
  destruct (statuses_middle pre c post Hn) as [Es En]. unfold changes.
  destruct (decide (_ = PID_FREE)) as [|_]; [done|]. rewrite E, Es, insert_insert_eq by done.
  assert (Hdone : statuses (pre ++ mask_status mask c :: post) = <[pc_pid c := Z.land (pc_status c) mask]> (statuses (pre ++ post))).
  { destruct (statuses_middle pre (mask_status mask c) post) as [-> _]; [|done]. by rewrite fmap_app, fmap_cons in Hn |- *. }
  pose proof (pids_ok_masked R s pre c post mask Hok E Hst') as Hok'.
  unfold pid_change_status. eapply outcome_step; [done|]. eapply outcome_step; [done|]. apply outcome_bind.
  cbn [unavailable_pids set_pspl]. rewrite E. destruct pre as [|d pre]; cbn [app].
  - rewrite Z.eqb_refl. cbn [mask_status pc_status]. unfold PID_FREE. rewrite (proj2 (Z.eqb_neq _ 0) Hst).
    unfold ends. cbn. split_and!; [exact Hok'|done|by intros []|done..].
  - rewrite fmap_cons, not_elem_of_cons in Hpre. destruct Hpre as [Hd Hpre].
    rewrite (proj2 (Z.eqb_neq (pc_pid d) (pc_pid c))) by congruence. unfold ends, bind.
    rewrite (scan_keeps _ _ _ _ _ _ Hpre eq_refl Hpost Hst). cbn. split_and!; [exact Hok'|done|by intros []|done..].
Qed.

(** What can happen to a process whose id is in use. *)
Inductive event := ParentDone | ProcessExit | Freed.

Definition report (e : event) : Z -> M (pidsys H) unit :=
  match e with
  | ParentDone => pid_parent_done
  | ProcessExit => pid_process_exit
  | Freed => pid_free
  end.

(** The statuses as a state machine: an id is free once both the process and
    its parent are done with it. *)
Definition next_status (e : event) (st : Z) : Z :=
  match e with
  | ParentDone => if decide (st = PID_EXITED) then PID_FREE else PID_PARENT
  | ProcessExit => if decide (st = PID_PARENT) then PID_FREE else PID_EXITED
  | Freed => PID_FREE
  end.

Lemma report_mask e : exists mask, (forall x, report e x = pid_change_status x mask) /\
  forall st, PID_PARENT <= st <= PID_NEW -> Z.land st mask = next_status e st.
Proof.
  destruct e; (eexists; split; [done|]); unfold PID_PARENT, PID_NEW; intros st Hst;
    assert (st = 1 \/ st = 2 \/ st = 3) as [-> |[-> | ->]] by lia; done.
Qed.

Lemma next_status_range e st :
  PID_PARENT <= st <= PID_NEW -> next_status e st = PID_FREE \/ PID_PARENT <= next_status e st <= PID_NEW.
Proof. unfold next_status, PID_PARENT, PID_NEW, PID_FREE, PID_EXITED. intros. destruct e; repeat case_decide; lia. Qed.

Lemma change_absent x mask s : x ∉ (pc_pid <$> unavailable_pids s) -> pid_change_status x mask s = Stop Panic.
Proof.
  intros Hx. unfold pid_change_status, bind. cbn. destruct (unavailable_pids s) as [|c l]; [done|].
  rewrite fmap_cons, not_elem_of_cons in Hx. destruct Hx as [Hc Hl].
  rewrite (proj2 (Z.eqb_neq (pc_pid c) x)) by congruence. by rewrite scan_absent.
Qed.

(** C28: [pid_parent_done], [pid_process_exit] and [pid_free] run the state
    machine of the statuses on one id: an id in use gets the status that
    follows, or, when that is the free one, is taken off the list of ids in
    use and put at the front of the reusable ones; every other id keeps its
    status, and the invariant holds.  An id that is not in use is a panic.  But
    where the entry that is taken out ends the list and does not begin it, as
    that of the oldest id in use does, the call never returns: it follows a
    null pointer. *)
Theorem pid_change_status_exact R s e x :
  pids_ok R s ->
  ((x ∉ (pc_pid <$> unavailable_pids s)) -> report e x s = Stop Panic) /\
  forall pre c post, unavailable_pids s = pre ++ c :: post -> pc_pid c = x ->
    let st := next_status e (pc_status c) in
    ends (alloc_fails \/ (st = PID_FREE /\ at_end pre post)) oom_panics (report e x) s (fun _ s' =>
      pids_ok R s' /\ pid_spl s' = pid_spl s /\ ~ (st = PID_FREE /\ at_end pre post) /\
      unused_pids s' = unused_pids s /\
      if decide (st = PID_FREE)
      then statuses (unavailable_pids s') = delete x (statuses (unavailable_pids s)) /\
           exists p, recycled_pids s' = mkPl p x :: recycled_pids s
      else statuses (unavailable_pids s') = <[x := st]> (statuses (unavailable_pids s)) /\
           recycled_pids s' = recycled_pids s).
Proof.
  intros Hok. destruct (report_mask e) as (mask & Hrep & Hmask). rewrite Hrep. split; [apply change_absent|].
  intros pre c post E <- st.
  assert (Hst : PID_PARENT <= pc_status c <= PID_NEW).
  { pose proof (po_status _ _ Hok) as Hs. rewrite E in Hs. by apply Forall_app in Hs as [_ [? _]%Forall_cons]. }
  specialize (Hmask _ Hst). fold st in Hmask. destruct (decide (st = PID_FREE)) as [Hf|Hf].
  - pose proof (change_frees R s pre c post mask Hok E ltac:(by rewrite Hmask)) as Hc. unfold changes, ends in *.
    destruct (decide (PID_FREE = PID_FREE)) as [_|]; [|done]. destruct (pid_change_status _ _ _) as [[[] s']|[]]; tauto.
  - destruct (next_status_range e _ Hst) as [|Hr]; [done|]. fold st in Hr. rewrite <- Hmask in Hr.
    pose proof (change_keeps R s pre c post mask Hok E Hr) as Hc. unfold changes, ends in *.
    rewrite Hmask in Hc. destruct (decide (st = PID_FREE)) as [|_]; [done|]. destruct (pid_change_status _ _ _) as [[[] s']|[]]; tauto.
Qed.
End Laws.

(** ** Two processes *)

(** After two calls of [new_pid], and one of them done with its parent. *)
Definition two : pidsys bump :=
  mkPids 102 [] [mkPc 816 101 PID_NEW; mkPc 800 100 PID_PARENT] 0 (832, {[800; 816]}).

Lemma two_ok : pids_ok ∅ two.
Proof.
  constructor.
  - split_and!.
    + split; [by apply leibniz_equiv|]. split; [simpl; lia|]. split; [done|]. cbn [fst snd pid_heap two].
      apply set_Forall_union; apply set_Forall_singleton; by split.
    + by repeat (apply NoDup_cons; split; [simpl; rewrite ?elem_of_cons, elem_of_nil; lia|]); apply NoDup_nil_2.
    + set_solver.
  - by repeat (apply NoDup_cons; split; [simpl; rewrite ?elem_of_cons, elem_of_nil; lia|]); apply NoDup_nil_2.
  - repeat constructor; unfold MIN_PID; simpl; lia.
  - unfold MIN_PID. simpl. lia.
  - repeat constructor; done.
Qed.

Lemma new_pid_fresh_witness :
  exists s', new_pid two = Ret (102, s') /\ pids_ok ∅ s' /\ unused_pids s' = 103 /\
    statuses (unavailable_pids s') = <[102 := PID_NEW]> (statuses (unavailable_pids two)).
Proof.
  pose proof (new_pid_fresh ∅ two two_ok) as T. unfold ends in T.
  destruct (new_pid two) as [[x s']|e] eqn:E; [|by vm_compute in E].
  destruct T as (Hok & _ & Hst & _ & -> & Hu & _). exists s'. split; [done|]. split; [done|]. split; [exact Hu | exact Hst].
Defined.

(** The exit of the younger process, whose entry comes first, is recorded; that
    of the older one, which frees its id, is a fault. *)
Lemma pid_change_status_exact_witness :
  (exists s', pid_process_exit 101 two = Ret (tt, s') /\ pids_ok ∅ s' /\
     statuses (unavailable_pids s') = <[101 := PID_EXITED]> (statuses (unavailable_pids two))) /\
  pid_process_exit 100 two = Stop Fault.
Proof.
  destruct (pid_change_status_exact ∅ two ProcessExit 101 two_ok) as [_ T].
  specialize (T [] (mkPc 816 101 PID_NEW) [mkPc 800 100 PID_PARENT] eq_refl eq_refl). unfold ends in T.
  cbn [report] in T. split; [|done]. destruct (pid_process_exit 101 two) as [[[] s']|e] eqn:E; [|by vm_compute in E].
  destruct T as (Hok & _ & _ & _ & T). rewrite decide_False in T by done. destruct T as [T _].
  exists s'. split; [done|]. split; [exact Hok | exact T].
Defined.
