(* ===== verification/Filetable.v ===== *)
(** * The open files of a thread ([kern/thread/filetable.c], [kern/userprog/write.c])

    A table is an array of pointers to descriptors, in which null (0) is a free
    number; several tables may point to the same descriptor.  The state is
    that of the VFS layer with the tables and descriptors by address.

    [ft_get] attaches the console to the first three numbers when it finds
    one of them free, and [ft_attachstds] calls [ft_set], and [ft_destroy] when
    it fails, both of which call [ft_get] again: the argument [n] bounds the
    depth of that recursion. *)

From S2P Require Import Prelude.
From S2P Require Import Ram.
From S2P Require Import Array.
From S2P Require Import Cstring.
From S2P Require Import Uio.
From S2P Require Import Thread.
From S2P Require Import Vnode.
From S2P Require Import Sfs.
From S2P Require Import SfsOps.
From S2P Require Import Vfs.

Definition OPEN_MAX : Z := 1024.
Definition STDIN_FILENO : Z := 0.
Definition STDOUT_FILENO : Z := 1.
Definition STDERR_FILENO : Z := 2.
Definition SIZEOF_FILETABLE : Z := 8.
Definition SIZEOF_FILEDESCRIPTOR : Z := 20.

(** "con:" *)
Definition con_name : list Z := [99; 111; 110; 58].

Record filedescriptor := mkFd {
  fd_mode : Z;
  fd_numOwners : Z;
  fd_offset : Z;
  fd_vnode : Z;
}.

Record filetable := mkFt {
  ft_fds : option (array Z);
  ft_field_size : Z;
}.

Record ftsys (W : Type) := mkFts {
  fx_vfs : vfssys W;
  fx_ft : gmap Z filetable;
  fx_fd : gmap Z filedescriptor;
  fx_spl : Z;
  fx_writelock : option lock;
}.
Arguments mkFts {W}.
Arguments fx_vfs {W}.
Arguments fx_ft {W}.
Arguments fx_fd {W}.
Arguments fx_spl {W}.
Arguments fx_writelock {W}.

Section Filetable.
Context {W VO : Type} `{!Allocator W, !VnodeStore W VO, !VnodeOps W, !FsWorld W VO} `{!CurSpace}.
#[local] Abbreviation F := (ftsys W).
Implicit Types s : F.

Definition set_fx_vfs (v : vfssys W) s : F := mkFts v (fx_ft s) (fx_fd s) (fx_spl s) (fx_writelock s).
Definition set_fx_ft (m : gmap Z filetable) s : F := mkFts (fx_vfs s) m (fx_fd s) (fx_spl s) (fx_writelock s).
Definition set_fx_fd (m : gmap Z filedescriptor) s : F := mkFts (fx_vfs s) (fx_ft s) m (fx_spl s) (fx_writelock s).
Definition set_fx_spl (x : Z) s : F := mkFts (fx_vfs s) (fx_ft s) (fx_fd s) x (fx_writelock s).
Definition set_fx_writelock (l : option lock) s : F := mkFts (fx_vfs s) (fx_ft s) (fx_fd s) (fx_spl s) l.

Definition on_vfs {A} (m : M (vfssys W) A) : M F A := fun s =>
  match m (fx_vfs s) with
  | Ret (a, v) => Ret (a, set_fx_vfs v s)
  | Stop e => Stop e
  end.
Definition on_world {A} (m : M W A) : M F A := on_vfs (on_w m).

Definition ft_splhigh : M F Z :=
  let* s := get in
  let* _ := modify (set_fx_spl SPL_HIGH) in
  ret (fx_spl s).
Definition ft_splx (x : Z) : M F unit := modify (set_fx_spl x).

(** The array of a table, and a descriptor, a pointer leads to. *)
Definition the_fds (ft : Z) : M F (array Z) :=
  let* s := get in
  match fx_ft s !! ft with
  | Some (mkFt (Some a) _) => ret a
  | _ => halt Fault
  end.

Definition put_fds (ft : Z) (a : array Z) : M F unit :=
  modify (fun s => set_fx_ft (alter (fun t => mkFt (Some a) (ft_field_size t)) ft (fx_ft s)) s).

Definition the_fd (fd : Z) : M F filedescriptor :=
  let* s := get in
  match fx_fd s !! fd with
  | Some d => ret d
  | None => halt Fault
  end.

Definition put_fd (fd : Z) (d : filedescriptor) : M F unit := modify (fun s => set_fx_fd (<[fd := d]> (fx_fd s)) s).

(** [array_getguy] and [array_setguy] on the array of a table. *)
Definition fds_getguy (ft i : Z) : M F Z :=
  let* a := the_fds ft in
  let* g := lift (array_getguy a i) in
  match g with
  | Some p => ret p
  | None => halt Fault
  end.

Definition fds_setguy (ft i fd : Z) : M F unit :=
  let* a := the_fds ft in
  let* a := lift (array_setguy a i fd) in
  put_fds ft a.

Definition ft_array_size (ft : Z) : M F Z :=
  let* _ := kassert (negb (ft =? 0)) in
  let* a := the_fds ft in
  ret (array_getnum a).

(** What the functions that call each other have in common is a call of
    [ft_attachstds]. *)
Section Calls.
Variable attachstds : Z -> M F Z.

Definition get_with (ft fti : Z) : M F Z :=
  if fti <? 0 then ret 0
  else
    let* _ :=
      (if fti <? 3 then
         let* g := fds_getguy ft fti in
         if g =? 0 then let* _ := attachstds ft in ret tt else ret tt
       else ret tt) in
    let* size := ft_array_size ft in
    if fti >=? size then ret 0 else fds_getguy ft fti.

Definition set_with (ft fd fti : Z) : M F Z :=
  let* size := ft_array_size ft in
  if fti >=? size then ret 1
  else
    let* _ := fds_setguy ft fti fd in
    let* g := get_with ft fti in
    ret (if g =? fd then 1 else 0).

Definition remove_with (ft fti : Z) : M F Z :=
  let* fd := get_with ft fti in
  let* _ :=
    (if negb (fd =? 0) then
       let* spl := ft_splhigh in
       let* d := the_fd fd in
       let owners := s32 (fd_numOwners d - 1) in
       let* _ := put_fd fd (mkFd (fd_mode d) owners (fd_offset d) (fd_vnode d)) in
       let* _ :=
         (if owners =? 0 then
            let* _ := on_vfs (vfs_close (fd_vnode d)) in
            let* _ := on_world (kfree fd) in
            modify (fun s => set_fx_fd (delete fd (fx_fd s)) s)
          else ret tt) in
       let* _ := ft_splx spl in
       fds_setguy ft fti 0
     else ret tt) in
  ret 1.

(** [for (i = ft_array_size(ft) - 1; i >= 0; i--)] *)
Fixpoint destroy_loop (k : nat) (ft : Z) : M F unit :=
  match k with
  | O => ret tt
  | S i =>
      let* _ := remove_with ft (Z.of_nat i) in
      destroy_loop i ft
  end.

Definition destroy_with (ft : Z) : M F Z :=
  let* size := ft_array_size ft in
  let* _ := destroy_loop (Z.to_nat size) ft in
  let* _ := on_world (kfree ft) in
  let* _ := modify (fun s => set_fx_ft (delete ft (fx_ft s)) s) in
  ret 1.

(** One of the three parts of [ft_attachstds]: whether it goes on.  [junk] is
    the vnode pointer, which a [vfs_open] that fails does not set, and [name]
    the local array of [vfs_open]. *)
Definition attach_one (junk : Z) (name : list Z) (ft mode fti : Z) : M F bool :=
  let* fd := on_world (kmalloc SIZEOF_FILEDESCRIPTOR) in
  if fd =? 0 then
    let* _ := destroy_with ft in
    ret false
  else
    let* (console, path) := on_world (kstrdup con_name) in
    if console =? 0 then halt Fault
    else
      let* (result, vn) := on_vfs (vfs_open name (path ++ [0]) mode) in
      if negb (result =? 0) then
        let* _ := on_vfs (vfs_close junk) in
        let* _ := destroy_with ft in
        ret false
      else
        let* _ := on_world (kfree console) in
        let* _ := put_fd fd (mkFd mode 1 0 vn) in
        let* _ := set_with ft fd fti in
        ret true.

Definition attach_body (junk : Z) (name : list Z) (ft : Z) : M F Z :=
  let* go := attach_one junk name ft O_RDONLY STDIN_FILENO in
  if negb go then ret 0
  else
    let* go := attach_one junk name ft O_WRONLY STDOUT_FILENO in
    if negb go then ret 0
    else
      let* go := attach_one junk name ft O_WRONLY STDERR_FILENO in
      if negb go then ret 0 else ret 1.
End Calls.

Section Files.
Context (junk : Z) (name : list Z).

Fixpoint ft_attachstds (n : nat) (ft : Z) : M F Z :=
  match n with
  | O => halt OutOfFuel
  | S n => attach_body (ft_attachstds n) junk name ft
  end.

Definition ft_get (n : nat) (ft fti : Z) : M F Z := get_with (ft_attachstds n) ft fti.
Definition ft_set (n : nat) (ft fd fti : Z) : M F Z := set_with (ft_attachstds n) ft fd fti.
Definition ft_remove (n : nat) (ft fti : Z) : M F Z := remove_with (ft_attachstds n) ft fti.
Definition ft_destroy (n : nat) (ft : Z) : M F Z := destroy_with (ft_attachstds n) ft.

(** The table, 0 if there is no memory; without memory for the array
    [ft_destroy] follows its null pointer. *)
Definition ft_create (n : nat) : M F Z :=
  let* ft := on_world (kmalloc SIZEOF_FILETABLE) in
  if ft =? 0 then ret 0
  else
    let* a := on_world array_create in
    let* _ := modify (fun s => set_fx_ft (<[ft := mkFt a 0]> (fx_ft s)) s) in
    match a with
    | None =>
        let* _ := ft_destroy n ft in
        ret 0
    | Some a =>
        let* (_, a) := on_world (array_preallocate a 20) in
        let* (_, a) := on_world (array_add a 0) in
        let* (_, a) := on_world (array_add a 0) in
        let* (_, a) := on_world (array_add a 0) in
        let* _ := put_fds ft a in
        ret ft
    end.

Fixpoint size_loop (n k : nat) (ft i total : Z) : M F Z :=
  match k with
  | O => halt OutOfFuel
  | S k =>
      let* size := ft_array_size ft in
      if i <? size then
        let* g := ft_get n ft i in
        size_loop n k ft (i + 1) (if g =? 0 then total - 1 else total)
      else ret total
  end.

Definition ft_size (n : nat) (ft : Z) : M F Z :=
  let* size := ft_array_size ft in
  size_loop n (S (Z.to_nat size)) ft 0 size.

(** The number used, -1 if there is none. *)
Fixpoint add_loop (n k : nat) (ft fd fdn : Z) : M F (bool * Z) :=
  match k with
  | O => halt OutOfFuel
  | S k =>
      let* size := ft_array_size ft in
      if (fdn <? size) && (fdn <? OPEN_MAX) then
        let* g := ft_get n ft fdn in
        if g =? 0 then
          let* _ := fds_setguy ft fdn fd in
          ret (true, fdn)
        else add_loop n k ft fd (fdn + 1)
      else ret (false, fdn)
  end.

(** The table grows by the number [fdn]. *)
Definition append_fd (ft fd fdn : Z) : M F Z :=
  let* a := the_fds ft in
  let* (r, a) := on_world (array_add a fd) in
  let* _ := put_fds ft a in
  if negb (r =? 0) then ret (-1)
  else
    let* d := the_fd fd in
    let* _ := put_fd fd (mkFd (fd_mode d) (s32 (fd_numOwners d + 1)) (fd_offset d) (fd_vnode d)) in
    let* _ := kassert (negb (fdn =? 0)) in
    ret fdn.

Definition ft_add (n : nat) (ft fd : Z) : M F Z :=
  let* (done, fdn) := add_loop n (S (Z.to_nat OPEN_MAX)) ft fd 0 in
  if (done : bool) then ret fdn
  else if fdn =? OPEN_MAX then ret (-1)
  else append_fd ft fd fdn.

(** "WriteLock" *)
Definition writelock_name : list Z := [87; 114; 105; 116; 101; 76; 111; 99; 107].

(** The error code and the number of bytes.  [mem] is the memory that is
    mapped from the buffer on. *)
Definition write_fd (fd : Z) (mem : list Z) (nbytes : Z) : M F (Z * Z) :=
  let* d := the_fd fd in
  let how := Z.land O_ACCMODE (fd_mode d) in
  if negb ((how =? O_WRONLY) || (how =? O_RDWR)) then ret (EBADF, 0)
  else
    let u := mk_kuio mem nbytes (fd_offset d) UIO_WRITE in
    let* spl := ft_splhigh in
    let* a := on_vfs (VOP (fd_vnode d) VopWrite (ReqWrite u)) in
    let* _ := ft_splx spl in
    let (r, u) := match a with
                  | AnsUio r u => (r, u)
                  | AnsCode r | AnsVnode r _ | AnsStat r _ | AnsMode r _ | AnsName r _ _ => (r, u)
                  end in
    if negb (r =? 0) then ret (r, 0)
    else
      let size := s32 (nbytes - uio_resid u) in
      let* d := the_fd fd in
      let* _ := put_fd fd (mkFd (fd_mode d) (fd_numOwners d) (s32 (fd_offset d + size)) (fd_vnode d)) in
      ret (0, size).

Definition write_body (n : nat) (ft fdn : Z) (mem : list Z) (nbytes : Z) : M F (Z * Z) :=
  let* fd := ft_get n ft fdn in
  if fd =? 0 then ret (EBADF, 0) else write_fd fd mem nbytes.

(** [if (writelock == NULL)]: whether there is a lock in the end. *)
Definition write_lock : M F bool :=
  let* s := get in
  match fx_writelock s with
  | Some _ => ret true
  | None =>
      let* l := on_world (lock_create writelock_name) in
      let* _ := modify (set_fx_writelock l) in
      ret (match l with Some _ => true | None => false end)
  end.

(** [ft] is the table of the current thread, [readable] the answer of
    [as_valid_read_addr] about its address space. *)
Definition sys_write (n : nat) (ft : Z) (readable : bool) (fdn buf : Z) (mem : list Z) (nbytes : Z) : M F (Z * Z) :=
  if (buf =? 0) || (buf >=? MIPS_KSEG0) || negb readable then ret (EFAULT, 0)
  else
    let* have := write_lock in
    if negb have then ret (ENOMEM, 0)
    else write_body n ft fdn mem nbytes.
End Files.
End Filetable.
