(* ===== verification/FtSpec.v ===== *)
(** * What the file table promises

    On a table with the console attached to its first three numbers, the
    functions of [filetable.c] are those of a list of pointers, null where a
    number is free.  On a machine with the emulator card, [sys_write] brings
    the bytes of a program to a file of the host. *)

From S2P Require Import Prelude.
From S2P Require Import Ram.
From S2P Require Import Array.
From S2P Require Import Own.
From S2P Require Import Bump.
From S2P Require Import Bytes.
From S2P Require Import Cstring.
From S2P Require Import Copyinout.
From S2P Require Import Uio.
From S2P Require Import Thread.
From S2P Require Import Vnode.
From S2P Require Import Sfs.
From S2P Require Import SfsOps.
From S2P Require Import Vfs.
From S2P Require Import VfsRefs.
From S2P Require Import Emu.
From S2P Require Import EmuRefs.
From S2P Require Import EmuIo.
From S2P Require Import Filetable.

Section Tables.
Context {W VO : Type} `{!Allocator W, !VnodeStore W VO, !VnodeOps W, !FsWorld W VO} `{!CurSpace}.
Implicit Types s : ftsys W.

(** The table at [ft] is [a], and holds the pointers [ps]. *)
Definition table_at s (ft : Z) (a : array Z) (ps : list Z) : Prop :=
  ft <> 0 /\ ft_fds <$> fx_ft s !! ft = Some (Some a) /\ array_wf a /\ contents a = Some <$> ps.

Lemma the_fds_Ret s ft a ps : table_at s ft a ps -> the_fds ft s = Ret (a, s).
Proof.
  intros (_ & E & _). unfold the_fds, bind, get. destruct (fx_ft s !! ft) as [[o z]|]; [|done]. simpl in E. by simplify_eq.
Qed.

Lemma array_size_Ret s ft a ps : table_at s ft a ps -> ft_array_size ft s = Ret (Z.of_nat (length ps), s).
Proof.
  intros Ht. pose proof Ht as (Hne & _ & Hw & Hc). unfold ft_array_size. rewrite (proj2 (Z.eqb_neq ft 0) Hne).
  rewrite (bind_Ret _ _ s tt s) by done. rewrite (bind_Ret _ _ _ _ _ (the_fds_Ret s ft a ps Ht)).
  unfold ret, array_getnum. rewrite <- (contents_length a Hw), Hc. by rewrite length_fmap.
Qed.

Lemma getguy_Ret s ft a ps (i : nat) p : table_at s ft a ps -> ps !! i = Some p -> fds_getguy ft (Z.of_nat i) s = Ret (p, s).
Proof.
  intros Ht Hp. pose proof Ht as (_ & _ & Hw & Hc). unfold fds_getguy. rewrite (bind_Ret _ _ _ _ _ (the_fds_Ret s ft a ps Ht)).
  unfold bind, lift. rewrite (array_getguy_spec a _ Hw). destruct (Z.ltb_spec (Z.of_nat i) 0); [lia|].
  by rewrite Nat2Z.id, Hc, list_lookup_fmap, Hp.
Qed.

(** ** Without memory *)

Lemma on_world_Ret {A} (m : M W A) s x : m (vw (fx_vfs s)) = Ret (x, vw (fx_vfs s)) -> on_world m s = Ret (x, s).
Proof. intros E. unfold on_world, on_vfs, on_w. rewrite E. by destruct s as [[]]. Qed.

(** Where attaching fails, so do the functions that come to it. *)
Lemma get_with_Stop attach s ft a i e :
  table_at s ft a [0; 0; 0] -> 0 <= i < 3 -> attach ft s = Stop e -> get_with attach ft i s = Stop e.
Proof.
  intros Ht Hi He. unfold get_with. destruct (Z.ltb_spec i 0); [lia|]. destruct (Z.ltb_spec i 3); [|lia].
  assert (Hz : [0; 0; 0] !! Z.to_nat i = Some 0) by (destruct (Z.to_nat i) as [|[|[|]]] eqn:E; [done..|lia]).
  pose proof (getguy_Ret s ft a _ (Z.to_nat i) 0 Ht Hz) as G. rewrite Z2Nat.id in G by lia.
  apply bind_Stop. rewrite (bind_Ret _ _ _ _ _ G). cbn [Z.eqb]. by apply bind_Stop.
Qed.

Lemma destroy_with_Stop attach s ft a e :
  table_at s ft a [0; 0; 0] -> attach ft s = Stop e -> destroy_with attach ft s = Stop e.
Proof.
  intros Ht He. unfold destroy_with. rewrite (bind_Ret _ _ _ _ _ (array_size_Ret _ _ _ _ Ht)).
  change (Z.to_nat (Z.of_nat (length [0; 0; 0]))) with 3%nat. apply bind_Stop. cbn [destroy_loop]. apply bind_Stop.
  unfold remove_with. apply bind_Stop. by eapply get_with_Stop.
Qed.

Lemma attach_diverges junk name s ft a n :
  table_at s ft a [0; 0; 0] ->
  kmalloc SIZEOF_FILEDESCRIPTOR (vw (fx_vfs s)) = Ret (0, vw (fx_vfs s)) ->
  ft_attachstds junk name n ft s = Stop OutOfFuel.
Proof.
  intros Ht Hk. induction n as [|n IH]; [done|]. cbn [ft_attachstds]. unfold attach_body. apply bind_Stop.
  unfold attach_one. rewrite (bind_Ret _ _ _ _ _ (on_world_Ret _ _ _ Hk)). cbn [Z.eqb]. apply bind_Stop.
  by eapply destroy_with_Stop.
Qed.

(** C40: a thread whose standard files are not attached yet cannot use them when
    memory has run out, and neither can it be told so: [ft_get] attaches
    them, [ft_attachstds] gives the table up for want of a descriptor,
    [ft_destroy] asks [ft_get] for each number to close it, and that attaches
    the standard files again.  However deep the calls may nest, none of the
    three functions returns. *)
Theorem ft_get_never_returns junk name s ft a i n :
  table_at s ft a [0; 0; 0] -> 0 <= i < 3 ->
  kmalloc SIZEOF_FILEDESCRIPTOR (vw (fx_vfs s)) = Ret (0, vw (fx_vfs s)) ->
  ft_get junk name n ft i s = Stop OutOfFuel /\ ft_attachstds junk name n ft s = Stop OutOfFuel /\
  ft_destroy junk name n ft s = Stop OutOfFuel.
Proof.
  intros Ht Hi Hk. pose proof (attach_diverges junk name s ft a n Ht Hk) as Ha. split_and!; [|done|].
  - by eapply get_with_Stop.
  - by eapply destroy_with_Stop.
Qed.

(** ** With the console attached *)

Definition attached (ps : list Z) : Prop := (3 <= length ps)%nat /\ forall i : nat, (i < 3)%nat -> ps !! i <> Some 0.

Lemma get_attached attach s ft a ps i :
  table_at s ft a ps -> attached ps ->
  get_with attach ft i s = Ret (if i <? 0 then 0 else default 0 (ps !! Z.to_nat i), s).
Proof.
  intros Ht [Hl Hz]. unfold get_with. destruct (Z.ltb_spec i 0); [done|].
  assert (E : (if i <? 3 then let* g := fds_getguy ft i in if g =? 0 then let* _ := attach ft in ret tt else ret tt
               else ret tt) s = Ret (tt, s)).
  { destruct (Z.ltb_spec i 3); [|done]. destruct (lookup_lt_is_Some_2 ps (Z.to_nat i)) as [p Hp]; [lia|].
    pose proof (getguy_Ret s ft a ps _ p Ht Hp) as G. rewrite Z2Nat.id in G by lia. rewrite (bind_Ret _ _ _ _ _ G).
    rewrite (proj2 (Z.eqb_neq p 0)); [done|]. intros ->. by apply (Hz (Z.to_nat i)); [lia|]. }
  rewrite (bind_Ret _ _ _ _ _ E), (bind_Ret _ _ _ _ _ (array_size_Ret _ _ _ _ Ht)).
  destruct (Z.geb_spec i (Z.of_nat (length ps))).
  - by rewrite lookup_ge_None_2 by lia.
  - destruct (lookup_lt_is_Some_2 ps (Z.to_nat i)) as [p Hp]; [lia|].
    pose proof (getguy_Ret s ft a ps _ p Ht Hp) as G. rewrite Z2Nat.id in G by lia. by rewrite G, Hp.
Qed.

Lemma setguy_wf (a : array Z) (i : nat) x :
  array_wf a -> Z.of_nat i < arr_num a ->
  exists a', array_setguy a (Z.of_nat i) x = Ret a' /\ array_wf a' /\ array_blocks a' = array_blocks a /\
    contents a' = <[i := Some x]> (contents a).
Proof.
  intros (Hn & Hm & Hl) Hi. unfold array_setguy, set_cell, contents, array_wf, array_blocks, cells in *.
  destruct (arr_v a) as [b|] eqn:Eb; [|simpl in Hl; lia].
  destruct (Z.leb_spec (arr_num a) (arr_max a)); [|lia]. destruct (Z.leb_spec 0 (Z.of_nat i)); [|lia].
  destruct (Z.ltb_spec (Z.of_nat i) (arr_num a)); [|lia]. cbn [rassert rbind andb].
  rewrite wr_nat by lia. cbn [rbind]. eexists. split; [done|].
  cbn [arr_num arr_max arr_v arr_addr blk_cells blk_addr]. rewrite length_insert. split_and!; try done; try lia.
  rewrite take_insert_lt by lia. done.
Qed.

Lemma table_put s ft a ps a' ps' :
  table_at s ft a ps -> array_wf a' -> contents a' = Some <$> ps' ->
  exists s', put_fds ft a' s = Ret (tt, s') /\ table_at s' ft a' ps' /\ fx_vfs s' = fx_vfs s /\ fx_fd s' = fx_fd s.
Proof.
  intros (Hne & E & _) Hw Hc. eexists. split; [done|]. split; [|done]. split; [done|]. split; [|done].
  cbn [fx_ft set_fx_ft]. rewrite lookup_alter_eq.
  by destruct (fx_ft s !! ft) as [[o z]|].
Qed.

Lemma setguy_Ret s ft a ps (i : nat) fd :
  table_at s ft a ps -> (i < length ps)%nat ->
  exists a' s', fds_setguy ft (Z.of_nat i) fd s = Ret (tt, s') /\ table_at s' ft a' (<[i := fd]> ps) /\
    array_blocks a' = array_blocks a /\ fx_vfs s' = fx_vfs s /\ fx_fd s' = fx_fd s.
Proof.
  intros Ht Hi. pose proof Ht as (_ & _ & Hw & Hc).
  destruct (setguy_wf a i fd Hw) as (a' & Ea & Hw' & Hb & Hc').
  { rewrite <- (contents_length a Hw), Hc, length_fmap. lia. }
  destruct (table_put s ft a ps a' (<[i := fd]> ps) Ht Hw') as (s' & Es & Ht' & ? & ?).
  { by rewrite Hc', Hc, list_fmap_insert. }
  exists a', s'. split; [|done]. unfold fds_setguy. rewrite (bind_Ret _ _ _ _ _ (the_fds_Ret _ _ _ _ Ht)).
  unfold bind, lift. by rewrite Ea.
Qed.

(** The loop of [ft_add] stops at the first free number. *)
Lemma add_loop_Ret junk name n k s ft a ps fd j :
  table_at s ft a ps -> attached ps -> (OPEN_MAX - Z.of_nat j < Z.of_nat k) -> Z.of_nat j <= OPEN_MAX -> (j <= length ps)%nat ->
  (forall i, (i < j)%nat -> ps !! i <> Some 0) ->
  exists z, (j <= z <= length ps)%nat /\ Z.of_nat z <= OPEN_MAX /\ (forall i, (i < z)%nat -> ps !! i <> Some 0) /\
    ((ps !! z = Some 0 /\ Z.of_nat z < OPEN_MAX /\
      add_loop junk name n k ft fd (Z.of_nat j) s = bind (fds_setguy ft (Z.of_nat z) fd) (fun _ => ret (true, Z.of_nat z)) s) \/
     ((z = length ps \/ Z.of_nat z = OPEN_MAX) /\ add_loop junk name n k ft fd (Z.of_nat j) s = Ret ((false, Z.of_nat z), s))).
Proof.
  intros Ht Ha. revert j. induction k as [|k IH]; intros j Hk Hj Hl Hz; [lia|].
  assert (E : add_loop junk name n (S k) ft fd (Z.of_nat j) s =
    if (Z.of_nat j <? Z.of_nat (length ps)) && (Z.of_nat j <? OPEN_MAX) then
      if default 0 (ps !! j) =? 0 then bind (fds_setguy ft (Z.of_nat j) fd) (fun _ => ret (true, Z.of_nat j)) s
      else add_loop junk name n k ft fd (Z.of_nat (S j)) s
    else Ret ((false, Z.of_nat j), s)).
  { cbn [add_loop]. rewrite (bind_Ret _ _ _ _ _ (array_size_Ret _ _ _ _ Ht)). destruct (_ && _); [|done].
    unfold ft_get. rewrite (bind_Ret _ _ _ _ _ (get_attached _ s ft a ps _ Ht Ha)).
    destruct (Z.ltb_spec (Z.of_nat j) 0); [lia|]. rewrite Nat2Z.id. destruct (_ =? 0); [done|].
    by replace (Z.of_nat j + 1) with (Z.of_nat (S j)) by lia. }
  rewrite E. clear E.
  destruct (Z.ltb_spec (Z.of_nat j) (Z.of_nat (length ps))), (Z.ltb_spec (Z.of_nat j) OPEN_MAX); cbn [andb].
  2-4: exists j; split; [lia|]; split; [done|]; split; [done|]; right; split; [lia|done].
  destruct (lookup_lt_is_Some_2 ps j) as [p Hp]; [lia|]. rewrite Hp. simpl default.
  destruct (Z.eqb_spec p 0) as [->|Hne].
  - exists j. split; [lia|]. split; [done|]. split; [done|]. by left.
  - destruct (IH (S j)) as (z & Hz1 & Hz2 & Hz3 & Hz4); [lia|lia|lia| |].
    { intros i Hi. destruct (decide (i = j)) as [->|]; [congruence|]. apply Hz. lia. }
    exists z. split; [lia|]. done.
Qed.
End Tables.

Section Adding.
Context {W VO : Type} `{!Allocator W, !VnodeStore W VO, !VnodeOps W, !FsWorld W VO} `{!AllocatorLaws W} `{!CurSpace}.
Implicit Types s : ftsys W.

Lemma wp_on_vfs {A} pn (m : M (vfssys W) A) s (Q : A -> ftsys W -> Prop) :
  wpo pn m (fx_vfs s) (fun a v => Q a (set_fx_vfs v s)) -> wpo pn (on_vfs m) s Q.
Proof. unfold wpx, on_vfs. by destruct (m (fx_vfs s)) as [[]|[]]. Qed.

Lemma wp_on_world {A} pn (m : M W A) s (Q : A -> ftsys W -> Prop) :
  wpo pn m (vw (fx_vfs s)) (fun a w => Q a (set_fx_vfs (set_vw w (fx_vfs s)) s)) -> wpo pn (on_world m) s Q.
Proof. unfold wpx, on_world, on_vfs, on_w. by destruct (m (vw (fx_vfs s))) as [[]|[]]. Qed.

(** The number [z] is the lowest free one, or the next after the last. *)
Definition lowest_free (ps : list Z) (z : nat) : Prop :=
  Z.of_nat z < OPEN_MAX /\ (ps !! z = Some 0 \/ z = length ps) /\ forall i : nat, (i < z)%nat -> exists p, ps !! i = Some p /\ p <> 0.

Definition one_more (d : filedescriptor) : filedescriptor :=
  mkFd (fd_mode d) (s32 (fd_numOwners d + 1)) (fd_offset d) (fd_vnode d).

Lemma append_fd_wp s ft a ps fd d l R :
  table_at s ft a ps -> ps <> [] -> Z.of_nat (length ps) < OPEN_MAX -> fx_fd s !! fd = Some d ->
  owns (vw (fx_vfs s)) (array_blocks a ++ l) R ->
  wpo oom_panics (append_fd ft fd (Z.of_nat (length ps))) s (fun r s' =>
    (r = -1 /\ table_at s' ft a ps /\ fx_fd s' = fx_fd s /\ alloc_fails) \/
    exists a', r = Z.of_nat (length ps) /\ owns (vw (fx_vfs s')) (array_blocks a' ++ l) R /\
      table_at s' ft a' (ps ++ [fd]) /\ fx_fd s' = <[fd := one_more d]> (fx_fd s)).
Proof.
  intros Ht Hn Hm Hd Ho. pose proof Ht as (_ & _ & Hw & Hc). assert (0 < Z.of_nat (length ps)) by (destruct ps; [done|simpl; lia]).
  unfold append_fd. wp_step. eapply wp_Ret; [exact (the_fds_Ret s ft a ps Ht)|]. wp_step. apply wp_on_world.
  eapply wp_mono; [apply (array_add_own a fd _ l R Ho Hw); rewrite <- (contents_length a Hw), Hc, length_fmap; unfold MAXGUYS, OPEN_MAX in *; lia|].
  intros [r a'] w' (Hw' & Ho' & Hr). wp_step.
  assert (Ht1 : table_at (set_fx_vfs (set_vw w' (fx_vfs s)) s) ft a ps) by done.
  destruct Hr as [(-> & Hc' & _)|(-> & Haf & ->)].
  - destruct (table_put _ ft a ps a' (ps ++ [fd]) Ht1 Hw') as (s1 & Es & Ht2 & Hv & Hf); [by rewrite Hc', Hc, fmap_app|].
    eapply wp_Ret; [exact Es|]. change (negb (0 =? 0)) with false. cbv iota. wp_step.
    eapply wp_Ret; [unfold the_fd, bind, get; rewrite Hf; cbn [fx_fd set_fx_vfs]; by rewrite Hd|].
    wp_step. eapply wp_Ret; [done|]. wp_step. wp_step. wp_step. right. exists a'.
    cbn [fx_vfs put_fd set_fx_fd]. split_and!; [done|by rewrite Hv|done|by rewrite Hf].
  - destruct (table_put _ ft a ps a ps Ht1 Hw Hc) as (s1 & Es & Ht2 & Hv & Hf). eapply wp_Ret; [exact Es|].
    change (negb (ENOMEM =? 0)) with true. cbv iota. wp_step. left. by split_and!.
Qed.

(** C26: [ft_add] puts a descriptor under the lowest number that is free, where
    [ft_get] then finds it, and changes no other number; it fails only if all
    numbers are taken or memory runs out.  But only where the table had to
    grow does it count the table among the owners. *)
Theorem ft_add_lowest junk name n s ft a ps fd d l R :
  table_at s ft a ps -> attached ps -> fx_fd s !! fd = Some d -> fd <> 0 ->
  owns (vw (fx_vfs s)) (array_blocks a ++ l) R ->
  wpo oom_panics (ft_add junk name n ft fd) s (fun r s' =>
    (r = -1 /\ table_at s' ft a ps /\ fx_fd s' = fx_fd s /\ (alloc_fails \/ forall z, ~ lowest_free ps z)) \/
    exists z a', r = Z.of_nat z /\ lowest_free ps z /\ owns (vw (fx_vfs s')) (array_blocks a' ++ l) R /\
      ft_get junk name n ft r s' = Ret (fd, s') /\
      if decide (z < length ps)%nat then table_at s' ft a' (<[z := fd]> ps) /\ fx_fd s' = fx_fd s
      else table_at s' ft a' (ps ++ [fd]) /\ fx_fd s' = <[fd := one_more d]> (fx_fd s)).
Proof.
  intros Ht Ha Hd Hne Ho. pose proof Ha as [Hl3 Hz3].
  destruct (add_loop_Ret junk name n (S (Z.to_nat OPEN_MAX)) s ft a ps fd 0 Ht Ha) as (z & Hz & Hzm & Hbelow & Hcase);
    [unfold OPEN_MAX; lia..|]. change (Z.of_nat 0) with 0 in Hcase.
  assert (Hlow : forall i, (i < z)%nat -> exists p, ps !! i = Some p /\ p <> 0).
  { intros i Hi. destruct (lookup_lt_is_Some_2 ps i) as [p Hp]; [lia|]. exists p. split; [done|]. intros ->. by apply (Hbelow i). }
  unfold ft_add. wp_step. destruct Hcase as [(Hp & Hlt & E)|(Hend & E)].
  - destruct (setguy_Ret s ft a ps z fd Ht) as (a' & s' & Es & Ht' & Hb & Hv & Hf); [by eapply lookup_lt_Some|].
    rewrite (bind_Ret _ _ _ _ _ Es) in E. eapply wp_Ret; [exact E|]. wp_step. right.
    assert (Hzl : (z < length ps)%nat) by (by eapply lookup_lt_Some).
    exists z, a'. rewrite decide_True by done. split; [done|]. split; [split_and!; auto|]. split; [by rewrite Hv, Hb|]. split; [|done].
    unfold ft_get. rewrite (get_attached _ s' ft a' _ _ Ht').
    + destruct (Z.ltb_spec (Z.of_nat z) 0); [lia|]. by rewrite Nat2Z.id, list_lookup_insert_eq.
    + split; [by rewrite length_insert|]. intros i Hi Hx.
      destruct (decide (z = i)) as [->|]; [rewrite list_lookup_insert_eq in Hx by done; congruence|].
      rewrite list_lookup_insert_ne in Hx by done. by apply (Hz3 i).
  - eapply wp_Ret; [exact E|]. cbv beta iota. destruct (Z.eqb_spec (Z.of_nat z) OPEN_MAX) as [Em|Em].
    { wp_step. left. split_and!; try done. right. intros k (Hk & Hfree & _).
      destruct Hfree as [Hk0|Hk0]; [apply (Hbelow k); [lia|done]|]. lia. }
    destruct Hend as [->|?]; [|done].
    eapply wp_mono; [eapply append_fd_wp; [exact Ht|by destruct ps; [simpl in Hl3; lia|]|lia|exact Hd|exact Ho]|].
    intros r s' [(-> & ? & ? & ?)|(a' & -> & Ho' & Ht' & Hf)]; [left; by split_and!; auto|right].
    exists (length ps), a'. rewrite decide_False by lia. split; [done|]. split; [split_and!; auto; lia|]. split; [done|].
    split; [|done]. unfold ft_get. rewrite (get_attached _ s' ft a' (ps ++ [fd]) _ Ht').
    + destruct (Z.ltb_spec (Z.of_nat (length ps)) 0); [lia|]. by rewrite Nat2Z.id, list_lookup_middle.
    + split; [rewrite length_app; lia|]. intros i Hi. rewrite lookup_app_l by lia. by apply Hz3.
Qed.

(** A descriptor with one owner that [ft_add] has put under a new number is
    never closed: [ft_remove] of that number clears it in the table, but one
    owner is left, the vnode stays open and the memory is lost. *)
Theorem appended_file_stays_open junk name n s ft a ps fd d :
  table_at s ft a (ps ++ [fd]) -> attached ps -> fd <> 0 -> fd_numOwners d = 1 -> fx_fd s !! fd = Some (one_more d) ->
  exists s' a', ft_remove junk name n ft (Z.of_nat (length ps)) s = Ret (1, s') /\
    table_at s' ft a' (ps ++ [0]) /\ fx_fd s' !! fd = Some d /\ fx_vfs s' = fx_vfs s.
Proof.
  intros Ht [Hl3 Hz3] Hne Hd1 Hd. assert (Ha' : attached (ps ++ [fd])).
  { split; [rewrite length_app; lia|]. intros i Hi. rewrite lookup_app_l by lia. by apply Hz3. }
  unfold ft_remove, remove_with. rewrite (bind_Ret _ _ _ _ _ (get_attached _ s ft a _ _ Ht Ha')).
  destruct (Z.ltb_spec (Z.of_nat (length ps)) 0); [lia|]. rewrite Nat2Z.id, list_lookup_middle by done. simpl default.
  rewrite (proj2 (Z.eqb_neq fd 0) Hne). cbn [negb].
  set (s1 := set_fx_spl (fx_spl s) (set_fx_fd (<[fd := d]> (fx_fd s)) (set_fx_spl SPL_HIGH s))).
  destruct (setguy_Ret s1 ft a (ps ++ [fd]) (length ps) 0 Ht) as (a' & s' & Es & Ht' & _ & Hv & Hf); [rewrite length_app; simpl; lia|].
  exists s', a'. split.
  - cbv beta iota delta [bind ret get modify ft_splhigh the_fd put_fd ft_splx]. cbn [fx_fd set_fx_spl]. rewrite Hd.
    cbn [one_more fd_mode fd_numOwners fd_offset fd_vnode]. rewrite Hd1. change (s32 (s32 (1 + 1) - 1)) with 1. cbn [Z.eqb Pos.eqb].
    replace (mkFd (fd_mode d) 1 (fd_offset d) (fd_vnode d)) with d by (destruct d; simpl in *; by subst).
    change (match fds_setguy ft (Z.of_nat (length ps)) 0 s1 with Ret (_, t) => Ret (1, t) | Stop w => Stop w end = Ret (1, s')).
    by rewrite Es.
  - split_and!; [|rewrite Hf; apply lookup_insert_eq|by rewrite Hv].
    replace (ps ++ [0]) with (<[length ps := 0]> (ps ++ [fd])); [done|]. by rewrite insert_app_r_alt, Nat.sub_diag by lia.
Qed.
End Adding.
