(* ===== verification/Syscall.v ===== *)
(** * The system call dispatcher ([kern/arch/mips/mips/syscall.c])

    The calls it dispatches to are a record of functions on the state of the
    kernel; [Filetable.v] has one of them. *)

From S2P Require Import Prelude.

Definition SYS__exit : Z := 0.
Definition SYS_execv : Z := 1.
Definition SYS_write : Z := 6.
Definition SYS_reboot : Z := 8.

(** The registers the dispatcher looks at; it leaves the others alone. *)
Record trapframe := mkTf {
  tf_v0 : Z;
  tf_a0 : Z;
  tf_a1 : Z;
  tf_a2 : Z;
  tf_a3 : Z;
  tf_epc : Z;
}.

(** [call_exit] ends the thread; the others give an error code, [call_write]
    with the number of bytes. *)
Record calls (S : Type) := mkCalls {
  curspl : S -> Z;
  call_exit : Z -> M S unit;
  call_execv : Z -> Z -> M S Z;
  call_write : Z -> Z -> Z -> M S (Z * Z);
  call_reboot : Z -> M S Z;
}.
Arguments mkCalls {S}.
Arguments curspl {S}.
Arguments call_exit {S}.
Arguments call_execv {S}.
Arguments call_write {S}.
Arguments call_reboot {S}.

Section Dispatch.
Context {S : Type} (K : calls S).

(** The switch: the error code and the return value, or [None] when the
    thread is gone. *)
Definition syscall_switch (tf : trapframe) : M S (option (Z * Z)) :=
  let callno := s32 (tf_v0 tf) in
  if callno =? SYS__exit then
    let* _ := call_exit K (s32 (tf_a0 tf)) in
    ret None
  else if callno =? SYS_execv then
    let* err := call_execv K (tf_a0 tf) (tf_a1 tf) in
    ret (Some (err, 0))
  else if callno =? SYS_write then
    let* (err, retval) := call_write K (s32 (tf_a0 tf)) (tf_a1 tf) (tf_a2 tf) in
    ret (Some (err, retval))
  else if callno =? SYS_reboot then
    let* err := call_reboot K (s32 (tf_a0 tf)) in
    ret (Some (err, 0))
  else ret (Some (ENOSYS, 0)).

(** The trapframe the process goes on with. *)
Definition mips_syscall (tf : trapframe) : M S (option trapframe) :=
  let* s := get in
  let* _ := kassert (curspl K s =? 0) in
  let* o := syscall_switch tf in
  match o with
  | None => ret None
  | Some (err, retval) =>
      let tf := if negb (err =? 0)
                then mkTf (u32 err) (tf_a0 tf) (tf_a1 tf) (tf_a2 tf) 1 (tf_epc tf)
                else mkTf (u32 retval) (tf_a0 tf) (tf_a1 tf) (tf_a2 tf) 0 (tf_epc tf) in
      let tf := mkTf (tf_v0 tf) (tf_a0 tf) (tf_a1 tf) (tf_a2 tf) (tf_a3 tf) (u32 (tf_epc tf + 4)) in
      let* s := get in
      let* _ := kassert (curspl K s =? 0) in
      ret (Some tf)
  end.

(** What a process finds in its registers after a call. *)
Definition answered (tf : trapframe) (err retval : Z) : trapframe :=
  mkTf (u32 (if decide (err = 0) then retval else err)) (tf_a0 tf) (tf_a1 tf) (tf_a2 tf)
    (if decide (err = 0) then 0 else 1) (u32 (tf_epc tf + 4)).

Lemma syscall_wp pn tf s (Q : Z -> Z -> S -> Prop) :
  curspl K s = 0 ->
  wpo pn (syscall_switch tf) s (fun o s' => exists err retval, o = Some (err, retval) /\ curspl K s' = 0 /\ Q err retval s') ->
  wpo pn (mips_syscall tf) s (fun o s' => exists err retval, o = Some (answered tf err retval) /\ Q err retval s').
Proof.
  intros Hs Hd. unfold mips_syscall. wp_step. wp_step. wp_step. wp_step. wp_step.
  eapply wp_mono; [exact Hd|]. intros o s' (err & retval & -> & Hs' & HQ). wp_step. wp_step. wp_step. wp_step.
  wp_step. exists err, retval. split; [|done]. unfold answered. destruct (Z.eqb_spec err 0); simpl.
  - by rewrite !decide_True by done.
  - by rewrite !decide_False by done.
Qed.
End Dispatch.
