(* ===== verification/WriteSpec.v ===== *)
(** * From a program's buffer to a file of the host

    A system call of a process through [mips_syscall], [sys_write], the file
    table, the VFS layer's vnode calls and the emulator's file system: the
    layers together. *)

From S2P Require Import Prelude.
From S2P Require Import Ram.
From S2P Require Import Array.
From S2P Require Import Own.
From S2P Require Import Bump.
From S2P Require Import Bytes.
From S2P Require Import Cstring.
From S2P Require Import Copyinout.
From S2P Require Import Uio.
From S2P Require Import Thread.
From S2P Require Import Vnode.
From S2P Require Import Sfs.
From S2P Require Import SfsOps.
From S2P Require Import Vfs.
From S2P Require Import VfsRefs.
From S2P Require Import Emu.
From S2P Require Import EmuRefs.
From S2P Require Import EmuIo.
From S2P Require Import EmuSpec.
From S2P Require Import Filetable.
From S2P Require Import FtSpec.
From S2P Require Import Syscall.

Section Writing.
Context {H C : Type} `{AlignedAlloc H} `{HostCard C} `{!CurSpace}.
Abbreviation W := (emuw H C).
Implicit Types (w : W) (s : ftsys W) (v : vfssys W).

(** The heap serves the world as it serves itself. *)
Lemma lock_create_heap name w :
  lock_create name w = match lock_create name (em_heap w) with
                       | Ret (lk, h) => Ret (lk, set_em_heap h w)
                       | Stop e => Stop e
                       end.
Proof.
  unfold lock_create, kstrdup, bind, ret. cbn [kmalloc kfree emu_alloc]. unfold on_eheap.
  destruct (kmalloc SIZEOF_LOCK (em_heap w)) as [[p h1]|]; [|done]. destruct (p =? 0); [done|]. cbn [em_heap set_em_heap].
  destruct (kmalloc _ h1) as [[q h2]|]; [|done]. destruct (q =? 0); [|done]. cbn [Z.eqb em_heap set_em_heap].
  by destruct (kfree p h2) as [[[] h3]|].
Qed.

Lemma inv_others f R w l h :
  emu_inv f R w -> owns h (l ++ array_blocks (ef_vnodes f) ++ table_blocks ev_own (em_vn w)) R ->
  emu_inv f (list_to_set l ∪ R) (set_em_heap h w).
Proof.
  intros [] (Hh & Hn & Hd). apply NoDup_app in Hn as (Hn1 & Hdis & Hn2). constructor; try done; [|set_solver].
  simpl. split_and!; [|done|].
  - by rewrite (assoc_L (∪)), (comm_L (∪) (list_to_set _) (list_to_set l)), <- list_to_set_app_L.
  - intros x Hx. specialize (Hd x). specialize (Hdis x). set_solver.
Qed.

(** The lock is made once. *)
Lemma writelock_wp f R s :
  emu_inv f R (vw (fx_vfs s)) ->
  wpo oom_panics (let* l := on_world (lock_create writelock_name) in
                  let* _ := modify (set_fx_writelock l) in
                  ret (match l with Some _ => true | None => false end)) s (fun _ s' =>
    exists R' h l, emu_inv f R' (set_em_heap h (vw (fx_vfs s))) /\
      s' = set_fx_writelock l (set_fx_vfs (set_vw (set_em_heap h (vw (fx_vfs s))) (fx_vfs s)) s)).
Proof.
  intros Hi. wp_step. apply wp_on_world. unfold wpx at 1. rewrite lock_create_heap.
  pose proof (lock_create_own writelock_name _ _ R (i_own _ _ _ Hi)) as L. unfold wpx in L.
  destruct (lock_create writelock_name (em_heap (vw (fx_vfs s)))) as [[lk h]|e]; [|by apply L].
  destruct L as [_ Ho]; [done|]. wp_steps. eexists _, h, lk. split; [|done]. by apply inv_others.
Qed.

Lemma VOP_write f R v p ev u :
  emu_inv f R (vw v) -> em_vn (vw v) !! p = Some ev -> vn_ops (ev_v ev) = Some emufs_fileops ->
  uio_wf cur_space u -> uio_rw u = UIO_WRITE -> uio_access u (uio_resid u) -> 0 < uio_resid u ->
  wp (VOP p VopWrite (ReqWrite u)) v (fun a v' => exists r u' w', a = AnsUio r u' /\ v' = set_vw w' v /\ quiet R (vw v) w' /\
    (r = 0 -> u' = advance (uio_resid u) u /\
       host (e_card (em_sc w')) (ev_handle ev) =
         write_at (host (e_card (em_sc (vw v))) (ev_handle ev)) (Z.to_nat (uio_offset u)) (uio_data u (Z.to_nat (uio_resid u))))).
Proof.
  intros Hi Hp Hops Hw Hrw Hac Hpos. destruct (i_ev _ _ _ Hi p ev Hp) as (_ & _ & _ & _ & Hr & _ & _).
  assert (Hv : vnode_of (vw v) p = Some (ev_v ev)) by (simpl; by rewrite Hp).
  unfold VOP. wp_step. eapply wp_mono; [apply vnode_check_wp; [by exists f, R|unfold refs; rewrite Hv; done]|].
  intros [] v' ->. unfold dispatch_vop. wp_step. eapply wp_Ret; [by apply get_vnode_wp|]. rewrite Hops. cbn [is_dev emu_fsworld].
  rewrite bool_decide_false by done. apply wp_on_w. cbn [fs_call emu_fsworld]. unfold emufs_call. wp_step.
  eapply wp_Ret; [by apply (fs_get (vw v) p _ Hv)|]. rewrite Hops. cbn [emufs_file_table]. unfold answers. wp_step.
  eapply wp_mono; [by apply (emufs_write_wp f R)|]. intros [r u'] w' [Hq Hd]. wp_step. by exists r, u', w'.
Qed.

(** Number [z] of the table is the descriptor [d] at [fd], open for writing on
    a file of the emulator, whose handle is [hd]. *)
Record writable s (ft : Z) (z : nat) (fd : Z) (d : filedescriptor) (hd : Z) : Prop := {
  wr_inv : exists f R, emu_inv f R (vw (fx_vfs s));
  wr_table : exists a ps, table_at s ft a ps /\ attached ps /\ ps !! z = Some fd;
  wr_fd : fd <> 0 /\ fx_fd s !! fd = Some d;
  wr_file : exists ev, em_vn (vw (fx_vfs s)) !! fd_vnode d = Some ev /\ vn_ops (ev_v ev) = Some emufs_fileops /\ ev_handle ev = hd;
  wr_spl : fx_spl s = 0;
  wr_mode : Z.land O_ACCMODE (fd_mode d) = O_WRONLY \/ Z.land O_ACCMODE (fd_mode d) = O_RDWR;
}.

Definition moved (d : filedescriptor) (size : Z) : filedescriptor :=
  mkFd (fd_mode d) (fd_numOwners d) (fd_offset d + size) (fd_vnode d).

Lemma moved_0 d : moved d 0 = d.
Proof. unfold moved. rewrite Z.add_0_r. by destruct d. Qed.

Lemma moved_moved d m n : moved (moved d m) n = moved d (m + n).
Proof. unfold moved. simpl. by rewrite Z.add_assoc. Qed.

Definition the_file s (hd : Z) : list Z := host (e_card (em_sc (vw (fx_vfs s)))) hd.

Lemma writable_lock f R s ft z fd d hd h l :
  emu_inv f R (set_em_heap h (vw (fx_vfs s))) -> writable s ft z fd d hd ->
  writable (set_fx_writelock l (set_fx_vfs (set_vw (set_em_heap h (vw (fx_vfs s))) (fx_vfs s)) s)) ft z fd d hd.
Proof. intros Hi []. constructor; try done. by exists f, R. Qed.

(** The call after the lock is there. *)
Lemma write_body_wp junk name n s ft z fd d hd mem nbytes :
  writable s ft z fd d hd -> Forall byte_ok mem -> 0 < nbytes <= Z.of_nat (length mem) ->
  0 <= fd_offset d -> fd_offset d + nbytes < 2 ^ 31 ->
  wpo oom_panics (write_body junk name n ft (Z.of_nat z) mem nbytes) s (fun '(r, size) s' =>
    if decide (r = 0) then
      size = nbytes /\ writable s' ft z fd (moved d nbytes) hd /\
      the_file s' hd = write_at (the_file s hd) (Z.to_nat (fd_offset d)) (take (Z.to_nat nbytes) mem)
    else size = 0 /\ writable s' ft z fd d hd).
Proof.
  intros Hwr Hm Hn Ho Hb. pose proof Hwr as [(f & R & Hi) (a & ps & Ht & Ha & Hz) [Hfd Hd] (ev & Hev & Hops & <-) Hspl Hmode].
  unfold write_body. wp_step. eapply wp_Ret; [apply (get_attached _ s ft a ps (Z.of_nat z) Ht Ha)|].
  destruct (Z.ltb_spec (Z.of_nat z) 0); [lia|]. rewrite Nat2Z.id, Hz. simpl default. rewrite (proj2 (Z.eqb_neq fd 0) Hfd).
  unfold write_fd. wp_step. eapply wp_Ret; [unfold the_fd, bind, get; by rewrite Hd|].
  assert (Hacc : ((Z.land O_ACCMODE (fd_mode d) =? O_WRONLY) || (Z.land O_ACCMODE (fd_mode d) =? O_RDWR)) = true)
    by (destruct Hmode as [-> | ->]; done).
  rewrite Hacc. cbn [negb]. set (u := mk_kuio mem nbytes (fd_offset d) UIO_WRITE).
  assert (Hu : uio_wf cur_space u) by (unfold uio_wf, u, mk_kuio; simpl; split_and!; try lia; done).
  assert (Hdata : uio_data u (Z.to_nat (uio_resid u)) = take (Z.to_nat nbytes) mem) by (unfold uio_data, slice, u; simpl; by rewrite drop_0).
  set (s1 := set_fx_spl SPL_HIGH s). wp_step. eapply wp_Ret; [done|]. wp_step. apply wp_on_vfs.
  eapply wp_mono; [apply wp_calm, (VOP_write f R (fx_vfs s1) (fd_vnode d) ev u); done || (simpl; lia)|].
  intros ans v' (r & u' & w' & -> & -> & ((f' & Hi') & _ & Evn & _) & Hok). wp_step. eapply wp_Ret; [done|]. cbv beta iota.
  destruct (Z.eqb_spec r 0) as [->|Hr]; cbn [negb].
  2: { wp_step. rewrite decide_False by done. split; [done|]. constructor; eauto. simpl. rewrite Evn. eauto. }
  destruct (Hok eq_refl) as [-> Ef]. rewrite (advance_small cur_space) by (done || (simpl; lia)).
  rewrite Hdata in Ef. simpl uio_resid. simpl uio_offset in Ef. wp_step. eapply wp_Ret; [unfold the_fd, bind, get; simpl; by rewrite Hd|].
  wp_step. eapply wp_Ret; [done|]. wp_step. rewrite decide_True by done. rewrite Z.sub_diag, Z.sub_0_r, !s32_small by (rewrite ?s32_small; lia).
  split; [done|]. split; [|done]. constructor.
  - eauto.
  - eauto.
  - split; [done|]. apply lookup_insert_eq.
  - simpl. rewrite Evn. eauto.
  - done.
  - done.
Qed.

Lemma sys_write_wp junk name n s ft z fd d hd buf mem nbytes :
  writable s ft z fd d hd -> 0 < buf < MIPS_KSEG0 -> Forall byte_ok mem -> 0 < nbytes <= Z.of_nat (length mem) ->
  0 <= fd_offset d -> fd_offset d + nbytes < 2 ^ 31 ->
  wpo oom_panics (sys_write junk name n ft true (Z.of_nat z) buf mem nbytes) s (fun '(r, size) s' =>
    if decide (r = 0) then
      size = nbytes /\ writable s' ft z fd (moved d nbytes) hd /\
      the_file s' hd = write_at (the_file s hd) (Z.to_nat (fd_offset d)) (take (Z.to_nat nbytes) mem)
    else size = 0 /\ writable s' ft z fd d hd).
Proof.
  intros Hwr Hbuf Hm Hn Ho Hb. unfold sys_write. destruct (Z.eqb_spec buf 0); [lia|]. destruct (Z.geb_spec buf MIPS_KSEG0); [lia|].
  cbn [orb negb]. wp_step. unfold write_lock. wp_step. wp_step. destruct (fx_writelock s) as [l|].
  { wp_step. by apply write_body_wp. }
  destruct (wr_inv _ _ _ _ _ _ Hwr) as (f & R & Hi). eapply wp_mono; [by apply (writelock_wp f R)|].
  intros [] s' (R' & h & l & Hi' & ->).
  - exact (write_body_wp junk name n _ ft z fd d hd mem nbytes (writable_lock f R' s ft z fd d hd h l Hi' Hwr) Hm Hn Ho Hb).
  - cbn [negb]. wp_step. rewrite decide_False by done. split; [done|]. by eapply writable_lock.
Qed.

(** The system calls of the process with the table [ft] when its memory from
    the buffer on is [mem]; [K] has those that are not [sys_write]. *)
Definition process_calls (junk : Z) (name : list Z) (n : nat) (ft : Z) (K : calls (ftsys W)) (mem : list Z) : calls (ftsys W) :=
  mkCalls fx_spl (call_exit K) (call_execv K)
    (fun fdn buf nbytes => sys_write junk name n ft true fdn buf mem nbytes) (call_reboot K).

(** A program that writes the buffers one after the other, all of them at the
    address [buf] in their time, until a call fails: whether none did. *)
Fixpoint write_all (K : list Z -> calls (ftsys W)) (tf : trapframe) (z buf : Z) (bufs : list (list Z)) : M (ftsys W) bool :=
  match bufs with
  | [] => ret true
  | mem :: bufs =>
      let* o := mips_syscall (K mem) (mkTf SYS_write z buf (Z.of_nat (length mem)) (tf_a3 tf) (tf_epc tf)) in
      match o with
      | Some tf => if tf_a3 tf =? 0 then write_all K tf z buf bufs else ret false
      | None => ret false
      end
  end.

Lemma call_wp junk name n K tf s ft z fd d hd buf mem :
  let nbytes := Z.of_nat (length mem) in
  let tf := mkTf SYS_write (Z.of_nat z) buf nbytes (tf_a3 tf) (tf_epc tf) in
  writable s ft z fd d hd -> 0 < buf < MIPS_KSEG0 -> Forall byte_ok mem -> 0 < nbytes ->
  0 <= fd_offset d -> fd_offset d + nbytes < 2 ^ 31 -> Z.of_nat z < OPEN_MAX ->
  wpo oom_panics (mips_syscall (process_calls junk name n ft K mem) tf) s (fun o s' => exists r size, o = Some (answered tf r size) /\
    if decide (r = 0) then
      size = nbytes /\ writable s' ft z fd (moved d nbytes) hd /\
      the_file s' hd = write_at (the_file s hd) (Z.to_nat (fd_offset d)) (take (Z.to_nat nbytes) mem)
    else size = 0 /\ writable s' ft z fd d hd).
Proof.
  intros nbytes tf' Hwr Hbuf Hm Hn Ho Hb Hz. apply syscall_wp; [apply Hwr|]. unfold syscall_switch, tf'. cbn [tf_v0 tf_a0 tf_a1 tf_a2].
  change (s32 SYS_write =? SYS__exit) with false. change (s32 SYS_write =? SYS_execv) with false.
  change (s32 SYS_write =? SYS_write) with true. cbv iota. rewrite s32_small by (unfold OPEN_MAX in Hz; lia). wp_step.
  cbn [call_write process_calls]. eapply wp_mono; [apply (sys_write_wp junk name n s ft z fd d hd buf mem nbytes); done || lia|].
  intros [r size] s' Hq. wp_step. exists r, size. split; [done|]. split; [|done].
  cbn [curspl process_calls]. destruct (decide (r = 0)); [apply Hq|]. apply (proj2 Hq).
Qed.

(** C25: what a process writes through one file number goes to the host's file,
    system call after system call: each writes its whole buffer at the
    descriptor's offset and moves it on, so that together they have written
    the concatenation.  A call that fails leaves the offset behind the
    buffers before it.  Every call comes back with interrupts enabled, as the
    dispatcher asserts. *)
Theorem sys_write_stream junk name n K tf bufs s ft z fd d hd buf :
  writable s ft z fd d hd -> 0 < buf < MIPS_KSEG0 -> Forall (fun mem => mem <> [] /\ Forall byte_ok mem) bufs ->
  0 <= fd_offset d -> fd_offset d + Z.of_nat (length (concat bufs)) < 2 ^ 31 ->
  (Z.to_nat (fd_offset d) <= length (the_file s hd))%nat -> Z.of_nat z < OPEN_MAX ->
  wpo oom_panics (write_all (process_calls junk name n ft K) tf (Z.of_nat z) buf bufs) s (fun ok s' =>
    exists k, let out := concat (take k bufs) in
      writable s' ft z fd (moved d (Z.of_nat (length out))) hd /\
      (ok -> out = concat bufs /\
        the_file s' hd = write_at (the_file s hd) (Z.to_nat (fd_offset d)) out)).
Proof.
  revert s d tf. induction bufs as [|mem bufs IH]; intros s d tf Hwr Hbuf Hm Ho Hb Hl Hz; cbn [write_all].
  { wp_step. exists 0%nat. simpl. rewrite moved_0. split; [done|]. intros _. split; [done|]. by rewrite write_at_nil. }
  apply Forall_cons in Hm as [[Hne Hm] Hms]. simpl in Hb. rewrite length_app in Hb.
  assert (0 < Z.of_nat (length mem)) by (destruct mem; [done|simpl; lia]).
  wp_step. eapply wp_mono; [apply (call_wp junk name n K tf s ft z fd d hd buf mem); done || lia|].
  intros o s1 (r & size & -> & Hq). cbn [answered tf_a3]. destruct (decide (r = 0)) as [->|Hr]; cbn [Z.eqb].
  2: { destruct Hq as [_ Hq]. wp_step. exists 0%nat. simpl. by rewrite moved_0. }
  destruct Hq as (-> & Hwr1 & Hf). rewrite Nat2Z.id, firstn_all in Hf.
  eapply wp_mono; [apply (IH s1 _ _ Hwr1 Hbuf Hms); simpl; try lia|].
  { rewrite Hf. unfold write_at. rewrite !length_app, length_write_prefix. lia. }
  intros ok s' (k & Hwr' & Hok). exists (S k). cbn [take concat]. rewrite moved_moved in Hwr'.
  rewrite length_app, Nat2Z.inj_add. split; [done|]. intros [Hout ->]%Hok. rewrite Hout. split; [done|].
  rewrite Hf. simpl fd_offset. rewrite Z2Nat.inj_add, Nat2Z.id by lia. apply write_at_app.
Qed.
End Writing.

(** The machine's heap is its allocator. *)
#[global] Instance emu_alloc_laws {H C : Type} `{AllocatorLaws H} : AllocatorLaws (emuw H C).
Proof.
  refine {| oom_panics := oom_panics; heap_ok w := heap_ok (em_heap w) |}.
  - intros n w L Hh Hn. apply wp_on_eheap. by apply kmalloc_law.
  - intros p w L Hh Hp. apply wp_on_eheap. by apply kfree_law.
Defined.

(** ** A process on the small machine

    Its standard files are the descriptor at 1000; its table is at 1016. *)
Module Process.
Import EmuSpec.Machine.

Definition file_fd (owners : Z) : filedescriptor := mkFd O_RDWR owners 4 848.
Definition fds (ps : list Z) : array Z :=
  mkArray 1024 (Z.of_nat (length ps)) (Z.of_nat (length ps)) (Some (mkBlock 1032 (Some <$> ps))).
Definition process (h : bump) (ps : list Z) (owners : Z) : ftsys (emuw bump files) :=
  mkFts (mkVfs None None ∅ ∅ 0 None 0 (set_em_heap h machine)) {[1016 := mkFt (Some (fds ps)) 0]}
    (<[1000 := mkFd O_RDWR 3 0 872]> {[1008 := file_fd owners]}) 0 None.

(** No system call but [sys_write]. *)
Definition no_calls : calls (ftsys (emuw bump files)) :=
  mkCalls fx_spl (fun _ => ret tt) (fun _ _ => ret ENOSYS) (fun _ _ _ => ret (ENOSYS, 0)) (fun _ => ret ENOSYS).

Definition std : list Z := [1000; 1000; 1000].
Definition heap0 : bump := (4096, {[1024; 1032]}).

Lemma std_attached ps : attached (std ++ ps).
Proof. split; [simpl; lia|]. by intros [|[|[|i]]] ?; [..|lia]. Qed.

(** Two buffers behind the four bytes of the file. *)
Lemma sys_write_stream_witness :
  let s := process (em_heap machine) (std ++ [1008]) 1 in
  wp (write_all (process_calls 0 [0] 0 1016 no_calls) (mkTf 0 0 0 0 0 4096) 3 8192 [[7; 8]; [9]]) s (fun ok s' => exists k, let out := concat (take k [[7; 8]; [9]]) in
    writable s' 1016 3 1008 (moved (file_fd 1) (Z.of_nat (length out))) 5 /\
    (ok -> out = [7; 8; 9] /\ the_file s' 5 = write_at [10; 20; 30; 40] 4 out)) /\
  write_at [10; 20; 30; 40] 4 [7; 8; 9] = [10; 20; 30; 40; 7; 8; 9].
Proof.
  split; [|done].
  refine (sys_write_stream 0 [0] 0 no_calls (mkTf 0 0 0 0 0 4096) [[7; 8]; [9]] (process (em_heap machine) (std ++ [1008]) 1)
    1016 3 1008 (file_fd 1) 5 8192 _ _ _ _ _ _ _).
  - constructor.
    + exists fs, others. exact machine_ok.
    + exists (fds (std ++ [1008])), (std ++ [1008]). split; [|split; [apply std_attached|done]]. split_and!; done || by vm_compute.
    + done.
    + eexists. split; [done|]. done.
    + done.
    + by right.
  - done.
  - unfold byte_ok. repeat constructor; done || lia.
  - done.
  - done.
  - vm_compute. lia.
  - done.
Defined.

(** The fourth number is new. *)
Lemma ft_add_lowest_witness :
  let s := process heap0 std 1 in
  wp (ft_add 0 [0] 0 1016 1008) s (fun r s' =>
    (r = -1 /\ table_at s' 1016 (fds std) std /\ fx_fd s' = fx_fd s /\ (@alloc_fails (emuw bump files) _ \/ forall z, ~ lowest_free std z)) \/
    exists z a', r = Z.of_nat z /\ lowest_free std z /\ owns (vw (fx_vfs s')) (array_blocks a' ++ []) ∅ /\
      ft_get 0 [0] 0 1016 r s' = Ret (1008, s') /\
      if decide (z < 3)%nat then table_at s' 1016 a' (<[z := 1008]> std) /\ fx_fd s' = fx_fd s
      else table_at s' 1016 a' (std ++ [1008]) /\ fx_fd s' = <[1008 := file_fd 2]> (fx_fd s)) /\
  match ft_add 0 [0] 0 1016 1008 s with
  | Ret (r, s') => r = 3 /\ fx_fd s' !! 1008 = Some (file_fd 2)
  | Stop _ => False
  end.
Proof.
  split; [|by vm_compute].
  refine (ft_add_lowest 0 [0] 0 (process heap0 std 1) 1016 (fds std) std 1008 (file_fd 1) [] ∅ _ _ _ _ _).
  - split_and!; done || by vm_compute.
  - apply (std_attached []).
  - done.
  - done.
  - split_and!.
    + split; [done|]. split; [done|]. split; [done|]. intros q Hq.
      change (q ∈ ({[1024; 1032]} : gset Z)) in Hq. simpl. apply elem_of_union in Hq as [->%elem_of_singleton | ->%elem_of_singleton]; done.
    + change (NoDup [1024; 1032]). repeat (apply NoDup_cons; split; [rewrite ?elem_of_cons, elem_of_nil; lia|]). apply NoDup_nil_2.
    + intros q _. set_solver.
Defined.

(** The descriptor of that number, given up again. *)
Lemma appended_file_stays_open_witness :
  let s := process heap0 (std ++ [1008]) 2 in
  exists s' a', ft_remove 0 [0] 0 1016 3 s = Ret (1, s') /\
    table_at s' 1016 a' (std ++ [0]) /\ fx_fd s' !! 1008 = Some (file_fd 1) /\ fx_vfs s' = fx_vfs s.
Proof.
  refine (appended_file_stays_open 0 [0] 0 (process heap0 (std ++ [1008]) 2) 1016 (fds (std ++ [1008])) std 1008 (file_fd 1) _ _ _ _ _).
  - split_and!; done || by vm_compute.
  - apply (std_attached []).
  - done.
  - done.
  - done.
Defined.

(** A heap with eight bytes left. *)
Lemma ft_get_never_returns_witness :
  let s := process (2 ^ 32 - 8, ∅) [0; 0; 0] 1 in
  ft_get 0 [0] 100 1016 1 s = Stop OutOfFuel /\ ft_attachstds 0 [0] 100 1016 s = Stop OutOfFuel /\
  ft_destroy 0 [0] 100 1016 s = Stop OutOfFuel.
Proof.
  refine (ft_get_never_returns 0 [0] (process (2 ^ 32 - 8, ∅) [0; 0; 0] 1) 1016 (fds [0; 0; 0]) 1 100 _ _ _).
  - split_and!; done || by vm_compute.
  - lia.
  - done.
Defined.
End Process.
