(* ===== verification/Console.v ===== *)
(** * The console ([kern/dev/generic/console.c])

    The device underneath is a class.  A thread that waits in [P] for the device
    is woken when it has sent its character.  Keys can be struck at any time:
    [con_keys] is a schedule of bursts of them, each a list of keys, possibly
    empty, that [con_input] takes in one after the other.  A burst comes at each
    point where it makes a difference to a reader: before [P] looks at its
    semaphore, each time the reader sleeps in [P], and between [P] and the load
    of [cs_gotchar].  Keys struck at other times are those of the burst at the
    next such point, since nothing else looks at what [con_input] changes. *)

From S2P Require Import Prelude.
From S2P Require Import Bytes.
From S2P Require Import Copyinout.
From S2P Require Import Uio.
From S2P Require Import Cstring.
From S2P Require Import Vnode.
From S2P Require Import Sfs.
From S2P Require Import SfsOps.
From S2P Require Import Vfs.

Definition DELAYBUFSIZE : Z := 1024.
Definition LF : Z := 10.
Definition CR : Z := 13.

(** An [int] as a [char]. *)
Definition s8 (z : Z) : Z := if z mod 256 <? 128 then z mod 256 else z mod 256 - 256.

(** The functions the device underneath provides. *)
Class ConDev (D : Type) := {
  cs_send : Z -> D -> D;
  cs_sendpolled : Z -> D -> D;
}.

Record console (D : Type) := mkCon {
  con_dev : D;
  the_console : bool;           (* the_console != NULL *)
  con_userlocks : bool;         (* both of them *)
  delayed_outbuf : list Z;      (* up to delayed_outbuf_pos *)
  cs_rsem : Z;
  cs_wsem : Z;
  cs_gotchar : Z;
  con_in_interrupt : bool;
  con_spl : Z;
  con_keys : list (list Z);
}.
Arguments mkCon {D}.
Arguments con_dev {D}.
Arguments the_console {D}.
Arguments con_userlocks {D}.
Arguments delayed_outbuf {D}.
Arguments cs_rsem {D}.
Arguments cs_wsem {D}.
Arguments cs_gotchar {D}.
Arguments con_in_interrupt {D}.
Arguments con_spl {D}.
Arguments con_keys {D}.

Section Driver.
Context {D : Type} `{!ConDev D} `{!CurSpace}.
#[local] Abbreviation C := (console D).
Implicit Types c : C.

Definition set_con_dev (d : D) c : C :=
  mkCon d (the_console c) (con_userlocks c) (delayed_outbuf c) (cs_rsem c) (cs_wsem c) (cs_gotchar c)
    (con_in_interrupt c) (con_spl c) (con_keys c).
Definition set_delayed (b : list Z) c : C :=
  mkCon (con_dev c) (the_console c) (con_userlocks c) b (cs_rsem c) (cs_wsem c) (cs_gotchar c)
    (con_in_interrupt c) (con_spl c) (con_keys c).
Definition set_rsem (z : Z) c : C :=
  mkCon (con_dev c) (the_console c) (con_userlocks c) (delayed_outbuf c) z (cs_wsem c) (cs_gotchar c)
    (con_in_interrupt c) (con_spl c) (con_keys c).
Definition set_wsem (z : Z) c : C :=
  mkCon (con_dev c) (the_console c) (con_userlocks c) (delayed_outbuf c) (cs_rsem c) z (cs_gotchar c)
    (con_in_interrupt c) (con_spl c) (con_keys c).
Definition set_gotchar (z : Z) c : C :=
  mkCon (con_dev c) (the_console c) (con_userlocks c) (delayed_outbuf c) (cs_rsem c) (cs_wsem c) z
    (con_in_interrupt c) (con_spl c) (con_keys c).
Definition set_keys (l : list (list Z)) c : C :=
  mkCon (con_dev c) (the_console c) (con_userlocks c) (delayed_outbuf c) (cs_rsem c) (cs_wsem c) (cs_gotchar c)
    (con_in_interrupt c) (con_spl c) l.

Definition putch_delayed (ch : Z) : M C unit :=
  let* c := get in
  let* _ := kassert (Z.of_nat (length (delayed_outbuf c)) <? DELAYBUFSIZE) in
  modify (fun c => set_delayed (delayed_outbuf c ++ [s8 ch]) c).

Definition putch_polled (ch : Z) : M C unit := modify (fun c => set_con_dev (cs_sendpolled ch (con_dev c)) c).

Definition con_start : M C unit := modify (fun c => set_wsem (cs_wsem c + 1) c).

Definition con_input (ch : Z) : M C unit :=
  let* _ := modify (set_gotchar ch) in
  modify (fun c => set_rsem (cs_rsem c + 1) c).

(** [P(cs->cs_wsem)]: the device is done with the last character in the end. *)
Definition P_wsem : M C unit :=
  let* c := get in
  let* _ := (if cs_wsem c =? 0 then con_start else ret tt) in
  modify (fun c => set_wsem (cs_wsem c - 1) c).

Definition putch_intr (ch : Z) : M C unit :=
  let* _ := P_wsem in
  modify (fun c => set_con_dev (cs_send ch (con_dev c)) c).

Fixpoint con_inputs (chs : list Z) : M C unit :=
  match chs with
  | [] => ret tt
  | ch :: chs =>
      let* _ := con_input ch in
      con_inputs chs
  end.

(** The interrupts of the next burst. *)
Definition interrupts : M C unit :=
  let* c := get in
  match con_keys c with
  | [] => ret tt
  | b :: bs =>
      let* _ := modify (set_keys bs) in
      con_inputs b
  end.

(** [while (sem->count==0) thread_sleep(sem)], and the count goes down.
    Without another burst the thread waits for ever. *)
Fixpoint sleep_rsem (bursts : list (list Z)) : M C unit :=
  let* c := get in
  if cs_rsem c =? 0 then
    match bursts with
    | [] => halt OutOfFuel
    | _ :: bursts =>
        let* _ := interrupts in
        sleep_rsem bursts
    end
  else modify (set_rsem (cs_rsem c - 1)).

(** [P(cs->cs_rsem)] *)
Definition P_rsem : M C unit :=
  let* _ := interrupts in
  let* c := get in
  sleep_rsem (con_keys c).

Definition getch_intr : M C Z :=
  let* _ := P_rsem in
  let* _ := interrupts in
  gets cs_gotchar.

Definition putch (ch : Z) : M C unit :=
  let* c := get in
  if negb (the_console c) then putch_delayed ch
  else if con_in_interrupt c || (con_spl c >? 0) then putch_polled ch
  else putch_intr ch.

Definition getch : M C Z :=
  let* c := get in
  let* _ := kassert (the_console c) in
  let* _ := kassert (negb (con_in_interrupt c) && (con_spl c =? 0)) in
  getch_intr.

Fixpoint putchs (chs : list Z) : M C unit :=
  match chs with
  | [] => ret tt
  | ch :: chs =>
      let* _ := putch ch in
      putchs chs
  end.

(** The positions below [delayed_outbuf_pos], which [putch] leaves alone once
    there is a console. *)
Definition flush_delay_buf : M C unit :=
  let* c := get in
  let* _ := putchs (delayed_outbuf c) in
  modify (set_delayed []).

Definition con_open (openflags : Z) : M C Z := ret 0.
Definition con_close : M C Z := ret 0.
Definition con_ioctl (op data : Z) : M C Z := ret EINVAL.

(** The loop of [con_io]; [ch] is what the variable holds. *)
Fixpoint con_loop (fuel : nat) (ch : Z) (u : uio) : M C (Z * uio) :=
  match fuel with
  | O => halt OutOfFuel
  | S n =>
      if uio_resid u >? 0 then
        if is_read u then
          let* g := getch in
          let ch := s8 g in
          let ch := if ch =? CR then LF else ch in
          let* (result, _, u) := lift (uiomove cur_space [ch mod 256] 0 1 u) in
          if negb (result =? 0) then ret (result, u)
          else if ch =? LF then ret (0, u)
          else con_loop n ch u
        else
          let* (result, buf, u) := lift (uiomove cur_space [ch mod 256] 0 1 u) in
          if negb (result =? 0) then ret (result, u)
          else
            let ch := s8 (default 0 (head buf)) in
            let* _ := (if ch =? LF then putch CR else ret tt) in
            let* _ := putch ch in
            con_loop n ch u
      else ret (0, u)
  end.

Definition con_io (u : uio) : M C (Z * uio) :=
  let* c := get in
  let* _ := kassert (con_userlocks c) in
  con_loop (S (Z.to_nat (uio_resid u))) 0 u.

(** The end of [config_con], with the semaphores and locks made. *)
Definition console_up : M C unit :=
  let* _ := modify (fun c =>
    mkCon (con_dev c) true true (delayed_outbuf c) 0 1 0 (con_in_interrupt c) (con_spl c) (con_keys c)) in
  flush_delay_buf.
End Driver.

(** ** As a device of the VFS layer *)

Class ConWorld (W D : Type) := {
  con_of : W -> console D;
  set_con : console D -> W -> W;
}.

Section Device.
Context {W VO D : Type} `{!Allocator W, !VnodeStore W VO, !VnodeOps W, !FsWorld W VO} `{!ConDev D, !ConWorld W D} `{!CurSpace}.

Definition on_con {A} (m : M (console D) A) : M W A := fun w =>
  match m (con_of w) with
  | Ret (a, c) => Ret (a, set_con c w)
  | Stop e => Stop e
  end.

Definition con_device : device W :=
  mkDevice (fun fl => on_con (con_open fl)) (on_con con_close) (fun u => on_con (con_io u))
    (fun op data => on_con (con_ioctl op data)) 0 1.

(** "con" *)
Definition con_devname : list Z := [99; 111; 110].

Definition attach_console_to_vfs : M (vfssys W) Z :=
  let* dev := on_w (kmalloc SIZEOF_DEVICE) in
  if dev =? 0 then ret ENOMEM
  else
    let* _ := modify (fun s => set_devtab (<[dev := con_device]> (devtab s)) s) in
    let* result := vfs_adddev con_devname dev false in
    if negb (result =? 0) then
      let* _ := on_w (kfree dev) in
      let* _ := modify (fun s => set_devtab (delete dev (devtab s)) s) in
      ret result
    else ret 0.
End Device.
