(* ===== verification/ConsoleSpec.v ===== *)
(** * What the console shows and hands over *)

From S2P Require Import Prelude.
From S2P Require Import Bytes.
From S2P Require Import Copyinout.
From S2P Require Import Uio.
From S2P Require Import Vnode.
From S2P Require Import Sfs.
From S2P Require Import SfsOps.
From S2P Require Import Vfs.
From S2P Require Import Console.

(** The device puts the low byte of each character on the screen. *)
Class ConLaws (D : Type) `{!ConDev D} := {
  printed : D -> list Z;
  send_prints ch d : printed (cs_send ch d) = printed d ++ [ch mod 256];
  sendpolled_prints ch d : printed (cs_sendpolled ch d) = printed d ++ [ch mod 256];
}.

Lemma s8_mod z : s8 z mod 256 = z mod 256.
Proof.
  unfold s8. destruct (_ <? 128); [apply Z.mod_mod; lia|].
  rewrite <- (Z.mod_add _ 1 256) by lia. by rewrite Z.mul_1_l, Z.sub_add, Z.mod_mod by lia.
Qed.

Lemma s8_small z : 0 <= z < 128 -> s8 z = z.
Proof. intros Hz. unfold s8. rewrite Z.mod_small by lia. by destruct (Z.ltb_spec z 128); [|lia]. Qed.

Section Spec.
Context {D : Type} `{ConLaws D} `{!CurSpace}.
Implicit Types c : console D.

(** A console that is up, in any context. *)
Definition con_ok c : Prop := the_console c = true /\ con_userlocks c = true /\ 0 <= cs_wsem c.

(** Only the screen and the semaphore of the writers change. *)
Definition shows c (out : list Z) c' : Prop :=
  con_ok c' /\ printed (con_dev c') = printed (con_dev c) ++ out /\
  con_in_interrupt c' = con_in_interrupt c /\ con_spl c' = con_spl c /\ con_keys c' = con_keys c /\
  cs_rsem c' = cs_rsem c /\ cs_gotchar c' = cs_gotchar c /\ delayed_outbuf c' = delayed_outbuf c.

Lemma shows_refl c : con_ok c -> shows c [] c.
Proof. intros. split_and!; try done. by rewrite app_nil_r. Qed.

Lemma shows_trans c out c1 out' c2 : shows c out c1 -> shows c1 out' c2 -> shows c (out ++ out') c2.
Proof.
  intros (_ & E & ?) (Hok & E' & ?). split_and!; try done; destruct_and!; try congruence. by rewrite E', E, app_assoc.
Qed.

Lemma putch_wp c ch : con_ok c -> wp (putch ch) c (fun _ c' => shows c [ch mod 256] c').
Proof.
  intros (Hc & Hl & Hw). unfold putch. wp_step. wp_step. rewrite Hc. cbn [negb].
  destruct (con_in_interrupt c || (con_spl c >? 0)).
  - unfold putch_polled. wp_step. split_and!; try done. apply sendpolled_prints.
  - unfold putch_intr, P_wsem. do 3 wp_step. destruct (Z.eqb_spec (cs_wsem c) 0); unfold con_start; wp_steps;
      (split; [split_and!; simpl; try done; lia|split_and!; try done; apply send_prints]).
Qed.

(** What a terminal is sent for a byte. *)
Definition crlf (b : Z) : list Z := if b =? LF then [CR; LF] else [b].

Lemma con_write_loop fuel c ch u :
  con_ok c -> uio_wf cur_space u -> uio_rw u = UIO_WRITE -> uio_access u (uio_resid u) -> (Z.to_nat (uio_resid u) < fuel)%nat ->
  wp (con_loop fuel ch u) c (fun '(r, u') c' => r = 0 /\ u' = advance (uio_resid u) u /\
    shows c (concat (crlf <$> uio_data u (Z.to_nat (uio_resid u)))) c').
Proof.
  revert c ch u. induction fuel as [|fuel IH]; intros c ch u Hc Hw Hrw Hac Hf; [lia|]. cbn [con_loop].
  pose proof Hw as (_ & Hres & _). destruct (Z.gtb_spec (uio_resid u) 0) as [Hr|Hr].
  2: { wp_step. assert (E0 : uio_resid u = 0) by lia. rewrite E0. split; [done|]. split; [by rewrite (advance_0 cur_space)|].
       by apply shows_refl. }
  assert (E : is_read u = false) by (unfold is_read; by rewrite bool_decide_false; [|rewrite Hrw]). rewrite E.
  assert (Hl1 : length (uio_data u 1) = 1%nat) by (apply (length_uio_data cur_space); [done|lia]).
  destruct (uio_data u 1) as [|b [|]] eqn:Ed; simplify_eq/=.
  assert (Hb : byte_ok b) by (pose proof (uio_data_ok cur_space u 1 Hw) as Hf1; rewrite Ed in Hf1; by apply Forall_cons in Hf1 as [? _]).
  assert (Hmv : uiomove cur_space [ch mod 256] 0 1 u = Ret (0, [b], advance 1 u)).
  { rewrite (uiomove_spec cur_space); [|done|lia|eapply uio_access_le; [exact Hac|lia]|lia|simpl; lia]. rewrite Hrw.
    change (Z.to_nat 1) with 1%nat. by rewrite Ed. }
  wp_step. eapply wp_lift_Ret; [exact Hmv|]. cbv beta iota. change (negb (0 =? 0)) with false. cbv iota. simpl head. simpl default.
  assert (Hsb : s8 b mod 256 = b) by (rewrite s8_mod; apply Z.mod_small; unfold byte_ok in Hb; lia).
  assert (Hlf : (s8 b =? LF) = (b =? LF)).
  { unfold LF in *. destruct (Z.eqb_spec b 10) as [->|Hne]; [done|]. apply Z.eqb_neq. intros E8. rewrite E8 in Hsb. by rewrite <- Hsb in Hne. }
  wp_step. eapply (wp_mono _ _ (fun _ c1 => shows c (if b =? LF then [CR] else []) c1)).
  { rewrite Hlf. destruct (b =? LF); [by apply putch_wp|]. wp_step. by apply shows_refl. }
  intros [] c1 H1. wp_step. eapply wp_mono; [apply putch_wp, H1|]. rewrite Hsb. intros [] c2 H2.
  pose proof (shows_trans _ _ _ _ _ H1 H2) as H12.
  assert (Er : uio_resid (advance 1 u) = uio_resid u - 1) by (by rewrite (advance_small cur_space) by (done || lia)).
  eapply wp_mono; [apply IH|].
  - apply H12.
  - apply advance_wf; [done|lia].
  - done.
  - rewrite Er. apply uio_access_advance; [|lia]. by replace (1 + (uio_resid u - 1)) with (uio_resid u) by lia.
  - lia.
  - intros [r u'] c' (-> & -> & H3). split; [done|]. rewrite Er in *.
    split; [rewrite (advance_advance cur_space) by (done || lia); f_equal; lia|].
    replace (Z.to_nat (uio_resid u)) with (1 + Z.to_nat (uio_resid u - 1))%nat by lia.
    rewrite uio_data_app by apply Hw. rewrite Ed, fmap_app, concat_app. simpl. rewrite app_nil_r.
    replace (crlf b) with ((if b =? LF then [CR] else []) ++ [b]); [by eapply shows_trans|].
    unfold crlf. destruct (Z.eqb_spec b LF) as [->|]; done.
Qed.

(** A key as a program reads it, and the line it gets: up to [n] of them. *)
Definition key (k : Z) : Z := (if s8 k =? CR then LF else s8 k) mod 256.

Fixpoint typed_line (n : nat) (ks : list Z) : list Z :=
  match n, ks with
  | S n, k :: ks => key k :: if key k =? LF then [] else typed_line n ks
  | _, _ => []
  end.

(** The reader has all it waits for. *)
Fixpoint enough (n : nat) (ks : list Z) : bool :=
  match n, ks with
  | O, _ => true
  | S _, [] => false
  | S n, k :: ks => (key k =? LF) || enough n ks
  end.

Lemma typed_line_length n ks : (length (typed_line n ks) <= n)%nat.
Proof. revert ks. induction n as [|n IH]; intros [|k ks]; simpl; try lia. destruct (key k =? LF); simpl; [lia|]. specialize (IH ks). lia. Qed.

(** Keys come slowly: after each the reader gets to look at it before the next. *)
Fixpoint slow (bursts : list (list Z)) : Prop :=
  match bursts with
  | [] => True
  | [] :: bs => slow bs
  | [_] :: [] :: bs => slow bs
  | [_] :: [] => True
  | _ => False
  end.

(** A thread may wait. *)
Definition may_wait c : Prop := con_ok c /\ con_in_interrupt c = false /\ con_spl c = 0.

(** So far the keys [h] have been struck, and [n] been read. *)
Definition struck (h : list Z) (n : nat) c : Prop :=
  may_wait c /\ cs_rsem c = Z.of_nat (length h) - Z.of_nat n /\ (n <= length h)%nat /\
  (h <> [] -> last h = Some (cs_gotchar c)).

(** Nobody has struck a key that was not read. *)
Definition reading c : Prop := may_wait c /\ cs_rsem c = 0.

Lemma con_inputs_wp h n c b :
  struck h n c ->
  wp (con_inputs b) c (fun _ c' => struck (h ++ b) n c' /\ con_keys c' = con_keys c /\ con_dev c' = con_dev c).
Proof.
  revert h c. induction b as [|k b IH]; intros h c Hs; cbn [con_inputs].
  { wp_step. by rewrite app_nil_r. }
  unfold con_input. wp_steps. cbv beta. eapply wp_mono; [apply (IH (h ++ [k]))|].
  - destruct Hs as (Hw & Hr & Hn & _). split; [exact Hw|]. split_and!.
    + simpl. rewrite length_app, Hr. simpl. lia.
    + rewrite length_app. lia.
    + intros _. by rewrite last_snoc.
  - intros [] c' (Hs' & Hk & Hd). by rewrite <- app_assoc in Hs'.
Qed.

(** A burst. *)
Lemma interrupts_wp h n c :
  struck h n c ->
  wp interrupts c (fun _ c' => struck (h ++ default [] (head (con_keys c))) n c' /\
    con_keys c' = tail (con_keys c) /\ con_dev c' = con_dev c).
Proof.
  intros Hs. unfold interrupts. wp_step. wp_step. destruct (con_keys c) as [|b bs] eqn:Ek.
  { wp_step. simpl. by rewrite app_nil_r. }
  wp_step. wp_step. eapply wp_mono; [apply con_inputs_wp|]; [by apply Hs|]. by intros [] c' (? & ? & ?).
Qed.

Lemma sleep_rsem_wp bursts h n c :
  struck h n c -> con_keys c = bursts -> (n < length (h ++ concat bursts))%nat ->
  wp (sleep_rsem bursts) c (fun _ c' => exists h', struck h' (S n) c' /\ con_dev c' = con_dev c /\
    h' ++ concat (con_keys c') = h ++ concat bursts /\
    ((n < length h)%nat -> h' = h /\ con_keys c' = bursts) /\
    (slow bursts -> n = length h -> exists k, h' = h ++ [k] /\ default [] (head (con_keys c')) = [] /\ slow (con_keys c'))).
Proof.
  revert h c. induction bursts as [|b bs IH]; intros h c Hs Hk Hn; cbn [sleep_rsem];
    pose proof Hs as (Hw & Hr & Hle & Hl); wp_step; wp_step;
    (destruct (Z.eqb_spec (cs_rsem c) 0) as [E|E]; [|wp_step; exists h;
       (split; [split; [exact Hw|]; split_and!; [simpl; lia|lia|done]|]);
       split_and!; [done|by cbn; rewrite Hk|done|intros; lia]]).
  { simpl in Hn. rewrite app_nil_r in Hn. lia. }
  wp_step. eapply wp_mono; [by apply (interrupts_wp h n)|]. rewrite Hk. intros [] c1 (Hs1 & Hk1 & Hd1). simpl in Hs1, Hk1.
  eapply wp_mono; [apply (IH (h ++ b)); [done | done | by rewrite <- app_assoc]|].
  intros [] c' (h' & Hs' & Hd' & Hf' & Hp' & Hsl'). exists h'. split_and!; [done | congruence | by rewrite Hf', <- app_assoc | lia |].
  intros Hslow Hnh. destruct b as [|k b].
  - rewrite app_nil_r in Hsl'. destruct (Hsl' Hslow Hnh) as (k & -> & ? & ?). by exists k.
  - destruct b as [|k' b]; [|done]. destruct Hp' as [-> Hkk]; [rewrite length_app; simpl; lia|].
    exists k. rewrite Hkk. by destruct bs as [|[|? ?] bs].
Qed.

Lemma slow_cons b bs : slow (b :: bs) -> b = [] /\ slow bs \/ exists k, b = [k] /\ default [] (head bs) = [] /\ slow bs.
Proof. destruct b as [|k [|? ?]]; [by left | right; exists k; by destruct bs as [|[|? ?] bs] | done]. Qed.

(** The key that is read is the last one that has been struck, if at least as
    many have been struck as are read; if they come slowly it is the next. *)
Lemma getch_wp h n c :
  struck h n c -> (n < length (h ++ concat (con_keys c)))%nat ->
  wp getch c (fun ch c' => exists h', struck h' (S n) c' /\ last h' = Some ch /\ con_dev c' = con_dev c /\
    h' ++ concat (con_keys c') = h ++ concat (con_keys c) /\ (length h <= length h')%nat /\
    (slow (con_keys c) -> n = length h -> length h' = S n /\ slow (con_keys c'))).
Proof.
  intros Hs Hn. pose proof Hs as ((Hc & Hi & Hsp) & _).
  unfold getch, getch_intr, P_rsem. wp_step. wp_step. destruct Hc as (Hc & Hl & Hw). rewrite Hc, Hi, Hsp.
  wp_step. wp_step. wp_step. wp_step. wp_step. wp_step.
  eapply wp_mono; [by apply (interrupts_wp h n)|]. intros [] c1 (Hs1 & Hk1 & Hd1).
  assert (Hf1 : (h ++ default [] (head (con_keys c))) ++ concat (con_keys c1) = h ++ concat (con_keys c)).
  { rewrite Hk1, <- app_assoc. by destruct (con_keys c). }
  set (h1 := h ++ default [] (head (con_keys c))) in *.
  wp_step. wp_step. eapply wp_mono; [apply (sleep_rsem_wp _ h1 n); [done | done | by rewrite Hf1]|].
  intros [] c2 (h2 & Hs2 & Hd2 & Hf2 & Hp2 & Hsl2).
  wp_step. eapply wp_mono; [by apply (interrupts_wp h2 (S n))|]. intros [] c3 (Hs3 & Hk3 & Hd3).
  wp_step. exists (h2 ++ default [] (head (con_keys c2))).
  assert (Hne : h2 ++ default [] (head (con_keys c2)) <> []).
  { destruct Hs3 as (_ & _ & Hle & _). intros E. rewrite E in Hle. simpl in Hle. lia. }
  assert (Hf3 : (h2 ++ default [] (head (con_keys c2))) ++ concat (con_keys c3) = h ++ concat (con_keys c)).
  { rewrite Hk3, <- app_assoc, <- Hf1, <- Hf2. by destruct (con_keys c2). }
  assert (Hlen : (length h1 <= length h2)%nat).
  { destruct (decide (n < length h1)%nat) as [Hlt|Hge]; [by destruct (Hp2 Hlt) as [-> _]|].
    destruct Hs2 as (_ & _ & Hle & _). lia. }
  split_and!; [done | by apply Hs3 | congruence | done | unfold h1 in Hlen; rewrite ?length_app in *; lia |].
  intros Hslow Hnh. destruct (con_keys c) as [|b bs] eqn:Ek.
  - exfalso. simpl in Hn. rewrite app_nil_r in Hn. lia.
  - simpl in Hk1. destruct (slow_cons b bs Hslow) as [[-> Hbs]|(k & -> & Hh & Hbs)].
    + subst h1. simpl in *. rewrite app_nil_r in *. rewrite Hk1 in Hsl2.
      destruct (Hsl2 Hbs Hnh) as (k & -> & E & Hsl). rewrite E, app_nil_r, Hk3, length_app. simpl.
      split; [lia|]. by destruct (con_keys c2) as [|[|? ?] ?].
    + subst h1. simpl in *. destruct Hp2 as [-> Hkk]; [rewrite length_app; simpl; lia|].
      rewrite Hkk, Hk1, Hh, app_nil_r, Hk3, Hkk, Hk1, length_app. simpl. split; [lia|].
      by destruct bs as [|[|? ?] bs].
Qed.

Lemma reading_struck c : reading c -> struck [] 0 c.
Proof. intros [Hw Hr]. split; [exact Hw|]. by rewrite Hr. Qed.

Lemma struck_reading h n c : struck h n c -> n = length h -> reading c.
Proof. intros (Hw & Hr & _) ->. split; [done | lia]. Qed.

Lemma key_byte k : byte_ok (key k).
Proof. unfold byte_ok, key. apply Z.mod_pos_bound. lia. Qed.

(** The byte that is handed over, and whether it ends the line. *)
Lemma read_byte u k :
  uio_wf cur_space u -> uio_rw u = UIO_READ -> uio_access u (uio_resid u) -> 0 < uio_resid u ->
  let x := if s8 k =? CR then LF else s8 k in
  (x =? LF) = (key k =? LF) /\
  uiomove cur_space [x mod 256] 0 1 u = Ret (0, [key k], uio_fill [key k] u) /\
  uio_wf cur_space (uio_fill [key k] u) /\ uio_rw (uio_fill [key k] u) = UIO_READ /\
  uio_resid (uio_fill [key k] u) = uio_resid u - 1 /\
  uio_access (uio_fill [key k] u) (uio_resid u - 1).
Proof.
  intros Hw Hrw Hac Hr x. change (x mod 256) with (key k).
  assert (H1 : Z.of_nat (length [key k]) <= uio_resid u) by (simpl; lia).
  destruct (uio_fill_fields cur_space u [key k] Hw H1) as (_ & Er & _ & _ & Erw). simpl length in Er.
  split_and!.
  - assert (Hx : -128 <= x < 128).
    { unfold x, LF, s8. pose proof (Z.mod_pos_bound k 256). destruct (_ =? CR); [lia|]. destruct (Z.ltb_spec (k mod 256) 128); lia. }
    unfold key. fold x. unfold LF. destruct (Z.eqb_spec x 10) as [->|]; [done|]. symmetry. apply Z.eqb_neq.
    Z.to_euclidean_division_equations. lia.
  - rewrite (uiomove_spec cur_space); [|done|lia|eapply uio_access_le; [exact Hac|lia]|lia|simpl; lia]. by rewrite Hrw.
  - apply uio_fill_wf; [done|simpl; lia|by apply Forall_singleton, key_byte].
  - by rewrite Erw.
  - lia.
  - apply (uio_access_fill cur_space); [done| |done].
    by replace (Z.of_nat (length [key k]) + (uio_resid u - 1)) with (uio_resid u) by (simpl; lia).
Qed.

(** The characters [chs] are read of the keys [flat], from the [n]th read on:
    each is one of the keys, no earlier than the one before and, since a read
    takes a key that has been struck, at or behind its own place. *)
Inductive heard (flat : list Z) : nat -> nat -> list Z -> Prop :=
  | heard_nil n i : heard flat n i []
  | heard_cons n i m x chs :
      (i <= m)%nat -> (n <= m)%nat -> flat !! m = Some x -> heard flat (S n) m chs -> heard flat n i (x :: chs).

(** Nothing behind the end of the line, and all of it up to there or up to [n]. *)
Fixpoint whole (n : nat) (chs : list Z) : Prop :=
  match n, chs with
  | O, [] => True
  | S n, x :: chs => if key x =? LF then chs = [] else whole n chs
  | _, _ => False
  end.

Lemma whole_length n chs : whole n chs -> (length chs <= n)%nat.
Proof.
  revert chs. induction n as [|n IH]; intros [|x chs] Hw; simpl in *; try lia; try done.
  destruct (key x =? LF); [subst; simpl; lia|]. specialize (IH _ Hw). lia.
Qed.

Lemma last_lookup_length {A} (l : list A) x : last l = Some x -> l !! (length l - 1)%nat = Some x.
Proof. rewrite last_lookup. intros E. by replace (length l - 1)%nat with (pred (length l)) by lia. Qed.

Lemma con_read_any fuel c ch u h n :
  struck h n c -> uio_wf cur_space u -> uio_rw u = UIO_READ -> uio_access u (uio_resid u) -> (Z.to_nat (uio_resid u) < fuel)%nat ->
  let flat := h ++ concat (con_keys c) in
  (n + Z.to_nat (uio_resid u) <= length flat)%nat ->
  wp (con_loop fuel ch u) c (fun '(r, u') c' => exists chs h',
    r = 0 /\ u' = uio_fill (key <$> chs) u /\ struck h' (n + length chs) c' /\ con_dev c' = con_dev c /\
    h' ++ concat (con_keys c') = flat /\ whole (Z.to_nat (uio_resid u)) chs /\ heard flat n (length h - 1) chs).
Proof.
  revert c ch u h n. induction fuel as [|fuel IH]; intros c ch u h n Hs Hw Hrw Hac Hf flat Hen; [lia|]. cbn [con_loop].
  pose proof Hw as (_ & Hres & _). destruct (Z.gtb_spec (uio_resid u) 0) as [Hr|Hr].
  2: { wp_step. exists [], h. assert (E0 : uio_resid u = 0) by lia. rewrite E0. simpl.
       rewrite (uio_fill_nil cur_space), Nat.add_0_r by done. split_and!; try done. constructor. }
  assert (E : is_read u = true) by (unfold is_read; by apply bool_decide_true). rewrite E.
  wp_step. eapply wp_mono; [apply (getch_wp h n); [done | fold flat; lia]|].
  intros k c1 (h1 & Hs1 & Hk1 & Hd1 & Hf1 & Hl1 & _).
  destruct (read_byte u k Hw Hrw Hac Hr) as (Hx & Hmv & Hw1 & Hrw1 & Er & Hac1).
  wp_step. eapply wp_lift_Ret; [exact Hmv|]. cbv beta iota. change (negb (0 =? 0)) with false. cbv iota. rewrite Hx.
  assert (Hh : forall chs, heard flat (S n) (length h1 - 1) chs -> heard flat n (length h - 1) (k :: chs)).
  { intros chs Hc. apply (heard_cons _ _ _ (length h1 - 1)); [lia | destruct Hs1 as (_ & _ & ? & _); lia | | done].
    unfold flat. rewrite <- Hf1. apply lookup_app_l_Some. by apply last_lookup_length. }
  assert (Hn : Z.to_nat (uio_resid u) = S (Z.to_nat (uio_resid u - 1))) by lia. rewrite Hn in *.
  destruct (key k =? LF) eqn:Ek.
  - wp_step. exists [k], h1. simpl. rewrite Ek, Nat.add_1_r. split_and!; try done. apply Hh. constructor.
  - eapply wp_mono; [apply (IH c1 _ (uio_fill [key k] u) h1 (S n)); try done; [by rewrite Er | lia | rewrite Hf1; fold flat; lia]|].
    rewrite Hf1, Er. fold flat. intros [r u'] c' (chs & h' & -> & -> & Hs' & Hd' & Hf' & Hwh & Hhd).
    exists (k :: chs), h'. simpl. rewrite Ek, Nat.add_succ_r. split_and!; try done; [|congruence|by apply Hh].
    apply whole_length in Hwh.
    rewrite (uio_fill_app cur_space); [done | done | simpl; rewrite length_fmap; lia | by apply Forall_singleton, key_byte].
Qed.

Lemma con_read_loop fuel c ch u h :
  struck h (length h) c -> slow (con_keys c) ->
  uio_wf cur_space u -> uio_rw u = UIO_READ -> uio_access u (uio_resid u) -> (Z.to_nat (uio_resid u) < fuel)%nat ->
  let ks := concat (con_keys c) in enough (Z.to_nat (uio_resid u)) ks = true ->
  wp (con_loop fuel ch u) c (fun '(r, u') c' => let l := typed_line (Z.to_nat (uio_resid u)) ks in
    r = 0 /\ u' = uio_fill l u /\ reading c' /\ slow (con_keys c') /\ concat (con_keys c') = drop (length l) ks /\
    con_dev c' = con_dev c).
Proof.
  revert c ch u h. induction fuel as [|fuel IH]; intros c ch u h Hs Hsl Hw Hrw Hac Hf ks Hen; [lia|]. cbn [con_loop].
  pose proof Hw as (_ & Hres & _). destruct (Z.gtb_spec (uio_resid u) 0) as [Hr|Hr].
  2: { wp_step. assert (E0 : uio_resid u = 0) by lia. rewrite E0. simpl. rewrite (uio_fill_nil cur_space) by done.
       split_and!; try done; by eapply struck_reading. }
  assert (E : is_read u = true) by (unfold is_read; by apply bool_decide_true). rewrite E.
  assert (Hn : Z.to_nat (uio_resid u) = S (Z.to_nat (uio_resid u - 1))) by lia. rewrite Hn in *.
  destruct ks as [|k rest] eqn:Eks; [done|]. cbn [typed_line enough] in *. subst ks.
  wp_step. eapply wp_mono; [apply (getch_wp h (length h)); [done | rewrite Eks, length_app; simpl; lia]|].
  intros k' c1 (h1 & Hs1 & Hk1 & Hd1 & Hf1 & Hl1 & Hsl1). destruct (Hsl1 Hsl eq_refl) as [Hlen Hslow].
  assert (h1 = h ++ [k] /\ concat (con_keys c1) = rest) as [-> Hrest].
  { rewrite Eks in Hf1. change (k :: rest) with ([k] ++ rest) in Hf1. rewrite app_assoc in Hf1.
    apply app_inj_1 in Hf1 as [-> ->]; [done|]. rewrite length_app. simpl. lia. }
  rewrite last_snoc in Hk1. simplify_eq Hk1; intros <-. clear Hk1.
  destruct (read_byte u k Hw Hrw Hac Hr) as (Hx & Hmv & Hw1 & Hrw1 & Er & Hac1).
  wp_step. eapply wp_lift_Ret; [exact Hmv|]. cbv beta iota. change (negb (0 =? 0)) with false. cbv iota. rewrite Hx.
  destruct (key k =? LF); [wp_step; split_and!; try done; by eapply struck_reading|].
  rewrite <- Hlen in Hs1.
  eapply wp_mono; [apply (IH c1 _ (uio_fill [key k] u) (h ++ [k])); try done; [by rewrite Er | lia | by rewrite Er, Hrest]|].
  rewrite Er, Hrest. intros [r u'] c' (-> & -> & Hc' & Hsl' & Hk' & Hd').
  pose proof (typed_line_length (Z.to_nat (uio_resid u - 1)) rest).
  split_and!; try done; [|congruence].
  rewrite (uio_fill_app cur_space); [done | done | simpl; lia | by apply Forall_singleton, key_byte].
Qed.

(** ** Before there is a console *)

Lemma delayed_wp c chs :
  the_console c = false -> Z.of_nat (length (delayed_outbuf c)) + Z.of_nat (length chs) <= DELAYBUFSIZE ->
  wp (putchs chs) c (fun _ c' => c' = set_delayed (delayed_outbuf c ++ (s8 <$> chs)) c).
Proof.
  revert c. induction chs as [|ch chs IH]; intros c Hc Hl; cbn [putchs].
  { wp_step. rewrite app_nil_r. by destruct c. }
  simpl in Hl. wp_step. unfold putch, putch_delayed. wp_step. wp_step. rewrite Hc. cbn [negb]. wp_step. wp_step. wp_step.
  wp_step. wp_step. eapply wp_mono; [apply IH; simpl; [done|rewrite length_app; simpl; lia]|].
  intros [] c' ->. unfold set_delayed. simpl. by rewrite <- app_assoc.
Qed.

Lemma putchs_wp c chs : con_ok c -> wp (putchs chs) c (fun _ c' => shows c ((fun ch => ch mod 256) <$> chs) c').
Proof.
  revert c. induction chs as [|ch chs IH]; intros c Hc; cbn [putchs]; [wp_step; by apply shows_refl|].
  wp_step. eapply wp_mono; [by apply putch_wp|]. intros [] c1 H1. eapply wp_mono; [apply IH, H1|].
  intros [] c2 H2. exact (shows_trans _ _ _ _ _ H1 H2).
Qed.

(** ** The theorems *)

(** A write to the console puts all of the caller's bytes on the screen, in
    order, with a carriage return before each line feed, whether the caller
    may wait for the device or not. *)
Theorem console_prints c u :
  con_ok c -> uio_wf cur_space u -> uio_rw u = UIO_WRITE -> uio_access u (uio_resid u) ->
  wp (con_io u) c (fun '(r, u') c' => r = 0 /\ u' = advance (uio_resid u) u /\
    shows c (concat (crlf <$> uio_data u (Z.to_nat (uio_resid u)))) c').
Proof. intros Hc Hw Hrw Hac. unfold con_io. wp_step. wp_step. wp_step. wp_step; [apply Hc|]. apply con_write_loop; done || lia. Qed.

(** C29: a read from the console hands over keys that are struck, up to the end of
    the line or of the buffer, carriage returns as line feeds.  If the reader
    gets to see each key before the next is struck, these are the keys in
    their order, and the keys after the line are left for the next read.
    However fast the keys come, and at whatever moments, the read returns once
    as many have been struck as the buffer holds; every character is then one
    of the keys, none comes before an earlier one's, and the [n]th is the
    [n]th key or, when keys came too fast, a later one. *)
Theorem console_reads_line c u :
  reading c -> uio_wf cur_space u -> uio_rw u = UIO_READ -> uio_access u (uio_resid u) ->
  let n := Z.to_nat (uio_resid u) in
  let ks := concat (con_keys c) in
  (slow (con_keys c) -> enough n ks = true ->
   wp (con_io u) c (fun '(r, u') c' => let l := typed_line n ks in
     r = 0 /\ u' = uio_fill l u /\ reading c' /\ slow (con_keys c') /\ concat (con_keys c') = drop (length l) ks /\
     con_dev c' = con_dev c)) /\
  ((n <= length ks)%nat ->
   wp (con_io u) c (fun '(r, u') c' => exists chs h,
     r = 0 /\ u' = uio_fill (key <$> chs) u /\ whole n chs /\ heard ks 0 0 chs /\
     h ++ concat (con_keys c') = ks /\ struck h (length chs) c' /\ con_dev c' = con_dev c)).
Proof.
  intros Hc Hw Hrw Hac n ks. pose proof (reading_struck _ Hc) as Hs. destruct Hc as [((? & ? & ?) & ?) ?].
  split; intros; unfold con_io; wp_step; wp_step; wp_step; (wp_step; [done|]).
  - apply (con_read_loop _ c 0 u []); done || lia.
  - eapply wp_mono; [apply (con_read_any _ c 0 u [] 0); done || lia|].
    intros [r u'] c' (chs & h & ? & ? & ? & ? & ? & ? & ?). by exists chs, h.
Qed.

Lemma console_up_wp c :
  wp console_up c (fun _ c' => con_ok c' /\ delayed_outbuf c' = [] /\
    printed (con_dev c') = printed (con_dev c) ++ ((fun ch => ch mod 256) <$> delayed_outbuf c)).
Proof.
  unfold console_up, flush_delay_buf. wp_step. wp_step. wp_step. wp_step. wp_step.
  eapply wp_mono; [apply putchs_wp; by split_and!|]. intros [] c2 (Hok & E & _). wp_step. by split; [apply Hok|].
Qed.

(** What is printed before there is a console comes out when there is one,
    before anything else. *)
Theorem delayed_output_comes_out c chs :
  the_console c = false -> delayed_outbuf c = [] -> Z.of_nat (length chs) <= DELAYBUFSIZE ->
  wp (let* _ := putchs chs in console_up) c (fun _ c' =>
    con_ok c' /\ delayed_outbuf c' = [] /\ printed (con_dev c') = printed (con_dev c) ++ ((fun ch => ch mod 256) <$> chs)).
Proof.
  intros Hc Hd Hl. wp_step. eapply wp_mono; [apply delayed_wp; [done|rewrite Hd; simpl; lia]|]. intros [] c1 ->. rewrite Hd.
  eapply wp_mono; [apply console_up_wp|]. intros [] c2 (Hok & Hb & E). split_and!; [apply Hok..|done|].
  rewrite E. simpl. f_equal. rewrite <- list_fmap_compose. apply list_fmap_ext. intros ? ch _. apply s8_mod.
Qed.

(** A second key that is struck before the first has been read is read twice,
    and the first never: the semaphore counts keys, but there is room for one
    character. *)
Theorem fast_key_read_twice c a b :
  reading c -> con_keys c = [] ->
  exists c', (let* _ := con_input a in
              let* _ := con_input b in
              let* x := getch in
              let* y := getch in
              ret (x, y)) c = Ret (b, b, c').
Proof.
  intros (((Hc & Hl & _) & Hi & Hs) & Hr) Hk. destruct c. simpl in *. subst. eexists. reflexivity.
Qed.
End Spec.

(** ** A screen *)
Module Screen.
#[global] Instance dev : ConDev (list Z) := {
  cs_send ch d := d ++ [ch mod 256];
  cs_sendpolled ch d := d ++ [ch mod 256];
}.
#[global] Instance laws : ConLaws (list Z).
Proof. by refine {| printed := fun d => d |}. Defined.
#[local] Instance space : CurSpace := 1.

Definition terminal (spl : Z) (keys : list (list Z)) : console (list Z) := mkCon [62] true true [] 0 1 0 false spl keys.

(** "a", a line feed and a byte that is negative as a [char]. *)
Lemma console_prints_witness :
  let u := mk_kuio [97; 10; 200] 3 0 UIO_WRITE in
  wp (con_io u) (terminal 15 []) (fun '(r, u') c' => r = 0 /\ u' = advance 3 u /\ shows (terminal 15 []) [97; 13; 10; 200] c') /\
  match con_io u (terminal 0 []) with
  | Ret (r, _, c') => r = 0 /\ con_dev c' = [62; 97; 13; 10; 200]
  | Stop _ => False
  end.
Proof.
  split; [|by vm_compute].
  refine (console_prints (terminal 15 []) (mk_kuio [97; 10; 200] 3 0 UIO_WRITE) _ _ _ _); try done.
  unfold uio_wf, mk_kuio, byte_ok. simpl. split_and!; try lia; try done. repeat constructor; lia.
Defined.

(** A line of two keys and one key more, struck slowly, and struck all at once:
    then the last key is what every read gets. *)
Lemma console_reads_line_witness :
  let u := mk_kuio [0; 0; 0; 0] 4 0 UIO_READ in
  let c := terminal 0 [[104]; []; [13]; []; []; [105]] in
  wp (con_io u) c (fun '(r, u') c' =>
    r = 0 /\ u' = uio_fill [104; 10] u /\ reading c' /\ slow (con_keys c') /\ concat (con_keys c') = [105] /\ con_dev c' = [62]) /\
  wp (con_io u) (terminal 0 [[104; 13]; [105; 106]]) (fun '(r, u') c' => exists chs h,
    r = 0 /\ u' = uio_fill (key <$> chs) u /\ whole 4 chs /\ heard [104; 13; 105; 106] 0 0 chs /\
    h ++ concat (con_keys c') = [104; 13; 105; 106] /\ struck h (length chs) c' /\ con_dev c' = [62]) /\
  match con_io u (terminal 0 [[104; 13]; [105; 106]]) with
  | Ret (_, u', _) => u' = uio_fill [106; 106; 106; 106] u
  | Stop _ => False
  end.
Proof.
  assert (Hu : uio_wf cur_space (mk_kuio [0; 0; 0; 0] 4 0 UIO_READ)).
  { unfold uio_wf, mk_kuio. simpl. split_and!; try lia; try done. apply (zeros_bytes 4). }
  split; [|split; [|by vm_compute]].
  - by refine (proj1 (console_reads_line (terminal 0 [[104]; []; [13]; []; []; [105]])
      (mk_kuio [0; 0; 0; 0] 4 0 UIO_READ) _ Hu _ _) _ _).
  - refine (proj2 (console_reads_line (terminal 0 [[104; 13]; [105; 106]])
      (mk_kuio [0; 0; 0; 0] 4 0 UIO_READ) _ Hu _ _) _); done.
Defined.
End Screen.
