(* ===== verification/Hello.v ===== *)
(** * A kernel that says hello

    The parts together, run: the heap, the VFS layer with its null device, the
    console, the file table of a thread and a system call on its standard
    output. *)

From S2P Require Import Prelude.
From S2P Require Import Bump.
From S2P Require Import Ram.
From S2P Require Import Bytes.
From S2P Require Import Copyinout.
From S2P Require Import Uio.
From S2P Require Import Thread.
From S2P Require Import Vnode.
From S2P Require Import Sfs.
From S2P Require Import SfsOps.
From S2P Require Import Vfs.
From S2P Require Import VfsRefs.
From S2P Require Import Console.
From S2P Require Import ConsoleSpec.
From S2P Require Import Filetable.
From S2P Require Import FtSpec.
From S2P Require Import Syscall.

Module Kernel.
Import ConsoleSpec.Screen.

(** A world without file systems: its vnodes are those of devices. *)
Record world := mkWorld {
  w_con : console (list Z);
  w_vn : gmap Z (vnode unit);
  w_heap : bump;
}.

Definition on_bump {A} (m : M bump A) : M world A := fun w =>
  match m (w_heap w) with
  | Ret (a, h) => Ret (a, mkWorld (w_con w) (w_vn w) h)
  | Stop e => Stop e
  end.

#[global] Instance alloc : Allocator world := {
  kmalloc n := on_bump (kmalloc n);
  kfree p := on_bump (kfree p);
}.
#[global] Instance no_fs_ops : VnodeOps world := {
  vop_reclaim _ := halt Fault;
  vop_close _ := halt Fault;
}.
#[local] Instance space : CurSpace := 1.





















End Kernel.
