(* ===== verification/Tlb.v ===== *)
(** * The translation buffer ([kern/vm/vm_tlb.c])

    [struct tlbfreelist] with its array of nodes, the static [next_victim] of
    [tlb_get_rr_victim] and the 64 slots of the processor's translation buffer
    are the record [tlbsys].  A pointer to a node is its index in the array.
    The four processor operations are those of [machine/tlb.h]: a slot holds
    the pair of registers ENTRYHI and ENTRYLO, a write takes the slot number
    from the six-bit field of the INDEX register, and a probe answers the slot
    whose virtual page matches, or -1.  [splhigh] and [splx] bracket
    straight-line code here and leave the level as it was.

    [tlb_rep t l m] says that the free list runs through the nodes [l] and that
    the valid slots are the finite map [m] from pages to low words. *)

From S2P Require Import Prelude.
From S2P Require Import Ram.
From S2P Require Import KheapProof.

Definition NUM_TLB : Z := 64.
Definition TLBHI_VPAGE : Z := 0xfffff000.
Definition TLBLO_DIRTY : Z := 0x400.
Definition TLBLO_VALID : Z := 0x200.
Definition TLBHI_INVALID (entryno : Z) : Z := u32 (Z.shiftl (0x80000 + entryno) 12).
Definition TLBLO_INVALID : Z := 0.

Record tlbfreenode := mkTlbnode {
  tn_id : Z;
  tn_next : option Z;
}.

Record tlbsys := mkTlbsys {
  tlb_slots : list (Z * Z);
  tlbfreenodes : list tlbfreenode;
  tlbnextfree : option Z;
  next_victim : Z;
}.

Definition set_slots (e : list (Z * Z)) (t : tlbsys) : tlbsys :=
  mkTlbsys e (tlbfreenodes t) (tlbnextfree t) (next_victim t).
Definition set_nodes (n : list tlbfreenode) (t : tlbsys) : tlbsys :=
  mkTlbsys (tlb_slots t) n (tlbnextfree t) (next_victim t).
Definition set_nextfree (p : option Z) (t : tlbsys) : tlbsys :=
  mkTlbsys (tlb_slots t) (tlbfreenodes t) p (next_victim t).

(** ** The processor *)

Definition TLB_Write (hi lo index : Z) : M tlbsys unit :=
  modify (fun t => set_slots (<[Z.to_nat (index mod NUM_TLB) := (hi, lo)]> (tlb_slots t)) t).

Definition vpage (hi : Z) : Z := Z.land hi TLBHI_VPAGE.

Fixpoint probe_from (i : Z) (hi : Z) (slots : list (Z * Z)) : Z :=
  match slots with
  | [] => -1
  | (h, _) :: rest => if vpage h =? vpage hi then i else probe_from (i + 1) hi rest
  end.

Definition TLB_Probe (hi lo : Z) : M tlbsys Z :=
  let* t := get in ret (probe_from 0 hi (tlb_slots t)).

(** What the processor does with an address of page [v]: the low word of the
    matching slot, if it is valid. *)
Definition translate (t : tlbsys) (v : Z) : option Z :=
  match tlb_slots t !! Z.to_nat (probe_from 0 v (tlb_slots t)) with
  | Some (h, lo) =>
      if (vpage h =? vpage v) && negb (Z.land lo TLBLO_VALID =? 0) then Some lo else None
  | None => None
  end.

(** ** The operations *)

Definition wr_node (i : Z) (n : tlbfreenode) : M tlbsys unit :=
  let* t := get in
  let* l := lift (wr (tlbfreenodes t) i n) in
  put (set_nodes l t).

Definition rd_node (i : Z) : M tlbsys tlbfreenode :=
  let* t := get in lift (rd (tlbfreenodes t) i).

(** [for (i = 0; i < NUM_TLB - 1; i++)], with [n] iterations left. *)
Fixpoint init_nodes (n : nat) (i : Z) : M tlbsys unit :=
  match n with
  | O => ret tt
  | S n =>
      let* _ := wr_node i (mkTlbnode i (Some (i + 1))) in
      init_nodes n (i + 1)
  end.

Definition tlb_init_free_list : M tlbsys unit :=
  let* _ := modify (set_nextfree (Some 0)) in
  let* _ := init_nodes (Z.to_nat (NUM_TLB - 1)) 0 in
  wr_node (NUM_TLB - 1) (mkTlbnode NUM_TLB None).

Definition tlb_get_rr_victim : M tlbsys Z :=
  let* t := get in
  let victim := next_victim t in
  let* _ := put (mkTlbsys (tlb_slots t) (tlbfreenodes t) (tlbnextfree t)
                   ((next_victim t + 1) mod NUM_TLB)) in
  ret victim.

Definition tlb_get_free_entry : M tlbsys Z :=
  let* t := get in
  match tlbnextfree t with
  | None => ret (-1)
  | Some p =>
      let* node := rd_node p in
      let victim := tn_id node in
      let* _ := modify (set_nextfree (tn_next node)) in
      let* v := rd_node victim in
      let* _ := wr_node victim (mkTlbnode (tn_id v) None) in
      ret victim
  end.

(** [update_stats] is not used by the code. *)
Definition tlb_add_entry (v p dirty update_stats : Z) : M tlbsys unit :=
  let* _ := kassert (Z.land v PAGE_FRAME =? v) in
  let* _ := kassert (Z.land p PAGE_FRAME =? p) in
  let* tlb_entry := tlb_get_free_entry in
  let* tlb_entry := if tlb_entry =? -1 then tlb_get_rr_victim else ret tlb_entry in
  let elo := Z.lor p TLBLO_VALID in
  let elo := if negb (dirty =? 0) then Z.lor elo TLBLO_DIRTY else elo in
  TLB_Write v elo tlb_entry.

Definition tlb_invalidate_vaddr (v : Z) : M tlbsys unit :=
  let* _ := kassert (Z.land v PAGE_FRAME =? v) in
  let* victim := TLB_Probe v 0 in
  if negb (victim =? -1) then
    let* _ := TLB_Write (TLBHI_INVALID victim) TLBLO_INVALID victim in
    let* t := get in
    let* n := rd_node victim in
    let* _ := wr_node victim (mkTlbnode (tn_id n) (tlbnextfree t)) in
    modify (set_nextfree (Some victim))
  else ret tt.

(** [for (i = 0; i < NUM_TLB; i++)], with [n] iterations left. *)
Fixpoint invalidate_slots (n : nat) (i : Z) : M tlbsys unit :=
  match n with
  | O => ret tt
  | S n =>
      let* _ := TLB_Write (TLBHI_INVALID i) TLBLO_INVALID i in
      invalidate_slots n (i + 1)
  end.

Definition tlb_context_switch : M tlbsys unit :=
  let* _ := tlb_init_free_list in
  invalidate_slots (Z.to_nat NUM_TLB) 0.

(** ** Lists of slots and nodes *)

Definition user_page (v : Z) : Prop := 0 <= v < 2 ^ 31 /\ v mod PAGE_SIZE = 0.

Lemma vpage_aligned v : 0 <= v < 2 ^ 32 -> v mod 4096 = 0 -> vpage v = v.
Proof.
  intros Hv Ha. unfold vpage. change TLBHI_VPAGE with PAGE_FRAME. rewrite land_frame by done.
  pose proof (Z.div_mod v 4096). lia.
Qed.

Lemma vpage_user v : user_page v -> vpage v = v.
Proof. intros [Hv Ha]. apply vpage_aligned; [lia | exact Ha]. Qed.

Lemma hi_invalid i : 0 <= i < NUM_TLB -> TLBHI_INVALID i = 0x80000000 + 4096 * i.
Proof.
  unfold NUM_TLB. intros Hi. unfold TLBHI_INVALID. rewrite Z.shiftl_mul_pow2 by lia.
  rewrite u32_small; lia.
Qed.

Lemma vpage_invalid i : 0 <= i < NUM_TLB -> vpage (TLBHI_INVALID i) = 0x80000000 + 4096 * i.
Proof.
  intros Hi. rewrite hi_invalid by done. unfold NUM_TLB in Hi. apply vpage_aligned; [lia|].
  rewrite Z.add_comm, (Z.mul_comm 4096), Z.add_mod, Z.mod_mul by lia. reflexivity.
Qed.

Lemma probe_hit slots i hi (k : nat) e :
  slots !! k = Some e -> vpage e.1 = vpage hi ->
  (forall j e', slots !! j = Some e' -> vpage e'.1 = vpage hi -> (k <= j)%nat) ->
  probe_from i hi slots = i + Z.of_nat k.
Proof.
  revert i k. induction slots as [|[h lo] slots IH]; intros i k Hk Hv Hmin; [done|]. simpl.
  destruct (Z.eqb_spec (vpage h) (vpage hi)) as [Heq|Hne].
  - specialize (Hmin 0%nat _ eq_refl Heq). lia.
  - destruct k as [|k]; [by simplify_eq/=|]. rewrite (IH (i + 1) k Hk Hv); [lia|].
    intros j e' Hj He. specialize (Hmin (S j) e' Hj He). lia.
Qed.

Lemma probe_miss slots i hi :
  (forall j e, slots !! j = Some e -> vpage e.1 <> vpage hi) -> probe_from i hi slots = -1.
Proof.
  revert i. induction slots as [|[h lo] slots IH]; intros i Hn; [done|]. simpl.
  destruct (Z.eqb_spec (vpage h) (vpage hi)) as [Heq|_]; [by destruct (Hn 0%nat (h, lo))|].
  apply IH. intros j e. apply (Hn (S j) e).
Qed.

(** The list of nodes a pointer leads to. *)
Fixpoint chain (nodes : list tlbfreenode) (p : option Z) (l : list Z) : Prop :=
  match l with
  | [] => p = None
  | i :: l => p = Some i /\ 0 <= i /\
      exists n, nodes !! Z.to_nat i = Some n /\ chain nodes (tn_next n) l
  end.

Lemma chain_insert nodes p l i n :
  0 <= i -> i ∉ l -> chain nodes p l -> chain (<[Z.to_nat i := n]> nodes) p l.
Proof.
  intros Hi. revert p. induction l as [|j l IH]; intros p Hni; [done|].
  rewrite not_elem_of_cons in Hni. destruct Hni as [Hne Hni]. intros (-> & Hj & n' & Hn' & Hc).
  split_and!; [done..|]. exists n'. rewrite list_lookup_insert_ne by lia. auto.
Qed.

(** ** The translation buffer as a finite map *)

Definition node_id (i : Z) : Z := if i =? 63 then 64 else i.

Record tlb_rep (t : tlbsys) (l : list Z) (m : gmap Z Z) : Prop := {
  tr_slots : length (tlb_slots t) = 64%nat;
  tr_nodes : length (tlbfreenodes t) = 64%nat;
  tr_ids i n : 0 <= i -> tlbfreenodes t !! Z.to_nat i = Some n -> tn_id n = node_id i;
  tr_chain : chain (tlbfreenodes t) (tlbnextfree t) l;
  tr_nodup : NoDup l;
  tr_last : exists l', l = l' ++ [63];
  tr_free i : i ∈ l -> 0 <= i < 64 /\
    tlb_slots t !! Z.to_nat i = Some (TLBHI_INVALID i, TLBLO_INVALID);
  tr_used i : 0 <= i < 64 -> i ∉ l ->
    exists v lo, tlb_slots t !! Z.to_nat i = Some (v, lo) /\ m !! v = Some lo;
  tr_map v lo : m !! v = Some lo ->
    user_page v /\ Z.land lo TLBLO_VALID <> 0 /\
    exists i, 0 <= i < 64 /\ (i ∉ l) /\ tlb_slots t !! Z.to_nat i = Some (v, lo);
  tr_inj (i j : nat) v lo lo' : tlb_slots t !! i = Some (v, lo) ->
    tlb_slots t !! j = Some (v, lo') -> i = j;
  tr_size : (size m + length l = 64)%nat;
}.

Section Rep.
Context {t : tlbsys} {l : list Z} {m : gmap Z Z} (R : tlb_rep t l m).

Lemma slot_lt (i : nat) e : tlb_slots t !! i = Some e -> (i < 64)%nat.
Proof. intros H. apply lookup_lt_Some in H. by rewrite (tr_slots _ _ _ R) in H. Qed.

(** A slot either is on the free list and holds an invalid page of its own, or
    holds an entry of the map. *)
Lemma slot_cases (i : nat) v lo :
  tlb_slots t !! i = Some (v, lo) ->
  ((Z.of_nat i ∈ l) /\ v = TLBHI_INVALID (Z.of_nat i) /\ lo = TLBLO_INVALID) \/
  ((Z.of_nat i ∉ l) /\ m !! v = Some lo).
Proof.
  intros H. pose proof (slot_lt _ _ H). destruct (decide ((Z.of_nat i) ∈ l)) as [Hl|Hl].
  - left. destruct (tr_free _ _ _ R _ Hl) as [_ Hf]. rewrite Nat2Z.id in Hf. by simplify_eq.
  - right. destruct (tr_used _ _ _ R (Z.of_nat i) ltac:(lia) Hl) as (v' & lo' & Hs & Hm).
    rewrite Nat2Z.id in Hs. by simplify_eq.
Qed.

Lemma slot_vpage (i : nat) e v :
  tlb_slots t !! i = Some e -> user_page v -> vpage e.1 = vpage v -> e.1 = v /\ m !! v = Some e.2.
Proof.
  intros Hi Hv He. destruct e as [h lo]. cbn [fst snd] in *. pose proof (slot_lt _ _ Hi).
  rewrite (vpage_user v Hv) in He.
  destruct (slot_cases i h lo Hi) as [(_ & -> & _)|[_ Hm]].
  - rewrite vpage_invalid in He by (unfold NUM_TLB; lia). destruct Hv. lia.
  - destruct (tr_map _ _ _ R _ _ Hm) as [Hu _]. rewrite (vpage_user h Hu) in He. by subst.
Qed.

Lemma probe_some v lo :
  m !! v = Some lo -> exists i : Z, probe_from 0 v (tlb_slots t) = i /\
    0 <= i < 64 /\ (i ∉ l) /\ tlb_slots t !! Z.to_nat i = Some (v, lo).
Proof.
  intros Hm. destruct (tr_map _ _ _ R _ _ Hm) as (Hu & _ & i & Hi & Hni & Hs).
  exists i. split; [|done]. rewrite (probe_hit _ 0 v (Z.to_nat i) (v, lo)); [lia|done|done|].
  intros j e' Hj He. destruct (slot_vpage j e' v Hj Hu He) as [He1 _]. destruct e' as [h lo'].
  cbn [fst] in He1. subst h. by rewrite (tr_inj _ _ _ R _ _ _ _ _ Hs Hj).
Qed.

Lemma probe_none v : user_page v -> m !! v = None -> probe_from 0 v (tlb_slots t) = -1.
Proof.
  intros Hu Hm. apply probe_miss. intros j e Hj He.
  destruct (slot_vpage j e v Hj Hu He). congruence.
Qed.

(** The processor translates the pages of the map, and those only. *)
Lemma translate_map v : user_page v -> translate t v = m !! v.
Proof.
  intros Hu. unfold translate. destruct (m !! v) as [lo|] eqn:Hm.
  - destruct (probe_some v lo Hm) as (i & -> & _ & _ & ->).
    destruct (tr_map _ _ _ R _ _ Hm) as (_ & Hv & _). rewrite Z.eqb_refl.
    destruct (Z.eqb_spec (Z.land lo TLBLO_VALID) 0); done.
  - rewrite (probe_none v Hu Hm). destruct (tlb_slots t !! _) as [[h lo]|] eqn:E; [|done].
    destruct (Z.eqb_spec (vpage h) (vpage v)) as [He|]; [|done].
    destruct (slot_vpage _ _ v E Hu He). congruence.
Qed.

Lemma rep_head i l' : l = i :: l' -> l' <> [] -> i <> 63.
Proof.
  intros -> Hne ->. destruct (tr_last _ _ _ R) as [l0 Hl].
  pose proof (tr_nodup _ _ _ R) as Hnd. destruct l0 as [|j l0]; simplify_eq/=.
  rewrite NoDup_cons in Hnd. destruct Hnd as [Hn _]. apply Hn. apply elem_of_app. right. by left.
Qed.
End Rep.

(** ** Emptying the buffer *)

Lemma init_nodes_spec n i t :
  0 <= i -> i + Z.of_nat n <= Z.of_nat (length (tlbfreenodes t)) ->
  exists nodes, init_nodes n i t = Ret (tt, set_nodes nodes t) /\
    length nodes = length (tlbfreenodes t) /\
    forall k, 0 <= k -> nodes !! Z.to_nat k =
      if (i <=? k) && (k <? i + Z.of_nat n) then Some (mkTlbnode k (Some (k + 1)))
      else tlbfreenodes t !! Z.to_nat k.
Proof.
  revert i t. induction n as [|n IH]; intros i t Hi Hn.
  - exists (tlbfreenodes t). split_and!; [by destruct t|done|]. intros k Hk.
    destruct (Z.leb_spec i k), (Z.ltb_spec k (i + Z.of_nat 0)); try lia; done.
  - set (t1 := set_nodes (<[Z.to_nat i := mkTlbnode i (Some (i + 1))]> (tlbfreenodes t)) t).
    destruct (IH (i + 1) t1) as (nodes & E & Hl & Hk); [lia|subst t1; simpl; rewrite length_insert; lia|].
    exists nodes. split_and!.
    + simpl. unfold wr_node. unfold bind at 1 2, get. rewrite wr_in by lia. exact E.
    + rewrite Hl. subst t1. simpl. apply length_insert.
    + intros k Hk0. rewrite (Hk k Hk0). subst t1. simpl tlbfreenodes.
      destruct (Z.leb_spec (i + 1) k), (Z.ltb_spec k (i + 1 + Z.of_nat n)),
        (Z.leb_spec i k), (Z.ltb_spec k (i + Z.of_nat (S n))); try lia; simpl; try done.
      * rewrite list_lookup_insert_ne by lia. done.
      * assert (k = i) as -> by lia. rewrite list_lookup_insert_eq by lia. done.
      * rewrite list_lookup_insert_ne by lia. done.
Qed.

Lemma invalidate_slots_spec n i t :
  0 <= i -> i + Z.of_nat n <= 64 -> length (tlb_slots t) = 64%nat ->
  exists slots, invalidate_slots n i t = Ret (tt, set_slots slots t) /\
    length slots = 64%nat /\
    forall k, 0 <= k -> slots !! Z.to_nat k =
      if (i <=? k) && (k <? i + Z.of_nat n) then Some (TLBHI_INVALID k, TLBLO_INVALID)
      else tlb_slots t !! Z.to_nat k.
Proof.
  revert i t. induction n as [|n IH]; intros i t Hi Hn Hlen.
  - exists (tlb_slots t). split_and!; [by destruct t|done|]. intros k Hk.
    destruct (Z.leb_spec i k), (Z.ltb_spec k (i + Z.of_nat 0)); try lia; done.
  - set (t1 := set_slots (<[Z.to_nat i := (TLBHI_INVALID i, TLBLO_INVALID)]> (tlb_slots t)) t).
    destruct (IH (i + 1) t1) as (slots & E & Hl & Hk); [lia|lia|subst t1; simpl; rewrite length_insert; lia|].
    exists slots. split_and!; [|done|].
    + simpl. unfold TLB_Write. unfold bind at 1, modify. unfold NUM_TLB.
      rewrite Z.mod_small by lia. exact E.
    + intros k Hk0. rewrite (Hk k Hk0). subst t1. simpl tlb_slots.
      destruct (Z.leb_spec (i + 1) k), (Z.ltb_spec k (i + 1 + Z.of_nat n)),
        (Z.leb_spec i k), (Z.ltb_spec k (i + Z.of_nat (S n))); try lia; simpl; try done.
      * rewrite list_lookup_insert_ne by lia. done.
      * assert (k = i) as -> by lia. rewrite list_lookup_insert_eq by lia. done.
      * rewrite list_lookup_insert_ne by lia. done.
Qed.

Definition all_slots : list Z := seqZ 0 64.

Lemma chain_all nodes (n : nat) i :
  i = 63 - Z.of_nat n -> 0 <= i ->
  (forall k, 0 <= k < 63 -> nodes !! Z.to_nat k = Some (mkTlbnode k (Some (k + 1)))) ->
  nodes !! 63%nat = Some (mkTlbnode 64 None) ->
  chain nodes (Some i) (seqZ i (Z.of_nat n + 1)).
Proof.
  intros Hi H0 Hk H63. revert i Hi H0. induction n as [|n IH]; intros i Hi H0.
  - assert (i = 63) as -> by lia. simpl. split_and!; [done|lia|]. eexists. split; [exact H63|done].
  - rewrite seqZ_cons by lia. simpl chain. split_and!; [done|lia|]. eexists.
    split; [apply Hk; lia|]. cbn [tn_next].
    replace (Z.pred (Z.of_nat (S n) + 1)) with (Z.of_nat n + 1) by lia.
    replace (Z.succ i) with (i + 1) by lia. apply IH; lia.
Qed.

Lemma all_slots_spec : NoDup all_slots /\ length all_slots = 64%nat /\
  (exists l', all_slots = l' ++ [63]) /\ forall i, i ∈ all_slots <-> 0 <= i < 64.
Proof.
  split_and!; [apply NoDup_seqZ | unfold all_slots; by rewrite length_seqZ | by exists (seqZ 0 63) |].
  intros i. unfold all_slots. rewrite elem_of_seqZ. lia.
Qed.

Lemma rep_empty slots nodes v :
  length slots = 64%nat -> length nodes = 64%nat ->
  (forall k, 0 <= k < 64 -> slots !! Z.to_nat k = Some (TLBHI_INVALID k, TLBLO_INVALID)) ->
  (forall k, 0 <= k < 63 -> nodes !! Z.to_nat k = Some (mkTlbnode k (Some (k + 1)))) ->
  nodes !! 63%nat = Some (mkTlbnode 64 None) ->
  tlb_rep (mkTlbsys slots nodes (Some 0) v) all_slots ∅.
Proof.
  intros Hs Hn Hsl Hk H63. destruct all_slots_spec as (Hnd & Hlen & Hlast & Hin).
  assert (forall (i : nat) e, slots !! i = Some e -> (i < 64)%nat /\ e.1 = 0x80000000 + 4096 * Z.of_nat i)
    as Hsl'.
  { intros i e Hi. pose proof (lookup_lt_Some _ _ _ Hi). specialize (Hsl (Z.of_nat i) ltac:(lia)).
    rewrite Nat2Z.id in Hsl. simplify_eq. split; [lia|]. apply hi_invalid. unfold NUM_TLB. lia. }
  split; cbn [tlb_slots tlbfreenodes tlbnextfree]; try done.
  - intros i n Hi Hni. pose proof (lookup_lt_Some _ _ _ Hni). unfold node_id.
    destruct (Z.eqb_spec i 63) as [->|]; [change (Z.to_nat 63) with 63%nat in Hni; by simplify_eq|].
    rewrite Hk in Hni by lia. by simplify_eq.
  - apply (chain_all nodes 63 0); done.
  - intros i Hi. apply Hin in Hi. auto.
  - intros i Hi Hni. by rewrite Hin in Hni.
  - intros i j w lo lo' Hi Hj. apply Hsl' in Hi, Hj. simpl in *. lia.
Qed.

Lemma tlb_init_spec t :
  length (tlbfreenodes t) = 64%nat ->
  exists nodes, tlb_init_free_list t =
      Ret (tt, mkTlbsys (tlb_slots t) nodes (Some 0) (next_victim t)) /\
    length nodes = 64%nat /\
    (forall k, 0 <= k < 63 -> nodes !! Z.to_nat k = Some (mkTlbnode k (Some (k + 1)))) /\
    nodes !! 63%nat = Some (mkTlbnode 64 None).
Proof.
  intros Hlen. destruct (init_nodes_spec 63 0 (set_nextfree (Some 0) t)) as (nodes & E & Hl & Hk);
    [done|by simpl; rewrite Hlen|]. simpl in Hl. rewrite Hlen in Hl.
  exists (<[63%nat := mkTlbnode 64 None]> nodes). split_and!.
  - unfold tlb_init_free_list. unfold bind at 1, modify.
    rewrite (bind_Ret _ _ _ _ _ E). unfold wr_node, bind, get, lift, set_nodes, set_nextfree.
    cbn [tlbfreenodes]. rewrite wr_in by (rewrite Hl; unfold NUM_TLB; lia). reflexivity.
  - by rewrite length_insert.
  - intros k Hk0. rewrite list_lookup_insert_ne, (Hk k) by lia.
    destruct (Z.leb_spec 0 k), (Z.ltb_spec k (0 + Z.of_nat 63)); try lia; done.
  - apply list_lookup_insert_eq. lia.
Qed.

(** Switching address spaces empties the buffer, whatever it held. *)
Lemma tlb_context_switch_wp t :
  length (tlb_slots t) = 64%nat -> length (tlbfreenodes t) = 64%nat ->
  wp tlb_context_switch t (fun _ t' => tlb_rep t' all_slots ∅ /\ next_victim t' = next_victim t).
Proof.
  intros Hs Hn. destruct (tlb_init_spec t Hn) as (nodes & E & Hl & Hk & H63).
  destruct (invalidate_slots_spec 64 0 (mkTlbsys (tlb_slots t) nodes (Some 0) (next_victim t)))
    as (slots & E2 & Hl2 & Hk2); [done..|]. eapply wp_Ret.
  - unfold tlb_context_switch. rewrite (bind_Ret _ _ _ _ _ E). exact E2.
  - split; [|done]. apply rep_empty; try done. intros k Hk0. rewrite Hk2 by lia.
    destruct (Z.leb_spec 0 k), (Z.ltb_spec k (0 + Z.of_nat 64)); try lia; done.
Qed.

(** ** Adding an entry *)

Lemma rep_ids_insert t l m i n :
  tlb_rep t l m -> 0 <= i < 64 -> tn_id n = node_id i ->
  forall k n', 0 <= k -> <[Z.to_nat i := n]> (tlbfreenodes t) !! Z.to_nat k = Some n' ->
  tn_id n' = node_id k.
Proof.
  intros R Hi Hid k n' Hk Hl. destruct (decide (k = i)) as [->|Hne].
  - rewrite list_lookup_insert_eq in Hl by (rewrite (tr_nodes _ _ _ R); lia). by simplify_eq.
  - rewrite list_lookup_insert_ne in Hl by lia. by apply (tr_ids _ _ _ R) in Hl.
Qed.

Lemma rep_use t i l m n v lo :
  tlb_rep t (i :: l) m -> l <> [] -> tlbfreenodes t !! Z.to_nat i = Some n ->
  user_page v -> m !! v = None -> Z.land lo TLBLO_VALID <> 0 ->
  tlb_rep (mkTlbsys (<[Z.to_nat i := (v, lo)]> (tlb_slots t))
             (<[Z.to_nat i := mkTlbnode (tn_id n) None]> (tlbfreenodes t)) (tn_next n) (next_victim t))
    l (<[v := lo]> m).
Proof.
  intros R Hne Hn Hu Hm Hlo.
  pose proof (tr_nodup _ _ _ R) as Hnd. apply NoDup_cons in Hnd as [Hil Hnd].
  destruct (tr_free _ _ _ R i) as [Hi Hsi]; [by left|].
  pose proof (tr_slots _ _ _ R) as Hlen.
  assert (forall (j : nat) lo', tlb_slots t !! j <> Some (v, lo')) as Hnew.
  { intros j lo' Hj. destruct (slot_vpage R _ _ v Hj Hu eq_refl). congruence. }
  split; cbn [tlb_slots tlbfreenodes tlbnextfree]; rewrite ?length_insert;
    try apply R; try done.
  - apply (rep_ids_insert t (i :: l) m); [done..|]. exact (tr_ids _ _ _ R i n ltac:(lia) Hn).
  - apply chain_insert; [lia|done|]. destruct (tr_chain _ _ _ R) as (_ & _ & n' & Hn' & Hc).
    by simplify_eq.
  - destruct (tr_last _ _ _ R) as [[|j l0] Hl0]; simplify_eq/=. by exists l0.
  - intros k Hk. assert (k <> i) by (intros ->; contradiction).
    destruct (tr_free _ _ _ R k) as [Hk0 Hsk]; [by right|].
    by rewrite list_lookup_insert_ne by lia.
  - intros k Hk Hkl. destruct (decide (k = i)) as [->|Hki].
    + exists v, lo. rewrite list_lookup_insert_eq by lia. by rewrite lookup_insert_eq.
    + destruct (tr_used _ _ _ R k Hk) as (v' & lo' & Hs & Hmv); [set_solver|].
      exists v', lo'. rewrite list_lookup_insert_ne by lia. split; [done|].
      rewrite lookup_insert_ne; [done|]. intros ->. by destruct (Hnew (Z.to_nat k) lo').
  - intros v' lo' H'. apply lookup_insert_Some in H' as [[<- <-]|[Hvv H']].
    + split_and!; [done..|]. exists i. by rewrite list_lookup_insert_eq by lia.
    + destruct (tr_map _ _ _ R _ _ H') as (? & ? & k & Hk & Hkl & Hs). split_and!; [done..|].
      rewrite not_elem_of_cons in Hkl. destruct Hkl. exists k.
      by rewrite list_lookup_insert_ne by lia.
  - intros a b w x x' Ha Hb. destruct (decide (Z.to_nat i = a)) as [<-|Hia],
      (decide (Z.to_nat i = b)) as [<-|Hib]; [done| | |].
    + rewrite list_lookup_insert_eq in Ha by lia. simplify_eq.
      rewrite list_lookup_insert_ne in Hb by done. by destruct (Hnew _ _ Hb).
    + rewrite list_lookup_insert_eq in Hb by lia. simplify_eq.
      rewrite list_lookup_insert_ne in Ha by done. by destruct (Hnew _ _ Ha).
    + rewrite !list_lookup_insert_ne in Ha, Hb by done. by eapply (tr_inj _ _ _ R).
  - rewrite map_size_insert_None by done. pose proof (tr_size _ _ _ R). simpl in *. lia.
Qed.

Definition entry_lo (p dirty : Z) : Z :=
  if negb (dirty =? 0) then Z.lor (Z.lor p TLBLO_VALID) TLBLO_DIRTY else Z.lor p TLBLO_VALID.

Lemma entry_lo_valid p dirty : Z.land (entry_lo p dirty) TLBLO_VALID <> 0.
Proof.
  change TLBLO_VALID with (2 ^ 9). rewrite land_pow2 by lia.
  replace (Z.testbit (entry_lo p dirty) 9) with true; [done|]. unfold entry_lo.
  destruct (negb (dirty =? 0)); rewrite !Z.lor_spec;
    change (Z.testbit TLBLO_VALID 9) with true; by rewrite orb_true_r.
Qed.

Definition frame_addr (p : Z) : Prop := 0 <= p < 2 ^ 32 /\ p mod PAGE_SIZE = 0.

Lemma frame_addr_land p : frame_addr p -> Z.land p PAGE_FRAME = p.
Proof. intros [Hp Ha]. by apply (vpage_aligned p). Qed.

Lemma user_page_frame v : user_page v -> frame_addr v.
Proof. intros [Hv Ha]. split; [lia|done]. Qed.

Lemma tlb_get_free_entry_eq t i l m :
  tlb_rep t (i :: l) m -> l <> [] ->
  exists n, tlbfreenodes t !! Z.to_nat i = Some n /\
    tlb_get_free_entry t = Ret (i, mkTlbsys (tlb_slots t)
      (<[Z.to_nat i := mkTlbnode (tn_id n) None]> (tlbfreenodes t)) (tn_next n) (next_victim t)).
Proof.
  intros R Hl. destruct (tr_chain _ _ _ R) as (Hnf & Hi & n & Hn & Hc). exists n. split; [done|].
  pose proof (tr_ids _ _ _ R i n Hi Hn) as Hid. unfold node_id in Hid.
  destruct (Z.eqb_spec i 63) as [->|H63]; [by destruct (rep_head R 63 l)|].
  unfold tlb_get_free_entry, rd_node, wr_node, bind, get, modify, lift, set_nextfree.
  rewrite Hnf. cbn [tlbfreenodes]. rewrite (rd_lookup _ _ n Hi Hn), Hid.
  rewrite (rd_lookup _ _ n Hi Hn). cbn [tlbfreenodes].
  rewrite wr_in by (apply lookup_lt_Some in Hn; lia). by rewrite Hid.
Qed.

Lemma tlb_add_entry_wp t i l m v p dirty st :
  tlb_rep t (i :: l) m -> l <> [] -> user_page v -> frame_addr p -> m !! v = None ->
  wp (tlb_add_entry v p dirty st) t (fun _ t' => tlb_rep t' l (<[v := entry_lo p dirty]> m)).
Proof.
  intros R Hl Hu Hp Hm. destruct (tlb_get_free_entry_eq t i l m R Hl) as (n & Hn & E).
  destruct (tr_free _ _ _ R i) as [Hi _]; [by left|].
  unfold tlb_add_entry.
  wp_step. wp_step; [by apply Z.eqb_eq, frame_addr_land, user_page_frame|].
  wp_step. wp_step; [by apply Z.eqb_eq, frame_addr_land|].
  wp_step. eapply wp_Ret; [exact E|]. destruct (Z.eqb_spec i (-1)); [lia|].
  wp_step. wp_step. cbv zeta. apply wp_modify. unfold set_slots. cbn [tlb_slots tlbfreenodes tlbnextfree next_victim].
  unfold NUM_TLB. rewrite Z.mod_small by lia. fold (entry_lo p dirty).
  by apply rep_use, entry_lo_valid.
Qed.

(** With 63 pages in the buffer only the last node is free.  Its number is one
    too many, and taking it writes behind the array. *)
Lemma tlb_add_full t l m v p dirty st :
  tlb_rep t l m -> size m = 63%nat -> user_page v -> frame_addr p ->
  tlb_add_entry v p dirty st t = Stop Fault.
Proof.
  intros R Hsz Hu Hp. pose proof (tr_size _ _ _ R). destruct (tr_last _ _ _ R) as [[|j l'] ->];
    [|rewrite length_app in *; simpl in *; lia].
  destruct (tr_chain _ _ _ R) as (Hnf & _ & n & Hn & _).
  pose proof (tr_ids _ _ _ R 63 n ltac:(lia) Hn) as Hid. change (node_id 63) with 64 in Hid.
  unfold tlb_add_entry. unfold bind at 1, kassert at 1.
  rewrite (frame_addr_land v) by (by apply user_page_frame). rewrite Z.eqb_refl. cbn [rassert lift].
  unfold bind at 1, kassert. rewrite (frame_addr_land p), Z.eqb_refl by done. cbn [rassert lift].
  unfold bind at 1. unfold tlb_get_free_entry, rd_node, bind, get, modify, lift.
  rewrite Hnf, (rd_lookup _ _ n) by (done || lia). cbn [set_nextfree tlbfreenodes]. rewrite Hid.
  by rewrite rd_out by (rewrite (tr_nodes _ _ _ R); lia).
Qed.

(** ** Removing an entry *)

Lemma rep_drop t i l m v lo n :
  tlb_rep t l m -> 0 <= i < 64 -> i ∉ l -> tlb_slots t !! Z.to_nat i = Some (v, lo) ->
  m !! v = Some lo -> tlbfreenodes t !! Z.to_nat i = Some n ->
  tlb_rep (mkTlbsys (<[Z.to_nat i := (TLBHI_INVALID i, TLBLO_INVALID)]> (tlb_slots t))
             (<[Z.to_nat i := mkTlbnode (tn_id n) (tlbnextfree t)]> (tlbfreenodes t))
             (Some i) (next_victim t))
    (i :: l) (delete v m).
Proof.
  intros R Hi Hil Hsi Hm Hn. pose proof (tr_slots _ _ _ R) as Hlen.
  assert (forall (j : nat) lo', tlb_slots t !! j = Some (TLBHI_INVALID i, lo') -> j = Z.to_nat i) as Hnew.
  { intros j lo' Hj. pose proof (slot_lt R _ _ Hj). apply (slot_cases R) in Hj as [(Hj & He & _)|[_ Hj]].
    - rewrite !hi_invalid in He by (unfold NUM_TLB; lia). lia.
    - apply (tr_map _ _ _ R) in Hj as ([Hu _] & _). rewrite hi_invalid in Hu by (unfold NUM_TLB; lia). lia. }
  assert (forall k w x, k <> i -> tlb_slots t !! Z.to_nat k = Some (w, x) -> 0 <= k -> w <> v) as Hother.
  { intros k w x Hk Hs H0 ->. pose proof (tr_inj _ _ _ R _ _ _ _ _ Hs Hsi). lia. }
  split; cbn [tlb_slots tlbfreenodes tlbnextfree]; rewrite ?length_insert; try apply R.
  - apply (rep_ids_insert t l m); [done..|]. exact (tr_ids _ _ _ R i n ltac:(lia) Hn).
  - split_and!; [done|lia|]. eexists. split; [apply list_lookup_insert_eq; rewrite (tr_nodes _ _ _ R); lia|].
    apply chain_insert; [lia|done|]. apply R.
  - apply NoDup_cons. split; [done|apply R].
  - destruct (tr_last _ _ _ R) as [l' ->]. by exists (i :: l').
  - intros k Hk. destruct (decide (k = i)) as [->|Hki].
    + by rewrite list_lookup_insert_eq by lia.
    + destruct (tr_free _ _ _ R k) as [? ?]; [set_solver|]. by rewrite list_lookup_insert_ne by lia.
  - intros k Hk Hkl. apply not_elem_of_cons in Hkl as [Hki Hkl].
    destruct (tr_used _ _ _ R k Hk Hkl) as (w & x & Hs & Hw). exists w, x.
    rewrite list_lookup_insert_ne by lia. split; [done|].
    rewrite lookup_delete_ne; [done|]. intros Hvw. by destruct (Hother k w x Hki Hs ltac:(lia)).
  - intros w x Hw. apply lookup_delete_Some in Hw as [Hvw Hw].
    destruct (tr_map _ _ _ R _ _ Hw) as (? & ? & k & Hk & Hkl & Hs). split_and!; [done..|]. exists k.
    assert (k <> i) by (intros ->; congruence). rewrite list_lookup_insert_ne by lia. set_solver.
  - intros a b w x x' Ha Hb. destruct (decide (Z.to_nat i = a)) as [<-|Hia],
      (decide (Z.to_nat i = b)) as [<-|Hib]; [done| | |].
    + rewrite list_lookup_insert_eq in Ha by lia. simplify_eq.
      rewrite list_lookup_insert_ne in Hb by done. by apply Hnew in Hb.
    + rewrite list_lookup_insert_eq in Hb by lia. simplify_eq.
      rewrite list_lookup_insert_ne in Ha by done. by apply Hnew in Ha.
    + rewrite !list_lookup_insert_ne in Ha, Hb by done. by eapply (tr_inj _ _ _ R).
  - rewrite map_size_delete_Some by (by eexists). pose proof (tr_size _ _ _ R).
    assert (size m <> 0%nat) by (intros H0; apply map_size_empty_inv in H0; subst; done).
    simpl. lia.
Qed.

Lemma tlb_invalidate_vaddr_wp t l m v :
  tlb_rep t l m -> user_page v ->
  wp (tlb_invalidate_vaddr v) t (fun _ t' => exists l', tlb_rep t' l' (delete v m)).
Proof.
  intros R Hu. unfold tlb_invalidate_vaddr, TLB_Probe.
  wp_step. wp_step; [by apply Z.eqb_eq, frame_addr_land, user_page_frame|].
  do 4 wp_step. destruct (m !! v) as [lo|] eqn:Hm.
  - destruct (probe_some R v lo Hm) as (i & -> & Hi & Hil & Hs).
    destruct (lookup_lt_is_Some_2 (tlbfreenodes t) (Z.to_nat i)) as [n Hn];
      [rewrite (tr_nodes _ _ _ R); lia|].
    destruct (Z.eqb_spec i (-1)); [lia|]. cbn [negb].
    eapply wp_Ret; [|exists (i :: l); by apply (rep_drop t i l m v lo n)].
    unfold TLB_Write, rd_node, wr_node, bind, get, modify, lift, set_slots.
    cbn [tlbfreenodes]. rewrite (rd_lookup _ _ n) by (done || lia). cbn [tlbfreenodes].
    rewrite wr_in by (rewrite (tr_nodes _ _ _ R); lia).
    unfold NUM_TLB. rewrite Z.mod_small by lia. reflexivity.
  - rewrite (probe_none R v Hu Hm). change (negb (-1 =? -1)) with false. cbv iota. wp_step. exists l.
    by rewrite delete_id.
Qed.

(** The same with the state named, for every way to see it as a map. *)
Lemma tlb_invalidate_vaddr_ret t l m v :
  tlb_rep t l m -> user_page v ->
  exists t', tlb_invalidate_vaddr v t = Ret (tt, t') /\
    forall l m, tlb_rep t l m -> exists l', tlb_rep t' l' (delete v m).
Proof.
  intros R Hu. destruct (proj1 (wp_elim _ _ _) (tlb_invalidate_vaddr_wp t l m v R Hu)) as ([] & t' & E & _).
  exists t'. split; [done|]. intros l1 m1 R1.
  destruct (proj1 (wp_elim _ _ _) (tlb_invalidate_vaddr_wp t l1 m1 v R1 Hu)) as ([] & t2 & E2 & H2).
  rewrite E in E2. by simplify_eq.
Qed.

(** ** Properties *)

(** C15: Until it is full, the translation buffer is a finite map from user
    pages to page frames: the processor translates exactly the pages of the
    map; a change of address space empties it, whatever it held; adding a page
    that is not there adds that page alone; invalidating a page removes that
    page alone.  None of them fails while fewer than 63 pages are loaded. *)
Theorem tlb_refines_map t l m v p dirty st :
  tlb_rep t l m -> user_page v -> frame_addr p ->
  translate t v = m !! v /\
  wp tlb_context_switch t (fun _ t' => exists l', tlb_rep t' l' ∅) /\
  (m !! v = None -> (size m < 63)%nat ->
     wp (tlb_add_entry v p dirty st) t (fun _ t' =>
       exists l', tlb_rep t' l' (<[v := entry_lo p dirty]> m))) /\
  wp (tlb_invalidate_vaddr v) t (fun _ t' => exists l', tlb_rep t' l' (delete v m)).
Proof.
  intros R Hu Hp. split_and!.
  - by apply (translate_map R).
  - eapply wp_mono; [apply tlb_context_switch_wp; apply R|]. simpl. intros _ t' [R' _]. eauto.
  - intros Hm Hsz. pose proof (tr_size _ _ _ R). destruct l as [|i [|j l]]; [simpl in *; lia..|].
    eapply wp_mono; [by apply (tlb_add_entry_wp t i (j :: l) m)|]. intros [] t' R'. by exists (j :: l).
  - by apply (tlb_invalidate_vaddr_wp t l m).
Qed.

(** Loading a list of pages. *)
Fixpoint add_all (ps : list (Z * Z * Z)) : M tlbsys unit :=
  match ps with
  | [] => ret tt
  | (v, p, dirty) :: ps => let* _ := tlb_add_entry v p dirty 1 in add_all ps
  end.

Definition loadable (e : Z * Z * Z) : Prop := user_page e.1.1 /\ frame_addr e.1.2.

Lemma add_all_wp ps t l m :
  tlb_rep t l m -> Forall loadable ps -> NoDup (ps.*1.*1) ->
  (forall v, v ∈ ps.*1.*1 -> m !! v = None) -> (size m + length ps <= 63)%nat ->
  wp (add_all ps) t (fun _ t' => exists l' m', tlb_rep t' l' m' /\
    size m' = (size m + length ps)%nat).
Proof.
  revert t l m. induction ps as [|[[v p] dirty] ps IH]; intros t l m R Hf Hnd Hnew Hsz.
  - apply wp_ret. exists l, m. split; [done|simpl; lia].
  - apply Forall_cons in Hf as [[Hu Hp] Hf]. cbn [fst snd] in Hu, Hp.
    rewrite !fmap_cons in Hnd. apply NoDup_cons in Hnd as [Hv Hnd]. cbn [fst snd] in Hv.
    pose proof (tr_size _ _ _ R). destruct l as [|i [|j l]]; [simpl in *; lia..|].
    assert (m !! v = None) as Hm by (apply Hnew; rewrite !fmap_cons; by left).
    cbn [add_all]. wp_step. eapply wp_mono; [by apply (tlb_add_entry_wp t i (j :: l) m)|].
    intros [] t1 R1. cbv beta in R1. eapply wp_mono; [apply (IH t1 _ _ R1 Hf Hnd)|].
    + intros w Hw. rewrite lookup_insert_ne by (intros ->; contradiction).
      apply Hnew. rewrite !fmap_cons. by right.
    + rewrite map_size_insert_None by done. simpl in *. lia.
    + intros _ t' (l' & m' & R' & Hs). exists l', m'. split; [done|]. rewrite Hs.
      rewrite map_size_insert_None by done. simpl. lia.
Qed.

(** C16: The buffer has 64 slots and can hold 63 pages.  After a change of
    address space any 63 different pages can be loaded; loading one more takes
    the last node of the free list, whose number [tlb_init_free_list] sets to
    64, and [tlb_get_free_entry] writes behind the end of the array of nodes.
    The slot to replace is never chosen by [tlb_get_rr_victim]. *)
Theorem tlb_sixty_fourth_page_faults t ps v p dirty st :
  length (tlb_slots t) = 64%nat -> length (tlbfreenodes t) = 64%nat ->
  Forall loadable ps -> NoDup (ps.*1.*1) -> length ps = 63%nat -> user_page v -> frame_addr p ->
  wp (let* _ := tlb_context_switch in add_all ps) t (fun _ t' =>
    tlb_add_entry v p dirty st t' = Stop Fault).
Proof.
  intros Hs Hn Hf Hnd Hlen Hu Hp. wp_step.
  eapply wp_mono; [by apply tlb_context_switch_wp|]. intros _ t1 [R1 _].
  eapply wp_mono; [apply (add_all_wp ps t1 _ _ R1 Hf Hnd)|].
  - intros w _. apply lookup_empty.
  - rewrite map_size_empty. lia.
  - intros _ t' (l' & m' & R' & Hsz). apply (tlb_add_full t' l' m'); try done.
    rewrite Hsz, map_size_empty. lia.
Qed.

(** ** The buffer after a change of address space *)

Definition blank_nodes : list tlbfreenode :=
  (fun k => mkTlbnode (if k =? 63 then 64 else k) (if k =? 63 then None else Some (k + 1))) <$> seqZ 0 64.
Definition blank_tlb : tlbsys :=
  mkTlbsys ((fun k => (TLBHI_INVALID k, TLBLO_INVALID)) <$> seqZ 0 64) blank_nodes (Some 0) 0.

Lemma blank_rep : tlb_rep blank_tlb all_slots ∅.
Proof.
  apply rep_empty; try done.
  - intros k Hk. rewrite list_lookup_fmap, lookup_seqZ_lt by lia. simpl. rewrite Z2Nat.id, Z.add_0_l by lia. done.
  - intros k Hk. unfold blank_nodes. rewrite list_lookup_fmap, lookup_seqZ_lt by lia. simpl.
    rewrite Z2Nat.id, Z.add_0_l by lia. destruct (Z.eqb_spec k 63); [lia|done].
Qed.

Definition sixty_three : list (Z * Z * Z) := (fun k => (k * 4096, k * 4096, 1)) <$> seqZ 0 63.

Lemma sixty_three_keys : sixty_three.*1.*1 = (fun k => k * 4096) <$> seqZ 0 63.
Proof. unfold sixty_three. by rewrite <- !list_fmap_compose. Qed.

Lemma sixty_three_loadable : Forall loadable sixty_three.
Proof.
  apply Forall_forall. intros e He. apply list_elem_of_fmap in He as (k & -> & Hk).
  apply elem_of_seqZ in Hk. unfold loadable, user_page, frame_addr, PAGE_SIZE; cbn [fst snd].
  rewrite Z.mod_mul by lia. lia.
Qed.

Lemma tlb_refines_map_witness :
  wp (tlb_add_entry 0x1000 0x5000 1 1) blank_tlb (fun _ t' =>
    exists l', tlb_rep t' l' (<[0x1000 := entry_lo 0x5000 1]> ∅)).
Proof.
  destruct (tlb_refines_map blank_tlb all_slots ∅ 0x1000 0x5000 1 1 blank_rep) as (_ & _ & H & _);
    [done | done | apply H; [done | apply Nat.ltb_lt; reflexivity]].
Defined.

Lemma tlb_sixty_fourth_page_faults_witness :
  wp (let* _ := tlb_context_switch in add_all sixty_three) blank_tlb (fun _ t' =>
    tlb_add_entry (63 * 4096) 0x5000 1 1 t' = Stop Fault).
Proof.
  apply (tlb_sixty_fourth_page_faults blank_tlb);
    [done | done | exact sixty_three_loadable | | done | done | done].
  rewrite sixty_three_keys. apply NoDup_fmap; [intros ??; lia | apply NoDup_seqZ].
Defined.
