(* ===== verification/Coremap.v ===== *)
(** * Page frames and the swap file ([kern/vm/coremap.c], [kern/vm/swapfile.c])

    The record [core] holds the globals of the two files and what they touch:
    the boot-time memory of [ram.c], the translation buffer, the core map
    ([struct cm] with its array of [struct cm_detail]), the page details that
    the frames point to, the free list of the swap file and the file itself,
    the contents of the page frames, and the interrupt level.  A pointer to a
    [struct cm_detail] is its index in the array, a pointer to a
    [struct page_detail] is its address.  An entry of the array that
    [cm_bootstrap] has not written is [None].

    The swap file is reached through [VOP_WRITE] and [VOP_READ], whose results
    the code ignores: it is the class [SwapFile].  [SwapFileLaws] says that a
    page written is the page read unless a transfer fails; a failed transfer
    counts in [swap_errors], and the theorems say what holds of the bytes of
    pages while that number stays the same, and what holds in any case.

    Code between [splx] and the next [splhigh] runs here as one step with what
    surrounds it: the model is of one thread at a time. *)

From S2P Require Import Prelude.
From S2P Require Import Ram.
From S2P Require Import Kheap.
From S2P Require Import KheapProof.
From S2P Require Import Tlb.

(** The bytes of a page. *)
Abbreviation page := (list Z).

Class SwapFile (F : Type) := {
  swap_vop_write : Z -> page -> F -> F;
  swap_vop_read : Z -> page -> F -> page * F;
}.

(** A file that holds what was written to it: [swap_img f] maps the offset of
    each page written to its bytes, [swap_errors f] is the number of transfers
    that have failed. *)
Class SwapFileLaws (F : Type) `{!SwapFile F} := {
  swap_img : F -> gmap Z page;
  swap_errors : F -> nat;
  swap_write_law off pg f : let f' := swap_vop_write off pg f in
    (swap_errors f <= swap_errors f')%nat /\
    (swap_errors f' = swap_errors f -> swap_img f' = <[off := pg]> (swap_img f));
  swap_read_law off old f : let '(bs, f') := swap_vop_read off old f in
    (swap_errors f <= swap_errors f')%nat /\
    (swap_errors f' = swap_errors f -> swap_img f' = swap_img f /\
       forall pg, swap_img f !! off = Some pg -> bs = pg);
}.

(** ** Data *)

Record page_detail := mkPd {
  pd_vaddr : Z;
  pd_pfn : Z;
  pd_sfn : Z;
  pd_valid : Z;
  pd_dirty : Z;
  pd_use : Z;
}.

Record cm_detail := mkCd {
  cd_id : Z;
  cd_kern : Z;
  cd_pd : option Z;
  cd_next_free : option Z;
  cd_prev_free : option Z;
  cd_free : Z;
}.

Record cm := mkCm {
  cm_init : Z;
  cm_size : Z;
  clock_pointer : Z;
  lowest_frame : Z;
  core_details : list (option cm_detail);
  free_frame_list : option Z;
  last_free : option Z;
}.

Record free_list := mkFl {
  fl_index : Z;
  fl_next : option Z;
}.

Record swapsys (F : Type) := mkSwapsys {
  pageList : list free_list;
  freePages : option Z;
  swapfile : F;
}.
Arguments mkSwapsys {F}.
Arguments pageList {F}.
Arguments freePages {F}.
Arguments swapfile {F}.

Record core (F : Type) := mkCore {
  co_ram : ram;
  co_tlb : tlbsys;
  co_cm : cm;
  co_pds : gmap Z page_detail;
  co_swap : swapsys F;
  co_mem : gmap Z page;
  co_spl : Z;
}.
Arguments mkCore {F}.
Arguments co_ram {F}.
Arguments co_tlb {F}.
Arguments co_cm {F}.
Arguments co_pds {F}.
Arguments co_swap {F}.
Arguments co_mem {F}.
Arguments co_spl {F}.

Definition SPL_HIGH : Z := 15.
Definition SWAP_SIZE : Z := 4194304.
Definition SWAP_PAGES : Z := SWAP_SIZE / PAGE_SIZE.

Section Core.
Context {F : Type} `{!SwapFile F}.
Abbreviation C := (core F).
Implicit Types (s : C).

Definition set_co_ram (r : ram) s : C :=
  mkCore r (co_tlb s) (co_cm s) (co_pds s) (co_swap s) (co_mem s) (co_spl s).
Definition set_tlb (t : tlbsys) s : C :=
  mkCore (co_ram s) t (co_cm s) (co_pds s) (co_swap s) (co_mem s) (co_spl s).
Definition set_cm (c : cm) s : C :=
  mkCore (co_ram s) (co_tlb s) c (co_pds s) (co_swap s) (co_mem s) (co_spl s).
Definition set_pds (p : gmap Z page_detail) s : C :=
  mkCore (co_ram s) (co_tlb s) (co_cm s) p (co_swap s) (co_mem s) (co_spl s).
Definition set_swap (w : swapsys F) s : C :=
  mkCore (co_ram s) (co_tlb s) (co_cm s) (co_pds s) w (co_mem s) (co_spl s).
Definition set_mem (m : gmap Z page) s : C :=
  mkCore (co_ram s) (co_tlb s) (co_cm s) (co_pds s) (co_swap s) m (co_spl s).
Definition set_spl (x : Z) s : C :=
  mkCore (co_ram s) (co_tlb s) (co_cm s) (co_pds s) (co_swap s) (co_mem s) x.

Definition set_list (h t : option Z) (c : cm) : cm :=
  mkCm (cm_init c) (cm_size c) (clock_pointer c) (lowest_frame c) (core_details c) h t.
Definition set_details (l : list (option cm_detail)) (c : cm) : cm :=
  mkCm (cm_init c) (cm_size c) (clock_pointer c) (lowest_frame c) l (free_frame_list c) (last_free c).
Definition set_clock (n : Z) (c : cm) : cm :=
  mkCm (cm_init c) (cm_size c) n (lowest_frame c) (core_details c) (free_frame_list c) (last_free c).

Definition splhigh : M C Z :=
  let* s := get in
  let* _ := put (set_spl SPL_HIGH s) in
  ret (co_spl s).
Definition splx (x : Z) : M C unit := modify (set_spl x).

Definition on_tlb {A} (m : M tlbsys A) : M C A := fun s =>
  match m (co_tlb s) with
  | Ret (a, t) => Ret (a, set_tlb t s)
  | Stop w => Stop w
  end.

(** [core_map.core_details[i]], read and written. *)
Definition rd_cd (i : Z) : M C cm_detail :=
  let* s := get in
  let* o := lift (rd (core_details (co_cm s)) i) in
  match o with
  | Some cd => ret cd
  | None => halt Fault
  end.

Definition wr_cd (i : Z) (cd : cm_detail) : M C unit :=
  let* s := get in
  let* l := lift (wr (core_details (co_cm s)) i (Some cd)) in
  put (set_cm (set_details l (co_cm s)) s).

(** Assignments to one field of an entry. *)
Definition upd_cd (i : Z) (f : cm_detail -> cm_detail) : M C unit :=
  let* cd := rd_cd i in wr_cd i (f cd).

Definition cd_set_next (n : option Z) (cd : cm_detail) : cm_detail :=
  mkCd (cd_id cd) (cd_kern cd) (cd_pd cd) n (cd_prev_free cd) (cd_free cd).
Definition cd_set_prev (n : option Z) (cd : cm_detail) : cm_detail :=
  mkCd (cd_id cd) (cd_kern cd) (cd_pd cd) (cd_next_free cd) n (cd_free cd).
Definition cd_set_kern (k : Z) (cd : cm_detail) : cm_detail :=
  mkCd (cd_id cd) k (cd_pd cd) (cd_next_free cd) (cd_prev_free cd) (cd_free cd).
Definition cd_set_free (x : Z) (cd : cm_detail) : cm_detail :=
  mkCd (cd_id cd) (cd_kern cd) (cd_pd cd) (cd_next_free cd) (cd_prev_free cd) x.
Definition cd_set_pd (p : option Z) (cd : cm_detail) : cm_detail :=
  mkCd (cd_id cd) (cd_kern cd) p (cd_next_free cd) (cd_prev_free cd) (cd_free cd).

(** A pointer that is dereferenced. *)
Definition deref (p : option Z) : M C Z :=
  match p with
  | Some i => ret i
  | None => halt Fault
  end.

Definition rd_pd (p : option Z) : M C page_detail :=
  let* s := get in
  match p with
  | Some a =>
      match co_pds s !! a with
      | Some pd => ret pd
      | None => halt Fault
      end
  | None => halt Fault
  end.

Definition upd_pd (p : option Z) (f : page_detail -> page_detail) : M C unit :=
  let* pd := rd_pd p in
  let* a := deref p in
  modify (fun s => set_pds (<[a := f pd]> (co_pds s)) s).

Definition pd_set_pfn (n : Z) (p : page_detail) : page_detail :=
  mkPd (pd_vaddr p) n (pd_sfn p) (pd_valid p) (pd_dirty p) (pd_use p).
Definition pd_set_sfn (n : Z) (p : page_detail) : page_detail :=
  mkPd (pd_vaddr p) (pd_pfn p) n (pd_valid p) (pd_dirty p) (pd_use p).
Definition pd_set_valid (n : Z) (p : page_detail) : page_detail :=
  mkPd (pd_vaddr p) (pd_pfn p) (pd_sfn p) n (pd_dirty p) (pd_use p).
Definition pd_set_use (n : Z) (p : page_detail) : page_detail :=
  mkPd (pd_vaddr p) (pd_pfn p) (pd_sfn p) (pd_valid p) (pd_dirty p) n.

Definition set_free_frame_list (p : option Z) : M C unit :=
  modify (fun s => set_cm (set_list p (last_free (co_cm s)) (co_cm s)) s).
Definition set_last_free (p : option Z) : M C unit :=
  modify (fun s => set_cm (set_list (free_frame_list (co_cm s)) p (co_cm s)) s).

(** ** The swap file *)

(** The bytes of a page frame. *)
Definition frame_bytes s (frame : Z) : page := default [] (co_mem s !! frame).

Definition swap_full : M C bool := gets (fun s => bool_decide (freePages (co_swap s) = None)).

Definition swap_free_page (n : Z) : M C unit :=
  let* s := get in
  let w := co_swap s in
  let* nd := lift (rd (pageList w) n) in
  let* l := lift (wr (pageList w) n (mkFl (fl_index nd) (freePages w))) in
  put (set_swap (mkSwapsys l (Some n) (swapfile w)) s).

Definition swap_write_page (data : page) (n : Z) : M C unit :=
  modify (fun s =>
    let w := co_swap s in
    set_swap (mkSwapsys (pageList w) (freePages w)
                (swap_vop_write (s32 (n * PAGE_SIZE)) data (swapfile w))) s).

Definition swap_write (phys_frame_num : Z) : M C Z :=
  let* spl := splhigh in
  let* s := get in
  match freePages (co_swap s) with
  | None => halt Panic
  | Some p =>
      let* nd := lift (rd (pageList (co_swap s)) p) in
      let pagenum := fl_index nd in
      let* _ := modify (fun s => set_swap (mkSwapsys (pageList (co_swap s)) (fl_next nd)
                                             (swapfile (co_swap s))) s) in
      let* _ := splx spl in
      let* s := get in
      let* _ := swap_write_page (frame_bytes s phys_frame_num) pagenum in
      ret pagenum
  end.

Definition swap_read (phys_frame_num n : Z) : M C unit :=
  let* s := get in
  let w := co_swap s in
  let (pg, f) := swap_vop_read (s32 (n * PAGE_SIZE)) (frame_bytes s phys_frame_num) (swapfile w) in
  let* _ := put (set_mem (<[phys_frame_num := pg]> (co_mem s))
                   (set_swap (mkSwapsys (pageList w) (freePages w) f) s)) in
  let* _ := swap_free_page n in
  let* spl := splhigh in
  splx spl.

(** ** The list of free frames *)

Definition free_frame_list_add (new : Z) : M C unit :=
  let* spl := splhigh in
  let* s := get in
  let* _ :=
    match free_frame_list (co_cm s) with
    | None =>
        let* _ := set_free_frame_list (Some new) in
        let* _ := set_last_free (Some new) in
        let* _ := upd_cd new (cd_set_next None) in
        upd_cd new (cd_set_prev None)
    | Some h =>
        let* _ := upd_cd new (cd_set_next (Some h)) in
        let* _ := upd_cd new (cd_set_prev None) in
        let* _ := upd_cd h (cd_set_prev (Some new)) in
        set_free_frame_list (Some new)
    end in
  let* _ := upd_cd new (cd_set_free 1) in
  let* _ := upd_cd new (cd_set_kern 0) in
  splx spl.

Definition free_frame_list_add_back (new : Z) : M C unit :=
  let* spl := splhigh in
  let* s := get in
  let* _ :=
    match last_free (co_cm s) with
    | None =>
        let* _ := set_free_frame_list (Some new) in
        let* _ := set_last_free (Some new) in
        let* _ := upd_cd new (cd_set_next None) in
        upd_cd new (cd_set_prev None)
    | Some t =>
        let* _ := upd_cd new (cd_set_prev (Some t)) in
        let* _ := upd_cd new (cd_set_next None) in
        let* _ := upd_cd t (cd_set_next (Some new)) in
        set_last_free (Some new)
    end in
  let* _ := upd_cd new (cd_set_free 1) in
  let* _ := upd_cd new (cd_set_kern 0) in
  splx spl.

Definition free_frame_list_pop : M C (option Z) :=
  let* spl := splhigh in
  let* s := get in
  match free_frame_list (co_cm s) with
  | None => let* _ := splx spl in ret None
  | Some retval =>
      let* cd := rd_cd retval in
      let* _ := set_free_frame_list (cd_next_free cd) in
      let* _ :=
        match cd_next_free cd with
        | None => set_last_free None
        | Some h => upd_cd h (cd_set_prev None)
        end in
      let* _ := upd_cd retval (cd_set_kern 1) in
      let* _ := upd_cd retval (cd_set_free 0) in
      let* _ := splx spl in
      ret (Some retval)
  end.

Definition free_frame_list_remove (i : Z) : M C unit :=
  let* spl := splhigh in
  let* s := get in
  let head := free_frame_list (co_cm s) in
  let last := last_free (co_cm s) in
  let* _ := kassert (bool_decide (head <> None) && bool_decide (last <> None)) in
  let* _ :=
    if bool_decide (head = last) then
      let* _ := kassert (bool_decide (head = Some i)) in
      let* _ := set_free_frame_list None in
      set_last_free None
    else if bool_decide (head = Some i) then
      let* cd := rd_cd i in
      let* _ := set_free_frame_list (cd_next_free cd) in
      let* h := deref (cd_next_free cd) in
      upd_cd h (cd_set_prev None)
    else if bool_decide (last = Some i) then
      let* cd := rd_cd i in
      let* _ := set_last_free (cd_prev_free cd) in
      let* t := deref (cd_prev_free cd) in
      upd_cd t (cd_set_next None)
    else
      let* cd := rd_cd i in
      let* p := deref (cd_prev_free cd) in
      let* _ := upd_cd p (cd_set_next (cd_next_free cd)) in
      let* cd := rd_cd i in
      let* n := deref (cd_next_free cd) in
      upd_cd n (cd_set_prev (cd_prev_free cd)) in
  let* _ := upd_cd i (cd_set_free 0) in
  let* _ := upd_cd i (cd_set_kern 1) in
  splx spl.

(** ** Eviction *)

Definition clock_to_index (c : Z) : M C Z := gets (fun s => c + lowest_frame (co_cm s)).

(** [cd->pd] is read again for each assignment, as in the source; [spl] is the
    level the caller entered with. *)
Definition cm_free_core (cd : Z) (spl : Z) : M C unit :=
  let* d := rd_cd cd in
  let* pd := rd_pd (cd_pd d) in
  let* _ := on_tlb (tlb_invalidate_vaddr (pd_vaddr pd)) in
  let* _ := upd_pd (cd_pd d) (pd_set_valid 0) in
  let* _ := upd_pd (cd_pd d) (pd_set_use 0) in
  let* _ := upd_pd (cd_pd d) (pd_set_sfn (-2)) in
  let* _ := splx spl in
  let* pd := rd_pd (cd_pd d) in
  let* _ :=
    if negb (pd_dirty pd =? 0) then
      let* n := swap_write (cd_id d) in
      upd_pd (cd_pd d) (pd_set_sfn n)
    else upd_pd (cd_pd d) (pd_set_sfn (-1)) in
  let* _ := upd_pd (cd_pd d) (pd_set_pfn (-1)) in
  let* _ := upd_cd cd (cd_set_pd None) in
  upd_cd cd (cd_set_next None).

Definition advance_clock : M C unit :=
  modify (fun s =>
    let c := co_cm s in
    set_cm (set_clock (Z.rem (clock_pointer c + 1) (cm_size c - lowest_frame c)) c) s).

(** The first loop of [cm_push_to_swap], with [n] iterations left: a page that
    was used since the hand last passed gets a second chance. *)
Fixpoint push_unused (n : nat) (spl : Z) : M C (option Z) :=
  match n with
  | O => ret None
  | S n =>
      let* s := get in
      let* i := clock_to_index (clock_pointer (co_cm s)) in
      let* cd := rd_cd i in
      if cd_kern cd =? 0 then
        match cd_pd cd with
        | None => halt Panic
        | Some a =>
            let* pd := rd_pd (Some a) in
            if pd_use pd =? 0 then
              let* _ := cm_free_core i spl in
              let* cd := rd_cd i in
              ret (Some (cd_id cd))
            else
              let* _ := upd_pd (Some a) (pd_set_use 0) in
              let* _ := on_tlb (tlb_invalidate_vaddr (pd_vaddr pd)) in
              let* _ := advance_clock in
              push_unused n spl
        end
      else
        let* _ := advance_clock in
        push_unused n spl
  end.

(** The second loop: the next page that is not the kernel's. *)
Fixpoint push_any (n : nat) (spl : Z) : M C (option Z) :=
  match n with
  | O => ret None
  | S n =>
      let* s := get in
      let* i := clock_to_index (clock_pointer (co_cm s)) in
      let* cd := rd_cd i in
      if cd_kern cd =? 0 then
        match cd_pd cd with
        | None => halt Panic
        | Some a =>
            let* _ := cm_free_core i spl in
            let* cd := rd_cd i in
            ret (Some (cd_id cd))
        end
      else
        let* _ := advance_clock in
        push_any n spl
  end.

Definition cm_push_to_swap : M C Z :=
  let* spl := splhigh in
  let* s := get in
  let rounds := Z.to_nat (cm_size (co_cm s) - lowest_frame (co_cm s)) in
  let* r := push_unused rounds spl in
  match r with
  | Some id => ret id
  | None =>
      let* r := push_any rounds spl in
      match r with
      | Some id => ret id
      | None => let* _ := splx spl in halt Panic
      end
  end.

Definition cm_getppage : M C Z :=
  let* spl := splhigh in
  let* frame := free_frame_list_pop in
  match frame with
  | None =>
      let* _ := splx spl in
      cm_push_to_swap
  | Some f =>
      let* _ := splx spl in
      let* cd := rd_cd f in
      ret (cd_id cd)
  end.

Definition cm_finish_paging (frame : Z) (pd : option Z) : M C unit :=
  let* _ := upd_cd frame (cd_set_pd pd) in
  let* _ := upd_pd pd (pd_set_pfn frame) in
  let* _ := upd_pd pd (pd_set_valid 1) in
  let* _ := upd_cd frame (cd_set_free 0) in
  upd_cd frame (cd_set_kern 0).

(** ** Frames for the kernel *)

(** [for (j = 0; j < num; j++)]: are the frames from [i] on free of the kernel? *)
Fixpoint run_unused (num : nat) (i : Z) : M C bool :=
  match num with
  | O => ret true
  | S num =>
      let* cd := rd_cd i in
      if negb (cd_kern cd =? 0) then ret false else run_unused num (i + 1)
  end.

(** [for (i = core_map.lowest_frame; i <= core_map.size - num; i++)], with [n]
    iterations left. *)
Fixpoint find_run (n : nat) (num : Z) (i : Z) : M C Z :=
  match n with
  | O => ret (-1)
  | S n =>
      let* b := run_unused (Z.to_nat num) i in
      if (b : bool) then ret i else find_run n num (i + 1)
  end.

Fixpoint mark_kern (n : nat) (i : Z) : M C unit :=
  match n with
  | O => ret tt
  | S n => let* _ := upd_cd i (cd_set_kern 1) in mark_kern n (i + 1)
  end.

(** The loop that empties the frames of the run; [spl] changes hands at each
    eviction. *)
Fixpoint take_run (n : nat) (i spl : Z) : M C Z :=
  match n with
  | O => ret spl
  | S n =>
      let* cd := rd_cd i in
      if negb (cd_free cd =? 0) then
        let* _ := free_frame_list_remove i in
        take_run n (i + 1) spl
      else
        let* _ := cm_free_core i spl in
        let* spl := splhigh in
        take_run n (i + 1) spl
  end.

Definition cm_request_kframes (num : Z) : M C Z :=
  let* s := get in
  let c := co_cm s in
  let* _ := kassert (negb (cm_init c =? 0)) in
  let* spl := splhigh in
  let* frame := find_run (Z.to_nat (cm_size c - num - lowest_frame c + 1)) num (lowest_frame c) in
  if frame =? -1 then halt Panic
  else
    let* _ := mark_kern (Z.to_nat num) frame in
    let* _ := upd_cd frame (cd_set_kern num) in
    let* spl := take_run (Z.to_nat num) frame spl in
    let* _ := splx spl in
    ret (PADDR_TO_KVADDR (u32 (frame * PAGE_SIZE))).

Definition cm_release_frame (frame_number : Z) : M C unit :=
  let* s := get in
  let* _ := kassert (lowest_frame (co_cm s) <=? frame_number) in
  free_frame_list_add frame_number.

Fixpoint release_run (n : nat) (i frame_number : Z) : M C unit :=
  match n with
  | O => ret tt
  | S n =>
      let* s := get in
      let* cd := rd_cd i in
      let* _ := kassert (negb (cd_kern cd =? 0)) in
      let* _ := kassert (lowest_frame (co_cm s) <=? frame_number) in
      let* _ := free_frame_list_add_back i in
      release_run n (i + 1) frame_number
  end.

Definition cm_release_kframes (frame_number : Z) : M C unit :=
  let* cd := rd_cd frame_number in
  let* _ := kassert (negb (cd_kern cd =? 0)) in
  let num := cd_kern cd in
  let* _ := kassert (num >? 0) in
  release_run (Z.to_nat num) frame_number frame_number.

(** ** The pages of the kernel ([kern/vm/addrspace.c]) *)

Definition vm_alloc_kpages (npages : Z) : M C Z := cm_request_kframes npages.

Definition vm_free_kpages (addr : Z) : M C unit :=
  let paddr := s32 (s32 addr - MIPS_KSEG0) in
  let* _ := kassert (Z.rem paddr PAGE_SIZE =? 0) in
  cm_release_kframes (Z.quot paddr PAGE_SIZE).

#[global] Instance core_pages : Pages C := {
  alloc_kpages := vm_alloc_kpages;
  free_kpages := vm_free_kpages;
  ram_of := co_ram;
  set_ram := set_co_ram;
}.

(** ** Start-up *)

(** [for (i = core_map.size - 1; i >= core_map.lowest_frame; i--)], with [n]
    iterations left. *)
Fixpoint init_details (n : nat) (i : Z) : M C unit :=
  match n with
  | O => ret tt
  | S n =>
      let* _ := wr_cd i (mkCd i 0 None (Some (i - 1)) (Some (i + 1)) 1) in
      init_details n (i - 1)
  end.

(** [ram_getsize] and what follows, once the array has been allocated. *)
Definition cm_fill : M C unit :=
  let* s := get in
  let* (low, high) :=
    (fun s => match ram_getsize (co_ram s) with
              | Ret (lh, r) => Ret (lh, set_co_ram r s)
              | Stop w => Stop w
              end) in
  let* _ := kassert (negb (high =? 0)) in
  let size := cm_size (co_cm s) in
  let lowest := low / PAGE_SIZE in
  let* _ := modify (fun s =>
    let c := co_cm s in
    set_cm (mkCm (cm_init c) (cm_size c) (clock_pointer c) lowest (core_details c)
              (Some (size - 1)) (last_free c)) s) in
  let* _ := init_details (Z.to_nat (size - lowest)) (size - 1) in
  let* _ := upd_cd lowest (cd_set_next None) in
  let* _ := upd_cd (size - 1) (cd_set_prev None) in
  set_last_free (Some lowest).

Definition SIZEOF_CM_DETAIL : Z := 24.

(** [mips_ramsize] is what the bus controller reports. *)
Definition cm_bootstrap (mips_ramsize : Z) : M (kheap C) unit :=
  let* h := get in
  let s := kpages h in
  let* _ := kassert (co_spl s >? 0) in
  let* _ := kassert (cm_init (co_cm s) =? 0) in
  let size := s32 (mips_ramsize / PAGE_SIZE) in
  let* _ := modify (fun h =>
    let s := kpages h in
    let c := co_cm s in
    set_kpages (set_cm (mkCm 1 size (clock_pointer c) (lowest_frame c) (core_details c)
                          (free_frame_list c) (last_free c)) s) h) in
  let* p := kheap_kmalloc (u32 (SIZEOF_CM_DETAIL * size)) in
  if p =? 0 then halt Fault
  else
    let* _ := on_pages (modify (fun s =>
      set_cm (set_details (replicate (Z.to_nat size) None) (co_cm s)) s)) in
    on_pages cm_fill.

Definition SIZEOF_TLBFREENODE : Z := 8.

(** The nodes hold nothing until [tlb_init_free_list] has run; a null pointer
    is written through at once. *)
Definition tlb_bootstrap : M (kheap C) unit :=
  let* p := kheap_kmalloc (SIZEOF_TLBFREENODE * NUM_TLB) in
  if p =? 0 then halt Fault
  else
    let* _ := on_pages (on_tlb (modify (set_nodes (replicate (Z.to_nat NUM_TLB) (mkTlbnode 0 None))))) in
    on_pages (on_tlb tlb_init_free_list).

(** [for (i = 0; i < SWAP_PAGES - 1; i++)] and the last entry. *)
Definition init_pageList : list free_list :=
  (fun i => mkFl i (if i =? SWAP_PAGES - 1 then None else Some (i + 1))) <$> seqZ 0 SWAP_PAGES.

Definition SIZEOF_FREE_LIST : Z := 8.
Definition SIZEOF_VNODE : Z := 24.

(** [opened] is the file that [vfs_open] leaves in [swapfile]; its result is
    not looked at.  "SWAPFILE" is copied by [kstrdup] for the call. *)
Definition swap_bootstrap (opened : F) : M (kheap C) unit :=
  let* p := kheap_kmalloc (SIZEOF_FREE_LIST * SWAP_PAGES) in
  let* _ := kassert (negb (p =? 0)) in
  let* _ := on_pages (modify (fun s =>
    set_swap (mkSwapsys init_pageList (Some 0) (swapfile (co_swap s))) s)) in
  let* v := kheap_kmalloc SIZEOF_VNODE in
  let* _ := kassert (negb (v =? 0)) in
  let* path := kheap_kmalloc 9 in
  let* _ := kassert (negb (path =? 0)) in
  let* _ := on_pages (modify (fun s =>
    set_swap (mkSwapsys (pageList (co_swap s)) (freePages (co_swap s)) opened) s)) in
  kheap_kfree path.
End Core.
