(* ===== verification/CoremapProof.v ===== *)
(** * The free frames of the core map

    The free frames form a doubly linked list through the array of the core
    map: [cm_rep c l] says that the map is sound and that its list is [l].  The
    four operations on the list refine operations on lists of frame numbers and
    leave everything else alone ([cm_touch]). *)

From S2P Require Import Prelude.
From S2P Require Import Ram.
From S2P Require Import Kheap.
From S2P Require Import KheapProof.
From S2P Require Import Tlb.
From S2P Require Import Coremap.

(** ** The array of frames *)

Definition cdl (ds : list (option cm_detail)) (i : Z) : option cm_detail :=
  mjoin (ds !! Z.to_nat i).

Definition upd (ds : list (option cm_detail)) (i : Z) (cd : cm_detail) :=
  <[Z.to_nat i := Some cd]> ds.

Lemma cdl_upd ds i j cd :
  0 <= i < Z.of_nat (length ds) -> 0 <= j ->
  cdl (upd ds i cd) j = if decide (i = j) then Some cd else cdl ds j.
Proof.
  intros Hi Hj. unfold cdl, upd. case_decide as E; [subst; by rewrite list_lookup_insert_eq by lia|].
  by rewrite list_lookup_insert_ne by lia.
Qed.

Lemma length_upd ds i cd : length (upd ds i cd) = length ds.
Proof. apply length_insert. Qed.

Lemma cdl_in ds i cd : 0 <= i -> cdl ds i = Some cd -> 0 <= i < Z.of_nat (length ds).
Proof.
  unfold cdl. intros Hi H. apply bind_Some in H as (o & H & _). apply lookup_lt_Some in H. lia.
Qed.

Lemma rd_cdl ds i cd : 0 <= i -> cdl ds i = Some cd -> rd ds i = Ret (Some cd).
Proof.
  unfold cdl. intros Hi H. apply bind_Some in H as (o & H & He). simpl in He. subst o.
  by apply rd_lookup.
Qed.

(** ** Doubly linked lists *)

Definition link (ds : list (option cm_detail)) (i : Z) : option (option Z * option Z) :=
  (fun cd => (cd_prev_free cd, cd_next_free cd)) <$> cdl ds i.

Definition first (l : list Z) (n : option Z) : option Z :=
  match l with
  | [] => n
  | i :: _ => Some i
  end.

Definition final (p : option Z) (l : list Z) : option Z :=
  match last l with
  | Some i => Some i
  | None => p
  end.

(** The nodes [l] between the neighbours [p] and [n]. *)
Fixpoint dll (ds : list (option cm_detail)) (p : option Z) (l : list Z) (n : option Z) : Prop :=
  match l with
  | [] => True
  | i :: l => link ds i = Some (p, first l n) /\ dll ds (Some i) l n
  end.

Lemma dll_ext ds ds' p l n :
  (forall i, i ∈ l -> link ds' i = link ds i) -> dll ds p l n -> dll ds' p l n.
Proof.
  revert p. induction l as [|i l IH]; intros p He; [done|]. intros [Hl Hd]. split.
  - rewrite He by left. done.
  - apply IH; [|done]. intros j Hj. apply He. by right.
Qed.

Lemma final_cons p i l : final p (i :: l) = final (Some i) l.
Proof.
  unfold final. destruct l as [|j l]; [done|]. rewrite last_cons_cons.
  destruct (last (j :: l)) eqn:E; [done|]. by apply last_None in E.
Qed.

Lemma dll_app ds p l1 l2 n :
  dll ds p (l1 ++ l2) n <-> dll ds p l1 (first l2 n) /\ dll ds (final p l1) l2 n.
Proof.
  revert p. induction l1 as [|i l1 IH]; intros p; [simpl; tauto|].
  simpl app. cbn [dll]. rewrite IH, final_cons.
  replace (first (l1 ++ l2) n) with (first l1 (first l2 n)) by (by destruct l1). tauto.
Qed.

Lemma last_snoc_or (l : list Z) : l = [] \/ exists l0 t, l = l0 ++ [t].
Proof. induction l as [|x l _] using rev_ind; [by left|right; eauto]. Qed.

(** [cm_rep c l]: the map is set up, and [l] is its list of free frames. *)
Record cm_rep (c : cm) (l : list Z) : Prop := {
  cr_init : cm_init c <> 0;
  cr_low : 0 < lowest_frame c <= cm_size c;
  cr_len : Z.of_nat (length (core_details c)) = cm_size c;
  cr_id i : lowest_frame c <= i < cm_size c ->
    exists cd, cdl (core_details c) i = Some cd /\ cd_id cd = i;
  cr_dll : dll (core_details c) None l None;
  cr_head : free_frame_list c = first l None;
  cr_last : last_free c = final None l;
  cr_nodup : NoDup l;
  cr_in i : i ∈ l -> lowest_frame c <= i < cm_size c;
  cr_free i cd : lowest_frame c <= i < cm_size c -> cdl (core_details c) i = Some cd ->
    (i ∈ l <-> cd_free cd <> 0);
}.

Definition kern_of (c : cm) (i : Z) : Z := default 0 (cd_kern <$> cdl (core_details c) i).
Definition pd_of (c : cm) (i : Z) : option Z := cdl (core_details c) i ≫= cd_pd.

(** What an operation on the list leaves alone: everything but the list and
    the [kern] field of the frame [f]. *)
Record cm_touch (c c' : cm) (f k : Z) : Prop := {
  ct_init : cm_init c' = cm_init c;
  ct_size : cm_size c' = cm_size c;
  ct_clock : clock_pointer c' = clock_pointer c;
  ct_low : lowest_frame c' = lowest_frame c;
  ct_kern i : 0 <= i -> kern_of c' i = if decide (i = f) then k else kern_of c i;
  ct_pd i : 0 <= i -> pd_of c' i = pd_of c i;
}.

Section Proofs.
Context {F : Type} `{!SwapFile F}.
Implicit Types (s : core F) (c : cm) (l : list Z).

(** ** Entries, one statement at a time *)

Definition set_ds (ds : list (option cm_detail)) s : core F :=
  set_cm (set_details ds (co_cm s)) s.

Lemma wp_rd_cd {p : Prop} i cd s (Q : cm_detail -> core F -> Prop) :
  0 <= i -> cdl (core_details (co_cm s)) i = Some cd -> Q cd s -> wpo p (rd_cd i) s Q.
Proof.
  intros Hi Hc HQ. unfold rd_cd. wp_step. wp_step. wp_step.
  eapply wp_lift_Ret; [by apply rd_cdl|]. done.
Qed.

Lemma wp_wr_cd {p : Prop} i cd s (Q : unit -> core F -> Prop) :
  0 <= i < Z.of_nat (length (core_details (co_cm s))) ->
  Q tt (set_ds (upd (core_details (co_cm s)) i cd) s) -> wpo p (wr_cd i cd) s Q.
Proof.
  intros Hi HQ. unfold wr_cd. wp_step. wp_step. wp_step.
  eapply wp_lift_Ret; [by apply wr_in|]. exact HQ.
Qed.

Lemma wp_upd_cd {p : Prop} i f cd s (Q : unit -> core F -> Prop) :
  0 <= i -> cdl (core_details (co_cm s)) i = Some cd ->
  Q tt (set_ds (upd (core_details (co_cm s)) i (f cd)) s) -> wpo p (upd_cd i f) s Q.
Proof.
  intros Hi Hc HQ. unfold upd_cd. wp_step. eapply wp_rd_cd; [done..|].
  apply wp_wr_cd; [|done]. by eapply cdl_in.
Qed.

Lemma rep_change c l ds l' :
  cm_rep c l -> length ds = length (core_details c) ->
  (forall j cd, lowest_frame c <= j < cm_size c -> cdl (core_details c) j = Some cd ->
     exists cd', cdl ds j = Some cd' /\ cd_id cd' = cd_id cd /\ (j ∈ l' <-> cd_free cd' <> 0)) ->
  dll ds None l' None -> NoDup l' -> (forall i, i ∈ l' -> lowest_frame c <= i < cm_size c) ->
  cm_rep (mkCm (cm_init c) (cm_size c) (clock_pointer c) (lowest_frame c) ds
            (first l' None) (final None l')) l'.
Proof.
  intros R Hlen Hcd Hdll Hnd Hin. split; cbn [cm_init cm_size lowest_frame core_details free_frame_list last_free];
    try done; try apply R.
  - rewrite Hlen. apply R.
  - intros i Hi. destruct (cr_id _ _ R i Hi) as (cd & Hc & Hid).
    destruct (Hcd i cd Hi Hc) as (cd' & Hc' & Hid' & _). exists cd'. by rewrite Hid'.
  - intros i cd' Hi Hc'. destruct (cr_id _ _ R i Hi) as (cd & Hc & Hid).
    destruct (Hcd i cd Hi Hc) as (cd2 & Hc2 & _ & ?). by simplify_eq.
Qed.

Lemma rep_entry c l i :
  cm_rep c l -> lowest_frame c <= i < cm_size c ->
  0 <= i < Z.of_nat (length (core_details c)) /\
  exists cd, cdl (core_details c) i = Some cd /\ cd_id cd = i.
Proof.
  intros R Hi. pose proof (cr_low _ _ R). rewrite (cr_len _ _ R). split; [lia|]. by apply R.
Qed.
End Proofs.

(** Evaluate lookups in an updated array. *)
Ltac cdl_simp :=
  repeat first
    [ rewrite cdl_upd by (rewrite ?length_upd; lia)
    | rewrite decide_True by done
    | rewrite decide_False by done ].

(** Updates of the state in a normal form: the interrupt level, then the lists,
    then the entries. *)
Section Normal.
Context {F : Type}.
Implicit Types (s : core F) (c : cm).

Lemma set_cm_cm a b s : set_cm a (set_cm b s) = set_cm a s.
Proof. done. Qed.
Lemma set_spl_cm x c s : set_spl x (set_cm c s) = set_cm c (set_spl x s).
Proof. done. Qed.
Lemma set_spl_spl x y s : set_spl x (set_spl y s) = set_spl x s.
Proof. done. Qed.
Lemma core_spl_id s : set_spl (co_spl s) s = s.
Proof. by destruct s. Qed.
Lemma set_details_details a b c : set_details a (set_details b c) = set_details a c.
Proof. done. Qed.
Lemma set_list_details h t b c : set_list h t (set_details b c) = set_details b (set_list h t c).
Proof. done. Qed.
Lemma set_list_list h t h' t' c : set_list h t (set_list h' t' c) = set_list h t c.
Proof. done. Qed.
Lemma co_cm_set c s : co_cm (set_cm c s) = c.
Proof. done. Qed.
Lemma co_cm_spl x s : co_cm (set_spl x s) = co_cm s.
Proof. done. Qed.
Lemma co_spl_cm c s : co_spl (set_cm c s) = co_spl s.
Proof. done. Qed.
Lemma co_spl_spl x s : co_spl (set_spl x s) = x.
Proof. done. Qed.
Lemma details_set d c : core_details (set_details d c) = d.
Proof. done. Qed.
Lemma details_list h t c : core_details (set_list h t c) = core_details c.
Proof. done. Qed.
Lemma head_details d c : free_frame_list (set_details d c) = free_frame_list c.
Proof. done. Qed.
Lemma head_list h t c : free_frame_list (set_list h t c) = h.
Proof. done. Qed.
Lemma tail_details d c : last_free (set_details d c) = last_free c.
Proof. done. Qed.
Lemma tail_list h t c : last_free (set_list h t c) = t.
Proof. done. Qed.
End Normal.

Create Rewrite HintDb core.
#[export] Hint Rewrite @set_cm_cm @set_spl_cm @set_spl_spl @core_spl_id @set_details_details
  @set_list_details @set_list_list @co_cm_set @co_cm_spl @co_spl_cm @co_spl_spl @details_set
  @details_list @head_details @head_list @tail_details @tail_list : core.

Ltac core_cbn := unfold set_ds; autorewrite with core.

(** One statement on the core map, its entries found among the hypotheses. *)
Ltac cm_step :=
  cbv beta;
  lazymatch goal with
  | |- wpo _ (upd_cd _ _) _ _ =>
      eapply wp_upd_cd; core_cbn; [lia | cdl_simp; first [eassumption | reflexivity] |]
  | |- wpo _ (rd_cd _) _ _ =>
      eapply wp_rd_cd; core_cbn; [lia | cdl_simp; first [eassumption | reflexivity] |]
  | _ => wp_step
  end.
Ltac cm_steps := repeat cm_step; core_cbn.

Section FreeList.
Context {F : Type} `{!SwapFile F}.
Implicit Types (s : core F) (c : cm) (l : list Z).

Lemma link_upd ds i j cd :
  0 <= i < Z.of_nat (length ds) -> 0 <= j ->
  link (upd ds i cd) j =
    if decide (i = j) then Some (cd_prev_free cd, cd_next_free cd) else link ds j.
Proof. intros Hi Hj. unfold link. rewrite cdl_upd by done. by case_decide. Qed.

Lemma upd_upd ds i a b : upd (upd ds i a) i b = upd ds i b.
Proof. apply list_insert_insert_eq. Qed.

(** The links of other entries may change, and every field of [f] but its
    number and its page. *)
Definition entry_kept (f k : Z) (j : Z) (cd cd' : cm_detail) : Prop :=
  cd_id cd' = cd_id cd /\ cd_pd cd' = cd_pd cd /\
  cd_kern cd' = (if decide (j = f) then k else cd_kern cd) /\
  (j <> f -> cd_free cd' = cd_free cd).

Definition ds_kept (f k : Z) (ds ds' : list (option cm_detail)) : Prop :=
  length ds' = length ds /\
  forall j, 0 <= j -> option_Forall2 (entry_kept f k j) (cdl ds j) (cdl ds' j).

Lemma finish_op c l ds' l' f k b h t :
  cm_rep c l -> ds_kept f k (core_details c) ds' -> lowest_frame c <= f < cm_size c ->
  cd_free <$> cdl ds' f = Some b -> (f ∈ l' <-> b <> 0) -> (forall j, j <> f -> j ∈ l' <-> j ∈ l) ->
  dll ds' None l' None -> NoDup l' -> h = first l' None -> t = final None l' ->
  let c' := mkCm (cm_init c) (cm_size c) (clock_pointer c) (lowest_frame c) ds' h t in
  cm_rep c' l' /\ cm_touch c c' f k.
Proof.
  intros R [Hlen Hk] Hf Hfree Hfl Hl Hdll Hnd -> ->. pose proof (cr_low _ _ R). split.
  - apply (rep_change c l); try done.
    + intros j cd Hj Hc. specialize (Hk j ltac:(lia)). rewrite Hc in Hk.
      inversion Hk as [? cd' (Hid & _ & _ & Hfr) E1 E2|]; subst. exists cd'.
      split_and!; [done..|]. destruct (decide (j = f)) as [->|Hjf].
      * rewrite <- E2 in Hfree. simplify_eq/=. done.
      * rewrite (Hl j Hjf), (Hfr Hjf). by apply (cr_free _ _ R).
    + intros j Hj. destruct (decide (j = f)) as [->|Hjf]; [done|]. apply R. by apply Hl.
  - split; try done.
    + intros i Hi. unfold kern_of. cbn [core_details]. specialize (Hk i Hi).
      case_decide as E; [subst i|].
      * destruct (cr_id _ _ R f Hf) as (cd & Hc & _). rewrite Hc in Hk.
        inversion Hk as [? cd' (_ & _ & Hkern & _) E1 E2|]; subst. simpl. by rewrite Hkern, decide_True.
      * inversion Hk as [? cd' (_ & _ & Hkern & _) E1 E2|]; [|done]. simpl. by rewrite Hkern, decide_False.
    + intros i Hi. unfold pd_of. cbn [core_details]. specialize (Hk i Hi).
      inversion Hk as [? cd' (_ & Hpd & _) E1 E2|]; done.
Qed.

Lemma ds_kept_links f k ds ds' j cd p n :
  ds_kept f k ds ds' -> 0 <= j -> j <> f -> cdl ds' j = Some cd ->
  ds_kept f k ds (upd ds' j (mkCd (cd_id cd) (cd_kern cd) (cd_pd cd) n p (cd_free cd))).
Proof.
  intros [Hlen Hk] Hj Hjf Hc. pose proof (cdl_in _ _ _ Hj Hc). split; [by rewrite length_upd|].
  intros i Hi. rewrite cdl_upd by done. specialize (Hk i Hi). case_decide; [subst i|done].
  rewrite Hc in Hk. inversion Hk as [? ? He|]; subst. by constructor.
Qed.

Lemma ds_kept_target f k ds cd p n b :
  0 <= f -> cdl ds f = Some cd ->
  ds_kept f k ds (upd ds f (mkCd (cd_id cd) k (cd_pd cd) n p b)).
Proof.
  intros Hf Hc. pose proof (cdl_in _ _ _ Hf Hc). split; [by rewrite length_upd|].
  intros i Hi. rewrite cdl_upd by done. case_decide; [subst i; rewrite Hc; constructor|].
  - split_and!; [done..| |done]. by rewrite decide_True.
  - destruct (cdl ds i); constructor. split_and!; [done..| |done]. by rewrite decide_False.
Qed.

Lemma upd_comm ds i j a b :
  0 <= i -> 0 <= j -> i <> j -> upd (upd ds i a) j b = upd (upd ds j b) i a.
Proof. intros ???. unfold upd. apply list_insert_insert_ne. lia. Qed.

(** The entry at the end of the list before a new one is put behind it. *)
Lemma rep_last c l0 t :
  cm_rep c (l0 ++ [t]) -> exists cd, cdl (core_details c) t = Some cd /\ cd_next_free cd = None /\
    cd_prev_free cd = final None l0 /\ 0 <= t < Z.of_nat (length (core_details c)).
Proof.
  intros R. pose proof (cr_dll _ _ R) as Hd. apply dll_app in Hd as [_ [Hl _]].
  pose proof (cr_in _ _ R t ltac:(apply elem_of_app; right; by left)) as Ht.
  destruct (rep_entry _ _ _ R Ht) as (Hib & cd & Hc & _). exists cd.
  unfold link in Hl. rewrite Hc in Hl. by simplify_eq/=.
Qed.

Lemma rep_first c t l0 :
  cm_rep c (t :: l0) -> exists cd, cdl (core_details c) t = Some cd /\ cd_prev_free cd = None /\
    cd_next_free cd = first l0 None /\ 0 <= t < Z.of_nat (length (core_details c)).
Proof.
  intros R. pose proof (cr_dll _ _ R) as [Hl _].
  pose proof (cr_in _ _ R t ltac:(by left)) as Ht.
  destruct (rep_entry _ _ _ R Ht) as (Hib & cd & Hc & _). exists cd.
  unfold link in Hl. rewrite Hc in Hl. by simplify_eq/=.
Qed.

Lemma first_app l1 l2 n : first (l1 ++ l2) n = first l1 (first l2 n).
Proof. by destruct l1. Qed.

Lemma final_snoc p l t : final p (l ++ [t]) = Some t.
Proof. unfold final. by rewrite last_snoc. Qed.

Lemma free_frame_list_add_back_wp {p : Prop} s l i :
  cm_rep (co_cm s) l -> lowest_frame (co_cm s) <= i < cm_size (co_cm s) -> i ∉ l ->
  wpo p (free_frame_list_add_back i) s (fun _ s' => exists c',
    s' = set_cm c' s /\ cm_rep c' (l ++ [i]) /\ cm_touch (co_cm s) c' i 0).
Proof.
  intros R Hi Hni. destruct (rep_entry _ _ _ R Hi) as (Hib & cd & Hcd & Hid).
  unfold free_frame_list_add_back, splhigh, splx, set_free_frame_list, set_last_free.
  wp_steps. core_cbn. rewrite (cr_last _ _ R).
  destruct (last_snoc_or l) as [->|(l0 & t & ->)].
  - cbn [final last]. cm_steps. eexists. split; [reflexivity|]. core_cbn. rewrite !upd_upd.
    apply (finish_op (co_cm s) [] _ [i] i 0 1);
      [done|exact (ds_kept_target i 0 _ cd None None 1 ltac:(lia) Hcd)|done|..]; try done.
    + by cdl_simp.
    + split; [done|by left].
    + set_solver.
    + split; [|done]. rewrite link_upd, decide_True by (done || lia). done.
    + apply NoDup_singleton.
  - destruct (rep_last _ _ _ R) as (ct & Hct & Hnt & Hpt & Htb).
    assert (i <> t) as Hit by set_solver. rewrite final_snoc.
    cm_steps. eexists. split; [reflexivity|]. core_cbn.
    rewrite upd_upd, (upd_comm _ t i), !upd_upd by lia.
    pose proof (cr_nodup _ _ R) as Hnd. apply NoDup_app in Hnd as (Hnd & Hdis & _).
    apply (finish_op (co_cm s) (l0 ++ [t]) _ ((l0 ++ [t]) ++ [i]) i 0 1); try done.
    + apply (ds_kept_links i 0 _ _ t ct _ (Some i)); [|lia|done|by cdl_simp].
      exact (ds_kept_target i 0 _ cd (Some t) None 1 ltac:(lia) Hcd).
    + by cdl_simp.
    + set_solver.
    + set_solver.
    + rewrite <- app_assoc. apply dll_app. split.
      * apply (dll_ext (core_details (co_cm s))); [|exact (proj1 (proj1 (dll_app _ _ l0 [t] _) (cr_dll _ _ R)))].
        intros j Hj. assert (j <> i /\ j <> t) as [? ?] by set_solver.
        pose proof (cr_in _ _ R j ltac:(set_solver)). pose proof (cr_low _ _ R).
        rewrite !link_upd, !decide_False by (rewrite ?length_upd; done || lia). done.
      * cbn [dll app]. rewrite !link_upd by (rewrite ?length_upd; done || lia).
        rewrite decide_True, decide_False, decide_True by done. cbn. by rewrite Hpt.
    + apply NoDup_app. split_and!; [apply R|set_solver|apply NoDup_singleton].
    + rewrite (cr_head _ _ R), (first_app _ [i]). by destruct l0.
    + by rewrite final_snoc.
Qed.

(** Entries outside of a stretch of the list keep its links. *)
Lemma dll_upd ds p l n i cd :
  0 <= i < Z.of_nat (length ds) -> (forall j, j ∈ l -> 0 <= j) -> i ∉ l ->
  dll ds p l n -> dll (upd ds i cd) p l n.
Proof.
  intros Hi Hl Hni. apply dll_ext. intros j Hj. rewrite link_upd by auto.
  rewrite decide_False; [done|]. intros ->. contradiction.
Qed.

Lemma rep_nonneg c l : cm_rep c l -> forall j, j ∈ l -> 0 <= j.
Proof. intros R j Hj. apply (cr_in _ _ R) in Hj. pose proof (cr_low _ _ R). lia. Qed.

Lemma free_frame_list_add_wp {p : Prop} s l i :
  cm_rep (co_cm s) l -> lowest_frame (co_cm s) <= i < cm_size (co_cm s) -> i ∉ l ->
  wpo p (free_frame_list_add i) s (fun _ s' => exists c',
    s' = set_cm c' s /\ cm_rep c' (i :: l) /\ cm_touch (co_cm s) c' i 0).
Proof.
  intros R Hi Hni. destruct (rep_entry _ _ _ R Hi) as (Hib & cd & Hcd & Hid).
  pose proof (rep_nonneg _ _ R) as Hpos.
  unfold free_frame_list_add, splhigh, splx, set_free_frame_list, set_last_free.
  wp_steps. core_cbn. rewrite (cr_head _ _ R). destruct l as [|h l].
  - cbn [first]. cm_steps. eexists. split; [reflexivity|]. core_cbn. rewrite !upd_upd.
    apply (finish_op (co_cm s) [] _ [i] i 0 1);
      [done|exact (ds_kept_target i 0 _ cd None None 1 ltac:(lia) Hcd)|done|..]; try done.
    + by cdl_simp.
    + split; [done|by left].
    + set_solver.
    + split; [|done]. rewrite link_upd, decide_True by (done || lia). done.
    + apply NoDup_singleton.
  - destruct (rep_first _ _ _ R) as (ch & Hch & Hph & Hnh & Hhb).
    assert (i <> h) as Hih by set_solver. cbn [first].
    cm_steps. eexists. split; [reflexivity|]. core_cbn.
    rewrite upd_upd, (upd_comm _ h i), !upd_upd by lia.
    pose proof (cr_nodup _ _ R) as Hnd. apply NoDup_cons in Hnd as [Hhl _].
    apply (finish_op (co_cm s) (h :: l) _ (i :: h :: l) i 0 1); try done.
    + apply (ds_kept_links i 0 _ _ h ch (Some i)); [|lia|done|by cdl_simp].
      exact (ds_kept_target i 0 _ cd None (Some h) 1 ltac:(lia) Hcd).
    + by cdl_simp.
    + set_solver.
    + set_solver.
    + cbn [dll]. rewrite !link_upd by (rewrite ?length_upd; done || lia).
      rewrite decide_False, !decide_True by done. cbn. rewrite Hnh. split_and!; [done..|].
      apply dll_upd; [rewrite length_upd; lia|set_solver..|]. apply dll_upd; [lia|set_solver..|].
      apply (cr_dll _ _ R).
    + apply NoDup_cons. split; [done|apply R].
    + rewrite (cr_last _ _ R). by rewrite !final_cons.
Qed.

Lemma free_frame_list_pop_wp {p : Prop} s i l :
  cm_rep (co_cm s) (i :: l) ->
  wpo p free_frame_list_pop s (fun r s' => r = Some i /\ exists c',
    s' = set_cm c' s /\ cm_rep c' l /\ cm_touch (co_cm s) c' i 1).
Proof.
  intros R. pose proof (cr_in _ _ R i ltac:(by left)) as Hi. pose proof (rep_nonneg _ _ R) as Hpos.
  destruct (rep_first _ _ _ R) as (cd & Hcd & Hpi & Hni & Hib).
  pose proof (cr_nodup _ _ R) as Hnd. apply NoDup_cons in Hnd as [Hil Hnd].
  unfold free_frame_list_pop, splhigh, splx, set_free_frame_list, set_last_free.
  wp_steps. core_cbn. rewrite (cr_head _ _ R). cbn [first]. cm_step. cm_step. core_cbn. rewrite Hni.
  destruct l as [|h l]; cbn [first].
  - cm_steps. split; [done|]. eexists. split; [reflexivity|]. core_cbn. rewrite !upd_upd.
    apply (finish_op (co_cm s) [i] _ [] i 1 0); try done.
    + exact (ds_kept_target i 1 _ cd (cd_prev_free cd) (cd_next_free cd) 0 ltac:(lia) Hcd).
    + by cdl_simp.
    + set_solver.
  - destruct (rep_entry _ _ h R) as (Hhb & ch & Hch & _); [apply (cr_in _ _ R); set_solver|].
    assert (i <> h) as Hih by set_solver.
    cm_steps. split; [done|]. eexists. split; [reflexivity|]. core_cbn.
    rewrite !upd_upd, (upd_comm _ h i) by lia.
    apply (finish_op (co_cm s) (i :: h :: l) _ (h :: l) i 1 0); try done.
    + apply (ds_kept_links i 1 _ _ h ch None); [|lia|done|by cdl_simp].
      exact (ds_kept_target i 1 _ cd (cd_prev_free cd) (cd_next_free cd) 0 ltac:(lia) Hcd).
    + by cdl_simp.
    + intros j Hj. rewrite (elem_of_cons (h :: l)). tauto.
    + destruct (cr_dll _ _ R) as (_ & Hlh & Hd). unfold link in Hlh. rewrite Hch in Hlh.
      cbn in Hlh. injection Hlh as _ Hnx. cbn [dll]. rewrite link_upd, decide_True by (rewrite ?length_upd; done || lia). split; [cbn; by rewrite Hnx|].
      apply NoDup_cons in Hnd as [Hhl _].
      apply dll_upd; [rewrite length_upd; lia|set_solver..|]. apply dll_upd; [lia|set_solver..|]. done.
    + rewrite (cr_last _ _ R). by rewrite !final_cons.
Qed.

Lemma final_app p l1 l2 : final p (l1 ++ l2) = final (final p l1) l2.
Proof.
  revert p. induction l1 as [|i l1 IH]; intros p; [done|]. simpl app. by rewrite !final_cons.
Qed.

Lemma final_in i l : exists t, final (Some i) l = Some t /\ t ∈ i :: l.
Proof.
  destruct (last_snoc_or l) as [->|(l0 & t & ->)]; [exists i; split; [done|by left]|].
  exists t. rewrite final_snoc. split; [done|set_solver].
Qed.

Lemma first_in l t n : exists x, first (l ++ [t]) n = Some x /\ x ∈ l ++ [t].
Proof. destruct l as [|x l]; [exists t | exists x]; (split; [done|set_solver]). Qed.

Lemma dll_entry ds l1 i l2 cd :
  dll ds None (l1 ++ i :: l2) None -> cdl ds i = Some cd ->
  cd_prev_free cd = final None l1 /\ cd_next_free cd = first l2 None /\
  dll ds None l1 (Some i) /\ dll ds (Some i) l2 None.
Proof.
  intros Hd Hc. apply dll_app in Hd as [H1 [Hl H2]]. unfold link in Hl. rewrite Hc in Hl.
  cbn in Hl. injection Hl as Hp Hn. done.
Qed.

(** Changing the neighbours of a stretch. *)
Lemma dll_set_next ds p l t n n' ct :
  dll ds p (l ++ [t]) n -> NoDup (l ++ [t]) -> (forall j, j ∈ l ++ [t] -> 0 <= j) ->
  cdl ds t = Some ct -> dll (upd ds t (cd_set_next n' ct)) p (l ++ [t]) n'.
Proof.
  intros Hd Hnd Hpos Hct. apply NoDup_app in Hnd as (_ & Hdis & _).
  assert (0 <= t < Z.of_nat (length ds)) as Ht by (eapply cdl_in; [set_solver|done]).
  apply dll_app in Hd as [Hd [Hl _]]. apply dll_app. split.
  - apply dll_upd; [done|set_solver|set_solver|exact Hd].
  - split; [|done]. rewrite link_upd, decide_True by (done || lia). unfold link in Hl.
    rewrite Hct in Hl. injection Hl as Hp _. cbn [cd_prev_free cd_next_free cd_set_next]. by rewrite Hp.
Qed.

Lemma dll_set_prev ds p p' h l n ch :
  dll ds p (h :: l) n -> NoDup (h :: l) -> (forall j, j ∈ h :: l -> 0 <= j) ->
  cdl ds h = Some ch -> dll (upd ds h (cd_set_prev p' ch)) p' (h :: l) n.
Proof.
  intros [Hl Hd] Hnd Hpos Hch. apply NoDup_cons in Hnd as (Hhl & _).
  assert (0 <= h < Z.of_nat (length ds)) as Hh by (eapply cdl_in; [set_solver|done]). split.
  - rewrite link_upd, decide_True by (done || lia). unfold link in Hl. rewrite Hch in Hl.
    injection Hl as _ Hn. cbn [cd_prev_free cd_next_free cd_set_prev]. by rewrite Hn.
  - apply dll_upd; [done|set_solver|done|done].
Qed.

Lemma free_frame_list_remove_wp {p : Prop} s l1 i l2 :
  cm_rep (co_cm s) (l1 ++ i :: l2) ->
  wpo p (free_frame_list_remove i) s (fun _ s' => exists c',
    s' = set_cm c' s /\ cm_rep c' (l1 ++ l2) /\ cm_touch (co_cm s) c' i 1).
Proof.
  intros R. pose proof (cr_in _ _ R i ltac:(set_solver)) as Hi. pose proof (rep_nonneg _ _ R) as Hpos.
  destruct (rep_entry _ _ _ R Hi) as (Hib & cd & Hcd & Hid).
  destruct (dll_entry _ _ _ _ _ (cr_dll _ _ R) Hcd) as (Hp & Hn & Hd1 & Hd2).
  pose proof (cr_nodup _ _ R) as Hnd. apply NoDup_app in Hnd as (Hnd1 & Hdis & Hnd2).
  apply NoDup_cons in Hnd2 as [Hi2 Hnd2].
  unfold free_frame_list_remove, splhigh, splx, set_free_frame_list, set_last_free.
  do 8 wp_step. cbv zeta. core_cbn.
  rewrite (cr_head _ _ R), (cr_last _ _ R), first_app, final_app, final_cons. cbn [first].
  assert (forall ds' l' h t, ds_kept i 1 (core_details (co_cm s)) ds' ->
    cd_free <$> cdl ds' i = Some 0 -> l' = l1 ++ l2 -> dll ds' None l' None ->
    h = first l' None -> t = final None l' ->
    exists c', set_cm (set_details ds' (set_list h t (co_cm s))) s = set_cm c' s /\
      cm_rep c' l' /\ cm_touch (co_cm s) c' i 1) as Hfin.
  { intros ds' l' h t Hk Hf -> Hd -> ->. eexists. split; [reflexivity|].
    apply (finish_op (co_cm s) (l1 ++ i :: l2) ds' _ i 1 0); try done.
    - set_solver.
    - set_solver.
    - apply NoDup_app. split_and!; [done|set_solver|done]. }
  destruct (last_snoc_or l1) as [->|(l0 & t & ->)], l2 as [|h l2].
  - cbn [first final last]. cm_step. apply wp_kassert; [by rewrite !bool_decide_eq_true_2|].
    rewrite bool_decide_eq_true_2 by done. cm_step. cm_step. apply wp_kassert; [done|].
    cm_steps. rewrite !upd_upd. apply Hfin; try done.
    + exact (ds_kept_target i 1 _ cd (cd_prev_free cd) (cd_next_free cd) 0 ltac:(lia) Hcd).
    + by cdl_simp.
  - cbn [first final last app] in *. rewrite final_cons. destruct (final_in h l2) as (t & Et & Ht).
    assert (i <> t) as Hit by set_solver. rewrite Et.
    cm_step. apply wp_kassert; [by rewrite !bool_decide_eq_true_2|].
    rewrite bool_decide_eq_false_2 by congruence. rewrite bool_decide_eq_true_2 by done.
    cm_step. cm_step. cm_step. rewrite Hn. cbn [deref]. destruct (rep_entry _ _ h R) as (Hhb & ch & Hch & _);
      [apply (cr_in _ _ R); set_solver|]. assert (i <> h) as Hih by set_solver.
    cm_steps. rewrite !upd_upd, (upd_comm _ h i) by lia. apply Hfin; try done.
    + apply (ds_kept_links i 1 _ _ h ch None); [|lia|done|by cdl_simp].
      exact (ds_kept_target i 1 _ cd (cd_prev_free cd) (cd_next_free cd) 0 ltac:(lia) Hcd).
    + by cdl_simp.
    + eapply dll_set_prev; [apply dll_upd; [lia|set_solver|done|exact Hd2]|done|set_solver|by cdl_simp].
    + rewrite (cr_last _ _ R), !final_cons. done.
  - rewrite app_nil_r in *. cbn [final last first].
    destruct (rep_entry _ _ t R) as (Htb & ct & Hct & _); [apply (cr_in _ _ R); set_solver|].
    assert (i <> t) as Hit by set_solver. rewrite final_snoc in Hp.
    destruct (first_in l0 t (Some i)) as (x & Hx & Hxl).
    assert (Some x <> Some i) as Hxi by set_solver.
    rewrite Hx. cm_step. apply wp_kassert; [by rewrite !bool_decide_eq_true_2|].
    rewrite !bool_decide_eq_false_2 by done. rewrite bool_decide_eq_true_2 by done.
    cm_step. cm_step. cm_step. rewrite Hp. cbn [deref].
    cm_steps. rewrite !upd_upd, (upd_comm _ t i) by lia. apply Hfin; try done.
    + apply (ds_kept_links i 1 _ _ t ct _ None); [|lia|done|by cdl_simp].
      exact (ds_kept_target i 1 _ cd (cd_prev_free cd) (cd_next_free cd) 0 ltac:(lia) Hcd).
    + by cdl_simp.
    + eapply dll_set_next; [apply dll_upd; [lia|set_solver|set_solver|exact Hd1]|done|set_solver|by cdl_simp].
    + rewrite (cr_head _ _ R), first_app. by destruct l0.
    + by rewrite final_snoc.
  - destruct (rep_entry _ _ t R) as (Htb & ct & Hct & _); [apply (cr_in _ _ R); set_solver|].
    destruct (rep_entry _ _ h R) as (Hhb & ch & Hch & _); [apply (cr_in _ _ R); set_solver|].
    assert (i <> t /\ i <> h /\ t <> h) as (Hit & Hih & Hth) by set_solver.
    destruct (first_in l0 t (Some i)) as (x & Hx & Hxl). rewrite final_cons.
    destruct (final_in h l2) as (y & Hy & Hyl). rewrite Hx, Hy.
    rewrite final_snoc in Hp. cbn [first] in Hn.
    cm_step. apply wp_kassert; [by rewrite !bool_decide_eq_true_2|].
    rewrite !bool_decide_eq_false_2 by set_solver.
    cm_step. cm_step. cm_step. rewrite Hp, Hn. cbn [deref]. cm_steps. rewrite Hp, Hn. cbn [deref].
    cm_steps. rewrite !upd_upd, (upd_comm _ h i), (upd_comm _ t i) by lia. apply Hfin; try done.
    + apply (ds_kept_links i 1 _ _ h ch (Some t)); [|lia|done|by cdl_simp].
      apply (ds_kept_links i 1 _ _ t ct _ (Some h)); [|lia|done|by cdl_simp].
      exact (ds_kept_target i 1 _ cd (cd_prev_free cd) (cd_next_free cd) 0 ltac:(lia) Hcd).
    + by cdl_simp.
    + apply dll_app. rewrite final_snoc. split.
      * apply dll_upd; [rewrite !length_upd; lia|set_solver|set_solver|].
        eapply dll_set_next; [apply dll_upd; [lia|set_solver|set_solver|exact Hd1]|done|set_solver|by cdl_simp].
      * eapply dll_set_prev; [|done|set_solver|by cdl_simp].
        apply dll_upd; [rewrite length_upd; lia|set_solver|set_solver|].
        apply dll_upd; [lia|set_solver|done|exact Hd2].
    + fold (free_frame_list (co_cm s)). rewrite (cr_head _ _ R). by destruct l0.
    + fold (last_free (co_cm s)). rewrite (cr_last _ _ R), !final_app, !final_cons. done.
Qed.
End FreeList.
