(* ===== verification/CoremapInv.v ===== *)
(** * The core map is a page allocator

    [frames_ok s l U X fl] classifies the page frames: free ([l]), holding a
    user page ([U]), or reserved for a page on its way in ([X]); the others are
    the kernel's, which [kern_ok] says in terms of the [kern] field.  [fl] is
    the list of free pages of the swap file.  Every page that a page table
    describes is in one place at most, a frame or a page of the swap file.

    Eviction keeps the contents of the pages it moves, and the core map
    satisfies [PagesLaws], so that the kernel heap runs on it. *)

From S2P Require Import Prelude.
From S2P Require Import Ram.
From S2P Require Import Kheap.
From S2P Require Import KheapProof.
From S2P Require Import Tlb.
From S2P Require Import Coremap.
From S2P Require Import CoremapProof.

(** ** The swap file *)

Fixpoint swap_chain (nodes : list free_list) (p : option Z) (l : list Z) : Prop :=
  match l with
  | [] => p = None
  | i :: l => p = Some i /\ 0 <= i /\
      exists n, nodes !! Z.to_nat i = Some n /\ swap_chain nodes (fl_next n) l
  end.

Lemma swap_chain_insert nodes p l i n :
  0 <= i -> i ∉ l -> swap_chain nodes p l -> swap_chain (<[Z.to_nat i := n]> nodes) p l.
Proof.
  intros Hi. revert p. induction l as [|j l IH]; intros p Hni; [done|].
  rewrite not_elem_of_cons in Hni. destruct Hni as [Hne Hni]. intros (-> & Hj & n' & Hn' & Hc).
  split_and!; [done..|]. exists n'. rewrite list_lookup_insert_ne by lia. auto.
Qed.

Section Inv.
Context {F : Type} `{!SwapFile F, !SwapFileLaws F}.
Implicit Types (s : core F) (c : cm) (l fl : list Z) (U X : gset Z) (w : swapsys F).

Record swap_rep w fl : Prop := {
  sr_len : Z.of_nat (length (pageList w)) = SWAP_PAGES;
  sr_index i n : 0 <= i -> pageList w !! Z.to_nat i = Some n -> fl_index n = i;
  sr_chain : swap_chain (pageList w) (freePages w) fl;
  sr_nodup : NoDup fl;
  sr_in i : i ∈ fl -> 0 <= i < SWAP_PAGES;
}.

(** A page table entry: the page is in a frame that points back to it, in the
    swap file, or in neither. *)
Record pd_ok (c : cm) (U : gset Z) (fl : list Z) (a : Z) (pd : page_detail) : Prop := {
  po_vaddr : user_page (pd_vaddr pd);
  po_pfn : pd_pfn pd = -1 \/ (pd_pfn pd ∈ U /\ pd_of c (pd_pfn pd) = Some a /\ pd_sfn pd = -1);
  po_valid : pd_pfn pd = -1 \/ pd_valid pd <> 0;
  po_sfn : pd_sfn pd = -1 \/ (0 <= pd_sfn pd < SWAP_PAGES /\ (pd_sfn pd ∉ fl));
}.

Record frames_ok s l U X fl : Prop := {
  fo_rep : cm_rep (co_cm s) l;
  fo_ram : lastpaddr (co_ram s) = 0;
  fo_size : cm_size (co_cm s) * PAGE_SIZE <= RAM_LIMIT;
  fo_clock : 0 <= clock_pointer (co_cm s);
  fo_clock_lt : lowest_frame (co_cm s) < cm_size (co_cm s) ->
    clock_pointer (co_cm s) < cm_size (co_cm s) - lowest_frame (co_cm s);
  fo_user i : i ∈ U -> lowest_frame (co_cm s) <= i < cm_size (co_cm s) /\ (i ∉ l) /\
    exists a pd, pd_of (co_cm s) i = Some a /\ co_pds s !! a = Some pd /\ pd_pfn pd = i;
  fo_coming i : i ∈ X -> lowest_frame (co_cm s) <= i < cm_size (co_cm s) /\ (i ∉ l) /\ (i ∉ U) /\
    pd_of (co_cm s) i = None;
  fo_pds a pd : co_pds s !! a = Some pd -> pd_ok (co_cm s) U fl a pd;
  fo_swap a a' pd pd' : co_pds s !! a = Some pd -> co_pds s !! a' = Some pd' -> a <> a' ->
    pd_sfn pd = pd_sfn pd' -> pd_sfn pd = -1;
  fo_up : co_pds s = ∅ \/
    ((exists tl m, tlb_rep (co_tlb s) tl m) /\ swap_rep (co_swap s) fl);
}.

Definition kern_ok c l U X : Prop :=
  forall i, lowest_frame c <= i < cm_size c ->
    0 <= kern_of c i /\ (kern_of c i = 0 <-> i ∈ l \/ i ∈ U \/ i ∈ X).

(** Where the bytes of the page described at address [a] are. *)
Definition page_bytes s (a : Z) : option page :=
  pd ← co_pds s !! a;
  if pd_pfn pd =? -1 then
    if pd_sfn pd =? -1 then None else swap_img (swapfile (co_swap s)) !! s32 (pd_sfn pd * PAGE_SIZE)
  else Some (frame_bytes s (pd_pfn pd)).

(** The translation buffer knows only pages that are where it says. *)
Definition coherent s : Prop :=
  forall v lo, user_page v -> translate (co_tlb s) v = Some lo ->
  exists a pd, co_pds s !! a = Some pd /\ pd_vaddr pd = v /\
    pd_pfn pd = Z.land lo PAGE_FRAME / PAGE_SIZE.

(** The transfers of the swap file that have failed so far. *)
Definition errors s : nat := swap_errors (swapfile (co_swap s)).

(** ** Taking a page of the swap file *)

Lemma swap_write_wp s fl f :
  swap_rep (co_swap s) fl ->
  wpo (fl = []) (swap_write f) s (fun n s' => exists fl' w, fl = n :: fl' /\ s' = set_swap w s /\
    swap_rep w fl' /\ (errors s <= errors s')%nat /\
    (errors s' = errors s ->
     swap_img (swapfile w) = <[s32 (n * PAGE_SIZE) := frame_bytes s f]> (swap_img (swapfile (co_swap s))))).
Proof.
  intros W. destruct fl as [|n fl].
  - pose proof (sr_chain _ _ W) as Hc. cbn in Hc. unfold wpx, swap_write, splhigh, bind, get, put, ret.
    cbn [co_swap set_spl]. by rewrite Hc.
  - destruct (sr_chain _ _ W) as (Hf & Hn & nd & Hnd & Hc).
    pose proof (sr_index _ _ W n nd Hn Hnd) as Hid. pose proof (sr_nodup _ _ W) as Hd.
    apply NoDup_cons in Hd as [_ Hd].
    eapply wp_Ret.
    { unfold swap_write, splhigh, bind, get, put, ret. cbn [co_swap set_spl]. rewrite Hf.
      unfold lift. rewrite (rd_lookup _ _ nd Hn Hnd). reflexivity. }
    exists fl. eexists. rewrite Hid. split; [done|]. split; [by destruct s|]. split.
    + split; cbn [pageList freePages]; [apply W|apply W|done|done|].
      intros i Hi. apply (sr_in _ _ W). by right.
    + apply swap_write_law.
Qed.

(** ** What a step of the virtual memory system keeps

    The layout of memory, the page tables, unless a transfer of the swap file
    fails the bytes of every page that cannot be read from its file again, and the soundness of the translation buffer,
    which may lose entries. *)
Record evolves s s' : Prop := {
  ev_init : cm_init (co_cm s') = cm_init (co_cm s);
  ev_size : cm_size (co_cm s') = cm_size (co_cm s);
  ev_low : lowest_frame (co_cm s') = lowest_frame (co_cm s);
  ev_ram : co_ram s' = co_ram s;
  ev_none a : co_pds s !! a = None -> co_pds s' !! a = None;
  ev_pd a pd : co_pds s !! a = Some pd -> exists pd', co_pds s' !! a = Some pd' /\
    pd_vaddr pd' = pd_vaddr pd /\ pd_dirty pd' = pd_dirty pd /\
    (errors s' = errors s -> pd_dirty pd <> 0 -> page_bytes s' a = page_bytes s a);
  ev_errors : (errors s <= errors s')%nat;
  ev_out a pd pd' : co_pds s !! a = Some pd -> co_pds s' !! a = Some pd' ->
    pd_pfn pd = -1 -> pd_pfn pd' = -1 /\ pd_sfn pd' = pd_sfn pd;
  ev_tlb tl m : tlb_rep (co_tlb s) tl m ->
    exists tl' m', tlb_rep (co_tlb s') tl' m' /\ m' ⊆ m;
  ev_coherent : coherent s -> coherent s';
}.

#[global] Instance evolves_preorder : PreOrder evolves.
Proof.
  split.
  - intros s. split; try done; [|by intros; simplify_eq|by eauto]. intros a pd Ha. by exists pd.
  - intros s1 s2 s3 [] []. split; try congruence; try lia; try auto.
    2:{ intros a pd pd3 Ha Ha3 Hp. destruct (ev_pd0 a pd Ha) as (pd2 & Ha2 & _).
        destruct (ev_out0 a pd pd2 Ha Ha2 Hp) as [Hp2 <-]. by apply (ev_out1 a). }
    2:{ intros tl m Ht. destruct (ev_tlb0 tl m Ht) as (tl2 & m2 & Ht2 & Hm2).
        destruct (ev_tlb1 tl2 m2 Ht2) as (tl3 & m3 & Ht3 & Hm3). exists tl3, m3. split; [done|].
        by transitivity m2. }
    intros a pd Ha. destruct (ev_pd0 a pd Ha) as (pd2 & Ha2 & Hv2 & Hd2 & Hb2).
    destruct (ev_pd1 a pd2 Ha2) as (pd3 & Ha3 & Hv3 & Hd3 & Hb3).
    exists pd3. split_and!; try congruence. intros He Hd. rewrite Hb3, Hb2; (done || congruence || lia).
Qed.

(** Steps that touch only the core map and the interrupt level. *)
Lemma evolves_cm s c' x :
  cm_init c' = cm_init (co_cm s) -> cm_size c' = cm_size (co_cm s) ->
  lowest_frame c' = lowest_frame (co_cm s) -> evolves s (set_spl x (set_cm c' s)).
Proof. intros. split; try done; [|by intros; simplify_eq/=|by eauto]. intros a pd Ha. by exists pd. Qed.

Lemma evolves_spl s x : evolves s (set_spl x s).
Proof. by apply (evolves_cm s (co_cm s) x). Qed.

Lemma frames_spl s l U X fl x : frames_ok s l U X fl -> frames_ok (set_spl x s) l U X fl.
Proof. by intros []. Qed.

Lemma wp_on_tlb {A} {p : Prop} (m : M tlbsys A) s (Q : A -> core F -> Prop) :
  wpo p m (co_tlb s) (fun x t => Q x (set_tlb t s)) -> wpo p (on_tlb m) s Q.
Proof. unfold wpx, on_tlb. by destruct (m (co_tlb s)) as [[]|]. Qed.

Lemma wp_rd_pd {p : Prop} a pd s (Q : page_detail -> core F -> Prop) :
  co_pds s !! a = Some pd -> Q pd s -> wpo p (rd_pd (Some a)) s Q.
Proof. intros Ha HQ. unfold rd_pd. wp_step. wp_step. by rewrite Ha. Qed.

Lemma wp_upd_pd {p : Prop} a pd f s (Q : unit -> core F -> Prop) :
  co_pds s !! a = Some pd -> Q tt (set_pds (<[a := f pd]> (co_pds s)) s) ->
  wpo p (upd_pd (Some a) f) s Q.
Proof.
  intros Ha HQ. unfold upd_pd. wp_step. eapply wp_rd_pd; [done|]. wp_step. cbn [deref]. wp_step.
  by wp_step.
Qed.

(** Changing an entry that is not on the free list. *)
Lemma rep_upd_other c l i cd cd' :
  cm_rep c l -> lowest_frame c <= i < cm_size c -> i ∉ l -> cdl (core_details c) i = Some cd ->
  cd_id cd' = cd_id cd -> cd_free cd' = cd_free cd ->
  cm_rep (set_details (upd (core_details c) i cd') c) l.
Proof.
  intros R Hi Hl Hc Hid Hfr. destruct (rep_entry _ _ _ R Hi) as (Hib & _).
  pose proof (cr_low _ _ R).
  split; cbn [set_details cm_init cm_size lowest_frame core_details free_frame_list last_free]; try apply R.
  - rewrite length_upd. apply R.
  - intros j Hj. rewrite cdl_upd by lia. destruct (decide (i = j)) as [->|]; [|by apply R].
    exists cd'. split; [done|]. rewrite Hid. destruct (cr_id _ _ R j Hi) as (? & ? & ?). by simplify_eq.
  - apply dll_upd; [done|apply (rep_nonneg _ _ R)|done|apply R].
  - intros j cdj Hj. rewrite cdl_upd by lia. destruct (decide (i = j)) as [->|]; [|by apply R].
    intros [= <-]. rewrite Hfr. by apply R.
Qed.

(** ** Eviction *)

(** The page goes to the swap file if it is dirty and nowhere if it is not. *)
Definition saved s fl i (pd : page_detail) (n : Z) w fl' : Prop :=
  (pd_dirty pd = 0 /\ n = -1 /\ fl' = fl /\ w = co_swap s) \/
  (pd_dirty pd <> 0 /\ fl = n :: fl' /\ swap_rep w fl' /\ (errors s <= swap_errors (swapfile w))%nat /\
   (swap_errors (swapfile w) = errors s ->
    swap_img (swapfile w) = <[s32 (n * PAGE_SIZE) := frame_bytes s i]> (swap_img (swapfile (co_swap s))))).

Definition evicted_cm c i (cd : cm_detail) : cm :=
  set_details (upd (core_details c) i
    (mkCd (cd_id cd) (cd_kern cd) None None (cd_prev_free cd) (cd_free cd))) c.

Definition evicted_pd (pd : page_detail) (n : Z) : page_detail :=
  mkPd (pd_vaddr pd) (-1) n 0 (pd_dirty pd) 0.

Lemma evicted_fields c l i cd j :
  cm_rep c l -> lowest_frame c <= i < cm_size c -> cdl (core_details c) i = Some cd -> 0 <= j ->
  kern_of (evicted_cm c i cd) j = kern_of c j /\
  pd_of (evicted_cm c i cd) j = if decide (i = j) then None else pd_of c j.
Proof.
  intros R Hi Hc Hj. destruct (rep_entry _ _ _ R Hi) as (Hib & _).
  unfold kern_of, pd_of, evicted_cm. cbn [core_details set_details]. rewrite cdl_upd by lia.
  case_decide; [subst|done]. by rewrite Hc.
Qed.

Lemma swap_slot_inj n n' :
  0 <= n < SWAP_PAGES -> 0 <= n' < SWAP_PAGES -> s32 (n * PAGE_SIZE) = s32 (n' * PAGE_SIZE) -> n = n'.
Proof.
  change SWAP_PAGES with 1024. unfold PAGE_SIZE. intros ??. rewrite !s32_small by lia. lia.
Qed.

Section Evict.
Context (s : core F) l U X fl (i a : Z) (pd : page_detail) (cd : cm_detail) (t : tlbsys)
  (w : swapsys F) fl' (n spl : Z) (tl : list Z) (m : gmap Z Z)
  (Hok : frames_ok s l U X fl) (Hi : i ∈ U)
  (Ha : pd_of (co_cm s) i = Some a) (Hpd : co_pds s !! a = Some pd) (Hpfn : pd_pfn pd = i)
  (Hcd : cdl (core_details (co_cm s)) i = Some cd)
  (Ht0 : tlb_rep (co_tlb s) tl m)
  (Ht : forall tl m, tlb_rep (co_tlb s) tl m -> exists tl', tlb_rep t tl' (delete (pd_vaddr pd) m))
  (Hsw : swap_rep (co_swap s) fl) (Hs : saved s fl i pd n w fl').

Let s' : core F := mkCore (co_ram s) t (evicted_cm (co_cm s) i cd)
  (<[a := evicted_pd pd n]> (co_pds s)) w (co_mem s) spl.

Lemma evict_range : lowest_frame (co_cm s) <= i < cm_size (co_cm s) /\ 0 <= i /\ (i ∉ l).
Proof.
  destruct (fo_user _ _ _ _ _ Hok i Hi) as (Hr & Hl & _).
  pose proof (cr_low _ _ (fo_rep _ _ _ _ _ Hok)). repeat split; try done; lia.
Qed.

Lemma evict_pd_of j : 0 <= j -> pd_of (co_cm s') j = if decide (i = j) then None else pd_of (co_cm s) j.
Proof.
  intros Hj. apply (evicted_fields _ l _ _ _ (fo_rep _ _ _ _ _ Hok)); [apply evict_range|done|done].
Qed.

Lemma evict_slot : n = -1 \/ (0 <= n < SWAP_PAGES /\ (n ∉ fl') /\
  forall b pdb, co_pds s !! b = Some pdb -> pd_sfn pdb <> n).
Proof.
  destruct Hs as [(_ & -> & _)|(_ & Hfl & _)]; [by left|right].
  pose proof (sr_nodup _ _ Hsw) as Hnd. rewrite Hfl in Hnd. apply NoDup_cons in Hnd as [Hn _].
  pose proof (sr_in _ _ Hsw n ltac:(rewrite Hfl; by left)) as Hr. split; [done|]. split; [done|].
  intros b pdb Hb E. destruct (po_sfn _ _ _ _ _ (fo_pds _ _ _ _ _ Hok b pdb Hb)) as [|[_ H]]; [lia|].
  apply H. rewrite E, Hfl. by left.
Qed.

Lemma evict_fl b : b ∈ fl' -> b ∈ fl.
Proof. destruct Hs as [(_ & _ & -> & _)|(_ & -> & _)]; [done|by right]. Qed.

Lemma evict_frames : frames_ok s' l (U ∖ {[i]}) X fl'.
Proof.
  destruct evict_range as (Hr & H0 & Hil). pose proof (fo_rep _ _ _ _ _ Hok) as R.
  pose proof (cr_low _ _ R).
  pose proof (po_pfn _ _ _ _ _ (fo_pds _ _ _ _ _ Hok a pd Hpd)) as Hsfn.
  assert (co_pds s' = <[a := evicted_pd pd n]> (co_pds s)) as Hpds by done.
  split; try exact (fo_ram _ _ _ _ _ Hok); try exact (fo_size _ _ _ _ _ Hok);
    try exact (fo_clock _ _ _ _ _ Hok); try exact (fo_clock_lt _ _ _ _ _ Hok); rewrite ?Hpds.
  - by apply (rep_upd_other _ _ i cd).
  - intros j [Hj Hji]%elem_of_difference. rewrite not_elem_of_singleton in Hji.
    destruct (fo_user _ _ _ _ _ Hok j Hj) as (Hrj & Hlj & b & pdb & Hb & Hpdb & Hpj).
    split; [done|]. split; [done|]. exists b, pdb. rewrite (evict_pd_of j), decide_False by (congruence || lia).
    split_and!; [done| |done]. rewrite lookup_insert_ne; [done|]. congruence.
  - intros j Hj. destruct (fo_coming _ _ _ _ _ Hok j Hj) as (Hrj & Hlj & Huj & Hpj).
    split; [done|]. split; [done|]. split; [set_solver|].
    rewrite (evict_pd_of j) by lia. by case_decide.
  - intros b pdb [[<- <-]|[Hab Hb]]%lookup_insert_Some.
    + destruct (fo_pds _ _ _ _ _ Hok a pd Hpd) as [Hv _ _ _].
      split; cbn [evicted_pd pd_vaddr pd_pfn pd_sfn]; [done|by left|by left|].
      destruct evict_slot as [->|(Hn & Hnf & _)]; [by left|by right].
    + destruct (fo_pds _ _ _ _ _ Hok b pdb Hb) as [Hv Hp Hva Hsf]. split; [done| |done|].
      * destruct Hp as [Hp|(Hpu & Hpo & Hps)]; [by left|right].
        assert (pd_pfn pdb <> i) by (intros E; rewrite E in Hpo; congruence).
        pose proof (fo_user _ _ _ _ _ Hok _ Hpu). rewrite evict_pd_of, decide_False by (congruence || lia).
        split_and!; [set_solver|done..].
      * destruct Hsf as [Hsf|[Hsf Hnf]]; [by left|right]. split; [done|]. intros ?%evict_fl. done.
  - intros b b' pdb pdb' Hb Hb' Hne Heq.
    assert (forall b pdb, co_pds s !! b = Some pdb -> n = pd_sfn pdb -> n = -1) as Hnew.
    { intros c0 pdc Hc0 E. destruct evict_slot as [?|(_ & _ & Hx)]; [done|]. by destruct (Hx c0 pdc Hc0). }
    apply lookup_insert_Some in Hb as [[<- <-]|[Hab Hb]];
      apply lookup_insert_Some in Hb' as [[<- <-]|[Hab' Hb']]; [done| | |].
    + by apply (Hnew b' pdb').
    + rewrite Heq. by apply (Hnew b pdb).
    + by apply (fo_swap _ _ _ _ _ Hok b b' pdb pdb').
  - right. split; [destruct (Ht tl m Ht0); eauto|].
    destruct Hs as [(_ & _ & -> & ->)|(_ & _ & ? & _)]; done.
Qed.

Lemma evict_evolves : evolves s s'.
Proof.
  destruct evict_range as (Hr & H0 & Hil). split; try done; cbn [s' co_pds].
  - intros b Hb. rewrite lookup_insert_ne; [done|]. congruence.
  - intros b pdb Hb. destruct (decide (a = b)) as [<-|Hne].
    + simplify_eq. exists (evicted_pd pd n). rewrite lookup_insert_eq. split_and!; [done..|].
      intros He Hd. unfold page_bytes. rewrite Hpd. cbn [s' co_pds co_swap]. rewrite lookup_insert_eq. cbn.
      destruct Hs as [(? & _)|(_ & Hfl & _ & _ & Himg)]; [done|]. rewrite (Himg He).
      destruct (Z.eqb_spec n (-1)) as [->|_].
      { pose proof (sr_in _ _ Hsw (-1) ltac:(rewrite Hfl; by left)). lia. }
      destruct (Z.eqb_spec (pd_pfn pd) (-1)); [lia|]. apply lookup_insert_eq.
    + exists pdb. rewrite lookup_insert_ne by done. split_and!; [done..|]. intros He _.
      unfold page_bytes, frame_bytes. cbn [s' co_pds co_swap co_mem]. rewrite lookup_insert_ne, Hb by done. cbn.
      destruct (_ =? -1); [|done]. destruct (Z.eqb_spec (pd_sfn pdb) (-1)); [done|].
      destruct Hs as [(_ & _ & _ & ->)|(_ & Hfl & _ & _ & Himg)]; [done|]. rewrite (Himg He).
      destruct evict_slot as [->|(Hn & _ & Hx)].
      { pose proof (sr_in _ _ Hsw (-1) ltac:(rewrite Hfl; by left)). lia. }
      rewrite lookup_insert_ne; [done|]. intros E. apply (Hx b pdb Hb).
      destruct (po_sfn _ _ _ _ _ (fo_pds _ _ _ _ _ Hok b pdb Hb)) as [|[? _]]; [done|].
      by apply swap_slot_inj.
  - unfold errors. cbn [s' co_swap]. by destruct Hs as [(_ & _ & _ & ->)|(_ & _ & _ & ? & _)].
  - intros b pdb pdb' Hb [[<- <-]|[Hne Hb']]%lookup_insert_Some Hp; simplify_eq; [lia|done].
  - intros tl1 m1 H1. destruct (Ht tl1 m1 H1) as (tl' & H'). exists tl', (delete (pd_vaddr pd) m1).
    split; [done|apply delete_subseteq].
  - intros Hco v lo Hv Htr. cbn [s' co_tlb] in Htr. destruct (Ht tl m Ht0) as (tl' & H').
    rewrite (translate_map H' v Hv) in Htr. apply lookup_delete_Some in Htr as [Hne Htr].
    destruct (Hco v lo Hv) as (b & pdb & Hb & Hvb & Hpb); [by rewrite (translate_map Ht0)|].
    exists b, pdb. cbn [s' co_pds]. rewrite lookup_insert_ne by congruence. done.
Qed.
End Evict.

Lemma frames_up s l U X fl a pd :
  frames_ok s l U X fl -> co_pds s !! a = Some pd ->
  (exists tl m, tlb_rep (co_tlb s) tl m) /\ swap_rep (co_swap s) fl.
Proof. intros Hok Ha. destruct (fo_up _ _ _ _ _ Hok) as [E|?]; [|done]. by rewrite E in Ha. Qed.

(** What eviction of the frame [i] leaves behind. *)
Record evicted s s' i l U X fl : Prop := {
  ed_frames : exists fl', frames_ok s' l (U ∖ {[i]}) X fl' /\ (length fl <= S (length fl'))%nat;
  ed_evolves : evolves s s';
  ed_pd : pd_of (co_cm s') i = None;
  ed_kern j : 0 <= j -> kern_of (co_cm s') j = kern_of (co_cm s) j;
  ed_clock : clock_pointer (co_cm s') = clock_pointer (co_cm s);
}.

Lemma evict_evicted s l U X fl i a pd cd t w fl' n spl tl m :
  frames_ok s l U X fl -> i ∈ U -> pd_of (co_cm s) i = Some a -> co_pds s !! a = Some pd ->
  pd_pfn pd = i -> cdl (core_details (co_cm s)) i = Some cd -> tlb_rep (co_tlb s) tl m ->
  (forall tl m, tlb_rep (co_tlb s) tl m -> exists tl', tlb_rep t tl' (delete (pd_vaddr pd) m)) ->
  swap_rep (co_swap s) fl -> saved s fl i pd n w fl' ->
  evicted s (mkCore (co_ram s) t (evicted_cm (co_cm s) i cd)
    (<[a := evicted_pd pd n]> (co_pds s)) w (co_mem s) spl) i l U X fl.
Proof.
  intros Hok Hi Ha Hpd Hpfn Hcd Ht0 Ht Hsw Hs.
  destruct (evict_range s l U X fl i Hok Hi) as (Hr & H0 & _). split.
  - exists fl'. split; [by eapply evict_frames|].
    destruct Hs as [(_ & _ & -> & _)|(_ & -> & _)]; simpl; lia.
  - by eapply (evict_evolves s l U X fl).
  - cbn [co_cm]. rewrite (proj2 (evicted_fields _ l _ _ i (fo_rep _ _ _ _ _ Hok) Hr Hcd H0)).
    by rewrite decide_True.
  - intros j Hj. apply (evicted_fields _ l _ _ _ (fo_rep _ _ _ _ _ Hok)); done.
  - done.
Qed.

Lemma cm_free_core_wp s l U X fl i spl :
  frames_ok s l U X fl -> i ∈ U ->
  wpo (fl = []) (cm_free_core i spl) s (fun _ s' => evicted s s' i l U X fl /\ co_spl s' = spl).
Proof.
  intros Hok Hi. destruct (fo_user _ _ _ _ _ Hok i Hi) as (Hr & Hl & a & pd & Ha & Hpd & Hpfn).
  destruct (rep_entry _ _ _ (fo_rep _ _ _ _ _ Hok) Hr) as (Hib & cd & Hcd & Hid).
  destruct (frames_up _ _ _ _ _ _ _ Hok Hpd) as [(tl & m & Ht) Hsw].
  assert (cd_pd cd = Some a) as Hca by (unfold pd_of in Ha; by rewrite Hcd in Ha).
  unfold cm_free_core, splx. wp_step. eapply wp_rd_cd; [lia|done|]. wp_step. rewrite Hca.
  eapply wp_rd_pd; [done|]. wp_step. apply wp_on_tlb.
  destruct (tlb_invalidate_vaddr_ret _ _ _ (pd_vaddr pd) Ht) as (t & Et & Ht').
  { apply (fo_pds _ _ _ _ _ Hok a pd Hpd). }
  eapply wp_Ret; [exact Et|].
  assert (forall n w fl', saved s fl i pd n w fl' -> forall Q : core F -> Prop,
    (forall s', evicted s s' i l U X fl /\ co_spl s' = spl -> Q s') ->
    wpo (fl = []) (let* _ := upd_pd (Some a) (pd_set_pfn (-1)) in
      let* _ := upd_cd i (cd_set_pd None) in upd_cd i (cd_set_next None))
      (mkCore (co_ram s) t (co_cm s) (<[a := mkPd (pd_vaddr pd) (pd_pfn pd) n 0 (pd_dirty pd) 0]> (co_pds s))
         w (co_mem s) spl) (fun _ => Q)) as Htail.
  { intros n w fl' Hs Q HQ. wp_step. eapply wp_upd_pd; [apply lookup_insert_eq|]. cbn [set_pds co_pds].
    rewrite insert_insert_eq. wp_step. eapply wp_upd_cd; [lia|done|]. cbv beta.
    eapply wp_upd_cd; [lia|cbn; by cdl_simp|]. apply HQ. split; [|done].
    unfold set_ds. cbn [set_cm co_cm]. rewrite details_set, upd_upd.
    rewrite Hpfn. by eapply (evict_evicted s l U X fl i a pd cd t w fl' n spl). }
  wp_step. eapply wp_upd_pd; [exact Hpd|]. wp_step. eapply wp_upd_pd; [apply lookup_insert_eq|].
  wp_step. eapply wp_upd_pd; [apply lookup_insert_eq|]. cbn [set_pds co_pds set_tlb]. rewrite !insert_insert_eq.
  wp_step. wp_step. wp_step. eapply wp_rd_pd; [apply lookup_insert_eq|]. wp_step.
  cbn [pd_set_sfn pd_set_use pd_set_valid pd_dirty pd_vaddr pd_pfn pd_valid pd_use pd_sfn].
  destruct (Z.eqb_spec (pd_dirty pd) 0) as [Hd|Hd]; cbn [negb].
  - eapply wp_upd_pd; [apply lookup_insert_eq|]. cbn [set_pds co_pds set_spl]. rewrite insert_insert_eq.
    apply (Htail (-1) (co_swap s) fl); [by left|done].
  - wp_step. eapply wp_mono; [apply (swap_write_wp _ fl); exact Hsw|].
    intros n s1 (fl' & w & Hfl & -> & Hw & Hle & Himg). cbv beta. eapply wp_upd_pd; [apply lookup_insert_eq|].
    cbn [set_pds co_pds set_spl set_swap]. rewrite insert_insert_eq.
    apply (Htail n w fl'); [right|done]. split_and!; [done..|]. intros He. rewrite (Himg He), Hid. done.
Qed.
End Inv.
