(* ===== verification/CoremapLaws.v ===== *)
(** * The kernel's page frames

    [cm_request_kframes] finds a run of frames that the kernel does not use,
    evicts the user pages in it and takes it off the free list;
    [cm_release_kframes] puts frames back.  They are the laws of [PagesLaws]
    for the core map: the kernel heap can be built on it.  Running out of
    frames or of swap space is a panic. *)

From S2P Require Import Prelude.
From S2P Require Import Ram.
From S2P Require Import Kheap.
From S2P Require Import KheapProof.
From S2P Require Import Tlb.
From S2P Require Import Coremap.
From S2P Require Import CoremapProof.
From S2P Require Import CoremapInv.

Section Laws.
Context {F : Type} `{!SwapFile F, !SwapFileLaws F}.
Implicit Types (s : core F) (c : cm) (l fl : list Z) (U X : gset Z).

(** ** Steps that leave the frames classified *)

(** An operation on the free list. *)
Lemma frames_touch s l l' U X fl c' f k :
  frames_ok s l U X fl -> cm_rep c' l' -> cm_touch (co_cm s) c' f k ->
  (forall j, j ∈ U -> j ∉ l') -> (forall j, j ∈ X -> j ∉ l') ->
  frames_ok (set_cm c' s) l' U X fl /\ evolves s (set_cm c' s).
Proof.
  intros Hok R' T HU HX. pose proof (cr_low _ _ (fo_rep _ _ _ _ _ Hok)) as Hlow.
  split; [|apply (evolves_cm s c' (co_spl s)); apply T]. split; cbn [set_cm co_cm co_ram co_pds co_tlb co_swap]; try done;
    rewrite ?(ct_size _ _ _ _ T), ?(ct_low _ _ _ _ T), ?(ct_clock _ _ _ _ T), ?(ct_init _ _ _ _ T);
    try apply Hok; try done.
  - intros i Hi. destruct (fo_user _ _ _ _ _ Hok i Hi) as (Hr & Hil & a & pd & Ha & Hpd).
    split; [done|]. split; [auto|]. exists a, pd.
    by rewrite (ct_pd _ _ _ _ T) by lia.
  - intros i Hi. destruct (fo_coming _ _ _ _ _ Hok i Hi) as (Hr & Hil & HiU & Ha).
    split; [done|]. split; [auto|]. split; [done|].
    by rewrite (ct_pd _ _ _ _ T) by lia.
  - intros a pd Ha. destruct (fo_pds _ _ _ _ _ Hok a pd Ha) as [Hv Hp Hva Hsf]. split; [done| |done|done].
    destruct Hp as [Hp|(Hu & Hp & Hn)]; [by left|right]. split; [done|]. split; [|done].
    destruct (fo_user _ _ _ _ _ Hok _ Hu) as (Hr & _). by rewrite (ct_pd _ _ _ _ T) by lia.
Qed.

(** An assignment to [kern]. *)
Lemma rep_kern c l i cd k :
  cm_rep c l -> lowest_frame c <= i < cm_size c -> cdl (core_details c) i = Some cd ->
  let c' := set_details (upd (core_details c) i (cd_set_kern k cd)) c in
  cm_rep c' l /\ cm_touch c c' i k.
Proof.
  intros R Hi Hc c'. destruct (rep_entry _ _ _ R Hi) as (Hib & _). pose proof (cr_low _ _ R).
  assert (forall j, 0 <= j -> cdl (core_details c') j =
    if decide (i = j) then Some (cd_set_kern k cd) else cdl (core_details c) j) as Hl.
  { intros j Hj. subst c'. rewrite details_set. by apply cdl_upd. }
  split; split; try apply R; try done.
  - subst c'. rewrite details_set, length_upd. apply R.
  - intros j Hj. change (lowest_frame c <= j < cm_size c) in Hj.
    rewrite Hl by lia. case_decide; [subst j|by apply R]. destruct (cr_id _ _ R i Hi) as (? & ? & ?). simplify_eq. by eexists.
  - apply (dll_ext (core_details c)); [|apply R]. intros j Hj. unfold link.
    rewrite Hl by (by apply (rep_nonneg _ _ R)). case_decide; [subst j; by rewrite Hc|done].
  - intros j cdj Hj. change (lowest_frame c <= j < cm_size c) in Hj.
    rewrite Hl by lia. case_decide; [subst j|by apply R].
    intros [= <-]. exact (cr_free _ _ R i cd Hi Hc).
  - intros j Hj. unfold kern_of. rewrite Hl by done.
    destruct (decide (i = j)) as [->|]; [by rewrite decide_True|by rewrite decide_False].
  - intros j Hj. unfold pd_of. rewrite Hl by done. case_decide; [subst j; by rewrite Hc|done].
Qed.

Lemma frames_kern s l U X fl i cd k :
  frames_ok s l U X fl -> lowest_frame (co_cm s) <= i < cm_size (co_cm s) ->
  cdl (core_details (co_cm s)) i = Some cd ->
  let s' := set_ds (upd (core_details (co_cm s)) i (cd_set_kern k cd)) s in
  frames_ok s' l U X fl /\ evolves s s' /\ cm_touch (co_cm s) (co_cm s') i k.
Proof.
  intros Hok Hi Hc s'. destruct (rep_kern _ _ _ _ k (fo_rep _ _ _ _ _ Hok) Hi Hc) as [R' T].
  split; [|split; [|exact T]]; eapply (frames_touch s l l U X fl); try done; apply Hok.
Qed.

(** ** Finding a run *)

Lemma kern_of_entry c i cd : cdl (core_details c) i = Some cd -> kern_of c i = cd_kern cd.
Proof. unfold kern_of. by intros ->. Qed.

Lemma run_unused_wp {p : Prop} n s l i :
  cm_rep (co_cm s) l -> lowest_frame (co_cm s) <= i -> i + Z.of_nat n <= cm_size (co_cm s) ->
  wpo p (run_unused n i) s (fun b s' => s' = s /\
    if (b : bool) then forall j, i <= j < i + Z.of_nat n -> kern_of (co_cm s) j = 0
    else exists j, i <= j < i + Z.of_nat n /\ kern_of (co_cm s) j <> 0).
Proof.
  intros R. revert i. induction n as [|n IH]; intros i Hi Hn; cbn [run_unused].
  - wp_step. split; [done|]. lia.
  - destruct (rep_entry _ _ i R) as (Hib & cd & Hcd & _); [lia|].
    wp_step. eapply wp_rd_cd; [lia|done|]. destruct (Z.eqb_spec (cd_kern cd) 0) as [Hk|Hk]; cbn [negb].
    + eapply wp_mono; [apply IH; lia|]. intros b s' [-> Hb]. split; [done|]. destruct b.
      * intros j Hj. destruct (decide (j = i)) as [->|]; [by rewrite (kern_of_entry _ _ _ Hcd)|].
        apply Hb. lia.
      * destruct Hb as (j & Hj & Hkj). exists j. split; [lia|done].
    + wp_step. split; [done|]. exists i. rewrite (kern_of_entry _ _ _ Hcd). split; [lia|done].
Qed.

(** The first run of frames that the kernel does not use, if there is one. *)
Lemma find_run_wp {p : Prop} n s l num i :
  cm_rep (co_cm s) l -> lowest_frame (co_cm s) <= i -> 0 < num ->
  (n <> 0%nat -> i + Z.of_nat n + num <= cm_size (co_cm s) + 1) ->
  wpo p (find_run n num i) s (fun r s' => s' = s /\
    ((r = -1 /\ forall f, i <= f < i + Z.of_nat n ->
        exists j, f <= j < f + num /\ kern_of (co_cm s) j <> 0) \/
     (i <= r /\ r + num <= cm_size (co_cm s) /\
      forall j, r <= j < r + num -> kern_of (co_cm s) j = 0))).
Proof.
  intros R. revert i. induction n as [|n IH]; intros i Hi Hnum Hn; cbn [find_run].
  - wp_step. split; [done|]. left. split; [done|]. lia.
  - wp_step. eapply wp_mono; [apply (run_unused_wp _ _ _ _ R); lia|].
    rewrite Z2Nat.id by lia. intros b s' [-> Hb]. destruct b.
    + wp_step. split; [done|]. right. split_and!; [lia..|done].
    + eapply wp_mono; [apply IH; lia|]. intros r s' [-> [[-> Hf]|(Hr & Hs & Hj)]]; (split; [done|]).
      * left. split; [done|]. intros f Hif. destruct (decide (f = i)) as [->|]; [done|]. apply Hf. lia.
      * right. split_and!; [lia..|done].
Qed.

(** ** Taking it *)

(** [kern] is set in the frames from [i] on, and nothing else changes. *)
Lemma mark_kern_wp {p : Prop} n s l U X fl i :
  frames_ok s l U X fl -> lowest_frame (co_cm s) <= i -> i + Z.of_nat n <= cm_size (co_cm s) ->
  wpo p (mark_kern n i) s (fun _ s' => frames_ok s' l U X fl /\ evolves s s' /\
    co_spl s' = co_spl s /\ clock_pointer (co_cm s') = clock_pointer (co_cm s) /\
    forall j, 0 <= j -> kern_of (co_cm s') j =
      if decide (i <= j < i + Z.of_nat n) then 1 else kern_of (co_cm s) j).
Proof.
  revert s i. induction n as [|n IH]; intros s i Hok Hi Hn; cbn [mark_kern].
  - wp_step. split_and!; [done..|]. intros j Hj. by rewrite decide_False by lia.
  - destruct (rep_entry _ _ i (fo_rep _ _ _ _ _ Hok)) as (Hib & cd & Hcd & _); [lia|].
    destruct (frames_kern s l U X fl i cd 1 Hok ltac:(lia) Hcd) as (Hok1 & He1 & T1).
    wp_step. eapply wp_upd_cd; [lia|done|].
    eapply wp_mono; [apply (IH _ (i + 1) Hok1); rewrite ?(ev_low _ _ He1), ?(ev_size _ _ He1); lia|].
    intros _ s' (Hok' & He' & Hsp & Hck & Hk). split_and!; [done|by etrans|done| |].
    + rewrite Hck. apply (ct_clock _ _ _ _ T1).
    + intros j Hj. rewrite Hk, (ct_kern _ _ _ _ T1) by done. repeat case_decide; done || lia.
Qed.

(** What [take_run] does to the frames from [i] to [i + n]: they are no longer
    free and no longer hold user pages. *)
Record taken s s' (i n : Z) l U X : Prop := {
  tk_frames : exists l' U' fl', frames_ok s' l' U' X fl' /\
    (forall j, j ∈ l' <-> j ∈ l /\ ~ i <= j < i + n) /\
    (forall j, j ∈ U' <-> j ∈ U /\ ~ i <= j < i + n);
  tk_evolves : evolves s s';
  tk_kern j : 0 <= j -> kern_of (co_cm s') j =
    if decide (i <= j < i + n /\ j ∈ l) then 1 else kern_of (co_cm s) j;
}.

Lemma taken_nil s i l U X fl : frames_ok s l U X fl -> taken s s i 0 l U X.
Proof.
  intros Hok. split; [|done|intros j Hj; rewrite decide_False; [done|lia]].
  exists l, U, fl. split; [done|]. split; intros j; (split; [intros; split; [done|lia]|by intros [? _]]).
Qed.

Lemma taken_cons s s1 s2 i n l l1 U U1 X :
  0 <= n -> evolves s s1 ->
  (forall j, j ∈ l1 <-> j ∈ l /\ j <> i) -> (forall j, j ∈ U1 <-> j ∈ U /\ j <> i) ->
  (forall j, 0 <= j -> kern_of (co_cm s1) j =
     if decide (j = i /\ j ∈ l) then 1 else kern_of (co_cm s) j) ->
  taken s1 s2 (i + 1) n l1 U1 X -> taken s s2 i (n + 1) l U X.
Proof.
  intros Hn He Hl HU Hk [(l' & U' & fl' & Hok & Hl' & HU') He' Hk']. split; [|by etrans|].
  - exists l', U', fl'. split; [done|]. split; intros j.
    + rewrite Hl', Hl. split; [intros ((? & ?) & ?)|intros (? & ?)]; (repeat split; [done|lia..]) || (split; [done|lia]).
    + rewrite HU', HU. split; [intros ((? & ?) & ?)|intros (? & ?)]; (repeat split; [done|lia..]) || (split; [done|lia]).
  - intros j Hj. rewrite Hk', Hk by done. pose proof (Hl j).
    destruct (decide (j ∈ l)) as [Hjl|Hjl]; [|by rewrite !decide_False by tauto].
    destruct (decide (j = i)) as [->|Hji].
    + rewrite decide_False by lia. rewrite !decide_True; [done|split; [lia|done]|done].
    + destruct (decide (i + 1 <= j < i + 1 + n)).
      * rewrite !decide_True by (split; [lia|tauto]). done.
      * rewrite !decide_False by (intros [? ?]; lia). done.
Qed.

Lemma frames_remove_wp {p : Prop} s l U X fl i :
  frames_ok s l U X fl -> i ∈ l ->
  wpo p (free_frame_list_remove i) s (fun _ s' => exists l', frames_ok s' l' U X fl /\
    evolves s s' /\ (forall j, j ∈ l' <-> j ∈ l /\ j <> i) /\ cm_touch (co_cm s) (co_cm s') i 1).
Proof.
  intros Hok Hi. pose proof (cr_nodup _ _ (fo_rep _ _ _ _ _ Hok)) as Hnd.
  apply list_elem_of_split in Hi as (l1 & l2 & ->).
  eapply wp_mono; [apply (free_frame_list_remove_wp _ _ _ _ (fo_rep _ _ _ _ _ Hok))|].
  intros _ s' (c' & -> & R' & T). exists (l1 ++ l2).
  apply NoDup_app in Hnd as (_ & Hd1 & Hnd). apply NoDup_cons in Hnd as [Hd2 _].
  assert (forall j, j ∈ l1 ++ l2 <-> j ∈ l1 ++ i :: l2 /\ j <> i) as Hl'.
  { intros j. rewrite !elem_of_app, elem_of_cons. split; [|set_solver].
    intros [H|H]; (split; [auto|]); intros ->; [by apply (Hd1 i H); left|done]. }
  destruct (frames_touch s _ (l1 ++ l2) U X fl c' i 1 Hok R' T) as [Hok' He'].
  - intros j Hj. destruct (fo_user _ _ _ _ _ Hok j Hj) as (_ & Hn & _). rewrite Hl'. tauto.
  - intros j Hj. destruct (fo_coming _ _ _ _ _ Hok j Hj) as (_ & Hn & _). rewrite Hl'. tauto.
  - done.
Qed.

Lemma take_run_wp n s l U X fl i spl :
  frames_ok s l U X fl -> lowest_frame (co_cm s) <= i -> i + Z.of_nat n <= cm_size (co_cm s) ->
  (forall j, i <= j < i + Z.of_nat n -> j ∈ l \/ j ∈ U) ->
  wpo (length fl < n)%nat (take_run n i spl) s (fun r s' => r = spl /\ taken s s' i (Z.of_nat n) l U X).
Proof.
  revert s l U fl i. induction n as [|n IH]; intros s l U fl i Hok Hi Hn Hin; cbn [take_run].
  { wp_step. split; [done|]. by eapply taken_nil. }
  destruct (rep_entry _ _ i (fo_rep _ _ _ _ _ Hok)) as (Hib & cd & Hcd & _); [lia|].
  pose proof (cr_free _ _ (fo_rep _ _ _ _ _ Hok) i cd ltac:(lia) Hcd) as Hfree.
  wp_step. eapply wp_rd_cd; [lia|done|]. replace (Z.of_nat (S n)) with (Z.of_nat n + 1) in * by lia.
  destruct (Z.eqb_spec (cd_free cd) 0) as [Hf|Hf]; cbn [negb].
  - assert (i ∉ l) as Hil by (rewrite Hfree; lia).
    assert (i ∈ U) as HiU by (destruct (Hin i); [lia|done|done]).
    wp_step. eapply wp_conseq; [by apply (cm_free_core_wp s l U X fl)|intros ->; simpl; lia|].
    intros _ s1 [[(fl1 & Hok1 & Hfl1) He1 Hp1 Hk1 _] Hs1]. unfold splhigh. wp_steps. rewrite Hs1.
    assert (forall j, j ∈ U ∖ {[i]} <-> j ∈ U /\ j <> i) as HU by set_solver.
    eapply wp_conseq; [apply (IH (set_spl SPL_HIGH s1) l (U ∖ {[i]}) fl1 (i + 1))|lia|].
    + by destruct Hok1.
    + change (co_cm (set_spl SPL_HIGH s1)) with (co_cm s1). rewrite (ev_low _ _ He1). lia.
    + change (co_cm (set_spl SPL_HIGH s1)) with (co_cm s1). rewrite (ev_size _ _ He1). lia.
    + intros j Hj. rewrite HU. destruct (Hin j); [lia|by left|right; split; [done|lia]].
    + intros r s' [-> Ht]. split; [done|]. eapply (taken_cons s (set_spl SPL_HIGH s1)); try done; [lia| | |].
      * etrans; [exact He1|]. apply evolves_spl.
      * intros j. split; [intros Hj; split; [done|congruence]|by intros [? _]].
      * intros j Hj. change (co_cm (set_spl SPL_HIGH s1)) with (co_cm s1). rewrite (Hk1 j Hj).
        rewrite decide_False; [done|]. intros [-> ?]. done.
  - assert (i ∈ l) as Hil by (by apply Hfree).
    assert (i ∉ U) as HiU by (intros HU; by destruct (fo_user _ _ _ _ _ Hok i HU) as (_ & ? & _)).
    wp_step. eapply wp_mono; [by apply (frames_remove_wp s l U X fl)|].
    intros _ s1 (l1 & Hok1 & He1 & Hl1 & T1).
    eapply wp_conseq; [apply (IH s1 l1 U fl (i + 1) Hok1)|lia|].
    + rewrite (ev_low _ _ He1). lia.
    + rewrite (ev_size _ _ He1). lia.
    + intros j Hj. rewrite Hl1. destruct (Hin j); [lia|left; split; [done|lia]|by right].
    + intros r s' [-> Ht]. split; [done|]. eapply (taken_cons s s1); try done; [lia| |].
      * intros j. split; [intros Hj; split; [done|congruence]|by intros [? _]].
      * intros j Hj. rewrite (ct_kern _ _ _ _ T1) by done. repeat case_decide; naive_solver.
Qed.

(** ** A request *)

(** The request took the [num] frames from [f] on, which the kernel did not
    use.  Their [kern] fields are set; the first one counts the run only if its
    frame was not on the free list. *)
Record granted s s' (f num : Z) l U : Prop := {
  gr_low : lowest_frame (co_cm s) <= f;
  gr_size : f + num <= cm_size (co_cm s);
  gr_unused j : f <= j < f + num -> kern_of (co_cm s) j = 0;
  gr_taken : exists l' U' fl', frames_ok s' l' U' ∅ fl' /\ kern_ok (co_cm s') l' U' ∅ /\
    (forall j, j ∈ l' <-> j ∈ l /\ ~ f <= j < f + num) /\
    (forall j, j ∈ U' <-> j ∈ U /\ ~ f <= j < f + num);
  gr_evolves : evolves s s';
  gr_kern j : 0 <= j -> kern_of (co_cm s') j =
    if decide (f <= j < f + num) then
      if decide (j ∈ l) then 1 else if decide (j = f) then num else 1
    else kern_of (co_cm s) j;
}.

Lemma kaddr_frame s l U X fl f :
  frames_ok s l U X fl -> lowest_frame (co_cm s) <= f < cm_size (co_cm s) ->
  PADDR_TO_KVADDR (u32 (f * PAGE_SIZE)) = MIPS_KSEG0 + f * PAGE_SIZE.
Proof.
  intros Hok Hf. pose proof (fo_size _ _ _ _ _ Hok) as Hs. pose proof (cr_low _ _ (fo_rep _ _ _ _ _ Hok)).
  unfold PADDR_TO_KVADDR, RAM_LIMIT, PAGE_SIZE, MIPS_KSEG0 in *. rewrite (u32_small (f * 4096)), u32_small; lia.
Qed.

Lemma taken_granted s s2 s3 x f num l U fl :
  frames_ok s l U ∅ fl -> kern_ok (co_cm s) l U ∅ -> 0 < num ->
  lowest_frame (co_cm s) <= f -> f + num <= cm_size (co_cm s) ->
  (forall j, f <= j < f + num -> kern_of (co_cm s) j = 0) -> evolves s s2 ->
  (forall j, 0 <= j -> kern_of (co_cm s2) j =
     if decide (j = f) then num else if decide (f <= j < f + num) then 1 else kern_of (co_cm s) j) ->
  taken s2 s3 f num l U ∅ -> granted s (set_spl x s3) f num l U.
Proof.
  intros Hok Hkern Hnum Hlf Hfs Hun He Hk [(l' & U' & fl' & Hok' & Hl' & HU') He' Hk'].
  pose proof (cr_low _ _ (fo_rep _ _ _ _ _ Hok)) as Hlow.
  assert (forall j, 0 <= j -> kern_of (co_cm s3) j =
    if decide (f <= j < f + num) then
      if decide (j ∈ l) then 1 else if decide (j = f) then num else 1
    else kern_of (co_cm s) j) as Hk3.
  { intros j Hj. rewrite Hk', Hk by done. repeat case_decide; done || lia || tauto. }
  split; try done.
  - exists l', U', fl'. split; [by apply frames_spl|]. split; [|done]. intros j Hj.
    autorewrite with core in *. rewrite Hk3 by (rewrite (ev_low _ _ (transitivity He He')) in Hj; lia).
    rewrite (ev_low _ _ (transitivity He He')), (ev_size _ _ (transitivity He He')) in Hj.
    rewrite Hl', HU'. destruct (Hkern j Hj) as [Hpos Hz].
    destruct (decide (f <= j < f + num)) as [Hin|Hout]; [|split; [done|]; rewrite Hz; tauto].
    split; [repeat case_decide; lia|]. split; [repeat case_decide; lia|].
    intros [[_ ?]|[[_ ?]|?%elem_of_empty]]; done.
  - etrans; [exact He|]. etrans; [exact He'|]. apply evolves_spl.
Qed.

(** There is no run of [num] frames without a kernel frame in it. *)
Definition no_run c (num : Z) : Prop :=
  forall f, lowest_frame c <= f -> f + num <= cm_size c ->
  exists j, f <= j < f + num /\ kern_of c j <> 0.

Lemma cm_request_kframes_wp s l U fl num :
  frames_ok s l U ∅ fl -> kern_ok (co_cm s) l U ∅ -> 0 < num ->
  wpo (no_run (co_cm s) num \/ Z.of_nat (length fl) < num) (cm_request_kframes num) s (fun p s' => exists f,
    p = MIPS_KSEG0 + f * PAGE_SIZE /\ granted s s' f num l U /\ co_spl s' = co_spl s).
Proof.
  intros Hok Hkern Hnum. pose proof (fo_rep _ _ _ _ _ Hok) as R. pose proof (cr_low _ _ R) as Hlow.
  unfold cm_request_kframes, splhigh, splx. wp_step. wp_step. cbv zeta. wp_step.
  apply wp_kassert; [destruct (Z.eqb_spec (cm_init (co_cm s)) 0); [by destruct (cr_init _ _ R)|done]|].
  do 7 wp_step. eapply wp_mono; [apply (find_run_wp _ (set_spl SPL_HIGH s) l num _ R); autorewrite with core; lia|].
  intros f s0 (-> & Hf). change (co_cm (set_spl SPL_HIGH s)) with (co_cm s) in *.
  destruct (Z.eqb_spec f (-1)) as [->|Hf1].
  { destruct Hf as [[_ Hnone]|Hf]; [|lia]. left. intros f Hlf Hfs. apply Hnone. lia. }
  destruct Hf as [[-> _]|(Hlf & Hfs & Hun)]; [done|].
  wp_step. eapply wp_mono; [apply (mark_kern_wp _ _ l U ∅ fl f (frames_spl _ _ _ _ _ _ Hok)); cbn; lia|].
  intros _ s1 (Hok1 & He1 & _ & _ & Hk1).
  destruct (rep_entry _ _ f (fo_rep _ _ _ _ _ Hok1)) as (Hib & cd & Hcd & _);
    [rewrite (ev_low _ _ He1), (ev_size _ _ He1); cbn; lia|].
  wp_step. eapply wp_upd_cd; [lia|done|].
  destruct (frames_kern s1 l U ∅ fl f cd num Hok1) as (Hok2 & He2 & T2); [|done|].
  { rewrite (ev_low _ _ He1), (ev_size _ _ He1); cbn; lia. }
  set (s2 := set_ds _ s1) in *. pose proof (transitivity (evolves_spl s SPL_HIGH) (transitivity He1 He2)) as He.
  wp_step. eapply wp_conseq; [apply (take_run_wp _ s2 l U ∅ fl f _ Hok2)|right; lia|].
  - rewrite (ev_low _ _ He). lia.
  - rewrite (ev_size _ _ He). lia.
  - intros j Hj. destruct (Hkern j) as [_ [Hj0 _]]; [lia|]. specialize (Hj0 (Hun j ltac:(lia))). set_solver.
  - intros r s3 [-> Ht]. wp_step. wp_step. wp_step.
    exists f. split; [apply (kaddr_frame s l U ∅ fl f Hok); lia|]. split; [|done].
    rewrite Z2Nat.id in * by lia. apply (taken_granted s s2 s3 _ f num l U fl); try done.
    intros j Hj. rewrite (ct_kern _ _ _ _ T2), Hk1 by done. done.
Qed.

(** ** A release *)

Lemma release_run_wp {p : Prop} n s l U fl i f :
  frames_ok s l U ∅ fl -> lowest_frame (co_cm s) <= f <= i ->
  i + Z.of_nat n <= cm_size (co_cm s) ->
  (forall j, i <= j < i + Z.of_nat n -> kern_of (co_cm s) j <> 0 /\ (j ∉ l) /\ (j ∉ U)) ->
  wpo p (release_run n i f) s (fun _ s' => frames_ok s' (l ++ seqZ i (Z.of_nat n)) U ∅ fl /\
    evolves s s' /\ co_spl s' = co_spl s /\
    forall j, 0 <= j -> kern_of (co_cm s') j =
      if decide (i <= j < i + Z.of_nat n) then 0 else kern_of (co_cm s) j).
Proof.
  revert s l i. induction n as [|n IH]; intros s l i Hok Hf Hn Hj; cbn [release_run].
  - wp_step. rewrite app_nil_r. split_and!; [done..|]. intros j ?. by rewrite decide_False by lia.
  - destruct (rep_entry _ _ i (fo_rep _ _ _ _ _ Hok)) as (Hib & cd & Hcd & _); [lia|].
    destruct (Hj i) as (Hk & Hil & HiU); [lia|]. rewrite (kern_of_entry _ _ _ Hcd) in Hk.
    wp_step. wp_step. wp_step. eapply wp_rd_cd; [lia|done|]. wp_step.
    apply wp_kassert; [by destruct (Z.eqb_spec (cd_kern cd) 0)|]. wp_step.
    apply wp_kassert; [lia|]. wp_step.
    eapply wp_mono; [apply (free_frame_list_add_back_wp _ _ _ (fo_rep _ _ _ _ _ Hok)); [lia|done]|].
    intros _ s1 (c1 & -> & R1 & T1).
    destruct (frames_touch s l (l ++ [i]) U ∅ fl c1 i 0 Hok R1 T1) as [Hok1 He1].
    { intros j HjU. destruct (fo_user _ _ _ _ _ Hok j HjU) as (_ & ? & _). set_solver. }
    { set_solver. }
    eapply wp_mono; [apply (IH _ (l ++ [i]) (i + 1) Hok1)|].
    + rewrite (ev_low _ _ He1). lia.
    + rewrite (ev_size _ _ He1). lia.
    + intros j Hj1. autorewrite with core. rewrite (ct_kern _ _ _ _ T1), decide_False by lia.
      destruct (Hj j) as (? & ? & ?); [lia|]. split; [done|]. split; [|done].
      rewrite elem_of_app, list_elem_of_singleton. intros [?|?]; [done|lia].
    + intros _ s' (Hok' & He' & Hs' & Hk'). rewrite (seqZ_cons i) by lia.
      replace (Z.pred (Z.of_nat (S n))) with (Z.of_nat n) by lia. change (Z.succ i) with (i + 1).
      rewrite <- (app_assoc l [i]) in Hok'. split_and!; [done|by etrans|done|].
      intros j H0. rewrite Hk' by done. autorewrite with core. rewrite (ct_kern _ _ _ _ T1) by done.
      repeat case_decide; done || lia.
Qed.

(** ** The kernel's runs of pages *)

Definition run_ok c (p n : Z) : Prop :=
  exists f, p = MIPS_KSEG0 + f * PAGE_SIZE /\ 0 < n /\ lowest_frame c <= f /\ f + n <= cm_size c /\
    kern_of c f <= n /\ forall j, f <= j < f + n -> kern_of c j <> 0.

Definition core_ok s (G : gmap Z Z) : Prop :=
  (exists l U fl, frames_ok s l U ∅ fl /\ kern_ok (co_cm s) l U ∅) /\
  (forall p n, G !! p = Some n -> run_ok (co_cm s) p n) /\
  (forall p n q m, G !! p = Some n -> G !! q = Some m -> p <> q ->
     p + n * PAGE_SIZE <= q \/ q + m * PAGE_SIZE <= p).

Lemma s32_kseg f : 0 <= f -> f * PAGE_SIZE <= RAM_LIMIT ->
  s32 (s32 (MIPS_KSEG0 + f * PAGE_SIZE) - MIPS_KSEG0) = f * PAGE_SIZE.
Proof.
  unfold PAGE_SIZE, RAM_LIMIT, MIPS_KSEG0. intros H0 Hf. unfold s32 at 2.
  replace (2147483648 + f * 4096 + 2 ^ 31) with (f * 4096 + 1 * 2 ^ 32) by lia.
  rewrite Z.mod_add, Z.mod_small by lia. unfold s32.
  replace (f * 4096 - 2 ^ 31 - 2147483648 + 2 ^ 31) with (f * 4096 + 2 ^ 31 + (-1) * 2 ^ 32) by lia.
  rewrite Z.mod_add, Z.mod_small by lia. lia.
Qed.

Lemma vm_free_kpages_eq f s :
  0 <= f -> f * PAGE_SIZE <= RAM_LIMIT ->
  vm_free_kpages (MIPS_KSEG0 + f * PAGE_SIZE) s = cm_release_kframes f s.
Proof.
  intros H0 Hf. unfold vm_free_kpages. rewrite s32_kseg by done.
  rewrite Z.rem_mul, Z.quot_mul by done. done.
Qed.

(** What a release does to a sound map in which [f] is the first frame of a
    run: the frames that its [kern] field counts are free again. *)
Lemma cm_release_kframes_wp {p : Prop} s l U fl f n :
  frames_ok s l U ∅ fl -> kern_ok (co_cm s) l U ∅ ->
  lowest_frame (co_cm s) <= f -> f + n <= cm_size (co_cm s) -> kern_of (co_cm s) f <= n -> 0 < n ->
  (forall j, f <= j < f + n -> kern_of (co_cm s) j <> 0) ->
  wpo p (cm_release_kframes f) s (fun _ s' => let k := kern_of (co_cm s) f in
    frames_ok s' (l ++ seqZ f k) U ∅ fl /\ kern_ok (co_cm s') (l ++ seqZ f k) U ∅ /\
    evolves s s' /\ co_spl s' = co_spl s /\
    forall j, 0 <= j -> kern_of (co_cm s') j =
      if decide (f <= j < f + k) then 0 else kern_of (co_cm s) j).
Proof.
  intros Hok Hkern Hlf Hfs Hk Hn Hne. pose proof (cr_low _ _ (fo_rep _ _ _ _ _ Hok)) as Hlow.
  destruct (rep_entry _ _ f (fo_rep _ _ _ _ _ Hok)) as (Hib & cd & Hcd & _); [lia|].
  pose proof (kern_of_entry _ _ _ Hcd) as Ek. specialize (Hne f ltac:(lia)) as Hf0.
  destruct (Hkern f) as [Hpos _]; [lia|].
  unfold cm_release_kframes. wp_step. eapply wp_rd_cd; [lia|done|]. rewrite <- Ek. wp_step.
  apply wp_kassert; [destruct (Z.eqb_spec (kern_of (co_cm s) f) 0); [lia|done]|].
  cbv zeta. wp_step. apply wp_kassert; [lia|].
  eapply wp_mono; [apply (release_run_wp _ _ l U fl f f Hok)|]; rewrite ?Z2Nat.id by lia; [lia|lia| |].
  - intros j Hj. destruct (Hkern j) as [_ Hz]; [lia|]. specialize (Hne j ltac:(lia)).
    split; [done|]. tauto.
  - intros _ s' (Hok' & He & Hs & Hk'). split_and!; [done| |done|done|done].
    intros j Hj. rewrite (ev_low _ _ He), (ev_size _ _ He) in Hj. rewrite Hk' by lia.
    destruct (Hkern j Hj) as [Hp Hz]. rewrite elem_of_app, elem_of_seqZ.
    case_decide as Hd; [split; [lia|]; tauto|]. split; [done|]. rewrite Hz. tauto.
Qed.

Lemma run_ok_addr s l U X fl p n :
  frames_ok s l U X fl -> run_ok (co_cm s) p n ->
  0 < p /\ 0 < n /\ p mod PAGE_SIZE = 0 /\ p + n * PAGE_SIZE < 2 ^ 32.
Proof.
  intros Hok (f & -> & Hn & Hl & Hs & _). pose proof (fo_size _ _ _ _ _ Hok).
  pose proof (cr_low _ _ (fo_rep _ _ _ _ _ Hok)).
  unfold MIPS_KSEG0, PAGE_SIZE, RAM_LIMIT in *. split_and!; [lia..| |lia].
  rewrite Z.mod_add by lia. reflexivity.
Qed.

(** A run that was granted is none of the runs handed out before. *)
Lemma core_ok_grant s s' G f num l U :
  core_ok s G -> granted s s' f num l U -> 0 < num ->
  let p := MIPS_KSEG0 + f * PAGE_SIZE in
  G !! p = None /\ core_ok s' (<[p := num]> G).
Proof.
  intros (_ & Hruns & Hdis) [Hlf Hfs Hun (l' & U' & fl' & Hok' & Hk' & _) He Hkern] Hnum p.
  pose proof (cr_low _ _ (fo_rep _ _ _ _ _ Hok')) as Hlow. rewrite (ev_low _ _ He) in Hlow.
  assert (forall q m g, G !! q = Some m -> q = MIPS_KSEG0 + g * PAGE_SIZE ->
    lowest_frame (co_cm s) <= g /\ 0 < m /\ g + m <= cm_size (co_cm s) /\ (g + m <= f \/ f + num <= g)) as Hsep.
  { intros q m g Hq Eq. destruct (Hruns q m Hq) as (g' & Eq' & Hm & Hlg & Hgs & _ & Hne).
    assert (g = g') as <- by (unfold PAGE_SIZE, MIPS_KSEG0 in *; lia). split_and!; try done.
    destruct (decide (g + m <= f)); [by left|]. destruct (decide (f + num <= g)); [by right|].
    destruct (Hne (Z.max f g)); [lia|]. apply Hun. lia. }
  assert (G !! p = None) as Hp.
  { destruct (G !! p) as [m|] eqn:E; [|done]. destruct (Hsep p m f E eq_refl). lia. }
  split; [done|]. split; [by eauto|]. split.
  - intros q m [[<- <-]|[Hne Hq]]%lookup_insert_Some.
    + exists f. rewrite (ev_low _ _ He), (ev_size _ _ He). split_and!; try done.
      * rewrite Hkern, decide_True by lia. repeat case_decide; lia.
      * intros j Hj. rewrite Hkern, decide_True by lia. repeat case_decide; lia.
    + destruct (Hruns q m Hq) as (g & Eq & Hm & Hlg & Hgs & Hkg & Hne'). exists g.
      destruct (Hsep q m g Hq Eq) as (_ & _ & _ & Hfg).
      rewrite (ev_low _ _ He), (ev_size _ _ He), Hkern, decide_False by lia. split_and!; try done.
      intros j Hj. rewrite Hkern, decide_False by lia. by apply Hne'.
  - assert (forall q m, G !! q = Some m -> p <> q -> p + num * PAGE_SIZE <= q \/ q + m * PAGE_SIZE <= p) as Hnew.
    { intros q m Hq _. destruct (Hruns q m Hq) as (g & Eq & _). destruct (Hsep q m g Hq Eq) as (_ & _ & _ & Hfg).
      subst q p. unfold PAGE_SIZE in *. lia. }
    intros q m q' m' [[<- <-]|[Hne Hq]]%lookup_insert_Some [[<- <-]|[Hne' Hq']]%lookup_insert_Some Hqq;
      [done|by apply Hnew| |by apply (Hdis q m q' m')].
    destruct (Hnew q m Hq); [done|by right|by left].
Qed.

Lemma core_alloc_law s G n :
  core_ok s G -> 0 < n ->
  wpo True (vm_alloc_kpages n) s (fun p s' =>
    p <> 0 /\ G !! p = None /\ core_ok s' (<[p := n]> G)).
Proof.
  intros Hok Hn. pose proof Hok as ((l & U & fl & Hf & Hk) & _).
  eapply wp_conseq; [by apply (cm_request_kframes_wp s l U fl n)|done|].
  intros p s' (f & -> & Hg & _). destruct (core_ok_grant _ _ _ _ _ _ _ Hok Hg Hn) as [Hp Hok'].
  split; [|done]. pose proof (gr_low _ _ _ _ _ _ Hg). pose proof (cr_low _ _ (fo_rep _ _ _ _ _ Hf)).
  unfold MIPS_KSEG0, PAGE_SIZE. lia.
Qed.

Lemma core_free_law s G p n :
  core_ok s (<[p := n]> G) -> G !! p = None ->
  wp (vm_free_kpages p) s (fun _ s' => core_ok s' G).
Proof.
  intros ((l & U & fl & Hf & Hk) & Hruns & Hdis) Hp.
  destruct (Hruns p n (lookup_insert_eq _ _ _)) as (f & Ep & Hn & Hlf & Hfs & Hkf & Hne).
  pose proof (fo_size _ _ _ _ _ Hf). pose proof (cr_low _ _ (fo_rep _ _ _ _ _ Hf)).
  assert (wp (cm_release_kframes f) s (fun _ s' => core_ok s' G)) as Hw.
  { eapply wp_mono; [by apply (cm_release_kframes_wp s l U fl f n)|].
    intros _ s' (Hf' & Hk' & He & _ & Hkern). split; [by eauto|]. split.
    - intros q m Hq. assert (q <> p) as Hqp by congruence.
      assert (<[p := n]> G !! q = Some m) as Hq' by (by rewrite lookup_insert_ne).
      destruct (Hruns q m Hq') as (g & Eq & Hm & Hlg & Hgs & Hkg & Hneg).
      destruct (Hdis p n q m (lookup_insert_eq _ _ _) Hq' ltac:(done)) as [Hd|Hd];
        subst p q; unfold PAGE_SIZE in Hd; exists g;
        (rewrite (ev_low _ _ He), (ev_size _ _ He), Hkern, decide_False by lia; split_and!; try done;
         intros j Hj; rewrite Hkern, decide_False by lia; by apply Hneg).
    - intros q m q' m' Hq Hq'. apply Hdis; rewrite lookup_insert_ne; congruence. }
  subst p. unfold wpx in Hw |- *. rewrite vm_free_kpages_eq; [exact Hw|lia|].
  unfold PAGE_SIZE, RAM_LIMIT in *. lia.
Qed.

#[global] Program Instance core_laws : PagesLaws (core F) := {
  pages_oom := True;
  pages_ok := core_ok;
}.
Next Obligation. intros s G p n ((l & U & fl & Hf & _) & Hr & _) Hp. by eapply run_ok_addr, Hr. Qed.
Next Obligation. intros s G p n q m (_ & _ & Hd). apply Hd. Qed.
Next Obligation.
  intros s G n Hok _ Hn. eapply wp_mono; [apply (core_alloc_law s G n Hok); lia|]. intros p s' H. by right.
Qed.
Next Obligation.
  intros s G n ((l & U & fl & Hf & _) & _) Hvm. unfold is_vm_setup in Hvm. simpl in Hvm.
  rewrite (fo_ram _ _ _ _ _ Hf) in Hvm. done.
Qed.
Next Obligation.
  intros s G p n Hok Hp. eapply wp_weaken; [by apply (core_free_law s G p n)|done].
Qed.
End Laws.
