(* ===== verification/CoremapBoot.v ===== *)
(** * Memory after [cm_bootstrap]

    [cm_bootstrap] steals the pages of the core map from [ram.c], takes over
    the rest of physical memory and links all of its frames.  The state it
    leaves is the one from which the invariants of the core map and of the
    kernel heap start. *)

From S2P Require Import Prelude.
From S2P Require Import Ram.
From S2P Require Import Kheap.
From S2P Require Import KheapProof.
From S2P Require Import Tlb.
From S2P Require Import Coremap.
From S2P Require Import CoremapProof.
From S2P Require Import CoremapInv.
From S2P Require Import CoremapLaws.

(** [i], [i - 1], ...: [n] numbers. *)
Fixpoint down (n : nat) (i : Z) : list Z :=
  match n with
  | O => []
  | S n => i :: down n (i - 1)
  end.

Lemma elem_of_down n i j : j ∈ down n i <-> i - Z.of_nat n < j <= i.
Proof.
  revert i. induction n as [|n IH]; intros i; simpl.
  - rewrite elem_of_nil. lia.
  - rewrite elem_of_cons, IH. lia.
Qed.

Lemma NoDup_down n i : NoDup (down n i).
Proof.
  revert i. induction n as [|n IH]; intros i; [constructor|]. apply NoDup_cons. split; [|done].
  rewrite elem_of_down. lia.
Qed.

Lemma final_down n i p : final p (down (S n) i) = Some (i - Z.of_nat n).
Proof.
  revert i p. induction n as [|n IH]; intros i p; [simpl; by rewrite Z.sub_0_r|].
  change (down (S (S n)) i) with (i :: down (S n) (i - 1)). rewrite final_cons, IH. f_equal. lia.
Qed.

(** The entry of a free frame when all frames from [low] to [high] are free. *)
Definition boot_cd (low high j : Z) : cm_detail :=
  mkCd j 0 None (if j =? low then None else Some (j - 1)) (if j =? high then None else Some (j + 1)) 1.

Lemma dll_down ds low high n i :
  i = low + Z.of_nat n -> low <= i <= high ->
  (forall j, low <= j <= high -> cdl ds j = Some (boot_cd low high j)) ->
  dll ds (if i =? high then None else Some (i + 1)) (down (S n) i) None.
Proof.
  revert i. induction n as [|n IH]; intros i Hi Hin Hds.
  - split; [|done]. unfold link. rewrite Hds by lia. cbn. destruct (Z.eqb_spec i low); [done|lia].
  - change (down (S (S n)) i) with (i :: down (S n) (i - 1)). cbn [dll]. split.
    + unfold link. rewrite Hds by lia. cbn. destruct (Z.eqb_spec i low); [lia|done].
    + specialize (IH (i - 1) ltac:(lia) ltac:(lia) Hds). destruct (Z.eqb_spec (i - 1) high); [lia|].
      by rewrite Z.sub_add in IH.
Qed.

Section Boot.
Context {F : Type} `{!SwapFile F, !SwapFileLaws F}.
Implicit Types (s : core F) (c : cm) (l fl : list Z).

Record booted s (low high : Z) : Prop := {
  bt_init : cm_init (co_cm s) <> 0;
  bt_size : cm_size (co_cm s) = high + 1;
  bt_low : lowest_frame (co_cm s) = low;
  bt_clock : clock_pointer (co_cm s) = 0;
  bt_len : Z.of_nat (length (core_details (co_cm s))) = high + 1;
  bt_details j : low <= j <= high -> cdl (core_details (co_cm s)) j = Some (boot_cd low high j);
  bt_head : free_frame_list (co_cm s) = Some high;
  bt_last : last_free (co_cm s) = Some low;
  bt_ram : lastpaddr (co_ram s) = 0;
  bt_pds : co_pds s = ∅;
}.

Lemma booted_frames s low high fl :
  booted s low high -> 0 < low <= high -> (high + 1) * PAGE_SIZE <= RAM_LIMIT ->
  let l := down (Z.to_nat (high - low + 1)) high in
  frames_ok s l ∅ ∅ fl /\ kern_ok (co_cm s) l ∅ ∅.
Proof.
  intros [Hi Hs Hlow Hc Hlen Hds Hh Hl Hr Hp] Hlh Hlim l.
  assert (forall j, j ∈ l <-> low <= j <= high) as Hin.
  { intros j. unfold l. rewrite elem_of_down. lia. }
  assert (l = down (S (Z.to_nat (high - low))) high) as El by (unfold l; f_equal; lia).
  split.
  - split; rewrite ?Hs, ?Hlow, ?Hc, ?Hp; try done; try lia; try (intros i ?; set_solver); [|by left].
    split; rewrite ?Hs, ?Hlow; try done; try lia.
    + intros i Hj. exists (boot_cd low high i). rewrite Hds by lia. done.
    + rewrite El. pose proof (dll_down (core_details (co_cm s)) low high (Z.to_nat (high - low)) high
        ltac:(lia) ltac:(lia) Hds) as Hd. by rewrite Z.eqb_refl in Hd.
    + by rewrite El.
    + rewrite El, final_down, Hl. f_equal. lia.
    + apply NoDup_down.
    + intros i Hj%Hin. lia.
    + intros i cd Hj Hcd. rewrite Hds in Hcd by lia. simplify_eq. rewrite Hin. cbn. lia.
  - intros i Hj. rewrite Hs, Hlow in Hj. unfold kern_of. rewrite Hds by lia. cbn.
    split; [lia|]. rewrite Hin. split; [intros _; left; lia|done].
Qed.

(** ** The loop *)

Lemma init_details_wp n i s :
  0 <= i - Z.of_nat n + 1 -> i < Z.of_nat (length (core_details (co_cm s))) ->
  wp (init_details n i) s (fun _ s' => exists ds, s' = set_ds ds s /\
    length ds = length (core_details (co_cm s)) /\
    forall j, 0 <= j -> cdl ds j =
      if decide (i - Z.of_nat n < j <= i) then Some (mkCd j 0 None (Some (j - 1)) (Some (j + 1)) 1)
      else cdl (core_details (co_cm s)) j).
Proof.
  revert i s. induction n as [|n IH]; intros i s Hlo Hhi; cbn [init_details].
  - apply wp_ret. exists (core_details (co_cm s)). split; [by destruct s as [? ? [] ? ? ? ?]|]. split; [done|].
    intros j Hj. rewrite decide_False by lia. done.
  - wp_step. eapply wp_wr_cd; [lia|]. eapply wp_mono; [apply IH; [lia|]|].
    + core_cbn. rewrite length_upd. lia.
    + intros _ s' (ds & -> & Hlen & Hds). exists ds. core_cbn. revert Hlen Hds. core_cbn. intros Hlen Hds.
      split; [done|]. rewrite length_upd in Hlen. split; [done|]. intros j Hj. rewrite Hds by done.
      rewrite cdl_upd by lia. destruct (decide (i = j)) as [->|].
      * rewrite decide_False, decide_True by lia. done.
      * repeat case_decide; lia || done.
Qed.

Lemma cm_fill_wp s :
  let low := firstpaddr (co_ram s) / PAGE_SIZE in
  let size := cm_size (co_cm s) in
  cm_init (co_cm s) <> 0 -> clock_pointer (co_cm s) = 0 -> co_pds s = ∅ ->
  Z.of_nat (length (core_details (co_cm s))) = size ->
  lastpaddr (co_ram s) <> 0 -> 0 < low < size ->
  wp cm_fill s (fun _ s' => booted s' low (size - 1)).
Proof.
  intros low size Hi Hc Hp Hlen Hlast Hlow. unfold cm_fill. apply wp_bind, wp_get.
  apply wp_bind. eapply wp_Ret; [reflexivity|]. cbv beta iota. apply wp_bind, wp_kassert; [lia|].
  apply wp_bind, wp_modify. fold size low. apply wp_bind.
  eapply wp_mono; [apply init_details_wp; core_cbn; cbn [core_details]; fold size; rewrite ?Z2Nat.id by lia; try lia; cbn [co_cm set_cm set_co_ram core_details]; lia|].
  intros _ s' (ds & -> & Hlend & Hds). cbn [co_cm set_cm set_co_ram core_details] in Hlend.
  set (cd j := mkCd j 0 None (Some (j - 1)) (Some (j + 1)) 1).
  assert (forall j, low <= j < size -> cdl ds j = Some (cd j)) as Hcd.
  { intros j Hj. rewrite Hds by lia. rewrite decide_True by lia. done. }
  clear Hds. apply wp_bind. eapply wp_upd_cd; core_cbn; [lia|by apply Hcd; lia|].
  set (ds1 := upd ds low _). apply wp_bind.
  eapply (wp_upd_cd _ _ (if decide (low = size - 1) then cd_set_next None (cd low) else cd (size - 1)));
    core_cbn; [lia| |].
  { unfold ds1. rewrite cdl_upd by lia. by case_decide; [|apply Hcd; lia]. }
  apply wp_modify. core_cbn. split; try done; try (cbn; lia).
  - cbn. unfold ds1. rewrite !length_upd. lia.
  - intros j Hj. core_cbn. unfold ds1, boot_cd. rewrite !cdl_upd by (rewrite ?length_upd; lia).
    destruct (Z.eqb_spec j low), (Z.eqb_spec j (size - 1)); subst;
      repeat case_decide; try lia; subst; try done; rewrite ?Hcd by lia; try done.
Qed.

(** The pages that hold the core map of a machine with [size] frames. *)
Definition map_pages (size : Z) : Z := (SIZEOF_CM_DETAIL * size + PAGE_SIZE - 1) / PAGE_SIZE.

Lemma boot_sizes r mips_ramsize :
  let size := mips_ramsize / PAGE_SIZE in
  ram_wf r -> lastpaddr r = mips_ramsize -> firstpaddr r / PAGE_SIZE + map_pages size < size ->
  0 < firstpaddr r / PAGE_SIZE /\ 0 <= size /\ size * PAGE_SIZE <= RAM_LIMIT /\ 0 <= map_pages size /\
  firstpaddr r + map_pages size * PAGE_SIZE <= mips_ramsize.
Proof.
  intros size (Hf & Hal & Hl) Hlast Hlow.
  assert (0 <= size /\ size * PAGE_SIZE <= mips_ramsize) as [H0 Hle].
  { unfold size, PAGE_SIZE in *. Z.to_euclidean_division_equations. lia. }
  assert (0 <= map_pages size) by (apply Z.div_pos; unfold SIZEOF_CM_DETAIL, PAGE_SIZE; lia).
  split_and!; [|done|lia|done|]; clearbody size; unfold PAGE_SIZE in *; Z.to_euclidean_division_equations; lia.
Qed.

(** [kmalloc] before [ram_getsize]: whole pages, from [ram_stealmem]. *)
Lemma kmalloc_steals (c : core F) sz :
  let r := co_ram c in
  let np := (sz + PAGE_SIZE - 1) / PAGE_SIZE in
  ram_wf r -> lastpaddr r <> 0 -> 0 <= sz < 2 ^ 31 -> firstpaddr r + np * PAGE_SIZE <= lastpaddr r ->
  kheap_kmalloc sz (kheap_zero c) = Ret (MIPS_KSEG0 + firstpaddr r,
    kheap_zero (set_co_ram (mkRam (firstpaddr r + np * PAGE_SIZE) (lastpaddr r) (first_vm_addr r)) c)).
Proof.
  intros r np (Hf & _ & Hl) Hlast Hsz Hfit.
  assert (0 <= np * PAGE_SIZE <= sz + PAGE_SIZE) as Hnp.
  { unfold np, PAGE_SIZE. Z.to_euclidean_division_equations. lia. }
  unfold kheap_kmalloc, bind, get, on_pages, steal. cbn [kpages kheap_zero ram_of set_ram core_pages].
  fold r. unfold is_vm_setup. destruct (Z.eqb_spec (lastpaddr r) 0); [done|]. cbn [negb].
  rewrite (u32_small (sz + PAGE_SIZE - 1)) by (unfold PAGE_SIZE; lia). fold np.
  unfold ram_stealmem, bind, get, put, ret. cbv zeta.
  change (kpages (kheap_zero c)) with c. change (co_ram c) with r. unfold RAM_LIMIT in *.
  clearbody np r. rewrite (u32_small (np * PAGE_SIZE)) by (unfold PAGE_SIZE in *; lia).
  rewrite (u32_small (firstpaddr r + np * PAGE_SIZE)) by lia.
  destruct (Z.gtb_spec (firstpaddr r + np * PAGE_SIZE) (lastpaddr r)); [lia|].
  destruct (Z.eqb_spec (firstpaddr r) 0); [lia|]. unfold PADDR_TO_KVADDR, MIPS_KSEG0.
  rewrite u32_small by lia. by rewrite Z.add_comm.
Qed.

(** C14: [cm_bootstrap] sets memory up.  It steals the pages of the core map
    from [ram.c]; afterwards every frame behind them is free and on the free
    list, the invariants of the core map hold, and the kernel heap is an empty
    heap over it, so that the contracts of [kmalloc] and [kfree] apply from
    here on. *)
Theorem cm_bootstrap_starts (c : core F) mips_ramsize :
  let size := mips_ramsize / PAGE_SIZE in
  let low := firstpaddr (co_ram c) / PAGE_SIZE + map_pages size in
  ram_wf (co_ram c) -> lastpaddr (co_ram c) = mips_ramsize -> 0 < co_spl c ->
  cm_init (co_cm c) = 0 -> clock_pointer (co_cm c) = 0 -> co_pds c = ∅ -> low < size ->
  wp (cm_bootstrap mips_ramsize) (kheap_zero c) (fun _ h' =>
    kheap_rep h' ∅ /\ is_vm_setup (co_ram (kpages h')) = true /\
    exists l, (forall f, f ∈ l <-> low <= f < size) /\
      forall fl, frames_ok (kpages h') l ∅ ∅ fl /\ kern_ok (co_cm (kpages h')) l ∅ ∅).
Proof.
  intros size low (Hf & Hal & Hl) Hlast Hspl Hinit Hclock Hpds Hlow.
  destruct (boot_sizes (co_ram c) mips_ramsize (conj Hf (conj Hal Hl)) Hlast Hlow)
    as (Hf0 & H0 & Hlim & Hmp & Hfit).
  fold size in H0, Hlim, Hmp, Hfit.
  assert (s32 size = size) as Hs32 by (apply s32_small; unfold PAGE_SIZE, RAM_LIMIT in *; lia).
  unfold cm_bootstrap. apply wp_bind, wp_get, wp_bind, wp_kassert; [cbn; lia|].
  apply wp_bind, wp_kassert; [cbn; lia|]. fold size. rewrite Hs32.
  apply wp_bind, wp_modify. cbn [kpages kheap_zero]. apply wp_bind.
  set (c1 := set_cm (mkCm 1 size _ _ _ _ _) c). change (set_kpages c1 (kheap_zero c)) with (kheap_zero c1).
  eapply wp_Ret.
  { rewrite u32_small by (unfold SIZEOF_CM_DETAIL, PAGE_SIZE, RAM_LIMIT in *; lia).
    apply kmalloc_steals; [done|cbn; lia| |cbn; unfold map_pages in Hfit; lia].
    unfold SIZEOF_CM_DETAIL, PAGE_SIZE, RAM_LIMIT in *; lia. }
  fold (map_pages size). set (r' := mkRam _ _ _). cbv beta.
  destruct (Z.eqb_spec (MIPS_KSEG0 + firstpaddr (co_ram c1)) 0) as [E|_].
  { cbn in E. unfold MIPS_KSEG0 in E. lia. }
  set (c2 := set_cm (set_details (replicate (Z.to_nat size) None) (co_cm c1)) (set_co_ram r' c1)).
  apply wp_bind, (wp_Ret _ _ tt (kheap_zero c2)); [reflexivity|].
  assert (firstpaddr r' / PAGE_SIZE = low) as Hlow'.
  { cbn. unfold low, PAGE_SIZE. by rewrite Z.div_add. }
  destruct (proj1 (wp_elim _ _ _) (cm_fill_wp c2 ltac:(done) Hclock Hpds
    ltac:(cbn; rewrite length_replicate; lia) ltac:(cbn; lia)
    ltac:(change (0 < firstpaddr r' / PAGE_SIZE < size); lia))) as ([] & c3 & E & Hb).
  change (co_ram c2) with r' in Hb. change (cm_size (co_cm c2)) with size in Hb. rewrite Hlow' in Hb.
  apply (wp_Ret _ _ tt (kheap_zero c3)).
  { unfold on_pages. change (kpages (kheap_zero c2)) with c2. by rewrite E. }
  pose proof (fun fl => booted_frames c3 low (size - 1) fl Hb ltac:(lia) ltac:(rewrite Z.sub_add; done)) as Hok.
  set (l := down _ _) in Hok. change (kpages (kheap_zero c3)) with c3. split.
  { apply kheap_zero_rep. split; [exists l, ∅, []; apply Hok|]. split; intros; by rewrite lookup_empty in *. }
  split; [unfold is_vm_setup; by rewrite (bt_ram _ _ _ Hb)|]. exists l. split; [|exact Hok].
  intros f. unfold l. rewrite elem_of_down. lia.
Qed.
End Boot.
