(* ===== verification/Addrspace.v ===== *)
(** * Address spaces ([kern/vm/addrspace.c], [kern/vm/pt.c], [load_segment_page]
      of [kern/userprog/loadelf.c])

    [vmsys] is the state of the virtual memory system: the kernel heap, whose
    pages come from the core map and which therefore holds the record [core];
    the address spaces and the page tables, by the addresses [kmalloc] gave
    them; the address space of the current thread; and [last_addrspace].  The
    entries of a page table are page details of [core], 24 bytes apart.

    [VOP_READ] of the executable is a parameter: it takes a vnode and a [uio]
    and answers a result and the [uio] after the transfer.  The value that
    [load_segment_page] finds in a field it does not set, and what [kmalloc]
    leaves in the segment that [as_create] does not set, are arguments. *)

From S2P Require Import Prelude.
From S2P Require Import Ram.
From S2P Require Import Kheap.
From S2P Require Import KheapProof.
From S2P Require Import Copyinout.
From S2P Require Import Uio.
From S2P Require Import Tlb.
From S2P Require Import Coremap.

Record segment := mkSegment {
  sg_active : Z;
  sg_vbase : Z;
  sg_size : Z;
  sg_writeable : Z;
  sg_pt : Z;                    (* address of the page table, 0 if none *)
  sg_offset : Z;
  sg_filesz : Z;
  sg_memsz : Z;
  sg_flags : Z;
}.

Record page_table := mkPt {
  pt_size : Z;
  pt_seg : Z * Z;               (* address space and index of the segment *)
  pt_details : Z;               (* address of the first page detail *)
}.

Record addrspace := mkAs {
  as_segments : list segment;
  as_file : Z;                  (* vnode, 0 if none *)
  as_num_segments : Z;
}.

Record vmsys (F : Type) := mkVm {
  vm_heap : kheap (core F);
  vm_as : gmap Z addrspace;
  vm_pt : gmap Z page_table;
  t_vmspace : Z;                (* of the current thread, 0 if none *)
  last_addrspace : Z;
}.
Arguments mkVm {F}.
Arguments vm_heap {F}.
Arguments vm_as {F}.
Arguments vm_pt {F}.
Arguments t_vmspace {F}.
Arguments last_addrspace {F}.

Definition AS_NUM_SEG : Z := 3.
Definition SIZEOF_PAGE_DETAIL : Z := 24.
Definition SIZEOF_PAGE_TABLE : Z := 12.
Definition SIZEOF_ADDRSPACE : Z := 116.
Definition DUMBVM_STACKPAGES : Z := 12.
Definition PF_W : Z := 2.
Definition PF_X : Z := 1.
Definition VM_FAULT_READ : Z := 0.
Definition VM_FAULT_WRITE : Z := 1.
Definition VM_FAULT_READONLY : Z := 2.

(** A call that may end the thread: [thread_exit] does not come back. *)
Inductive outcome (A : Type) :=
| Back (a : A)
| Exit.
Arguments Back {A} _.
Arguments Exit {A}.

Section Vm.
Context {F : Type} `{!SwapFile F}.
Context (vop_read : Z -> uio -> Z * uio).
Abbreviation V := (vmsys F).
Implicit Types (s : V) (sg : segment).

Definition vm_core s : core F := kpages (vm_heap s).

Definition on_kheap {A} (m : M (kheap (core F)) A) : M V A := fun s =>
  match m (vm_heap s) with
  | Ret (a, h) => Ret (a, mkVm h (vm_as s) (vm_pt s) (t_vmspace s) (last_addrspace s))
  | Stop w => Stop w
  end.
Definition on_core {A} (m : M (core F) A) : M V A := on_kheap (on_pages m).

Definition set_as (m : gmap Z addrspace) s : V :=
  mkVm (vm_heap s) m (vm_pt s) (t_vmspace s) (last_addrspace s).
Definition set_pts (m : gmap Z page_table) s : V :=
  mkVm (vm_heap s) (vm_as s) m (t_vmspace s) (last_addrspace s).

Definition rd_as (p : Z) : M V addrspace :=
  let* s := get in
  match vm_as s !! p with
  | Some a => ret a
  | None => halt Fault
  end.
Definition wr_as (p : Z) (a : addrspace) : M V unit := modify (fun s => set_as (<[p := a]> (vm_as s)) s).

Definition rd_pt (p : Z) : M V page_table :=
  let* s := get in
  match vm_pt s !! p with
  | Some a => ret a
  | None => halt Fault
  end.

Definition rd_seg (p i : Z) : M V segment :=
  let* a := rd_as p in lift (rd (as_segments a) i).
Definition wr_seg (p i : Z) (sg : segment) : M V unit :=
  let* a := rd_as p in
  let* l := lift (wr (as_segments a) i sg) in
  wr_as p (mkAs l (as_file a) (as_num_segments a)).

(** [&pt->page_details[j]]. *)
Definition pd_addr (pt : page_table) (j : Z) : Z := pt_details pt + SIZEOF_PAGE_DETAIL * j.

(** ** Page tables *)

(** [for (i = 0; i < pt->size; i++)], with [n] iterations left. *)
Fixpoint init_page_details (n : nat) (i base : Z) (sg : segment) (m : gmap Z page_detail) :
    gmap Z page_detail :=
  match n with
  | O => m
  | S n =>
      init_page_details n (i + 1) base sg
        (<[base + SIZEOF_PAGE_DETAIL * i :=
             mkPd (u32 (sg_vbase sg + PAGE_SIZE * i)) (-1) (-1) 0 (sg_writeable sg) 0]> m)
  end.

(** [where_] is the segment's place: its address space and its index. *)
Definition pt_create (where_ : Z * Z) (sg : segment) : M V Z :=
  let* pt := on_kheap (kheap_kmalloc SIZEOF_PAGE_TABLE) in
  if pt =? 0 then halt Panic
  else
    let size := s32 (sg_size sg) in
    let* d := on_kheap (kheap_kmalloc (u32 (SIZEOF_PAGE_DETAIL * size))) in
    if d =? 0 then halt Panic
    else
      let* _ := modify (fun s => set_pts (<[pt := mkPt size where_ d]> (vm_pt s)) s) in
      let* _ := on_core (modify (fun c => set_pds (init_page_details (Z.to_nat size) 0 d sg (co_pds c)) c)) in
      ret pt.

(** The page details are gone with the block that held them. *)
Fixpoint drop_page_details (n : nat) (a : Z) (m : gmap Z page_detail) : gmap Z page_detail :=
  match n with
  | O => m
  | S n => drop_page_details n (a + SIZEOF_PAGE_DETAIL) (delete a m)
  end.

Definition pt_destroy (pt : Z) : M V unit :=
  if pt =? 0 then ret tt
  else
    let* t := rd_pt pt in
    let* _ :=
      if pt_details t =? 0 then ret tt
      else
        let* _ := on_kheap (kheap_kfree (pt_details t)) in
        on_core (modify (fun c =>
          set_pds (drop_page_details (Z.to_nat (pt_size t)) (pt_details t) (co_pds c)) c)) in
    let* _ := on_kheap (kheap_kfree pt) in
    modify (fun s => set_pts (delete pt (vm_pt s)) s).

(** ** Loading a page of the executable *)

(** [uio_resid] is not set before the test on the file size: it is [junk]. *)
Definition segment_uio (junk vaddr : Z) sg (buf : list Z) : uio :=
  mkUio (mkRegion 0 buf 0) 0 PAGE_SIZE (s32 (vaddr - sg_vbase sg + sg_offset sg)) junk
    UIO_SYSSPACE UIO_READ 0.

(** The code behind the two branches. *)
Definition fill_page (cur read_size : Z) (u : uio) : res (Z * uio) :=
  let fillamt := u32 (PAGE_SIZE - read_size) in
  if fillamt >? 0 then uiomovezeros cur fillamt (set_resid (u32 (uio_resid u + fillamt)) u)
  else Ret (0, u).

Definition segment_bytes (cur junk v vaddr : Z) sg (buf : list Z) : res (Z * uio) :=
  let u := segment_uio junk vaddr sg buf in
  if u32 (vaddr - sg_vbase sg) <? sg_filesz sg then
    let read_size :=
      if u32 (sg_vbase sg + sg_filesz sg) >=? u32 (vaddr + PAGE_SIZE) then PAGE_SIZE
      else s32 (sg_vbase sg + sg_filesz sg - vaddr) in
    let (result, u) := vop_read v (set_resid read_size u) in
    if negb (result =? 0) then Ret (result, u)
    else if negb (uio_resid u =? 0) then Ret (ENOEXEC, u)
    else fill_page cur read_size u
  else fill_page cur 0 u.

Definition load_segment_page (junk v vaddr : Z) sg (paddr : Z) : M V Z :=
  let* s := get in
  let frame := paddr / PAGE_SIZE in
  let* (result, u) :=
    lift (segment_bytes (t_vmspace s) junk v vaddr sg (frame_bytes (vm_core s) frame)) in
  let* _ := on_core (modify (fun c => set_mem (<[frame := rg_bytes (iov_region u)]> (co_mem c)) c)) in
  ret result.

(** ** Page faults *)

Definition pt_page_in (junk vaddr : Z) sg : M V unit :=
  let* spl := on_core splhigh in
  let pt_offset_id := u32 (vaddr - sg_vbase sg) / PAGE_SIZE in
  let* pt := rd_pt (sg_pt sg) in
  let a := Some (pd_addr pt pt_offset_id) in
  let* pd := on_core (rd_pd a) in
  if negb (pd_valid pd =? 0) && negb (pd_pfn pd =? -1) then
    let* _ := on_core (upd_pd a (pd_set_use 1)) in
    let* _ := on_core (on_tlb (tlb_add_entry vaddr (u32 (pd_pfn pd * PAGE_SIZE)) (sg_writeable sg) 1)) in
    on_core (splx spl)
  else if negb (pd_sfn pd =? -1) then
    let* _ := on_core (splx spl) in
    let* _ := on_core (upd_pd a (pd_set_use 1)) in
    let* frame := on_core cm_getppage in
    let* _ := on_core (upd_pd a (pd_set_pfn frame)) in
    let* pd := on_core (rd_pd a) in
    let* _ := on_core (swap_read (pd_pfn pd) (pd_sfn pd)) in
    let* _ := on_core (upd_pd a (pd_set_sfn (-1))) in
    let* _ := on_core (on_tlb (tlb_add_entry vaddr (u32 (pd_pfn pd * PAGE_SIZE)) (sg_writeable sg) 1)) in
    on_core (cm_finish_paging (pd_pfn pd) a)
  else
    let* _ := on_core (splx spl) in
    let* _ := on_core (upd_pd a (pd_set_use 1)) in
    let* frame := on_core cm_getppage in
    let* _ := on_core (upd_pd a (pd_set_pfn frame)) in
    let* pd := on_core (rd_pd a) in
    let* s := get in
    let* asp := rd_as (t_vmspace s) in
    let* _ := load_segment_page junk (as_file asp) vaddr sg (u32 (pd_pfn pd * PAGE_SIZE)) in
    let* _ := on_core (on_tlb (tlb_add_entry vaddr (u32 (pd_pfn pd * PAGE_SIZE)) (sg_writeable sg) 1)) in
    on_core (cm_finish_paging (pd_pfn pd) a).

Fixpoint get_segment (sgs : list segment) (v : Z) : option segment :=
  match sgs with
  | [] => None
  | sg :: sgs =>
      if (sg_active sg =? 1) && (v >=? sg_vbase sg) &&
         (v <? u32 (sg_vbase sg + sg_size sg * PAGE_SIZE))
      then Some sg else get_segment sgs v
  end.

Definition as_get_segment (asp : addrspace) (v : Z) : option segment := get_segment (as_segments asp) v.

(** [check_addr] and the bounds are pointers to [vaddr_t]: adding to one counts
    in steps of four bytes. *)
Fixpoint valid_addr (sgs : list segment) (check_addr : Z) : bool :=
  match sgs with
  | [] => false
  | sg :: sgs =>
      if negb (sg_active sg =? 0) && (check_addr >=? sg_vbase sg) &&
         (check_addr <? u32 (sg_vbase sg + 4 * (PAGE_SIZE * sg_size sg)))
      then true else valid_addr sgs check_addr
  end.

Definition as_valid_read_addr (asp : addrspace) (check_addr : Z) : bool :=
  if negb (check_addr <? USERTOP) then false else valid_addr (as_segments asp) check_addr.

Definition as_valid_write_addr (asp : addrspace) (check_addr : Z) : bool :=
  if negb (check_addr <? USERTOP) then false else valid_addr (as_segments asp) check_addr.

(** The interrupt level stays high on the paths that do not restore it. *)
Definition vm_fault (junk faulttype faultaddress : Z) : M V (outcome Z) :=
  let* spl := on_core splhigh in
  let faultaddress := Z.land faultaddress PAGE_FRAME in
  let* s := get in
  let asp := t_vmspace s in
  if asp =? 0 then ret (Back EFAULT)
  else
    let page_in :=
      let* a := rd_as asp in
      let sg := as_get_segment a faultaddress in
      let* _ := kassert (bool_decide (sg <> None)) in
      let* _ := on_core (splx spl) in
      match sg with
      | Some sg => let* _ := pt_page_in junk faultaddress sg in ret (Back 0)
      | None => halt Fault
      end in
    if faulttype =? VM_FAULT_READONLY then ret Exit
    else if faulttype =? VM_FAULT_WRITE then
      let* a := rd_as asp in
      if negb (as_valid_write_addr a faultaddress) then ret Exit else page_in
    else if faulttype =? VM_FAULT_READ then
      let* a := rd_as asp in
      if negb (as_valid_read_addr a faultaddress) then ret Exit else page_in
    else
      let* _ := on_core (splx spl) in
      ret (Back EINVAL).

(** ** Address spaces *)

Definition zero_segment : segment := mkSegment 0 0 0 0 0 0 0 0 0.

(** The loop clears all segments but the last, which keeps what [kmalloc]
    returned. *)
Definition as_create (junk_seg : segment) : M V Z :=
  let* asp := on_kheap (kheap_kmalloc SIZEOF_ADDRSPACE) in
  if asp =? 0 then ret 0
  else
    let* _ := wr_as asp (mkAs (replicate (Z.to_nat (AS_NUM_SEG - 1)) zero_segment ++ [junk_seg]) 0 0) in
    ret asp.

(** [for (j = 0; j < pt->size; j++)], with [n] iterations left. *)
Fixpoint free_pages (n : nat) (pt : page_table) (j : Z) : M V unit :=
  match n with
  | O => ret tt
  | S n =>
      let* pd := on_core (rd_pd (Some (pd_addr pt j))) in
      let* _ := if negb (pd_pfn pd =? -1) then on_core (cm_release_frame (pd_pfn pd)) else ret tt in
      let* _ := if negb (pd_sfn pd =? -1) then on_core (swap_free_page (pd_sfn pd)) else ret tt in
      free_pages n pt (j + 1)
  end.

Fixpoint free_segments (n : nat) (asp i : Z) : M V unit :=
  match n with
  | O => ret tt
  | S n =>
      let* sg := rd_seg asp i in
      let* _ :=
        if negb (sg_active sg =? 0) && negb (sg_pt sg =? 0) then
          let* pt := rd_pt (sg_pt sg) in
          let* _ := free_pages (Z.to_nat (pt_size pt)) pt 0 in
          pt_destroy (sg_pt sg)
        else ret tt in
      free_segments n asp (i + 1)
  end.

Definition as_free_segments (asp : Z) : M V unit :=
  let* _ := kassert (negb (asp =? 0)) in
  free_segments (Z.to_nat AS_NUM_SEG) asp 0.

(** [VOP_DECOPEN] of the executable does not touch this state. *)
Definition as_destroy (asp : Z) : M V unit :=
  let* _ := as_free_segments asp in
  let* _ := on_kheap (kheap_kfree asp) in
  modify (fun s => set_as (delete asp (vm_as s)) s).

Definition as_activate (asp : Z) : M V unit :=
  let* s := get in
  let* _ :=
    if negb (last_addrspace s =? 0) && negb (last_addrspace s =? asp)
    then on_core (on_tlb tlb_context_switch) else ret tt in
  modify (fun s => mkVm (vm_heap s) (vm_as s) (vm_pt s) (t_vmspace s) asp).

Definition sg_set_pt (pt : Z) sg : segment :=
  mkSegment (sg_active sg) (sg_vbase sg) (sg_size sg) (sg_writeable sg) pt (sg_offset sg)
    (sg_filesz sg) (sg_memsz sg) (sg_flags sg).

Definition as_define_region (asp vaddr sz flags offset filesz : Z) : M V Z :=
  let memsz := sz in
  let sz := u32 (sz + Z.land vaddr (u32 (Z.lnot PAGE_FRAME))) in
  let vaddr := Z.land vaddr PAGE_FRAME in
  let sz := Z.land (u32 (sz + PAGE_SIZE - 1)) PAGE_FRAME in
  let npages := sz / PAGE_SIZE in
  let* a := rd_as asp in
  let i := as_num_segments a in
  if i <? AS_NUM_SEG - 1 then
    let* old := rd_seg asp i in
    let* _ := kassert (sg_active old =? 0) in
    let sg := mkSegment 1 vaddr npages (Z.land flags PF_W) (sg_pt old) offset filesz memsz
                (Z.land flags PF_X) in
    let* _ := wr_seg asp i sg in
    let* pt := pt_create (asp, i) sg in
    let* _ := wr_seg asp i (sg_set_pt pt sg) in
    let* _ := kassert (negb (pt =? 0)) in
    let* a := rd_as asp in
    let* _ := wr_as asp (mkAs (as_segments a) (as_file a) (s32 (as_num_segments a + 1))) in
    ret 0
  else ret EUNIMP.

(** Answers the initial stack pointer. *)
Definition as_define_stack (asp : Z) : M V (Z * Z) :=
  let i := AS_NUM_SEG - 1 in
  let* old := rd_seg asp i in
  let sg := mkSegment 1 (USERTOP - DUMBVM_STACKPAGES * PAGE_SIZE) DUMBVM_STACKPAGES 1 (sg_pt old)
              0 0 0 0 in
  let* _ := wr_seg asp i sg in
  let* pt := pt_create (asp, i) sg in
  let* _ := wr_seg asp i (sg_set_pt pt sg) in
  ret (0, USERTOP).

(** The frame the processor reads for the page [v], after a fault if need be:
    [Back None] is an access that fails. *)
Definition user_frame (junk v : Z) : M V (outcome (option Z)) :=
  let found lo := ret (Back (Some (Z.land lo PAGE_FRAME / PAGE_SIZE))) in
  let* s := get in
  match translate (co_tlb (vm_core s)) v with
  | Some lo => found lo
  | None =>
      let* r := vm_fault junk VM_FAULT_READ v in
      match r with
      | Exit => ret Exit
      | Back 0 =>
          let* s := get in
          match translate (co_tlb (vm_core s)) v with
          | Some lo => found lo
          | None => halt OutOfFuel
          end
      | Back _ => ret (Back None)
      end
  end.

(** [copyin] of a page of the current address space; its result is not looked
    at. *)
Definition copyin_page (junk v frame : Z) : M V (outcome unit) :=
  let* r := user_frame junk v in
  match r with
  | Exit => ret Exit
  | Back None => ret (Back tt)
  | Back (Some f) =>
      let* _ := on_core (modify (fun c => set_mem (<[frame := frame_bytes c f]> (co_mem c)) c)) in
      ret (Back tt)
  end.

(** [for (j = 0; j < new->segments[i].pt->size; j++)], with [n] iterations
    left. *)
Fixpoint copy_pages (n : nat) (junk old opt : Z) (npt : page_table) (j : Z) : M V (outcome unit) :=
  match n with
  | O => ret (Back tt)
  | S n =>
      let a := Some (pd_addr npt j) in
      let* o := rd_pt opt in
      let* opd := on_core (rd_pd (Some (pd_addr o j))) in
      if negb (pd_dirty opd =? 0) then
        let* _ := on_core (upd_pd a (pd_set_use 0)) in
        let* _ := on_core (upd_pd a (pd_set_valid 1)) in
        let* frame := on_core cm_getppage in
        let* _ := on_core (upd_pd a (pd_set_pfn frame)) in
        let* s := get in
        let* _ := kassert (t_vmspace s =? old) in
        let* pd := on_core (rd_pd a) in
        let* r := copyin_page junk (pd_vaddr pd) frame in
        match r with
        | Exit => ret Exit
        | Back _ =>
            let* pd := on_core (rd_pd a) in
            let* _ := on_core (cm_finish_paging (pd_pfn pd) a) in
            copy_pages n junk old opt npt (j + 1)
        end
      else
        let* _ := on_core (upd_pd a (pd_set_use 0)) in
        let* _ := on_core (upd_pd a (pd_set_pfn (-1))) in
        let* _ := on_core (upd_pd a (pd_set_valid 0)) in
        let* _ := on_core (upd_pd a (pd_set_sfn (-1))) in
        copy_pages n junk old opt npt (j + 1)
  end.

Fixpoint copy_segments (n : nat) (junk old new i : Z) : M V (outcome unit) :=
  match n with
  | O => ret (Back tt)
  | S n =>
      let* sg := rd_seg old i in
      if negb (sg_active sg =? 0) then
        let* nsg := rd_seg new i in
        let nsg := mkSegment 1 (sg_vbase sg) (sg_size sg) (sg_writeable sg) (sg_pt nsg)
                     (sg_offset sg) (sg_filesz sg) (sg_memsz sg) (sg_flags sg) in
        let* _ := wr_seg new i nsg in
        let* pt := pt_create (new, i) nsg in
        let* _ := wr_seg new i (sg_set_pt pt nsg) in
        let* npt := rd_pt pt in
        let* r := copy_pages (Z.to_nat (pt_size npt)) junk old (sg_pt sg) npt 0 in
        match r with
        | Exit => ret Exit
        | Back _ => copy_segments n junk old new (i + 1)
        end
      else copy_segments n junk old new (i + 1)
  end.

Definition as_copy_segments (junk old new : Z) : M V (outcome Z) :=
  let* o := rd_as old in
  let* a := rd_as new in
  let* _ := wr_as new (mkAs (as_segments a) (as_file a) (as_num_segments o)) in
  let* r := copy_segments (Z.to_nat AS_NUM_SEG) junk old new 0 in
  match r with
  | Exit => ret Exit
  | Back _ => ret (Back 0)
  end.

(** Answers the result and the new address space.  [VOP_OPEN] and
    [VOP_INCOPEN] of the executable do not touch this state. *)
Definition as_copy (junk : Z) (junk_seg : segment) (old : Z) : M V (outcome (Z * Z)) :=
  let* new := as_create junk_seg in
  if new =? 0 then ret (Back (ENOMEM, 0))
  else
    let* o := rd_as old in
    let* a := rd_as new in
    let* _ := wr_as new (mkAs (as_segments a) (as_file o) (as_num_segments a)) in
    let* r := as_copy_segments junk old new in
    match r with
    | Exit => ret Exit
    | Back result => if negb (result =? 0) then ret (Back (result, 0)) else ret (Back (0, new))
    end.

(** ** A new address space for [execv] *)

Definition set_vmspace (p : Z) : M V unit :=
  modify (fun s => mkVm (vm_heap s) (vm_as s) (vm_pt s) p (last_addrspace s)).

(** The part of [sys_execv] between copying the arguments in and [load_elf]. *)
Definition execv_space (junk_seg : segment) : M V Z :=
  let* s := get in
  let* _ := as_destroy (t_vmspace s) in
  let* _ := set_vmspace 0 in
  let* p := as_create junk_seg in
  let* _ := set_vmspace p in
  if p =? 0 then ret ENOMEM
  else
    let* _ := as_activate p in
    ret 0.
End Vm.
