(* ===== verification/CoremapPages.v ===== *)
(** * Page frames for user pages

    The clock algorithm of [cm_push_to_swap] finds a page to evict whenever
    there is one, and [cm_getppage] answers a frame that nobody uses; no page
    loses its bytes.  Installing a page in the frame ([installed]) brings the
    frame back into the classification of [frames_ok]. *)

From S2P Require Import Prelude.
From S2P Require Import Ram.
From S2P Require Import Kheap.
From S2P Require Import KheapProof.
From S2P Require Import Tlb.
From S2P Require Import Coremap.
From S2P Require Import CoremapProof.
From S2P Require Import CoremapInv.
From S2P Require Import CoremapLaws.

Section Pages.
Context {F : Type} `{!SwapFile F, !SwapFileLaws F}.
Implicit Types (s : core F) (c : cm) (l fl : list Z) (U X : gset Z).

(** ** The use bit *)

Lemma frames_use s l U X fl a pd k t :
  frames_ok s l U X fl -> co_pds s !! a = Some pd ->
  (forall tl m, tlb_rep (co_tlb s) tl m -> exists tl' m', tlb_rep t tl' m' /\ m' ⊆ m) ->
  let s' := set_tlb t (set_pds (<[a := pd_set_use k pd]> (co_pds s)) s) in
  frames_ok s' l U X fl /\ evolves s s'.
Proof.
  intros Hok Ha Ht s'. assert (co_pds s' = <[a := pd_set_use k pd]> (co_pds s)) as Hpds by done.
  assert (forall b pdb, co_pds s' !! b = Some pdb -> exists pdb', co_pds s !! b = Some pdb' /\
    pd_vaddr pdb = pd_vaddr pdb' /\ pd_pfn pdb = pd_pfn pdb' /\ pd_sfn pdb = pd_sfn pdb' /\
    pd_valid pdb = pd_valid pdb') as Hback.
  { intros b pdb. rewrite Hpds. intros [[<- <-]|[_ Hb]]%lookup_insert_Some; [by exists pd|by exists pdb]. }
  assert (forall b pdb, co_pds s !! b = Some pdb -> exists pdb', co_pds s' !! b = Some pdb' /\
    pd_vaddr pdb' = pd_vaddr pdb /\ pd_pfn pdb' = pd_pfn pdb /\ pd_sfn pdb' = pd_sfn pdb /\
    pd_dirty pdb' = pd_dirty pdb) as Hforth.
  { intros b pdb Hb. destruct (decide (a = b)) as [<-|Hne].
    - exists (pd_set_use k pd). rewrite Hpds. simplify_eq. by rewrite lookup_insert_eq.
    - exists pdb. rewrite Hpds. by rewrite lookup_insert_ne. }
  split; split; try apply Hok; try done.
  - intros i Hi. destruct (fo_user _ _ _ _ _ Hok i Hi) as (Hr & Hl & b & pdb & Hp & Hb & Hpf).
    split; [done|]. split; [done|]. destruct (Hforth b pdb Hb) as (pdb' & Hb' & _ & Hpf' & _).
    exists b, pdb'. by rewrite Hpf'.
  - intros b pdb Hb. destruct (Hback b pdb Hb) as (pdb' & Hb' & Ev & Ep & Es & Eva).
    destruct (fo_pds _ _ _ _ _ Hok b pdb' Hb') as [Hv Hp Hva Hs].
    split; [by rewrite Ev|by rewrite Ep, Es|by rewrite Ep, Eva|by rewrite Es].
  - intros b b' pdb pdb' Hb Hb' Hne He. destruct (Hback b pdb Hb) as (q & Hq & _ & _ & Eq & _).
    destruct (Hback b' pdb' Hb') as (q' & Hq' & _ & _ & Eq' & _). rewrite Eq.
    apply (fo_swap _ _ _ _ _ Hok b b' q q'); congruence.
  - destruct (fo_up _ _ _ _ _ Hok) as [E|[(tl & m & H) Hw]]; [by rewrite E in Ha|right].
    destruct (Ht tl m H) as (tl' & m' & H' & _). split; [by eauto|done].
  - intros b Hb. rewrite Hpds, lookup_insert_ne; [done|]. congruence.
  - intros b pdb Hb. destruct (Hforth b pdb Hb) as (pdb' & Hb' & Ev & Ep & Es & Ed).
    exists pdb'. split_and!; [done..|]. intros _ _. unfold page_bytes. rewrite Hb', Hb. cbn.
    by rewrite Ep, Es.
  - intros b pdb pdb' Hb Hb' Hp. destruct (Hforth b pdb Hb) as (q & Hq & _ & Ep & Es & _).
    simplify_eq. by rewrite Ep, Es.
  - intros Hco v lo Hv Htr. cbn [s' set_tlb co_tlb] in Htr.
    destruct (fo_up _ _ _ _ _ Hok) as [E|[(tl & m & H) Hw]]; [by rewrite E in Ha|].
    destruct (Ht tl m H) as (tl' & m' & H' & Hsub). rewrite (translate_map H' v Hv) in Htr.
    destruct (Hco v lo Hv) as (b & pdb & Hb & Hvb & Hpb).
    { rewrite (translate_map H v Hv). by eapply lookup_weaken. }
    destruct (Hforth b pdb Hb) as (pdb' & Hb' & Ev & Ep & _). exists b, pdb'. by rewrite Ev, Ep.
Qed.

(** ** The clock *)

Definition hand c : Z := clock_pointer c + lowest_frame c.

Lemma hand_range s l U X fl :
  frames_ok s l U X fl -> lowest_frame (co_cm s) < cm_size (co_cm s) ->
  lowest_frame (co_cm s) <= hand (co_cm s) < cm_size (co_cm s).
Proof.
  intros Hok Hlt. pose proof (fo_clock _ _ _ _ _ Hok). pose proof (fo_clock_lt _ _ _ _ _ Hok Hlt).
  unfold hand. lia.
Qed.

(** The hand of the clock after a step. *)
Definition tick c : Z := (clock_pointer c + 1) mod (cm_size c - lowest_frame c).

Lemma wp_advance_clock {p : Prop} s l U X fl (Q : unit -> core F -> Prop) :
  frames_ok s l U X fl -> lowest_frame (co_cm s) < cm_size (co_cm s) ->
  (let s' := set_cm (set_clock (tick (co_cm s)) (co_cm s)) s in
   frames_ok s' l U X fl -> evolves s s' -> Q tt s') ->
  wpo p advance_clock s Q.
Proof.
  intros Hok Hlt HQ. unfold advance_clock. wp_step. cbv zeta in *.
  rewrite Z.rem_mod_nonneg by (pose proof (fo_clock _ _ _ _ _ Hok); lia). apply HQ.
  - destruct Hok as [R ?????? Hpds ??]. split; try done.
    + destruct R. by split.
    + cbn. apply Z.mod_pos_bound. lia.
    + intros _. cbn. apply Z.mod_pos_bound. lia.
    + intros a pd Ha. destruct (Hpds a pd Ha). by split.
  - by apply (evolves_cm s _ (co_spl s)).
Qed.

(** How far the hand is from a frame. *)
Definition distance c (f : Z) : Z := (f - hand c) mod (cm_size c - lowest_frame c).

Lemma distance_here s l U X fl f :
  frames_ok s l U X fl -> lowest_frame (co_cm s) <= f < cm_size (co_cm s) ->
  distance (co_cm s) f = 0 -> f = hand (co_cm s).
Proof.
  intros Hok Hf Hd. pose proof (hand_range _ _ _ _ _ Hok ltac:(lia)) as Hh.
  unfold distance in Hd. assert (cm_size (co_cm s) - lowest_frame (co_cm s) <> 0) as Hn by lia.
  apply (proj1 (Z.mod_divide _ _ Hn)) in Hd as [q Hq].
  destruct (Z.lt_trichotomy q 0) as [Hlt|[->|Hgt]]; [nia|lia|nia].
Qed.

Lemma distance_tick c f :
  lowest_frame c < cm_size c -> distance c f <> 0 ->
  distance (set_clock (tick c) c) f = distance c f - 1.
Proof.
  intros Hlt Hd. unfold distance, hand, tick in *. cbn. set (N := cm_size c - lowest_frame c) in *.
  rewrite Z.add_comm, Z.sub_add_distr, Zminus_mod_idemp_r.
  replace (f - lowest_frame c - (clock_pointer c + 1)) with (f - (clock_pointer c + lowest_frame c) - 1) by lia.
  set (x := f - (clock_pointer c + lowest_frame c)) in *.
  rewrite <- Zminus_mod_idemp_l. pose proof (Z.mod_pos_bound x N ltac:(lia)). apply Z.mod_small. lia.
Qed.

(** ** Eviction by the clock *)

(** The frame [f] has been emptied and is reserved. *)
Record pushed s s' (f : Z) U X : Prop := {
  pu_user : f ∈ U;
  pu_frames : exists fl', frames_ok s' [] (U ∖ {[f]}) (X ∪ {[f]}) fl';
  pu_kern : kern_ok (co_cm s') [] (U ∖ {[f]}) (X ∪ {[f]});
  pu_hand : hand (co_cm s') = f;
  pu_evolves : evolves s s';
}.

Lemma pushed_trans s s1 s2 f U X : evolves s s1 -> pushed s1 s2 f U X -> pushed s s2 f U X.
Proof. intros He []. split; try done. by etrans. Qed.

Lemma evicted_pushed s s' U X fl :
  frames_ok s [] U X fl -> kern_ok (co_cm s) [] U X -> hand (co_cm s) ∈ U ->
  evicted s s' (hand (co_cm s)) [] U X fl -> pushed s s' (hand (co_cm s)) U X.
Proof.
  intros Hok Hkern Hi [(fl' & Hok' & _) He Hp Hk Hc]. set (f := hand (co_cm s)) in *.
  destruct (fo_user _ _ _ _ _ Hok f Hi) as (Hr & _).
  pose proof (cr_low _ _ (fo_rep _ _ _ _ _ Hok)) as Hlow.
  split; try done.
  - exists fl'. destruct Hok'. split; try done. intros j [Hj|Hj%elem_of_singleton]%elem_of_union; [auto|].
    subst j. rewrite (ev_low _ _ He), (ev_size _ _ He). split_and!; [apply Hr..|set_solver|set_solver|done].
  - intros j Hj. rewrite (ev_low _ _ He), (ev_size _ _ He) in Hj. rewrite Hk by lia.
    destruct (Hkern j Hj) as [Hpos Hz]. split; [done|]. rewrite Hz.
    destruct (decide (j = f)) as [->|]; set_solver.
  - unfold f, hand. by rewrite Hc, (ev_low _ _ He).
Qed.

Lemma evicted_entry s s' f l U X fl :
  evicted s s' f l U X fl -> lowest_frame (co_cm s) <= f < cm_size (co_cm s) ->
  0 <= f /\ exists cd, cdl (core_details (co_cm s')) f = Some cd /\ cd_id cd = f.
Proof.
  intros [(fl' & Hok' & _) He _ _ _] Hf.
  destruct (rep_entry _ _ f (fo_rep _ _ _ _ _ Hok')) as (? & ?); [|split; [lia|done]].
  by rewrite (ev_low _ _ He), (ev_size _ _ He).
Qed.

(** The frame under the hand: if it is not the kernel's, it holds a page or is
    reserved. *)
Lemma hand_cases s U X fl cd :
  frames_ok s [] U X fl -> kern_ok (co_cm s) [] U X -> lowest_frame (co_cm s) < cm_size (co_cm s) ->
  cdl (core_details (co_cm s)) (hand (co_cm s)) = Some cd -> cd_kern cd = 0 ->
  (cd_pd cd = None /\ X <> ∅) \/
  (hand (co_cm s) ∈ U /\ exists a pd, cd_pd cd = Some a /\ co_pds s !! a = Some pd).
Proof.
  intros Hok Hkern Hlt Hcd Hk. pose proof (hand_range _ _ _ _ _ Hok Hlt) as Hh.
  destruct (Hkern _ Hh) as [_ [Hz _]]. rewrite (kern_of_entry _ _ _ Hcd) in Hz.
  destruct (Hz Hk) as [?%elem_of_nil|[HU|HX]]; [done| |].
  - right. split; [done|]. destruct (fo_user _ _ _ _ _ Hok _ HU) as (_ & _ & a & pd & Ha & Hpd & _).
    exists a, pd. unfold pd_of in Ha. by rewrite Hcd in Ha.
  - left. destruct (fo_coming _ _ _ _ _ Hok _ HX) as (_ & _ & _ & Hp). unfold pd_of in Hp.
    rewrite Hcd in Hp. split; [done|]. set_solver.
Qed.

Lemma wp_hand {p : Prop} s l U X fl (Q : cm_detail -> core F -> Prop) :
  frames_ok s l U X fl -> lowest_frame (co_cm s) < cm_size (co_cm s) ->
  (forall cd, cdl (core_details (co_cm s)) (hand (co_cm s)) = Some cd -> cd_id cd = hand (co_cm s) -> Q cd s) ->
  wpo p (rd_cd (hand (co_cm s))) s Q.
Proof.
  intros Hok Hlt HQ. pose proof (hand_range _ _ _ _ _ Hok Hlt) as Hh.
  destruct (rep_entry _ _ _ (fo_rep _ _ _ _ _ Hok) Hh) as (? & cd & Hcd & Hid).
  eapply wp_rd_cd; [lia|done|]. by apply HQ.
Qed.

(** Emptying the frame under the hand. *)
Lemma evict_hand_wp s U X fl spl :
  frames_ok s [] U X fl -> kern_ok (co_cm s) [] U X -> hand (co_cm s) ∈ U ->
  wpo (fl = []) (let* _ := cm_free_core (hand (co_cm s)) spl in
                 let* cd := rd_cd (hand (co_cm s)) in ret (Some (cd_id cd))) s
    (fun r s' => r = Some (hand (co_cm s)) /\ pushed s s' (hand (co_cm s)) U X).
Proof.
  intros Hok Hkern HU. wp_step. eapply wp_mono; [by apply (cm_free_core_wp s [] U X fl)|].
  intros _ s' [Hev _]. destruct (evicted_entry _ _ _ _ _ _ _ Hev) as (H0 & cd & Hcd & Hid).
  { apply (fo_user _ _ _ _ _ Hok _ HU). }
  wp_step. eapply wp_rd_cd; [done..|]. wp_step. rewrite Hid. split; [done|].
  by apply (evicted_pushed s s' U X fl).
Qed.

Lemma push_unused_wp n s U X fl spl :
  frames_ok s [] U X fl -> kern_ok (co_cm s) [] U X -> lowest_frame (co_cm s) < cm_size (co_cm s) ->
  wpo (X <> ∅ \/ fl = []) (push_unused n spl) s (fun r s' =>
    match r with
    | None => frames_ok s' [] U X fl /\ kern_ok (co_cm s') [] U X /\ evolves s s'
    | Some f => pushed s s' f U X
    end).
Proof.
  revert s. induction n as [|n IH]; intros s Hok Hkern Hlt; cbn [push_unused].
  { wp_step. done. }
  assert (forall s1, frames_ok s1 [] U X fl -> kern_ok (co_cm s1) [] U X -> evolves s s1 ->
    wpo (X <> ∅ \/ fl = []) (let* _ := advance_clock in push_unused n spl) s1 (fun r s' =>
      match r with
      | None => frames_ok s' [] U X fl /\ kern_ok (co_cm s') [] U X /\ evolves s s'
      | Some f => pushed s s' f U X
      end)) as Hnext.
  { intros s1 Hok1 Hk1 He1. wp_step.
    eapply wp_advance_clock; [exact Hok1|by rewrite (ev_low _ _ He1), (ev_size _ _ He1)|].
    cbv zeta. intros Hok2 He2. pose proof (transitivity He1 He2) as He12.
    eapply wp_mono; [apply (IH _ Hok2 Hk1); by rewrite (ev_low _ _ He12), (ev_size _ _ He12)|].
    intros [f|] s'; [by apply pushed_trans|]. intros (? & ? & ?). split_and!; [done..|]. by etrans. }
  unfold clock_to_index. wp_step. wp_step. wp_step. wp_step. fold (hand (co_cm s)). wp_step.
  eapply wp_hand; [done..|]. intros cd Hcd Hid. destruct (Z.eqb_spec (cd_kern cd) 0) as [Hk|Hk]; [|by apply Hnext].
  destruct (hand_cases s U X fl cd Hok Hkern Hlt Hcd Hk) as [[Hp HX]|(HU & a & pd & Ha & Hpd)].
  { rewrite Hp. left. exact HX. }
  rewrite Ha. wp_step. eapply wp_rd_pd; [done|].
  destruct (Z.eqb_spec (pd_use pd) 0) as [Hu|Hu].
  - eapply wp_conseq; [by apply (evict_hand_wp s U X fl spl)|by right|]. by intros r s' [-> ?].
  - destruct (frames_up _ _ _ _ _ _ _ Hok Hpd) as [(tl & m & Ht) _].
    destruct (tlb_invalidate_vaddr_ret _ _ _ (pd_vaddr pd) Ht) as (t & Et & Ht').
    { apply (fo_pds _ _ _ _ _ Hok a pd Hpd). }
    wp_step. eapply wp_upd_pd; [done|]. wp_step. apply wp_on_tlb. eapply wp_Ret; [exact Et|].
    destruct (frames_use s [] U X fl a pd 0 t Hok Hpd) as [Hok1 He1]; [|by apply Hnext].
    intros tl1 m1 H1. destruct (Ht' tl1 m1 H1) as (tl' & H'). exists tl', (delete (pd_vaddr pd) m1).
    split; [done|apply delete_subseteq].
Qed.

Lemma push_any_wp n s U X fl spl u :
  frames_ok s [] U X fl -> kern_ok (co_cm s) [] U X -> u ∈ U ->
  distance (co_cm s) u < Z.of_nat n ->
  wpo (X <> ∅ \/ fl = []) (push_any n spl) s (fun r s' => exists f, r = Some f /\ pushed s s' f U X).
Proof.
  revert s. induction n as [|n IH]; intros s Hok Hkern Hu Hd; cbn [push_any].
  { destruct (fo_user _ _ _ _ _ Hok u Hu) as (Hr & _). unfold distance in Hd.
    pose proof (Z.mod_pos_bound (u - hand (co_cm s)) (cm_size (co_cm s) - lowest_frame (co_cm s))). lia. }
  destruct (fo_user _ _ _ _ _ Hok u Hu) as (Hr & _).
  assert (lowest_frame (co_cm s) < cm_size (co_cm s)) as Hlt by lia.
  unfold clock_to_index. wp_step. wp_step. wp_step. wp_step. fold (hand (co_cm s)). wp_step.
  eapply wp_hand; [done..|]. intros cd Hcd Hid. destruct (Z.eqb_spec (cd_kern cd) 0) as [Hk|Hk].
  - destruct (hand_cases s U X fl cd Hok Hkern Hlt Hcd Hk) as [[Hp HX]|(HU & a & pd & Ha & Hpd)].
    { rewrite Hp. left. exact HX. }
    rewrite Ha. eapply wp_conseq; [by apply (evict_hand_wp s U X fl spl)|by right|]. intros r s' [-> ?]. eauto.
  - assert (distance (co_cm s) u <> 0) as Hne.
    { intros E. apply (distance_here _ _ _ _ _ u Hok Hr) in E. destruct (Hkern u Hr) as [_ [_ Hz]].
      apply Hk. rewrite <- (kern_of_entry _ _ _ Hcd), <- E. apply Hz. auto. }
    wp_step. eapply wp_advance_clock; [exact Hok|done|]. cbv zeta. intros Hok2 He2.
    eapply wp_mono; [apply (IH _ Hok2 Hkern Hu)|].
    + rewrite co_cm_set, distance_tick by done. lia.
    + intros r s' (f & -> & Hp). exists f. split; [done|]. by eapply pushed_trans.
Qed.

(** Eviction succeeds when a page is in memory, no frame is reserved, and the
    swap file has room. *)
Lemma cm_push_to_swap_wp s U X fl :
  frames_ok s [] U X fl -> kern_ok (co_cm s) [] U X -> U <> ∅ ->
  wpo (X <> ∅ \/ fl = []) cm_push_to_swap s (fun f s' => pushed s s' f U X).
Proof.
  intros Hok Hkern [u Hu]%set_choose_L. destruct (fo_user _ _ _ _ _ Hok u Hu) as (Hr & _).
  assert (lowest_frame (co_cm s) < cm_size (co_cm s)) as Hlt by lia.
  unfold cm_push_to_swap, splhigh. do 8 wp_step. cbv zeta. wp_step.
  eapply wp_mono; [apply (push_unused_wp _ _ U X fl _ (frames_spl _ _ _ _ _ SPL_HIGH Hok) Hkern Hlt)|].
  pose proof (evolves_spl s SPL_HIGH) as He0.
  intros [f|] s1; cbv beta iota; [intros Hp; wp_step; by eapply pushed_trans|].
  intros (Hok1 & Hk1 & He1). pose proof (transitivity He0 He1) as He. wp_step.
  eapply wp_mono; [apply (push_any_wp _ s1 U X fl _ u Hok1 Hk1 Hu)|].
  - unfold distance. rewrite (ev_low _ _ He), (ev_size _ _ He). autorewrite with core.
    pose proof (Z.mod_pos_bound (u - hand (co_cm s1)) (cm_size (co_cm s) - lowest_frame (co_cm s))). lia.
  - intros r s' (f & -> & Hp). wp_step. by eapply pushed_trans.
Qed.

(** ** A frame for a page *)

(** The frame [f] is nobody's: not free, no user page in it. *)
Record reserved s s' (f : Z) : Prop := {
  rs_low : lowest_frame (co_cm s) <= f;
  rs_size : f < cm_size (co_cm s);
  rs_frames : exists l U X fl, frames_ok s' l U X fl /\ kern_ok (co_cm s') l U X /\
    X ⊆ {[f]} /\ (f ∉ l) /\ (f ∉ U);
  rs_evolves : evolves s s';
}.

Lemma cm_getppage_wp s l U fl :
  frames_ok s l U ∅ fl -> kern_ok (co_cm s) l U ∅ -> l <> [] \/ U <> ∅ ->
  wpo (l = [] /\ fl = []) cm_getppage s (fun f s' => reserved s s' f).
Proof.
  intros Hok Hkern Hsome. unfold cm_getppage, splhigh, splx. do 7 wp_step.
  pose proof (frames_spl _ _ _ _ _ SPL_HIGH Hok) as Hok0.
  destruct l as [|f l].
  - eapply wp_Ret; [unfold free_frame_list_pop, splhigh, bind, get, put, ret; core_cbn;
      rewrite (cr_head _ _ (fo_rep _ _ _ _ _ Hok)); reflexivity|].
    cbv beta iota. wp_step. wp_step. core_cbn.
    destruct Hsome as [?|HU]; [done|].
    eapply wp_conseq; [apply (cm_push_to_swap_wp s U ∅ fl Hok Hkern HU)|intros [?|?]; done|].
    intros f s' [HfU (fl' & Hok') Hk' _ He]. destruct (fo_user _ _ _ _ _ Hok f HfU) as (Hr & _).
    split; [lia..| |done]. eexists [], _, _, fl'. split; [done|]. split; [done|]. set_solver.
  - eapply wp_mono; [apply (free_frame_list_pop_wp (set_spl SPL_HIGH s) f l (fo_rep _ _ _ _ _ Hok))|].
    intros r s1 (-> & c' & -> & R' & T). rewrite co_cm_spl in T. wp_step. wp_step. core_cbn.
    pose proof (cr_in _ _ (fo_rep _ _ _ _ _ Hok) f ltac:(by left)) as Hr.
    pose proof (cr_nodup _ _ (fo_rep _ _ _ _ _ Hok)) as [Hfl _]%NoDup_cons.
    destruct (rep_entry _ _ f R') as (H0 & cd & Hcd & Hid); [by rewrite (ct_low _ _ _ _ T), (ct_size _ _ _ _ T)|].
    wp_step. eapply wp_rd_cd; core_cbn; [lia|done|]. wp_step. rewrite Hid.
    destruct (frames_touch s (f :: l) l U ∅ fl c' f 1 Hok R' T) as [Hok' He'].
    { intros j Hj. destruct (fo_user _ _ _ _ _ Hok j Hj) as (_ & ? & _). set_solver. }
    { set_solver. }
    assert (f ∉ U) as HfU.
    { intros HU. destruct (fo_user _ _ _ _ _ Hok f HU) as (_ & Hn & _). apply Hn. by left. }
    split; [lia..| |done]. exists l, U, ∅, fl. split; [done|]. split; [|set_solver].
    intros j Hj. autorewrite with core in Hj |- *. rewrite (ct_low _ _ _ _ T), (ct_size _ _ _ _ T) in Hj.
    pose proof (cr_low _ _ (fo_rep _ _ _ _ _ Hok)). rewrite (ct_kern _ _ _ _ T) by lia.
    destruct (Hkern j Hj) as [Hp Hz]. case_decide as E; [subst j; split; [lia|]; set_solver|].
    split; [done|]. rewrite Hz, elem_of_cons. tauto.
Qed.

(** With a reserved frame under the hand the next eviction fails. *)
Lemma cm_push_to_swap_panics s U X fl :
  frames_ok s [] U X fl -> kern_ok (co_cm s) [] U X -> hand (co_cm s) ∈ X ->
  cm_push_to_swap s = Stop Panic.
Proof.
  intros Hok Hkern HX. destruct (fo_coming _ _ _ _ _ Hok _ HX) as (Hr & _ & _ & Hpd).
  destruct (rep_entry _ _ _ (fo_rep _ _ _ _ _ Hok) Hr) as (H0 & cd & Hcd & _).
  destruct (Hkern _ Hr) as [_ [_ Hz]]. rewrite (kern_of_entry _ _ _ Hcd) in Hz.
  specialize (Hz ltac:(auto)). unfold pd_of in Hpd. rewrite Hcd in Hpd. cbn in Hpd.
  unfold cm_push_to_swap, splhigh, bind, get, put, ret. core_cbn.
  destruct (Z.to_nat (cm_size (co_cm s) - lowest_frame (co_cm s))) as [|n] eqn:E; [lia|].
  cbn [push_unused]. unfold clock_to_index, gets, rd_cd, bind, get, lift. core_cbn.
  fold (hand (co_cm s)). rewrite (rd_cdl _ _ cd) by (done || lia).
  unfold ret. by rewrite Hz, Hpd.
Qed.

Lemma cm_getppage_empty s U fl X :
  frames_ok s [] U X fl -> cm_getppage s = cm_push_to_swap s.
Proof.
  intros Hok. unfold cm_getppage, free_frame_list_pop, splhigh, splx, bind, get, put, ret, modify.
  core_cbn. by rewrite (cr_head _ _ (fo_rep _ _ _ _ _ Hok)).
Qed.

(** ** A page in its frame *)

Definition installed_cm c (f a : Z) (cd : cm_detail) : cm :=
  set_details (upd (core_details c) f
    (mkCd (cd_id cd) 0 (Some a) (cd_next_free cd) (cd_prev_free cd) 0)) c.

Definition installed_pd (pd : page_detail) (f : Z) : page_detail :=
  mkPd (pd_vaddr pd) f (-1) 1 (pd_dirty pd) (pd_use pd).

(** The page of the swap file that held it is free again. *)
Definition unsaved s fl (pd : page_detail) (w : swapsys F) fl' : Prop :=
  (swap_errors (swapfile w) = errors s -> swap_img (swapfile w) = swap_img (swapfile (co_swap s))) /\
  swap_rep w fl' /\
  fl' = if pd_sfn pd =? -1 then fl else pd_sfn pd :: fl.

Section Install.
Context (s : core F) l U X fl (f a : Z) (pd : page_detail) (cd : cm_detail) (t : tlbsys)
  (w : swapsys F) fl' (pg : page) (spl : Z)
  (Hok : frames_ok s l U X fl) (Hkern : kern_ok (co_cm s) l U X)
  (Hf : lowest_frame (co_cm s) <= f < cm_size (co_cm s)) (Hfl : f ∉ l) (HfU : f ∉ U)
  (Hpd : co_pds s !! a = Some pd) (Hpfn : pd_pfn pd = -1)
  (Hcd : cdl (core_details (co_cm s)) f = Some cd) (Ht : exists tl m, tlb_rep t tl m)
  (Hw : unsaved s fl pd w fl').

Let s' : core F := mkCore (co_ram s) t (installed_cm (co_cm s) f a cd)
  (<[a := installed_pd pd f]> (co_pds s)) w (<[f := pg]> (co_mem s)) spl.

Lemma install_fields j : 0 <= j ->
  kern_of (co_cm s') j = (if decide (f = j) then 0 else kern_of (co_cm s) j) /\
  pd_of (co_cm s') j = (if decide (f = j) then Some a else pd_of (co_cm s) j).
Proof.
  intros Hj. destruct (rep_entry _ _ _ (fo_rep _ _ _ _ _ Hok) Hf) as (Hib & _).
  unfold kern_of, pd_of, s', installed_cm. cbn [co_cm core_details set_details]. rewrite cdl_upd by lia.
  by case_decide.
Qed.

Lemma install_fl b pdb : b <> a -> co_pds s !! b = Some pdb -> pd_sfn pdb ∉ fl -> pd_sfn pdb <> -1 ->
  pd_sfn pdb ∉ fl'.
Proof.
  intros Hne Hb Hn Hm. destruct Hw as (_ & _ & ->). destruct (Z.eqb_spec (pd_sfn pd) (-1)); [done|].
  rewrite not_elem_of_cons. split; [|done]. intros E. apply Hm.
  by apply (fo_swap _ _ _ _ _ Hok b a pdb pd).
Qed.

Lemma install_frames : frames_ok s' l (U ∪ {[f]}) (X ∖ {[f]}) fl'.
Proof.
  pose proof (fo_rep _ _ _ _ _ Hok) as R. pose proof (cr_low _ _ R) as Hlow.
  assert (co_pds s' = <[a := installed_pd pd f]> (co_pds s)) as Hpds by done.
  split; try exact (fo_ram _ _ _ _ _ Hok); try exact (fo_size _ _ _ _ _ Hok);
    try exact (fo_clock _ _ _ _ _ Hok); try exact (fo_clock_lt _ _ _ _ _ Hok); rewrite ?Hpds.
  - apply (rep_upd_other _ _ f cd); try done. cbn. destruct (Z.eqb_spec (cd_free cd) 0) as [->|Hne]; [done|].
    by apply (cr_free _ _ R f cd Hf Hcd) in Hne.
  - intros j [Hj|Hj%elem_of_singleton]%elem_of_union.
    + destruct (fo_user _ _ _ _ _ Hok j Hj) as (Hrj & Hlj & b & pdb & Hb & Hpdb & Hpj).
      split; [done|]. split; [done|]. exists b, pdb.
      assert (f <> j) by (intros ->; done). assert (b <> a) by (intros ->; simplify_eq; lia).
      rewrite (proj2 (install_fields j ltac:(lia))), decide_False by done.
      by rewrite lookup_insert_ne.
    + subst j. split; [done|]. split; [done|]. exists a, (installed_pd pd f).
      rewrite (proj2 (install_fields f ltac:(lia))), decide_True by done. by rewrite lookup_insert_eq.
  - intros j [Hj Hjf]%elem_of_difference. rewrite not_elem_of_singleton in Hjf.
    destruct (fo_coming _ _ _ _ _ Hok j Hj) as (Hrj & Hlj & Huj & Hpj).
    split; [done|]. split; [done|]. split; [set_solver|].
    by rewrite (proj2 (install_fields j ltac:(lia))), decide_False.
  - intros b pdb [[<- <-]|[Hab Hb]]%lookup_insert_Some.
    + destruct (fo_pds _ _ _ _ _ Hok a pd Hpd) as [Hv _ _ _]. split; [done|right|by right|by left].
      cbn [installed_pd pd_pfn pd_sfn]. rewrite (proj2 (install_fields f ltac:(lia))), decide_True by done.
      set_solver.
    + destruct (fo_pds _ _ _ _ _ Hok b pdb Hb) as [Hv Hp Hva Hsf]. split; [done| |done|].
      * destruct Hp as [Hp|(Hpu & Hpo & Hps)]; [by left|right].
        destruct (fo_user _ _ _ _ _ Hok _ Hpu) as (Hr & _).
        assert (f <> pd_pfn pdb) by (intros E; rewrite <- E in Hpu; done).
        rewrite (proj2 (install_fields (pd_pfn pdb) ltac:(lia))), decide_False by done. set_solver.
      * destruct Hsf as [Hsf|[Hsf Hnf]]; [by left|right]. split; [done|].
        apply (install_fl b); try done. lia.
  - intros b b' pdb pdb' Hb Hb' Hne Heq.
    apply lookup_insert_Some in Hb as [[<- <-]|[Hab Hb]];
      apply lookup_insert_Some in Hb' as [[<- <-]|[Hab' Hb']]; [done|done|by rewrite Heq|].
    by apply (fo_swap _ _ _ _ _ Hok b b' pdb pdb').
  - right. split; [done|]. apply Hw.
Qed.

Lemma install_kern : kern_ok (co_cm s') l (U ∪ {[f]}) (X ∖ {[f]}).
Proof.
  intros j Hj. change (lowest_frame (co_cm s) <= j < cm_size (co_cm s)) in Hj.
  pose proof (cr_low _ _ (fo_rep _ _ _ _ _ Hok)).
  rewrite (proj1 (install_fields j ltac:(lia))). destruct (Hkern j Hj) as [Hp Hz].
  case_decide as E; [subst j; split; [lia|]; set_solver|]. split; [done|]. rewrite Hz. set_solver.
Qed.

(** The page has the bytes that were put into the frame, and all the others
    keep theirs. *)
Lemma install_bytes b :
  b = a \/ errors s' = errors s ->
  page_bytes s' b = if decide (b = a) then Some pg else page_bytes s b.
Proof.
  intros He. unfold page_bytes, frame_bytes, s'. cbn [co_pds co_mem co_swap]. case_decide as E.
  - subst b. rewrite lookup_insert_eq. cbn. pose proof (cr_low _ _ (fo_rep _ _ _ _ _ Hok)).
    destruct (Z.eqb_spec f (-1)); [lia|]. by rewrite lookup_insert_eq.
  - rewrite lookup_insert_ne by done. destruct (co_pds s !! b) as [pdb|] eqn:Hb; [cbn|done].
    destruct Hw as (Himg & _), He as [?|He]; [done|]. rewrite (Himg He).
    destruct (Z.eqb_spec (pd_pfn pdb) (-1)); [done|].
    rewrite lookup_insert_ne; [done|].
    destruct (po_pfn _ _ _ _ _ (fo_pds _ _ _ _ _ Hok b pdb Hb)) as [|(Hu & _)]; [done|].
    intros E'. rewrite <- E' in Hu. done.
Qed.
End Install.
End Pages.
