(* ===== verification/VmSpec.v ===== *)
(** * Paging

    A page fault on a page that has been evicted brings it back: the page is
    in a frame with the bytes it had, the processor translates its address to
    that frame, and no other page loses anything ([pt_page_in_wp]). *)

From S2P Require Import Prelude.
From S2P Require Import Ram.
From S2P Require Import Kheap.
From S2P Require Import KheapProof.
From S2P Require Import Copyinout.
From S2P Require Import Uio.
From S2P Require Import Tlb.
From S2P Require Import Coremap.
From S2P Require Import CoremapProof.
From S2P Require Import CoremapInv.
From S2P Require Import CoremapLaws.
From S2P Require Import CoremapPages.
From S2P Require Import Addrspace.

Lemma entry_lo_frame p d : frame_addr p -> Z.land (entry_lo p d) PAGE_FRAME = p.
Proof.
  intros Hp. unfold entry_lo.
  destruct (negb (d =? 0)); rewrite !Z.land_lor_distr_l, (frame_addr_land p Hp);
    change (Z.land TLBLO_VALID PAGE_FRAME) with 0; change (Z.land TLBLO_DIRTY PAGE_FRAME) with 0;
    by rewrite !Z.lor_0_r.
Qed.

Lemma taken_length l l' f num :
  NoDup l -> NoDup l' -> 0 <= num -> (forall j, f <= j < f + num -> j ∈ l) ->
  (forall j, j ∈ l' <-> j ∈ l /\ ~ f <= j < f + num) ->
  Z.of_nat (length l') + num = Z.of_nat (length l).
Proof.
  intros Hnd Hnd' Hnum Hin Hl'. assert (l ≡ₚ l' ++ seqZ f num) as Hp.
  { apply NoDup_Permutation; [done| |].
    - apply NoDup_app. split_and!; [done| |apply NoDup_seqZ]. intros j [_ Hn]%Hl' ?%elem_of_seqZ. lia.
    - intros j. rewrite elem_of_app, Hl', elem_of_seqZ.
      destruct (decide (f <= j < f + num)); split; [auto|intros _; auto|auto|tauto]. }
  rewrite Hp, length_app, length_seqZ. lia.
Qed.

Section Spec.
Context {F : Type} `{!SwapFile F, !SwapFileLaws F}.
Context (vop_read : Z -> uio -> Z * uio).
Implicit Types (c : core F) (s : vmsys F) (l fl : list Z) (U X : gset Z).

Definition with_core c s : vmsys F :=
  mkVm (set_kpages c (vm_heap s)) (vm_as s) (vm_pt s) (t_vmspace s) (last_addrspace s).

Lemma wp_on_core {A} {p : Prop} (m : M (core F) A) s (Q : A -> vmsys F -> Prop) :
  wpo p m (vm_core s) (fun a c => Q a (with_core c s)) -> wpo p (on_core m) s Q.
Proof.
  unfold wpx, on_core, on_kheap, on_pages, vm_core. by destruct (m (kpages (vm_heap s))) as [[]|].
Qed.

(** A stretch of code that works on the core alone. *)
Lemma on_core_bind {A B} (m : M (core F) A) (f : A -> M (vmsys F) B) (g : A -> M (core F) B) s :
  (forall x s, f x s = on_core (g x) s) -> bind (on_core m) f s = on_core (bind m g) s.
Proof.
  intros Hf. unfold bind at 1, on_core at 1, on_kheap at 1, on_pages at 1.
  unfold on_core, on_kheap, on_pages, bind. destruct (m (kpages (vm_heap s))) as [[x c]|]; [|done].
  rewrite Hf. done.
Qed.

Lemma wp_core_eq {A} {p : Prop} (m : M (vmsys F) A) (m' : M (core F) A) s (Q : A -> vmsys F -> Prop) :
  (forall s, m s = on_core m' s) ->
  wpo p m' (vm_core s) (fun a c => Q a (with_core c s)) -> wpo p m s Q.
Proof. intros E H. unfold wpx. rewrite E. by apply wp_on_core. Qed.

Lemma with_core_core c c' s : with_core c (with_core c' s) = with_core c s.
Proof. done. Qed.
Lemma vm_core_with c s : vm_core (with_core c s) = c.
Proof. done. Qed.

(** ** Reading a page of the swap file *)

Lemma swap_free_page_wp {p : Prop} c fl n :
  swap_rep (co_swap c) fl -> 0 <= n < SWAP_PAGES -> n ∉ fl ->
  wpo p (swap_free_page n) c (fun _ c' => exists w, c' = set_swap w c /\ swap_rep w (n :: fl) /\
    swapfile w = swapfile (co_swap c)).
Proof.
  intros W Hn Hnf. pose proof (sr_len _ _ W) as Hlen.
  destruct (lookup_lt_is_Some_2 (pageList (co_swap c)) (Z.to_nat n)) as [nd Hnd]; [lia|].
  unfold swap_free_page. wp_step. wp_step. cbv zeta. wp_step.
  eapply wp_lift_Ret; [by apply rd_lookup; [lia|]|]. wp_step.
  eapply wp_lift_Ret; [apply wr_in; lia|]. wp_step. eexists. split; [reflexivity|]. split; [|done].
  split; cbn [pageList freePages].
  - by rewrite length_insert.
  - intros i x Hi Hx. destruct (decide (i = n)) as [->|].
    + rewrite list_lookup_insert_eq in Hx by lia. simplify_eq. cbn. by apply (sr_index _ _ W n nd).
    + rewrite list_lookup_insert_ne in Hx by lia. by apply (sr_index _ _ W).
  - split_and!; [done|lia|]. eexists. split; [apply list_lookup_insert_eq; lia|].
    apply swap_chain_insert; [lia|done|apply W].
  - apply NoDup_cons. split; [done|apply W].
  - intros i [->|Hi]%elem_of_cons; [done|by apply (sr_in _ _ W)].
Qed.

Lemma swap_read_wp {p : Prop} c fl f n :
  swap_rep (co_swap c) fl -> 0 <= n < SWAP_PAGES -> n ∉ fl ->
  wpo p (swap_read f n) c (fun _ c' => exists w bs,
    c' = set_mem (<[f := bs]> (co_mem c)) (set_swap w c) /\ swap_rep w (n :: fl) /\
    (errors c <= swap_errors (swapfile w))%nat /\
    (swap_errors (swapfile w) = errors c ->
     swap_img (swapfile w) = swap_img (swapfile (co_swap c)) /\
     forall pg, swap_img (swapfile (co_swap c)) !! s32 (n * PAGE_SIZE) = Some pg -> bs = pg)).
Proof.
  intros W Hn Hnf. unfold swap_read. wp_step. wp_step. cbv zeta.
  pose proof (swap_read_law (s32 (n * PAGE_SIZE)) (frame_bytes c f) (swapfile (co_swap c))) as L.
  change (swapfile (co_swap (set_spl SPL_HIGH c))) with (swapfile (co_swap c)).
  destruct (swap_vop_read (s32 (n * PAGE_SIZE)) (frame_bytes c f) (swapfile (co_swap c))) as [bs file']. destruct L as [Hle Hrd].
  wp_step. wp_step. wp_step.
  eapply wp_mono; [apply (swap_free_page_wp _ fl n); [|done..]; by destruct W|].
  intros _ c1 (w & -> & Hw & Hsf). unfold splhigh, splx. wp_steps.
  exists w, bs. split; [by destruct c|]. split; [done|]. rewrite Hsf. done.
Qed.

(** ** The page is there *)

(** The state after a fault: the page described at [a] is in frame [f], the
    processor finds it at [v], and, unless a transfer of the swap file has
    failed, its bytes are [pg] and the pages that could not be read again from
    a file have the bytes they had. *)
Record resident c c' (a f v wr : Z) (pg : page) : Prop := {
  re_frames : exists l U fl, frames_ok c' l U ∅ fl /\ kern_ok (co_cm c') l U ∅;
  re_coherent : coherent c';
  re_translate : translate (co_tlb c') v = Some (entry_lo (f * PAGE_SIZE) wr);
  re_page : exists pd, co_pds c' !! a = Some pd /\ pd_pfn pd = f /\ pd_vaddr pd = v;
  re_bytes : errors c' = errors c -> page_bytes c' a = Some pg;
  re_others b pd : errors c' = errors c -> b <> a -> co_pds c !! b = Some pd -> pd_dirty pd <> 0 ->
    page_bytes c' b = page_bytes c b;
}.

Lemma frame_addr_of c l U X fl f :
  frames_ok c l U X fl -> lowest_frame (co_cm c) <= f < cm_size (co_cm c) ->
  u32 (f * PAGE_SIZE) = f * PAGE_SIZE /\ frame_addr (f * PAGE_SIZE) /\ f * PAGE_SIZE / PAGE_SIZE = f.
Proof.
  intros Hok Hf. pose proof (fo_size _ _ _ _ _ Hok). pose proof (cr_low _ _ (fo_rep _ _ _ _ _ Hok)).
  unfold PAGE_SIZE, RAM_LIMIT in *. split; [apply u32_small; lia|]. split; [|by apply Z.div_mul].
  split; [lia|]. by apply Z.mod_mul.
Qed.

(** A page that the translation buffer is told about. *)
Lemma coherent_add c c' tl m tl' v lo a pd :
  coherent c -> tlb_rep (co_tlb c) tl m -> tlb_rep (co_tlb c') tl' (<[v := lo]> m) ->
  (forall b pdb, b <> a -> co_pds c !! b = Some pdb -> co_pds c' !! b = Some pdb) ->
  (forall pda, co_pds c !! a = Some pda -> pd_vaddr pda = v) ->
  co_pds c' !! a = Some pd -> pd_vaddr pd = v -> pd_pfn pd = Z.land lo PAGE_FRAME / PAGE_SIZE ->
  coherent c'.
Proof.
  intros Hco Ht Ht' Hkeep Hva Ha Hv Hp w lo' Hw Htr. rewrite (translate_map Ht' w Hw) in Htr.
  apply lookup_insert_Some in Htr as [[<- <-]|[Hne Htr]]; [by exists a, pd|].
  destruct (Hco w lo' Hw) as (b & pdb & Hb & Hvb & Hpb); [by rewrite (translate_map Ht w Hw)|].
  exists b, pdb. split; [|done]. apply Hkeep; [|done]. intros ->. apply Hne. rewrite <- Hvb. symmetry. by apply Hva.
Qed.

(** Room for one more translation. *)
Definition tlb_room c (v : Z) : Prop :=
  exists tl m, tlb_rep (co_tlb c) tl m /\ m !! v = None /\ (size m < 63)%nat.

Lemma tlb_room_evolves c c' v : evolves c c' -> tlb_room c v -> tlb_room c' v.
Proof.
  intros He (tl & m & Ht & Hv & Hs). destruct (ev_tlb _ _ He tl m Ht) as (tl' & m' & Ht' & Hsub).
  exists tl', m'. split; [done|]. split.
  - destruct (m' !! v) as [x|] eqn:E; [|done]. by rewrite (lookup_weaken _ _ _ _ E Hsub) in Hv.
  - pose proof (map_subseteq_size _ _ Hsub). lia.
Qed.

Lemma tlb_add_room c v p dirty st :
  tlb_room c v -> user_page v -> frame_addr p ->
  exists tl m tl' t, tlb_rep (co_tlb c) tl m /\ tlb_add_entry v p dirty st (co_tlb c) = Ret (tt, t) /\
    tlb_rep t tl' (<[v := entry_lo p dirty]> m).
Proof.
  intros (tl & m & Ht & Hv & Hs) Hu Hp. pose proof (tr_size _ _ _ Ht).
  destruct tl as [|i [|j tl]]; [simpl in *; lia..|].
  destruct (proj1 (wp_elim _ _ _) (tlb_add_entry_wp _ i (j :: tl) m v p dirty st Ht ltac:(done) Hu Hp Hv))
    as ([] & t & E & H').
  by exists (i :: j :: tl), m, (j :: tl), t.
Qed.

(** A frame that is reserved, with the page in it, is a frame with a user page. *)
Lemma resident_install c c1 f a pd cd t w fl' bs pg spl v wr l U X fl tl m tl' :
  frames_ok c1 l U X fl -> kern_ok (co_cm c1) l U X -> X ⊆ {[f]} -> (f ∉ l) -> (f ∉ U) ->
  lowest_frame (co_cm c1) <= f < cm_size (co_cm c1) -> co_pds c1 !! a = Some pd ->
  pd_pfn pd = -1 -> pd_vaddr pd = v -> user_page v -> cdl (core_details (co_cm c1)) f = Some cd ->
  unsaved c1 fl pd w fl' -> coherent c1 -> tlb_rep (co_tlb c1) tl m ->
  tlb_rep t tl' (<[v := entry_lo (f * PAGE_SIZE) wr]> m) ->
  (errors c <= errors c1 <= swap_errors (swapfile w))%nat ->
  (swap_errors (swapfile w) = errors c -> bs = pg) ->
  (errors c1 = errors c -> forall b pdb, b <> a -> co_pds c !! b = Some pdb -> pd_dirty pdb <> 0 ->
     page_bytes c1 b = page_bytes c b) ->
  resident c (mkCore (co_ram c1) t (installed_cm (co_cm c1) f a cd)
    (<[a := installed_pd pd f]> (co_pds c1)) w (<[f := bs]> (co_mem c1)) spl) a f v wr pg.
Proof.
  intros Hok Hkern HX Hfl HfU Hf Hpd Hpfn Hv Hu Hcd Hw Hco Ht Ht' Hle Hbs Hb.
  destruct (frame_addr_of _ _ _ _ _ _ Hok Hf) as (_ & Hfa & Hdiv).
  assert (X ∖ {[f]} = ∅) as HX0 by set_solver.
  set (c' := mkCore _ _ _ _ _ _ _).
  assert (frames_ok c' l (U ∪ {[f]}) (X ∖ {[f]}) fl') as Hok' by (eapply install_frames; eauto).
  assert (kern_ok (co_cm c') l (U ∪ {[f]}) (X ∖ {[f]})) as Hk' by (eapply install_kern; eauto).
  assert (forall b, b = a \/ errors c' = errors c1 ->
    page_bytes c' b = if decide (b = a) then Some bs else page_bytes c1 b) as Hby
    by (intros b; eapply install_bytes; eauto).
  change (errors c') with (swap_errors (swapfile w)) in Hby.
  rewrite HX0 in Hok', Hk'. split.
  - eauto.
  - eapply (coherent_add c1 _ tl m tl' v _ a (installed_pd pd f) Hco Ht); [exact Ht'|..]; cbn [c' co_pds].
    + intros b pdb Hne Hpb. by rewrite lookup_insert_ne.
    + intros pda ?. by simplify_eq.
    + apply lookup_insert_eq.
    + done.
    + by rewrite (entry_lo_frame _ _ Hfa), Hdiv.
  - cbn [c' co_tlb]. by rewrite (translate_map Ht' v Hu), lookup_insert_eq.
  - exists (installed_pd pd f). cbn [c' co_pds]. by rewrite lookup_insert_eq.
  - intros He. rewrite Hby, decide_True by auto. by rewrite (Hbs He).
  - change (errors c') with (swap_errors (swapfile w)). intros b pdb He Hne Hpb Hd.
    rewrite Hby, decide_False by (done || (right; lia)). apply (Hb ltac:(lia) b pdb); done.
Qed.

(** ** A fault *)

Lemma frames_tlb c l U X fl t :
  frames_ok c l U X fl -> (exists tl m, tlb_rep t tl m) -> frames_ok (set_tlb t c) l U X fl.
Proof. intros [] Ht. split; try done. destruct fo_up as [?|[_ ?]]; [by left|by right]. Qed.

(** What a fault finds: memory in order, the page described in the table of
    its segment, and room in the translation buffer. *)
Record faulting s sg (v a : Z) (pd : page_detail) l U fl : Prop := {
  fa_frames : frames_ok (vm_core s) l U ∅ fl;
  fa_kern : kern_ok (co_cm (vm_core s)) l U ∅;
  fa_coherent : coherent (vm_core s);
  fa_room : tlb_room (vm_core s) v;
  fa_user : user_page v;
  fa_table : exists pt, vm_pt s !! sg_pt sg = Some pt /\
    a = pd_addr pt (u32 (v - sg_vbase sg) / PAGE_SIZE);
  fa_pd : co_pds (vm_core s) !! a = Some pd;
  fa_vaddr : pd_vaddr pd = v;
}.

(** The three ends of [pt_page_in] that work on the core alone. *)
Definition page_present (a v pfn wr spl : Z) : M (core F) unit :=
  let* _ := upd_pd (Some a) (pd_set_use 1) in
  let* _ := on_tlb (tlb_add_entry v (u32 (pfn * PAGE_SIZE)) wr 1) in
  splx spl.

Definition page_swapped (a v f wr : Z) : M (core F) unit :=
  let* _ := upd_pd (Some a) (pd_set_pfn f) in
  let* pd := rd_pd (Some a) in
  let* _ := swap_read (pd_pfn pd) (pd_sfn pd) in
  let* _ := upd_pd (Some a) (pd_set_sfn (-1)) in
  let* _ := on_tlb (tlb_add_entry v (u32 (pd_pfn pd * PAGE_SIZE)) wr 1) in
  cm_finish_paging (pd_pfn pd) (Some a).

Definition page_fetch (a v wr : Z) : M (core F) unit :=
  let* _ := upd_pd (Some a) (pd_set_use 1) in
  let* f := cm_getppage in
  page_swapped a v f wr.

(** The page is in memory: it is marked as used and its translation loaded. *)
Lemma page_present_wp {p : Prop} c l U fl v a pd wr pg spl :
  frames_ok c l U ∅ fl -> kern_ok (co_cm c) l U ∅ -> coherent c -> tlb_room c v -> user_page v ->
  co_pds c !! a = Some pd -> pd_vaddr pd = v -> pd_pfn pd <> -1 -> page_bytes c a = Some pg ->
  wpo p (page_present a v (pd_pfn pd) wr spl) c (fun _ c' => resident c c' a (pd_pfn pd) v wr pg).
Proof.
  intros Hok Hkern Hco Hroom Hu Hpd Hv Hpfn Hpg.
  destruct (po_pfn _ _ _ _ _ (fo_pds _ _ _ _ _ Hok a pd Hpd)) as [|(HfU & Hback & _)]; [done|].
  destruct (fo_user _ _ _ _ _ Hok _ HfU) as (Hr & _). unfold page_present.
  destruct (frame_addr_of _ _ _ _ _ _ Hok Hr) as (-> & Hfa & Hdiv).
  destruct (tlb_add_room c v (pd_pfn pd * PAGE_SIZE) wr 1 Hroom Hu Hfa) as (tl & m & tl' & t & Ht & Et & Ht').
  destruct (frames_use c l U ∅ fl a pd 1 (co_tlb c) Hok Hpd) as [Hok1 He1]; [by eauto|].
  wp_step. eapply wp_upd_pd; [done|]. wp_step. apply wp_on_tlb. eapply wp_Ret; [exact Et|].
  unfold splx. wp_step. set (c' := set_spl _ _).
  assert (forall b, page_bytes c' b = page_bytes c b) as Hby.
  { intros b. unfold page_bytes, frame_bytes. cbn. destruct (decide (a = b)) as [<-|Hne].
    - by rewrite lookup_insert_eq, Hpd.
    - by rewrite lookup_insert_ne. }
  split.
  - exists l, U, fl. split; [|done]. apply frames_spl. apply (frames_tlb _ _ _ _ _ t) in Hok1; [done|by eauto].
  - eapply (coherent_add c c' tl m tl' v _ a (pd_set_use 1 pd)); [done..| | |apply lookup_insert_eq|done|].
    + intros b pdb Hne Hb. cbn. by rewrite lookup_insert_ne.
    + intros pda ?. by simplify_eq.
    + by rewrite (entry_lo_frame _ _ Hfa), Hdiv.
  - cbn. by rewrite (translate_map Ht' v Hu), lookup_insert_eq.
  - eexists. split; [apply lookup_insert_eq|done].
  - by rewrite Hby.
  - done.
Qed.

(** The page is in the swap file. *)
Lemma page_swapped_wp {p : Prop} c c1 l U X fl v a pd f wr pg :
  frames_ok c1 l U X fl -> kern_ok (co_cm c1) l U X -> X ⊆ {[f]} -> (f ∉ l) -> (f ∉ U) ->
  lowest_frame (co_cm c1) <= f < cm_size (co_cm c1) ->
  coherent c1 -> tlb_room c1 v -> user_page v ->
  co_pds c1 !! a = Some pd -> pd_vaddr pd = v -> pd_pfn pd = -1 -> pd_sfn pd <> -1 ->
  (errors c <= errors c1)%nat -> (errors c1 = errors c -> page_bytes c1 a = Some pg) ->
  (errors c1 = errors c -> forall b pdb, b <> a -> co_pds c !! b = Some pdb -> pd_dirty pdb <> 0 ->
     page_bytes c1 b = page_bytes c b) ->
  wpo p (page_swapped a v f wr) c1 (fun _ c' => resident c c' a f v wr pg).
Proof.
  intros Hok Hkern HX Hfl HfU Hf Hco Hroom Hu Hpd Hv Hpfn Hsfn Hle Hpg Hb.
  destruct (frame_addr_of _ _ _ _ _ _ Hok Hf) as (Hu32 & Hfa & _).
  destruct (tlb_add_room c1 v (f * PAGE_SIZE) wr 1 Hroom Hu Hfa) as (tl & m & tl' & t & Ht & Et & Ht').
  destruct (frames_up _ _ _ _ _ _ _ Hok Hpd) as [_ Hsw].
  destruct (rep_entry _ _ _ (fo_rep _ _ _ _ _ Hok) Hf) as (Hib & cd & Hcd & _).
  unfold page_bytes in Hpg. rewrite Hpd in Hpg. cbn in Hpg. rewrite Hpfn in Hpg. cbn in Hpg.
  rewrite (proj2 (Z.eqb_neq _ _) Hsfn) in Hpg.
  destruct (po_sfn _ _ _ _ _ (fo_pds _ _ _ _ _ Hok a pd Hpd)) as [|[Hsr Hsf]]; [done|].
  unfold page_swapped. wp_step. eapply wp_upd_pd; [done|]. wp_step. eapply wp_rd_pd; [apply lookup_insert_eq|].
  cbn [pd_set_pfn pd_pfn pd_sfn]. wp_step.
  eapply wp_mono; [by apply (swap_read_wp _ fl f (pd_sfn pd))|].
  intros _ c2 (w & bs & -> & Hw & Hle2 & Himg). unfold errors in Hle2, Himg. cbn [set_pds co_swap] in Hle2, Himg.
  fold (errors c1) in Hle2, Himg. wp_step. eapply wp_upd_pd; [apply lookup_insert_eq|].
  cbn [set_pds set_mem set_swap co_pds]. rewrite insert_insert_eq, Hu32. wp_step. apply wp_on_tlb.
  eapply wp_Ret; [exact Et|]. unfold cm_finish_paging.
  wp_step. eapply wp_upd_cd; [lia|exact Hcd|]. wp_step. eapply wp_upd_pd; [apply lookup_insert_eq|].
  wp_step. eapply wp_upd_pd; [apply lookup_insert_eq|]. wp_step.
  eapply wp_upd_cd; [lia|cbn; by cdl_simp|]. cbv beta. eapply wp_upd_cd; [lia|cbn; by cdl_simp|].
  unfold set_ds. cbn [set_cm set_pds set_tlb set_mem set_swap co_ram co_tlb co_cm co_pds co_swap co_mem co_spl].
  rewrite !details_set, !set_details_details, !upd_upd, !insert_insert_eq.
  eapply (resident_install c c1 f a pd cd t w (pd_sfn pd :: fl) bs pg (co_spl c1) v wr l U X fl tl m tl');
    try done.
  - split; [intros He; by apply Himg|]. split; [done|]. by destruct (Z.eqb_spec (pd_sfn pd) (-1)).
  - intros He. apply Himg; [lia|]. apply Hpg. lia.
Qed.

Lemma swapped_sfn c a pd pg :
  co_pds c !! a = Some pd -> pd_pfn pd = -1 -> page_bytes c a = Some pg -> pd_sfn pd <> -1.
Proof.
  intros Hpd Hpfn Hpg. unfold page_bytes in Hpg. rewrite Hpd in Hpg. cbn in Hpg. rewrite Hpfn in Hpg.
  cbn in Hpg. by destruct (Z.eqb_spec (pd_sfn pd) (-1)).
Qed.

Lemma page_fetch_wp c l U fl v a pd wr pg :
  frames_ok c l U ∅ fl -> kern_ok (co_cm c) l U ∅ -> coherent c -> tlb_room c v -> user_page v ->
  co_pds c !! a = Some pd -> pd_vaddr pd = v -> pd_pfn pd = -1 -> pd_dirty pd <> 0 ->
  page_bytes c a = Some pg -> l <> [] \/ U <> ∅ ->
  wpo (l = [] /\ fl = []) (page_fetch a v wr) c (fun _ c' => exists f, resident c c' a f v wr pg).
Proof.
  intros Hok Hkern Hco Hroom Hu Hpd Hv Hpfn Hd Hpg Hsome. unfold page_fetch.
  wp_step. eapply wp_upd_pd; [exact Hpd|].
  destruct (frames_use c l U ∅ fl a pd 1 (co_tlb c) Hok Hpd) as [Hok1 He1]; [by eauto|].
  set (c1 := set_tlb _ _) in *. change (set_pds _ c) with c1.
  wp_step. eapply wp_mono; [by apply (cm_getppage_wp c1 l U fl Hok1)|].
  intros f c2 [Hlf Hfs (l2 & U2 & X2 & fl2 & Hok2 & Hk2 & HX2 & Hfl2 & HfU2) He2].
  pose proof (transitivity He1 He2) as He. destruct (ev_pd _ _ He a pd Hpd) as (pd2 & Hpd2 & Hv2 & _ & Hb2).
  destruct (ev_out _ _ He a pd pd2 Hpd Hpd2 Hpfn) as [Hp2 Hs2].
  pose proof (swapped_sfn _ _ _ _ Hpd Hpfn Hpg) as Hsfn.
  eapply wp_mono; [apply (page_swapped_wp c c2 l2 U2 X2 fl2 v a pd2 f wr pg); try done|].
  - by rewrite (ev_low _ _ He2), (ev_size _ _ He2).
  - by apply (ev_coherent _ _ He).
  - by apply (tlb_room_evolves _ _ _ He).
  - by rewrite Hv2.
  - by rewrite Hs2.
  - apply (ev_errors _ _ He).
  - intros Herr. by rewrite Hb2.
  - intros Herr b pdb _ Hb Hdb. destruct (ev_pd _ _ He b pdb Hb) as (_ & _ & _ & _ & E). by apply E.
  - intros [] c' R. by exists f.
Qed.

(** C13: a page fault on a page that is in memory or in the swap file brings it
    back.  The page has been written to ([pd_dirty]), its bytes are known, the
    translation buffer holds fewer than 63 translations and none for the page,
    and there is a frame to be had, free or of a user page.  Afterwards the
    page is in a frame, the processor translates its address to that frame,
    memory is in order, and the translation buffer holds no stale entry; if no
    transfer of the swap file has failed on the way, the page has the bytes it
    had, and so has every other page that could not be read again from a file.
    It can only fail, by a panic, when no frame is free and the swap file is
    full. *)
Theorem pt_page_in_restores s junk v sg a pd l U fl pg :
  faulting s sg v a pd l U fl -> pd_dirty pd <> 0 -> page_bytes (vm_core s) a = Some pg ->
  l <> [] \/ U <> ∅ ->
  wpo (l = [] /\ fl = []) (pt_page_in vop_read junk v sg) s (fun _ s' =>
    exists f, resident (vm_core s) (vm_core s') a f v (sg_writeable sg) pg).
Proof.
  intros [Hok Hkern Hco Hroom Hu (pt & Hpt & Ha) Hpd Hv] Hd Hpg Hsome.
  unfold pt_page_in. wp_step. apply wp_on_core. unfold splhigh. wp_steps.
  unfold rd_pt. wp_step. wp_step. cbn [with_core vm_pt]. rewrite Hpt. wp_step. rewrite <- Ha. wp_step. apply wp_on_core.
  rewrite vm_core_with. eapply wp_rd_pd; [exact Hpd|].
  pose proof (frames_spl _ _ _ _ _ SPL_HIGH Hok) as Hok0.
  destruct (decide (pd_pfn pd = -1)) as [Hpfn|Hpfn].
  - rewrite Hpfn, andb_false_r. pose proof (swapped_sfn _ _ _ _ Hpd Hpfn Hpg) as Hsfn.
    destruct (Z.eqb_spec (pd_sfn pd) (-1)); [done|]. cbn [negb].
    wp_step. apply wp_on_core. unfold splx. wp_step.
    rewrite with_core_core, vm_core_with, set_spl_spl, core_spl_id.
    eapply (wp_core_eq _ (page_fetch a v (sg_writeable sg))).
    { intros s2. repeat (apply on_core_bind; intros ? ?). done. }
    rewrite vm_core_with. eapply wp_mono; [by apply (page_fetch_wp _ l U fl v a pd _ pg)|].
    intros [] c' [f R]. by exists f.
  - destruct (po_valid _ _ _ _ _ (fo_pds _ _ _ _ _ Hok a pd Hpd)) as [|Hva]; [done|].
    destruct (Z.eqb_spec (pd_valid pd) 0), (Z.eqb_spec (pd_pfn pd) (-1)); [done..|]. cbn [negb andb].
    eapply (wp_core_eq _ (page_present a v (pd_pfn pd) (sg_writeable sg) (co_spl (vm_core s)))).
    { intros s2. repeat (apply on_core_bind; intros ? ?). done. }
    eapply wp_mono; [by apply (page_present_wp _ l U fl v a pd (sg_writeable sg) pg)|].
    intros [] c' R. exists (pd_pfn pd). by destruct R.
Qed.

(** When no frame is free, two frames cannot be had in a row.  The first
    [cm_getppage] evicts a page and leaves the hand of the clock on its frame,
    which belongs to no page until [cm_finish_paging]; a second [cm_getppage]
    before that, such as the one for the fault that [copyin] takes in
    [as_copy_segments], finds that frame and panics. *)
Theorem second_frame_panics c U fl :
  frames_ok c [] U ∅ fl -> kern_ok (co_cm c) [] U ∅ -> U <> ∅ -> fl <> [] ->
  wp cm_getppage c (fun f c' => cm_getppage c' = Stop Panic).
Proof.
  intros Hok Hkern HU Hfl. unfold wpx at 1. rewrite (cm_getppage_empty c U fl ∅ Hok).
  eapply (wp_conseq (A := Z) _ cm_push_to_swap c); [by apply (cm_push_to_swap_wp c U ∅ fl)|naive_solver|].
  intros f c' [_ (fl' & Hok') Hk' Hh _]. rewrite (cm_getppage_empty c' _ fl' _ Hok').
  apply (cm_push_to_swap_panics c' _ _ fl' Hok' Hk'). rewrite Hh. set_solver.
Qed.

(** ** The kernel's runs *)

(** A run of several pages that is given back is lost but for its first
    page.  [cm_request_kframes] stores the length of the run in the [kern]
    field of the first frame and then calls [free_frame_list_remove], which
    sets the field to 1, so that [free_kpages] releases one frame.  With only
    free frames to take, a request and a release of [num] pages lower the
    number of free frames by [num - 1]. *)
Theorem kernel_run_leaks c l fl num :
  frames_ok c l ∅ ∅ fl -> kern_ok (co_cm c) l ∅ ∅ -> 0 < num -> ~ no_run (co_cm c) num ->
  num <= Z.of_nat (length fl) ->
  wp (let* p := vm_alloc_kpages num in vm_free_kpages p) c (fun _ c' => exists l' fl',
    frames_ok c' l' ∅ ∅ fl' /\ Z.of_nat (length l') + (num - 1) = Z.of_nat (length l)).
Proof.
  clear vop_read. intros Hok Hkern Hnum Hrun Hfl. wp_step. unfold vm_alloc_kpages.
  eapply wp_conseq; [by apply (cm_request_kframes_wp c l ∅ fl num)|intros [?|?]; [done|lia]|].
  intros p c1 (f & -> & [Hlf Hfs Hun (l1 & U1 & fl1 & Hok1 & Hk1 & Hl1 & HU1) He1 Hke] & _).
  assert (U1 = ∅) as -> by set_solver. pose proof (cr_low _ _ (fo_rep _ _ _ _ _ Hok)) as Hlow.
  assert (forall j, f <= j < f + num -> j ∈ l) as Hin.
  { intros j Hj. destruct (Hkern j) as [_ [Hz _]]; [lia|]. specialize (Hz (Hun j Hj)). set_solver. }
  assert (forall j, f <= j < f + num -> kern_of (co_cm c1) j = 1) as Hone.
  { intros j Hj. rewrite Hke by lia. rewrite !decide_True by auto. done. }
  unfold wpx. rewrite vm_free_kpages_eq; [|lia|].
  2:{ pose proof (fo_size _ _ _ _ _ Hok). unfold PAGE_SIZE, RAM_LIMIT in *. lia. }
  eapply (wp_mono (p := False) (cm_release_kframes f) c1).
  - apply (cm_release_kframes_wp c1 l1 ∅ fl1 f num Hok1 Hk1); rewrite ?(ev_low _ _ He1), ?(ev_size _ _ He1);
      try done; [rewrite Hone; lia|]. intros j Hj. rewrite (Hone j Hj). done.
  - rewrite Hone by lia. intros _ c' (Hok' & _). exists (l1 ++ seqZ f 1), fl1. split; [done|].
    rewrite length_app, length_seqZ.
    pose proof (taken_length l l1 f num (cr_nodup _ _ (fo_rep _ _ _ _ _ Hok))
      (cr_nodup _ _ (fo_rep _ _ _ _ _ Hok1)) ltac:(lia) Hin Hl1). lia.
Qed.

(** ** Faults outside of the segments *)

Lemma get_segment_none sgs v :
  (forall sg, sg ∈ sgs -> sg_active sg = 1 -> ~ (sg_vbase sg <= v < u32 (sg_vbase sg + sg_size sg * PAGE_SIZE))) ->
  get_segment sgs v = None.
Proof.
  induction sgs as [|sg sgs IH]; intros Hn; [done|]. simpl.
  destruct (Z.eqb_spec (sg_active sg) 1) as [Ha|]; cbn [andb]; [|apply IH; intros; apply Hn; [by right|done]].
  specialize (Hn sg ltac:(by left) Ha) as Hsg.
  destruct (_ >=? _) eqn:?, (_ <? _) eqn:?; cbn [andb]; try lia;
    apply IH; intros; (apply Hn; [by right|done]).
Qed.

Lemma valid_addr_true sgs sg v :
  sg ∈ sgs -> sg_active sg <> 0 -> sg_vbase sg <= v < u32 (sg_vbase sg + 4 * (PAGE_SIZE * sg_size sg)) ->
  valid_addr sgs v = true.
Proof.
  intros Hin Ha Hv. induction sgs as [|x sgs IH]; [by apply elem_of_nil in Hin|]. simpl.
  destruct (negb _ && _ && _) eqn:E; [done|]. apply elem_of_cons in Hin as [<-|Hin]; [|by apply IH].
  destruct (Z.eqb_spec (sg_active sg) 0); [done|]. cbn [negb andb] in E.
  destruct (_ >=? _) eqn:?, (_ <? _) eqn:?; cbn [andb] in E; try lia; done.
Qed.

(** A user program can take the kernel down.  [as_valid_read_addr] and
    [as_valid_write_addr] add to pointers to four-byte words, so they accept
    addresses up to four times the length of a segment; [as_get_segment] then
    finds no segment and the assertion of [vm_fault] fails.  So it is for a
    read or a write of any page behind the end of an active segment, within
    four times its length, that no segment holds. *)
Theorem vm_fault_beyond_segment_panics s junk faulttype v a sg :
  faulttype = VM_FAULT_READ \/ faulttype = VM_FAULT_WRITE ->
  user_page v -> t_vmspace s <> 0 -> vm_as s !! t_vmspace s = Some a ->
  sg ∈ as_segments a -> sg_active sg = 1 ->
  sg_vbase sg + sg_size sg * PAGE_SIZE <= v < sg_vbase sg + 4 * (PAGE_SIZE * sg_size sg) ->
  0 <= sg_vbase sg -> 0 <= sg_size sg -> sg_vbase sg + 4 * (PAGE_SIZE * sg_size sg) < 2 ^ 32 ->
  (forall sg', sg' ∈ as_segments a -> sg_active sg' = 1 ->
     ~ (sg_vbase sg' <= v < u32 (sg_vbase sg' + sg_size sg' * PAGE_SIZE))) ->
  vm_fault vop_read junk faulttype v s = Stop Panic.
Proof.
  intros Hty Hu Hcur Ha Hin Hact Hv Hb Hsz Hw Hno.
  assert (Z.land v PAGE_FRAME = v) as Hland by (by apply frame_addr_land, user_page_frame).
  assert (valid_addr (as_segments a) v = true) as Hval.
  { apply (valid_addr_true _ sg); [done|lia|]. rewrite u32_small by lia. unfold PAGE_SIZE in *. lia. }
  pose proof (get_segment_none _ _ Hno) as Hseg. destruct Hu as [Hu _].
  unfold vm_fault, on_core, on_kheap, on_pages, splhigh, bind, get, put, ret, rd_as.
  cbn [t_vmspace vm_as]. rewrite Hland. destruct (Z.eqb_spec (t_vmspace s) 0); [done|].
  destruct Hty as [-> | ->]; cbn [Z.eqb Pos.eqb VM_FAULT_READ VM_FAULT_WRITE VM_FAULT_READONLY];
    unfold bind, get, ret; cbn [vm_as]; rewrite Ha;
    unfold as_valid_read_addr, as_valid_write_addr, as_get_segment; rewrite Hval;
    (change USERTOP with (2 ^ 31); destruct (Z.ltb_spec v (2 ^ 31)); [|lia]); cbn [negb vm_as];
    by rewrite Ha, Hseg.
Qed.
End Spec.
