(* ===== verification/VmWorld.v ===== *)
(** * A machine with virtual memory

    A machine with 64 kilobytes, booted by the code itself, and small states
    written down by hand for the theorems about paging.  The swap file is a map
    from offsets to pages. *)

From S2P Require Import Prelude.
From S2P Require Import Ram.
From S2P Require Import Kheap.
From S2P Require Import KheapProof.
From S2P Require Import Copyinout.
From S2P Require Import Uio.
From S2P Require Import Tlb.
From S2P Require Import Coremap.
From S2P Require Import CoremapProof.
From S2P Require Import CoremapInv.
From S2P Require Import CoremapLaws.
From S2P Require Import CoremapBoot.
From S2P Require Import CoremapPages.
From S2P Require Import Addrspace.
From S2P Require Import VmSpec.

Abbreviation SF := (gmap Z page).

#[global] Instance map_swap : SwapFile SF := {
  swap_vop_write := fun off pg f => <[off := pg]> f;
  swap_vop_read := fun off old f => (default old (f !! off), f);
}.

#[global] Program Instance map_swap_laws : SwapFileLaws SF := {
  swap_img := fun f => f;
  swap_errors := fun _ => 0%nat;
}.
Next Obligation. done. Qed.
Next Obligation. intros off old f. cbn. split; [done|]. intros _. split; [done|]. by intros pg ->. Qed.

(** ** The machine at power-on *)

Definition off_tlb : tlbsys := mkTlbsys (replicate 64 (0, 0)) [] None 0.
Definition off_cm : cm := mkCm 0 0 0 0 [] None None.
Definition off_mem : gmap Z page :=
  list_to_map ((fun f => (f, replicate 4096 0)) <$> seqZ 0 16).
Definition off_core : core SF :=
  mkCore ram_zero off_tlb off_cm ∅ (mkSwapsys [] None ∅) off_mem SPL_HIGH.

Definition ram_up {F} (mips_ramsize firstfree : Z) : M (kheap (core F)) unit :=
  on_pages (fun c =>
    match ram_bootstrap mips_ramsize firstfree (co_ram c) with
    | Ret (_, r) => Ret (tt, set_co_ram r c)
    | Stop w => Stop w
    end).

(** The part of [boot] that concerns memory. *)
Definition boot : M (kheap (core SF)) unit :=
  let* _ := ram_up 0x10000 0x80003000 in
  let* _ := cm_bootstrap 0x10000 in
  let* _ := tlb_bootstrap in
  swap_bootstrap ∅.

Definition no_file (v : Z) (u : uio) : Z * uio := (EIO, u).

(** A process with a stack that touches the last page of it. *)
Definition process : M (vmsys SF) Z :=
  let* _ := on_kheap boot in
  let* p := as_create zero_segment in
  let* _ := set_vmspace p in
  let* _ := as_activate p in
  let* _ := as_define_stack p in
  let* _ := vm_fault no_file 0 VM_FAULT_WRITE (USERTOP - 4) in
  ret p.

Definition off_vm : vmsys SF := mkVm (kheap_zero off_core) ∅ ∅ 0 0.


(** What is wrong with the result of [execv_space]: the address space is a new
    one and no page of the old one is left, yet the processor still translates
    the page [v] to [f], and [f] is the next frame to be handed out. *)
Definition stale (v f p : Z) (s : vmsys SF) : bool :=
  bool_decide (t_vmspace s = p) && bool_decide (last_addrspace s = p) &&
  bool_decide (co_pds (vm_core s) = ∅) &&
  bool_decide (translate (co_tlb (vm_core s)) v = Some (entry_lo (f * PAGE_SIZE) 1)) &&
  bool_decide (free_frame_list (co_cm (vm_core s)) = Some f) &&
  bool_decide (cd_free <$> (mjoin (core_details (co_cm (vm_core s)) !! Z.to_nat f)) = Some 1).

(** [execv] leaves the pages of the old program mapped.  A booted kernel
    runs a process that wrote to the last page of its stack.  [as_destroy] frees
    the page and its address space, [as_create] gets the same block back from
    the allocator, and [as_activate] compares addresses and takes it for the
    space that was active already: the translation buffer is not emptied.  The
    new program can read and write the frame through the old page while the
    core map holds that frame as free. *)
Theorem execv_keeps_old_translation :
  match process off_vm with
  | Ret (p, s) =>
      match execv_space zero_segment s with
      | Ret (r, s') => r = 0 /\ t_vmspace s = p /\ stale (USERTOP - 4096) 15 p s' = true
      | Stop _ => False
      end
  | Stop _ => False
  end.
Proof. by vm_compute. Qed.

(** ** Two frames and two pages

    One frame holds a page of the user, the other belongs to the kernel; a
    second page of the user is in the first slot of the swap file. *)

Definition page_a : page := replicate 4096 1.
Definition page_b : page := replicate 4096 2.
Definition addr_a : Z := 0x80008000.
Definition addr_b : Z := 0x80008018.

Definition two_cm : cm :=
  mkCm 1 3 0 1
    [None; Some (mkCd 1 0 (Some addr_a) None None 0); Some (mkCd 2 1 None None None 0)] None None.
Definition two_pds : gmap Z page_detail :=
  {[ addr_a := mkPd 0x400000 1 (-1) 1 1 0; addr_b := mkPd 0x401000 (-1) 0 0 1 0 ]}.
Definition two_core : core SF :=
  mkCore (mkRam 0 0 0) blank_tlb two_cm two_pds
    (mkSwapsys init_pageList (Some 1) {[ 0 := page_b ]}) {[ 1 := page_a ]} 0.
Definition two_fl : list Z := seqZ 1 1023.
Definition two_segment : segment := mkSegment 1 0x400000 2 1 0x80007000 0 0x2000 0x2000 6.
Definition two_vm : vmsys SF :=
  mkVm (kheap_zero two_core) {[ 0x80006000 := mkAs [two_segment] 0 1 ]}
    {[ 0x80007000 := mkPt 2 (0x80006000, 0) addr_a ]} 0x80006000 0x80006000.

Lemma init_pageList_lookup i :
  0 <= i < SWAP_PAGES ->
  init_pageList !! Z.to_nat i = Some (mkFl i (if i =? SWAP_PAGES - 1 then None else Some (i + 1))).
Proof.
  intros Hi. unfold init_pageList. rewrite list_lookup_fmap, lookup_seqZ_lt by lia.
  cbn [fmap option_fmap option_map]. rewrite Z2Nat.id, Z.add_0_l by lia. done.
Qed.

Lemma init_pageList_chain (n : nat) i :
  0 <= i -> i + Z.of_nat n = SWAP_PAGES ->
  swap_chain init_pageList (if i =? SWAP_PAGES then None else Some i) (seqZ i (Z.of_nat n)).
Proof.
  revert i. induction n as [|n IH]; intros i Hi Hn.
  - assert (i = SWAP_PAGES) as -> by lia. done.
  - rewrite seqZ_cons by lia. destruct (Z.eqb_spec i SWAP_PAGES); [lia|].
    split; [done|]. split; [done|]. eexists. split; [by apply init_pageList_lookup; lia|]. cbn [fl_next].
    replace (Z.pred (Z.of_nat (S n))) with (Z.of_nat n) by lia. rewrite <- Z.add_1_r.
    specialize (IH (i + 1) ltac:(lia) ltac:(lia)).
    destruct (Z.eqb_spec i (SWAP_PAGES - 1)), (Z.eqb_spec (i + 1) SWAP_PAGES); done || lia.
Qed.

(** The list of slots from [i] on, as [swap_bootstrap] leaves it for [i = 0]. *)
Lemma init_swap_rep (f : SF) i :
  0 <= i < SWAP_PAGES -> swap_rep (mkSwapsys init_pageList (Some i) f) (seqZ i (SWAP_PAGES - i)).
Proof.
  intros Hi. split; cbn [pageList freePages].
  - unfold init_pageList. rewrite length_fmap, length_seqZ. done.
  - intros k n Hk Hn. pose proof (lookup_lt_Some _ _ _ Hn) as Hl.
    unfold init_pageList in Hl. rewrite length_fmap, length_seqZ in Hl.
    rewrite init_pageList_lookup in Hn by (unfold SWAP_PAGES in *; lia). by simplify_eq.
  - pose proof (init_pageList_chain (Z.to_nat (SWAP_PAGES - i)) i ltac:(lia) ltac:(lia)) as H.
    rewrite Z2Nat.id in H by lia. destruct (Z.eqb_spec i SWAP_PAGES); [lia|done].
  - apply NoDup_seqZ.
  - intros k Hk. apply elem_of_seqZ in Hk. lia.
Qed.

Lemma two_rep : cm_rep two_cm [].
Proof.
  split; try done.
  - intros i Hi. cbn in Hi. assert (i = 1 \/ i = 2) as [-> | ->] by lia; eexists; done.
  - constructor.
  - intros i Hi. by apply elem_of_nil in Hi.
  - intros i cd Hi Hcd. cbn in Hi. rewrite elem_of_nil.
    assert (i = 1 \/ i = 2) as [-> | ->] by lia; vm_compute in Hcd; simplify_eq; cbn; tauto.
Qed.

Lemma two_kern : kern_ok two_cm [] {[ 1 ]} ∅.
Proof.
  intros i Hi. cbn in Hi. assert (i = 1 \/ i = 2) as [-> | ->] by lia; cbn; split; try lia; set_solver.
Qed.

Lemma two_pds_cases a pd :
  two_pds !! a = Some pd ->
  (a = addr_a /\ pd = mkPd 0x400000 1 (-1) 1 1 0) \/ (a = addr_b /\ pd = mkPd 0x401000 (-1) 0 0 1 0).
Proof.
  unfold two_pds. intros [[<- <-]|[Hne H]]%lookup_insert_Some; [by left|].
  apply lookup_singleton_Some in H as [<- <-]. by right.
Qed.

Lemma two_frames : frames_ok two_core [] {[ 1 ]} ∅ two_fl.
Proof.
  split; cbn [co_cm co_ram co_pds two_core]; try done.
  - exact two_rep.
  - intros i ->%elem_of_singleton. split; [cbn; lia|]. split; [apply not_elem_of_nil|].
    exists addr_a. eexists. split; [done|]. by split.
  - intros a pd [[-> ->]|[-> ->]]%two_pds_cases; split; cbn; try (split; done); auto.
    + right. split; [set_solver|done].
    + right. split; [done|]. unfold two_fl. rewrite elem_of_seqZ. lia.
  - intros a a' pd pd' Ha%two_pds_cases Ha'%two_pds_cases Hne.
    destruct Ha as [[-> ->]|[-> ->]], Ha' as [[-> ->]|[-> ->]]; cbn; done.
  - right. split; [eexists _, _; exact blank_rep|]. exact (init_swap_rep _ 1 ltac:(done)).
Qed.

Lemma two_faulting :
  faulting two_vm two_segment 0x401000 addr_b (mkPd 0x401000 (-1) 0 0 1 0) [] {[ 1 ]} two_fl.
Proof.
  split; try done.
  - exact two_frames.
  - exact two_kern.
  - intros v lo Hu H. change (co_tlb (vm_core two_vm)) with blank_tlb in H.
    by rewrite (translate_map blank_rep) in H.
  - exists all_slots, ∅. split; [exact blank_rep|]. split; [done|]. apply Nat.ltb_lt. reflexivity.
  - eexists. by split.
Qed.

Lemma pt_page_in_restores_witness :
  wp (pt_page_in no_file 0 0x401000 two_segment) two_vm (fun _ s' =>
    page_bytes (vm_core s') addr_b = Some page_b /\
    exists f, resident two_core (vm_core s') addr_b f 0x401000 1 page_b).
Proof.
  eapply wp_conseq.
  - apply (pt_page_in_restores no_file two_vm 0 0x401000 two_segment addr_b
      (mkPd 0x401000 (-1) 0 0 1 0) [] {[ 1 ]} two_fl page_b two_faulting).
    + done.
    + reflexivity.
    + right. set_solver.
  - intros [_ H]. discriminate H.
  - intros [] s' [f R]. split; [exact (re_bytes _ _ _ _ _ _ _ R eq_refl) | by exists f].
Defined.

Lemma second_frame_panics_witness :
  wp cm_getppage two_core (fun f c' => cm_getppage c' = Stop Panic).
Proof.
  apply (second_frame_panics two_core {[ 1 ]} two_fl two_frames two_kern); [set_solver|discriminate].
Defined.

Lemma vm_fault_beyond_segment_panics_witness :
  vm_fault no_file 0 VM_FAULT_WRITE 0x402000 two_vm = Stop Panic.
Proof.
  apply (vm_fault_beyond_segment_panics no_file two_vm 0 VM_FAULT_WRITE 0x402000
    (mkAs [two_segment] 0 1) two_segment); try done; [by right | by left |].
  intros sg' ->%list_elem_of_singleton _ [_ H]. by vm_compute in H.
Defined.

(** ** Three frames, all free *)

Definition free_core : core SF :=
  mkCore (mkRam 0 0 0) off_tlb
    (mkCm 1 4 0 1 [None; Some (boot_cd 1 3 1); Some (boot_cd 1 3 2); Some (boot_cd 1 3 3)]
      (Some 3) (Some 1))
    ∅ (mkSwapsys [] None ∅) ∅ 0.

Lemma free_booted : booted free_core 1 3.
Proof.
  split; try done. intros j Hj. assert (j = 1 \/ j = 2 \/ j = 3) as [-> | [-> | ->]] by lia; done.
Qed.

Lemma kernel_run_leaks_witness :
  wp (let* p := vm_alloc_kpages 2 in vm_free_kpages p) free_core (fun _ c' => exists l' fl',
    frames_ok c' l' ∅ ∅ fl' /\ Z.of_nat (length l') + 1 = 3).
Proof.
  destruct (booted_frames free_core 1 3 [0; 1] free_booted) as [Hok Hk]; [lia|done|].
  apply (kernel_run_leaks free_core [3; 2; 1] [0; 1] 2 Hok Hk); [lia| |simpl; lia].
  intros H. destruct (H 1) as (j & Hj & Hne); [done..|].
  apply Hne. assert (j = 1 \/ j = 2) as [-> | ->] by lia; done.
Defined.

Definition start_core : core SF :=
  mkCore (mkRam 0x3000 0x10000 0x7fffffff) off_tlb off_cm ∅ (mkSwapsys [] None ∅) ∅ SPL_HIGH.

Lemma cm_bootstrap_starts_witness :
  wp (cm_bootstrap 0x10000) (kheap_zero start_core) (fun _ h' =>
    kheap_rep h' ∅ /\ is_vm_setup (co_ram (kpages h')) = true /\
    exists l, (forall f, f ∈ l <-> 4 <= f < 16) /\
      forall fl, frames_ok (kpages h') l ∅ ∅ fl /\ kern_ok (co_cm (kpages h')) l ∅ ∅).
Proof. apply (cm_bootstrap_starts start_core 0x10000); done. Defined.
